(* ===== verification/_CoqProject ===== *)
-Q . S2P
Prelude.v
RustStr.v
State.v
Identity.v
Resolver.v
Config.v
FsProbe.v
Generate.v
Recycle.v
Startup.v
Supervisor.v
SupervisorProps.v
Acl.v
Auth.v
FsManager.v
IdCache.v
Nss.v
NssRows.v
Idhelper.v
IdhelperProps.v
LdapClient.v
WebLogin.v
FsWarnings.v
RecycleLatch.v
AclGate.v
PermPlan.v
ApplyTask.v
PermViews.v
PermHandlers.v
LogLines.v
Observer.v
ObserverProps.v
ConfigLoad.v
SettingsForm.v
ShareForm.v
SharesValid.v
SettingsPage.v
SettingsSave.v
Host.v
Probes.v
SetupWizard.v
SettingsTools.v
NssContract.v
Readiness.v
IdentityChecks.v
WarmGate.v
Templates.v
IdhelperCli.v
Certs.v
HostTools.v
Manifest.v
