(* ===== verification/Prelude.v ===== *)
(** * Verification of nfs-klldap-host

    nfs-klldap-host is a container that serves NFS exports with Kerberos
    security.  Three Rust crates share the work: [nfs-klldap-config] (the
    configuration, the generator of every derived file, the pid-1 supervisor
    and the idhelper daemon), [nfs-klldap-identity] (Kerberos names and the LDAP
    resolver) and [nfs-klldap-ui] (the WebUI).  This library is a shallow
    embedding of their logic: pure functions are Gallina functions, code that
    threads state is explicit state passing or the state monad of [State.v],
    long-running behaviour is a step relation with its reachable states, and
    errors are values of [result] or [option].  Every definition is executable
    but the step relations.

    ** How the program fits together, and where it is modelled

    nfs-klldap.conf is loaded ([ConfigLoad]) and validated ([Config]), the state
    of the mounts is probed ([FsProbe]) and the derived files are written
    ([Templates], with the export fragments and adverts of [Generate]).  The
    supervisor ([Supervisor]) starts the services, compares fingerprints of the
    derived files across a reload and executes the plan that follows from them
    ([Recycle]), one decision per tick ([Startup]); Ganesha starts behind a gate
    over the identities that it will need ([WarmGate]).  The idhelper resolves
    principals ([Idhelper]) through NSS and the LDAP resolver ([Resolver]), keeps
    them in a cache with a file ([IdCache]) and publishes them in four passwd and
    group stores ([Nss]) that Ganesha reads; a thread follows the log of Ganesha
    ([LogLines]) and heals what it failed to map ([Observer]).  A first-run wizard
    ([SetupWizard]) tests and saves what a start needs, with the probes of
    [Probes].  The WebUI lets users in ([WebLogin]) by the local password or the
    directory ([LdapClient], over a resolver of its own), keeps their sessions
    ([Auth]), and changes permissions under the shares ([FsManager]) through
    privileged calls and ACL tools ([Acl]): a request is planned ([PermPlan])
    behind the ACL gate ([AclGate]), claims the one apply slot and runs as a task
    ([ApplyTask]); the pages show the tree, the panel of a node and the shares
    ([PermViews]).  The settings pages ([SettingsPage]) save forms ([SettingsForm],
    [ShareForm]) into the configuration file ([SettingsSave]).  Saved settings, the
    end of the wizard and flips of a capability ask the supervisor for a recycle
    ([RecycleLatch]).

    - [Prelude], [RustStr], [State]: results, machine words, sorting, the
      interface [HashIter] of a hash map's unspecified iteration order, the
      strings of the Rust standard library, the state monad with the
      preservation predicate [keeps] and its automation.
    - [Identity]: [nfs-klldap-identity/src/krb5/*.rs], [ldap/filter.rs],
      [nss/getent.rs]; a module per source file.
    - [Resolver]: [ldap/posix.rs], [ldap/tls.rs], [ldap/resolver.rs].  The record
      [Resolver] has the fields of [IdLdapResolver] (its maps are [gmap]s) and the
      world around it: the time, the attempts made, the searches sent.  The
      class [Stable] is what an invariant has to satisfy to hold in every state
      reachable through the public operations.
    - [Config]: [nfs-klldap-config/src/config.rs], [validate.rs]; [ConfigLoad]: the
      reading of the file in [config.rs] and [nfs-klldap-ui/src/config.rs];
      [FsProbe]: [fs_probe.rs]; [FsWarnings]: [fs_warnings.rs]; [Generate] and
      [Templates]: [generate/] and [ignored_attributes.rs]; [Recycle]:
      [exports_fingerprint.rs], [recycle_plan.rs]; [Startup] and [Probes]:
      [startup.rs]; [Host]: [hostname.rs], [persist.rs]; [Supervisor] and its
      theorems [SupervisorProps]: [supervisor/].
    - [NssContract], [Readiness], [IdentityChecks]: [ganesha_nss_contract.rs],
      [ganesha_readiness.rs] with [ganesha_liveness.rs],
      [ganesha_identity_pipeline.rs] with [idhelper_check.rs]; [WarmGate]: the
      gates of [supervisor/mod.rs] over them.  The record [Sys] is the system
      that the probes look at; [warm_identity_principals_before_ganesha] is the
      oracle [o_warm] of [Supervisor].
    - [IdCache]: [bin/idhelper/common.rs]; [Nss] and its theorems [NssRows]:
      [materialize.rs]; [Idhelper] and its theorems [IdhelperProps]: [resolve.rs]
      and [daemon.rs].  The record [Helper] holds the cache under its lock, the
      resolver, the disk, and counters that index the answers of the world.
      [LogLines]: the parsers of [observer.rs], [network.rs] and
      [ganesha_log_contract.rs]; [Observer] and its theorems [ObserverProps]:
      the loop of [observer.rs], a line of the log at a time.  [IdhelperCli]: the
      sub-commands of [main.rs], over the daemon at the other end of the socket.
    - [Acl], [Auth], [FsManager]: [nfs-klldap-ui/src/privileged.rs], [auth.rs],
      [fs.rs].
    - [LdapClient]: [nfs-klldap-ui/src/ldap.rs] and [nfs-klldap-config/src/idmap.rs];
      the record [LdapClient] has the fields of the source and the log of the
      binds tried.  [WebLogin]: [web/auth.rs], the setup gate of [web/mod.rs] and
      [web/setup.rs], the password change of [web/settings/mod.rs]; the record
      [Web] is the part of [AppState] that they use.
    - [AclGate]: [web/acl_capability.rs], [web/acl_status.rs], [web/acl_watch.rs] and
      the gates of [web/permission_tree.rs]; [PermPlan], [ApplyTask], [PermViews]
      and [PermHandlers] the rest of that file: decisions before a write, slot
      and tasks, pages, and the handlers composed of them.  The record [App]
      joins the session state [Web], the slot and the tasks spawned.
    - [SettingsForm]: [web/settings/spec.rs]; [ShareForm]: [web/settings_form.rs] and
      the tables of [web/settings/apply.rs]; [SharesValid]: what validation leaves
      of the shares; [SettingsPage], [SettingsSave], [SettingsTools] and the latch
      in [RecycleLatch]: [web/settings/mod.rs] and the write of [apply.rs].
      [SetupWizard]: [web/setup.rs], with a record [World] per request.
      [Manifest]: [web/manifest.rs]; [Certs]: [certs.rs] and the TLS start of
      [nfs-klldap-ui/src/main.rs].
    - [HostTools]: a module each for [proc_run.rs], [hook.rs], [signals.rs],
      [supervisor/logrotate.rs] and [template.rs].

    Names are those of the source; a field or constructor takes a prefix where
    Rocq needs one.  Names that Rust scopes by type or by closure are given
    after what they do.

    ** What is proved

    - Configuration: accepted configurations are well formed and stable under
      validation; a generation leaves every derived file with its text and
      ganesha.conf with exactly the fragments of the shares, or each file old or
      new as a whole; Kerberos is dropped only for an advertised Navahi share.
    - Supervision: one Ganesha at most, a reload brings the new exports to it, a
      failed reload keeps every service, the respawn rate is bounded, shutdown
      stops the children; Ganesha starts only when the principals it waits for
      are mapped, and nothing but a list of variables reaches its environment.
    - Directory: searches end and run only over connections authenticated as
      their DN, cached answers have a bounded age, unknown names are asked for
      once a minute, a bulk load is the directory.
    - Identities: the cache is synchronised exactly with the directory, a realm
      principal is looked up under its full name only and fails closed, the
      daemon's cache stays well formed, a failed reload changes nothing, the
      cache file reads back, and equal requests share one resolution without a
      thread waiting forever; the command line prints the groups of the daemon,
      and a preflight writes nothing but the files its environment names.
    - Observer: its heals are rate limited by user, by uid and over all, whatever
      the log says; it resolves no client machine from a candidate; the cache
      stays well formed under requests, reloads and log lines.
    - Stores: the group rows are sound and complete for the cache, the passwd
      rows have one line per login, the build does not depend on hash order, a
      steady cycle writes nothing.
    - WebUI: sessions refine an abstract table with expiry and survive a
      restart; a login gives a session to whom the specification over the
      directory admits and to nobody else, and its token lets the next request
      in; the live admin check uses no cache; the local password changes only
      after a new proof.  A mapped path stays inside its share, a permission change calls
      only what it may, counts every entry and partitions ACL runs, and the ACL
      text formats read back.
    - Permission requests: a task is spawned only for a live session and a free
      slot, for a plan every part of which is accounted for, and edits ACLs only
      where the probe found them supported; one apply runs at a time and does
      its steps in order; the gate agrees with the generator, cached verdicts
      are fresh, and a recycle request is never lost.
    - Settings: the document that is written reads as the form applied to what
      it read as before, and no other key is touched; the file is replaced only
      for a live session by text that was validated; saved shares are what the
      next start loads.
    - Setup: the wizard saves only what was tested, its redirects end after two
      steps at the page of the current step, and with a server that answers it
      reaches the login page.
    - Process: a pair written for a host is served until the host has another
      name, the TLS start comes up over any files, and the manifest says nothing
      beyond the public part of the configuration; a child is waited for in
      bounded time, hooks run in order up to the first failure, no signal is
      lost, and a log is kept under its cap.
    Other theorems record behaviour that looks unintended; they are named where
    the manifest lists it.

    ** Parameters and bounds

    Code outside the repository and the system are parameters: the LDAP server
    ([server], the answer to each attempt; [simple_bind], the answer to a user's
    bind), commands ([commands], [CommandRun], [sy_run]), the Unicode tables of
    [char] and of [str::to_lowercase], the failures of the file system
    ([WriteWorld], [WriteIo], [IoWorld], [SaveIo], [read_fails]), the syntax of TOML
    (the class [TomlDoc] with the laws [TomlLaws], and the instance [ModelDoc] in
    witnesses), the hash of the password file and its codec, the walk of a
    directory tree, and the [Oracle] of the supervisor.  The hypotheses used of them
    are that an attempt does not take negative time, that a directory answers, or
    that it cannot be reached; each is named and has an instance in a witness.
    Recursion is structural: the only counter is the number of attempts left of
    a search ([service_loop], three as in the source); a wait with a deadline is a
    list of the attempts that begin before it.  The call from a
    resolution into the refresh of all cached users, which would be a
    recursion, is an argument, and [refresh_never_called] shows that it is dead.
    Unsigned and signed integers are [Z] with their wrap-around or parse bound
    written out.

    ** Not modelled

    The HTTP layer and the markup of the pages, which is text around the values
    modelled; the generation and the loading of TLS certificates; the following
    of the log file (seek and rotation), the help texts and the tests of the
    idhelper; the command lines of the other programs, which print reports; the
    probe modes of the supervisor, which are its test harness; sending signals,
    reaping children and the network interfaces, which are calls of the system;
    log output.  Mutexes protect single operations, which run to completion; the
    places where threads meet on purpose, the single flight of the daemon, the
    recycle latch and the apply slot, are step relations. *)

From Stdlib Require Export Strings.Ascii.
From stdpp Require Export base option list gmap sets strings.
From Stdlib Require Export ZArith Lia.
From Stdlib Require Export Sorting.Sorted.

(** stdpp's [string_scope] is opened so that literals read as in the source;
    numerals stay in [nat] unless a file says otherwise. *)
#[global] Open Scope string_scope.
#[global] Open Scope list_scope.
#[global] Open Scope nat_scope.

(** ** Results

    [Result<T, E>] of the source.  A handler that fails returns [Err] with
    the value or the message the code builds. *)
Inductive result (A E : Type) : Type :=
| Ok (a : A)
| Err (e : E).
Arguments Ok {A E} a.
Arguments Err {A E} e.

Definition rbind {A B E} (r : result A E) (k : A -> result B E) : result B E :=
  match r with
  | Ok a => k a
  | Err e => Err e
  end.

Definition is_ok {A E} (r : result A E) : bool :=
  match r with Ok _ => true | Err _ => false end.

Definition is_some {A} (o : option A) : bool :=
  match o with Some _ => true | None => false end.

(** [bail_if c e]: the early [return Err(e)] taken when [c] holds. *)
Definition bail_if {E} (c : bool) (e : E) : result unit E :=
  if c then Err e else Ok tt.

Declare Scope rust_scope.
Delimit Scope rust_scope with rust.
Notation "x <-? m ;; k" := (rbind m (fun x => k))
  (at level 100, m at next level, right associativity) : rust_scope.
Notation "m ?;; k" := (rbind m (fun _ => k))
  (at level 100, right associativity) : rust_scope.
#[global] Open Scope rust_scope.

(** ** Machine integers: values are kept in [Z] with the width written out. *)
Definition wrap (w : Z) (x : Z) : Z := Z.modulo x (2 ^ w).
Definition in_width (w : Z) (x : Z) : Prop := (0 <= x < 2 ^ w)%Z.
Definition u16_max : Z := 65535.
Definition u32_max : Z := 4294967295.
Definition u64_max : Z := 18446744073709551615.
Definition u64_sat_sub (a b : Z) : Z := Z.max 0 (a - b).

(** ** Tactics *)

(** Split existentials and conjunctions of the context. *)
Ltac deexs :=
  repeat match goal with
  | H : exists x, _ |- _ => let x' := fresh x in destruct H as [x' H]
  | H : _ /\ _ |- _ => destruct H
  end.

(** Case analysis on the scrutinee of a [match]/[if] of the goal or of [H]. *)
Ltac case_goal :=
  match goal with
  | |- context [match ?x with _ => _ end] => destruct x eqn:?
  end.
Ltac case_in H :=
  match type of H with
  | context [match ?x with _ => _ end] => destruct x eqn:?
  end.

(** Invert a chain of [?]s and early returns known to end in [Ok]. *)
Ltac inv_ok H :=
  repeat (first
    [ progress (unfold rbind, bail_if in H)
    | progress simplify_eq/=
    | case_in H ]).

(** Membership in a closed list, by evaluation. *)
Ltac by_elem := apply list_elem_of_In; vm_compute; tauto.

Ltac by_not_elem :=
  let H := fresh in intros H; apply list_elem_of_In in H; vm_compute in H; intuition discriminate.

Ltac split_and_all := repeat match goal with |- _ /\ _ => split end.

(** ** Hint database of the shared lemmas *)
Create HintDb rust discriminated.
Create Rewrite HintDb rust.

Lemma rbind_ok {A B E} (r : result A E) (k : A -> result B E) b :
  rbind r k = Ok b <-> exists a, r = Ok a /\ k a = Ok b.
Proof. destruct r; cbn; naive_solver. Qed.

Lemma bail_if_ok {E} c (e : E) : bail_if c e = Ok tt <-> c = false.
Proof. destruct c; cbn; naive_solver. Qed.

Lemma wrap_range w x : (0 <= w)%Z -> in_width w (wrap w x).
Proof. intros. apply Z.mod_pos_bound. lia. Qed.

Lemma wrap_id w x : in_width w x -> wrap w x = x.
Proof. apply Z.mod_small. Qed.

#[export] Hint Resolve wrap_range : rust.
#[export] Hint Rewrite @rbind_ok @bail_if_ok : rust.

(** ** Loops with early return: [traverse f l] is [for x in l { f(x)? }]
    collecting the results. *)
Fixpoint traverse {A B E} (f : A -> result B E) (l : list A)
  : result (list B) E :=
  match l with
  | [] => Ok []
  | x :: r => y <-? f x ;; ys <-? traverse f r ;; Ok (y :: ys)
  end.

(** [fold_res f l s]: the same loop threading a mutable state. *)
Fixpoint fold_res {A S E} (f : S -> A -> result S E) (s : S) (l : list A)
  : result S E :=
  match l with
  | [] => Ok s
  | x :: r => s' <-? f s x ;; fold_res f s' r
  end.

Lemma traverse_ok {A B E} (f : A -> result B E) l ys :
  traverse f l = Ok ys <-> Forall2 (fun x y => f x = Ok y) l ys.
Proof.
  revert ys. induction l as [|x l IH]; intros ys; cbn.
  - split; [intros [= <-]; constructor | by intros ->%Forall2_nil_inv_l].
  - rewrite rbind_ok. setoid_rewrite rbind_ok. split.
    + intros (y & Hy & ys' & Hys & [= <-]). constructor; [done | by apply IH].
    + intros (y & ys' & Hy & Hys & ->)%Forall2_cons_inv_l.
      exists y. split; [done|]. exists ys'. by rewrite IH.
Qed.

(** An invariant of a fold with early return. *)
Lemma fold_res_inv {A S E} (P : S -> Prop) (f : S -> A -> result S E) l s s' :
  (forall s x s', x ∈ l -> P s -> f s x = Ok s' -> P s') ->
  P s -> fold_res f s l = Ok s' -> P s'.
Proof.
  revert s. induction l as [|x l IH]; intros s Hf Hs; cbn.
  - by intros [= <-].
  - intros (s1 & Hs1 & Hr)%rbind_ok. apply (IH s1); [|by eapply Hf; [left| |]|done].
    intros ??? Hin. apply Hf. by right.
Qed.

Lemma fold_res_app {A S E} (f : S -> A -> result S E) l1 l2 s :
  fold_res f s (l1 ++ l2) = (s' <-? fold_res f s l1 ;; fold_res f s' l2).
Proof.
  revert s. induction l1 as [|x l1 IH]; intros s; cbn; [done|].
  destruct (f s x); cbn; [apply IH | done].
Qed.

(** Induction on the length of a list, for scans that consume several
    elements at a time. *)
Lemma list_len_ind {A} (P : list A -> Prop) :
  (forall s, (forall t, length t < length s -> P t) -> P s) -> forall s, P s.
Proof.
  intros H s. assert (forall n t, length t < n -> P t) as Hn.
  { induction n as [|n IH]; intros t Ht; [lia|]. apply H. intros u Hu. apply IH. lia. }
  apply (Hn (S (length s))). lia.
Qed.

(** ** [sort] followed by [dedup]

    [Vec::sort] on a total order, then [Vec::dedup]: used for principals, hosts
    and gid lists.  The interface of the order is a class so that the lemmas
    serve strings and integers. *)
Class TotalLeb {A} (leb : A -> A -> bool) : Prop := {
  leb_total : forall x y, leb x y = true \/ leb y x = true;
  leb_trans : forall x y z, leb x y = true -> leb y z = true -> leb x z = true;
  leb_antisym : forall x y, leb x y = true -> leb y x = true -> x = y;
}.

Section SortDedup.
Context {A : Type} (leb eqb : A -> A -> bool).

Fixpoint insert_by (x : A) (l : list A) : list A :=
  match l with
  | [] => [x]
  | y :: r => if leb x y then x :: l else y :: insert_by x r
  end.
Definition sort_by : list A -> list A := foldr insert_by [].
Fixpoint dedup (l : list A) : list A :=
  match l with
  | [] => []
  | x :: r =>
      match r with
      | [] => [x]
      | y :: _ => if eqb x y then dedup r else x :: dedup r
      end
  end.
Definition sort_dedup (l : list A) : list A := dedup (sort_by l).

Lemma elem_of_insert_by z x l : z ∈ insert_by x l <-> z = x \/ z ∈ l.
Proof.
  induction l as [|y l IH]; cbn; [set_solver|]. destruct (leb x y); set_solver.
Qed.
Lemma elem_of_sort_by z l : z ∈ sort_by l <-> z ∈ l.
Proof.
  induction l as [|y l IH]; cbn; [done|]. rewrite elem_of_insert_by. set_solver.
Qed.
Context `{!TotalLeb leb} (eqb_spec : forall x y, eqb x y = true <-> x = y).
Local Abbreviation le := (fun x y => leb x y = true).

Lemma elem_of_dedup z l : z ∈ dedup l <-> z ∈ l.
Proof.
  induction l as [|x [|y r] IH]; [done|done|]. cbn [dedup].
  destruct (eqb x y) eqn:E.
  - apply eqb_spec in E as ->. rewrite IH. set_solver.
  - rewrite !elem_of_cons in *. rewrite IH. done.
Qed.
Lemma elem_of_sort_dedup z l : z ∈ sort_dedup l <-> z ∈ l.
Proof. unfold sort_dedup. by rewrite elem_of_dedup, elem_of_sort_by. Qed.

Lemma insert_by_sorted x l : StronglySorted le l -> StronglySorted le (insert_by x l).
Proof.
  induction 1 as [|y l Hl IH Hy]; cbn; [repeat constructor|].
  destruct (leb x y) eqn:E.
  - constructor; [by constructor|]. constructor; [done|].
    eapply Forall_impl; [exact Hy|]. intros z. by apply leb_trans.
  - constructor; [done|]. apply Forall_forall. intros z [->|Hz]%elem_of_insert_by.
    + by destruct (leb_total x y) as [?|?]; [congruence|].
    + rewrite Forall_forall in Hy. by apply Hy.
Qed.
Lemma sort_by_sorted l : StronglySorted le (sort_by l).
Proof. induction l; cbn; [constructor | by apply insert_by_sorted]. Qed.

(** Strictly increasing: each element is below and different from the later ones. *)
Local Abbreviation lt := (fun x y => leb x y = true /\ x <> y).
Lemma dedup_strict l : StronglySorted le l -> StronglySorted lt (dedup l).
Proof.
  induction 1 as [|x r Hr IH Hx]; [constructor|]. destruct r as [|y r]; cbn [dedup].
  - repeat constructor.
  - destruct (eqb x y) eqn:E; [done|]. constructor; [done|].
    apply Forall_forall. intros z Hz. apply (elem_of_dedup z (y :: r)) in Hz. split.
    + rewrite Forall_forall in Hx. by apply Hx.
    + intros <-. apply Forall_cons in Hx as [Hxy _].
      apply StronglySorted_inv in Hr as [_ Hy]. rewrite Forall_forall in Hy.
      assert (x = y) as ->; [|by rewrite (proj2 (eqb_spec y y) eq_refl) in E].
      apply elem_of_cons in Hz as [?|Hz]; [done|].
      apply leb_antisym; [done | by apply Hy].
Qed.
Lemma sort_dedup_strict l : StronglySorted lt (sort_dedup l).
Proof. apply dedup_strict, sort_by_sorted. Qed.

Lemma strict_ext l1 l2 :
  StronglySorted lt l1 -> StronglySorted lt l2 ->
  (forall z, z ∈ l1 <-> z ∈ l2) -> l1 = l2.
Proof.
  intros H1. revert l2. induction H1 as [|x l1 Hl1 IH Hx]; intros l2 H2 He.
  - destruct l2 as [|y ?]; [done|]. exfalso. specialize (He y). set_solver.
  - destruct H2 as [|y l2 Hl2 Hy]; [specialize (He x); set_solver|].
    rewrite Forall_forall in Hx, Hy.
    assert (x = y) as ->.
    { assert (x ∈ y :: l2) as [?|Hx2]%elem_of_cons by (apply He; set_solver); [done|].
      assert (y ∈ x :: l1) as [?|Hy1]%elem_of_cons by (apply He; set_solver); [done|].
      apply leb_antisym; [apply Hx|apply Hy]; done. }
    f_equal. apply IH; [done|]. intros z. specialize (He z).
    rewrite !elem_of_cons in He. split; intros Hz.
    + destruct (proj1 He (or_intror Hz)) as [->|?]; [|done].
      by destruct (proj2 (Hx _ Hz)).
    + destruct (proj2 He (or_intror Hz)) as [->|?]; [|done].
      by destruct (proj2 (Hy _ Hz)).
Qed.
(** The result depends only on the set of elements. *)
Lemma sort_dedup_canonical l1 l2 :
  (forall z, z ∈ l1 <-> z ∈ l2) -> sort_dedup l1 = sort_dedup l2.
Proof.
  intros H. apply strict_ext; try apply sort_dedup_strict.
  intros z. by rewrite !elem_of_sort_dedup.
Qed.
End SortDedup.

Lemma strict_NoDup {A} (R : A -> A -> Prop) l :
  (forall x, ~ R x x) -> StronglySorted R l -> NoDup l.
Proof.
  intros Hirr. induction 1 as [|x l Hl IH Hx]; constructor; [|done].
  intros Hin. rewrite Forall_forall in Hx. by apply (Hirr x), Hx.
Qed.

#[export] Instance Z_leb_total : TotalLeb Z.leb.
Proof. split; intros *; rewrite ?Z.leb_le; lia. Qed.

(** [loop f s l]: a [for] loop over a vector that rewrites its elements,
    threads a local state and may return early. *)
Fixpoint loop {A B S E} (f : S -> A -> result (S * B) E) (s : S) (l : list A)
  : result (S * list B) E :=
  match l with
  | [] => Ok (s, [])
  | x :: r =>
      p <-? f s x ;; q <-? loop f (fst p) r ;; Ok (fst q, snd p :: snd q)
  end.

(** Unfolding of a loop known to succeed. *)
Lemma loop_cons_ok {A B S E} (f : S -> A -> result (S * B) E) s x l s' ys :
  loop f s (x :: l) = Ok (s', ys) <->
  exists s1 y ys', f s x = Ok (s1, y) /\ loop f s1 l = Ok (s', ys') /\ ys = y :: ys'.
Proof.
  cbn. rewrite rbind_ok. split.
  - intros ([s1 y] & Hf & ([s2 ys'] & Hl & [= <- <-])%rbind_ok). eauto 6.
  - intros (s1 & y & ys' & Hf & Hl & ->). exists (s1, y). split; [done|].
    cbn. by rewrite Hl.
Qed.

(** Each element was produced by [f] from the element at its place. *)
Lemma loop_Forall2 {A B S E} (f : S -> A -> result (S * B) E) (P : A -> B -> Prop) s l s' ys :
  (forall s x s' y, f s x = Ok (s', y) -> P x y) ->
  loop f s l = Ok (s', ys) -> Forall2 P l ys.
Proof.
  intros Hf. revert s ys. induction l as [|x l IH]; intros s ys.
  - intros [= <- <-]. constructor.
  - intros (s1 & y & ys' & Hx & Hl & ->)%loop_cons_ok. constructor; eauto.
Qed.

(** A loop whose body records a key of each element in a set of seen keys,
    failing on a key seen before, ends with pairwise distinct keys. *)
Lemma loop_seen_NoDup {A B K E} `{Countable K} (f : gset K -> A -> result (gset K * B) E)
    (key : B -> K) s l s' ys :
  (forall s x s' y, f s x = Ok (s', y) -> key y ∉ s /\ s' = s ∪ {[key y]}) ->
  loop f s l = Ok (s', ys) ->
  NoDup (map key ys) /\ (forall y, y ∈ ys -> key y ∉ s).
Proof.
  intros Hf. revert s ys. induction l as [|x l IH]; intros s ys.
  - intros [= <- <-]. split; [constructor|]. by intros y ?%elem_of_nil.
  - intros (s1 & y & ys' & Hx & Hl & ->)%loop_cons_ok.
    destruct (Hf _ _ _ _ Hx) as [Hy ->]. destruct (IH _ _ Hl) as [Hnd Hns].
    split.
    + cbn. constructor; [|done]. intros (z & Hz & Hzin)%list_elem_of_fmap.
      apply (Hns z Hzin). set_solver.
    + intros z [->|Hz]%elem_of_cons; [done|]. specialize (Hns z Hz). set_solver.
Qed.

Lemma elem_of_filter_In {A} (p : A -> bool) l x :
  x ∈ List.filter p l <-> x ∈ l /\ p x = true.
Proof. by rewrite !list_elem_of_In, filter_In. Qed.

(** A split of a filtered list comes from a split of the list. *)
Lemma filter_split {A} (p : A -> bool) l l1 x l2 :
  List.filter p l = l1 ++ x :: l2 ->
  exists b a, l = b ++ x :: a /\ List.filter p a = l2.
Proof.
  revert l1. induction l as [|y l IH]; intros l1; cbn; [by destruct l1|].
  destruct (p y).
  - destruct l1 as [|z l1]; cbn; intros [= -> Hs]; [by exists [], l|].
    destruct (IH _ Hs) as (b & a & -> & Ha). by exists (z :: b), a.
  - intros Hs. destruct (IH _ Hs) as (b & a & -> & Ha). by exists (y :: b), a.
Qed.

(** Selecting from a sorted list keeps the keys sorted. *)
Lemma omap_sorted {A B} (R : A -> A -> Prop) (f : A -> option B) (key : B -> A) l :
  (forall x y, f x = Some y -> key y = x) ->
  StronglySorted R l -> StronglySorted R (map key (omap f l)).
Proof.
  intros Hk. induction 1 as [|x l Hl IH Hx]; cbn; [constructor|].
  destruct (f x) as [y|] eqn:E; cbn; [|done]. constructor; [done|].
  rewrite (Hk _ _ E). apply Forall_forall. intros z (w & -> & Hw)%list_elem_of_fmap.
  apply list_elem_of_omap in Hw as (v & Hv & Hfw). rewrite (Hk _ _ Hfw).
  rewrite Forall_forall in Hx. by apply Hx.
Qed.

(** ** Stable sort by a key

    [Vec::sort_by] with a comparison of keys.  When the keys are distinct the
    result does not depend on the order in which the elements arrive, which is
    what makes sorting the values of a hash map deterministic. *)
Section SortKey.
Context {A K : Type} (key : A -> K) (leb : K -> K -> bool) `{!TotalLeb leb}.
Definition sort_key : list A -> list A := sort_by (fun a b => leb (key a) (key b)).
Local Abbreviation le := (fun a b => leb (key a) (key b) = true).

Lemma insert_key_perm x l : insert_by (fun a b => leb (key a) (key b)) x l ≡ₚ x :: l.
Proof.
  induction l as [|y l IH]; cbn; [done|]. destruct (leb (key x) (key y)); [done|].
  rewrite IH. constructor.
Qed.
Lemma sort_key_perm l : sort_key l ≡ₚ l.
Proof.
  induction l as [|x l IH]; [done|]. cbn. rewrite insert_key_perm. by constructor.
Qed.
Lemma sort_key_sorted l : StronglySorted le (sort_key l).
Proof.
  induction l as [|x l IH]; [constructor|]. cbn. fold (sort_key l).
  induction IH as [|y r Hr IH Hy]; cbn; [repeat constructor|].
  destruct (leb (key x) (key y)) eqn:E.
  - constructor; [by constructor|]. constructor; [done|].
    eapply Forall_impl; [exact Hy|]. intros z. cbn. by apply leb_trans.
  - constructor; [done|]. apply Forall_forall. intros z Hz.
    rewrite (insert_key_perm x r), elem_of_cons in Hz. destruct Hz as [->|Hz].
    + by destruct (leb_total (key x) (key y)) as [?|?]; [congruence|].
    + rewrite Forall_forall in Hy. by apply Hy.
Qed.
Lemma sorted_key_ext l1 l2 :
  StronglySorted le l1 -> StronglySorted le l2 -> l1 ≡ₚ l2 -> NoDup (map key l1) -> l1 = l2.
Proof.
  intros H1. revert l2. induction H1 as [|x l1 Hl1 IH Hx]; intros l2 H2 Hp Hn.
  - by apply Permutation_nil_l in Hp as ->.
  - destruct H2 as [|y l2 Hl2 Hy]; [by apply Permutation_nil_r in Hp|].
    apply NoDup_cons in Hn as [Hnx Hn]. rewrite Forall_forall in Hx, Hy.
    assert (x = y) as ->.
    { assert (y ∈ x :: l1) as [->|Hy1]%elem_of_cons by (rewrite Hp; left); [done|].
      assert (x ∈ y :: l2) as [->|Hx2]%elem_of_cons by (rewrite <- Hp; left); [done|].
      destruct Hnx. rewrite (leb_antisym (key x) (key y)); [|by apply Hx|by apply Hy].
      by apply list_elem_of_fmap_2. }
    f_equal. apply IH; [done| |done]. by apply (Permutation_cons_inv (a := y)).
Qed.
Lemma sort_key_canonical l1 l2 :
  l1 ≡ₚ l2 -> NoDup (map key l1) -> sort_key l1 = sort_key l2.
Proof.
  intros Hp Hn. apply sorted_key_ext; try apply sort_key_sorted.
  - by rewrite !sort_key_perm.
  - assert (map key (sort_key l1) ≡ₚ map key l1) as -> by (apply Permutation_map, sort_key_perm).
    done.
Qed.
Lemma elem_of_sort_key x l : x ∈ sort_key l <-> x ∈ l.
Proof. by rewrite sort_key_perm. Qed.
End SortKey.

(** ** Iteration over a hash map

    A [HashMap] is iterated in an order the language does not fix and that
    changes from run to run.  The order is an interface: code that iterates
    over a hash map is written against [HashIter], and a theorem that holds for
    every instance does not depend on the order. *)
Class HashIter K `{Countable K} := {
  hiter : forall {A}, gmap K A -> list (K * A);
  hiter_perm : forall A (m : gmap K A), hiter m ≡ₚ map_to_list m;
}.
Definition hvalues `{Countable K} {h : HashIter K} {A} (m : gmap K A) : list A := map snd (hiter m).

Lemma elem_of_hiter `{HashIter K} {A} (m : gmap K A) k x :
  (k, x) ∈ hiter m <-> m !! k = Some x.
Proof. by rewrite hiter_perm, elem_of_map_to_list. Qed.
Lemma elem_of_hvalues `{HashIter K} {A} (m : gmap K A) x :
  x ∈ hvalues m <-> exists k, m !! k = Some x.
Proof.
  unfold hvalues. rewrite list_elem_of_fmap. split.
  - intros [[k y] [-> Hk%elem_of_hiter]]. eauto.
  - intros [k Hk%elem_of_hiter]. by exists (k, x).
Qed.
(** Two iterations of one map are permutations of each other. *)
Lemma hvalues_perm `{Countable K} (h1 h2 : HashIter K) {A} (m : gmap K A) :
  hvalues (h := h1) m ≡ₚ hvalues (h := h2) m.
Proof. unfold hvalues. by rewrite !hiter_perm. Qed.
Definition iter_forward `{Countable K} : HashIter K := {|
  hiter := fun A m => map_to_list m; hiter_perm := fun A m => reflexivity _ |}.
Definition iter_backward `{Countable K} : HashIter K := {|
  hiter := fun A m => reverse (map_to_list m);
  hiter_perm := fun A m => reverse_Permutation _ |}.
