(* ===== verification/RustStr.v ===== *)
(** * Strings of the Rust standard library

    A Rust [&str]/[String] is a sequence of UTF-8 bytes; it is modelled by
    [string], one [ascii] per byte.  This file defines the operations of
    [str] and [char] that the program uses, at the byte level, and the lemmas
    that the components share.

    Character operations on ASCII are exact.  [trim] knows every code point
    of the Unicode [White_Space] property by its UTF-8 bytes.  [char::to_lowercase] and
    [char::to_uppercase] are modelled by their ASCII restriction: the program
    only folds realms, DNS names, attribute names and boolean words. *)

From stdpp Require Export pretty.
From S2P Require Import Prelude.

(** ** Bytes *)
Definition byte (c : Ascii.ascii) : N := Ascii.N_of_ascii c.
Definition in_range (lo hi : N) (c : Ascii.ascii) : bool :=
  (lo <=? byte c)%N && (byte c <=? hi)%N.

Definition is_ascii_digit : Ascii.ascii -> bool := in_range 48 57.
Definition is_ascii_lowercase : Ascii.ascii -> bool := in_range 97 122.
Definition is_ascii_uppercase : Ascii.ascii -> bool := in_range 65 90.
Definition is_ascii_alphabetic (c : Ascii.ascii) : bool :=
  is_ascii_lowercase c || is_ascii_uppercase c.
Definition is_ascii_alphanumeric (c : Ascii.ascii) : bool :=
  is_ascii_alphabetic c || is_ascii_digit c.
Definition is_ascii_hexdigit (c : Ascii.ascii) : bool :=
  is_ascii_digit c || in_range 97 102 c || in_range 65 70 c.
Definition is_ascii (c : Ascii.ascii) : bool := (byte c <? 128)%N.
Definition is_ascii_control (c : Ascii.ascii) : bool :=
  (byte c <? 32)%N || (byte c =? 127)%N.

Definition upper_char (c : Ascii.ascii) : Ascii.ascii :=
  if is_ascii_lowercase c then Ascii.ascii_of_N (byte c - 32) else c.
Definition lower_char (c : Ascii.ascii) : Ascii.ascii :=
  if is_ascii_uppercase c then Ascii.ascii_of_N (byte c + 32) else c.

(** ** Byte strings as lists *)
Definition bytes : string -> list Ascii.ascii := String.list_ascii_of_string.
Definition of_bytes : list Ascii.ascii -> string :=
  String.string_of_list_ascii.

Fixpoint smap (f : Ascii.ascii -> Ascii.ascii) (s : string) : string :=
  match s with
  | "" => ""
  | String c r => String (f c) (smap f r)
  end.

Fixpoint sall (p : Ascii.ascii -> bool) (s : string) : bool :=
  match s with
  | "" => true
  | String c r => p c && sall p r
  end.

Fixpoint sany (p : Ascii.ascii -> bool) (s : string) : bool :=
  match s with
  | "" => false
  | String c r => p c || sany p r
  end.

Definition is_empty (s : string) : bool :=
  match s with "" => true | _ => false end.
Definition len (s : string) : nat := String.length s.
Definition ceqb : Ascii.ascii -> Ascii.ascii -> bool := Ascii.eqb.
Definition seqb : string -> string -> bool := String.eqb.
Definition to_ascii_uppercase : string -> string := smap upper_char.
Definition to_ascii_lowercase : string -> string := smap lower_char.
Definition eq_ignore_ascii_case (a b : string) : bool :=
  seqb (to_ascii_lowercase a) (to_ascii_lowercase b).
Definition contains_char (c : Ascii.ascii) : string -> bool := sany (ceqb c).

(** ** Prefixes, suffixes and substrings *)
Fixpoint strip_prefix (p s : string) : option string :=
  match p, s with
  | "", _ => Some s
  | String a p', String b s' => if ceqb a b then strip_prefix p' s' else None
  | _, _ => None
  end.
Definition starts_with (p s : string) : bool :=
  is_some (strip_prefix p s).
Definition srev (s : string) : string := of_bytes (reverse (bytes s)).
Definition strip_suffix (p s : string) : option string :=
  srev <$> strip_prefix (srev p) (srev s).
Definition ends_with (p s : string) : bool :=
  is_some (strip_suffix p s).

(** [s.find(p)] and [s.split_once(p)] for a non-empty string pattern. *)
Fixpoint split_once_str (p s : string) : option (string * string) :=
  match strip_prefix p s with
  | Some r => Some ("", r)
  | None =>
      match s with
      | "" => None
      | String c r =>
          match split_once_str p r with
          | Some (a, b) => Some (String c a, b)
          | None => None
          end
      end
  end.
Definition contains_str (p s : string) : bool :=
  is_some (split_once_str p s).

(** ** Splitting on a character class *)
Fixpoint split_once_p (p : Ascii.ascii -> bool) (s : string)
  : option (string * string) :=
  match s with
  | "" => None
  | String c r =>
      if p c then Some ("", r)
      else match split_once_p p r with
           | Some (a, b) => Some (String c a, b)
           | None => None
           end
  end.
Definition split_once (c : Ascii.ascii) : string -> option (string * string) :=
  split_once_p (ceqb c).

(** [rsplit_once]: the split at the last occurrence. *)
Fixpoint rsplit_once (c : Ascii.ascii) (s : string) : option (string * string) :=
  match s with
  | "" => None
  | String d r =>
      match rsplit_once c r with
      | Some (a, b) => Some (String d a, b)
      | None => if ceqb c d then Some ("", r) else None
      end
  end.

(** [s.split(p)]: never empty. *)
Fixpoint split_p (p : Ascii.ascii -> bool) (s : string) : list string :=
  match s with
  | "" => [""]
  | String c r =>
      if p c then "" :: split_p p r
      else match split_p p r with
           | h :: t => String c h :: t
           | [] => [String c ""]
           end
  end.
Definition split (c : Ascii.ascii) : string -> list string := split_p (ceqb c).

(** [s.splitn(n, c)] for [n >= 1]. *)
Fixpoint splitn (n : nat) (c : Ascii.ascii) (s : string) : list string :=
  match n with
  | 0 => []
  | 1 => [s]
  | S n' =>
      match split_once c s with
      | Some (a, b) => a :: splitn n' c b
      | None => [s]
      end
  end.

Definition before (c : Ascii.ascii) (s : string) : string :=
  match split_once c s with Some (a, _) => a | None => s end.
Definition after_last (c : Ascii.ascii) (s : string) : string :=
  match rsplit_once c s with Some (_, b) => b | None => s end.

(** [a.join(sep)] *)
Fixpoint join (sep : string) (l : list string) : string :=
  match l with
  | [] => ""
  | [x] => x
  | x :: r => x +:+ sep +:+ join sep r
  end.

(** ** White space *)
Definition ws1 (c : Ascii.ascii) : bool := in_range 9 13 c || (byte c =? 32)%N.
Definition ws2 (a b : Ascii.ascii) : bool :=
  (byte a =? 194)%N && ((byte b =? 133)%N || (byte b =? 160)%N).
Definition ws3 (a b c : Ascii.ascii) : bool :=
  ((byte a =? 225)%N && (byte b =? 154)%N && (byte c =? 128)%N)
  || ((byte a =? 226)%N && (byte b =? 128)%N
      && (in_range 128 138 c || in_range 168 169 c || (byte c =? 175)%N))
  || ((byte a =? 226)%N && (byte b =? 129)%N && (byte c =? 159)%N)
  || ((byte a =? 227)%N && (byte b =? 128)%N && (byte c =? 128)%N).

(** Drop the leading white-space characters, given their one-, two- and
    three-byte encodings. *)
Fixpoint drop_ws (w1 : Ascii.ascii -> bool) (w2 : Ascii.ascii -> Ascii.ascii -> bool)
    (w3 : Ascii.ascii -> Ascii.ascii -> Ascii.ascii -> bool) (s : list Ascii.ascii)
  : list Ascii.ascii :=
  match s with
  | [] => []
  | a :: r1 =>
      if w1 a then drop_ws w1 w2 w3 r1
      else match r1 with
           | [] => s
           | b :: r2 =>
               if w2 a b then drop_ws w1 w2 w3 r2
               else match r2 with
                    | [] => s
                    | c :: r3 => if w3 a b c then drop_ws w1 w2 w3 r3 else s
                    end
           end
  end.

Definition trim_start_l : list Ascii.ascii -> list Ascii.ascii := drop_ws ws1 ws2 ws3.
Definition trim_end_l (s : list Ascii.ascii) : list Ascii.ascii :=
  reverse (drop_ws ws1 (fun b a => ws2 a b) (fun c b a => ws3 a b c) (reverse s)).
Definition trim_start (s : string) : string := of_bytes (trim_start_l (bytes s)).
Definition trim_end (s : string) : string := of_bytes (trim_end_l (bytes s)).
Definition trim (s : string) : string :=
  of_bytes (trim_end_l (trim_start_l (bytes s))).

(** [trim_start_matches(c)], [trim_end_matches(c)], [trim_matches(c)] *)
Fixpoint trim_start_matches (c : Ascii.ascii) (s : string) : string :=
  match s with
  | "" => ""
  | String d r => if ceqb c d then trim_start_matches c r else s
  end.
Fixpoint trim_end_matches (c : Ascii.ascii) (s : string) : string :=
  match s with
  | "" => ""
  | String d r =>
      let t := trim_end_matches c r in
      if is_empty t && ceqb c d then "" else String d t
  end.
Definition trim_matches (c : Ascii.ascii) (s : string) : string :=
  trim_end_matches c (trim_start_matches c s).

(** ** Numbers *)
Definition digit_val (c : Ascii.ascii) : Z := Z.of_N (byte c) - 48.
Fixpoint digits_val (acc : Z) (s : string) : Z :=
  match s with
  | "" => acc
  | String c r => digits_val (acc * 10 + digit_val c) r
  end.
(** [s.parse::<uW>()]: an optional [+], at least one digit, no overflow. *)
Definition parse_uint (max : Z) (s : string) : option Z :=
  let d := match s with String c r => if ceqb "+"%char c then r else s | "" => s end in
  if is_empty d || negb (sall is_ascii_digit d) then None
  else let v := digits_val 0 d in
       if (v <=? max)%Z then Some v else None.
Definition dec (n : Z) : string := pretty (Z.to_N n).
Definition dec02 (n : Z) : string :=
  if (n <? 10)%Z then "0" +:+ dec n else dec n.

(** [s.lines()]: split on newlines, the last empty line dropped and one carriage
    return before a newline removed; an unterminated last line keeps its own. *)
Definition nl : Ascii.ascii := "010"%char.
Definition cr : string := String "013"%char "".
Definition drop_cr (l : string) : string := match strip_suffix cr l with Some l' => l' | None => l end.
Definition lines (s : string) : list string :=
  let parts := split nl s in
  map drop_cr (take (length parts - 1) parts)
  ++ match last parts with None | Some "" => [] | Some l => [l] end.

(** [s.split_whitespace()]: the pieces between white-space characters, of one, two
    or three bytes. *)
Definition push_byte (c : Ascii.ascii) (l : list (list Ascii.ascii)) : list (list Ascii.ascii) :=
  match l with h :: t => (c :: h) :: t | [] => [[c]] end.
Fixpoint split_ws (s : list Ascii.ascii) : list (list Ascii.ascii) :=
  match s with
  | [] => [[]]
  | a :: r1 =>
      if ws1 a then [] :: split_ws r1
      else match r1 with
           | [] => push_byte a (split_ws r1)
           | b :: r2 =>
               if ws2 a b then [] :: split_ws r2
               else match r2 with
                    | [] => push_byte a (split_ws r1)
                    | c :: r3 => if ws3 a b c then [] :: split_ws r3 else push_byte a (split_ws r1)
                    end
           end
  end.
Definition split_whitespace (s : string) : list string :=
  List.filter (fun w => negb (is_empty w)) (map of_bytes (split_ws (bytes s))).

(** Byte-wise order of [str]. *)
Fixpoint sleb (a b : string) : bool :=
  match a, b with
  | "", _ => true
  | String _ _, "" => false
  | String x a', String y b' =>
      (byte x <? byte y)%N || (ceqb x y && sleb a' b')
  end.

(** [s.replace(from, to)] for a non-empty [from]: [skip] bytes of a match
    still have to be passed over. *)
Fixpoint replace_go (from to : string) (skip : nat) (s : string) : string :=
  match s with
  | "" => ""
  | String c r =>
      match skip with
      | S k => replace_go from to k r
      | 0 => if starts_with from s
             then to +:+ replace_go from to (len from - 1) r
             else String c (replace_go from to 0 r)
      end
  end.
Definition replace (from to s : string) : string := replace_go from to 0 s.

#[global] Arguments trim _ : simpl never.
#[global] Arguments trim_start _ : simpl never.
#[global] Arguments trim_end _ : simpl never.
#[global] Arguments trim_matches _ _ : simpl never.
#[global] Arguments dec _ : simpl never.
#[global] Arguments starts_with _ _ : simpl never.

(** ** Lemmas: equality, concatenation, byte lists *)
Lemma seqb_eq a b : seqb a b = true <-> a = b.
Proof. apply String.eqb_eq. Qed.
Lemma seqb_neq a b : seqb a b = false <-> a <> b.
Proof. apply String.eqb_neq. Qed.
Lemma seqb_refl a : seqb a a = true.
Proof. apply String.eqb_refl. Qed.
Lemma ceqb_eq a b : ceqb a b = true <-> a = b.
Proof. apply Ascii.eqb_eq. Qed.
Lemma ceqb_neq a b : ceqb a b = false <-> a <> b.
Proof. apply Ascii.eqb_neq. Qed.
Lemma ceqb_refl a : ceqb a a = true.
Proof. apply Ascii.eqb_refl. Qed.

Lemma is_empty_true s : is_empty s = true <-> s = "".
Proof. by destruct s. Qed.
Lemma is_empty_false s : is_empty s = false <-> s <> "".
Proof. by destruct s. Qed.

Lemma sapp_nil_l s : "" +:+ s = s.
Proof. done. Qed.
Lemma sapp_nil_r s : s +:+ "" = s.
Proof. induction s as [|c s IH]; [done|]. change (String c (s +:+ "") = String c s). by rewrite IH. Qed.
Lemma sapp_cons c a b : String c a +:+ b = String c (a +:+ b).
Proof. done. Qed.
Lemma sapp_assoc a b c : (a +:+ b) +:+ c = a +:+ b +:+ c.
Proof. induction a as [|x a IH]; [done|]. by rewrite !sapp_cons, IH. Qed.
Lemma sapp_inj_l a b c : a +:+ b = a +:+ c -> b = c.
Proof. induction a as [|x a IH]; [done|]. rewrite !sapp_cons. intros [= H]. auto. Qed.

Lemma bytes_app a b : bytes (a +:+ b) = bytes a ++ bytes b.
Proof. induction a as [|c a IH]; [done|]. rewrite sapp_cons. cbn. by f_equal. Qed.
Lemma of_bytes_bytes s : of_bytes (bytes s) = s.
Proof. apply String.string_of_list_ascii_of_string. Qed.
Lemma bytes_of_bytes l : bytes (of_bytes l) = l.
Proof. apply String.list_ascii_of_string_of_list_ascii. Qed.
Lemma bytes_inj a b : bytes a = bytes b -> a = b.
Proof. intros H. by rewrite <- (of_bytes_bytes a), H, of_bytes_bytes. Qed.
Lemma of_bytes_app a b : of_bytes (a ++ b) = of_bytes a +:+ of_bytes b.
Proof. apply bytes_inj. by rewrite bytes_app, !bytes_of_bytes. Qed.
Lemma bytes_srev s : bytes (srev s) = reverse (bytes s).
Proof. apply bytes_of_bytes. Qed.
Lemma srev_srev s : srev (srev s) = s.
Proof. apply bytes_inj. by rewrite !bytes_srev, reverse_involutive. Qed.
Lemma srev_app a b : srev (a +:+ b) = srev b +:+ srev a.
Proof. apply bytes_inj. by rewrite bytes_app, !bytes_srev, bytes_app, reverse_app. Qed.
Lemma len_app a b : len (a +:+ b) = len a + len b.
Proof. induction a as [|c a IH]; [done|]. rewrite sapp_cons. cbn. by f_equal. Qed.

(** ** Lemmas: character predicates over strings *)
Lemma sany_app p a b : sany p (a +:+ b) = sany p a || sany p b.
Proof. induction a as [|c a IH]; [done|]. rewrite sapp_cons. cbn. by rewrite IH, orb_assoc. Qed.
Lemma sall_app p a b : sall p (a +:+ b) = sall p a && sall p b.
Proof. induction a as [|c a IH]; [done|]. rewrite sapp_cons. cbn. by rewrite IH, andb_assoc. Qed.
Lemma smap_app f a b : smap f (a +:+ b) = smap f a +:+ smap f b.
Proof. induction a as [|c a IH]; [done|]. rewrite !sapp_cons. cbn. by rewrite IH. Qed.
Lemma bytes_smap f s : bytes (smap f s) = f <$> bytes s.
Proof. induction s as [|c s IH]; cbn; [done|]. by f_equal. Qed.
Lemma smap_smap f g s : smap f (smap g s) = smap (fun c => f (g c)) s.
Proof. induction s as [|c s IH]; cbn; [done|]. by rewrite IH. Qed.
Lemma smap_ext f g s : (forall c, f c = g c) -> smap f s = smap g s.
Proof. intros H. induction s as [|c s IH]; cbn; [done|]. by rewrite H, IH. Qed.
Lemma sall_impl (p q : Ascii.ascii -> bool) s :
  (forall c, p c = true -> q c = true) -> sall p s = true -> sall q s = true.
Proof.
  intros H. induction s as [|c s IH]; cbn; [done|].
  rewrite !andb_true_iff. naive_solver.
Qed.
Lemma sany_smap p f s : sany p (smap f s) = sany (fun c => p (f c)) s.
Proof. induction s as [|c s IH]; cbn; [done|]. by rewrite IH. Qed.
Lemma sany_ext p q s : (forall c, p c = q c) -> sany p s = sany q s.
Proof. intros H. induction s as [|c s IH]; cbn; [done|]. by rewrite H, IH. Qed.
Lemma sall_not_any p s : sall (fun c => negb (p c)) s = negb (sany p s).
Proof. induction s as [|c s IH]; cbn; [done|]. by rewrite IH, negb_orb. Qed.
Lemma contains_char_app c a b :
  contains_char c (a +:+ b) = contains_char c a || contains_char c b.
Proof. apply sany_app. Qed.
(** A string whose bytes all satisfy [p] has no byte outside [p]. *)
Lemma sall_no_char p c s :
  p c = false -> sall p s = true -> contains_char c s = false.
Proof.
  intros Hp Hs. apply negb_true_iff. unfold contains_char.
  rewrite <- sall_not_any. revert Hs. apply sall_impl. intros d Hd.
  apply negb_true_iff, ceqb_neq. congruence.
Qed.

(** A statement about every byte is checked on the 256 of them. *)
Lemma ascii_all (p : Ascii.ascii -> bool) :
  forallb (fun n => p (Ascii.ascii_of_nat n)) (seq 0 256) = true ->
  forall c, p c = true.
Proof.
  intros H c. rewrite forallb_forall in H.
  rewrite <- (Ascii.ascii_nat_embedding c). apply H.
  apply in_seq. pose proof (Ascii.nat_ascii_bounded c). lia.
Qed.
Ltac by_bytes := apply ascii_all; vm_compute; reflexivity.

Lemma upper_upper c : upper_char (upper_char c) = upper_char c.
Proof. apply ceqb_eq. revert c. by_bytes. Qed.
Lemma lower_lower c : lower_char (lower_char c) = lower_char c.
Proof. apply ceqb_eq. revert c. by_bytes. Qed.
Lemma to_ascii_uppercase_idem s :
  to_ascii_uppercase (to_ascii_uppercase s) = to_ascii_uppercase s.
Proof. unfold to_ascii_uppercase. rewrite smap_smap. apply smap_ext, upper_upper. Qed.
Lemma to_ascii_lowercase_idem s :
  to_ascii_lowercase (to_ascii_lowercase s) = to_ascii_lowercase s.
Proof. unfold to_ascii_lowercase. rewrite smap_smap. apply smap_ext, lower_lower. Qed.
Lemma to_ascii_uppercase_empty s : is_empty (to_ascii_uppercase s) = is_empty s.
Proof. by destruct s. Qed.
#[export] Hint Rewrite to_ascii_uppercase_idem to_ascii_lowercase_idem sapp_nil_r
  of_bytes_bytes bytes_of_bytes seqb_refl ceqb_refl : rust.

(** ** Lemmas: prefixes and splits *)
Lemma strip_prefix_spec p s r : strip_prefix p s = Some r <-> s = p +:+ r.
Proof.
  revert s. induction p as [|a p IH]; intros [|b s]; cbn.
  - change ("" +:+ r) with r. split; congruence.
  - change ("" +:+ r) with r. split; congruence.
  - split; [done | by rewrite sapp_cons].
  - rewrite sapp_cons. destruct (ceqb a b) eqn:E.
    + apply ceqb_eq in E as ->. rewrite IH. split; congruence.
    + apply ceqb_neq in E. split; [done|congruence].
Qed.
Lemma strip_suffix_spec p s r : strip_suffix p s = Some r <-> s = r +:+ p.
Proof.
  unfold strip_suffix. rewrite fmap_Some. split.
  - intros (x & Hx%strip_prefix_spec & ->).
    rewrite <- (srev_srev s), Hx, srev_app, srev_srev. done.
  - intros ->. exists (srev r). by rewrite strip_prefix_spec, srev_app, srev_srev.
Qed.
Lemma starts_with_spec p s : starts_with p s = true <-> exists r, s = p +:+ r.
Proof.
  unfold starts_with. destruct (strip_prefix p s) eqn:E; cbn.
  - apply strip_prefix_spec in E. split; [by exists s0 | done].
  - split; [done|]. intros [r Hr%strip_prefix_spec]. congruence.
Qed.

Lemma split_once_app c a b :
  contains_char c a = false -> split_once c (a +:+ String c b) = Some (a, b).
Proof.
  unfold split_once, contains_char. induction a as [|d a IH].
  - intros _. rewrite sapp_nil_l. cbn. by rewrite ceqb_refl.
  - rewrite sapp_cons. cbn. intros [-> H]%orb_false_iff. by rewrite IH.
Qed.
Lemma split_once_some c s a b :
  split_once c s = Some (a, b)
  <-> s = a +:+ String c b /\ contains_char c a = false.
Proof.
  split; [|intros [-> ?]; by apply split_once_app].
  unfold split_once, contains_char. revert a b.
  induction s as [|d s IH]; intros a b; cbn; [done|].
  destruct (ceqb c d) eqn:E.
  - apply ceqb_eq in E as ->. by intros [= <- <-].
  - destruct (split_once_p (ceqb c) s) as [[a' b']|]; [|done].
    intros [= <- <-]. destruct (IH _ _ eq_refl) as [-> H].
    rewrite sapp_cons. cbn. by rewrite E.
Qed.
Lemma split_once_none c s : split_once c s = None <-> contains_char c s = false.
Proof.
  unfold split_once, contains_char. induction s as [|d s IH]; cbn; [done|].
  destruct (ceqb c d); cbn; [done|].
  destruct (split_once_p (ceqb c) s) as [[]|]; rewrite <- IH; done.
Qed.
Lemma rsplit_once_none c s : rsplit_once c s = None <-> contains_char c s = false.
Proof.
  unfold contains_char. induction s as [|d s IH]; cbn; [done|].
  destruct (rsplit_once c s) as [[]|].
  - split; [done|]. intros [_ H]%orb_false_iff. apply IH in H. done.
  - rewrite (proj1 IH eq_refl), orb_false_r. by destruct (ceqb c d).
Qed.
Lemma rsplit_once_app c a b :
  contains_char c b = false -> rsplit_once c (a +:+ String c b) = Some (a, b).
Proof.
  intros Hb. induction a as [|d a IH].
  - rewrite sapp_nil_l. cbn. by rewrite (proj2 (rsplit_once_none c b) Hb), ceqb_refl.
  - rewrite sapp_cons. cbn. by rewrite IH.
Qed.
Lemma rsplit_once_some c s a b :
  rsplit_once c s = Some (a, b)
  -> s = a +:+ String c b /\ contains_char c b = false.
Proof.
  revert a. induction s as [|d s IH]; intros a; cbn; [done|].
  destruct (rsplit_once c s) as [[a' b']|] eqn:E.
  - intros [= <- <-]. destruct (IH _ eq_refl) as [-> ?]. by rewrite sapp_cons.
  - destruct (ceqb c d) eqn:Ec; [|done]. apply ceqb_eq in Ec as ->.
    intros [= <- <-]. by apply rsplit_once_none in E.
Qed.

Lemma split_nonempty p s : split_p p s <> [].
Proof. destruct s; cbn; [done|]. destruct (p a); [done|]. by destruct (split_p p s). Qed.
Lemma split_no_char c s : contains_char c s = false -> split c s = [s].
Proof.
  unfold split, contains_char. induction s as [|d s IH]; cbn; [done|].
  intros [-> H]%orb_false_iff. by rewrite IH.
Qed.
Lemma split_app c a b :
  contains_char c a = false -> split c (a +:+ String c b) = a :: split c b.
Proof.
  unfold split, contains_char. induction a as [|d a IH]; [intros _|].
  - rewrite sapp_nil_l. cbn. by rewrite ceqb_refl.
  - rewrite sapp_cons. cbn. intros [-> H]%orb_false_iff. by rewrite IH.
Qed.
(** The first piece of [split] is what [split_once] leaves before the match. *)
Lemma split_head c s : head (split c s) = Some (before c s).
Proof.
  unfold before. destruct (split_once c s) as [[a b]|] eqn:E.
  - apply split_once_some in E as [-> Ha]. by rewrite split_app.
  - apply split_once_none in E. by rewrite split_no_char.
Qed.
Lemma before_no_char c s : contains_char c (before c s) = false.
Proof.
  unfold before. destruct (split_once c s) as [[a b]|] eqn:E.
  - by apply split_once_some in E as [_ ?].
  - by apply split_once_none in E.
Qed.
Lemma before_app c a b : contains_char c a = false -> before c (a +:+ String c b) = a.
Proof. intros H. unfold before. by rewrite split_once_app. Qed.
Lemma before_none c a : contains_char c a = false -> before c a = a.
Proof. intros H. unfold before. by rewrite (proj2 (split_once_none c a) H). Qed.
(** [split] and [join] on one separator are inverse. *)
Lemma join_split c l :
  l <> [] -> Forall (fun s => contains_char c s = false) l ->
  split c (join (String c "") l) = l.
Proof.
  intros Hne H. induction H as [|x l Hx Hl IH]; [done|].
  destruct l as [|y l]; [by apply split_no_char|].
  change (join (String c "") (x :: y :: l))
    with (x +:+ String c (join (String c "") (y :: l))).
  rewrite split_app by done. by rewrite IH.
Qed.

(** ** Lemmas: white space *)
Section DropWs.
Context (w1 : Ascii.ascii -> bool) (w2 : Ascii.ascii -> Ascii.ascii -> bool)
  (w3 : Ascii.ascii -> Ascii.ascii -> Ascii.ascii -> bool).
Local Abbreviation drop := (drop_ws w1 w2 w3).

(** The list starts with a white-space character. *)
Definition hd_ws (s : list Ascii.ascii) : bool :=
  match s with
  | [] => false
  | [a] => w1 a
  | [a; b] => w1 a || w2 a b
  | a :: b :: c :: _ => w1 a || w2 a b || w3 a b c
  end.

Lemma drop_ws_stable s : hd_ws s = false -> drop s = s.
Proof.
  destruct s as [|a [|b [|c r]]]; cbn; [done| | |]; repeat case_match; cbn; done.
Qed.

Lemma drop_ws_hd s : hd_ws (drop s) = false.
Proof.
  induction s as [s IH] using list_len_ind.
  destruct s as [|a [|b [|c r]]]; cbn; [done| | |].
  - by destruct (w1 a) eqn:E.
  - destruct (w1 a) eqn:E; [apply (IH [b]); cbn; lia|]. destruct (w2 a b) eqn:E2; cbn; [done|].
    by rewrite E, E2.
  - destruct (w1 a) eqn:E; [apply (IH (b :: c :: r)); cbn; lia|].
    destruct (w2 a b) eqn:E2; [apply (IH (c :: r)); cbn; lia|].
    destruct (w3 a b c) eqn:E3; [apply (IH r); cbn; lia|]. cbn. by rewrite E, E2, E3.
Qed.

Lemma drop_ws_suffix s : exists p, s = p ++ drop s.
Proof.
  induction s as [s IH] using list_len_ind.
  destruct s as [|a [|b [|c r]]]; cbn.
  - by exists [].
  - destruct (w1 a); [by exists [a] | by exists []].
  - destruct (w1 a).
    { destruct (IH [b]) as [p Hp]; [cbn; lia|]. exists (a :: p). cbn. by f_equal. }
    destruct (w2 a b); [by exists [a; b] | by exists []].
  - destruct (w1 a).
    { destruct (IH (b :: c :: r)) as [p Hp]; [cbn; lia|]. exists (a :: p). cbn. by f_equal. }
    destruct (w2 a b).
    { destruct (IH (c :: r)) as [p Hp]; [cbn; lia|]. exists (a :: b :: p). cbn. by do 2 f_equal. }
    destruct (w3 a b c); [|by exists []].
    destruct (IH r) as [p Hp]; [cbn; lia|]. exists (a :: b :: c :: p). cbn. by do 3 f_equal.
Qed.

(** A prefix of a list that starts with no white space has none either. *)
Lemma hd_ws_prefix a b : hd_ws (a ++ b) = false -> hd_ws a = false.
Proof.
  destruct a as [|x [|y [|z r]]]; cbn; [done| | |done].
  - destruct b as [|? [|??]]; cbn; rewrite ?orb_false_iff; tauto.
  - destruct b; cbn; rewrite ?orb_false_iff; tauto.
Qed.

(** A byte that takes part in no white-space character stops the scan. *)
Definition no_ws (x : Ascii.ascii) : Prop :=
  w1 x = false /\ (forall a, w2 a x = false /\ w2 x a = false)
  /\ (forall a b, w3 x a b = false /\ w3 a x b = false /\ w3 a b x = false).

Lemma drop_ws_app a x b : no_ws x -> drop (a ++ x :: b) = drop a ++ x :: b.
Proof.
  intros (H1 & H2 & H3). induction a as [a IH] using list_len_ind.
  destruct a as [|p [|q [|r l]]].
  - cbn. rewrite H1. destruct b as [|? [|??]]; [done| |];
      rewrite (proj2 (H2 _)); [done|]. by rewrite (proj1 (H3 _ _)).
  - cbn. destruct (w1 p); cbn.
    { apply (IH []); cbn; lia. }
    rewrite (proj1 (H2 p)). destruct b; [done|]. by rewrite (proj1 (proj2 (H3 _ _))).
  - cbn. destruct (w1 p). { apply (IH [q]); cbn; lia. }
    destruct (w2 p q). { apply (IH []); cbn; lia. }
    by rewrite (proj2 (proj2 (H3 _ _))).
  - cbn. destruct (w1 p). { apply (IH (q :: r :: l)); cbn; lia. }
    destruct (w2 p q). { apply (IH (r :: l)); cbn; lia. }
    destruct (w3 p q r); [apply (IH l); cbn; lia | done].
Qed.

(** A map of bytes that respects the white-space tests commutes with the scan. *)
Lemma drop_ws_map f s :
  (forall a, w1 (f a) = w1 a) -> (forall a b, w2 (f a) (f b) = w2 a b) ->
  (forall a b c, w3 (f a) (f b) (f c) = w3 a b c) ->
  drop (f <$> s) = f <$> drop s.
Proof.
  intros H1 H2 H3. induction s as [s IH] using list_len_ind.
  destruct s as [|a [|b [|c r]]]; cbn.
  - done.
  - rewrite H1. by destruct (w1 a).
  - rewrite (H1 a), (H2 a b). destruct (w1 a); [apply (IH [b]); cbn; lia|]. by destruct (w2 a b).
  - rewrite (H1 a), (H2 a b), (H3 a b c). destruct (w1 a); [apply (IH (b :: c :: r)); cbn; lia|].
    destruct (w2 a b); [apply (IH (c :: r)); cbn; lia|].
    destruct (w3 a b c); [apply (IH r); cbn; lia|done].
Qed.
End DropWs.

(** A byte that is neither ASCII white space nor part of a multi-byte one. *)
Definition solid (x : Ascii.ascii) : bool := is_ascii x && negb (ws1 x).

Lemma solid_no_ws x :
  solid x = true ->
  no_ws ws1 ws2 ws3 x /\ no_ws ws1 (fun b a => ws2 a b) (fun c b a => ws3 a b c) x.
Proof.
  unfold solid, is_ascii. rewrite andb_true_iff, negb_true_iff.
  intros [Hx%N.ltb_lt H1].
  assert (Hk : forall k, (128 <= k)%N -> (byte x =? k)%N = false).
  { intros k Hk. apply N.eqb_neq. lia. }
  assert (Hr : forall lo hi, (128 <= lo)%N -> in_range lo hi x = false).
  { intros lo hi Hl. unfold in_range. apply andb_false_iff. left. apply N.leb_gt. lia. }
  unfold no_ws, ws2, ws3. rewrite H1, !Hk, !Hr by lia.
  split_and!; intros; rewrite ?andb_false_r; cbn; rewrite ?andb_false_r; done.
Qed.

Lemma trim_end_prefix s : exists q, s = trim_end_l s ++ q.
Proof.
  unfold trim_end_l.
  destruct (drop_ws_suffix ws1 (fun b a => ws2 a b) (fun c b a => ws3 a b c) (reverse s))
    as [p Hp].
  exists (reverse p). rewrite <- reverse_app, <- Hp. by rewrite reverse_involutive.
Qed.
Lemma trim_start_l_end s : trim_start_l (trim_end_l (trim_start_l s)) = trim_end_l (trim_start_l s).
Proof.
  apply drop_ws_stable. destruct (trim_end_prefix (trim_start_l s)) as [q Hq].
  apply (hd_ws_prefix _ _ _ _ q). rewrite <- Hq. apply drop_ws_hd.
Qed.
Lemma trim_end_l_idem s : trim_end_l (trim_end_l s) = trim_end_l s.
Proof.
  unfold trim_end_l. rewrite reverse_involutive. f_equal.
  apply drop_ws_stable, drop_ws_hd.
Qed.
Lemma trim_idem s : trim (trim s) = trim s.
Proof.
  unfold trim. rewrite bytes_of_bytes, trim_start_l_end. by rewrite trim_end_l_idem.
Qed.
Lemma trim_trim_start s : trim_start (trim s) = trim s.
Proof. unfold trim_start, trim. by rewrite bytes_of_bytes, trim_start_l_end. Qed.
Lemma trim_trim_end s : trim_end (trim s) = trim s.
Proof. unfold trim_end, trim. by rewrite bytes_of_bytes, trim_end_l_idem. Qed.

(** Around a solid byte, the two ends are trimmed separately. *)
Lemma trim_solid a x b :
  solid x = true -> trim (a +:+ String x b) = trim_start a +:+ String x (trim_end b).
Proof.
  intros [H1 H2]%solid_no_ws. apply bytes_inj.
  unfold trim, trim_start, trim_end.
  rewrite !bytes_app. cbn [bytes String.list_ascii_of_string].
  fold bytes. rewrite !bytes_of_bytes.
  unfold trim_start_l at 1. rewrite drop_ws_app by done. unfold trim_end_l.
  rewrite reverse_app, reverse_cons, <- app_assoc. cbn [app].
  rewrite drop_ws_app by done. rewrite reverse_app, reverse_cons, reverse_involutive.
  by rewrite <- app_assoc.
Qed.
(** The two halves of a trimmed string around a solid byte are themselves
    trimmed on their outer side. *)
Lemma trim_split_solid p a x b :
  solid x = true -> trim p = a +:+ String x b -> contains_char x a = false ->
  contains_char x (trim_start a) = false -> trim_start a = a /\ trim_end b = b.
Proof.
  intros Hx Hp Ha Ha'. pose proof (trim_idem p) as Hi. rewrite Hp in Hi at 1.
  rewrite trim_solid, Hp in Hi by done.
  assert (Some (trim_start a, trim_end b) = Some (a, b)) as [= -> ->]; [|done].
  rewrite <- (split_once_app x) by exact Ha'. rewrite Hi. by apply split_once_app.
Qed.

Lemma trim_start_no_char c s :
  contains_char c s = false -> contains_char c (trim_start s) = false.
Proof.
  intros H. unfold trim_start, trim_start_l.
  destruct (drop_ws_suffix ws1 ws2 ws3 (bytes s)) as [p Hp].
  rewrite <- (of_bytes_bytes s), Hp, of_bytes_app, contains_char_app in H.
  by apply orb_false_iff in H as [_ ?].
Qed.

(** ASCII case folding leaves white space alone. *)
Lemma upper_eqb a k :
  (128 <= k)%N -> (byte (upper_char a) =? k)%N = (byte a =? k)%N.
Proof.
  intros Hk. unfold upper_char. destruct (is_ascii_lowercase a) eqn:E; [|done].
  unfold is_ascii_lowercase, in_range in E. apply andb_true_iff in E as [El Eh].
  apply N.leb_le in El, Eh. 
  replace (byte (Ascii.ascii_of_N (byte a - 32))) with (byte a - 32)%N
    by (unfold byte at 2; rewrite Ascii.N_ascii_embedding; lia).
  rewrite !(proj2 (N.eqb_neq _ _)) by lia. done.
Qed.
Lemma upper_ws1 a : ws1 (upper_char a) = ws1 a.
Proof. apply eqb_prop. revert a. by_bytes. Qed.
Lemma upper_ws2 a b : ws2 (upper_char a) (upper_char b) = ws2 a b.
Proof. unfold ws2. by rewrite !upper_eqb by lia. Qed.
Lemma upper_range lo hi a :
  (128 <= lo)%N -> in_range lo hi (upper_char a) = in_range lo hi a.
Proof.
  intros Hk. unfold upper_char. destruct (is_ascii_lowercase a) eqn:E; [|done].
  unfold is_ascii_lowercase, in_range in *. apply andb_true_iff in E as [El Eh].
  apply N.leb_le in El, Eh.
  replace (byte (Ascii.ascii_of_N (byte a - 32))) with (byte a - 32)%N
    by (unfold byte at 2; rewrite Ascii.N_ascii_embedding; lia).
  rewrite !(proj2 (N.leb_gt lo _)) by lia. done.
Qed.
Lemma upper_ws3 a b c : ws3 (upper_char a) (upper_char b) (upper_char c) = ws3 a b c.
Proof. unfold ws3. by rewrite !upper_eqb, !upper_range by lia. Qed.

Lemma trim_end_upper s :
  trim_end (to_ascii_uppercase s) = to_ascii_uppercase (trim_end s).
Proof.
  apply bytes_inj. unfold trim_end, to_ascii_uppercase, trim_end_l.
  rewrite bytes_smap, !bytes_of_bytes, bytes_smap.
  rewrite <- fmap_reverse, drop_ws_map by auto using upper_ws1, upper_ws2, upper_ws3.
  by rewrite bytes_of_bytes, fmap_reverse.
Qed.
Lemma trim_upper s : trim (to_ascii_uppercase s) = to_ascii_uppercase (trim s).
Proof.
  apply bytes_inj. unfold trim, to_ascii_uppercase, trim_end_l, trim_start_l.
  rewrite !bytes_smap, !bytes_of_bytes.
  rewrite drop_ws_map by auto using upper_ws1, upper_ws2, upper_ws3.
  rewrite <- fmap_reverse, drop_ws_map by auto using upper_ws1, upper_ws2, upper_ws3.
  by rewrite fmap_reverse.
Qed.
#[export] Hint Rewrite trim_idem trim_trim_start trim_trim_end : rust.

(** ** Lemmas: decimal numbers *)
Lemma pretty_char_digit x :
  (x < 10)%N ->
  is_ascii_digit (pretty_N_char x) = true /\ digit_val (pretty_N_char x) = Z.of_N x.
Proof.
  intros Hx. assert (x = 0 \/ x = 1 \/ x = 2 \/ x = 3 \/ x = 4 \/ x = 5 \/ x = 6
    \/ x = 7 \/ x = 8 \/ x = 9)%N as Hc by lia.
  by destruct_or! Hc; subst.
Qed.

Lemma digits_val_app acc a b :
  digits_val acc (a +:+ b) = digits_val (digits_val acc a) b.
Proof. revert acc. induction a as [|c a IH]; intros acc; [done|]. apply IH. Qed.

Lemma pretty_N_go_digits x s :
  exists t, pretty_N_go x s = t +:+ s /\ sall is_ascii_digit t = true
    /\ ((0 < x)%N -> t <> "") /\ digits_val 0 t = Z.of_N x.
Proof.
  revert s. induction (N.lt_wf_0 x) as [x _ IH]; intros s.
  destruct (decide (x = 0)%N) as [->|Hx]; [by exists ""|].
  rewrite pretty_N_go_step by lia.
  assert (Hm : (x `mod` 10 < 10)%N) by (apply N.mod_lt; lia).
  destruct (pretty_char_digit _ Hm) as [Hd Hv].
  destruct (IH (x `div` 10)%N (N.div_lt x 10 ltac:(lia) eq_refl)
    (String (pretty_N_char (x `mod` 10)) s)) as (t & -> & Ht & _ & Hval).
  exists (t +:+ String (pretty_N_char (x `mod` 10)) "").
  rewrite sapp_assoc, sall_app, digits_val_app, Ht, Hval. cbn [sall digits_val]. rewrite Hd, Hv.
  split_and!; [done|done|by destruct t|].
  pose proof (N.div_mod x 10 ltac:(lia)). lia.
Qed.

Lemma dec_spec n :
  (0 <= n)%Z -> sall is_ascii_digit (dec n) = true /\ dec n <> ""
                /\ digits_val 0 (dec n) = n.
Proof.
  intros Hn. unfold dec, pretty, pretty_N.
  destruct (decide (Z.to_N n = 0)%N) as [H0|H0].
  { split_and!; [done|done|]. assert (n = 0)%Z as -> by lia. done. }
  destruct (pretty_N_go_digits (Z.to_N n) "") as (t & -> & Hd & Hne & Hv).
  rewrite sapp_nil_r, Hv. split_and!; [done|apply Hne; lia|lia].
Qed.
Lemma dec_inj a b : (0 <= a)%Z -> (0 <= b)%Z -> dec a = dec b -> a = b.
Proof.
  intros [_ [_ Ha]]%dec_spec [_ [_ Hb]]%dec_spec H. by rewrite <- Ha, <- Hb, H.
Qed.
Lemma dec_no_char c n :
  (0 <= n)%Z -> is_ascii_digit c = false -> contains_char c (dec n) = false.
Proof. intros [Hd _]%dec_spec Hc. by apply (sall_no_char is_ascii_digit). Qed.

(** Printing then parsing a number in range gives it back. *)
Lemma parse_uint_dec max n : (0 <= n <= max)%Z -> parse_uint max (dec n) = Some n.
Proof.
  intros Hn. destruct (dec_spec n) as (Hd & Hne & Hv); [lia|].
  unfold parse_uint. destruct (dec n) as [|c r] eqn:E; [done|].
  assert (Hc : ceqb "+" c = false).
  { apply ceqb_neq. intros <-. done. }
  rewrite Hc. cbn [is_empty orb]. rewrite Hd, Hv. cbn.
  by rewrite (proj2 (Z.leb_le _ _)) by lia.
Qed.
(** What [parse] accepts is within the width. *)
Lemma digits_val_nonneg acc s :
  (0 <= acc)%Z -> sall is_ascii_digit s = true -> (0 <= digits_val acc s)%Z.
Proof.
  revert acc. induction s as [|c s IH]; intros acc Ha; cbn; [done|].
  rewrite andb_true_iff. unfold is_ascii_digit at 1, in_range.
  rewrite andb_true_iff, !N.leb_le. intros [Hc Hs].
  apply IH; [|done]. unfold digit_val. lia.
Qed.
Lemma parse_uint_range max s n : parse_uint max s = Some n -> (0 <= n <= max)%Z.
Proof.
  unfold parse_uint. set (d := match s with "" => s | String _ _ => _ end).
  destruct (is_empty d || negb (sall is_ascii_digit d)) eqn:E; [done|].
  apply orb_false_iff in E as [_ E%negb_false_iff].
  destruct (Z.leb_spec (digits_val 0 d) max); [|done]. intros [= <-].
  split; [by apply digits_val_nonneg | done].
Qed.

(** ** Byte-wise order: total, so [sort] and [dedup] are canonical. *)
#[export] Instance sleb_total : TotalLeb sleb.
Proof.
  split.
  - intros x. induction x as [|c x IH]; intros [|d y]; cbn; [by left|by left|by right|].
    destruct (N.lt_total (byte c) (byte d)) as [H|[H|H]].
    + left. by rewrite (proj2 (N.ltb_lt _ _) H).
    + assert (c = d) as ->.
      { rewrite <- (Ascii.ascii_N_embedding c), <- (Ascii.ascii_N_embedding d). by f_equal. }
      rewrite ceqb_refl. cbn. destruct (IH y) as [->| ->]; rewrite orb_true_r; auto.
    + right. by rewrite (proj2 (N.ltb_lt _ _) H).
  - intros x. induction x as [|c x IH]; intros [|d y] [|e z]; cbn; try done.
    rewrite !orb_true_iff, !andb_true_iff, !N.ltb_lt, !ceqb_eq.
    intros [H1|[-> H1]] [H2|[-> H2]]; [left; lia|left; lia|left; lia|right; eauto].
  - intros x. induction x as [|c x IH]; intros [|d y]; cbn; try done.
    rewrite !orb_true_iff, !andb_true_iff, !N.ltb_lt, !ceqb_eq.
    intros [H1|[-> H1]] [H2|[? H2]]; subst; [lia|lia|lia|]. by rewrite (IH y).
Qed.
Definition sort_dedup_s : list string -> list string := sort_dedup sleb seqb.
Definition sort_dedup_z : list Z -> list Z := sort_dedup Z.leb Z.eqb.
Lemma elem_of_sort_dedup_s x l : x ∈ sort_dedup_s l <-> x ∈ l.
Proof. apply (elem_of_sort_dedup _ _). apply seqb_eq. Qed.
Lemma elem_of_sort_dedup_z x l : x ∈ sort_dedup_z l <-> x ∈ l.
Proof. apply (elem_of_sort_dedup _ _). apply Z.eqb_eq. Qed.
Lemma sort_dedup_s_strict l :
  StronglySorted (fun x y => sleb x y = true /\ x <> y) (sort_dedup_s l).
Proof. apply (sort_dedup_strict _ _). apply seqb_eq. Qed.
Lemma sort_dedup_z_strict l :
  StronglySorted (fun x y => Z.leb x y = true /\ x <> y) (sort_dedup_z l).
Proof. apply (sort_dedup_strict _ _). apply Z.eqb_eq. Qed.
Lemma sort_dedup_z_canonical l1 l2 :
  (forall z, z ∈ l1 <-> z ∈ l2) -> sort_dedup_z l1 = sort_dedup_z l2.
Proof. apply (sort_dedup_canonical _ _). apply Z.eqb_eq. Qed.

(** ** Solid strings, and trimming by a character *)
Lemma trim_all_solid s : sall solid s = true -> trim s = s.
Proof.
  intros H. apply bytes_inj. unfold trim. rewrite bytes_of_bytes.
  assert (Hs : Forall (fun x => solid x = true) (bytes s)).
  { induction s as [|c s IH]; cbn in *; [constructor|].
    apply andb_true_iff in H as [??]. constructor; auto. }
  assert (Hd : forall w1 w2 w3 l, (forall x, x ∈ l -> no_ws w1 w2 w3 x) -> drop_ws w1 w2 w3 l = l).
  { intros w1 w2 w3 [|x l] Hl; [done|]. apply (drop_ws_app w1 w2 w3 [] x l). apply Hl. set_solver. }
  rewrite Forall_forall in Hs. unfold trim_start_l, trim_end_l.
  rewrite (Hd ws1 ws2 ws3).
  - rewrite Hd; [by rewrite reverse_involutive|].
    intros x Hx. rewrite elem_of_reverse in Hx. exact (proj2 (solid_no_ws x (Hs x Hx))).
  - intros x Hx. exact (proj1 (solid_no_ws x (Hs x Hx))).
Qed.

Lemma trim_end_matches_app c s :
  exists k, s = trim_end_matches c s +:+ k /\ sall (ceqb c) k = true.
Proof.
  induction s as [|d s (k & Hk & Hc)]; [by exists ""|]. cbn.
  destruct (is_empty (trim_end_matches c s) && ceqb c d) eqn:E.
  - apply andb_true_iff in E as [E%is_empty_true Ed]. rewrite E in Hk.
    exists (String d s). rewrite Hk, sapp_nil_l. cbn. by rewrite Ed, Hc.
  - exists k. rewrite sapp_cons, <- Hk. done.
Qed.
Lemma before_trim_end_matches c s : before c (trim_end_matches c s) = before c s.
Proof.
  destruct (trim_end_matches_app c s) as (k & Hk & Hc).
  rewrite Hk at 2. generalize (trim_end_matches c s). intros t.
  destruct (contains_char c t) eqn:E.
  - destruct (split_once c t) as [[a b]|] eqn:Hs; [|apply split_once_none in Hs; congruence].
    apply split_once_some in Hs as [-> Ha]. rewrite sapp_assoc, sapp_cons.
    by rewrite !before_app.
  - rewrite before_none by done. destruct k as [|d k]; [by rewrite sapp_nil_r, before_none|].
    cbn in Hc. apply andb_true_iff in Hc as [<-%ceqb_eq _]. by rewrite before_app.
Qed.
Lemma trim_start_matches_none c s : starts_with (String c "") s = false -> trim_start_matches c s = s.
Proof.
  destruct s as [|d s]; [done|]. unfold starts_with. cbn. by destruct (ceqb c d).
Qed.
Lemma sall_before p c s : sall p s = true -> sall p (before c s) = true.
Proof.
  unfold before. destruct (split_once c s) as [[a b]|] eqn:E; [|done].
  apply split_once_some in E as [-> _]. rewrite sall_app. by intros [? _]%andb_true_iff.
Qed.
Lemma sall_trim_end_matches p c s : sall p s = true -> sall p (trim_end_matches c s) = true.
Proof.
  destruct (trim_end_matches_app c s) as (k & Hk & _). rewrite Hk at 1. rewrite sall_app.
  by intros [? _]%andb_true_iff.
Qed.
Lemma contains_before d c s : contains_char d s = false -> contains_char d (before c s) = false.
Proof.
  unfold before. destruct (split_once c s) as [[a b]|] eqn:E; [|done].
  apply split_once_some in E as [-> _]. rewrite contains_char_app. by intros [? _]%orb_false_iff.
Qed.
Lemma lower_before c s :
  (forall d, ceqb c (lower_char d) = ceqb c d) ->
  before c (to_ascii_lowercase s) = to_ascii_lowercase (before c s).
Proof.
  intros Hc. assert (lower_char c = c) as Hcc.
  { symmetry. apply ceqb_eq. by rewrite Hc, ceqb_refl. }
  assert (Hn : forall t, contains_char c (to_ascii_lowercase t) = contains_char c t).
  { intros t. unfold contains_char, to_ascii_lowercase. rewrite sany_smap. by apply sany_ext. }
  unfold before at 2. destruct (split_once c s) as [[a b]|] eqn:E.
  - apply split_once_some in E as [-> Ha]. unfold to_ascii_lowercase at 1. rewrite smap_app.
    cbn [smap]. rewrite Hcc. apply before_app. by fold (to_ascii_lowercase a); rewrite Hn.
  - apply split_once_none in E. apply before_none. by rewrite Hn.
Qed.

Lemma contains_trim_end_matches d c s :
  contains_char d s = false -> contains_char d (trim_end_matches c s) = false.
Proof.
  destruct (trim_end_matches_app c s) as (k & Hk & _). rewrite Hk at 1.
  rewrite contains_char_app. by intros [? _]%orb_false_iff.
Qed.
Lemma contains_trim_start_matches d c s :
  contains_char d s = false -> contains_char d (trim_start_matches c s) = false.
Proof.
  induction s as [|e s IH]; cbn; [done|]. intros [H1 H2]%orb_false_iff.
  destruct (ceqb c e); [by apply IH|]. cbn. by rewrite H1.
Qed.
Lemma contains_trim_matches d c s :
  contains_char d s = false -> contains_char d (trim_matches c s) = false.
Proof. intros. by apply contains_trim_end_matches, contains_trim_start_matches. Qed.

Lemma trim_end_solid a x b :
  solid x = true -> trim_end (a +:+ String x b) = a +:+ String x (trim_end b).
Proof.
  intros [_ H2]%solid_no_ws. apply bytes_inj. unfold trim_end.
  rewrite !bytes_app. cbn [bytes String.list_ascii_of_string].
  fold bytes. rewrite !bytes_of_bytes. unfold trim_end_l.
  rewrite reverse_app, reverse_cons, <- app_assoc. cbn [app].
  rewrite drop_ws_app by done. rewrite reverse_app, reverse_cons, reverse_involutive.
  by rewrite <- app_assoc.
Qed.
Lemma trim_start_solid x b : solid x = true -> trim_start (String x b) = String x b.
Proof.
  intros [H1 _]%solid_no_ws. apply bytes_inj. unfold trim_start.
  rewrite bytes_of_bytes. apply (drop_ws_app _ _ _ []). done.
Qed.
Lemma trim_start_end s : trim_start s = s -> trim_end s = s -> trim s = s.
Proof.
  intros H1 H2. apply bytes_inj. unfold trim. rewrite bytes_of_bytes.
  apply (f_equal bytes) in H1, H2. unfold trim_start, trim_end in *.
  rewrite bytes_of_bytes in *. by rewrite H1, H2.
Qed.

(** Text made of terminated lines reads back as those lines. *)
Definition unlines (l : list string) : string :=
  foldr (fun s r => s +:+ String nl r) "" l.
Definition line_ok (s : string) : bool :=
  negb (contains_char nl s) && negb (contains_char "013" s).
Lemma line_ok_no_nl s : line_ok s = true -> contains_char nl s = false.
Proof. intros [H _]%andb_true_iff. by apply negb_true_iff. Qed.
Lemma split_unlines l :
  Forall (fun s => line_ok s = true) l -> split nl (unlines l) = l ++ [""].
Proof.
  induction 1 as [|s l Hs _ IH]; [done|]. cbn [unlines foldr].
  rewrite split_app by (by apply line_ok_no_nl). fold (unlines l). by rewrite IH.
Qed.
Lemma lines_unlines l : Forall (fun s => line_ok s = true) l -> lines (unlines l) = l.
Proof.
  intros H. unfold lines. rewrite split_unlines by done.
  rewrite last_snoc, length_app. cbn [length]. rewrite Nat.add_sub, take_app_length, app_nil_r.
  induction H as [|s l [_ Hs%negb_true_iff]%andb_true_iff _ IH]; [done|].
  cbn [map]. rewrite IH. f_equal. unfold drop_cr.
  destruct (strip_suffix cr s) eqn:E; [|done]. apply strip_suffix_spec in E. subst.
  rewrite contains_char_app in Hs. apply orb_false_iff in Hs as [_ Hs]. discriminate Hs.
Qed.
Lemma solid_line_ok s : sall solid s = true -> line_ok s = true.
Proof.
  intros H. unfold line_ok. rewrite !(sall_no_char solid) by done. done.
Qed.
Lemma digit_solid s : sall is_ascii_digit s = true -> sall solid s = true.
Proof.
  assert (H : forall c, implb (is_ascii_digit c) (solid c) = true) by by_bytes.
  apply sall_impl. intros c Hc. specialize (H c). by rewrite Hc in H.
Qed.
Lemma starts_with_one a c s : starts_with (String a "") (String c s) = ceqb a c.
Proof. unfold starts_with. cbn [strip_prefix]. by destruct (ceqb a c). Qed.
(** White space after a solid byte is trimmed away. *)
Lemma trim_app_ws a x b :
  solid x = true -> trim_end b = "" -> trim ((a +:+ String x "") +:+ b) = trim (a +:+ String x "").
Proof.
  intros Hx Hb. rewrite sapp_assoc. cbn. change (String x "" +:+ b) with (String x b).
  rewrite !trim_solid by done. by rewrite Hb.
Qed.
