(* ===== verification/State.v ===== *)
(** * A state monad

    Code that threads mutable state through many calls (the LDAP resolver, the
    idhelper) is written in this monad, so that a definition reads in the order
    of the source.  [ret], [let*] and the loops below are the whole interface;
    an invariant is carried through a computation with [keeps]. *)

From S2P Require Import Prelude.

Definition M (S A : Type) : Type := S -> A * S.
Definition ret {S A} (a : A) : M S A := fun s => (a, s).
Definition bind {S A B} (m : M S A) (k : A -> M S B) : M S B :=
  fun s => let '(a, s') := m s in k a s'.
Definition get {S A} (f : S -> A) : M S A := fun s => (f s, s).
Definition modify {S} (f : S -> S) : M S unit := fun s => (tt, f s).

Declare Scope state_scope.
Delimit Scope state_scope with state.
Notation "'let*' x ':=' m 'in' k" := (bind m (fun x => k))
  (at level 10, x name, m at level 100, k at level 200) : state_scope.
Notation "'do*' m 'in' k" := (bind m (fun _ => k))
  (at level 10, m at level 100, k at level 200) : state_scope.
Open Scope state_scope.

Lemma bind_run {S A B} (m : M S A) (k : A -> M S B) s : bind m k s = k (fst (m s)) (snd (m s)).
Proof. unfold bind. by destruct (m s). Qed.

(** [for a in l { body }] *)
Fixpoint each {S A} (l : list A) (f : A -> M S unit) : M S unit :=
  match l with
  | [] => ret tt
  | a :: r => do* f a in each r f
  end.
(** A [for] loop that returns early with the first [Some]. *)
Fixpoint first_of {S A B} (l : list A) (f : A -> M S (option B)) : M S (option B) :=
  match l with
  | [] => ret None
  | a :: r => let* o := f a in match o with Some b => ret (Some b) | None => first_of r f end
  end.
(** A loop that accumulates. *)
Fixpoint fold_m {S A B} (l : list A) (b : B) (f : B -> A -> M S B) : M S B :=
  match l with
  | [] => ret b
  | a :: r => let* b' := f b a in fold_m r b' f
  end.

(** [m] keeps [I]: whatever state satisfies [I] before, satisfies it after.
    [R], in addition, relates the two states. *)
Definition keeps {S A} (I : S -> Prop) (m : M S A) : Prop := forall s, I s -> I (snd (m s)).
Definition grows {S A} (R : S -> S -> Prop) (m : M S A) : Prop := forall s, R s (snd (m s)).

Section Keeps.
Context {S : Type} (I : S -> Prop).
Lemma keeps_ret {A} (a : A) : keeps I (ret a).
Proof. by intros s. Qed.
Lemma keeps_get {A} (f : S -> A) : keeps I (get f).
Proof. by intros s. Qed.
Lemma keeps_modify f : (forall s, I s -> I (f s)) -> keeps I (modify f).
Proof. intros H s. apply H. Qed.
Lemma keeps_bind {A B} (m : M S A) (k : A -> M S B) :
  keeps I m -> (forall a, keeps I (k a)) -> keeps I (bind m k).
Proof.
  intros Hm Hk s Hs. unfold bind. specialize (Hm s Hs). destruct (m s) as [a s']. by apply Hk.
Qed.
Lemma keeps_each {A} (l : list A) f : (forall a, a ∈ l -> keeps I (f a)) -> keeps I (each l f).
Proof.
  induction l as [|a l IH]; intros H; cbn; [apply keeps_ret|].
  apply keeps_bind; [apply H; left|]. intros _. apply IH. intros x Hx. apply H. by right.
Qed.
Lemma keeps_first_of {A B} (l : list A) (f : A -> M S (option B)) :
  (forall a, a ∈ l -> keeps I (f a)) -> keeps I (first_of l f).
Proof.
  induction l as [|a l IH]; intros H; cbn; [apply keeps_ret|].
  apply keeps_bind; [apply H; left|]. intros [b|]; [apply keeps_ret|].
  apply IH. intros x Hx. apply H. by right.
Qed.
Lemma keeps_fold_m {A B} (l : list A) (b : B) f :
  (forall b a, a ∈ l -> keeps I (f b a)) -> keeps I (fold_m l b f).
Proof.
  revert b. induction l as [|a l IH]; intros b H; cbn; [apply keeps_ret|].
  apply keeps_bind; [apply H; left|]. intros b'. apply IH. intros x y Hx. apply H. by right.
Qed.
Lemma keeps_match_option {A B} (o : option A) (f : A -> M S B) (g : M S B) :
  (forall a, o = Some a -> keeps I (f a)) -> keeps I g ->
  keeps I (match o with Some a => f a | None => g end).
Proof. intros Hf Hg. destruct o; auto. Qed.
Lemma keeps_if {A} (b : bool) (m1 m2 : M S A) :
  keeps I m1 -> keeps I m2 -> keeps I (if b then m1 else m2).
Proof. by destruct b. Qed.
End Keeps.
Create HintDb keep discriminated.
#[export] Hint Resolve keeps_ret keeps_get keeps_bind keeps_each keeps_first_of keeps_fold_m
  keeps_if : rust.

(** Walk through a computation, one monadic construct at a time. *)
Ltac keep_step :=
  match goal with
  | |- keeps _ (bind _ _) => apply keeps_bind; [|intros ?]
  | |- keeps _ (ret _) => apply keeps_ret
  | |- keeps _ (get _) => apply keeps_get
  | |- keeps _ (each _ _) => apply keeps_each; intros ? _
  | |- keeps _ (first_of _ _) => apply keeps_first_of; intros ? _
  | |- keeps _ (fold_m _ _ _) => apply keeps_fold_m; intros ? ? _
  | |- keeps _ (let _ := _ in _) => cbv zeta
  | |- keeps _ (match ?x with _ => _ end) => destruct x
  end.
Ltac keep_all := repeat (first [solve [auto with keep nocore] | keep_step]).

(** [triple P m Q]: from a state with [P], [m] ends in a value and a state with [Q]. *)
Definition triple {S A} (P : S -> Prop) (m : M S A) (Q : A -> S -> Prop) : Prop :=
  forall s, P s -> Q (fst (m s)) (snd (m s)).
(** [m] gives [a] and keeps [I]. *)
Definition gives {S A} (I : S -> Prop) (m : M S A) (a : A) : Prop :=
  triple I m (fun x s => x = a /\ I s).
Section Triples.
Context {S : Type}.
Lemma triple_bind {A B} (P : S -> Prop) (m : M S A) (Q : A -> S -> Prop) (k : A -> M S B) R :
  triple P m Q -> (forall a, triple (Q a) (k a) R) -> triple P (bind m k) R.
Proof.
  intros Hm Hk s Hs. unfold bind. specialize (Hm s Hs). destruct (m s) as [a s']. by apply Hk.
Qed.
Lemma gives_bind {A B} (I : S -> Prop) (m : M S A) a (k : A -> M S B) Q :
  gives I m a -> triple I (k a) Q -> triple I (bind m k) Q.
Proof. intros Hm Hk. eapply triple_bind; [exact Hm|]. intros x s [-> Hs]. by apply Hk. Qed.
Lemma gives_ret {A} (I : S -> Prop) (a : A) : gives I (ret a) a.
Proof. by intros s. Qed.
Lemma triple_ret {A} (P : S -> Prop) (a : A) (Q : A -> S -> Prop) :
  (forall s, P s -> Q a s) -> triple P (ret a) Q.
Proof. intros H s. apply H. Qed.
Lemma keeps_triple {A} (I : S -> Prop) (m : M S A) : keeps I m -> triple I m (fun _ => I).
Proof. intros H s. apply H. Qed.
Lemma gives_keeps {A} (I : S -> Prop) (m : M S A) a : gives I m a -> keeps I m.
Proof. intros H s Hs. by apply H. Qed.
End Triples.
