(* ===== verification/Identity.v ===== *)
(** * Kerberos identities, keytabs, LDAP filters and getent rows

    Models the leaf modules of the identity crate:
    - [Principal]: [krb5/principal.rs], classification and normal forms;
    - [Realm]: [krb5/realm.rs], host and realm of an LDAP URI, with the
      [IpAddr] grammar of the standard library;
    - [Hostname]: [krb5/hostname.rs], the short/FQDN pair of the server;
    - [Keytab]: [krb5/keytab.rs], the parser of [klist] and the match of the
      found principals against the expected host;
    - [Filter]: [ldap/filter.rs], escaping of filter values;
    - [Getent]: [nss/getent.rs], the rows of passwd and group. *)

From S2P Require Import Prelude RustStr.

Module Principal.

Definition MACHINE_PRINCIPAL_PREFIXES : list string := ["host/"; "nfs/"; "root/"].
Definition MACHINE_UID : Z := 0.
Definition MACHINE_GID : Z := 0.
Definition FALLBACK_NOBODY_UID : Z := 65534.
Definition FALLBACK_NOBODY_GID : Z := 65534.

Definition principal_local_part (p : string) : string := before "@" (trim p).

Definition is_numeric_local_principal (p : string) : bool :=
  let local := principal_local_part p in
  negb (is_empty local) && sall is_ascii_digit local.

Definition machine_short_name (principal : string) : string :=
  after_last "/" (principal_local_part principal).

(** The loop over the server's host variants. *)
Fixpoint matches_server_variant (local : string) (vs : list string) : option string :=
  match vs with
  | [] => None
  | v :: r =>
      let v_l := to_ascii_lowercase v in
      if seqb local ("host/" +:+ v_l) || seqb local ("nfs/" +:+ v_l)
      then Some v else matches_server_variant local r
  end.

Definition classify_principal (principal realm : string) (server_variants : list string)
  : bool * string :=
  let principal := trim principal in
  let local := to_ascii_lowercase (principal_local_part principal) in
  if existsb (fun pref => starts_with pref local) MACHINE_PRINCIPAL_PREFIXES then
    (true, "matches well-known machine prefix in " +:+ local)
  else
    let realm_u := to_ascii_uppercase (trim realm) in
    let p_realm :=
      match rsplit_once "@" principal with
      | Some (_, r) => to_ascii_uppercase (trim r)
      | None => ""
      end in
    if negb (is_empty realm_u) && contains_char "@" principal
       && (negb (is_empty p_realm) && negb (seqb p_realm realm_u)) then
      (false, "principal realm " +:+ p_realm +:+ " != configured " +:+ realm_u)
    else
      match matches_server_variant local server_variants with
      | Some v => (true, "matches server host principal for " +:+ v)
      | None =>
          if seqb local "host" || seqb local "nfs" || seqb local "root"
          then (true, "bare machine service name")
          else (false, "treated as regular user principal")
      end.

Definition principal_has_realm (p : string) : bool :=
  match rsplit_once "@" (trim p) with
  | Some (_, r) => negb (is_empty (trim r))
  | None => false
  end.

Definition normalize_principal (p : string) : string :=
  let p := trim p in
  match split_once "@" p with
  | Some (_, r) =>
      principal_local_part p +:+ "@" +:+ to_ascii_uppercase (trim r)
  | None => p
  end.

Definition canonicalize_principal (p realm : string) : string :=
  let p := trim p in
  let realm_u := to_ascii_uppercase (trim realm) in
  if is_empty realm_u then normalize_principal p
  else match split_once "@" p with
       | Some (local, r) =>
           if is_empty (trim r) then local +:+ "@" +:+ realm_u
           else normalize_principal p
       | None =>
           if contains_char "/" p || negb (is_empty p)
           then p +:+ "@" +:+ realm_u
           else normalize_principal p
       end.

(** ** Shape of a trimmed principal *)
Lemma trim_split_at p l r :
  split_once "@" (trim p) = Some (l, r) ->
  trim p = l +:+ String "@" r /\ contains_char "@" l = false
  /\ trim_start l = l /\ trim_end r = r.
Proof.
  intros [Hp Hl]%split_once_some.
  destruct (trim_split_solid p l "@" r) as [H1 H2]; auto using trim_start_no_char.
Qed.

(** A string [l@r] whose outer ends are trimmed is its own trimming. *)
Lemma trim_at l r : trim_start l = l -> trim_end r = r ->
  trim (l +:+ String "@" r) = l +:+ String "@" r.
Proof. intros Hl Hr. rewrite trim_solid by done. by rewrite Hl, Hr. Qed.

Lemma trim_upper_trim s : trim_end (to_ascii_uppercase (trim s)) = to_ascii_uppercase (trim s).
Proof. by rewrite trim_end_upper, trim_trim_end. Qed.

Lemma local_part_at l r :
  trim_start l = l -> trim_end r = r -> contains_char "@" l = false ->
  principal_local_part (l +:+ String "@" r) = l.
Proof. intros. unfold principal_local_part. by rewrite trim_at, before_app. Qed.

(** [normalize_principal] on [l@r]. *)
Lemma normalize_at p l r :
  split_once "@" (trim p) = Some (l, r) ->
  normalize_principal p = l +:+ String "@" (to_ascii_uppercase (trim r)).
Proof.
  intros Hs. pose proof (trim_split_at _ _ _ Hs) as (Hp & Hl & Hls & Hre).
  unfold normalize_principal. rewrite Hs, Hp, local_part_at by done. done.
Qed.
Lemma normalize_noat p : split_once "@" (trim p) = None -> normalize_principal p = trim p.
Proof. intros Hs. unfold normalize_principal. by rewrite Hs. Qed.
Lemma normalize_trim p : normalize_principal (trim p) = normalize_principal p.
Proof. unfold normalize_principal. by rewrite trim_idem. Qed.

(** Strings of the form [l@R] with [R] trimmed and upper-cased are fixed by
    [normalize_principal]. *)
Lemma normalize_fixed l r :
  contains_char "@" l = false -> trim_start l = l ->
  normalize_principal (l +:+ String "@" (to_ascii_uppercase (trim r)))
  = l +:+ String "@" (to_ascii_uppercase (trim r)).
Proof.
  intros Hl Hls. rewrite (normalize_at _ l (to_ascii_uppercase (trim r))).
  - by rewrite trim_upper, trim_idem, to_ascii_uppercase_idem.
  - rewrite trim_at by auto using trim_upper_trim. by apply split_once_app.
Qed.

(** [normalize_principal] is idempotent on every input (extra white space,
    several [@], no realm). *)
Lemma normalize_idem p :
  normalize_principal (normalize_principal p) = normalize_principal p.
Proof.
  destruct (split_once "@" (trim p)) as [[l r]|] eqn:Hs.
  - rewrite (normalize_at _ _ _ Hs). apply trim_split_at in Hs as (_ & ? & ? & _).
    by apply normalize_fixed.
  - by rewrite (normalize_noat _ Hs), normalize_trim, normalize_noat.
Qed.

(** What [canonicalize_principal] computes, as one case analysis. *)
Lemma canonicalize_cases p realm :
  canonicalize_principal p realm =
  if is_empty (trim realm) then normalize_principal p
  else match split_once "@" (trim p) with
       | Some (l, r) =>
           l +:+ String "@" (to_ascii_uppercase
             (if is_empty (trim r) then trim realm else trim r))
       | None => if is_empty (trim p) then ""
                 else trim p +:+ String "@" (to_ascii_uppercase (trim realm))
       end.
Proof.
  unfold canonicalize_principal.
  rewrite to_ascii_uppercase_empty, normalize_trim.
  destruct (is_empty (trim realm)); [done|].
  destruct (split_once "@" (trim p)) as [[l r]|] eqn:Hs.
  - destruct (is_empty (trim r)); [done|]. by rewrite (normalize_at _ _ _ Hs).
  - destruct (trim p) as [|c t] eqn:Hp; cbn [is_empty negb].
    + cbn. by rewrite (normalize_noat p) by (by rewrite Hp).
    + by rewrite orb_true_r.
Qed.

(** Canonical principals are fixed points of [canonicalize_principal]. *)
Lemma canonicalize_fixed l r realm :
  contains_char "@" l = false -> trim_start l = l -> is_empty (trim r) = false ->
  canonicalize_principal (l +:+ String "@" (to_ascii_uppercase (trim r))) realm
  = l +:+ String "@" (to_ascii_uppercase (trim r)).
Proof.
  intros Hl Hls Hr. rewrite canonicalize_cases.
  destruct (is_empty (trim realm)); [by apply normalize_fixed|].
  rewrite trim_at, split_once_app by auto using trim_upper_trim.
  rewrite trim_upper, trim_idem, to_ascii_uppercase_empty, Hr.
  by rewrite to_ascii_uppercase_idem.
Qed.

(** [canonicalize_principal] is idempotent for every principal and realm:
    a principal is given its realm once and never changes again. *)
Theorem canonicalize_principal_idem p realm :
  canonicalize_principal (canonicalize_principal p realm) realm
  = canonicalize_principal p realm.
Proof.
  rewrite (canonicalize_cases p).
  destruct (is_empty (trim realm)) eqn:Hr.
  { rewrite canonicalize_cases, Hr. apply normalize_idem. }
  destruct (split_once "@" (trim p)) as [[l r]|] eqn:Hs.
  - apply trim_split_at in Hs as (_ & ? & ? & _).
    destruct (is_empty (trim r)) eqn:Hre; by apply canonicalize_fixed.
  - apply split_once_none in Hs. destruct (is_empty (trim p)) eqn:Hp.
    + rewrite canonicalize_cases, Hr. done.
    + apply canonicalize_fixed; auto using trim_trim_start.
Qed.

(** ** Classification *)

(** The local part carries one of the machine prefixes. *)
Definition machine_prefix (p : string) : bool :=
  existsb (fun pref => starts_with pref (to_ascii_lowercase (principal_local_part p)))
    MACHINE_PRINCIPAL_PREFIXES.
Definition bare_service (p : string) : bool :=
  existsb (seqb (to_ascii_lowercase (principal_local_part p))) ["host"; "nfs"; "root"].
(** The principal names a realm, and not the configured one. *)
Definition realm_mismatch (p realm : string) : bool :=
  let p_realm := to_ascii_uppercase (trim (after_last "@" (trim p))) in
  negb (is_empty (trim realm)) && contains_char "@" p && negb (is_empty p_realm)
  && negb (seqb p_realm (to_ascii_uppercase (trim realm))).

Lemma starts_with_app p r : starts_with p (p +:+ r) = true.
Proof. apply starts_with_spec. by exists r. Qed.

(** A local part without a machine prefix matches no server variant. *)
Lemma no_prefix_no_variant p vs :
  machine_prefix p = false ->
  matches_server_variant (to_ascii_lowercase (principal_local_part p)) vs = None.
Proof.
  unfold machine_prefix. generalize (to_ascii_lowercase (principal_local_part p)).
  intros local H. cbn in H. rewrite !orb_false_iff in H. destruct H as (Hh & Hn & _).
  induction vs as [|v vs IH]; cbn; [done|].
  rewrite !(proj2 (seqb_neq _ _)); [done| |]; intros ->;
    [by rewrite starts_with_app in Hn | by rewrite starts_with_app in Hh].
Qed.

Lemma local_part_trim p : principal_local_part (trim p) = principal_local_part p.
Proof. unfold principal_local_part. by rewrite trim_idem. Qed.

Lemma contains_at_trim p : contains_char "@" (trim p) = contains_char "@" p.
Proof.
  destruct (split_once "@" p) as [[a b]|] eqn:E.
  - apply split_once_some in E as [-> _]. rewrite trim_solid by done.
    rewrite !contains_char_app. cbn. by rewrite !orb_true_r.
  - apply split_once_none in E. rewrite E. unfold trim.
    destruct (trim_end_prefix (trim_start_l (bytes p))) as [q Hq].
    pose proof (trim_start_no_char "@" p E) as H. unfold trim_start in H.
    rewrite Hq, of_bytes_app, contains_char_app in H.
    by apply orb_false_iff in H as [? _].
Qed.

Lemma classify_mismatch_cond p :
  contains_char "@" (trim p) = true ->
  match rsplit_once "@" (trim p) with
  | Some (_, r) => to_ascii_uppercase (trim r)
  | None => ""
  end = to_ascii_uppercase (trim (after_last "@" (trim p))).
Proof.
  intros Hc. unfold after_last. destruct (rsplit_once "@" (trim p)) as [[]|] eqn:E; [done|].
  apply rsplit_once_none in E. congruence.
Qed.

Lemma classify_fst p realm vs :
  fst (classify_principal p realm vs)
  = machine_prefix p || bare_service p && negb (realm_mismatch p realm).
Proof.
  unfold classify_principal. rewrite local_part_trim.
  fold (machine_prefix p). destruct (machine_prefix p) eqn:Hm; [done|]. cbn [orb].
  rewrite (no_prefix_no_variant p vs Hm), to_ascii_uppercase_empty.
  unfold realm_mismatch. rewrite contains_at_trim.
  destruct (contains_char "@" p) eqn:Hc.
  - rewrite classify_mismatch_cond by (by rewrite contains_at_trim).
    rewrite !andb_assoc. unfold bare_service. cbn [existsb].
    rewrite orb_false_r, orb_assoc. case_match; cbn.
    + by rewrite andb_false_r.
    + rewrite andb_true_r. by case_match.
  - rewrite !andb_false_r, andb_true_r. unfold bare_service. cbn [existsb andb].
    rewrite orb_false_r, orb_assoc. by case_match.
Qed.

(** What [classify_principal] decides: a principal is a machine exactly
    when its local part has a machine prefix (whatever its realm), or is a
    bare [host]/[nfs]/[root] whose realm, if it names one, is the configured
    one; and the list of server variants never changes the answer nor its
    reason, because every name it could match already has a machine prefix. *)
Theorem classify_principal_spec p realm vs vs' :
  fst (classify_principal p realm vs)
  = machine_prefix p || bare_service p && negb (realm_mismatch p realm)
  /\ classify_principal p realm vs = classify_principal p realm vs'.
Proof.
  split; [apply classify_fst|]. unfold classify_principal. rewrite local_part_trim.
  fold (machine_prefix p). destruct (machine_prefix p) eqn:Hm; [done|].
  by rewrite !no_prefix_no_variant.
Qed.

(** At most one [@] in the principal. *)
Definition single_at (p : string) : bool :=
  match split_once "@" (trim p) with
  | Some (_, r) => negb (contains_char "@" r)
  | None => true
  end.

Lemma after_last_app c l r :
  contains_char c r = false -> after_last c (l +:+ String c r) = r.
Proof. intros H. unfold after_last. by rewrite rsplit_once_app. Qed.

Lemma upper_no_at s :
  contains_char "@" (to_ascii_uppercase s) = contains_char "@" s.
Proof.
  unfold contains_char, to_ascii_uppercase. rewrite sany_smap. apply sany_ext.
  intros c. apply eqb_prop. revert c. by_bytes.
Qed.

Lemma trim_no_at s : contains_char "@" s = false -> contains_char "@" (trim s) = false.
Proof. by rewrite contains_at_trim. Qed.

(** A canonical [l@R]: its local part, and the realm it is compared by. *)
Lemma canonical_shape l r realm :
  contains_char "@" l = false -> trim_start l = l -> contains_char "@" r = false ->
  let q := l +:+ String "@" (to_ascii_uppercase (trim r)) in
  principal_local_part q = l
  /\ realm_mismatch q realm
     = negb (is_empty (trim realm)) && negb (is_empty (trim r))
       && negb (seqb (to_ascii_uppercase (trim r)) (to_ascii_uppercase (trim realm))).
Proof.
  intros Hl Hls Hr q. subst q. split; [apply local_part_at; auto using trim_upper_trim|].
  unfold realm_mismatch. rewrite trim_at by auto using trim_upper_trim.
  rewrite after_last_app by (by rewrite upper_no_at, trim_no_at).
  rewrite contains_char_app. cbn [contains_char sany]. rewrite ceqb_refl, orb_true_r.
  rewrite trim_upper, trim_idem, to_ascii_uppercase_idem, to_ascii_uppercase_empty.
  by rewrite andb_true_r.
Qed.

(** The same for the principal before it is made canonical. *)
Lemma raw_shape p l r realm :
  split_once "@" (trim p) = Some (l, r) -> contains_char "@" r = false ->
  principal_local_part p = l
  /\ realm_mismatch p realm
     = negb (is_empty (trim realm)) && negb (is_empty (trim r))
       && negb (seqb (to_ascii_uppercase (trim r)) (to_ascii_uppercase (trim realm))).
Proof.
  intros Hs Hr. destruct (trim_split_at _ _ _ Hs) as (Hp & Hl & Hls & Hre).
  unfold principal_local_part, realm_mismatch. rewrite <- contains_at_trim, Hp.
  rewrite before_app, after_last_app by done. split; [done|].
  rewrite contains_char_app. cbn [contains_char sany]. rewrite ceqb_refl, orb_true_r.
  by rewrite to_ascii_uppercase_empty, andb_true_r.
Qed.

Lemma classify_fst_ext p q realm vs :
  principal_local_part p = principal_local_part q ->
  realm_mismatch p realm = realm_mismatch q realm ->
  fst (classify_principal p realm vs) = fst (classify_principal q realm vs).
Proof. intros Hl Hm. rewrite !classify_fst. unfold machine_prefix, bare_service. by rewrite Hl, Hm. Qed.

(** Making a principal canonical never changes how it is classified: the
    machine/user decision taken on the raw principal of a request and the one
    taken on its cache key agree. *)
Theorem classify_canonicalize p realm vs :
  single_at p = true -> contains_char "@" realm = false ->
  fst (classify_principal (canonicalize_principal p realm) realm vs)
  = fst (classify_principal p realm vs).
Proof.
  unfold single_at. intros Hat Hrealm. rewrite canonicalize_cases.
  destruct (split_once "@" (trim p)) as [[l r]|] eqn:Hs.
  - apply negb_true_iff in Hat. destruct (raw_shape p l r realm Hs Hat) as [Hlp Hmp].
    rewrite (normalize_at _ _ _ Hs). apply trim_split_at in Hs as (_ & Hl & Hls & _).
    destruct (canonical_shape l r realm Hl Hls Hat) as [Hl1 Hm1].
    destruct (canonical_shape l realm realm Hl Hls Hrealm) as [Hl2 Hm2].
    destruct (is_empty (trim realm)) eqn:Hr; [|destruct (is_empty (trim r)) eqn:Hre];
      apply classify_fst_ext; rewrite ?Hl1, ?Hl2, ?Hm1, ?Hm2, ?Hmp, ?Hr, ?Hre; try done.
    by rewrite seqb_refl.
  - destruct (is_empty (trim realm)) eqn:Hr.
    { rewrite (normalize_noat _ Hs). apply classify_fst_ext; [apply local_part_trim|].
      unfold realm_mismatch. by rewrite trim_idem, contains_at_trim. }
    apply split_once_none in Hs. destruct (is_empty (trim p)) eqn:Hp.
    + apply is_empty_true in Hp. apply classify_fst_ext.
      * unfold principal_local_part. by rewrite Hp.
      * unfold realm_mismatch. by rewrite <- (contains_at_trim p), Hp.
    + destruct (canonical_shape (trim p) realm realm Hs (trim_trim_start p) Hrealm) as [Hl Hm].
      apply classify_fst_ext.
      * rewrite Hl. unfold principal_local_part. by rewrite before_none.
      * rewrite Hm, seqb_refl. unfold realm_mismatch. rewrite <- contains_at_trim, Hs.
        by rewrite !andb_false_r.
Qed.
Lemma classify_canonicalize_witness :
  fst (classify_principal (canonicalize_principal " host@ " "example.com")
         "example.com" []) = true.
Proof.
  rewrite (classify_canonicalize " host@ " "example.com" []); [reflexivity..].
Defined.
End Principal.
Export Principal.

Module Realm.

(** ** The [IpAddr] grammar of the standard library

    Each reader returns the rest of the input. *)
Fixpoint take_digits (isd : Ascii.ascii -> bool) (s : string) : string * string :=
  match s with
  | String c r =>
      if isd c then let '(d, t) := take_digits isd r in (String c d, t) else ("", s)
  | "" => ("", "")
  end.
Definition read_char (c : Ascii.ascii) (s : string) : option string :=
  strip_prefix (String c "") s.
(** One to three decimal digits, at most 255, no leading zero. *)
Definition read_octet (s : string) : option string :=
  let '(d, t) := take_digits is_ascii_digit s in
  if is_empty d || (3 <? len d) || (starts_with "0" d && (1 <? len d))
     || (255 <? digits_val 0 d)%Z
  then None else Some t.
Definition read_ipv4 (s : string) : option string :=
  t ← read_octet s; t ← read_char "." t;
  t ← read_octet t; t ← read_char "." t;
  t ← read_octet t; t ← read_char "." t;
  read_octet t.
(** One to four hexadecimal digits. *)
Definition read_h16 (s : string) : option string :=
  let '(d, t) := take_digits is_ascii_hexdigit s in
  if is_empty d || (4 <? len d) then None else Some t.
Definition read_separator (c : Ascii.ascii) (index : nat)
    (inner : string -> option string) (s : string) : option string :=
  match index with
  | 0 => inner s
  | _ => t ← read_char c s; inner t
  end.
(** [read_groups]: groups read so far [i] of [i + left], whether an embedded
    IPv4 address ended it, and the rest of the input. *)
Fixpoint read_groups (left i : nat) (s : string) : nat * bool * string :=
  match left with
  | 0 => (i, false, s)
  | S left' =>
      match (if 1 <? left then read_separator ":" i read_ipv4 s else None) with
      | Some t => (i + 2, true, t)
      | None =>
          match read_separator ":" i read_h16 s with
          | Some t => read_groups left' (S i) t
          | None => (i, false, s)
          end
      end
  end.
Definition read_ipv6 (s : string) : option string :=
  let '(head_size, head_ipv4, t) := read_groups 8 0 s in
  if head_size =? 8 then Some t
  else if (head_ipv4 : bool) then None
  else t ← read_char ":" t; t ← read_char ":" t;
       let '(_, _, u) := read_groups (8 - (head_size + 1)) 0 t in Some u.
Definition ip_addr_parses (s : string) : bool :=
  match read_ipv4 s with
  | Some "" => true
  | _ => match read_ipv6 s with Some "" => true | _ => false end
  end.

(** ** [realm.rs] *)
Definition extract_host_from_uri (uri : string) : string :=
  let after :=
    match split_once_str "://" uri with
    | Some (_, r) => match split_once_str "://" r with Some (a, _) => a | None => r end
    | None => uri
    end in
  let plain :=
    match split_once_p (fun c => ceqb c ":" || ceqb c "/") after with
    | Some (a, _) => a
    | None => after
    end in
  match strip_prefix "[" after with
  | Some rest =>
      match split_once "]" rest with Some (h, _) => h | None => plain end
  | None => plain
  end.

Definition derive_realm_from_uri (uri : string) : option string :=
  let host := extract_host_from_uri uri in
  if is_empty host then None
  else Some (to_ascii_uppercase
         (match split_once "." host with Some (_, d) => d | None => host end)).

Definition host_is_ip (host : string) : bool :=
  let h :=
    match strip_prefix "[" host with
    | Some s => match strip_suffix "]" s with Some h => h | None => host end
    | None => host
    end in
  ip_addr_parses h.

Example host_is_ip_examples :
  map host_is_ip ["10.0.0.1"; "[::1]"; "fe80::1:2"; "::ffff:1.2.3.4"; "1::"; "1:2:3:4:5:6:7:8"]
  = [true; true; true; true; true; true]
  /\ map host_is_ip ["10.0.0.256"; "01.2.3.4"; "klldap.example.com"; "1:2"; ":::"; "1::2::3"; ""]
  = [false; false; false; false; false; false; false].
Proof. split; vm_compute; reflexivity. Qed.
End Realm.
Export Realm.

Module Hostname.

Record NfsHostIdentity := { short : string; fqdn : option string }.

Definition variants (i : NfsHostIdentity) : list string :=
  let just_short := if is_empty (short i) then [] else [short i] in
  match fqdn i with
  | Some f => if negb (eq_ignore_ascii_case f (short i)) then [short i; f] else just_short
  | None => just_short
  end.
Definition preferred (i : NfsHostIdentity) : string := default (short i) (fqdn i).

Definition realm_dns_domain (realm : string) : option string :=
  let r := trim_matches "." (trim realm) in
  if is_empty r then None
  else if eq_ignore_ascii_case r "YOUR.REALM" || eq_ignore_ascii_case r "YOUR" then None
  else Some (to_ascii_lowercase r).

Definition resolve_nfs_host_identity (host realm : string) : NfsHostIdentity :=
  let h := trim_matches "." (trim host) in
  if is_empty h then {| short := ""; fqdn := None |}
  else
    let s := before "." h in
    if contains_char "." h then {| short := s; fqdn := Some h |}
    else {| short := s;
            fqdn := (fun domain => s +:+ "." +:+ domain) <$> realm_dns_domain realm |}.

Definition nfs_keytab_host_variants (host realm : string) : list string :=
  variants (resolve_nfs_host_identity host realm).

Definition format_nfs_principal_list (host realm : string) : string :=
  join ", " (map (fun h => "nfs/" +:+ h +:+ "@" +:+ realm) (nfs_keytab_host_variants host realm)).

Definition nfs_keytab_host_matches (keytab_host container_host : string) : bool :=
  let k := to_ascii_lowercase (trim keytab_host) in
  let c := to_ascii_lowercase (trim container_host) in
  if is_empty k || is_empty c then false
  else seqb k c || seqb (before "." k) (before "." c).

Definition looks_like_docker_default_hostname (h : string) : bool :=
  let h := trim h in
  negb (contains_char "." h) && ((8 <=? len h) && (len h <=? 20)) && sall is_ascii_hexdigit h.
End Hostname.
Export Hostname.

Module Keytab.

Definition parse_klist_nfs_principals (stdout : string) : list string :=
  sort_dedup_s
    (flat_map (fun line =>
       if contains_str "nfs/" line
       then List.filter (fun t => starts_with "nfs/" t && contains_char "@" t)
              (split_whitespace line)
       else []) (lines stdout)).

Definition parse_klist_nfs_hosts (stdout : string) : list string :=
  sort_dedup_s
    (omap (fun p => r ← strip_prefix "nfs/" p; fst <$> split_once "@" r)
       (parse_klist_nfs_principals stdout)).

Definition principal_matches_host (principal expected_host expected_realm : string) : bool :=
  match strip_prefix "nfs/" principal with
  | None => false
  | Some rest =>
      match split_once "@" rest with
      | None => false
      | Some (host_part, realm_part) =>
          eq_ignore_ascii_case realm_part expected_realm
          && nfs_keytab_host_matches host_part expected_host
      end
  end.

Record KeytabInfo := {
  keytab_path : string;
  expected_host : string;
  expected_realm : string;
  found_nfs_principals : list string;
  alert : option string;
}.

(** [get_keytab_info], given what reading the keytab with [klist] returned. *)
Definition get_keytab_info (read : result (list string) string) (host realm : string)
  : KeytabInfo :=
  let expected_list := format_nfs_principal_list host realm in
  let '(found, al) :=
    match read with
    | Ok principals =>
        let matching := List.filter (fun p => principal_matches_host p host realm) principals in
        (principals,
         match matching with
         | _ :: _ => None
         | [] =>
             let found_str :=
               match principals with [] => "none found" | _ => join ", " principals end in
             Some ("Keytab: no match for " +:+ expected_list +:+ ". Found: " +:+ found_str +:+ ".")
         end)
    | Err err =>
        ([], Some ("Keytab: expected " +:+ expected_list
                   +:+ " (unable to read keytab: " +:+ err +:+ ")."))
    end in
  {| keytab_path := "/etc/krb5.keytab"; expected_host := host; expected_realm := realm;
     found_nfs_principals := found; alert := al |}.

(** ** The advertised principals are accepted *)

Lemma lower_dot d : ceqb "." (lower_char d) = ceqb "." d.
Proof. apply eqb_prop. revert d. by_bytes. Qed.

(** Each variant of a host starts with the host's first label. *)
Lemma variant_first_label host realm v :
  sall solid host = true -> starts_with "." host = false ->
  v ∈ nfs_keytab_host_variants host realm ->
  before "." (to_ascii_lowercase (trim v)) = before "." (to_ascii_lowercase (trim host)).
Proof.
  intros Hs Hd. unfold nfs_keytab_host_variants, resolve_nfs_host_identity.
  rewrite (trim_all_solid host) by done. unfold trim_matches.
  rewrite trim_start_matches_none by done.
  set (h := trim_end_matches "." host).
  assert (Hb : before "." h = before "." host) by apply before_trim_end_matches.
  assert (Hh : sall solid h = true) by by apply sall_trim_end_matches.
  rewrite !(lower_before ".") by apply lower_dot.
  assert (Hshort : to_ascii_lowercase (before "." (trim (before "." h)))
                   = to_ascii_lowercase (before "." host)).
  { rewrite trim_all_solid by by apply sall_before.
    by rewrite (before_none _ (before "." h)), Hb by apply before_no_char. }
  assert (Hfull : to_ascii_lowercase (before "." (trim h)) = to_ascii_lowercase (before "." host))
    by (by rewrite trim_all_solid, Hb).
  assert (Hsyn : forall d, to_ascii_lowercase (before "." (trim (before "." h +:+ "." +:+ d)))
                           = to_ascii_lowercase (before "." host)).
  { intros d. rewrite (trim_solid _ "." d) by done.
    rewrite before_app by apply trim_start_no_char, before_no_char.
    assert (trim_start (before "." h) = before "." h) as ->; [|by rewrite Hb].
    rewrite <- (trim_all_solid (before "." h)) by by apply sall_before.
    apply trim_trim_start. }
  unfold variants. destruct (is_empty h); cbn; [by intros ?%elem_of_nil|].
  destruct (contains_char "." h); cbn; [|destruct (realm_dns_domain realm) as [d|]; cbn];
    repeat case_match; rewrite ?elem_of_cons, ?elem_of_nil; intros Hv;
    destruct_or? Hv; simplify_eq; auto.
Qed.

Lemma lower_no_at s : contains_char "@" (to_ascii_lowercase s) = contains_char "@" s.
Proof.
  unfold contains_char, to_ascii_lowercase. rewrite sany_smap. apply sany_ext.
  intros c. apply eqb_prop. revert c. by_bytes.
Qed.

Lemma variants_no_at host realm v :
  contains_char "@" host = false -> contains_char "@" realm = false ->
  v ∈ nfs_keytab_host_variants host realm -> contains_char "@" v = false.
Proof.
  intros Hh Hr. unfold nfs_keytab_host_variants, resolve_nfs_host_identity.
  set (h := trim_matches "." (trim host)).
  assert (H1 : contains_char "@" h = false)
    by (by apply contains_trim_matches, trim_no_at).
  assert (H2 : contains_char "@" (before "." h) = false) by by apply contains_before.
  assert (H3 : forall d, realm_dns_domain realm = Some d ->
    contains_char "@" (before "." h +:+ "." +:+ d) = false).
  { unfold realm_dns_domain. intros d. repeat (case_match; [done|]). intros [= <-].
    rewrite !contains_char_app, H2, lower_no_at. cbn.
    by apply contains_trim_matches, trim_no_at. }
  unfold variants. destruct (is_empty h); cbn; [by intros ?%elem_of_nil|].
  destruct (contains_char "." h); cbn; [|destruct (realm_dns_domain realm) as [d|]; cbn];
    repeat case_match; rewrite ?elem_of_cons, ?elem_of_nil; intros Hv;
    destruct_or? Hv; simplify_eq; auto.
Qed.

(** Every advertised principal passes [principal_matches_host]. *)
Lemma advertised_matches host realm v :
  sall solid host = true -> starts_with "." host = false -> is_empty host = false ->
  contains_char "@" host = false -> contains_char "@" realm = false ->
  v ∈ nfs_keytab_host_variants host realm -> is_empty (trim v) = false ->
  principal_matches_host ("nfs/" +:+ v +:+ "@" +:+ realm) host realm = true.
Proof.
  intros Hs Hd Hne Hat Hrat Hv Hvne. unfold principal_matches_host.
  rewrite (proj2 (strip_prefix_spec _ _ (v +:+ "@" +:+ realm))) by done.
  change (v +:+ "@" +:+ realm) with (v +:+ String "@" realm).
  rewrite split_once_app by (by apply (variants_no_at host realm)).
  unfold eq_ignore_ascii_case, nfs_keytab_host_matches. rewrite seqb_refl. cbn [andb].
  rewrite (variant_first_label host realm v), seqb_refl, orb_true_r by done.
  rewrite (trim_all_solid host) by done.
  by destruct (trim v), host.
Qed.

(** Following the advice clears the alert: when the keytab holds one of the
    [nfs/<host>@REALM] principals the program tells the operator to create
    (short name or FQDN, synthesized from the realm or observed), the keytab
    status carries no alert. *)
Theorem keytab_advice_clears_alert host realm principals v :
  sall solid host = true -> starts_with "." host = false -> is_empty host = false ->
  contains_char "@" host = false -> contains_char "@" realm = false ->
  v ∈ nfs_keytab_host_variants host realm -> is_empty (trim v) = false ->
  ("nfs/" +:+ v +:+ "@" +:+ realm) ∈ principals ->
  alert (get_keytab_info (Ok principals) host realm) = None.
Proof.
  intros Hs Hd Hne Hat Hrat Hv Hvne Hin. unfold get_keytab_info. cbn.
  destruct (List.filter _ principals) as [|x l] eqn:Hf; [|done]. exfalso.
  assert (("nfs/" +:+ v +:+ "@" +:+ realm)
    ∈ List.filter (fun p => principal_matches_host p host realm) principals) as H.
  { apply list_elem_of_In, filter_In. rewrite <- list_elem_of_In. split; [done|].
    by apply advertised_matches. }
  rewrite Hf in H. by apply elem_of_nil in H.
Qed.
Lemma keytab_advice_clears_alert_witness :
  alert (get_keytab_info (Ok ["host/nas@EXAMPLE.COM"; "nfs/nas.example.com@EXAMPLE.COM"])
           "nas" "EXAMPLE.COM") = None.
Proof.
  apply (keytab_advice_clears_alert "nas" "EXAMPLE.COM" _ "nas.example.com");
    try reflexivity; by_elem.
Defined.
End Keytab.
Export Keytab.

Module Filter.

Definition hex_digit (n : N) : Ascii.ascii :=
  Ascii.ascii_of_N (if (n <? 10)%N then 48 + n else 87 + n).
(** ["\\{:02x}"] *)
Definition hex_escape (c : Ascii.ascii) : string :=
  String "\" (String (hex_digit (byte c / 16)) (String (hex_digit (byte c mod 16)) "")).
(** [String::push(b as char)]: the code point [b] is encoded in UTF-8, two
    bytes for a code point of 128 and more. *)
Definition push_latin1 (c : Ascii.ascii) : string :=
  if is_ascii c then String c ""
  else String (Ascii.ascii_of_N (192 + byte c / 64))
         (String (Ascii.ascii_of_N (128 + byte c mod 64)) "").
Definition escape_byte (c : Ascii.ascii) : string :=
  if ceqb c "*" then "\2a"
  else if ceqb c "(" then "\28"
  else if ceqb c ")" then "\29"
  else if ceqb c "\" then "\5c"
  else if is_ascii_control c then hex_escape c
  else push_latin1 c.
Fixpoint escape_ldap_filter (s : string) : string :=
  match s with
  | "" => ""
  | String c r => escape_byte c +:+ escape_ldap_filter r
  end.

(** ** What an LDAP server reads back (RFC 4515): [\hh] is the byte [hh]. *)
Definition hex_val (c : Ascii.ascii) : option N :=
  if is_ascii_digit c then Some (byte c - 48)%N
  else if in_range 97 102 c then Some (byte c - 87)%N
  else if in_range 65 70 c then Some (byte c - 55)%N
  else None.
Fixpoint unescape (s : string) : option string :=
  match s with
  | "" => Some ""
  | String c r =>
      if ceqb c "\" then
        match r with
        | String h (String l r') =>
            hv ← hex_val h; lv ← hex_val l; t ← unescape r';
            Some (String (Ascii.ascii_of_N (16 * hv + lv)) t)
        | _ => None
        end
      else t ← unescape r; Some (String c t)
  end.
(** Bytes that must not occur raw in a filter value. *)
Definition filter_special (c : Ascii.ascii) : bool :=
  ceqb c "*" || ceqb c "(" || ceqb c ")" || is_ascii_control c.

(** Every byte [>= 128] is read as a Latin-1 code point. *)
Fixpoint latin1_to_utf8 (s : string) : string :=
  match s with
  | "" => ""
  | String c r => push_latin1 c +:+ latin1_to_utf8 r
  end.

Lemma escape_byte_no_special c : sany filter_special (escape_byte c) = false.
Proof. apply negb_true_iff. revert c. by_bytes. Qed.

(** Reading back one escaped byte, whatever follows. *)
Lemma unescape_escape_byte c r :
  unescape (escape_byte c +:+ r) = t ← unescape r; Some (push_latin1 c +:+ t).
Proof.
  assert (H : forall d, ceqb d d && match escape_byte d with
    | String a "" => negb (ceqb a "\") && seqb (String a "") (push_latin1 d)
    | String a (String b "") =>
        negb (ceqb a "\") && negb (ceqb b "\") && seqb (String a (String b "")) (push_latin1 d)
    | String a (String b (String e "")) =>
        ceqb a "\" && match hex_val b, hex_val e with
        | Some x, Some y => seqb (String (Ascii.ascii_of_N (16 * x + y)) "") (push_latin1 d)
        | _, _ => false end
    | _ => false end = true) by by_bytes.
  specialize (H c). rewrite ceqb_refl in H. cbn [andb] in H.
  destruct (escape_byte c) as [|a [|b [|e [|? ?]]]]; try done; rewrite !sapp_cons, sapp_nil_l.
  - apply andb_true_iff in H as [Ha%negb_true_iff Hs%seqb_eq]. cbn. rewrite Ha, <- Hs.
    by destruct (unescape r).
  - rewrite !andb_true_iff, !negb_true_iff in H. destruct H as [[Ha Hb] Hs%seqb_eq].
    cbn. rewrite Ha, Hb, <- Hs. by destruct (unescape r).
  - apply andb_true_iff in H as [Ha H]. cbn. rewrite Ha.
    destruct (hex_val b), (hex_val e); try done. apply seqb_eq in H. rewrite <- H.
    by destruct (unescape r).
Qed.

Lemma unescape_escape s : unescape (escape_ldap_filter s) = Some (latin1_to_utf8 s).
Proof.
  induction s as [|c s IH]; [done|]. cbn [escape_ldap_filter latin1_to_utf8].
  by rewrite unescape_escape_byte, IH.
Qed.

Lemma len_push_latin1 c : len (push_latin1 c) = if is_ascii c then 1 else 2.
Proof. unfold push_latin1. by destruct (is_ascii c). Qed.
Lemma len_latin1 s : len s <= len (latin1_to_utf8 s).
Proof.
  induction s as [|c s IH]; [done|]. cbn [latin1_to_utf8]. rewrite len_app, len_push_latin1.
  destruct (is_ascii c); cbn; unfold len in *; lia.
Qed.
Lemma latin1_ascii s : latin1_to_utf8 s = s <-> sall is_ascii s = true.
Proof.
  induction s as [|c s IH]; [done|]. cbn [latin1_to_utf8 sall]. split.
  - intros H. destruct (is_ascii c) eqn:E.
    + unfold push_latin1 in H. rewrite E, sapp_cons, sapp_nil_l in H.
      apply IH. by injection H.
    + apply (f_equal len) in H. rewrite len_app, len_push_latin1, E in H.
      pose proof (len_latin1 s). cbn in *. unfold len in *. lia.
  - intros [E Hs]%andb_true_iff. unfold push_latin1.
    by rewrite E, sapp_cons, sapp_nil_l, (proj2 IH Hs).
Qed.

(** No filter injection: an escaped value holds none of the bytes that
    structure an LDAP filter ([*], parentheses, NUL and the other controls),
    and each backslash in it starts a well-formed hex escape, so the value
    stays one assertion value of the filter it is put in. *)
Theorem escape_ldap_filter_safe s :
  sany filter_special (escape_ldap_filter s) = false
  /\ is_Some (unescape (escape_ldap_filter s)).
Proof.
  split; [|rewrite unescape_escape; by eexists].
  induction s as [|c s IH]; [done|]. cbn [escape_ldap_filter].
  by rewrite sany_app, escape_byte_no_special, IH.
Qed.

(** The server reads back the searched value exactly when it is pure ASCII:
    the bytes of a multi-byte character are pushed one by one as Latin-1 code
    points, so a name such as an accented one is searched under another name. *)
Theorem escape_ldap_filter_roundtrip_iff_ascii s :
  unescape (escape_ldap_filter s) = Some s <-> sall is_ascii s = true.
Proof.
  rewrite unescape_escape, <- latin1_ascii. split; [by intros [= H] | by intros ->].
Qed.
End Filter.
Export Filter.

Module Getent.

Record PasswdRow := { pw_name : string; pw_uid : Z; pw_gid : Z }.
Record GroupRow := { gr_name : string; gr_gid : Z; gr_members : list string }.

Definition skipped_line (line : string) : bool := is_empty line || starts_with "#" line.

Definition parse_passwd_row (line : string) : option PasswdRow :=
  let line := trim line in
  if skipped_line line then None
  else match splitn 7 ":" line with
       | name :: _ :: uid :: gid :: _ =>
           u ← parse_uint u32_max (trim uid);
           g ← parse_uint u32_max (trim gid);
           Some {| pw_name := trim name; pw_uid := u; pw_gid := g |}
       | _ => None
       end.

Definition parse_group_row (line : string) : option GroupRow :=
  let line := trim line in
  if skipped_line line then None
  else match splitn 4 ":" line with
       | name :: _ :: gid :: rest =>
           g ← parse_uint u32_max (trim gid);
           Some {| gr_name := trim name; gr_gid := g;
                   gr_members :=
                     List.filter (fun s => negb (is_empty s))
                       (map trim (split "," (match rest with m :: _ => trim m | [] => "" end))) |}
       | _ => None
       end.

Definition parse_getent_passwd (line : string) : option (Z * Z) :=
  (fun r => (pw_uid r, pw_gid r)) <$> parse_passwd_row line.
End Getent.
Export Getent.
