(* ===== verification/Resolver.v ===== *)
(** * The LDAP resolver

    Models [ldap/posix.rs], [ldap/tls.rs] and [ldap/resolver.rs] of the
    identity crate: attribute names and search bases, the connection pool and
    its retries, the caches with their lifetimes, the lookups by name and
    number, the bulk load and the snapshot.

    The directory server (and the ldap3 crate) is the parameter [server]: what
    the n-th attempt of the process runs into.  Time is a number of
    nanoseconds in the state, advanced by the attempts and the back-off
    sleeps.  The mutexes protect single operations, which run to completion
    here one after the other.  Attribute names are ASCII, as LDAP has them, so
    [to_lowercase] is the ASCII one.  The [test-support] feature is off. *)

From S2P Require Import Prelude RustStr State Identity.
Local Open Scope Z_scope.

(** ** [posix.rs]: attribute names and search bases *)
Definition DEFAULT_USER_OBJECT_CLASS : string := "posixAccount".
Definition DEFAULT_GROUP_OBJECT_CLASS : string := "posixGroup".
Definition DEFAULT_USER_NAME_ATTR : string := "uid".
Definition DEFAULT_USER_UID_ATTR : string := "uidNumber".
Definition DEFAULT_USER_GID_ATTR : string := "gidNumber".
Definition DEFAULT_GROUP_GID_ATTR : string := "gidNumber".
Definition DEFAULT_USER_HOME_ATTR : string := "homeDirectory".
Definition DEFAULT_USER_SHELL_ATTR : string := "loginShell".
Definition DEFAULT_USER_FULLNAME_ATTR : string := "displayName".
Definition DEFAULT_GROUP_NAME_ATTR : string := "cn".
Definition DEFAULT_USER_PRINCIPAL_ATTR : string := "krbPrincipalName".
Definition DEFAULT_GROUP_MEMBER_ATTR_KLLDAP : string := "member".
Definition DEFAULT_GROUP_MEMBER_ATTR_LEGACY : string := "memberUid".

Record PosixAttributeMapping := {
  user_object_class : string; group_object_class : string;
  user_name : string; user_uid_number : string; user_gid_number : string;
  user_home_directory : string; user_shell : string; user_full_name : string;
  group_name : string; group_gid_number : string; group_member : string;
  user_principal_name : string;
}.
Record PosixMappingInput := {
  in_user_object_class : option string; in_group_object_class : option string;
  in_user_name : option string; in_user_uid_number : option string;
  in_user_gid_number : option string; in_user_home_directory : option string;
  in_user_shell : option string; in_user_fullname : option string;
  in_group_name : option string; in_group_gid_number : option string;
  in_group_member : option string; in_user_principal_name : option string;
  in_kllldap_ignored_attributes : option bool;
}.
Definition non_empty (s : option string) : option string :=
  match s with Some v => if is_empty (trim v) then None else Some v | None => None end.
(** [non_empty(&o).map(|s| s.trim().to_string()).unwrap_or_else(default)] *)
Definition attr_or (o : option string) (dflt : string) : string :=
  match non_empty o with Some v => trim v | None => dflt end.
Definition resolve_posix_attribute_mapping (i : PosixMappingInput) : PosixAttributeMapping := {|
  user_object_class := attr_or (in_user_object_class i) DEFAULT_USER_OBJECT_CLASS;
  group_object_class := attr_or (in_group_object_class i) DEFAULT_GROUP_OBJECT_CLASS;
  user_name := attr_or (in_user_name i) DEFAULT_USER_NAME_ATTR;
  user_uid_number := attr_or (in_user_uid_number i) DEFAULT_USER_UID_ATTR;
  user_gid_number := attr_or (in_user_gid_number i) DEFAULT_USER_GID_ATTR;
  user_home_directory := attr_or (in_user_home_directory i) DEFAULT_USER_HOME_ATTR;
  user_shell := attr_or (in_user_shell i) DEFAULT_USER_SHELL_ATTR;
  user_full_name := attr_or (in_user_fullname i) DEFAULT_USER_FULLNAME_ATTR;
  group_name := attr_or (in_group_name i) DEFAULT_GROUP_NAME_ATTR;
  group_gid_number := attr_or (in_group_gid_number i) DEFAULT_GROUP_GID_ATTR;
  group_member := attr_or (in_group_member i)
    (if default true (in_kllldap_ignored_attributes i)
     then DEFAULT_GROUP_MEMBER_ATTR_KLLDAP else DEFAULT_GROUP_MEMBER_ATTR_LEGACY);
  user_principal_name := attr_or (in_user_principal_name i) DEFAULT_USER_PRINCIPAL_ATTR;
|}.

Record LdapSearchBasesInput := {
  ldap_search_base : option string;
  ldap_user_search_base : option string;
  ldap_group_search_base : option string;
}.
Definition effective_ldap_search_bases (i : LdapSearchBasesInput) (realm : string) : string * string :=
  let base := default ("dc=" +:+ replace "." ",dc=" (to_ascii_lowercase realm))
                (non_empty (ldap_search_base i)) in
  (default base (non_empty (ldap_user_search_base i)),
   default base (non_empty (ldap_group_search_base i))).

(** ** [tls.rs]: the verification policy *)
Definition ldap_tls_policy (ldap_uri : string) (reqcert cacert : option string)
    (id_use_start_tls : option bool) : bool * bool :=
  let has_custom := match cacert with Some s => negb (is_empty (trim s)) | None => false end in
  let is_never := fun v => eq_ignore_ascii_case v "never" in
  let no_verify :=
    if has_custom then match reqcert with Some v => is_never v | None => false end
    else if starts_with "ldaps://" ldap_uri then
      match reqcert with Some v => is_never v | None => true end
    else match reqcert with Some v => is_never v | None => false end in
  (no_verify, default false id_use_start_tls).

Record LdapResolverInputs := {
  ri_ldap_uri : string; ri_realm : string; ri_search_bases : LdapSearchBasesInput;
  ri_posix_mapping : PosixMappingInput; ri_tls_reqcert : option string;
  ri_tls_cacert : option string; ri_use_start_tls : option bool;
}.
(** The fields of [IdLdapResolver] that never change. *)
Record ResolverConfig := {
  rc_ldap_uri : string; rc_user_base : string; rc_group_base : string;
  rc_posix_attributes : PosixAttributeMapping; rc_no_tls_verify : bool; rc_start_tls : bool;
  rc_tls_cacert : option string;
}.
Definition from_inputs (i : LdapResolverInputs) : ResolverConfig :=
  let '(user_base, group_base) := effective_ldap_search_bases (ri_search_bases i) (ri_realm i) in
  let '(no_verify, start_tls) :=
    ldap_tls_policy (ri_ldap_uri i) (ri_tls_reqcert i) (ri_tls_cacert i) (ri_use_start_tls i) in
  {| rc_ldap_uri := ri_ldap_uri i; rc_user_base := user_base; rc_group_base := group_base;
     rc_posix_attributes := resolve_posix_attribute_mapping (ri_posix_mapping i);
     rc_no_tls_verify := no_verify; rc_start_tls := start_tls; rc_tls_cacert := ri_tls_cacert i |}.

(** ** State *)
Definition SECS : Z := 1000000000.
Definition IDENTITY_CACHE_TTL : Z := 10 * 60 * SECS.
Definition NEGATIVE_TTL : Z := 60 * SECS.
Definition POOL_IDLE_MAX : Z := 300 * SECS.
Definition POOL_MAX_CONNS : nat := 4.
Definition LDAP_OP_TIMEOUT_SECS : Z := 15.
(** [env] is the value of NFS_KLLDAP_LDAP_OP_TIMEOUT_SECS. *)
Definition ldap_op_timeout (env : option string) : Z :=
  match env ≫= parse_uint u64_max with
  | Some s => if 0 <? s then s else LDAP_OP_TIMEOUT_SECS
  | None => LDAP_OP_TIMEOUT_SECS
  end.

(** A connection and the DN it authenticated as. *)
Record Conn := { c_id : nat; c_auth : string }.
Record PooledConn := { pc_ldap : Conn; pc_bound_as : string; pc_last_used : Z }.

Record CachedDnGid := { dg_gid : option Z; dg_fetched_at : Z }.
Record CachedMemberOf := { mo_dn : string; mo_memberofs : list string; mo_fetched_at : Z }.
Record CachedUser := {
  cu_id : string; cu_uid_number : option Z; cu_primary_gid : option Z;
  cu_display_name : string; cu_fetched_at : Z;
}.
Record CachedGroup := {
  cg_id : string; cg_gid_number : option Z; cg_display_name : string;
  cg_members : list string; cg_fetched_at : Z;
}.

Record Entry := { e_dn : string; e_attrs : gmap string (list string) }.
Record Query := {
  q_base : string; q_filter : string; q_attrs : list string; q_dn : string; q_pw : string;
}.
(** What one attempt runs into: the error of the connect and of the bind, the
    answer of the search (on a reused or on a fresh connection), whether it
    stalls past the timeout, and how long it takes. *)
Record Attempt := {
  a_connect : option string;
  a_bind : option string;
  a_search : bool -> result (list Entry) string;
  a_stalls : bool;
  a_elapsed : Z;
}.
(** One search as the server sees it. *)
Record Sent := { s_conn : Conn; s_query : Query; s_at : Z }.

Record Resolver := MkResolver {
  user_cache : gmap string CachedUser;
  group_cache : gmap string CachedGroup;
  user_by_uid_cache : gmap Z CachedUser;
  group_by_gid_cache : gmap Z CachedGroup;
  group_gid_by_dn_cache : gmap string CachedDnGid;
  memberof_cache : gmap string CachedMemberOf;
  negative_cache : gmap string Z;
  conn_pool : list PooledConn;
  last_evict : option Z;
  cache_hits : Z;
  cache_misses : Z;
  bind_count : Z;
  (* the world around the resolver *)
  now : Z;
  attempts : nat;
  sent : list Sent;
}.

(** Field updates. *)
Definition on_user_cache f r :=
  let '(MkResolver uc gc ub gb dg mo nc cp le ch cm bc nw at_ sn) := r in
  MkResolver (f uc) gc ub gb dg mo nc cp le ch cm bc nw at_ sn.
Definition on_group_cache f r :=
  let '(MkResolver uc gc ub gb dg mo nc cp le ch cm bc nw at_ sn) := r in
  MkResolver uc (f gc) ub gb dg mo nc cp le ch cm bc nw at_ sn.
Definition on_user_by_uid_cache f r :=
  let '(MkResolver uc gc ub gb dg mo nc cp le ch cm bc nw at_ sn) := r in
  MkResolver uc gc (f ub) gb dg mo nc cp le ch cm bc nw at_ sn.
Definition on_group_by_gid_cache f r :=
  let '(MkResolver uc gc ub gb dg mo nc cp le ch cm bc nw at_ sn) := r in
  MkResolver uc gc ub (f gb) dg mo nc cp le ch cm bc nw at_ sn.
Definition on_group_gid_by_dn_cache f r :=
  let '(MkResolver uc gc ub gb dg mo nc cp le ch cm bc nw at_ sn) := r in
  MkResolver uc gc ub gb (f dg) mo nc cp le ch cm bc nw at_ sn.
Definition on_memberof_cache f r :=
  let '(MkResolver uc gc ub gb dg mo nc cp le ch cm bc nw at_ sn) := r in
  MkResolver uc gc ub gb dg (f mo) nc cp le ch cm bc nw at_ sn.
Definition on_negative_cache f r :=
  let '(MkResolver uc gc ub gb dg mo nc cp le ch cm bc nw at_ sn) := r in
  MkResolver uc gc ub gb dg mo (f nc) cp le ch cm bc nw at_ sn.
Definition on_conn_pool f r :=
  let '(MkResolver uc gc ub gb dg mo nc cp le ch cm bc nw at_ sn) := r in
  MkResolver uc gc ub gb dg mo nc (f cp) le ch cm bc nw at_ sn.
Definition on_last_evict f r :=
  let '(MkResolver uc gc ub gb dg mo nc cp le ch cm bc nw at_ sn) := r in
  MkResolver uc gc ub gb dg mo nc cp (f le) ch cm bc nw at_ sn.
Definition on_cache_hits f r :=
  let '(MkResolver uc gc ub gb dg mo nc cp le ch cm bc nw at_ sn) := r in
  MkResolver uc gc ub gb dg mo nc cp le (f ch) cm bc nw at_ sn.
Definition on_cache_misses f r :=
  let '(MkResolver uc gc ub gb dg mo nc cp le ch cm bc nw at_ sn) := r in
  MkResolver uc gc ub gb dg mo nc cp le ch (f cm) bc nw at_ sn.
Definition on_bind_count f r :=
  let '(MkResolver uc gc ub gb dg mo nc cp le ch cm bc nw at_ sn) := r in
  MkResolver uc gc ub gb dg mo nc cp le ch cm (f bc) nw at_ sn.
Definition on_now f r :=
  let '(MkResolver uc gc ub gb dg mo nc cp le ch cm bc nw at_ sn) := r in
  MkResolver uc gc ub gb dg mo nc cp le ch cm bc (f nw) at_ sn.
Definition on_attempts f r :=
  let '(MkResolver uc gc ub gb dg mo nc cp le ch cm bc nw at_ sn) := r in
  MkResolver uc gc ub gb dg mo nc cp le ch cm bc nw (f at_) sn.
Definition on_sent f r :=
  let '(MkResolver uc gc ub gb dg mo nc cp le ch cm bc nw at_ sn) := r in
  MkResolver uc gc ub gb dg mo nc cp le ch cm bc nw at_ (f sn).

(** [IdLdapResolver::new]. *)
Definition new_resolver (t : Z) : Resolver :=
  MkResolver ∅ ∅ ∅ ∅ ∅ ∅ ∅ [] None 0 0 0 t 0 [].

Abbreviation R := (M Resolver).
Definition hit : R unit := modify (on_cache_hits (fun n => n + 1)).
Definition miss : R unit := modify (on_cache_misses (fun n => n + 1)).

(** ** Caches *)
Definition negative_hit (key : string) : R bool :=
  get (fun r => match negative_cache r !! key with
                | Some t => now r - t <? NEGATIVE_TTL | None => false end).
Definition mark_negative (key : string) : R unit :=
  modify (fun r => on_negative_cache (fun c => <[ key := now r ]> c) r).
Definition clear_caches : R unit :=
  modify (fun r => on_user_cache (fun _ => ∅) (on_group_cache (fun _ => ∅)
    (on_user_by_uid_cache (fun _ => ∅) (on_group_by_gid_cache (fun _ => ∅)
    (on_group_gid_by_dn_cache (fun _ => ∅) (on_memberof_cache (fun _ => ∅)
    (on_negative_cache (fun _ => ∅) r))))))).

(** [retain] on a map, by the age of the value. *)
Definition young {K A} `{Countable K} (t ttl : Z) (at_ : A -> Z) (m : gmap K A) : gmap K A :=
  filter (fun kv => (t - at_ (snd kv) <? ttl) = true) m.
Definition dn_gid_ttl (v : CachedDnGid) : Z :=
  match dg_gid v with Some _ => IDENTITY_CACHE_TTL | None => NEGATIVE_TTL end.
Definition sweep (t : Z) (r : Resolver) : Resolver :=
  on_user_cache (young t IDENTITY_CACHE_TTL cu_fetched_at)
  (on_group_cache (young t IDENTITY_CACHE_TTL cg_fetched_at)
  (on_user_by_uid_cache (young t IDENTITY_CACHE_TTL cu_fetched_at)
  (on_group_by_gid_cache (young t IDENTITY_CACHE_TTL cg_fetched_at)
  (on_group_gid_by_dn_cache
     (fun m => filter (fun kv => (t - dg_fetched_at (snd kv) <? dn_gid_ttl (snd kv)) = true) m)
  (on_memberof_cache (young t IDENTITY_CACHE_TTL mo_fetched_at)
  (on_negative_cache (young t NEGATIVE_TTL (fun x => x)) r)))))).
(** At most one sweep in five seconds. *)
Definition evict_expired : R unit :=
  modify (fun r =>
    let t := now r in
    match last_evict r with
    | Some l => if t - l <? 5 * SECS then r else sweep t (on_last_evict (fun _ => Some t) r)
    | None => sweep t (on_last_evict (fun _ => Some t) r)
    end).

(** ** The pool *)
Definition pool_entry_stale (last_used t : Z) : bool := POOL_IDLE_MAX <? t - last_used.
(** [retain], then [pop]: the entry stored last. *)
Definition take_pooled_conn (bind_dn : string) : R (option Conn) :=
  fun r =>
    let kept := List.filter (fun p => seqb (pc_bound_as p) bind_dn
                                      && negb (pool_entry_stale (pc_last_used p) (now r)))
                  (conn_pool r) in
    match last kept with
    | Some p => (Some (pc_ldap p), on_conn_pool (fun _ => take (length kept - 1) kept) r)
    | None => (None, on_conn_pool (fun _ => kept) r)
    end.
Definition store_pooled_conn (c : Conn) (bind_dn : string) : R unit :=
  modify (fun r =>
    if (POOL_MAX_CONNS <=? length (conn_pool r))%nat then r
    else on_conn_pool (fun p => p ++ [{| pc_ldap := c; pc_bound_as := bind_dn; pc_last_used := now r |}]) r).

Definition pool_is_warm : R bool := get (fun r => negb (Nat.eqb (length (conn_pool r)) 0)).
Definition cache_stats : R (Z * Z) := get (fun r => (cache_hits r, cache_misses r)).
Definition bind_stats : R Z := get bind_count.
Definition cache_entry_counts : R (nat * nat) :=
  get (fun r => (size (user_cache r), size (group_cache r))).

Section Server.
Context (server : nat -> Query -> Attempt) (op_timeout_secs : Z).

Inductive Outcome := Answered (es : list Entry) (c : Conn) | Failed (e : string) | TimedOut.
Definition send (c : Conn) (q : Query) : R unit :=
  modify (fun r => on_sent (fun l => l ++ [{| s_conn := c; s_query := q; s_at := now r |}]) r).
Definition run_search (a : Attempt) (reused : bool) (c : Conn) (q : Query) : R Outcome :=
  do* send c q in
  ret (match a_search a reused with Ok es => Answered es c | Err e => Failed e end).
(** The worker of one attempt, and the wait for it. *)
Definition one_attempt (pooled : option Conn) (q : Query) : R Outcome :=
  let* n := get attempts in
  let a := server n q in
  do* modify (on_attempts S) in
  do* modify (on_now (fun t => t + a_elapsed a)) in
  match pooled with
  | Some c =>
      let* o := run_search a true c q in
      ret (if a_stalls a then TimedOut else o)
  | None =>
      match a_connect a with
      | Some e => ret (if a_stalls a then TimedOut else Failed ("connect: " +:+ e))
      | None =>
          do* modify (on_bind_count (fun n => n + 1)) in
          match a_bind a with
          | Some e => ret (if a_stalls a then TimedOut else Failed ("bind: " +:+ e))
          | None =>
              let* o := run_search a false {| c_id := n; c_auth := q_dn q |} q in
              ret (if a_stalls a then TimedOut else o)
          end
      end
  end.
(** [for attempt in 0..3]; [left] attempts remain. *)
Fixpoint service_loop (left : nat) (q : Query) : R (result (list Entry) string) :=
  match left with
  | O => ret (Err "exhausted retries")
  | S left' =>
      let attempt := (2 - left')%nat in
      let* pooled := take_pooled_conn (q_dn q) in
      let reused := is_some pooled in
      let* o := one_attempt pooled q in
      match o with
      | Answered es c => do* store_pooled_conn c (q_dn q) in ret (Ok es)
      | Failed e =>
          if reused then service_loop left' q
          else if (attempt =? 2)%nat then ret (Err e)
          else
            do* modify (on_now (fun t => t + Z.of_nat (attempt + 1) * 200 * 1000000)) in
            service_loop left' q
      | TimedOut => ret (Err ("ldap operation timed out after " +:+ dec op_timeout_secs +:+ "s"))
      end
  end.
Definition service_search (q : Query) : R (result (list Entry) string) := service_loop 3 q.
End Server.

(** ** Reading entries *)
(** [s.parse::<i32>()] *)
Definition parse_i32 (s : string) : option Z :=
  match s with
  | String "-" r =>
      if is_empty r || negb (sall is_ascii_digit r) then None
      else let v := - digits_val 0 r in if -2147483648 <=? v then Some v else None
  | _ => parse_uint 2147483647 s
  end.
Definition extract_first_attr (se : Entry) (name : string) : option string :=
  match (e_attrs se !! name) ≫= head with
  | Some v => Some v
  | None => (e_attrs se !! to_ascii_lowercase name) ≫= head
  end.
Definition or_else {A} (a b : option A) : option A := match a with Some _ => a | None => b end.
Definition extract_display_name (se : Entry) (full_name_attr fallback : string) : string :=
  default fallback
    (or_else (extract_first_attr se full_name_attr)
       (or_else (extract_first_attr se "displayName") (extract_first_attr se "cn"))).
(** The login of a member value: the first RDN's value of a DN, else the text. *)
Definition member_login (raw : string) : string :=
  if contains_char "=" raw then
    trim (match split "=" (before "," raw) with _ :: v :: _ => v | _ => raw end)
  else trim raw.
Definition extract_group_members (se : Entry) (member_attr : string) : list string :=
  let values := concat (map (fun attr =>
    default [] (or_else (e_attrs se !! attr) (e_attrs se !! to_ascii_lowercase attr)))
    [member_attr; "uniqueMember"; "memberUid"; "memberuid"]) in
  foldl (fun out raw =>
    let name := member_login raw in
    if is_empty name || bool_decide (name ∈ out) then out else out ++ [name]) [] values.
Definition dc_base_from (base : string) : string :=
  match split_once_str "dc=" (to_ascii_lowercase base) with
  | Some (a, _) => of_bytes (drop (len a) (bytes base))
  | None => base
  end.
Definition bases_from (base : string) : list string :=
  let dc := dc_base_from base in base :: (if seqb dc base then [] else [dc]).

(** ** Lookups *)
Section Lookups.
Context (server : nat -> Query -> Attempt) (op_timeout_secs : Z).
Context (user_base group_base : string) (pa : PosixAttributeMapping) (bind_dn bind_pw : string).

Definition eq_filter (obj attr value : string) : string :=
  "(&(objectClass=" +:+ obj +:+ ")(" +:+ attr +:+ "=" +:+ value +:+ "))".
Definition search (base filter : string) (attrs : list string) : R (result (list Entry) string) :=
  service_search server op_timeout_secs
    {| q_base := base; q_filter := filter; q_attrs := attrs; q_dn := bind_dn; q_pw := bind_pw |}.

(** The number of a user or group entry: no trimming. *)
Definition entry_number (se : Entry) (attr : string) : option Z := extract_first_attr se attr ≫= parse_i32.
Definition entry_gid (se : Entry) : option Z :=
  extract_first_attr se (user_gid_number pa) ≫= (fun s => parse_i32 (trim s)).

(** First entry with a number; what is cached and returned for it. *)
Definition cache_user (key : string) (u : Z) (cu : CachedUser) : R unit :=
  do* modify (on_user_cache (insert key cu)) in
  modify (on_user_by_uid_cache (insert u cu)).
Definition first_user (es : list Entry) : option (Entry * Z) :=
  head (omap (fun se => (fun u => (se, u)) <$> entry_number se (user_uid_number pa)) es).
Definition take_user (key name : string) (es : list Entry) : R (option (Z * option Z * string)) :=
  match first_user es with
  | Some (se, u) =>
      let display := extract_display_name se (user_full_name pa) name in
      let g := entry_gid se in
      let* t := get now in
      do* cache_user key u {| cu_id := key; cu_uid_number := Some u; cu_primary_gid := g;
                              cu_display_name := display; cu_fetched_at := t |} in
      ret (Some (u, g, display))
  | None => ret None
  end.
(** The loop over the bases; the flag says that a search failed. *)
Fixpoint user_bases_loop (name filter : string) (attrs bases : list string)
  : R (option (Z * option Z * string) * bool) :=
  match bases with
  | [] => ret (None, false)
  | base :: r =>
      let* res := search base filter attrs in
      match res with
      | Ok es =>
          let* o := take_user name name es in
          match o with
          | Some u => ret (Some u, false)
          | None => user_bases_loop name filter attrs r
          end
      | Err _ => ret (None, true)
      end
  end.
Definition user_attrs : list string :=
  [user_name pa; user_uid_number pa; user_gid_number pa; "cn"; "displayName"; user_full_name pa].
Definition resolve_user (name : string) : R (option (Z * option Z * string)) :=
  do* evict_expired in
  let* c := get user_cache in
  match c !! name ≫= (fun h => (fun u => (h, u)) <$> cu_uid_number h) with
  | Some (h, u) => do* hit in ret (Some (u, cu_primary_gid h, cu_display_name h))
  | None =>
      do* miss in
      let* neg := negative_hit ("u:" +:+ name) in
      if neg : bool then ret None
      else
        let attrs := user_attrs ++ [user_principal_name pa] in
        let bases := bases_from user_base in
        let* found := user_bases_loop name
                        (eq_filter (user_object_class pa) (user_name pa) (escape_ldap_filter name))
                        attrs bases in
        match found with
        | (Some u, _) => ret (Some u)
        | (None, unreachable) =>
            let* upn :=
              (if contains_char "@" name && negb unreachable then
                 first_of bases (fun base =>
                   let* res := search base
                     (eq_filter (user_object_class pa) (user_principal_name pa)
                        (escape_ldap_filter name)) attrs in
                   match res with
                   | Ok es => take_user (principal_local_part name) name es
                   | Err _ => ret None
                   end)
               else ret None) in
            match upn with
            | Some u => ret (Some u)
            | None => do* mark_negative ("u:" +:+ name) in ret None
            end
        end
  end.

Definition group_attrs_single : list string := [group_name pa; group_gid_number pa; "cn"; "displayName"].
Definition cached_group (se : Entry) (id : string) (g : Z) (t : Z) : CachedGroup :=
  {| cg_id := id; cg_gid_number := Some g;
     cg_display_name := extract_display_name se (group_name pa) id;
     cg_members := extract_group_members se (group_member pa); cg_fetched_at := t |}.
Definition cache_group (key : string) (g : Z) (cg : CachedGroup) : R unit :=
  do* modify (on_group_cache (insert key cg)) in
  modify (on_group_by_gid_cache (insert g cg)).
Definition resolve_group (name : string) : R (option (Z * string)) :=
  do* evict_expired in
  let* c := get group_cache in
  match c !! name ≫= (fun h => (fun g => (h, g)) <$> cg_gid_number h) with
  | Some (h, g) => do* hit in ret (Some (g, cg_display_name h))
  | None =>
      let* neg := negative_hit ("g:" +:+ name) in
      if neg : bool then ret None
      else
        do* miss in
        let* res := search group_base
          (eq_filter (group_object_class pa) (group_name pa) (escape_ldap_filter name))
          group_attrs_single in
        match res with
        | Err _ => do* mark_negative ("g:" +:+ name) in ret None
        | Ok es =>
            match head (omap (fun se => (fun g => (se, g)) <$> entry_number se (group_gid_number pa)) es) with
            | Some (se, g) =>
                let* t := get now in
                let cg := cached_group se name g t in
                do* cache_group name g cg in ret (Some (g, cg_display_name cg))
            | None => do* mark_negative ("g:" +:+ name) in ret None
            end
        end
  end.
(** [i32::to_string] *)
Definition dec_i32 (n : Z) : string := if n <? 0 then "-" +:+ dec (- n) else dec n.
Definition resolve_user_by_uid (uid : Z) : R (option (string * string)) :=
  do* evict_expired in
  let* c := get user_by_uid_cache in
  match c !! uid ≫= (fun h => (fun _ => h) <$> cu_uid_number h) with
  | Some h => do* hit in ret (Some (cu_id h, cu_display_name h))
  | None =>
      let* neg := negative_hit ("uid:" +:+ dec_i32 uid) in
      if neg : bool then ret None
      else
        do* miss in
        let* res := search user_base
          (eq_filter (user_object_class pa) (user_uid_number pa) (dec_i32 uid)) user_attrs in
        match res with
        | Err _ => do* mark_negative ("uid:" +:+ dec_i32 uid) in ret None
        | Ok es =>
            match head (omap (fun se => if bool_decide (entry_number se (user_uid_number pa) = Some uid)
                                        then Some se else None) es) with
            | Some se =>
                let id := default (dec_i32 uid) (extract_first_attr se (user_name pa)) in
                let display := extract_display_name se (user_full_name pa) id in
                let* t := get now in
                do* cache_user id uid {| cu_id := id; cu_uid_number := Some uid;
                      cu_primary_gid := entry_gid se; cu_display_name := display;
                      cu_fetched_at := t |} in
                ret (Some (id, display))
            | None => do* mark_negative ("uid:" +:+ dec_i32 uid) in ret None
            end
        end
  end.
Definition resolve_group_by_gid (gid : Z) : R (option (string * string)) :=
  do* evict_expired in
  let* c := get group_by_gid_cache in
  match c !! gid ≫= (fun h => (fun _ => h) <$> cg_gid_number h) with
  | Some h => do* hit in ret (Some (cg_id h, cg_display_name h))
  | None =>
      do* miss in
      let* neg := negative_hit ("gid:" +:+ dec_i32 gid) in
      if neg : bool then ret None
      else
        let* res := search group_base
          (eq_filter (group_object_class pa) (group_gid_number pa) (dec_i32 gid))
          group_attrs_single in
        match res with
        | Err _ => do* mark_negative ("gid:" +:+ dec_i32 gid) in ret None
        | Ok es =>
            match head (omap (fun se => if bool_decide (entry_number se (group_gid_number pa) = Some gid)
                                        then Some se else None) es) with
            | Some se =>
                let id := default (dec_i32 gid) (extract_first_attr se (group_name pa)) in
                let* t := get now in
                let cg := cached_group se id gid t in
                do* cache_group id gid cg in ret (Some (id, cg_display_name cg))
            | None => do* mark_negative ("gid:" +:+ dec_i32 gid) in ret None
            end
        end
  end.

(** The gid of a [memberOf] group: by the name in its first RDN among the
    cached groups, by the cached DN, or by reading the entry. *)
Definition dn_rdn (group_dn : string) : option string :=
  match split "=" (before "," group_dn) with
  | _ :: v :: _ => let v := trim v in if is_empty v then None else Some v
  | _ => None
  end.
Definition group_gid_from_dn `{!HashIter string} (group_dn : string) : R (option Z) :=
  let* groups := get group_cache in
  let by_rdn :=
    rdn ← dn_rdn group_dn;
    or_else (groups !! rdn ≫= cg_gid_number)
      (head (List.filter (fun kv => eq_ignore_ascii_case (fst kv) rdn) (hiter groups))
         ≫= (fun kv => cg_gid_number (snd kv))) in
  match by_rdn with
  | Some g => do* hit in ret (Some g)
  | None =>
      let* cached := get (fun r =>
        match group_gid_by_dn_cache r !! group_dn with
        | Some v => if now r - dg_fetched_at v <? dn_gid_ttl v then Some v else None
        | None => None
        end) in
      match cached with
      | Some v => do* hit in ret (dg_gid v)
      | None =>
          do* miss in
          let* res := search group_dn "(objectClass=*)" [group_gid_number pa] in
          let found :=
            match res with
            | Ok es => head (omap (fun se => extract_first_attr se (group_gid_number pa)
                                              ≫= (fun s => parse_i32 (trim s))) es)
            | Err _ => None
            end in
          do* modify (fun r => on_group_gid_by_dn_cache
                (insert group_dn {| dg_gid := found; dg_fetched_at := now r |}) r) in
          ret found
      end
  end.
Definition user_filter_by_name (name : string) : string :=
  eq_filter (user_object_class pa) (user_name pa) (escape_ldap_filter name).
Definition group_filter_by_name (name : string) : string :=
  eq_filter (group_object_class pa) (group_name pa) (escape_ldap_filter name).
Definition lookup_user_dn_and_memberof (username : string) : R (option (string * list string)) :=
  let* cached := get (fun r =>
    match memberof_cache r !! username with
    | Some v => if now r - mo_fetched_at v <? IDENTITY_CACHE_TTL then Some v else None
    | None => None
    end) in
  match cached with
  | Some v => do* hit in ret (Some (mo_dn v, mo_memberofs v))
  | None =>
      let* neg := negative_hit ("mo:" +:+ username) in
      if neg : bool then ret None
      else
        do* miss in
        let* res := search user_base (user_filter_by_name username) [user_name pa; "memberOf"] in
        match res with
        | Ok (se :: _) =>
            let memberofs := default [] (or_else (e_attrs se !! "memberOf") (e_attrs se !! "memberof")) in
            do* modify (fun r => on_memberof_cache
                  (insert username {| mo_dn := e_dn se; mo_memberofs := memberofs; mo_fetched_at := now r |}) r) in
            ret (Some (e_dn se, memberofs))
        | _ => do* mark_negative ("mo:" +:+ username) in ret None
        end
  end.
Definition lookup_first_dn (base filter : string) : R (option string) :=
  let* res := search base filter ["1.1"] in
  ret (match res with Ok (se :: _) => Some (e_dn se) | _ => None end).
Definition lookup_group_dn (name : string) : R (option string) :=
  lookup_first_dn group_base (group_filter_by_name name).
Definition user_dn_memberof_check (user_dn group_dn : string) : R (result bool string) :=
  let* res := search user_base
    ("(&(objectClass=" +:+ user_object_class pa +:+ ")(memberOf=" +:+ escape_ldap_filter group_dn +:+ "))")
    ["1.1"] in
  ret (match res with
       | Ok es => Ok (existsb (fun e => eq_ignore_ascii_case (e_dn e) user_dn) es)
       | Err e => Err e
       end).
Definition user_dn_has_memberof (user_dn group_dn : string) : R bool :=
  let* r := user_dn_memberof_check user_dn group_dn in
  ret (match r with Ok b => b | Err _ => false end).

(** The full list of the permission editor, cut at [limit]. *)
Definition build_posix_list_filter (obj_class num_attr : string) : string :=
  "(&(objectClass=" +:+ obj_class +:+ ")(" +:+ num_attr +:+ "=*))".
Definition list_row (name_attr num_attr display_attr : string) (se : Entry)
  : option (string * option Z * string * string) :=
  let id := default "" (extract_first_attr se name_attr) in
  if is_empty id then None
  else Some (id, entry_number se num_attr, extract_display_name se display_attr id, e_dn se).
Definition search_list_posix (base filter name_attr num_attr display_attr : string) (limit : nat)
  : R (result (list (string * option Z * string * string)) string) :=
  let* res := search base filter [name_attr; num_attr; "cn"; "displayName"; display_attr] in
  ret (match res with
       | Ok es => Ok (take (Nat.max 1 limit) (omap (list_row name_attr num_attr display_attr) es))
       | Err e => Err e
       end).
Definition search_list_users (limit : nat) :=
  search_list_posix user_base (build_posix_list_filter (user_object_class pa) (user_uid_number pa))
    (user_name pa) (user_uid_number pa) (user_full_name pa) limit.
Definition search_list_groups (limit : nat) :=
  search_list_posix group_base (build_posix_list_filter (group_object_class pa) (group_gid_number pa))
    (group_name pa) (group_gid_number pa) (group_name pa) limit.

(** ** The bulk load *)
Definition load_user (loaded : nat) (se : Entry) : R nat :=
  let id := default "" (extract_first_attr se (user_name pa)) in
  if is_empty id then ret loaded
  else match entry_number se (user_uid_number pa) with
       | Some u =>
           let g := default u (entry_gid se) in
           let display := extract_display_name se (user_full_name pa) id in
           let* t := get now in
           do* cache_user id u {| cu_id := id; cu_uid_number := Some u; cu_primary_gid := Some g;
                                  cu_display_name := display; cu_fetched_at := t |} in
           match extract_first_attr se (user_principal_name pa) with
           | Some pval =>
               if negb (is_empty pval) && negb (seqb pval id) then
                 do* modify (on_user_cache (insert pval
                   {| cu_id := pval; cu_uid_number := Some u; cu_primary_gid := Some g;
                      cu_display_name := display; cu_fetched_at := t |})) in
                 ret (S loaded)
               else ret (S loaded)
           | None => ret (S loaded)
           end
       | None => ret loaded
       end.
Definition load_group (se : Entry) : R unit :=
  let id := default "" (extract_first_attr se (group_name pa)) in
  if is_empty id then ret tt
  else match entry_number se (group_gid_number pa) with
       | Some g => let* t := get now in cache_group id g (cached_group se id g t)
       | None => ret tt
       end.
Definition group_attrs_bulk : list string :=
  [group_name pa; group_gid_number pa; group_member pa; "uniqueMember"; "memberUid"; "cn"; "displayName"].
Definition class_filter (obj : string) : string := "(objectClass=" +:+ obj +:+ ")".
Definition load_full_identities : R nat :=
  do* clear_caches in
  let* loaded := fold_m (bases_from user_base) 0%nat (fun loaded base =>
    let* res := search base (class_filter (user_object_class pa)) user_attrs in
    match res with Ok es => fold_m es loaded load_user | Err _ => ret loaded end) in
  do* each (bases_from group_base) (fun base =>
    let* res := search base (class_filter (group_object_class pa)) group_attrs_bulk in
    match res with Ok es => each es load_group | Err _ => ret tt end) in
  ret loaded.
End Lookups.

(** ** Snapshots; ids are [i32] *)
Record PosixUserEntry := { u_uid : Z; u_gid : Z; u_display : string }.
Record PosixGroupEntry := { g_gid : Z; g_display : string; g_members : list string }.
(** The reverse indexes are written with the last name of a number in iteration
    order; nothing reads them. *)
Record IdMapSnapshot := {
  users : gmap string PosixUserEntry;
  groups : gmap string PosixGroupEntry;
  by_uid : gmap Z string;
  by_gid : gmap Z string;
}.
Definition snap_user (cu : CachedUser) : option PosixUserEntry :=
  (fun uid => {| u_uid := uid; u_gid := default uid (cu_primary_gid cu);
                 u_display := cu_display_name cu |}) <$> cu_uid_number cu.
Definition snap_group (cg : CachedGroup) : option PosixGroupEntry :=
  (fun gid => {| g_gid := gid; g_display := cg_display_name cg; g_members := cg_members cg |})
    <$> cg_gid_number cg.
Definition index `{!HashIter string} {A} (key : A -> option Z) (m : gmap string A) : gmap Z string :=
  foldl (fun i kv => match key (snd kv) with Some n => <[ n := fst kv ]> i | None => i end) ∅ (hiter m).
Definition snapshot `{!HashIter string} : R IdMapSnapshot :=
  do* evict_expired in
  get (fun r => {| users := omap snap_user (user_cache r); groups := omap snap_group (group_cache r);
                   by_uid := index cu_uid_number (user_cache r);
                   by_gid := index cg_gid_number (group_cache r) |}).

Definition machine_member_hit (principal : string) (entry : PosixGroupEntry) : bool :=
  existsb (fun m => let m := trim m in
    eq_ignore_ascii_case m (machine_short_name principal)
    || eq_ignore_ascii_case m (principal_local_part principal)
    || eq_ignore_ascii_case m principal || eq_ignore_ascii_case m "root") (g_members entry).
Definition machine_supplemental_gids_from_snapshot `{!HashIter string} (principal : string)
    (snap : IdMapSnapshot) : list Z :=
  sort_by Z.leb
    (foldl (fun supps entry =>
       if g_gid entry =? 0 then supps
       else if machine_member_hit principal entry && negb (existsb (Z.eqb (g_gid entry)) supps)
       then supps ++ [g_gid entry] else supps) [] (hvalues (groups snap))).
Definition push_unique (l : list Z) (g : Z) : list Z := if existsb (Z.eqb g) l then l else l ++ [g].
Definition machine_group_gids_for_principal `{!HashIter string} (principal : string)
    (snap : IdMapSnapshot) : list Z :=
  foldl (fun gids g => if negb (g =? MACHINE_GID) && negb (existsb (Z.eqb g) gids)
                       then gids ++ [g] else gids)
    [MACHINE_GID] (machine_supplemental_gids_from_snapshot principal snap).

Section Groups.
Context `{!HashIter string} (server : nat -> Query -> Attempt) (op_timeout_secs : Z).
Context (user_base group_base : string) (pa : PosixAttributeMapping) (bind_dn bind_pw : string).

Definition resolve_groups_for_principal (p : string) : R (list Z) :=
  if fst (classify_principal p "" []) then
    let* snap := snapshot in ret (machine_group_gids_for_principal p snap)
  else
    let* u := resolve_user server op_timeout_secs user_base pa bind_dn bind_pw p in
    let gids := match u with Some (_, Some g, _) => [g] | _ => [] end in
    let lookup := fun n =>
      let* r := lookup_user_dn_and_memberof server op_timeout_secs user_base pa bind_dn bind_pw n in
      ret (snd <$> r) in
    let short := principal_local_part p in
    let* m1 := lookup p in
    let* memberofs :=
      match m1 with
      | Some m => ret (Some m)
      | None => if negb (seqb short p) then lookup short else ret None
      end in
    let* gids := fold_m (default [] memberofs) gids (fun gids gdn =>
      let* g := group_gid_from_dn server op_timeout_secs pa bind_dn bind_pw gdn in
      ret (match g with Some g => push_unique gids g | None => gids end)) in
    let* snap := snapshot in
    ret (foldl (fun gids ge =>
      if existsb (fun m => eq_ignore_ascii_case m short || eq_ignore_ascii_case m p) (g_members ge)
         && negb (existsb (Z.eqb (g_gid ge)) gids)
      then gids ++ [g_gid ge] else gids) gids (hvalues (groups snap))).
End Groups.

(** * What the resolver guarantees *)

(** ** Every operation, as a step *)
Section Ops.
Context `{!HashIter string} (server : nat -> Query -> Attempt) (op_timeout_secs : Z).

(** The public operations, by anyone with any credentials and mapping, and the
    passage of time. *)
Inductive op : forall A, R A -> Prop :=
| op_user ub pa dn pw n : op _ (resolve_user server op_timeout_secs ub pa dn pw n)
| op_group gb pa dn pw n : op _ (resolve_group server op_timeout_secs gb pa dn pw n)
| op_by_uid ub pa dn pw n : op _ (resolve_user_by_uid server op_timeout_secs ub pa dn pw n)
| op_by_gid gb pa dn pw n : op _ (resolve_group_by_gid server op_timeout_secs gb pa dn pw n)
| op_groups ub pa dn pw p : op _ (resolve_groups_for_principal server op_timeout_secs ub pa dn pw p)
| op_memberof ub pa dn pw n : op _ (lookup_user_dn_and_memberof server op_timeout_secs ub pa dn pw n)
| op_group_dn gb pa dn pw n : op _ (lookup_group_dn server op_timeout_secs gb pa dn pw n)
| op_check ub pa dn pw u g : op _ (user_dn_memberof_check server op_timeout_secs ub pa dn pw u g)
| op_users ub pa dn pw l : op _ (search_list_users server op_timeout_secs ub pa dn pw l)
| op_list_groups gb pa dn pw l : op _ (search_list_groups server op_timeout_secs gb pa dn pw l)
| op_load ub gb pa dn pw : op _ (load_full_identities server op_timeout_secs ub gb pa dn pw)
| op_snapshot : op _ snapshot
| op_clear : op _ clear_caches
| op_wait d : 0 <= d -> op _ (modify (on_now (fun t => t + d))).
Inductive rstep : Resolver -> Resolver -> Prop :=
| rstep_op A (m : R A) r : op A m -> rstep r (snd (m r)).
Definition reachable (t0 : Z) (r : Resolver) : Prop := rtc rstep (new_resolver t0) r.

(** An invariant of the parts is an invariant of every reachable state. *)
Class Stable (I : Resolver -> Prop) : Prop := {
  stable_new t : I (new_resolver t);
  stable_search q : keeps I (service_search server op_timeout_secs q);
  stable_evict : keeps I evict_expired;
  stable_hit : keeps I hit;
  stable_miss : keeps I miss;
  stable_negative k : keeps I (mark_negative k);
  stable_clear : keeps I clear_caches;
  stable_user k u t cu : cu_fetched_at cu = t -> forall r, I r -> now r = t ->
    I (on_user_by_uid_cache (insert u cu) (on_user_cache (insert k cu) r));
  stable_alias k t cu : cu_fetched_at cu = t -> forall r, I r -> now r = t ->
    I (on_user_cache (insert k cu) r);
  stable_group k g t cg : cg_fetched_at cg = t -> forall r, I r -> now r = t ->
    I (on_group_by_gid_cache (insert g cg) (on_group_cache (insert k cg) r));
  stable_dn_gid k g r : I r -> I (on_group_gid_by_dn_cache
    (insert k {| dg_gid := g; dg_fetched_at := now r |}) r);
  stable_memberof k dn ms r : I r -> I (on_memberof_cache
    (insert k {| mo_dn := dn; mo_memberofs := ms; mo_fetched_at := now r |}) r);
  stable_wait d : 0 <= d -> keeps I (modify (on_now (fun t => t + d)));
}.
End Ops.

Section Keep.
Context `{!HashIter string} (server : nat -> Query -> Attempt) (op_timeout_secs : Z).
Context (I : Resolver -> Prop) (HI : Stable server op_timeout_secs I).

Local Hint Resolve stable_search stable_evict stable_hit stable_miss stable_negative stable_clear
  keeps_ret keeps_get : keep.

Lemma keeps_search ub_q dn pw f attrs : keeps I (search server op_timeout_secs dn pw ub_q f attrs).
Proof. apply (stable_search server op_timeout_secs). Qed.
Lemma keeps_evict : keeps I evict_expired.
Proof. apply (stable_evict server op_timeout_secs). Qed.
Lemma keeps_hit : keeps I hit.
Proof. apply (stable_hit server op_timeout_secs). Qed.
Lemma keeps_miss : keeps I miss.
Proof. apply (stable_miss server op_timeout_secs). Qed.
Lemma keeps_negative k : keeps I (mark_negative k).
Proof. apply (stable_negative server op_timeout_secs). Qed.
Lemma keeps_clear : keeps I clear_caches.
Proof. apply (stable_clear server op_timeout_secs). Qed.
Lemma keeps_negative_hit k : keeps I (negative_hit k).
Proof. apply keeps_get. Qed.
Local Hint Resolve keeps_search keeps_evict keeps_hit keeps_miss keeps_negative keeps_clear
  keeps_negative_hit : keep.

Lemma keeps_take_user pa key name es : keeps I (take_user pa key name es).
Proof.
  unfold take_user. destruct (first_user pa es) as [[se u]|]; [|apply keeps_ret]. cbv zeta.
  intros r Hr. unfold bind, get, cache_user, modify. cbn.
  by apply (stable_user server op_timeout_secs _ _ (now r)).
Qed.
Lemma keeps_cache_user_now k u f :
  (forall t, cu_fetched_at (f t) = t) ->
  forall B (b : B), keeps I (let* t := get now in do* cache_user k u (f t) in ret b).
Proof.
  intros Hf B b r Hr. unfold bind, get, cache_user, modify. cbn.
  by apply (stable_user server op_timeout_secs _ _ (now r)).
Qed.
Lemma keeps_cache_group_now pa se k g B (x : B) :
  keeps I (let* t := get now in
           let cg := cached_group pa se k g t in
           do* cache_group k g cg in ret (Some (x, cg_display_name cg))).
Proof.
  intros r Hr. unfold bind, get, cache_group, modify. cbn.
  by apply (stable_group server op_timeout_secs _ _ (now r)).
Qed.
Lemma keeps_cache_user_id_now k u f B (b : B) :
  (forall t, cu_fetched_at (f t) = t) ->
  keeps I (let* t := get now in do* cache_user k u (f t) in ret b).
Proof. intros Hf. by apply keeps_cache_user_now. Qed.
Local Hint Resolve keeps_take_user keeps_cache_group_now : keep.
Local Hint Extern 1 (keeps I (bind (get now) _)) => apply keeps_cache_user_id_now; reflexivity : keep.

Lemma keeps_bases_loop pa dn pw n f attrs bases :
  keeps I (user_bases_loop server op_timeout_secs pa dn pw n f attrs bases).
Proof. induction bases as [|b l IH]; cbn [user_bases_loop]; keep_all. Qed.
Local Hint Resolve keeps_bases_loop : keep.
Lemma keeps_resolve_user ub pa dn pw n : keeps I (resolve_user server op_timeout_secs ub pa dn pw n).
Proof. unfold resolve_user. keep_all. Qed.
Lemma keeps_resolve_group gb pa dn pw n :
  keeps I (resolve_group server op_timeout_secs gb pa dn pw n).
Proof.
  unfold resolve_group. keep_all.
Qed.
Lemma keeps_by_uid ub pa dn pw n : keeps I (resolve_user_by_uid server op_timeout_secs ub pa dn pw n).
Proof. unfold resolve_user_by_uid. keep_all. Qed.
Lemma keeps_by_gid gb pa dn pw n : keeps I (resolve_group_by_gid server op_timeout_secs gb pa dn pw n).
Proof. unfold resolve_group_by_gid. keep_all. Qed.
Lemma keeps_memberof ub pa dn pw n :
  keeps I (lookup_user_dn_and_memberof server op_timeout_secs ub pa dn pw n).
Proof.
  unfold lookup_user_dn_and_memberof. keep_all.
  apply keeps_modify. intros r. apply (stable_memberof server op_timeout_secs).
Qed.
Lemma keeps_gid_from_dn pa dn pw g : keeps I (group_gid_from_dn server op_timeout_secs pa dn pw g).
Proof.
  unfold group_gid_from_dn. keep_all.
  apply keeps_modify. intros r. apply (stable_dn_gid server op_timeout_secs).
Qed.
Lemma keeps_snapshot : keeps I snapshot.
Proof. unfold snapshot. keep_all. Qed.
Local Hint Resolve keeps_resolve_user keeps_memberof keeps_gid_from_dn keeps_snapshot : keep.
Lemma keeps_groups ub pa dn pw p :
  keeps I (resolve_groups_for_principal server op_timeout_secs ub pa dn pw p).
Proof. unfold resolve_groups_for_principal. keep_all. Qed.
Lemma keeps_load_user pa n se : keeps I (load_user pa n se).
Proof.
  unfold load_user. cbv zeta. destruct (is_empty _); [apply keeps_ret|].
  destruct (entry_number _ _) as [u|]; [|apply keeps_ret].
  intros r Hr. unfold bind, get, cache_user, modify. cbn.
  set (cu := {| cu_id := _; cu_uid_number := _ |}).
  assert (H : I (on_user_by_uid_cache (insert u cu) (on_user_cache (insert (cu_id cu) cu) r)))
    by by apply (stable_user server op_timeout_secs _ _ (now r)).
  destruct (extract_first_attr se (user_principal_name pa)) as [pval|]; [|done].
  destruct (_ && _); [|done]. cbn.
  apply (stable_alias server op_timeout_secs _ (now r)); [done|done|]. by destruct r.
Qed.
Lemma keeps_load_group pa se : keeps I (load_group pa se).
Proof.
  unfold load_group. cbv zeta. destruct (is_empty _); [apply keeps_ret|].
  destruct (entry_number _ _) as [g|]; [|apply keeps_ret].
  intros r Hr. unfold bind, get, cache_group, modify. cbn.
  by apply (stable_group server op_timeout_secs _ _ (now r)).
Qed.
Local Hint Resolve keeps_load_user keeps_load_group : keep.
Lemma keeps_load ub gb pa dn pw : keeps I (load_full_identities server op_timeout_secs ub gb pa dn pw).
Proof. unfold load_full_identities. keep_all. Qed.

Lemma op_keeps A (m : R A) : op server op_timeout_secs A m -> keeps I m.
Proof.
  destruct 1; auto using keeps_resolve_user, keeps_resolve_group, keeps_by_uid, keeps_by_gid,
    keeps_groups, keeps_memberof, keeps_load, keeps_snapshot, keeps_clear.
  - unfold lookup_group_dn, lookup_first_dn. keep_all.
  - unfold user_dn_memberof_check. keep_all.
  - unfold search_list_users, search_list_posix. keep_all.
  - unfold search_list_groups, search_list_posix. keep_all.
  - by apply (stable_wait server op_timeout_secs).
Qed.
Lemma reachable_inv t0 r : reachable server op_timeout_secs t0 r -> I r.
Proof.
  intros H. cut (I (new_resolver t0)); [|apply (stable_new server op_timeout_secs)].
  induction H as [r|r1 r2 r3 [A m r0 Hop] _ IH]; [done|]. intros Hr. apply IH. by eapply op_keeps.
Qed.
End Keep.

(** ** One search *)

(** What a search leaves alone, and how it moves time and the log. *)
Record search_frame (budget : nat) (r r' : Resolver) : Prop := {
  sf_users : user_cache r' = user_cache r;
  sf_groups : group_cache r' = group_cache r;
  sf_by_uid : user_by_uid_cache r' = user_by_uid_cache r;
  sf_by_gid : group_by_gid_cache r' = group_by_gid_cache r;
  sf_dn : group_gid_by_dn_cache r' = group_gid_by_dn_cache r;
  sf_memberof : memberof_cache r' = memberof_cache r;
  sf_negative : negative_cache r' = negative_cache r;
  sf_evict : last_evict r' = last_evict r;
  sf_now : now r <= now r';
  sf_sent : exists l, sent r' = sent r ++ l /\ (length l <= budget)%nat;
  sf_attempts : (attempts r <= attempts r' <= attempts r + budget)%nat;
  sf_binds : bind_count r <= bind_count r' <= bind_count r + Z.of_nat budget;
}.
Lemma frame_refl r : search_frame 0 r r.
Proof. split; try done; try lia. exists []. by rewrite app_nil_r. Qed.
Lemma frame_trans n m r1 r2 r3 :
  search_frame n r1 r2 -> search_frame m r2 r3 -> search_frame (n + m) r1 r3.
Proof.
  intros [] []. split; try congruence; try lia.
  destruct sf_sent0 as (l1 & E1 & H1), sf_sent1 as (l2 & E2 & H2).
  exists (l1 ++ l2). rewrite E2, E1, app_assoc, length_app. split; [done|lia].
Qed.
Lemma frame_le n m r1 r2 : (n <= m)%nat -> search_frame n r1 r2 -> search_frame m r1 r2.
Proof. intros H []. split; try done; try lia. destruct sf_sent0 as (l & ? & ?). exists l. split; [done|lia]. Qed.

Lemma take_pooled_frame dn r : search_frame 0 r (snd (take_pooled_conn dn r)).
Proof.
  unfold take_pooled_conn. destruct (last _); destruct r; cbn; apply frame_refl || split; cbn; try done; try lia.
  all: exists []; by rewrite app_nil_r.
Qed.
Lemma store_pooled_frame c dn r : search_frame 0 r (snd (store_pooled_conn c dn r)).
Proof.
  unfold store_pooled_conn, modify. cbn. case_match; [apply frame_refl|].
  destruct r; split; cbn; try done; try lia. exists []. by rewrite app_nil_r.
Qed.

Section SearchFacts.
Context (server : nat -> Query -> Attempt) (op_timeout_secs : Z).
Context (Helapsed : forall n q, 0 <= a_elapsed (server n q)).

Lemma one_attempt_frame pooled q r :
  search_frame 1 r (snd (one_attempt server pooled q r)).
Proof.
  unfold one_attempt, run_search, send, bind, get, modify, ret.
  pose proof (Helapsed (attempts r) q) as He. destruct r; cbn in *.
  assert (Hl : forall x : Sent, exists l, sent0 ++ [x] = sent0 ++ l /\ (length l <= 1)%nat) by (intros x; by exists [x]).
  assert (Hn : exists l, sent0 = sent0 ++ l /\ (length l <= 1)%nat) by (exists []; rewrite app_nil_r; split; [done|cbn; lia]).
  destruct pooled; cbn; [split; cbn; try done; try lia; apply Hl|].
  destruct (a_connect _); cbn; [split; cbn; try done; try lia|].
  destruct (a_bind _); cbn; split; cbn; try done; try lia; apply Hl.
Qed.
(** A successful answer was sent by the server over a logged search. *)
Lemma one_attempt_answer pooled q r es c :
  fst (one_attempt server pooled q r) = Answered es c ->
  exists s, sent (snd (one_attempt server pooled q r)) = sent r ++ [s] /\ s_conn s = c /\ s_query s = q
    /\ c_auth c = match pooled with Some p => c_auth p | None => q_dn q end.
Proof.
  unfold one_attempt, run_search, send, bind, get, modify, ret. destruct r; cbn.
  intros H. repeat case_match; cbn in *; simplify_eq; by eexists.
Qed.
Lemma service_loop_frame left q r :
  search_frame left r (snd (service_loop server op_timeout_secs left q r)).
Proof.
  revert r. induction left as [|left IH]; intros r; [apply frame_refl|]. cbn [service_loop].
  unfold bind. pose proof (take_pooled_frame (q_dn q) r) as H1.
  destruct (take_pooled_conn (q_dn q) r) as [pooled r1]. cbn in H1.
  pose proof (one_attempt_frame pooled q r1) as H2.
  destruct (one_attempt server pooled q r1) as [o r2]. cbn in H2.
  pose proof (frame_trans _ _ _ _ _ H1 H2) as H12. destruct o as [es c|e|].
  - pose proof (store_pooled_frame c (q_dn q) r2) as H3. cbv zeta.
    destruct (store_pooled_conn c (q_dn q) r2) as [u r3]. cbn in H3 |- *.
    apply (frame_le 1); [lia|]. apply (frame_trans _ _ _ _ _ H12 H3).
  - destruct (is_some pooled); [apply (frame_trans _ _ _ _ _ H12 (IH r2))|].
    case_match; [apply (frame_le 1); [lia|done]|]. unfold modify.
    apply (frame_trans 1 left _ (on_now (fun t => t + Z.of_nat (2 - left + 1) * 200 * 1000000) r2)); [|apply IH].
    destruct H12. destruct r2. split; cbn in *; try done; try lia.
  - apply (frame_le 1); [lia|done].
Qed.
Lemma service_search_frame q r : search_frame 3 r (snd (service_search server op_timeout_secs q r)).
Proof. apply service_loop_frame. Qed.
Lemma service_loop_ok left q r es :
  fst (service_loop server op_timeout_secs left q r) = Ok es ->
  (length (sent r) < length (sent (snd (service_loop server op_timeout_secs left q r))))%nat.
Proof.
  revert r. induction left as [|left IH]; intros r; [done|]. cbn [service_loop].
  unfold bind. pose proof (take_pooled_frame (q_dn q) r) as H1.
  destruct (take_pooled_conn (q_dn q) r) as [pooled r1]. cbn in H1.
  pose proof (one_attempt_frame pooled q r1) as H2.
  pose proof (one_attempt_answer pooled q r1) as Ha.
  destruct (one_attempt server pooled q r1) as [o r2]. cbn in H2, Ha.
  destruct (sf_sent _ _ _ H1) as (l1 & E1 & _), (sf_sent _ _ _ H2) as (l2 & E2 & L2).
  assert (Hle : (length (sent r) <= length (sent r2))%nat) by (rewrite E2, E1, !length_app; lia).
  destruct o as [es' c|e|].
  - intros _. destruct (sf_sent _ _ _ (store_pooled_frame c (q_dn q) r2)) as (l3 & E3 & _). cbv zeta.
    destruct (store_pooled_conn c (q_dn q) r2) as [u r3]. cbn in E3 |- *.
    destruct (Ha es' c eq_refl) as (s & El & _). rewrite E3, El, E1, !length_app. cbn. lia.
  - cbv zeta. destruct (is_some pooled); [intros Ho%IH; lia|].
    destruct ((2 - left =? 2)%nat); [done|]. unfold modify. intros Ho%IH. destruct r2; cbn in *. lia.
  - done.
Qed.
End SearchFacts.

(** ** Identities are never mixed *)
Definition pool_inv (r : Resolver) : Prop :=
  Forall (fun p => c_auth (pc_ldap p) = pc_bound_as p) (conn_pool r)
  /\ (length (conn_pool r) <= POOL_MAX_CONNS)%nat
  /\ Forall (fun s => c_auth (s_conn s) = q_dn (s_query s)) (sent r).
Lemma pool_inv_ext r r' :
  conn_pool r' = conn_pool r -> sent r' = sent r -> pool_inv r -> pool_inv r'.
Proof. intros Hp Hs. unfold pool_inv. by rewrite Hp, Hs. Qed.

Section PoolInv.
Context `{!HashIter string} (server : nat -> Query -> Attempt) (op_timeout_secs : Z).

Lemma length_filter_le {A} (p : A -> bool) l : (length (List.filter p l) <= length l)%nat.
Proof. induction l as [|x l IH]; cbn; [done|]. destruct (p x); cbn; lia. Qed.
Lemma Forall_filter_In {A} (P : A -> Prop) (p : A -> bool) l : Forall P l -> Forall P (List.filter p l).
Proof. induction 1; cbn; [done|]. case_match; auto. Qed.
Lemma take_pooled_inv dn r :
  pool_inv r -> let res := take_pooled_conn dn r in
  pool_inv (snd res) /\ (forall c, fst res = Some c -> c_auth c = dn).
Proof.
  intros (H1 & H2 & H3). unfold take_pooled_conn.
  set (kept := List.filter _ (conn_pool r)).
  assert (Hk : Forall (fun p => c_auth (pc_ldap p) = pc_bound_as p) kept) by by apply Forall_filter_In.
  assert (Hd : Forall (fun p => pc_bound_as p = dn) kept).
  { apply Forall_forall. intros p [_ [Hp%seqb_eq _]%andb_true_iff]%elem_of_filter_In. done. }
  assert (Hn : (length kept <= POOL_MAX_CONNS)%nat).
  { etrans; [apply length_filter_le|done]. }
  clearbody kept. destruct (last kept) as [p|] eqn:E; cbn; (split; [|intros c; try done]).
  - destruct r; split_and!; cbn; [by apply Forall_take|unfold POOL_MAX_CONNS in *; rewrite length_take; lia|done].
  - intros [= <-]. apply last_Some_elem_of in E. rewrite Forall_forall in Hk, Hd.
    by rewrite Hk, Hd.
  - destruct r; by split_and!.
Qed.
Lemma one_attempt_inv pooled q r :
  pool_inv r -> (forall c, pooled = Some c -> c_auth c = q_dn q) ->
  let res := one_attempt server pooled q r in
  pool_inv (snd res) /\ (forall es c, fst res = Answered es c -> c_auth c = q_dn q).
Proof.
  intros (H1 & H2 & H3) Hp. split.
  - unfold one_attempt, run_search, send, bind, get, modify, ret. destruct r; cbn in *.
    destruct pooled as [c|]; cbn.
    + split_and!; [done|done|]. apply Forall_app. split; [done|]. constructor; [|constructor]. by apply Hp.
    + destruct (a_connect _); cbn; [by split_and!|]. destruct (a_bind _); cbn; [by split_and!|].
      split_and!; [done|done|]. apply Forall_app. split; [done|]. by repeat constructor.
  - intros es c (s & _ & _ & _ & Hc)%one_attempt_answer. rewrite Hc. destruct pooled; [by apply Hp|done].
Qed.
Lemma store_pooled_inv c dn r :
  pool_inv r -> c_auth c = dn -> pool_inv (snd (store_pooled_conn c dn r)).
Proof.
  intros Hr Hc. unfold store_pooled_conn, modify. cbn [fst snd].
  destruct (Nat.leb_spec POOL_MAX_CONNS (length (conn_pool r))) as [Hl|Hl]; [done|].
  destruct Hr as (P1 & P2 & P3). destruct r. cbn [conn_pool] in *. split_and!; cbn [on_conn_pool conn_pool sent].
  - apply Forall_app. split; [done|]. constructor; [done|constructor].
  - rewrite length_app. cbn. unfold POOL_MAX_CONNS in *. lia.
  - exact P3.
Qed.
Lemma service_loop_inv left q : keeps pool_inv (service_loop server op_timeout_secs left q).
Proof.
  induction left as [|left IH]; [apply keeps_ret|]. intros r Hr. cbn [service_loop]. unfold bind.
  pose proof (take_pooled_inv (q_dn q) r Hr) as [H1 Hc].
  destruct (take_pooled_conn (q_dn q) r) as [pooled r1]. cbn in H1, Hc.
  pose proof (one_attempt_inv pooled q r1 H1 Hc) as [H2 Ha].
  destruct (one_attempt server pooled q r1) as [o r2]. cbn in H2, Ha. destruct o as [es c|e|]; cbv zeta.
  - pose proof (store_pooled_inv c (q_dn q) r2 H2 (Ha es c eq_refl)) as H3.
    by destruct (store_pooled_conn c (q_dn q) r2).
  - destruct (is_some pooled); [by apply IH|]. destruct ((2 - left =? 2)%nat); [done|].
    unfold modify. apply IH. eapply pool_inv_ext; [| |exact H2]; by destruct r2.
  - done.
Qed.
#[local] Instance pool_stable : Stable server op_timeout_secs pool_inv.
Proof.
  split.
  - intros t. split_and!; cbn; [constructor|lia|constructor].
  - intros q. apply service_loop_inv.
  - apply keeps_modify. intros r Hr. cbv zeta. destruct (last_evict r); [destruct (_ <? _)|]; by destruct r.
  - apply keeps_modify. intros r Hr. by destruct r.
  - apply keeps_modify. intros r Hr. by destruct r.
  - intros k. apply keeps_modify. intros r Hr. by destruct r.
  - apply keeps_modify. intros r Hr. by destruct r.
  - intros k u t cu _ r Hr _. by destruct r.
  - intros k t cu _ r Hr _. by destruct r.
  - intros k g t cg _ r Hr _. by destruct r.
  - intros k g r Hr. by destruct r.
  - intros k dn ms r Hr. by destruct r.
  - intros d _. apply keeps_modify. intros r Hr. by destruct r.
Qed.
Lemma reachable_pool t0 r : reachable server op_timeout_secs t0 r -> pool_inv r.
Proof. apply (reachable_inv server op_timeout_secs pool_inv _). Qed.
End PoolInv.

(** C33: Identities are never mixed.  In every reachable state the pool holds at
    most four connections, each authenticated as the DN it is filed under, and
    every search the server has seen travelled over a connection that had
    authenticated as the DN the search was made for. *)
Theorem searches_run_as_their_dn `{!HashIter string} server op_timeout_secs t0 r :
  reachable server op_timeout_secs t0 r ->
  (length (conn_pool r) <= POOL_MAX_CONNS)%nat
  /\ (forall p, p ∈ conn_pool r -> c_auth (pc_ldap p) = pc_bound_as p)
  /\ (forall s, s ∈ sent r -> c_auth (s_conn s) = q_dn (s_query s)).
Proof.
  intros (H1 & H2 & H3)%reachable_pool. rewrite Forall_forall in H1. rewrite Forall_forall in H3. by split_and!.
Qed.

(** A server with one user and one group, for the witnesses. *)
Definition demo_mapping : PosixAttributeMapping := {|
  user_object_class := "posixAccount"; group_object_class := "posixGroup"; user_name := "uid";
  user_uid_number := "uidNumber"; user_gid_number := "gidNumber";
  user_home_directory := "homeDirectory"; user_shell := "loginShell";
  user_full_name := "displayName"; group_name := "cn"; group_gid_number := "gidNumber";
  group_member := "member"; user_principal_name := "krbPrincipalName" |}.
Definition demo_entry : Entry := {| e_dn := "uid=ann,ou=people,dc=ex";
  e_attrs := <["uid" := ["ann"]]> (<["uidNumber" := ["1001"]]> (<["gidNumber" := ["2001"]]> ∅)) |}.
Definition answering (es : list Entry) (n : nat) (q : Query) : Attempt :=
  {| a_connect := None; a_bind := None; a_search := fun _ => Ok es; a_stalls := false;
     a_elapsed := 1000000 |}.
Definition demo_resolve := resolve_user (answering [demo_entry]) 15 "ou=people,dc=ex" demo_mapping "cn=svc" "pw".
#[local] Instance demo_iter : HashIter string := iter_forward.

Lemma searches_run_as_their_dn_witness :
  let r := snd (demo_resolve "ann" (new_resolver 0)) in
  (length (conn_pool r) = 1 /\ length (sent r) = 1)%nat
  /\ ((length (conn_pool r) <= POOL_MAX_CONNS)%nat
      /\ (forall p, p ∈ conn_pool r -> c_auth (pc_ldap p) = pc_bound_as p)
      /\ (forall s, s ∈ sent r -> c_auth (s_conn s) = q_dn (s_query s))).
Proof.
  split; [by vm_compute|]. apply (searches_run_as_their_dn (answering [demo_entry]) 15 0).
  apply rtc_once. apply rstep_op. apply op_user.
Defined.

(** ** A search ends *)
Section Ends.
Context (server : nat -> Query -> Attempt) (op_timeout_secs : Z).
Context (T : Z) (Helapsed : forall n q, 0 <= a_elapsed (server n q) <= T).

Lemma one_attempt_time pooled q r : now (snd (one_attempt server pooled q r)) <= now r + T.
Proof.
  unfold one_attempt, run_search, send, bind, get, modify, ret.
  pose proof (Helapsed (attempts r) q) as He. destruct r; cbn in *.
  destruct pooled; cbn; [lia|]. destruct (a_connect _); cbn; [lia|]. destruct (a_bind _); cbn; lia.
Qed.
Lemma take_pooled_now dn r : now (snd (take_pooled_conn dn r)) = now r.
Proof. unfold take_pooled_conn. by destruct (last _), r. Qed.
Lemma store_pooled_now c dn r : now (snd (store_pooled_conn c dn r)) = now r.
Proof. unfold store_pooled_conn, modify. cbn [snd]. by destruct (_ <=? _)%nat, r. Qed.
(** The back-off that is still to come when [left] attempts remain. *)
Definition backoff (left : nat) : Z :=
  match left with 3%nat => 600 | 2%nat => 400 | _ => 0 end * 1000000.
Lemma backoff_step left :
  (2 - left)%nat <> 2%nat -> (left <= 2)%nat ->
  Z.of_nat (2 - left + 1) * 200 * 1000000 + backoff left <= backoff (S left).
Proof. destruct left as [|[|[|]]]; unfold backoff; lia. Qed.
Lemma service_loop_time left q r :
  (left <= 3)%nat ->
  now (snd (service_loop server op_timeout_secs left q r)) <= now r + Z.of_nat left * T + backoff left.
Proof.
  assert (HT : 0 <= T) by (pose proof (Helapsed 0%nat q); lia).
  revert r. induction left as [|left IH]; intros r Hl; [unfold backoff; change (snd _) with r; lia|]. cbn [service_loop]. unfold bind.
  pose proof (take_pooled_now (q_dn q) r) as H1.
  destruct (take_pooled_conn (q_dn q) r) as [pooled r1]. cbn in H1.
  pose proof (one_attempt_time pooled q r1) as H2.
  destruct (one_attempt server pooled q r1) as [o r2]. cbn in H2.
  assert (Hb : 0 <= backoff left <= backoff (S left)) by (destruct left as [|[|[|]]]; unfold backoff; lia).
  destruct o as [es c|e|]; cbv zeta.
  - pose proof (store_pooled_now c (q_dn q) r2) as H3.
    destruct (store_pooled_conn c (q_dn q) r2). cbn in *. nia.
  - destruct (is_some pooled); [specialize (IH r2); nia|].
    destruct (Nat.eqb_spec (2 - left) 2); [cbn in *; nia|]. unfold modify.
    set (r3 := on_now _ r2). specialize (IH r3 ltac:(lia)).
    assert (now r3 = now r2 + Z.of_nat (2 - left + 1) * 200 * 1000000) as E by by destruct r2.
    pose proof (backoff_step left n ltac:(lia)). nia.
  - cbn in *. nia.
Qed.
(** A good answer is the answer of the last attempt. *)
Lemma one_attempt_last pooled q r es c :
  fst (one_attempt server pooled q r) = Answered es c ->
  a_search (server (attempts r) q) (is_some pooled) = Ok es
  /\ attempts (snd (one_attempt server pooled q r)) = S (attempts r).
Proof.
  unfold one_attempt, run_search, send, bind, get, modify, ret. destruct r; cbn.
  intros H. repeat case_match; cbn in *; by simplify_eq.
Qed.
Lemma take_pooled_attempts dn r : attempts (snd (take_pooled_conn dn r)) = attempts r.
Proof. unfold take_pooled_conn. by destruct (last _), r. Qed.
Lemma store_pooled_attempts c dn r : attempts (snd (store_pooled_conn c dn r)) = attempts r.
Proof. unfold store_pooled_conn, modify. cbn [snd]. by destruct (_ <=? _)%nat, r. Qed.
Lemma service_loop_answer left q r es :
  fst (service_loop server op_timeout_secs left q r) = Ok es ->
  let n := attempts (snd (service_loop server op_timeout_secs left q r)) in
  (attempts r < n)%nat /\ exists reused, a_search (server (pred n) q) reused = Ok es.
Proof.
  revert r. induction left as [|left IH]; intros r; [done|]. cbn [service_loop]. unfold bind.
  pose proof (take_pooled_attempts (q_dn q) r) as H1.
  destruct (take_pooled_conn (q_dn q) r) as [pooled r1]. cbn in H1.
  pose proof (fun es c => one_attempt_last pooled q r1 es c) as H2.
  pose proof (sf_attempts _ _ _ (one_attempt_frame server (fun n q => proj1 (Helapsed n q)) pooled q r1)) as Hm.
  destruct (one_attempt server pooled q r1) as [o r2]. cbn in H2, Hm.
  destruct o as [es' c|e|]; cbv zeta; [|destruct (is_some pooled); [|destruct (_ =? _)%nat; [done|]]|done].
  - destruct (H2 es' c eq_refl) as [Ha Hn]. pose proof (store_pooled_attempts c (q_dn q) r2) as H3.
    destruct (store_pooled_conn c (q_dn q) r2) as [u r3]. cbn in H3 |- *. intros [= ->].
    rewrite H3, Hn, H1. split; [lia|]. exists (is_some pooled). cbn. by rewrite <-H1.
  - intros H. destruct (IH r2 H) as [? ?]. split; [lia|done].
  - unfold modify. intros H. destruct (IH _ H) as [Hlt ?]. split; [|done].
    eapply Nat.le_lt_trans; [|exact Hlt]. destruct r2; cbn in *; lia.
Qed.
End Ends.

(** C36: A search ends.  Whatever the directory does, a search makes at most
    three attempts and three binds, is over after three attempt times and 0.6 s
    of back-off, and leaves every cache as it was; when it succeeds, what it
    returns is the answer of its last attempt. *)
Theorem service_search_ends server op_timeout_secs T
    (Helapsed : forall n q, 0 <= a_elapsed (server n q) <= T) q r :
  let res := service_search server op_timeout_secs q r in
  search_frame 3 r (snd res)
  /\ now (snd res) <= now r + 3 * T + 600 * 1000000
  /\ (forall es, fst res = Ok es ->
       exists reused, a_search (server (pred (attempts (snd res))) q) reused = Ok es).
Proof.
  cbv zeta. split_and!.
  - apply service_search_frame. intros n q'. apply Helapsed.
  - pose proof (service_loop_time server op_timeout_secs T Helapsed 3 q r ltac:(lia)) as H.
    unfold backoff in H. unfold service_search. lia.
  - intros es H. by apply (service_loop_answer server op_timeout_secs T Helapsed 3 q r) in H as [_ H].
Qed.
Definition demo_query : Query :=
  {| q_base := "ou=people,dc=ex"; q_filter := "(uid=ann)"; q_attrs := ["uid"]; q_dn := "cn=svc"; q_pw := "pw" |}.
Lemma service_search_ends_witness :
  let server n q := {| a_connect := if (n <? 2)%nat then Some "refused" else None; a_bind := None;
     a_search := fun _ => Ok [demo_entry]; a_stalls := false; a_elapsed := 1000 |} in
  let res := service_search server 15 demo_query (new_resolver 0) in
  fst res = Ok [demo_entry] /\ search_frame 3 (new_resolver 0) (snd res).
Proof.
  intros server res. split; [by vm_compute|].
  destruct (service_search_ends server 15 1000 ltac:(intros; cbn; lia) demo_query (new_resolver 0)) as [H _].
  exact H.
Defined.

(** ** Dead pooled connections use up the attempts *)
(** An attempt over a pooled connection that the server has closed. *)
Definition reused_fail (server : nat -> Query -> Attempt) (q : Query) : Prop :=
  forall n, a_stalls (server n q) = false /\ (exists e, a_search (server n q) true = Err e).
Definition pool_fresh_for (dn : string) (until : Z) (r : Resolver) : Prop :=
  Forall (fun p => pc_bound_as p = dn /\ until <= pc_last_used p + POOL_IDLE_MAX) (conn_pool r).

Section StalePool.
Context (server : nat -> Query -> Attempt) (op_timeout_secs : Z).
Context (T : Z) (Helapsed : forall n q, 0 <= a_elapsed (server n q) <= T).

Lemma filter_all {A} (p : A -> bool) l : Forall (fun x => p x = true) l -> List.filter p l = l.
Proof. induction 1 as [|x l Hx _ IH]; cbn; [done|]. by rewrite Hx, IH. Qed.
Lemma take_pooled_hit dn r :
  pool_fresh_for dn (now r) r -> conn_pool r <> [] ->
  exists c, take_pooled_conn dn r
    = (Some c, on_conn_pool (fun _ => take (length (conn_pool r) - 1) (conn_pool r)) r).
Proof.
  intros Hf Hn. unfold take_pooled_conn. rewrite filter_all.
  - destruct (last (conn_pool r)) as [p|] eqn:E; [by eexists|]. by apply last_None in E.
  - eapply Forall_impl; [exact Hf|]. intros p [-> Hl]. unfold seqb. cbn.
    rewrite String.eqb_refl. unfold pool_entry_stale. cbn. apply negb_true_iff. apply Z.ltb_ge. lia.
Qed.
Lemma stale_loop left q r :
  reused_fail server q -> (left <= length (conn_pool r))%nat ->
  pool_fresh_for (q_dn q) (now r + Z.of_nat left * T) r ->
  let res := service_loop server op_timeout_secs left q r in
  fst res = Err "exhausted retries" /\ bind_count (snd res) = bind_count r
  /\ attempts (snd res) = (attempts r + left)%nat.
Proof.
  intros Hs. assert (HT : 0 <= T) by (pose proof (Helapsed 0%nat q); lia).
  revert r. induction left as [|left IH]; intros r Hl Hf; [cbn; split_and!; done || lia|].
  cbn [service_loop]. unfold bind.
  destruct (take_pooled_hit (q_dn q) r) as [c ->].
  { eapply Forall_impl; [exact Hf|]. cbn. intros p [? ?]. split; [done|nia]. }
  { intros E. rewrite E in Hl. cbn in Hl. lia. }
  set (r1 := on_conn_pool _ r). cbn [is_some].
  destruct (Hs (attempts r)) as [Hst [e He]]. pose proof (Helapsed (attempts r) q) as Hel.
  assert (E : exists r2, one_attempt server (Some c) q r1 = (Failed e, r2)
    /\ conn_pool r2 = conn_pool r1 /\ now r2 <= now r + T /\ bind_count r2 = bind_count r
    /\ attempts r2 = S (attempts r)).
  { unfold one_attempt, run_search, send, bind, get, modify, ret, r1. destruct r; cbn in *.
    rewrite Hst, He. eexists. split_and!; [done|done|cbn; lia|done|done]. }
  destruct E as (r2 & -> & Hp & Hnow & Hb & Ha). cbv zeta.
  destruct (IH r2) as (H1 & H2 & H3).
  - rewrite Hp. unfold r1. destruct r; cbn in *. rewrite length_take. lia.
  - unfold pool_fresh_for. rewrite Hp. unfold r1. apply Forall_forall. intros p Hin.
    assert (p ∈ conn_pool r) as Hin'.
    { destruct r; cbn in *. rewrite <-(take_drop (length conn_pool0 - 1) conn_pool0).
      apply elem_of_app. by left. }
    unfold pool_fresh_for in Hf. rewrite Forall_forall in Hf. destruct (Hf p Hin') as [-> ?].
    split; [done|]. nia.
  - rewrite H1, H2, H3, Hb, Ha. split_and!; [done|done|lia].
Qed.
End StalePool.

(** Three dead connections in the pool (the server was restarted while they
    idled) use up the three attempts of a search: it fails with "exhausted
    retries" without a single new bind, however ready the server is to accept
    one. *)
Theorem stale_pool_exhausts_retries server op_timeout_secs T q r
    (Helapsed : forall n q, 0 <= a_elapsed (server n q) <= T)
    (Hdead : reused_fail server q)
    (Hpool : (3 <= length (conn_pool r))%nat)
    (Hfresh : pool_fresh_for (q_dn q) (now r + 3 * T) r) :
  let res := service_search server op_timeout_secs q r in
  fst res = Err "exhausted retries" /\ bind_count (snd res) = bind_count r.
Proof.
  destruct (stale_loop server op_timeout_secs T Helapsed 3 q r Hdead Hpool Hfresh) as (? & ? & _).
  by split.
Qed.
(** The server accepts every new connection and answers over it. *)
Lemma stale_pool_exhausts_retries_witness :
  let server n q := {| a_connect := None; a_bind := None;
     a_search := fun reused => if reused : bool then Err "search: broken pipe" else Ok [demo_entry];
     a_stalls := false; a_elapsed := 1000 |} in
  let c n := {| pc_ldap := {| c_id := n; c_auth := "cn=svc" |}; pc_bound_as := "cn=svc"; pc_last_used := 0 |} in
  let r := on_conn_pool (fun _ => [c 0%nat; c 1%nat; c 2%nat]) (new_resolver 0) in
  fst (service_search server 15 demo_query (new_resolver 0)) = Ok [demo_entry]
  /\ fst (service_search server 15 demo_query r) = Err "exhausted retries".
Proof.
  intros server c r. split; [by vm_compute|].
  apply (stale_pool_exhausts_retries server 15 1000 demo_query r).
  - intros n q. cbn. lia.
  - intros n. split; [done|]. by eexists.
  - cbn. lia.
  - repeat constructor; cbn; unfold POOL_IDLE_MAX, SECS; lia.
Defined.

(** ** How old a cached answer can be *)
(** Entries are stamped in the past, and the ones the last sweep has seen were
    young then. *)
Definition swept_map {K A} `{Countable K} (r : Resolver) (at_ : A -> Z) (m : gmap K A) : Prop :=
  map_Forall (fun _ v => at_ v <= now r
    /\ (forall l, last_evict r = Some l -> l - at_ v < IDENTITY_CACHE_TTL)) m.
Definition fresh_inv (r : Resolver) : Prop :=
  (forall l, last_evict r = Some l -> l <= now r)
  /\ swept_map r cu_fetched_at (user_cache r) /\ swept_map r cg_fetched_at (group_cache r)
  /\ swept_map r cu_fetched_at (user_by_uid_cache r) /\ swept_map r cg_fetched_at (group_by_gid_cache r).
(** The same, for a state that differs in the rest only and is not earlier. *)
Lemma fresh_inv_ext r r' :
  user_cache r' = user_cache r -> group_cache r' = group_cache r ->
  user_by_uid_cache r' = user_by_uid_cache r -> group_by_gid_cache r' = group_by_gid_cache r ->
  last_evict r' = last_evict r -> now r <= now r' -> fresh_inv r -> fresh_inv r'.
Proof.
  intros E1 E2 E3 E4 E5 Hn (H0 & H1 & H2 & H3 & H4). unfold fresh_inv, swept_map.
  rewrite E1, E2, E3, E4, E5. split_and!; [intros l Hl; specialize (H0 l Hl); lia|..];
    (eapply map_Forall_impl; [eassumption|]); cbn; intros k v [? ?]; (split; [lia|done]).
Qed.
Lemma swept_insert {K A} `{Countable K} r (at_ : A -> Z) (m : gmap K A) k v :
  (forall l, last_evict r = Some l -> l <= now r) -> at_ v = now r ->
  swept_map r at_ m -> swept_map r at_ (<[k := v]> m).
Proof.
  intros H0 Hv Hm. apply map_Forall_insert_2; [|done]. cbn. rewrite Hv. split; [lia|].
  intros l Hl. specialize (H0 l Hl). unfold IDENTITY_CACHE_TTL, SECS. lia.
Qed.
Lemma swept_young {K A} `{Countable K} r r' (at_ : A -> Z) (m : gmap K A) :
  now r' = now r -> last_evict r' = Some (now r) -> swept_map r at_ m ->
  swept_map r' at_ (young (now r) IDENTITY_CACHE_TTL at_ m).
Proof.
  intros En El Hm k v [Hk Hy]%map_lookup_filter_Some. cbn in Hy. apply Z.ltb_lt in Hy.
  rewrite En, El. split; [by apply (Hm k)|]. by intros l [= <-].
Qed.
Lemma sweep_fields t r :
  let r' := sweep t r in
  user_cache r' = young t IDENTITY_CACHE_TTL cu_fetched_at (user_cache r)
  /\ group_cache r' = young t IDENTITY_CACHE_TTL cg_fetched_at (group_cache r)
  /\ user_by_uid_cache r' = young t IDENTITY_CACHE_TTL cu_fetched_at (user_by_uid_cache r)
  /\ group_by_gid_cache r' = young t IDENTITY_CACHE_TTL cg_fetched_at (group_by_gid_cache r)
  /\ negative_cache r' = young t NEGATIVE_TTL (fun x => x) (negative_cache r)
  /\ now r' = now r /\ last_evict r' = last_evict r /\ sent r' = sent r /\ attempts r' = attempts r.
Proof. by destruct r. Qed.
Lemma fresh_sweep r :
  fresh_inv r -> fresh_inv (sweep (now r) (on_last_evict (fun _ => Some (now r)) r)).
Proof.
  intros (H0 & H1 & H2 & H3 & H4). set (r1 := on_last_evict _ r).
  destruct (sweep_fields (now r) r1) as (E1 & E2 & E3 & E4 & _ & En & El & _).
  assert (Hl : last_evict (sweep (now r) r1) = Some (now r)) by (rewrite El; by destruct r).
  assert (Hn : now (sweep (now r) r1) = now r) by (rewrite En; by destruct r).
  unfold fresh_inv. rewrite E1, E2, E3, E4, Hl, Hn.
  split_and!; [by intros l [= <-]|..]; apply (swept_young r); by destruct r.
Qed.

Section FreshInv.
Context `{!HashIter string} (server : nat -> Query -> Attempt) (op_timeout_secs : Z).
Context (Helapsed : forall n q, 0 <= a_elapsed (server n q)).

Lemma evict_cases r :
  let r' := snd (evict_expired r) in
  (r' = r /\ exists l, last_evict r = Some l /\ now r - l < 5 * SECS)
  \/ r' = sweep (now r) (on_last_evict (fun _ => Some (now r)) r).
Proof.
  unfold evict_expired, modify. cbn [snd]. cbv zeta. destruct (last_evict r) as [l|]; [|by right].
  destruct (Z.ltb_spec (now r - l) (5 * SECS)); [left|by right]. split; [done|]. by exists l.
Qed.
#[local] Instance fresh_stable : Stable server op_timeout_secs fresh_inv.
Proof.
  split.
  - intros t. unfold fresh_inv, swept_map. cbn. split_and!; done || apply map_Forall_empty.
  - intros q r Hr. destruct (service_search_frame server op_timeout_secs Helapsed q r).
    eapply fresh_inv_ext; [..|exact Hr]; done.
  - intros r Hr. destruct (evict_cases r) as [[-> _]| ->]; [done|]. by apply fresh_sweep.
  - apply keeps_modify. intros r Hr. eapply fresh_inv_ext; [..|exact Hr]; destruct r; try done; cbn; lia.
  - apply keeps_modify. intros r Hr. eapply fresh_inv_ext; [..|exact Hr]; destruct r; try done; cbn; lia.
  - intros k. apply keeps_modify. intros r Hr. eapply fresh_inv_ext; [..|exact Hr]; destruct r; try done; cbn; lia.
  - apply keeps_modify. intros r (H0 & _). destruct r. unfold fresh_inv, swept_map. cbn in *.
    split_and!; done || apply map_Forall_empty.
  - intros k u t cu Ht r (H0 & H1 & H2 & H3 & H4) Hr. subst t. destruct r.
    split_and!; try done; cbn; by apply (swept_insert (MkResolver _ _ _ _ _ _ _ _ _ _ _ _ _ _ _)).
  - intros k t cu Ht r (H0 & H1 & H2 & H3 & H4) Hr. subst t. destruct r.
    split_and!; try done; cbn; by apply (swept_insert (MkResolver _ _ _ _ _ _ _ _ _ _ _ _ _ _ _)).
  - intros k g t cg Ht r (H0 & H1 & H2 & H3 & H4) Hr. subst t. destruct r.
    split_and!; try done; cbn; by apply (swept_insert (MkResolver _ _ _ _ _ _ _ _ _ _ _ _ _ _ _)).
  - intros k g r Hr. eapply fresh_inv_ext; [..|exact Hr]; destruct r; try done; cbn; lia.
  - intros k dn ms r Hr. eapply fresh_inv_ext; [..|exact Hr]; destruct r; try done; cbn; lia.
  - intros d Hd. apply keeps_modify. intros r Hr. eapply fresh_inv_ext; [..|exact Hr]; destruct r; try done; cbn; lia.
Qed.
Lemma reachable_fresh t0 r : reachable server op_timeout_secs t0 r -> fresh_inv r.
Proof. apply (reachable_inv server op_timeout_secs fresh_inv _). Qed.

(** No entry of a map is older than [ANSWER_MAX_AGE]. *)
Definition ANSWER_MAX_AGE : Z := IDENTITY_CACHE_TTL + 5 * SECS.
Definition all_recent {K A} `{Countable K} (t : Z) (at_ : A -> Z) (m : gmap K A) : Prop :=
  map_Forall (fun _ v => 0 <= t - at_ v < ANSWER_MAX_AGE) m.
Lemma evict_recent r : fresh_inv r ->
  let r' := snd (evict_expired r) in
  now r' = now r
  /\ all_recent (now r) cu_fetched_at (user_cache r') /\ all_recent (now r) cg_fetched_at (group_cache r')
  /\ all_recent (now r) cu_fetched_at (user_by_uid_cache r')
  /\ all_recent (now r) cg_fetched_at (group_by_gid_cache r').
Proof.
  intros Hr. cbv zeta. unfold all_recent, ANSWER_MAX_AGE.
  destruct (evict_cases r) as [[E (l & Hl & H5)]|E].
  - rewrite E. destruct Hr as (_ & H1 & H2 & H3 & H4).
    split_and!; [done|..]; (eapply map_Forall_impl; [eassumption|]); cbn; intros k v [? Hv];
      specialize (Hv l Hl); unfold SECS in *; lia.
  - pose proof (fresh_sweep r Hr) as Hs. rewrite <-E in Hs.
    destruct (sweep_fields (now r) (on_last_evict (fun _ => Some (now r)) r)) as (_ & _ & _ & _ & _ & En & El & _).
    rewrite <-E in En, El. assert (now (snd (evict_expired r)) = now r) as Hn by (rewrite En; by destruct r).
    assert (last_evict (snd (evict_expired r)) = Some (now r)) as Hl by (rewrite El; by destruct r).
    clear E En El. generalize dependent (snd (evict_expired r)). intros r' (_ & H1 & H2 & H3 & H4) Hn Hl.
    split_and!; [done|..]; (eapply map_Forall_impl; [eassumption|]); cbn; intros k v [? Hv];
      specialize (Hv _ Hl); unfold SECS in *; lia.
Qed.
End FreshInv.

(** An answer that is not in the cache has been asked for. *)
Section Asked.
Context (server : nat -> Query -> Attempt) (op_timeout_secs : Z).
Context (Helapsed : forall n q, 0 <= a_elapsed (server n q)).
Context (ub : string) (pa : PosixAttributeMapping) (dn pw : string).

Lemma take_user_frame key name es r :
  let r' := snd (take_user pa key name es r) in sent r' = sent r /\ now r' = now r.
Proof.
  unfold take_user. destruct (first_user pa es) as [[se u]|]; [|done].
  unfold bind, get, cache_user, modify. cbn. by destruct r.
Qed.
Lemma search_sent b f attrs r :
  let res := search server op_timeout_secs dn pw b f attrs r in
  (length (sent r) <= length (sent (snd res)))%nat
  /\ (forall es, fst res = Ok es -> (length (sent r) < length (sent (snd res)))%nat).
Proof.
  cbv zeta. split.
  - destruct (sf_sent _ _ _ (service_search_frame server op_timeout_secs Helapsed
      {| q_base := b; q_filter := f; q_attrs := attrs; q_dn := dn; q_pw := pw |} r)) as (l & E & _).
    unfold search. rewrite E, length_app. lia.
  - intros es. by apply service_loop_ok.
Qed.
Lemma bases_loop_sent n f attrs bases r :
  let res := user_bases_loop server op_timeout_secs pa dn pw n f attrs bases r in
  (length (sent r) <= length (sent (snd res)))%nat
  /\ (is_Some (fst (fst res)) -> (length (sent r) < length (sent (snd res)))%nat).
Proof.
  revert r. induction bases as [|b l IH]; intros r; cbn [user_bases_loop].
  { cbn. split; [done|by intros []]. }
  unfold bind. pose proof (search_sent b f attrs r) as [H1 H2].
  destruct (search _ _ _ _ b f attrs r) as [res r1]. cbn in H1, H2.
  destruct res as [es|e]; cbn; [|split; [done|by intros []]].
  specialize (H2 es eq_refl). pose proof (take_user_frame n n es r1) as [Hs _].
  destruct (take_user pa n n es r1) as [o r2]. cbn in Hs. destruct o as [u|]; cbn.
  - rewrite Hs. split; [lia|intros _; lia].
  - destruct (IH r2) as [H3 H4]. rewrite Hs in H3, H4. split; [lia|]. intros H. specialize (H4 H). lia.
Qed.
Definition upn_step (key n f : string) (attrs : list string) (base : string) : R (option (Z * option Z * string)) :=
  let* res := search server op_timeout_secs dn pw base f attrs in
  match res with Ok es => take_user pa key n es | Err _ => ret None end.
Lemma upn_step_sent key n f attrs b r :
  let res := upn_step key n f attrs b r in
  (length (sent r) <= length (sent (snd res)))%nat
  /\ (is_Some (fst res) -> (length (sent r) < length (sent (snd res)))%nat).
Proof.
  unfold upn_step, bind. pose proof (search_sent b f attrs r) as [H1 H2].
  destruct (search _ _ _ _ b f attrs r) as [res r1]. cbn in H1, H2.
  destruct res as [es|e]; cbn; [|split; [done|by intros []]].
  specialize (H2 es eq_refl). pose proof (take_user_frame key n es r1) as [Hs _]. cbn in Hs.
  rewrite Hs. split; [lia|done].
Qed.
Lemma upn_loop_sent key n f attrs bases r :
  let res := first_of bases (upn_step key n f attrs) r in
  (length (sent r) <= length (sent (snd res)))%nat
  /\ (is_Some (fst res) -> (length (sent r) < length (sent (snd res)))%nat).
Proof.
  revert r. induction bases as [|b l IH]; intros r; cbn [first_of].
  { cbn. split; [done|by intros []]. }
  unfold bind. pose proof (upn_step_sent key n f attrs b r) as [H1 H2].
  destruct (upn_step key n f attrs b r) as [o r1]. cbn in H1, H2.
  destruct o as [u|]; [by split|].
  destruct (IH r1) as [H3 H4]. split; [lia|]. intros H. specialize (H4 H). lia.
Qed.
(** The branches of [resolve_user] from the state the sweep leaves. *)
Definition cached_uid (r : Resolver) (name : string) : option (CachedUser * Z) :=
  user_cache r !! name ≫= (fun h => (fun u => (h, u)) <$> cu_uid_number h).
Lemma resolve_user_hit name r h u :
  let r0 := snd (evict_expired r) in
  cached_uid r0 name = Some (h, u) ->
  resolve_user server op_timeout_secs ub pa dn pw name r
  = (Some (u, cu_primary_gid h, cu_display_name h), on_cache_hits (fun n => n + 1) r0).
Proof. intros r0 H. unfold resolve_user, bind, get, hit, modify, ret. cbn. fold r0. unfold r0 in *. cbn in *.
  unfold cached_uid in H. cbn in H. by rewrite H.
Qed.
Lemma resolve_user_miss name r res r' :
  cached_uid (snd (evict_expired r)) name = None ->
  resolve_user server op_timeout_secs ub pa dn pw name r = (res, r') ->
  (length (sent r) <= length (sent r'))%nat
  /\ (is_Some res -> (length (sent r) < length (sent r'))%nat).
Proof.
  intros H E. assert (Hs : sent (snd (evict_expired r)) = sent r).
  { destruct (evict_cases r) as [[-> _]| ->]; [done|by destruct r]. }
  revert E. unfold resolve_user. rewrite bind_run.
  generalize dependent (evict_expired r). intros [[] r0] H Hs. cbn [fst snd] in *.
  rewrite bind_run. cbn [get fst snd]. unfold cached_uid in H. rewrite H. rewrite <-Hs. clear Hs H r.
  rewrite bind_run. cbn [miss modify fst snd]. set (r1 := on_cache_misses _ r0).
  assert (sent r1 = sent r0) as <- by by destruct r0. clearbody r1. clear r0.
  rewrite bind_run. cbn [negative_hit get fst snd].
  destruct (match negative_cache r1 !! _ with Some _ => _ | None => _ end).
  { intros [= <- <-]. split; [done|by intros []]. }
  rewrite bind_run. pose proof (bases_loop_sent name
    (eq_filter (user_object_class pa) (user_name pa) (escape_ldap_filter name))
    (user_attrs pa ++ [user_principal_name pa]) (bases_from ub) r1) as [H1 H2].
  destruct (user_bases_loop _ _ _ _ _ _ _ _ _ r1) as [[o unreachable] r2]. cbn [fst snd] in *.
  destruct o as [u|]; [intros [= <- <-]; split; [done|intros _; by apply H2]|].
  rewrite bind_run. destruct (contains_char _ name && negb unreachable).
  - pose proof (upn_loop_sent (principal_local_part name) name
      (eq_filter (user_object_class pa) (user_principal_name pa) (escape_ldap_filter name))
      (user_attrs pa ++ [user_principal_name pa]) (bases_from ub) r2) as [H3 H4].
    unfold upn_step in H3, H4. destruct (first_of _ _ r2) as [[u|] r3]; cbn [fst snd] in *.
    + intros [= <- <-]. split; [lia|]. intros _. specialize (H4 ltac:(done)). lia.
    + intros [= <- <-]. split; [|by intros []]. destruct r3; cbn in *. lia.
  - intros [= <- <-]. split; [|by intros []]. destruct r2; cbn in *. lia.
Qed.
End Asked.

Lemma hit_users r : user_cache (on_cache_hits (fun n => n + 1) r) = user_cache r.
Proof. by destruct r. Qed.

(** C38: How stale an answer can be.  In every reachable state, an answer that
    [resolve_user] gives without asking the directory, and every user of a
    snapshot, was stamped less than the cache lifetime and one sweep interval
    (605 s) ago. *)
Theorem cached_answers_are_recent `{!HashIter string} server op_timeout_secs
    (Helapsed : forall n q, 0 <= a_elapsed (server n q)) t0 r :
  reachable server op_timeout_secs t0 r ->
  (forall ub pa dn pw name u g d r',
     resolve_user server op_timeout_secs ub pa dn pw name r = (Some (u, g, d), r') -> sent r' = sent r ->
     exists cu, user_cache r' !! name = Some cu /\ cu_uid_number cu = Some u /\ cu_primary_gid cu = g
       /\ cu_display_name cu = d /\ 0 <= now r - cu_fetched_at cu < ANSWER_MAX_AGE)
  /\ (let '(snap, r') := snapshot r in
      forall name e, users snap !! name = Some e ->
      exists cu, user_cache r' !! name = Some cu /\ snap_user cu = Some e
        /\ 0 <= now r - cu_fetched_at cu < ANSWER_MAX_AGE).
Proof.
  intros Hr. pose proof (evict_recent r (reachable_fresh server op_timeout_secs Helapsed t0 r Hr)) as (_ & Hu & _).
  split.
  - intros ub pa dn pw name u g d r' E Hs.
    destruct (cached_uid (snd (evict_expired r)) name) as [[h u0]|] eqn:Ec.
    + pose proof (resolve_user_hit server op_timeout_secs ub pa dn pw name r h u0 Ec) as E'.
      rewrite E in E'. injection E' as -> -> -> ->. unfold cached_uid in Ec.
      destruct (user_cache (snd (evict_expired r)) !! name) as [cu|] eqn:El; [|done]. cbn in Ec.
      destruct (cu_uid_number cu) eqn:En; [|done]. injection Ec as -> ->.
      exists h. split; [by rewrite <-El, <-(hit_users (snd (evict_expired r)))|].
      split_and!; [done..|apply (Hu name h El)|apply (Hu name h El)].
    + destruct (resolve_user_miss server op_timeout_secs Helapsed ub pa dn pw name r _ r' Ec E) as [_ H].
      specialize (H ltac:(done)). rewrite Hs in H. lia.
  - unfold snapshot, bind, get. destruct (evict_expired r) as [[] r0]. cbn in *.
    intros name e H. rewrite lookup_omap in H. destruct (user_cache r0 !! name) as [cu|] eqn:El; [|done].
    exists cu. split_and!; [done|done|apply (Hu name cu El)..].
Qed.
Lemma cached_answers_are_recent_witness :
  let r := snd (demo_resolve "ann" (new_resolver 0)) in
  fst (demo_resolve "ann" r) = Some (1001, Some 2001, "ann")
  /\ exists cu, user_cache (snd (demo_resolve "ann" r)) !! "ann" = Some cu
       /\ 0 <= now r - cu_fetched_at cu < ANSWER_MAX_AGE.
Proof.
  split; [by vm_compute|].
  destruct (cached_answers_are_recent (answering [demo_entry]) 15 ltac:(intros; cbn; lia) 0
    (snd (demo_resolve "ann" (new_resolver 0)))) as [H _].
  { apply rtc_once. apply rstep_op. apply op_user. }
  destruct (H "ou=people,dc=ex" demo_mapping "cn=svc" "pw" "ann" 1001 (Some 2001) "ann"
    (snd (demo_resolve "ann" (snd (demo_resolve "ann" (new_resolver 0)))))) as (cu & ? & _ & _ & _ & ?).
  - by vm_compute.
  - by vm_compute.
  - by exists cu.
Defined.

(** ** Unknown names are not asked for again *)
Section Negative.
Context (server : nat -> Query -> Attempt) (op_timeout_secs : Z).
Context (Helapsed : forall n q, 0 <= a_elapsed (server n q)).
Context (ub : string) (pa : PosixAttributeMapping) (dn pw : string).

Lemma search_users b f attrs r :
  user_cache (snd (search server op_timeout_secs dn pw b f attrs r)) = user_cache r.
Proof. apply (sf_users 3), service_search_frame, Helapsed. Qed.
Lemma take_user_none key name es r r' : take_user pa key name es r = (None, r') -> r' = r.
Proof. unfold take_user. destruct (first_user pa es) as [[se u]|]; [done|]. by intros [= <-]. Qed.
Lemma bases_loop_none n f attrs bases r b r' :
  user_bases_loop server op_timeout_secs pa dn pw n f attrs bases r = ((None, b), r') ->
  user_cache r' = user_cache r.
Proof.
  revert r. induction bases as [|base l IH]; intros r; cbn [user_bases_loop]; [by intros [= _ <-]|].
  rewrite bind_run. pose proof (search_users base f attrs r) as Hu.
  destruct (search _ _ _ _ base f attrs r) as [[es|e] r1]; cbn [fst snd] in *; [|by intros [= _ <-]].
  rewrite bind_run. destruct (take_user pa n n es r1) as [[u|] r2] eqn:E; cbn [fst snd]; [done|].
  apply take_user_none in E as ->. intros H. by rewrite (IH _ H).
Qed.
Lemma upn_step_none key n f attrs b r r' :
  upn_step server op_timeout_secs pa dn pw key n f attrs b r = (None, r') -> user_cache r' = user_cache r.
Proof.
  unfold upn_step. rewrite bind_run. pose proof (search_users b f attrs r) as Hu.
  destruct (search _ _ _ _ b f attrs r) as [[es|e] r1]; cbn [fst snd] in *; [|by intros [= <-]].
  by intros ->%take_user_none.
Qed.
Lemma upn_loop_none key n f attrs bases r r' :
  first_of bases (upn_step server op_timeout_secs pa dn pw key n f attrs) r = (None, r') ->
  user_cache r' = user_cache r.
Proof.
  revert r. induction bases as [|base l IH]; intros r; cbn [first_of]; [by intros [= <-]|].
  rewrite bind_run. destruct (upn_step _ _ _ _ _ _ _ _ _ base r) as [[u|] r1] eqn:E; cbn [fst snd]; [done|].
  apply upn_step_none in E. intros H. by rewrite (IH _ H).
Qed.
(** What is left behind when the directory was asked in vain. *)
Lemma resolve_user_asked name r r1 :
  resolve_user server op_timeout_secs ub pa dn pw name r = (None, r1) ->
  (attempts r < attempts r1)%nat ->
  cached_uid r1 name = None /\ negative_cache r1 !! ("u:" +:+ name) = Some (now r1).
Proof.
  assert (Ha : attempts (snd (evict_expired r)) = attempts r).
  { destruct (evict_cases r) as [[-> _]| ->]; [done|by destruct r]. }
  unfold resolve_user. rewrite bind_run.
  generalize dependent (evict_expired r). intros [[] r0] Ha. cbn [fst snd] in *.
  rewrite bind_run. cbn [get fst snd]. fold (cached_uid r0 name).
  destruct (cached_uid r0 name) as [[h u]|] eqn:Ec; [done|].
  rewrite bind_run. cbn [miss modify fst snd].
  assert (Ec1 : cached_uid (on_cache_misses (fun n => n + 1) r0) name = None) by (rewrite <-Ec; by destruct r0).
  assert (Ha1 : attempts (on_cache_misses (fun n => n + 1) r0) = attempts r) by (rewrite <-Ha; by destruct r0).
  generalize dependent (on_cache_misses (fun n => n + 1) r0). intros r2 Hc Ha2.
  rewrite bind_run. cbn [negative_hit get fst snd].
  destruct (match negative_cache r2 !! _ with Some _ => _ | None => _ end).
  { intros [= <-]. lia. }
  rewrite bind_run.
  destruct (user_bases_loop _ _ _ _ _ _ _ _ _ r2) as [[o unreachable] r3] eqn:E3. cbn [fst snd].
  destruct o as [u|]; [done|]. apply bases_loop_none in E3.
  assert (Hend : forall r4 r5, user_cache r4 = user_cache r3 ->
    (do* mark_negative ("u:" +:+ name) in ret (@None (Z * option Z * string))) r4 = (None, r5) ->
    cached_uid r5 name = None /\ negative_cache r5 !! ("u:" +:+ name) = Some (now r5)).
  { intros r4 r5 Hu [= <-]. unfold cached_uid in *. rewrite E3 in Hu. rewrite <-Hu in Hc.
    destruct r4; cbn in *. split; [done|by rewrite lookup_insert_eq]. }
  rewrite bind_run. destruct (contains_char _ name && negb unreachable).
  - fold (upn_step server op_timeout_secs pa dn pw (principal_local_part name) name
      (eq_filter (user_object_class pa) (user_principal_name pa) (escape_ldap_filter name))
      (user_attrs pa ++ [user_principal_name pa])).
    destruct (first_of _ _ r3) as [[u|] r4] eqn:E4; cbn [fst snd]; [done|].
    intros H _. apply (Hend r4); [|done]. eapply upn_loop_none. exact E4.
  - intros H _. by apply (Hend r3).
Qed.
Lemma evict_none r name :
  cached_uid r name = None -> cached_uid (snd (evict_expired r)) name = None.
Proof.
  destruct (evict_cases r) as [[-> _]| ->]; [done|]. unfold cached_uid.
  destruct (sweep_fields (now r) (on_last_evict (fun _ => Some (now r)) r)) as (-> & _).
  assert (user_cache (on_last_evict (fun _ => Some (now r)) r) = user_cache r) as -> by by destruct r.
  unfold young. rewrite map_lookup_filter. destruct (user_cache r !! name) as [h|]; [|done]. cbn.
  intros H. by case_guard.
Qed.
Lemma evict_negative r k t :
  negative_cache r !! k = Some t -> now r - t < NEGATIVE_TTL ->
  negative_cache (snd (evict_expired r)) !! k = Some t /\ now (snd (evict_expired r)) = now r.
Proof.
  intros H Ht. destruct (evict_cases r) as [[-> _]| ->]; [done|].
  destruct (sweep_fields (now r) (on_last_evict (fun _ => Some (now r)) r)) as (_ & _ & _ & _ & -> & -> & _).
  assert (negative_cache (on_last_evict (fun _ => Some (now r)) r) = negative_cache r) as -> by by destruct r.
  split; [|by destruct r]. apply map_lookup_filter_Some. split; [done|]. cbn. by apply Z.ltb_lt.
Qed.
Lemma resolve_user_negative name r t :
  cached_uid r name = None -> negative_cache r !! ("u:" +:+ name) = Some t -> now r - t < NEGATIVE_TTL ->
  let res := resolve_user server op_timeout_secs ub pa dn pw name r in
  fst res = None /\ attempts (snd res) = attempts r /\ sent (snd res) = sent r.
Proof.
  intros Hc Hn Ht. apply evict_none in Hc. destruct (evict_negative r _ t Hn Ht) as [Hn' Ht'].
  assert (Ha : attempts (snd (evict_expired r)) = attempts r /\ sent (snd (evict_expired r)) = sent r).
  { destruct (evict_cases r) as [[-> _]| ->]; [done|by destruct r]. }
  cbv zeta. unfold resolve_user. rewrite bind_run.
  generalize dependent (evict_expired r). intros [[] r0] Hc Hn' Ht' [Ha Hs]. cbn [fst snd] in *.
  rewrite bind_run. cbn [get fst snd]. fold (cached_uid r0 name). rewrite Hc.
  rewrite bind_run. cbn [miss modify fst snd]. rewrite bind_run. cbn [negative_hit get fst snd].
  destruct r0; cbn in *. subst. rewrite Hn'. apply Z.ltb_lt in Ht. by rewrite Ht.
Qed.
End Negative.

(** A name the directory does not know is asked for once a minute.  When a
    [resolve_user] that asked the directory has come back empty, every repeat
    within the next 60 s answers "unknown" without any attempt to reach it. *)
Theorem unknown_user_not_retried server op_timeout_secs
    (Helapsed : forall n q, 0 <= a_elapsed (server n q)) ub pa dn pw name r r1 d :
  resolve_user server op_timeout_secs ub pa dn pw name r = (None, r1) ->
  (attempts r < attempts r1)%nat -> 0 <= d < 60 * SECS ->
  let r2 := on_now (fun t => t + d) r1 in
  let res := resolve_user server op_timeout_secs ub pa dn pw name r2 in
  fst res = None /\ attempts (snd res) = attempts r1 /\ sent (snd res) = sent r1.
Proof.
  intros H Ha Hd r2. destruct (resolve_user_asked server op_timeout_secs Helapsed ub pa dn pw name r r1 H Ha) as [Hc Hn].
  assert (E : attempts r2 = attempts r1 /\ sent r2 = sent r1 /\ now r2 = now r1 + d
    /\ cached_uid r2 name = cached_uid r1 name /\ negative_cache r2 = negative_cache r1) by by destruct r1.
  destruct E as (<- & <- & Et & Ec & En).
  apply (resolve_user_negative server op_timeout_secs ub pa dn pw name r2 (now r1)).
  - by rewrite Ec.
  - by rewrite En.
  - unfold NEGATIVE_TTL. lia.
Qed.
Lemma unknown_user_not_retried_witness :
  let resolve := resolve_user (answering []) 15 "ou=people,dc=ex" demo_mapping "cn=svc" "pw" in
  let r1 := snd (resolve "bob" (new_resolver 0)) in
  attempts r1 = 2%nat
  /\ fst (resolve "bob" (on_now (fun t => t + 59 * SECS) r1)) = None
  /\ attempts (snd (resolve "bob" (on_now (fun t => t + 59 * SECS) r1))) = attempts r1.
Proof.
  intros resolve r1. split; [by vm_compute|].
  destruct (unknown_user_not_retried (answering []) 15 ltac:(intros; cbn; lia) "ou=people,dc=ex" demo_mapping
    "cn=svc" "pw" "bob" (new_resolver 0) r1 (59 * SECS)) as (H1 & H2 & _).
  - by vm_compute.
  - vm_compute. lia.
  - unfold SECS. lia.
  - split; [exact H1|exact H2].
Defined.

(** ** The bulk load is the directory *)
(** A directory that answers: what it says depends on the question only. *)
Definition answers (server : nat -> Query -> Attempt) (dir : Query -> list Entry) : Prop :=
  forall n q, a_connect (server n q) = None /\ a_bind (server n q) = None
    /\ (forall reused, a_search (server n q) reused = Ok (dir q))
    /\ a_stalls (server n q) = false /\ 0 <= a_elapsed (server n q).

Section BulkLoad.
Context (pa : PosixAttributeMapping).
(** The rows an entry stands for: its own name, and its principal as an alias. *)
Definition user_row (se : Entry) : option (string * PosixUserEntry) :=
  let id := default "" (extract_first_attr se (user_name pa)) in
  if is_empty id then None
  else (fun u => (id, {| u_uid := u; u_gid := default u (entry_gid pa se);
                         u_display := extract_display_name se (user_full_name pa) id |}))
         <$> entry_number se (user_uid_number pa).
Definition user_rows (se : Entry) : list (string * PosixUserEntry) :=
  match user_row se with
  | Some (id, e) =>
      (id, e) :: match extract_first_attr se (user_principal_name pa) with
                 | Some p => if is_empty p || seqb p id then [] else [(p, e)]
                 | None => []
                 end
  | None => []
  end.
Definition group_row (se : Entry) : option (string * PosixGroupEntry) :=
  let id := default "" (extract_first_attr se (group_name pa)) in
  if is_empty id then None
  else (fun g => (id, {| g_gid := g; g_display := extract_display_name se (group_name pa) id;
                         g_members := extract_group_members se (group_member pa) |}))
         <$> entry_number se (group_gid_number pa).
(** A later row replaces an earlier one of the same name. *)
Definition put_rows {A} (m : gmap string A) (rows : list (string * A)) : gmap string A :=
  foldl (fun m kv => <[ fst kv := snd kv ]> m) m rows.

Lemma load_user_run n se r :
  let res := load_user pa n se r in
  fst res = (n + length (option_list (user_row se)))%nat
  /\ omap snap_user (user_cache (snd res)) = put_rows (omap snap_user (user_cache r)) (user_rows se)
  /\ group_cache (snd res) = group_cache r.
Proof.
  cbv zeta. unfold load_user, user_rows, user_row. cbv zeta.
  destruct (is_empty _) eqn:Eid; [cbn; by rewrite Nat.add_0_r|].
  destruct (entry_number _ _) as [u|]; [|cbn; by rewrite Nat.add_0_r]. cbn [fmap option_fmap option_map].
  set (id := default "" _) in *. rewrite bind_run. cbn [get fst snd]. rewrite bind_run.
  unfold cache_user. rewrite bind_run. cbn [modify fst snd].
  destruct (extract_first_attr se (user_principal_name pa)) as [p|].
  - rewrite <-negb_orb. destruct (is_empty p || seqb p id); cbn [negb].
    + destruct r. cbn. split_and!; [lia| |done]. erewrite omap_insert_Some by reflexivity. done.
    + destruct r. cbn. split_and!; [lia| |done].
      do 2 erewrite omap_insert_Some by reflexivity. done.
  - destruct r. cbn. split_and!; [lia| |done]. erewrite omap_insert_Some by reflexivity. done.
Qed.
Lemma load_users_run es n r :
  let res := fold_m es n (load_user pa) r in
  fst res = (n + length (omap user_row es))%nat
  /\ omap snap_user (user_cache (snd res)) = put_rows (omap snap_user (user_cache r)) (concat (map user_rows es))
  /\ group_cache (snd res) = group_cache r.
Proof.
  revert n r. induction es as [|se es IH]; intros n r; cbn [fold_m]; [cbn; by rewrite Nat.add_0_r|].
  rewrite bind_run. destruct (load_user_run n se r) as (H1 & H2 & H3).
  destruct (IH (fst (load_user pa n se r)) (snd (load_user pa n se r))) as (H4 & H5 & H6).
  cbv zeta. rewrite H4, H5, H6, H1, H2, H3. split_and!; [|unfold put_rows; cbn; by rewrite foldl_app|done].
  cbn. destruct (user_row se); cbn; lia.
Qed.
Lemma load_group_run se r :
  let r' := snd (load_group pa se r) in
  omap snap_group (group_cache r') = put_rows (omap snap_group (group_cache r)) (option_list (group_row se))
  /\ user_cache r' = user_cache r.
Proof.
  cbv zeta. unfold load_group, group_row. cbv zeta.
  destruct (is_empty _); [done|]. destruct (entry_number _ _) as [g|]; [|done].
  rewrite bind_run. unfold cache_group. cbn. destruct r. cbn. split; [|done].
  erewrite omap_insert_Some by reflexivity. done.
Qed.
Lemma load_groups_run es r :
  let r' := snd (each es (load_group pa) r) in
  omap snap_group (group_cache r') = put_rows (omap snap_group (group_cache r)) (omap group_row es)
  /\ user_cache r' = user_cache r.
Proof.
  revert r. induction es as [|se es IH]; intros r; cbn [each]; [done|].
  rewrite bind_run. destruct (load_group_run se r) as [H1 H2].
  destruct (IH (snd (load_group pa se r))) as [H3 H4]. cbv zeta. rewrite H3, H4, H1, H2.
  split; [|done]. cbn. by destruct (group_row se).
Qed.
End BulkLoad.

Section Answering.
Context (server : nat -> Query -> Attempt) (op_timeout_secs : Z) (dir : Query -> list Entry).
Context (Hdir : answers server dir).

Lemma answers_elapsed n q : 0 <= a_elapsed (server n q).
Proof. apply Hdir. Qed.
Lemma search_answers q r : fst (service_search server op_timeout_secs q r) = Ok (dir q).
Proof.
  unfold service_search. cbn [service_loop]. rewrite bind_run.
  destruct (take_pooled_conn (q_dn q) r) as [pooled r1]. cbn [fst snd]. rewrite bind_run.
  assert (H : exists c, fst (one_attempt server pooled q r1) = Answered (dir q) c).
  { unfold one_attempt, run_search, send, bind, get, modify, ret. destruct r1; cbn.
    destruct (Hdir attempts0 q) as (-> & -> & H & -> & _). destruct pooled; cbn; rewrite H; by eexists. }
  by destruct H as [c ->].
Qed.
End Answering.

(** What the directory holds under the bases of a bulk load. *)
Definition bulk_users (dir : Query -> list Entry) (ub : string) pa dn pw : list Entry :=
  concat (map (fun b => dir {| q_base := b; q_filter := class_filter (user_object_class pa);
    q_attrs := user_attrs pa; q_dn := dn; q_pw := pw |}) (bases_from ub)).
Definition bulk_groups (dir : Query -> list Entry) (gb : string) pa dn pw : list Entry :=
  concat (map (fun b => dir {| q_base := b; q_filter := class_filter (group_object_class pa);
    q_attrs := group_attrs_bulk pa; q_dn := dn; q_pw := pw |}) (bases_from gb)).

Section LoadExact.
Context (server : nat -> Query -> Attempt) (op_timeout_secs : Z) (dir : Query -> list Entry).
Context (Hdir : answers server dir) (pa : PosixAttributeMapping) (dn pw : string).

Lemma search_loaded b f attrs r :
  let res := search server op_timeout_secs dn pw b f attrs r in
  fst res = Ok (dir {| q_base := b; q_filter := f; q_attrs := attrs; q_dn := dn; q_pw := pw |})
  /\ user_cache (snd res) = user_cache r /\ group_cache (snd res) = group_cache r.
Proof.
  split_and!; [by apply search_answers| |];
    apply (service_search_frame server op_timeout_secs (answers_elapsed server dir Hdir)).
Qed.
Lemma load_user_bases bases n r :
  let res := fold_m bases n (fun loaded base =>
    let* res := search server op_timeout_secs dn pw base (class_filter (user_object_class pa)) (user_attrs pa) in
    match res with Ok es => fold_m es loaded (load_user pa) | Err _ => ret loaded end) r in
  let es := concat (map (fun b => dir {| q_base := b; q_filter := class_filter (user_object_class pa);
    q_attrs := user_attrs pa; q_dn := dn; q_pw := pw |}) bases) in
  fst res = (n + length (omap (user_row pa) es))%nat
  /\ omap snap_user (user_cache (snd res))
     = put_rows (omap snap_user (user_cache r)) (concat (map (user_rows pa) es))
  /\ group_cache (snd res) = group_cache r.
Proof.
  revert n r. induction bases as [|b l IH]; intros n r; cbn [fold_m]; [cbn; by rewrite Nat.add_0_r|].
  rewrite bind_run. rewrite (bind_run (search _ _ _ _ _ _ _)).
  destruct (search_loaded b (class_filter (user_object_class pa)) (user_attrs pa) r) as (H1 & H2 & H3).
  rewrite H1. set (es := dir _). set (r1 := snd (search _ _ _ _ _ _ _ r)) in *.
  destruct (load_users_run pa es n r1) as (H4 & H5 & H6). rewrite H2 in H5. rewrite H3 in H6.
  destruct (IH (fst (fold_m es n (load_user pa) r1)) (snd (fold_m es n (load_user pa) r1))) as (H7 & H8 & H9).
  cbv zeta in *. rewrite H7, H8, H9, H4, H5, H6. cbn [map concat].
  rewrite omap_app, length_app, map_app, concat_app. unfold put_rows. rewrite foldl_app.
  split_and!; [by rewrite Nat.add_assoc|done|done].
Qed.
Lemma load_group_bases bases r :
  let r' := snd (each bases (fun base =>
    let* res := search server op_timeout_secs dn pw base (class_filter (group_object_class pa)) (group_attrs_bulk pa) in
    match res with Ok es => each es (load_group pa) | Err _ => ret tt end) r) in
  let es := concat (map (fun b => dir {| q_base := b; q_filter := class_filter (group_object_class pa);
    q_attrs := group_attrs_bulk pa; q_dn := dn; q_pw := pw |}) bases) in
  omap snap_group (group_cache r')
  = put_rows (omap snap_group (group_cache r)) (omap (group_row pa) es)
  /\ user_cache r' = user_cache r.
Proof.
  revert r. induction bases as [|b l IH]; intros r; cbn [each]; [done|].
  rewrite bind_run. rewrite (bind_run (search _ _ _ _ _ _ _)).
  destruct (search_loaded b (class_filter (group_object_class pa)) (group_attrs_bulk pa) r) as (H1 & H2 & H3).
  rewrite H1. set (es := dir _). set (r1 := snd (search _ _ _ _ _ _ _ r)) in *.
  destruct (load_groups_run pa es r1) as (H4 & H5). rewrite H3 in H4. rewrite H2 in H5.
  destruct (IH (snd (each es (load_group pa) r1))) as (H6 & H7).
  cbv zeta in *. rewrite H6, H7, H4, H5. cbn [map concat].
  rewrite omap_app. unfold put_rows. by rewrite foldl_app.
Qed.
End LoadExact.

(** C35: A bulk load is the directory.  Against a directory that answers, a bulk
    load from any state leaves exactly the directory's rows: every named entry
    with a number, the last one of a name, users under their principal too, and
    nothing of what was cached before; it returns how many users it read. *)
Theorem load_full_identities_exact server op_timeout_secs dir (Hdir : answers server dir) ub gb pa dn pw r :
  let res := load_full_identities server op_timeout_secs ub gb pa dn pw r in
  fst res = length (omap (user_row pa) (bulk_users dir ub pa dn pw))
  /\ omap snap_user (user_cache (snd res))
     = put_rows ∅ (concat (map (user_rows pa) (bulk_users dir ub pa dn pw)))
  /\ omap snap_group (group_cache (snd res))
     = put_rows ∅ (omap (group_row pa) (bulk_groups dir gb pa dn pw)).
Proof.
  cbv zeta. unfold load_full_identities. rewrite bind_run, bind_run, bind_run.
  set (r0 := snd (clear_caches r)).
  assert (Hc : user_cache r0 = ∅ /\ group_cache r0 = ∅) by by destruct r.
  destruct Hc as [Hu Hg].
  destruct (load_user_bases server op_timeout_secs dir Hdir pa dn pw (bases_from ub) 0 r0) as (H1 & H2 & H3).
  set (r1 := snd (fold_m _ _ _ r0)) in *.
  destruct (load_group_bases server op_timeout_secs dir Hdir pa dn pw (bases_from gb) r1) as (H4 & H5).
  cbn [ret fst snd]. rewrite H1, H4, H5, H2, H3, Hu, Hg, !omap_empty. by split_and!.
Qed.
Lemma load_full_identities_exact_witness :
  let dir q := if contains_str "posixAccount" (q_filter q) then [demo_entry] else [] in
  let server n q := {| a_connect := None; a_bind := None; a_search := fun _ => Ok (dir q);
                       a_stalls := false; a_elapsed := 1 |} in
  let res := load_full_identities server 15 "ou=people,dc=ex" "ou=people,dc=ex" demo_mapping "cn=svc" "pw"
               (new_resolver 0) in
  fst res = 2%nat
  /\ omap snap_user (user_cache (snd res)) = {[ "ann" := {| u_uid := 1001; u_gid := 2001; u_display := "ann" |} ]}.
Proof.
  intros dir server res.
  destruct (load_full_identities_exact server 15 dir) with (ub := "ou=people,dc=ex") (gb := "ou=people,dc=ex")
    (pa := demo_mapping) (dn := "cn=svc") (pw := "pw") (r := new_resolver 0) as (H1 & H2 & _).
  { intros n q. unfold server. cbn [a_connect a_bind a_search a_stalls a_elapsed]. split_and!; [done|done|done|done|lia]. }
  fold res in H1, H2. split; [rewrite H1; by vm_compute|]. rewrite H2. by vm_compute.
Defined.
