(* ===== verification/Config.v ===== *)
(** * Configuration: data model, environment overlay and validation

    Models [config.rs] (the records of nfs-klldap.conf and the pure helpers on
    shares) and [validate.rs] ([apply_core_env_overrides],
    [validate_and_derive], [validate_ganesha_tuning]).  The reading of the file
    is in [ConfigLoad]: here a configuration starts as a value of
    [NfsKlldapConfig], and the scan for unknown keys works on an abstract TOML
    tree.  The process environment is a function from names to values.  Warnings written to
    stderr are not part of the result. *)

From S2P Require Import Prelude RustStr Identity.
Local Open Scope Z_scope.

(** ** Records of [config.rs] *)
Record Share := {
  sh_name : string;
  sh_host_path : string;
  sh_pseudo_path : option string;
  sh_security : option string;
  sh_rw : option bool;
  sh_squash : option string;
  sh_cache_profile : option string;
  sh_pref_read : option Z;
  sh_pref_write : option Z;
  sh_enable_acl : option bool;
  sh_manage_gids : option bool;
  sh_read_access_policy : option string;
  sh_manage_gids_expiration : option Z;
  sh_container_path : string;
  sh_source_path : option string;
  sh_attr_expiration_secs : option Z;
  sh_navahi_insecure : option bool;
  sh_umask : option string;
}.

Record SssdSection := {
  ss_ldap_default_bind_dn : string;
  ss_ldap_default_authtok : string;
  ss_port : option Z;
  ss_ldap_user_search_base : option string;
  ss_ldap_group_search_base : option string;
  ss_ldap_search_base : option string;
  ss_ldap_tls_reqcert : option string;
  ss_ldap_tls_cacert : option string;
  ss_ldap_id_use_start_tls : option bool;
  ss_enumerate : option bool;
  ss_ldap_user_object_class : option string;
  ss_ldap_group_object_class : option string;
  ss_ldap_user_name : option string;
  ss_ldap_user_uid_number : option string;
  ss_ldap_user_gid_number : option string;
  ss_ldap_user_home_directory : option string;
  ss_ldap_user_shell : option string;
  ss_ldap_user_fullname : option string;
  ss_ldap_group_name : option string;
  ss_ldap_group_gid_number : option string;
  ss_ldap_group_member : option string;
  ss_domain : option string;
  ss_kllldap_ignored_attributes : option bool;
  ss_auth_provider : option string;
  ss_chpass_provider : option string;
  ss_ldap_schema : option string;
  ss_ldap_id_mapping : option bool;
  ss_ldap_auth_disable_tls : option bool;
  ss_access_provider : option string;
  ss_use_fully_qualified_names : option bool;
  ss_krb5_server : option string;
  ss_krb5_kpasswd : option string;
  ss_krb5_validate : option bool;
  ss_krb5_store_password_if_offline : option bool;
  ss_ldap_user_principal_name : option string;
  ss_entry_cache_timeout : option Z;
  ss_entry_negative_timeout : option Z;
}.

Record GaneshaSection := {
  ga_default_security : string;
  ga_post_generate_hook : option string;
  ga_warm_principals : list string;
  ga_enable_rpc_cred_fallback : option bool;
  ga_idmapped_validity_secs : option Z;
  ga_root_kerberos_principals : option string;
  ga_manage_gids_expiration_secs : option Z;
  ga_negative_cache_validity_secs : option Z;
  ga_max_uid_to_group_reqs : option Z;
  ga_readdir_res_size : option Z;
  ga_readdir_max_count : option Z;
  ga_getattrs_in_complete_read : option bool;
  ga_malloc_trim : option bool;
  ga_malloc_trim_min_threshold_mb : option Z;
  ga_attr_expiration_secs : option Z;
}.

Record WebuiSection := {
  wu_tls : option bool;
  wu_tls_cert : option string;
  wu_tls_key : option string;
  wu_session_timeout_minutes : option Z;
}.

Record ProbeSection := {
  pb_user_principal : option string;
  pb_client_host : option string;
}.

Record ShareFieldWarning := {
  share_index : nat;
  share_name : option string;
  unknown_keys : list string;
}.

(** The one-field sections ([storage], [server], [kerberos], [management],
    [host]) are inlined as their field. *)
Record NfsKlldapConfig := {
  ldap_uri : string;
  navahi_discovery : bool;
  storage_container_root : string;
  server_hostname : option string;
  sssd : SssdSection;
  kerberos_realm : option string;
  ganesha : GaneshaSection;
  webui_admin_group : option string;
  probe : ProbeSection;
  host_nfs : option bool;
  webui : WebuiSection;
  shares : list Share;
  share_warnings : list ShareFieldWarning;
}.

Definition default_share : Share := {|
  sh_name := ""; sh_host_path := ""; sh_pseudo_path := None; sh_security := None;
  sh_rw := Some true; sh_squash := Some "root_squash"; sh_cache_profile := Some "Default";
  sh_pref_read := None; sh_pref_write := None; sh_enable_acl := None;
  sh_manage_gids := None; sh_read_access_policy := None; sh_manage_gids_expiration := None;
  sh_container_path := ""; sh_source_path := None; sh_attr_expiration_secs := None;
  sh_navahi_insecure := None; sh_umask := None |}.

Definition derive_share_pseudo (share : Share) : string :=
  let raw := default ("/" +:+ sh_name share) (sh_pseudo_path share) in
  if starts_with "/" raw then raw else "/" +:+ raw.

Definition share_navahi_effective (cfg : NfsKlldapConfig) (share : Share) : bool :=
  navahi_discovery cfg && match sh_navahi_insecure share with Some b => b | None => false end.

Definition CACHE_PROFILES : list string :=
  ["Default"; "Read - Basic"; "Read - Heavy"; "Mixed Use"; "Write - Heavy"].

Definition resolve_cache_profile (profile : string) : option (Z * Z) :=
  let p := trim profile in
  if seqb p "Default" then Some (1048576, 1048576)
  else if seqb p "Read - Basic" then Some (4194304, 4194304)
  else if seqb p "Read - Heavy" then Some (16777216, 8388608)
  else if seqb p "Mixed Use" then Some (4194304, 4194304)
  else if seqb p "Write - Heavy" then Some (2097152, 16777216)
  else None.

Definition SHARE_KNOWN_KEYS : list string :=
  ["name"; "host_path"; "pseudo_path"; "security"; "rw"; "squash"; "cache_profile";
   "pref_read"; "pref_write"; "enable_acl"; "manage_gids"; "read_access_policy";
   "manage_gids_expiration"; "container_path"; "source_path"; "umask";
   "attr_expiration_secs"; "navahi_insecure"].

(** [warnings.iter().find(..)] *)
Definition for_share (warnings : list ShareFieldWarning) (i : nat) (name : string)
  : option ShareFieldWarning :=
  List.find (fun w => Nat.eqb (share_index w) i
    || match share_name w with Some n => seqb n name | None => false end) warnings.

(** ** Unknown keys of [[shares]] tables *)
Inductive toml :=
| TTable (kvs : list (string * toml))
| TArray (vs : list toml)
| TString (s : string)
| TScalar.

Fixpoint table_get (k : string) (kvs : list (string * toml)) : option toml :=
  match kvs with
  | [] => None
  | (k', v) :: r => if seqb k' k then Some v else table_get k r
  end.

Definition unknown_keys_of (kvs : list (string * toml)) : list string :=
  List.filter (fun k => negb (existsb (seqb k) SHARE_KNOWN_KEYS) && negb (seqb k "export_path"))
    (map fst kvs).

Fixpoint share_tables_warnings (idx : nat) (entries : list toml) : list ShareFieldWarning :=
  match entries with
  | [] => []
  | TTable kvs :: r =>
      match unknown_keys_of kvs with
      | [] => share_tables_warnings (S idx) r
      | ks =>
          {| share_index := idx;
             share_name := match table_get "name" kvs with
                           | Some (TString s) => Some s | _ => None end;
             unknown_keys := ks |} :: share_tables_warnings (S idx) r
      end
  | _ :: r => share_tables_warnings (S idx) r
  end.

Definition detect_share_unknown_keys_value (root : toml) : list ShareFieldWarning :=
  match root with
  | TTable kvs =>
      match table_get "shares" kvs with
      | Some (TArray entries) => share_tables_warnings 0 entries
      | _ => []
      end
  | _ => []
  end.

(** ** Environment overlay *)
Definition Env := string -> option string.

(** [if let Ok(v) = var(k) { let t = v.trim(); if !t.is_empty() { f = t } }] *)
Definition env_nonblank (env : Env) (k : string) : option string :=
  v ← env k; let t := trim v in if is_empty t then None else Some t.
Definition env_str (env : Env) (k : string) (cur : string) : string :=
  default cur (env_nonblank env k).
Definition env_some (env : Env) (k : string) (cur : option string) : option string :=
  match env_nonblank env k with Some t => Some t | None => cur end.
(** [f = if t.is_empty() { None } else { Some(t) }]: a blank value clears. *)
Definition env_clear (env : Env) (k : string) (cur : option string) : option string :=
  match env k with Some _ => env_nonblank env k | None => cur end.
Definition truthy (v : string) : bool :=
  existsb (seqb (to_ascii_lowercase (trim v))) ["true"; "1"; "yes"; "on"].
Definition env_bool (env : Env) (k : string) (cur : option bool) : option bool :=
  match env k with Some v => Some (truthy v) | None => cur end.

Definition parse_host_nfs_env_value (value : string) : bool := truthy value.
Definition webui_tls_disabled (env : Env) : bool :=
  match env "NFS_KLLDAP_WEBUI_TLS" with
  | Some v => existsb (seqb (to_ascii_lowercase (trim v))) ["off"; "false"; "0"; "no"]
  | None => false
  end.
Definition host_nfs_from_env (env : Env) : option bool :=
  parse_host_nfs_env_value <$>
    match env "HOST_NFS" with Some v => Some v | None => env "NFS_KLLDAP_HOST_NFS" end.

Definition env_sssd (env : Env) (s : SssdSection) : SssdSection := {|
  ss_ldap_default_bind_dn :=
    env_str env "NFS_KLLDAP_LLDAP_USER"
      (env_str env "NFS_KLLDAP_SSSD_LDAP_DEFAULT_BIND_DN" (ss_ldap_default_bind_dn s));
  ss_ldap_default_authtok :=
    env_str env "NFS_KLLDAP_LLDAP_PW"
      (env_str env "NFS_KLLDAP_SSSD_LDAP_DEFAULT_AUTHTOK" (ss_ldap_default_authtok s));
  ss_port := ss_port s;
  ss_ldap_user_search_base := ss_ldap_user_search_base s;
  ss_ldap_group_search_base := ss_ldap_group_search_base s;
  ss_ldap_search_base := ss_ldap_search_base s;
  ss_ldap_tls_reqcert := env_some env "NFS_KLLDAP_SSSD_LDAP_TLS_REQCERT" (ss_ldap_tls_reqcert s);
  ss_ldap_tls_cacert := env_some env "NFS_KLLDAP_SSSD_LDAP_TLS_CACERT" (ss_ldap_tls_cacert s);
  ss_ldap_id_use_start_tls :=
    env_bool env "NFS_KLLDAP_SSSD_LDAP_ID_USE_START_TLS" (ss_ldap_id_use_start_tls s);
  ss_enumerate := ss_enumerate s;
  ss_ldap_user_object_class := ss_ldap_user_object_class s;
  ss_ldap_group_object_class := ss_ldap_group_object_class s;
  ss_ldap_user_name := ss_ldap_user_name s;
  ss_ldap_user_uid_number := ss_ldap_user_uid_number s;
  ss_ldap_user_gid_number := ss_ldap_user_gid_number s;
  ss_ldap_user_home_directory := ss_ldap_user_home_directory s;
  ss_ldap_user_shell := ss_ldap_user_shell s;
  ss_ldap_user_fullname := ss_ldap_user_fullname s;
  ss_ldap_group_name := ss_ldap_group_name s;
  ss_ldap_group_gid_number := ss_ldap_group_gid_number s;
  ss_ldap_group_member := ss_ldap_group_member s;
  ss_domain := ss_domain s;
  ss_kllldap_ignored_attributes :=
    env_bool env "NFS_KLLDAP_SSSD_KLLLDAP_IGNORED_ATTRIBUTES" (ss_kllldap_ignored_attributes s);
  ss_auth_provider := ss_auth_provider s;
  ss_chpass_provider := ss_chpass_provider s;
  ss_ldap_schema := ss_ldap_schema s;
  ss_ldap_id_mapping := ss_ldap_id_mapping s;
  ss_ldap_auth_disable_tls := ss_ldap_auth_disable_tls s;
  ss_access_provider := ss_access_provider s;
  ss_use_fully_qualified_names := ss_use_fully_qualified_names s;
  ss_krb5_server := ss_krb5_server s;
  ss_krb5_kpasswd := ss_krb5_kpasswd s;
  ss_krb5_validate := ss_krb5_validate s;
  ss_krb5_store_password_if_offline := ss_krb5_store_password_if_offline s;
  ss_ldap_user_principal_name := ss_ldap_user_principal_name s;
  ss_entry_cache_timeout := ss_entry_cache_timeout s;
  ss_entry_negative_timeout := ss_entry_negative_timeout s |}.

(** The two fields of [ganesha] that the environment overrides, and the one
    that validation rewrites. *)
Definition with_ganesha_core (g : GaneshaSection) (sec : string)
    (hook root : option string) : GaneshaSection := {|
  ga_default_security := sec;
  ga_post_generate_hook := hook;
  ga_warm_principals := ga_warm_principals g;
  ga_enable_rpc_cred_fallback := ga_enable_rpc_cred_fallback g;
  ga_idmapped_validity_secs := ga_idmapped_validity_secs g;
  ga_root_kerberos_principals := root;
  ga_manage_gids_expiration_secs := ga_manage_gids_expiration_secs g;
  ga_negative_cache_validity_secs := ga_negative_cache_validity_secs g;
  ga_max_uid_to_group_reqs := ga_max_uid_to_group_reqs g;
  ga_readdir_res_size := ga_readdir_res_size g;
  ga_readdir_max_count := ga_readdir_max_count g;
  ga_getattrs_in_complete_read := ga_getattrs_in_complete_read g;
  ga_malloc_trim := ga_malloc_trim g;
  ga_malloc_trim_min_threshold_mb := ga_malloc_trim_min_threshold_mb g;
  ga_attr_expiration_secs := ga_attr_expiration_secs g |}.

Definition env_ganesha (env : Env) (g : GaneshaSection) : GaneshaSection :=
  with_ganesha_core g
    (env_str env "NFS_KLLDAP_GANESHA_DEFAULT_SECURITY" (ga_default_security g))
    (env_clear env "NFS_KLLDAP_POST_GENERATE_HOOK" (ga_post_generate_hook g))
    (ga_root_kerberos_principals g).

Definition env_webui (env : Env) (w : WebuiSection) : WebuiSection := {|
  wu_tls := match env "NFS_KLLDAP_WEBUI_TLS" with
            | Some _ => Some (negb (webui_tls_disabled env))
            | None => wu_tls w end;
  wu_tls_cert := env_some env "NFS_KLLDAP_WEBUI_TLS_CERT" (wu_tls_cert w);
  wu_tls_key := env_some env "NFS_KLLDAP_WEBUI_TLS_KEY" (wu_tls_key w);
  wu_session_timeout_minutes := wu_session_timeout_minutes w |}.

Definition apply_core_env_overrides (env : Env) (c : NfsKlldapConfig) : NfsKlldapConfig := {|
  ldap_uri := env_str env "NFS_KLLDAP_LDAP_URI" (ldap_uri c);
  navahi_discovery := navahi_discovery c;
  storage_container_root :=
    env_str env "NFS_KLLDAP_STORAGE_CONTAINER_ROOT" (storage_container_root c);
  server_hostname := env_clear env "NFS_KLLDAP_SERVER_HOSTNAME" (server_hostname c);
  sssd := env_sssd env (sssd c);
  kerberos_realm := env_some env "NFS_KLLDAP_KERBEROS_REALM" (kerberos_realm c);
  ganesha := env_ganesha env (ganesha c);
  webui_admin_group :=
    env_clear env "NFS_KLLDAP_MANAGEMENT_WEBUI_ADMIN_GROUP" (webui_admin_group c);
  probe := probe c;
  host_nfs := match host_nfs_from_env env with Some b => Some b | None => host_nfs c end;
  webui := env_webui env (webui c);
  shares := shares c;
  share_warnings := share_warnings c |}.

(** ** Validation *)
Definition GANESHA_DEFAULT_SECTYPE : string := "krb5p".
Definition GANESHA_ALLOWED_SECTYPES : list string := ["krb5p"; "krb5i"; "krb5"].
Definition GANESHA_ALLOWED_SQUASH : list string :=
  ["no_root_squash"; "root_squash"; "root_id_squash"; "all_squash"].
Definition GANESHA_READ_ACCESS_POLICIES : list string := ["pre"; "post"].
Definition GANESHA_ROOT_KRB_PRINCIPAL_TOKENS : list string :=
  ["none"; "nfs"; "root"; "host"; "all"].
Definition GANESHA_MANAGE_GIDS_EXPIRATION_MAX : Z := 7 * 24 * 60 * 60.
Definition GANESHA_READDIR_RES_SIZE_MIN : Z := 4096.
Definition GANESHA_READDIR_RES_SIZE_MAX : Z := 64 * 1024 * 1024.
Definition GANESHA_READDIR_MAX_COUNT_MIN : Z := 32.
Definition GANESHA_READDIR_MAX_COUNT_MAX : Z := 1024 * 1024.

(** The [ConfigError::Validation] messages, one constructor per message. *)
Inductive ConfigError :=
| LdapUriRequired
| SessionTimeoutTooSmall
| LdapIpNotSupported
| RealmRequired
| BadDefaultSecurity (got : string)
| ShareNameEmpty
| DuplicateShareName (name : string)
| HostPathRequired (name : string)
| BadShareSecurity (name got : string)
| BadShareSquash (name got : string)
| PrefReadRange (name : string) (got : Z)
| PrefWriteRange (name : string) (got : Z)
| BadCacheProfile (name got : string)
| ShareAttrExpirationNegative (name : string) (got : Z)
| ContainerPathRequired (name : string)
| ContainerPathNotAbsolute (name got : string)
| ContainerPathOutsideRoot (name got root : string)
| SourcePathNotAbsolute (name got : string)
| SourcePathOutsideRoot (name got root : string)
| PseudoPathRoot (name : string)
| DuplicatePseudo (name pseudo : string)
| DuplicateServePath (name serve : string)
| BadReadAccessPolicy (name got : string)
| BindDnRequired
| AuthtokRequired
| RootPrincipalsEmpty
| RootPrincipalInvalid (token : string)
| AttrExpirationNegative (got : Z)
| ManageGidsExpirationTooBig (got : Z)
| ReaddirResSizeRange (got : Z)
| ReaddirMaxCountRange (got : Z)
| MallocTrimThresholdZero.

Definition mem (x : string) (l : list string) : bool := existsb (seqb x) l.
(** [if let Some(v) = o { if bad(v) { return Err(e(v)) } }] *)
Definition check_opt {A E} (o : option A) (bad : A -> bool) (e : A -> E) : result unit E :=
  match o with
  | Some v => bail_if (bad v) (e v)
  | None => Ok tt
  end.
Definition out_of (lo hi : Z) (v : Z) : bool := negb ((lo <=? v) && (v <=? hi)).

Definition is_kerberos_placeholder_realm (r : string) : bool :=
  let t := trim r in
  if is_empty t then true
  else if sany is_ascii_lowercase t then false
  else eq_ignore_ascii_case t "EXAMPLE.COM" || eq_ignore_ascii_case t "EXAMPLE".

Definition normalize_blank (field : option string) : option string :=
  match field with
  | Some v => if is_empty (trim v) then None else Some (trim v)
  | None => None
  end.

Definition normalize_sssd (s : SssdSection) : SssdSection := {|
  ss_ldap_default_bind_dn := ss_ldap_default_bind_dn s;
  ss_ldap_default_authtok := ss_ldap_default_authtok s;
  ss_port := ss_port s;
  ss_ldap_user_search_base := normalize_blank (ss_ldap_user_search_base s);
  ss_ldap_group_search_base := normalize_blank (ss_ldap_group_search_base s);
  ss_ldap_search_base := normalize_blank (ss_ldap_search_base s);
  ss_ldap_tls_reqcert := normalize_blank (ss_ldap_tls_reqcert s);
  ss_ldap_tls_cacert := normalize_blank (ss_ldap_tls_cacert s);
  ss_ldap_id_use_start_tls := ss_ldap_id_use_start_tls s;
  ss_enumerate := ss_enumerate s;
  ss_ldap_user_object_class := normalize_blank (ss_ldap_user_object_class s);
  ss_ldap_group_object_class := normalize_blank (ss_ldap_group_object_class s);
  ss_ldap_user_name := normalize_blank (ss_ldap_user_name s);
  ss_ldap_user_uid_number := normalize_blank (ss_ldap_user_uid_number s);
  ss_ldap_user_gid_number := normalize_blank (ss_ldap_user_gid_number s);
  ss_ldap_user_home_directory := normalize_blank (ss_ldap_user_home_directory s);
  ss_ldap_user_shell := normalize_blank (ss_ldap_user_shell s);
  ss_ldap_user_fullname := normalize_blank (ss_ldap_user_fullname s);
  ss_ldap_group_name := normalize_blank (ss_ldap_group_name s);
  ss_ldap_group_gid_number := normalize_blank (ss_ldap_group_gid_number s);
  ss_ldap_group_member := normalize_blank (ss_ldap_group_member s);
  ss_domain := normalize_blank (ss_domain s);
  ss_kllldap_ignored_attributes := ss_kllldap_ignored_attributes s;
  ss_auth_provider := normalize_blank (ss_auth_provider s);
  ss_chpass_provider := normalize_blank (ss_chpass_provider s);
  ss_ldap_schema := normalize_blank (ss_ldap_schema s);
  ss_ldap_id_mapping := ss_ldap_id_mapping s;
  ss_ldap_auth_disable_tls := ss_ldap_auth_disable_tls s;
  ss_access_provider := ss_access_provider s;
  ss_use_fully_qualified_names := ss_use_fully_qualified_names s;
  ss_krb5_server := normalize_blank (ss_krb5_server s);
  ss_krb5_kpasswd := normalize_blank (ss_krb5_kpasswd s);
  ss_krb5_validate := ss_krb5_validate s;
  ss_krb5_store_password_if_offline := ss_krb5_store_password_if_offline s;
  ss_ldap_user_principal_name := ss_ldap_user_principal_name s;
  ss_entry_cache_timeout := ss_entry_cache_timeout s;
  ss_entry_negative_timeout := ss_entry_negative_timeout s |}.

(** The derived fields of [sssd]: port and the two search bases. *)
Definition with_sssd_derived (s : SssdSection) (port : option Z)
    (ubase gbase : option string) : SssdSection := {|
  ss_ldap_default_bind_dn := ss_ldap_default_bind_dn s;
  ss_ldap_default_authtok := ss_ldap_default_authtok s;
  ss_port := port;
  ss_ldap_user_search_base := ubase;
  ss_ldap_group_search_base := gbase;
  ss_ldap_search_base := ss_ldap_search_base s;
  ss_ldap_tls_reqcert := ss_ldap_tls_reqcert s;
  ss_ldap_tls_cacert := ss_ldap_tls_cacert s;
  ss_ldap_id_use_start_tls := ss_ldap_id_use_start_tls s;
  ss_enumerate := ss_enumerate s;
  ss_ldap_user_object_class := ss_ldap_user_object_class s;
  ss_ldap_group_object_class := ss_ldap_group_object_class s;
  ss_ldap_user_name := ss_ldap_user_name s;
  ss_ldap_user_uid_number := ss_ldap_user_uid_number s;
  ss_ldap_user_gid_number := ss_ldap_user_gid_number s;
  ss_ldap_user_home_directory := ss_ldap_user_home_directory s;
  ss_ldap_user_shell := ss_ldap_user_shell s;
  ss_ldap_user_fullname := ss_ldap_user_fullname s;
  ss_ldap_group_name := ss_ldap_group_name s;
  ss_ldap_group_gid_number := ss_ldap_group_gid_number s;
  ss_ldap_group_member := ss_ldap_group_member s;
  ss_domain := ss_domain s;
  ss_kllldap_ignored_attributes := ss_kllldap_ignored_attributes s;
  ss_auth_provider := ss_auth_provider s;
  ss_chpass_provider := ss_chpass_provider s;
  ss_ldap_schema := ss_ldap_schema s;
  ss_ldap_id_mapping := ss_ldap_id_mapping s;
  ss_ldap_auth_disable_tls := ss_ldap_auth_disable_tls s;
  ss_access_provider := ss_access_provider s;
  ss_use_fully_qualified_names := ss_use_fully_qualified_names s;
  ss_krb5_server := ss_krb5_server s;
  ss_krb5_kpasswd := ss_krb5_kpasswd s;
  ss_krb5_validate := ss_krb5_validate s;
  ss_krb5_store_password_if_offline := ss_krb5_store_password_if_offline s;
  ss_ldap_user_principal_name := ss_ldap_user_principal_name s;
  ss_entry_cache_timeout := ss_entry_cache_timeout s;
  ss_entry_negative_timeout := ss_entry_negative_timeout s |}.

Definition normalize_webui (w : WebuiSection) : WebuiSection := {|
  wu_tls := wu_tls w;
  wu_tls_cert := normalize_blank (wu_tls_cert w);
  wu_tls_key := normalize_blank (wu_tls_key w);
  wu_session_timeout_minutes := wu_session_timeout_minutes w |}.

(** The three path fields that validation rewrites in a share. *)
Definition with_share_paths (s : Share) (cpath : string) (pseudo src : option string)
  : Share := {|
  sh_name := sh_name s;
  sh_host_path := sh_host_path s;
  sh_pseudo_path := pseudo;
  sh_security := sh_security s;
  sh_rw := sh_rw s;
  sh_squash := sh_squash s;
  sh_cache_profile := sh_cache_profile s;
  sh_pref_read := sh_pref_read s;
  sh_pref_write := sh_pref_write s;
  sh_enable_acl := sh_enable_acl s;
  sh_manage_gids := sh_manage_gids s;
  sh_read_access_policy := sh_read_access_policy s;
  sh_manage_gids_expiration := sh_manage_gids_expiration s;
  sh_container_path := cpath;
  sh_source_path := src;
  sh_attr_expiration_secs := sh_attr_expiration_secs s;
  sh_navahi_insecure := sh_navahi_insecure s;
  sh_umask := sh_umask s |}.

Definition normalize_pseudo (share : Share) : string :=
  match sh_pseudo_path share with
  | Some v =>
      let t := trim v in
      if is_empty t then "/" +:+ sh_name share
      else if starts_with "/" t then t
      else "/" +:+ t
  | None => "/" +:+ sh_name share
  end.

Definition PREF_MIN : Z := 512.
Definition PREF_MAX : Z := 64 * 1024 * 1024.

(** First loop over the shares: names, host path, pseudo path and the scalar
    fields; [seen] is the set of names. *)
Definition validate_share_fields (seen : gset string) (share : Share)
  : result (gset string * Share) ConfigError :=
  let name := sh_name share in
  bail_if (is_empty (trim name)) ShareNameEmpty ?;;
  bail_if (bool_decide (name ∈ seen)) (DuplicateShareName name) ?;;
  bail_if (is_empty (sh_host_path share)) (HostPathRequired name) ?;;
  check_opt (sh_security share) (fun s => negb (mem s GANESHA_ALLOWED_SECTYPES))
    (BadShareSecurity name) ?;;
  check_opt (sh_squash share) (fun s => negb (mem s GANESHA_ALLOWED_SQUASH))
    (BadShareSquash name) ?;;
  check_opt (sh_pref_read share) (out_of PREF_MIN PREF_MAX) (PrefReadRange name) ?;;
  check_opt (sh_pref_write share) (out_of PREF_MIN PREF_MAX) (PrefWriteRange name) ?;;
  check_opt (sh_cache_profile share) (fun p => negb (is_some (resolve_cache_profile p)))
    (BadCacheProfile name) ?;;
  check_opt (sh_attr_expiration_secs share) (fun v => v <? 0)
    (ShareAttrExpirationNegative name) ?;;
  Ok (seen ∪ {[ name ]},
      with_share_paths share (trim (sh_container_path share))
        (Some (normalize_pseudo share)) (sh_source_path share)).

(** [p == root || p.starts_with("{root}/")] *)
Definition under_root (root p : string) : bool :=
  seqb p root || starts_with (root +:+ "/") p.

Definition validate_source_path (root name : string) (src : option string)
  : result (option string) ConfigError :=
  match src with
  | None => Ok None
  | Some v =>
      let t := trim v in
      if is_empty t then Ok None
      else
        bail_if (negb (starts_with "/" t)) (SourcePathNotAbsolute name t) ?;;
        bail_if (negb (under_root root t)) (SourcePathOutsideRoot name t root) ?;;
        Ok (Some t)
  end.

(** Second loop: container and source paths under the container root. *)
Definition validate_share_paths (root : string) (share : Share) : result Share ConfigError :=
  let name := sh_name share in
  let cp := sh_container_path share in
  bail_if (is_empty cp) (ContainerPathRequired name) ?;;
  bail_if (negb (starts_with "/" cp)) (ContainerPathNotAbsolute name cp) ?;;
  bail_if (negb (under_root root cp)) (ContainerPathOutsideRoot name cp root) ?;;
  src <-? validate_source_path root name (sh_source_path share) ;;
  Ok (with_share_paths share cp (sh_pseudo_path share) src).

Definition serve_path_for (share : Share) : string := trim (sh_container_path share).

(** Third loop: pairwise distinct Pseudo paths and serve paths. *)
Definition validate_share_unique (seen : gset string * gset string) (share : Share)
  : result (gset string * gset string) ConfigError :=
  let pseudo := derive_share_pseudo share in
  let serve := serve_path_for share in
  bail_if (seqb pseudo "/") (PseudoPathRoot (sh_name share)) ?;;
  bail_if (bool_decide (pseudo ∈ fst seen)) (DuplicatePseudo (sh_name share) pseudo) ?;;
  bail_if (bool_decide (serve ∈ snd seen)) (DuplicateServePath (sh_name share) serve) ?;;
  Ok (fst seen ∪ {[ pseudo ]}, snd seen ∪ {[ serve ]}).

(** Fourth loop: the read access policy.  The file-system probe of the [post]
    policy only decides a warning. *)
Definition validate_share_policy (share : Share) : result unit ConfigError :=
  check_opt (sh_read_access_policy share)
    (fun rap => negb (mem (to_ascii_lowercase (trim rap)) GANESHA_READ_ACCESS_POLICIES))
    (BadReadAccessPolicy (sh_name share)).

Definition root_principal_tokens (raw : string) : list string :=
  List.filter (fun t => negb (is_empty t))
    (map (fun t => to_ascii_lowercase (trim t)) (split "," raw)).

Definition validate_root_principals (field : option string)
  : result (option string) ConfigError :=
  match normalize_blank field with
  | None => Ok None
  | Some raw =>
      let tokens := root_principal_tokens raw in
      match tokens with
      | [] => Err RootPrincipalsEmpty
      | _ =>
          traverse (fun t => bail_if (negb (mem t GANESHA_ROOT_KRB_PRINCIPAL_TOKENS))
                               (RootPrincipalInvalid t)) tokens ?;;
          Ok (Some (join ", " tokens))
      end
  end.

Definition validate_ganesha_tuning (g : GaneshaSection) : result GaneshaSection ConfigError :=
  root <-? validate_root_principals (ga_root_kerberos_principals g) ;;
  check_opt (ga_attr_expiration_secs g) (fun v => v <? 0) AttrExpirationNegative ?;;
  check_opt (ga_manage_gids_expiration_secs g)
    (fun v => GANESHA_MANAGE_GIDS_EXPIRATION_MAX <? v) ManageGidsExpirationTooBig ?;;
  check_opt (ga_readdir_res_size g)
    (out_of GANESHA_READDIR_RES_SIZE_MIN GANESHA_READDIR_RES_SIZE_MAX) ReaddirResSizeRange ?;;
  check_opt (ga_readdir_max_count g)
    (out_of GANESHA_READDIR_MAX_COUNT_MIN GANESHA_READDIR_MAX_COUNT_MAX) ReaddirMaxCountRange ?;;
  check_opt (ga_malloc_trim_min_threshold_mb g) (fun v => v =? 0)
    (fun _ => MallocTrimThresholdZero) ?;;
  Ok (with_ganesha_core g (ga_default_security g) (ga_post_generate_hook g) root).

(** The base DN derived from a realm: [dc=a,dc=b]. *)
Definition base_dn (realm : string) : string :=
  "dc=" +:+ replace "." ",dc=" (to_ascii_lowercase realm).

Definition derive_realm (env : Env) (c : NfsKlldapConfig) : option string :=
  env_some env "NFS_KLLDAP_KERBEROS_REALM"
    (match kerberos_realm c with
     | Some r => Some r
     | None => derive_realm_from_uri (ldap_uri c)
     end).

Definition derive_sssd (uri realm : string) (s : SssdSection) : SssdSection :=
  let main := match ss_ldap_search_base s with
              | Some v => if is_empty (trim v) then base_dn realm else v
              | None => base_dn realm
              end in
  with_sssd_derived s
    (Some (match ss_port s with
           | Some p => p
           | None => if starts_with "ldaps://" uri then 636 else 389 end))
    (Some (default main (ss_ldap_user_search_base s)))
    (Some (default main (ss_ldap_group_search_base s))).

Definition validate_and_derive (env : Env) (cfg : NfsKlldapConfig)
  : result NfsKlldapConfig ConfigError :=
  let c := apply_core_env_overrides env cfg in
  bail_if (is_empty (trim (ldap_uri c))) LdapUriRequired ?;;
  let s := normalize_sssd (sssd c) in
  let w := normalize_webui (webui c) in
  check_opt (wu_session_timeout_minutes w) (fun m => m <? 5)
    (fun _ => SessionTimeoutTooSmall) ?;;
  bail_if (host_is_ip (extract_host_from_uri (ldap_uri c))) LdapIpNotSupported ?;;
  let realm := derive_realm env c in
  bail_if (is_kerberos_placeholder_realm (trim (default "" realm))) RealmRequired ?;;
  let s := derive_sssd (ldap_uri c) (default "" realm) s in
  let sec := if is_empty (trim (ga_default_security (ganesha c)))
             then GANESHA_DEFAULT_SECTYPE else ga_default_security (ganesha c) in
  bail_if (negb (mem sec GANESHA_ALLOWED_SECTYPES)) (BadDefaultSecurity sec) ?;;
  let croot := if is_empty (trim (storage_container_root c))
               then "/export" else storage_container_root c in
  p <-? loop validate_share_fields ∅ (shares c) ;;
  sh <-? traverse (validate_share_paths (trim_end_matches "/" croot)) (snd p) ;;
  fold_res validate_share_unique (∅, ∅) sh ?;;
  traverse validate_share_policy sh ?;;
  bail_if (is_empty (trim (ss_ldap_default_bind_dn s))) BindDnRequired ?;;
  bail_if (is_empty (trim (ss_ldap_default_authtok s))) AuthtokRequired ?;;
  g <-? validate_ganesha_tuning
          (with_ganesha_core (ganesha c) sec (ga_post_generate_hook (ganesha c))
             (ga_root_kerberos_principals (ganesha c))) ;;
  Ok {| ldap_uri := ldap_uri c;
        navahi_discovery := navahi_discovery c;
        storage_container_root := croot;
        server_hostname := server_hostname c;
        sssd := s;
        kerberos_realm := realm;
        ganesha := g;
        webui_admin_group := webui_admin_group c;
        probe := probe c;
        host_nfs := host_nfs c;
        webui := w;
        shares := sh;
        share_warnings := share_warnings c |}.

Definition effective_realm (c : NfsKlldapConfig) : string := default "" (kerberos_realm c).
Definition nfsv4_domain (c : NfsKlldapConfig) : string :=
  to_ascii_uppercase (effective_realm c).
Definition display_realm (c : NfsKlldapConfig) : string :=
  match trim <$> kerberos_realm c with
  | Some r =>
      if negb (is_empty r) && negb (eq_ignore_ascii_case r "EXAMPLE.COM")
         && negb (eq_ignore_ascii_case r "EXAMPLE")
      then r else "YOUR.REALM"
  | None => "YOUR.REALM"
  end.
Definition is_host_nfs (c : NfsKlldapConfig) : bool := default false (host_nfs c).
Definition host_paths (c : NfsKlldapConfig) : list string := map sh_host_path (shares c).

(** ** What a validated configuration guarantees *)
Record share_wf (root : string) (s : Share) : Prop := {
  wf_name : trim (sh_name s) <> "";
  wf_host_path : sh_host_path s <> "";
  wf_pseudo : sh_pseudo_path s = Some (derive_share_pseudo s)
              /\ starts_with "/" (derive_share_pseudo s) = true
              /\ derive_share_pseudo s <> "/";
  wf_container : starts_with "/" (sh_container_path s) = true
                 /\ under_root root (sh_container_path s) = true
                 /\ trim (sh_container_path s) = sh_container_path s;
  wf_source : forall p, sh_source_path s = Some p ->
                starts_with "/" p = true /\ under_root root p = true;
  wf_security : forall v, sh_security s = Some v -> v ∈ GANESHA_ALLOWED_SECTYPES;
  wf_squash : forall v, sh_squash s = Some v -> v ∈ GANESHA_ALLOWED_SQUASH;
  wf_pref_read : forall v, sh_pref_read s = Some v -> 512 <= v <= 67108864;
  wf_pref_write : forall v, sh_pref_write s = Some v -> 512 <= v <= 67108864;
  wf_profile : forall p, sh_cache_profile s = Some p -> is_Some (resolve_cache_profile p);
  wf_attr : forall v, sh_attr_expiration_secs s = Some v -> 0 <= v;
}.

Lemma check_opt_ok {A E} (o : option A) bad (e : A -> E) :
  check_opt o bad e = Ok tt <-> forall v, o = Some v -> bad v = false.
Proof.
  destruct o as [v|]; cbn; [rewrite bail_if_ok|]; split; try done.
  - by intros H ? [= ->].
  - intros H. by apply H.
Qed.
Lemma mem_elem x l : mem x l = true <-> x ∈ l.
Proof.
  unfold mem. rewrite existsb_exists, list_elem_of_In. split.
  - by intros (y & ? & ->%seqb_eq).
  - intros. exists x. by rewrite seqb_refl.
Qed.
Lemma not_mem_false x l : negb (mem x l) = false -> x ∈ l.
Proof. intros H%negb_false_iff. by apply mem_elem. Qed.
Lemma out_of_false lo hi v : out_of lo hi v = false <-> lo <= v <= hi.
Proof. unfold out_of. rewrite negb_false_iff, andb_true_iff, !Z.leb_le. done. Qed.

(** Peel one check of a chain known to succeed. *)
Ltac peel H :=
  let u := fresh "u" in let Hc := fresh "Hc" in
  apply rbind_ok in H as (u & Hc & H);
  try (destruct u; first [apply bail_if_ok in Hc | rewrite check_opt_ok in Hc]).

Lemma normalize_pseudo_slash s : starts_with "/" (normalize_pseudo s) = true.
Proof.
  unfold normalize_pseudo. repeat case_match; try done; by apply starts_with_spec; eexists.
Qed.

(** The scalar part of [share_wf], established by the first loop. *)
Lemma share_fields_ok seen s seen' s' :
  validate_share_fields seen s = Ok (seen', s') ->
  sh_name s ∉ seen /\ seen' = seen ∪ {[sh_name s]}
  /\ s' = with_share_paths s (trim (sh_container_path s)) (Some (normalize_pseudo s))
            (sh_source_path s)
  /\ trim (sh_name s) <> "" /\ sh_host_path s <> ""
  /\ (forall v, sh_security s = Some v -> v ∈ GANESHA_ALLOWED_SECTYPES)
  /\ (forall v, sh_squash s = Some v -> v ∈ GANESHA_ALLOWED_SQUASH)
  /\ (forall v, sh_pref_read s = Some v -> 512 <= v <= 67108864)
  /\ (forall v, sh_pref_write s = Some v -> 512 <= v <= 67108864)
  /\ (forall p, sh_cache_profile s = Some p -> is_Some (resolve_cache_profile p))
  /\ (forall v, sh_attr_expiration_secs s = Some v -> 0 <= v).
Proof.
  unfold validate_share_fields. intros H. do 9 peel H. simplify_eq.
  split_and!; try done.
  - by apply bool_decide_eq_false in Hc0.
  - by apply is_empty_false.
  - by apply is_empty_false.
  - intros v Hv. by apply not_mem_false, Hc2.
  - intros v Hv. by apply not_mem_false, Hc3.
  - intros v Hv. by apply (out_of_false 512 67108864), Hc4.
  - intros v Hv. by apply (out_of_false 512 67108864), Hc5.
  - intros p Hp. apply Hc6 in Hp. by destruct (resolve_cache_profile p).
  - intros v Hv. apply Hc7 in Hv. lia.
Qed.

Lemma source_path_ok root name src r :
  validate_source_path root name src = Ok r ->
  forall p, r = Some p -> starts_with "/" p = true /\ under_root root p = true /\ trim p = p.
Proof.
  unfold validate_source_path. destruct src as [v|]; [|by intros [= <-]].
  destruct (is_empty (trim v)); [by intros [= <-]|]. intros H. do 2 peel H.
  intros p Hp. simplify_eq. rewrite negb_false_iff in *. rewrite trim_idem. done.
Qed.

Lemma share_paths_ok root s s' :
  validate_share_paths root s = Ok s' ->
  (exists src, s' = with_share_paths s (sh_container_path s) (sh_pseudo_path s) src)
  /\ starts_with "/" (sh_container_path s) = true
  /\ under_root root (sh_container_path s) = true
  /\ (forall p, sh_source_path s' = Some p ->
        starts_with "/" p = true /\ under_root root p = true /\ trim p = p).
Proof.
  unfold validate_share_paths. intros H. do 3 peel H.
  apply rbind_ok in H as (src & Hsrc & [= <-]). rewrite negb_false_iff in *.
  split_and!; [by eexists|done|done|]. exact (source_path_ok _ _ _ _ Hsrc).
Qed.

(** The third loop makes the keys pairwise distinct. *)
Lemma unique_ok seen l seen' :
  fold_res validate_share_unique seen l = Ok seen' ->
  NoDup (map derive_share_pseudo l) /\ NoDup (map serve_path_for l)
  /\ Forall (fun s => derive_share_pseudo s <> "/" /\ derive_share_pseudo s ∉ fst seen
                      /\ serve_path_for s ∉ snd seen) l.
Proof.
  revert seen. induction l as [|s l IH]; intros seen; cbn.
  { intros _. split_and!; constructor. }
  intros (seen1 & Hs & Hl)%rbind_ok. unfold validate_share_unique in Hs. do 3 peel Hs.
  simplify_eq. destruct (IH _ Hl) as (Hp & Hv & Hf). cbn in Hf.
  rewrite bool_decide_eq_false in *. apply seqb_neq in Hc. rewrite Forall_forall in Hf.
  split_and!.
  - constructor; [|done]. intros (x & Hx & Hin)%list_elem_of_fmap.
    apply Hf in Hin as (_ & Hin & _). set_solver.
  - constructor; [|done]. intros (x & Hx & Hin)%list_elem_of_fmap.
    apply Hf in Hin as (_ & _ & Hin). set_solver.
  - apply Forall_forall. intros x [->|Hin]%elem_of_cons; [done|].
    apply Hf in Hin as (? & ? & ?). set_solver.
Qed.

(** What [validate_and_derive] runs, as one inversion. *)
Lemma validate_inv env cfg c' :
  validate_and_derive env cfg = Ok c' ->
  let c := apply_core_env_overrides env cfg in
  let root := trim_end_matches "/" (storage_container_root c') in
  trim (ldap_uri c) <> ""
  /\ host_is_ip (extract_host_from_uri (ldap_uri c)) = false
  /\ is_kerberos_placeholder_realm (trim (default "" (kerberos_realm c'))) = false
  /\ kerberos_realm c' = derive_realm env c
  /\ ldap_uri c' = ldap_uri c
  /\ sssd c' = derive_sssd (ldap_uri c) (default "" (kerberos_realm c')) (normalize_sssd (sssd c))
  /\ (forall m, wu_session_timeout_minutes (webui c') = Some m -> 5 <= m)
  /\ ga_default_security (ganesha c') ∈ GANESHA_ALLOWED_SECTYPES
  /\ storage_container_root c' =
       (if is_empty (trim (storage_container_root c)) then "/export" else storage_container_root c)
  /\ trim (ss_ldap_default_bind_dn (sssd c')) <> ""
  /\ trim (ss_ldap_default_authtok (sssd c')) <> ""
  /\ (exists g0, validate_ganesha_tuning g0 = Ok (ganesha c'))
  /\ (exists seen mid,
        loop validate_share_fields ∅ (shares c) = Ok (seen, mid)
        /\ traverse (validate_share_paths root) mid = Ok (shares c'))
  /\ (exists seen, fold_res validate_share_unique (∅, ∅) (shares c') = Ok seen)
  /\ (exists l, traverse validate_share_policy (shares c') = Ok l).
Proof.
  unfold validate_and_derive. set (c := apply_core_env_overrides env cfg). intros H.
  do 5 peel H. apply rbind_ok in H as ([seen mid] & Hloop & H).
  apply rbind_ok in H as (sh & Hsh & H). apply rbind_ok in H as (sn & Huniq & H).
  apply rbind_ok in H as (l & Hpol & H). do 2 peel H.
  apply rbind_ok in H as (g & Hg & [= <-]). cbn.
  split_and!; eauto using is_empty_false.
  - by apply is_empty_false.
  - intros m Hm. apply Hc0 in Hm. lia.
  - pose proof Hg as Hg'. unfold validate_ganesha_tuning in Hg'.
    apply rbind_ok in Hg' as (root & _ & Hg'). do 5 peel Hg'. simplify_eq. cbn.
    by apply not_mem_false.
  - by apply is_empty_false.
  - by apply is_empty_false.
Qed.

(** The two first loops, share by share: from the raw share to the validated one. *)
Lemma shares_built root seen raw mid seen' sh :
  loop validate_share_fields seen raw = Ok (seen', mid) ->
  traverse (validate_share_paths root) mid = Ok sh ->
  Forall2 (fun s s' => exists seen0 seen1 m, validate_share_fields seen0 s = Ok (seen1, m)
                       /\ validate_share_paths root m = Ok s') raw sh
  /\ NoDup (map sh_name sh).
Proof.
  intros Hl Ht. apply traverse_ok in Ht. split.
  - apply (loop_Forall2 _ (fun s m => exists a b, validate_share_fields a s = Ok (b, m))) in Hl;
      [|by eauto].
    revert sh Ht. induction Hl as [|s m raw mid (a & b & Hm) Hl IH]; intros sh Ht.
    + apply Forall2_nil_inv_l in Ht as ->. constructor.
    + apply Forall2_cons_inv_l in Ht as (s' & sh' & ? & ? & ->). constructor; eauto 10.
  - assert (map sh_name sh = map sh_name mid) as ->.
    { clear Hl. induction Ht as [|m s' mid sh Hm Ht IH]; [done|]. cbn. f_equal; [|done].
      by apply share_paths_ok in Hm as ((src & ->) & _). }
    eapply (loop_seen_NoDup _ sh_name) in Hl; [by destruct Hl|].
    intros a s b m Hm. apply share_fields_ok in Hm as (? & -> & -> & _). by split.
Qed.

Lemma share_built_wf root a s b m s' :
  validate_share_fields a s = Ok (b, m) -> validate_share_paths root m = Ok s' ->
  derive_share_pseudo s' <> "/" -> share_wf root s'.
Proof.
  intros Hf Hp Hne.
  apply share_fields_ok in Hf as (_ & _ & -> & ? & ? & ? & ? & ? & ? & ? & ?).
  apply share_paths_ok in Hp as ((src & ->) & Habs & Hund & Hsrc). cbn in *.
  constructor; cbn; try done.
  - pose proof (normalize_pseudo_slash s) as Hs. unfold derive_share_pseudo in *.
    cbn in *. rewrite Hs in *. by split_and!.
  - by rewrite trim_idem.
  - intros p Hpp. by destruct (Hsrc p Hpp) as (? & ? & _).
Qed.

(** C1: every share of a validated configuration is well formed (non-blank
    name, absolute Pseudo path other than the root, container and source paths
    absolute and under the container root, security, squash, cache profile and
    sizes within the allowed values), and share names, Pseudo paths and serve
    paths are pairwise distinct. *)
Theorem validate_shares_wf env cfg c' :
  validate_and_derive env cfg = Ok c' ->
  Forall (share_wf (trim_end_matches "/" (storage_container_root c'))) (shares c')
  /\ NoDup (map sh_name (shares c'))
  /\ NoDup (map derive_share_pseudo (shares c'))
  /\ NoDup (map serve_path_for (shares c')).
Proof.
  intros H. apply validate_inv in H as
    (_ & _ & _ & _ & _ & _ & _ & _ & _ & _ & _ & _ & (seen & mid & Hl & Ht) & (sn & Hu) & _).
  destruct (shares_built _ _ _ _ _ _ Hl Ht) as [Hb Hn].
  apply unique_ok in Hu as (Hps & Hsv & Hroot). split_and!; try done.
  clear Hl Ht Hn Hps Hsv. induction Hb as [|s s' raw sh (a & b & m & Hf & Hp) Hb IH];
    [constructor|].
  apply Forall_cons in Hroot as [[Hr _] Hroot].
  constructor; [by eapply share_built_wf | by apply IH].
Qed.

(** The tuning bounds enforced on [ganesha]. *)
Lemma tuning_bounds g g' :
  validate_ganesha_tuning g = Ok g' ->
  (forall v, ga_attr_expiration_secs g' = Some v -> 0 <= v)
  /\ (forall v, ga_manage_gids_expiration_secs g' = Some v -> v <= 604800)
  /\ (forall v, ga_readdir_res_size g' = Some v -> 4096 <= v <= 67108864)
  /\ (forall v, ga_readdir_max_count g' = Some v -> 32 <= v <= 1048576)
  /\ (forall v, ga_malloc_trim_min_threshold_mb g' = Some v -> v <> 0)
  /\ (forall v, ga_root_kerberos_principals g' = Some v ->
        exists ts, v = join ", " ts /\ ts <> []
                   /\ Forall (fun t => t ∈ GANESHA_ROOT_KRB_PRINCIPAL_TOKENS) ts).
Proof.
  unfold validate_ganesha_tuning. intros H. apply rbind_ok in H as (root & Hroot & H).
  do 5 peel H. simplify_eq. cbn. split_and!.
  - intros v Hv. apply Hc in Hv. lia.
  - intros v Hv. apply Hc0 in Hv. unfold GANESHA_MANAGE_GIDS_EXPIRATION_MAX in Hv. lia.
  - intros v Hv. by apply (out_of_false 4096 67108864), Hc1.
  - intros v Hv. by apply (out_of_false 32 1048576), Hc2.
  - intros v Hv. apply Hc3 in Hv. lia.
  - intros v ->. unfold validate_root_principals in Hroot.
    destruct (normalize_blank _) as [raw|]; [|done].
    destruct (root_principal_tokens raw) as [|t ts] eqn:E; [done|].
    apply rbind_ok in Hroot as (us & Hus & [= <-]). exists (t :: ts). split_and!; [done|done|].
    apply traverse_ok in Hus. clear E. induction Hus as [|x u l us Hx Hus IH]; [done|].
    constructor; [|done]. destruct u. apply bail_if_ok in Hx. by apply not_mem_false.
Qed.

(** The non-share part of a validated configuration: the LDAP URI is not
    blank and does not name an IP address, the Kerberos realm is set and not a
    placeholder, port and both search bases are filled in, bind credentials
    are present, and every Ganesha tuning value is within its range. *)
Theorem validate_core_wf env cfg c' :
  validate_and_derive env cfg = Ok c' ->
  trim (ldap_uri c') <> "" /\ host_is_ip (extract_host_from_uri (ldap_uri c')) = false
  /\ (exists r, kerberos_realm c' = Some r /\ is_kerberos_placeholder_realm r = false)
  /\ is_Some (ss_port (sssd c'))
  /\ is_Some (ss_ldap_user_search_base (sssd c'))
  /\ is_Some (ss_ldap_group_search_base (sssd c'))
  /\ trim (ss_ldap_default_bind_dn (sssd c')) <> ""
  /\ trim (ss_ldap_default_authtok (sssd c')) <> ""
  /\ (forall m, wu_session_timeout_minutes (webui c') = Some m -> 5 <= m)
  /\ ga_default_security (ganesha c') ∈ GANESHA_ALLOWED_SECTYPES
  /\ (forall v, ga_attr_expiration_secs (ganesha c') = Some v -> 0 <= v)
  /\ (forall v, ga_manage_gids_expiration_secs (ganesha c') = Some v -> v <= 604800)
  /\ (forall v, ga_readdir_res_size (ganesha c') = Some v -> 4096 <= v <= 67108864)
  /\ (forall v, ga_readdir_max_count (ganesha c') = Some v -> 32 <= v <= 1048576)
  /\ (forall v, ga_malloc_trim_min_threshold_mb (ganesha c') = Some v -> v <> 0).
Proof.
  intros H. apply validate_inv in H as
    (Huri & Hip & Hrealm & _ & Huri' & Hs & Hw & Hsec & _ & Hdn & Htok & (g0 & Hg) & _).
  apply tuning_bounds in Hg as (? & ? & ? & ? & ? & _).
  rewrite Huri', Hs in *. split_and!; try done; try by eexists.
  destruct (kerberos_realm c') as [r|] eqn:E; [|done]. exists r. split; [done|].
  unfold is_kerberos_placeholder_realm in *. cbn in Hrealm. by rewrite trim_idem in Hrealm.
Qed.

(** ** A concrete configuration *)
Definition no_env : Env := fun _ => None.
Definition blank_sssd : SssdSection :=
  Build_SssdSection "uid=admin,ou=people,dc=example,dc=org" "secret" None None None None None
    None None None None None None None None None None None None None None None None None None
    None None None None None None None None None None None None.
Definition blank_ganesha : GaneshaSection :=
  Build_GaneshaSection "krb5p" None [] None None (Some "NFS , root") None None None None None
    None None None None.
Definition movies_share : Share :=
  with_share_paths {| sh_name := "movies"; sh_host_path := "/media/movies";
    sh_pseudo_path := None; sh_security := None; sh_rw := Some true;
    sh_squash := Some "root_squash"; sh_cache_profile := Some "Default"; sh_pref_read := None;
    sh_pref_write := None; sh_enable_acl := None; sh_manage_gids := None;
    sh_read_access_policy := None; sh_manage_gids_expiration := None; sh_container_path := "";
    sh_source_path := None; sh_attr_expiration_secs := None; sh_navahi_insecure := None;
    sh_umask := None |} " /export/movies " None None.
Definition sample_config : NfsKlldapConfig := {|
  ldap_uri := "ldaps://klldap.example.org:6360"; navahi_discovery := false;
  storage_container_root := ""; server_hostname := None; sssd := blank_sssd;
  kerberos_realm := None; ganesha := blank_ganesha; webui_admin_group := None;
  probe := Build_ProbeSection None None; host_nfs := None;
  webui := Build_WebuiSection None None None None; shares := [movies_share];
  share_warnings := [] |}.
Definition sample_validated : NfsKlldapConfig :=
  match validate_and_derive no_env sample_config with Ok c => c | Err _ => sample_config end.

Lemma sample_valid : validate_and_derive no_env sample_config = Ok sample_validated.
Proof. vm_compute. reflexivity. Qed.
Lemma validate_shares_wf_witness :
  sh_name <$> shares sample_validated = ["movies"]
  /\ NoDup (map derive_share_pseudo (shares sample_validated)).
Proof.
  split; [vm_compute; reflexivity|].
  exact (proj1 (proj2 (proj2 (validate_shares_wf no_env sample_config sample_validated
    sample_valid)))).
Defined.
Lemma validate_core_wf_witness :
  kerberos_realm sample_validated = Some "EXAMPLE.ORG"
  /\ trim (ldap_uri sample_validated) <> "".
Proof.
  split; [vm_compute; reflexivity|].
  exact (proj1 (validate_core_wf no_env sample_config sample_validated sample_valid)).
Defined.

(** ** Validating a validated configuration *)

Lemma env_nonblank_trim env k t : env_nonblank env k = Some t -> trim t = t /\ is_empty t = false.
Proof.
  unfold env_nonblank. destruct (env k) as [v|]; cbn; [|done].
  destruct (is_empty (trim v)) eqn:E; [done|]. intros [= <-]. by rewrite trim_idem.
Qed.
Lemma normalize_blank_idem o : normalize_blank (normalize_blank o) = normalize_blank o.
Proof.
  destruct o as [v|]; cbn; [|done]. destruct (is_empty (trim v)) eqn:E; cbn; [done|].
  by rewrite trim_idem, E.
Qed.
Lemma normalize_blank_env_some env k o :
  env_some env k (normalize_blank (env_some env k o)) = normalize_blank (env_some env k o).
Proof.
  unfold env_some. destruct (env_nonblank env k) as [t|] eqn:E; [|done].
  apply env_nonblank_trim in E as [Ht He]. cbn. by rewrite Ht, He.
Qed.
Lemma env_str_idem env k x : env_str env k (env_str env k x) = env_str env k x.
Proof. unfold env_str. by destruct (env_nonblank env k). Qed.
Lemma env_str_idem2 env k k' x :
  env_str env k (env_str env k' (env_str env k (env_str env k' x)))
  = env_str env k (env_str env k' x).
Proof. unfold env_str. by destruct (env_nonblank env k), (env_nonblank env k'). Qed.
Lemma env_some_idem env k x : env_some env k (env_some env k x) = env_some env k x.
Proof. unfold env_some. by destruct (env_nonblank env k). Qed.
Lemma env_clear_idem env k x : env_clear env k (env_clear env k x) = env_clear env k x.
Proof. unfold env_clear. by destruct (env k). Qed.
Lemma env_bool_idem env k x : env_bool env k (env_bool env k x) = env_bool env k x.
Proof. unfold env_bool. by destruct (env k). Qed.
(** A default put in place of a blank value survives the overlay. *)
Lemma env_str_default env k x d :
  let y := env_str env k x in
  let z := if is_empty (trim y) then d else y in
  env_str env k z = z.
Proof.
  cbn. unfold env_str. destruct (env_nonblank env k) as [t|] eqn:E; [|done]. cbn.
  apply env_nonblank_trim in E as [-> ->]. done.
Qed.

(** The overlay leaves a validated configuration as it is. *)
Lemma env_fixed env cfg c' :
  validate_and_derive env cfg = Ok c' -> apply_core_env_overrides env c' = c'.
Proof.
  unfold validate_and_derive. intros H.
  do 5 peel H. apply rbind_ok in H as (p & _ & H).
  apply rbind_ok in H as (sh & _ & H). apply rbind_ok in H as (sn & _ & H).
  apply rbind_ok in H as (l & _ & H). do 2 peel H.
  apply rbind_ok in H as (g & Hg & [= <-]).
  unfold apply_core_env_overrides. cbn. f_equal.
  - apply env_str_idem.
  - apply env_str_default.
  - apply env_clear_idem.
  - unfold env_sssd, derive_sssd, with_sssd_derived, normalize_sssd. cbn.
    by rewrite !env_str_idem2, !normalize_blank_env_some, !env_bool_idem.
  - apply env_some_idem.
  - unfold validate_ganesha_tuning in Hg. apply rbind_ok in Hg as (root & _ & Hg).
    do 5 peel Hg. simplify_eq. unfold env_ganesha, with_ganesha_core. cbn.
    by rewrite env_str_default, env_clear_idem.
  - apply env_clear_idem.
  - by destruct (host_nfs_from_env env).
  - unfold env_webui, normalize_webui. cbn. rewrite !normalize_blank_env_some.
    by destruct (env "NFS_KLLDAP_WEBUI_TLS").
Qed.

Lemma replace_go_solid from to k s :
  sall solid to = true -> sall solid s = true -> sall solid (replace_go from to k s) = true.
Proof.
  intros Hto. revert k. induction s as [|c s IH]; intros k; [done|].
  cbn [sall]. intros [Hc Hs]%andb_true_iff.
  cbn [replace_go]. destruct k as [|k]; [|by apply IH].
  destruct (starts_with from (String c s)).
  - rewrite sall_app, Hto. by apply IH.
  - cbn [sall]. rewrite Hc. by apply IH.
Qed.
Lemma sall_smap p f s : sall p (smap f s) = sall (fun c => p (f c)) s.
Proof. induction s as [|c s IH]; cbn; [done|]. by rewrite IH. Qed.
Lemma lower_solid s : sall solid s = true -> sall solid (to_ascii_lowercase s) = true.
Proof.
  unfold to_ascii_lowercase. rewrite sall_smap. apply sall_impl. intros c Hc.
  assert (forall c, implb (solid c) (solid (lower_char c)) = true) as H by by_bytes.
  specialize (H c). by rewrite Hc in H.
Qed.
Lemma base_dn_trim realm : sall solid realm = true -> trim (base_dn realm) = base_dn realm.
Proof.
  intros H. apply trim_all_solid. unfold base_dn. rewrite sall_app.
  cbn. by apply replace_go_solid, lower_solid.
Qed.

(** Tokens of the root-principal list survive printing and parsing. *)
Lemma token_trim t :
  t ∈ GANESHA_ROOT_KRB_PRINCIPAL_TOKENS ->
  contains_char "," t = false /\ contains_char "," (String " " t) = false
  /\ to_ascii_lowercase (trim t) = t /\ to_ascii_lowercase (trim (String " " t)) = t
  /\ is_empty t = false /\ starts_with " " t = false.
Proof.
  unfold GANESHA_ROOT_KRB_PRINCIPAL_TOKENS. rewrite !elem_of_cons, elem_of_nil.
  intros H. destruct_or! H; subst; try done; vm_compute; by split_and!.
Qed.
Lemma tokens_join_split t ts :
  Forall (fun t => t ∈ GANESHA_ROOT_KRB_PRINCIPAL_TOKENS) (t :: ts) ->
  split "," (join ", " (t :: ts)) = t :: map (String " ") ts.
Proof.
  revert t. induction ts as [|u ts IH]; intros t [Ht Hts]%Forall_cons.
  - by apply split_no_char, token_trim.
  - change (join ", " (t :: u :: ts)) with (t +:+ String "," (String " " (join ", " (u :: ts)))).
    rewrite split_app by by apply token_trim. f_equal.
    specialize (IH u Hts). unfold split in *. cbn [split_p]. rewrite IH. done.
Qed.
Lemma tokens_roundtrip ts :
  ts <> [] -> Forall (fun t => t ∈ GANESHA_ROOT_KRB_PRINCIPAL_TOKENS) ts ->
  root_principal_tokens (join ", " ts) = ts.
Proof.
  destruct ts as [|t ts]; [done|]. intros _ H. unfold root_principal_tokens.
  rewrite tokens_join_split by done. apply Forall_cons in H as [Ht Hts].
  cbn. destruct (token_trim t Ht) as (_ & _ & -> & _ & -> & _). cbn. f_equal.
  induction Hts as [|u ts Hu Hts IH]; [done|]. cbn.
  destruct (token_trim u Hu) as (_ & _ & _ & -> & -> & _). cbn. by f_equal.
Qed.

Lemma tokens_join_trim ts :
  ts <> [] -> Forall (fun t => t ∈ GANESHA_ROOT_KRB_PRINCIPAL_TOKENS) ts ->
  exists c r, join ", " ts = String c r /\ solid c = true
              /\ trim_end (join ", " ts) = join ", " ts.
Proof.
  induction ts as [|t ts IH]; [done|]. intros _ [Ht Hts]%Forall_cons.
  assert (exists c r, t = String c r /\ solid c = true /\ trim_end t = t) as (c & r & -> & Hc & Htt).
  { clear IH Hts. unfold GANESHA_ROOT_KRB_PRINCIPAL_TOKENS in Ht.
    rewrite !elem_of_cons, elem_of_nil in Ht.
    destruct_or! Ht; subst; try done; eexists _, _; by vm_compute. }
  destruct ts as [|u ts]; [by exists c, r|].
  destruct IH as (d & q & Hj & Hd & Htr); [done|done|].
  change (join ", " (String c r :: u :: ts))
    with (String c r +:+ String "," (String " " (join ", " (u :: ts)))).
  exists c, (r +:+ String "," (String " " (join ", " (u :: ts)))). split_and!; [done|done|].
  rewrite trim_end_solid by done. do 2 f_equal. rewrite Hj in *.
  change (String " " (String d q)) with (" " +:+ String d q).
  rewrite trim_end_solid by done. pose proof (trim_end_solid "" d q Hd) as Hq.
  rewrite !sapp_nil_l in Hq. rewrite Hq in Htr. by injection Htr as ->.
Qed.

Lemma root_principals_fixed field r :
  validate_root_principals field = Ok r -> validate_root_principals r = Ok r.
Proof.
  unfold validate_root_principals at 1. destruct (normalize_blank field) as [raw|];
    [|by intros [= <-]].
  destruct (root_principal_tokens raw) as [|t ts] eqn:E; [done|].
  intros (us & Hus & Hr)%rbind_ok.
  assert (Hts : Forall (fun t => t ∈ GANESHA_ROOT_KRB_PRINCIPAL_TOKENS) (t :: ts)).
  { apply traverse_ok in Hus. clear E Hr. induction Hus as [|x [] l us Hx Hus IH]; [done|].
    constructor; [|done]. apply bail_if_ok in Hx. by apply not_mem_false. }
  destruct (tokens_join_trim (t :: ts)) as (c & q & Hj & Hc & Htr); [done|done|].
  assert (Htrim : trim (join ", " (t :: ts)) = join ", " (t :: ts)).
  { apply trim_start_end; [|done]. rewrite Hj. by apply trim_start_solid. }
  assert (r = Some (join ", " (t :: ts))) as -> by congruence.
  assert (Hne : is_empty (join ", " (t :: ts)) = false) by (by rewrite Hj).
  unfold validate_root_principals, normalize_blank. rewrite Htrim, Hne.
  rewrite (tokens_roundtrip (t :: ts)) by done. by rewrite Hus.
Qed.

Lemma tuning_fixed g g' : validate_ganesha_tuning g = Ok g' -> validate_ganesha_tuning g' = Ok g'.
Proof.
  unfold validate_ganesha_tuning. intros H. apply rbind_ok in H as (root & Hroot & H).
  apply root_principals_fixed in Hroot. do 5 peel H. simplify_eq. cbn. rewrite Hroot. cbn.
  rewrite !(proj2 (check_opt_ok _ _ _)) by done. done.
Qed.

(** The loops leave well-formed, pairwise distinct shares as they are. *)
Lemma with_share_paths_id s :
  with_share_paths s (sh_container_path s) (sh_pseudo_path s) (sh_source_path s) = s.
Proof. by destruct s. Qed.

Lemma normalize_pseudo_fixed s :
  trim (sh_name s) = sh_name s -> trim (normalize_pseudo s) = normalize_pseudo s.
Proof.
  intros Hn.
  assert (Hslash : forall x, trim_end x = x -> trim ("/" +:+ x) = "/" +:+ x).
  { intros x Hx. apply trim_start_end; [by apply trim_start_solid|].
    change ("/" +:+ x) with ("" +:+ String "/" x). rewrite trim_end_solid by done.
    by rewrite Hx. }
  unfold normalize_pseudo. destruct (sh_pseudo_path s) as [v|].
  - destruct (is_empty (trim v)); [|destruct (starts_with "/" (trim v))].
    + apply Hslash. rewrite <- Hn. apply trim_trim_end.
    + apply trim_idem.
    + apply Hslash, trim_trim_end.
  - apply Hslash. rewrite <- Hn. apply trim_trim_end.
Qed.

(** A share that came out of the loops with a trimmed name goes through them
    unchanged. *)
Lemma share_refixed root a s b m s' seen :
  validate_share_fields a s = Ok (b, m) -> validate_share_paths root m = Ok s' ->
  trim (sh_name s') = sh_name s' -> sh_name s' ∉ seen ->
  validate_share_fields seen s' = Ok (seen ∪ {[sh_name s']}, s')
  /\ validate_share_paths root s' = Ok s'.
Proof.
  intros Hf Hp Hn Hseen. unfold validate_share_fields in Hf. do 9 peel Hf. simplify_eq.
  pose proof (normalize_pseudo_slash s) as Hsl.
  unfold validate_share_paths in Hp. do 3 peel Hp.
  apply rbind_ok in Hp as (src & Hsrc & [= <-]). cbn in *.
  pose proof (normalize_pseudo_fixed s Hn) as Hps.
  assert (Hsrc' : validate_source_path root (sh_name s) src = Ok src).
  { unfold validate_source_path in *. destruct (sh_source_path s) as [v|]; [|by simplify_eq].
    destruct (is_empty (trim v)) eqn:Ev; [by simplify_eq|]. do 2 peel Hsrc. simplify_eq.
    by rewrite trim_idem, Ev, Hc11, Hc12. }
  split.
  - unfold validate_share_fields. cbn. rewrite Hc, Hc1, bool_decide_eq_false_2 by done. cbn.
    rewrite !(proj2 (check_opt_ok _ _ _)) by done. cbn.
    unfold normalize_pseudo at 1. cbn. rewrite Hps, Hsl, trim_idem.
    destruct (normalize_pseudo s); done.
  - unfold validate_share_paths. cbn. rewrite Hc8, Hc9, Hc10. cbn. by rewrite Hsrc'.
Qed.

Lemma shares_refixed root raw sh :
  Forall2 (fun s s' => exists a b m, validate_share_fields a s = Ok (b, m)
                       /\ validate_share_paths root m = Ok s') raw sh ->
  NoDup (map sh_name sh) -> Forall (fun s => trim (sh_name s) = sh_name s) sh ->
  forall seen, (forall s, s ∈ sh -> sh_name s ∉ seen) ->
  (exists seen', loop validate_share_fields seen sh = Ok (seen', sh))
  /\ traverse (validate_share_paths root) sh = Ok sh.
Proof.
  induction 1 as [|s s' raw sh (a & b & m & Hf & Hp) Hb IH]; intros Hnd Htr seen Hseen.
  { split; [by eexists|done]. }
  apply NoDup_cons in Hnd as [Hn Hnd]. apply Forall_cons in Htr as [Ht Htr].
  destruct (share_refixed root a s b m s' seen Hf Hp Ht) as [H1 H2]; [apply Hseen; set_solver|].
  destruct (IH Hnd Htr (seen ∪ {[sh_name s']})) as [(seen' & Hl) Hv].
  { intros x Hx. rewrite not_elem_of_union, not_elem_of_singleton. split.
    - apply Hseen. set_solver.
    - intros Hxe. apply Hn. rewrite <- Hxe. by apply (list_elem_of_fmap_2 sh_name). }
  split; cbn.
  - rewrite H1. cbn. rewrite Hl. cbn. by eexists.
  - by rewrite H2, Hv.
Qed.

Lemma normalize_sssd_fixed uri realm s :
  sall solid realm = true ->
  let t := derive_sssd uri realm (normalize_sssd s) in
  normalize_sssd t = t /\ derive_sssd uri realm t = t.
Proof.
  intros Hr. pose proof (base_dn_trim realm Hr) as Hb.
  assert (Hne : is_empty (base_dn realm) = false) by done.
  assert (Hmain : forall o, exists x, trim x = x /\ is_empty x = false /\
    (match normalize_blank o with
     | Some v => if is_empty (trim v) then base_dn realm else v
     | None => base_dn realm end) = x).
  { intros o. destruct (normalize_blank o) as [v|] eqn:E; [|by exists (base_dn realm)].
    unfold normalize_blank in E. destruct o as [w|]; [|done].
    destruct (is_empty (trim w)) eqn:Ew; [done|]. injection E as <-. rewrite trim_idem, Ew.
    exists (trim w). by rewrite trim_idem. }
  assert (Hd : forall o x, trim x = x -> is_empty x = false ->
    normalize_blank (Some (default x (normalize_blank o))) = Some (default x (normalize_blank o))).
  { intros o x Hx Hxe. destruct o as [w|]; cbn; [|by rewrite Hx, Hxe].
    destruct (is_empty (trim w)) eqn:Ew; cbn; [by rewrite Hx, Hxe|]. by rewrite trim_idem, Ew. }
  destruct (Hmain (ss_ldap_search_base s)) as (x & Hx & Hxe & Hm).
  cbn. split.
  - unfold derive_sssd, normalize_sssd, with_sssd_derived. cbn [ss_port ss_ldap_search_base
      ss_ldap_user_search_base ss_ldap_group_search_base]. rewrite Hm.
    cbn -[normalize_blank]. by rewrite !Hd, !normalize_blank_idem by done.
  - unfold derive_sssd, with_sssd_derived. cbn. by rewrite Hm.
Qed.

Lemma webui_fixed env cfg c' :
  validate_and_derive env cfg = Ok c' -> normalize_webui (webui c') = webui c'.
Proof.
  unfold validate_and_derive. intros H. do 5 peel H.
  do 4 (apply rbind_ok in H as (? & _ & H)). do 2 peel H.
  apply rbind_ok in H as (? & _ & [= <-]). unfold normalize_webui. cbn.
  by rewrite !normalize_blank_idem.
Qed.
Lemma derive_realm_fixed env c c' :
  kerberos_realm c' = derive_realm env c -> is_Some (kerberos_realm c') ->
  derive_realm env c' = kerberos_realm c'.
Proof.
  intros H [r Hr]. unfold derive_realm at 1. rewrite Hr, <- Hr, H.
  unfold derive_realm. apply env_some_idem.
Qed.
Lemma sectype_nonblank x : x ∈ GANESHA_ALLOWED_SECTYPES -> is_empty (trim x) = false.
Proof.
  unfold GANESHA_ALLOWED_SECTYPES. rewrite !elem_of_cons, elem_of_nil.
  intros Hx. destruct_or! Hx; subst; done.
Qed.

(** Validation is a projection: a configuration that came out of
    [validate_and_derive] passes it again, in the same environment, and is
    returned unchanged, provided the realm and the share names carry no white
    space at their ends (they are the only fields validation does not trim). *)
Theorem validate_idempotent env cfg c' :
  validate_and_derive env cfg = Ok c' ->
  sall solid (effective_realm c') = true ->
  Forall (fun s => trim (sh_name s) = sh_name s) (shares c') ->
  validate_and_derive env c' = Ok c'.
Proof.
  intros H Hsolid Hnames. pose proof (env_fixed _ _ _ H) as Henv.
  pose proof H as Hfull.
  apply validate_inv in H as (Huri & Hip & Hrealm & Hre & Huri' & Hs & Hw & Hsec & Hroot
    & Hdn & Htok & (g0 & Hg) & (seen & mid & Hl & Ht) & (sn & Hu) & (pl & Hpol)).
  pose proof (webui_fixed _ _ _ Hfull) as Hwui.
  destruct (normalize_sssd_fixed (ldap_uri c') (effective_realm c') (sssd (apply_core_env_overrides env cfg)) Hsolid)
    as [Hs1 Hs2].
  rewrite <- Huri' in Hs. unfold effective_realm in Hs1, Hs2. cbv zeta in Hs1, Hs2.
  rewrite <- Hs in Hs1, Hs2.
  destruct (shares_built _ _ _ _ _ _ Hl Ht) as [Hb Hnd].
  destruct (shares_refixed _ _ _ Hb Hnd Hnames ∅) as [(seen2 & Hl2) Ht2]; [set_solver|].
  apply tuning_fixed in Hg.
  assert (Hdr : derive_realm env c' = kerberos_realm c').
  { apply (derive_realm_fixed _ _ _ Hre). by destruct (kerberos_realm c'). }
  pose proof (sectype_nonblank _ Hsec) as Hsec'.
  assert (Hroot' : is_empty (trim (storage_container_root c')) = false).
  { rewrite Hroot. destruct (is_empty (trim (storage_container_root _))) eqn:E; done. }
  rewrite <- Huri' in Huri, Hip.
  unfold validate_and_derive. rewrite Henv, Hwui, Hs1, Hdr, Hs2, Hsec', Hroot'.
  rewrite (proj2 (is_empty_false _) Huri). cbn [bail_if rbind].
  rewrite (proj2 (check_opt_ok _ _ _)) by (intros m Hm; apply Hw in Hm; lia). cbn [rbind].
  rewrite Hip, Hrealm, (proj2 (mem_elem _ _) Hsec). cbn [bail_if rbind negb].
  rewrite Hl2. cbn [rbind snd]. rewrite Ht2. cbn [rbind]. rewrite Hu. cbn [rbind].
  rewrite Hpol. cbn [rbind].
  rewrite (proj2 (is_empty_false _) Hdn), (proj2 (is_empty_false _) Htok). cbn [bail_if rbind].
  replace (with_ganesha_core _ _ _ _) with (ganesha c') by (by destruct (ganesha c')).
  rewrite Hg. cbn [rbind]. by destruct c'.
Qed.
Lemma validate_idempotent_witness :
  validate_and_derive no_env sample_validated = Ok sample_validated.
Proof.
  apply (validate_idempotent no_env sample_config sample_validated sample_valid);
    [vm_compute; reflexivity|].
  repeat constructor.
Defined.

(** The check of the container path is lexical: a path that leaves the
    container root through [..] passes it, and two spellings of one directory
    are two serve paths. *)
Example container_path_lexical :
  under_root "/export" "/export/../etc" = true
  /\ serve_path_for (with_share_paths movies_share "/export/a" None None)
     <> serve_path_for (with_share_paths movies_share "/export/a/" None None).
Proof. split; [reflexivity | discriminate]. Qed.
