(* ===== verification/FsProbe.v ===== *)
(** * File-system capability probe

    Models [fs_probe.rs]: the mountinfo parser, the resolution of a path to its
    mount, the layered ACL verdict and the export flags that follow from it.
    The text of mountinfo and the outcome of the [getfacl]/[setfacl] runs are
    arguments: reading [/proc] and running tools are outside the program. *)

From S2P Require Import Prelude RustStr Identity Config.

Record FsCapabilities := {
  fstype : string;
  mount_options : list string;
  acl_capable : bool;
}.
Record EffectiveShareFlags := {
  enable_acl : bool;
  manage_gids : bool;
  auto_applied : bool;
  auto_enabled : bool;
}.
Inductive AclProbeVerdict := Capable | Incapable | Inconclusive.
Record MountEntry := {
  me_mount_point : string;
  me_fstype : string;
  me_mount_source : string;
  me_super_options : list string;
}.
Record AclIncapableMount := { im_mount_point : string; im_fstype : string }.
Inductive ReadAccessPolicyEmit := Omit | Pre | Post.

#[export] Instance verdict_eq_dec : EqDecision AclProbeVerdict.
Proof. solve_decision. Defined.

(** ** Paths and mount points *)
Definition normalize_path (path : string) : string :=
  let trimmed := trim_end_matches "/" path in
  if is_empty trimmed then "/" else trimmed.

Definition path_under_mount (path mount_point : string) : bool :=
  if seqb path mount_point then true
  else if seqb mount_point "/" then starts_with "/" path
  else starts_with (mount_point +:+ "/") path.

Fixpoint position (p : string -> bool) (l : list string) : option nat :=
  match l with
  | [] => None
  | x :: r => if p x then Some 0 else S <$> position p r
  end.

Definition parse_mountinfo_line (line : string) : option MountEntry :=
  let parts := split_whitespace line in
  if length parts <? 10 then None
  else
    dash ← position (seqb "-") parts;
    if length parts <=? dash + 3 then None
    else
      mp ← parts !! 4;
      fs ← parts !! (dash + 1);
      src ← parts !! (dash + 2);
      Some {| me_mount_point := mp; me_fstype := fs; me_mount_source := src;
              me_super_options :=
                List.filter (fun s => negb (is_empty s))
                  (map trim (flat_map (split ",") (drop (dash + 3) parts))) |}.

Definition parse_mountinfo (content : string) : list MountEntry :=
  omap parse_mountinfo_line (lines content).

(** [max_by_key]: the last of the elements with the greatest key. *)
Definition max_by_key {A} (key : A -> nat) (l : list A) : option A :=
  foldl (fun best x => match best with
                       | Some b => if key b <=? key x then Some x else Some b
                       | None => Some x end) None l.

Definition mount_norm (e : MountEntry) : string := normalize_path (me_mount_point e).

Definition resolve_mount_for_path (entries : list MountEntry) (path : string)
  : option MountEntry :=
  let norm := normalize_path path in
  max_by_key (fun e => len (mount_norm e))
    (List.filter (fun e => path_under_mount norm (mount_norm e)) entries).

Definition acl_capable_from_mount (fs : string) (options : list string) (source : string)
  : bool :=
  if existsb (fun o => eq_ignore_ascii_case o "noacl") options then false
  else
    let f := to_ascii_lowercase fs in
    if mem f ["vfat"; "fat"; "msdos"; "exfat"] then false
    else if mem f ["ntfs"; "ntfs3"; "fuseblk"] then false
    else if contains_str "ntfs" (to_ascii_lowercase source) then false
    else true.

Definition probe_from_mountinfo_with_root (content path : string)
  : FsCapabilities * option string :=
  match resolve_mount_for_path (parse_mountinfo content) path with
  | Some e =>
      ({| fstype := me_fstype e; mount_options := me_super_options e;
          acl_capable := acl_capable_from_mount (me_fstype e) (me_super_options e)
                           (me_mount_source e) |},
       Some (me_mount_point e))
  | None =>
      ({| fstype := "unknown"; mount_options := []; acl_capable := false |}, None)
  end.
Definition probe_from_mountinfo (content path : string) : FsCapabilities :=
  fst (probe_from_mountinfo_with_root content path).

(** The snapshot: [None] when no mountinfo was readable. *)
Definition MountinfoSnapshot := option string.
Definition probe_with_root (s : MountinfoSnapshot) (path : string)
  : option (FsCapabilities * option string) :=
  (fun content => probe_from_mountinfo_with_root content path) <$> s.
Definition snapshot_probe (s : MountinfoSnapshot) (path : string) : option FsCapabilities :=
  fst <$> probe_with_root s path.

(** The [BTreeMap] of visible mounts: the last entry of each mount point. *)
Definition visible_mounts (entries : list MountEntry) : gmap string MountEntry :=
  foldl (fun m e => <[ mount_norm e := e ]> m) ∅ entries.
Definition acl_incapable_mounts_under (s : MountinfoSnapshot) (root : string)
  : list AclIncapableMount :=
  match s with
  | None => []
  | Some content =>
      let root_norm := normalize_path root in
      let visible := visible_mounts (parse_mountinfo content) in
      omap (fun mp =>
              e ← visible !! mp;
              if negb (seqb mp root_norm) && path_under_mount mp root_norm
                 && negb (acl_capable_from_mount (me_fstype e) (me_super_options e)
                            (me_mount_source e))
              then Some {| im_mount_point := mp; im_fstype := me_fstype e |}
              else None)
        (sort_dedup_s (map mount_norm (parse_mountinfo content)))
  end.

(** ** Probing by the ACL tools *)
(** One finished tool run; no value when it could not run or timed out. *)
Record ToolOut := { t_success : bool; t_stdout : string; t_stderr : string }.

Definition stderr_says_not_supported (stderr : string) : bool :=
  contains_str "not supported" (to_ascii_lowercase stderr).

(** [serve_path_posix_acl_supported], given the run of [getfacl -c]. *)
Definition serve_path_posix_acl_supported (getfacl : option ToolOut) : option bool :=
  out ← getfacl;
  if t_success out then Some true
  else if stderr_says_not_supported (t_stderr out) then Some false else None.

Definition write_probe_round_trip (setfacl getfacl : option ToolOut) : option bool :=
  set ← setfacl;
  if negb (t_success set) then
    if stderr_says_not_supported (t_stderr set) then Some false else None
  else
    get ← getfacl;
    if negb (t_success get) then None
    else if existsb (fun l => seqb (trim l) "user:0:rwx") (lines (t_stdout get))
    then Some true else None.

(** [serve_path_posix_acl_write_probe], given whether the probe file could be
    created. *)
Definition serve_path_posix_acl_write_probe (created : bool) (setfacl getfacl : option ToolOut)
  : option bool :=
  if created then write_probe_round_trip setfacl getfacl else None.

Definition acl_probe_verdict (caps : FsCapabilities) (write_probe read_sniff : option bool)
  : AclProbeVerdict :=
  if negb (acl_capable caps) then Incapable
  else match write_probe with
       | Some true => Capable
       | Some false => Incapable
       | None => match read_sniff with Some false => Incapable | _ => Inconclusive end
       end.

(** ** Export flags *)
Definition verdict_from_caps (caps : FsCapabilities) : AclProbeVerdict :=
  if acl_capable caps then Inconclusive else Incapable.

Definition compute_effective_flags_probed (share : Share) (caps : FsCapabilities)
    (verdict : AclProbeVerdict) : EffectiveShareFlags :=
  let acl := match sh_enable_acl share with
             | Some v => v
             | None => bool_decide (verdict = Capable)
             end in
  {| enable_acl := acl;
     manage_gids := default true (sh_manage_gids share);
     auto_applied := negb (acl_capable caps) && negb (is_some (sh_enable_acl share));
     auto_enabled := acl && negb (is_some (sh_enable_acl share)) |}.

Definition compute_effective_flags (share : Share) (caps : FsCapabilities)
  : EffectiveShareFlags :=
  compute_effective_flags_probed share caps (verdict_from_caps caps).

Definition compute_read_access_policy_emit (share : Share) (eff : EffectiveShareFlags)
  : ReadAccessPolicyEmit :=
  match sh_read_access_policy share with
  | Some raw =>
      if seqb (to_ascii_lowercase (trim raw)) "post"
      then (if enable_acl eff then Post else Pre)
      else Pre
  | None => if enable_acl eff then Omit else Pre
  end.

(** ** Resolution finds the innermost mount *)
Lemma max_by_key_spec {A} (key : A -> nat) (l : list A) :
  match max_by_key key l with
  | Some x => x ∈ l /\ (forall y, y ∈ l -> key y <= key x)
              /\ exists l1 l2, l = l1 ++ x :: l2 /\ (forall y, y ∈ l2 -> key y < key x)
  | None => l = []
  end.
Proof.
  unfold max_by_key. induction l as [|x l IH] using rev_ind; [done|].
  rewrite foldl_snoc. destruct (foldl _ None l) as [b|].
  - destruct IH as (Hb & Hmax & l1 & l2 & -> & Hl2). destruct (Nat.leb_spec (key b) (key x)).
    + split_and!; [set_solver| |].
      * intros y [Hy|Hy]%elem_of_app; [apply Hmax in Hy; lia | set_solver].
      * exists (l1 ++ b :: l2), []. split; [done|set_solver].
    + split_and!; [set_solver| |].
      * intros y [Hy|Hy]%elem_of_app; [by apply Hmax|]. apply list_elem_of_singleton in Hy as ->. lia.
      * exists l1, (l2 ++ [x]). split; [by rewrite <- app_assoc|].
        intros y [Hy|Hy]%elem_of_app; [auto|]. by apply list_elem_of_singleton in Hy as ->.
  - subst. cbn. split_and!; [set_solver|set_solver|]. exists [], []. split; [done|set_solver].
Qed.

(** A normalized path: [/], or no trailing slash. *)
Lemma normalize_path_cases p :
  normalize_path p = "/" \/ (normalize_path p <> "" /\ normalize_path p <> "/").
Proof.
  unfold normalize_path. destruct (is_empty (trim_end_matches "/" p)) eqn:E; [by left|].
  apply is_empty_false in E. destruct (decide (trim_end_matches "/" p = "/")); auto.
Qed.

(** Two mount points that cover one path: the longer is covered by the shorter. *)
Lemma prefix_nested a b ra rb :
  a +:+ ra = b +:+ rb -> len a <= len b -> exists r, b = a +:+ r.
Proof.
  revert b. induction a as [|c a IH]; intros b H Hlen; [by exists b|].
  destruct b as [|d b]; [cbn in Hlen; lia|]. rewrite !sapp_cons in H. injection H as -> H.
  destruct (IH b H) as [r ->]; [unfold len in *; cbn in Hlen; lia|]. by exists r.
Qed.
Lemma path_under_spec p m :
  path_under_mount p m = true <->
  p = m \/ (m = "/" /\ exists r, p = "/" +:+ r) \/ (m <> "/" /\ exists r, p = m +:+ "/" +:+ r).
Proof.
  unfold path_under_mount. destruct (seqb p m) eqn:E1; [apply seqb_eq in E1; naive_solver|].
  apply seqb_neq in E1. destruct (seqb m "/") eqn:E2.
  - apply seqb_eq in E2 as ->. rewrite starts_with_spec. naive_solver.
  - apply seqb_neq in E2. rewrite starts_with_spec. setoid_rewrite sapp_assoc. naive_solver.
Qed.
Lemma cover_nested p a b :
  path_under_mount p a = true -> path_under_mount p b = true ->
  a <> "" -> b <> "" -> len a <= len b -> path_under_mount b a = true.
Proof.
  rewrite !path_under_spec. intros Ha Hb Ha0 Hb0 Hlen.
  destruct Ha as [->|[[-> [ra Hra]]|[Ha1 [ra Hra]]]].
  - left. destruct Hb as [Hb|[[Hb [rb Hrb]]|[_ [rb Hrb]]]]; [done| |].
    + subst. rewrite len_app in Hlen. unfold len in Hlen.
      destruct rb; [by rewrite sapp_nil_r|cbn in Hlen; lia].
    + rewrite Hrb, !len_app in Hlen. unfold len in Hlen. cbn in Hlen. lia.
  - destruct Hb as [->|[[-> _]|[_ [rb Hrb]]]]; [right; left; eauto|by left|].
    right. left. split; [done|]. destruct b as [|c b]; [done|].
    rewrite Hra, sapp_cons in Hrb. injection Hrb as <- _. by exists b.
  - destruct Hb as [->|[[-> [rb Hrb]]|[_ [rb Hrb]]]]; [right; right; eauto| |].
    + exfalso. destruct a as [|c [|d a]]; [done| |unfold len in Hlen; cbn in Hlen; lia].
      rewrite Hra, sapp_cons in Hrb. by injection Hrb as ->.
    + rewrite Hra in Hrb. destruct (prefix_nested _ _ _ _ Hrb Hlen) as [t ->].
      rewrite sapp_assoc in Hrb. apply sapp_inj_l in Hrb.
      destruct t as [|c t]; [left; by rewrite sapp_nil_r|].
      rewrite sapp_cons in Hrb. injection Hrb as <- _. right. right. split; [done|]. by exists t.
Qed.

Lemma mount_norm_nonempty e : mount_norm e <> "".
Proof.
  unfold mount_norm. destruct (normalize_path_cases (me_mount_point e)) as [->|[? _]]; done.
Qed.

(** A path is resolved to the innermost mount that covers it: the entry
    returned covers the path, every other entry that covers the path covers
    the returned mount point too, and among entries of the same mount point
    (overmounts) it is the last one listed, the visible one.  No entry is
    returned only when none covers the path. *)
Theorem resolve_mount_innermost entries path :
  let norm := normalize_path path in
  match resolve_mount_for_path entries path with
  | Some r =>
      r ∈ entries /\ path_under_mount norm (mount_norm r) = true
      /\ (forall e, e ∈ entries -> path_under_mount norm (mount_norm e) = true ->
            path_under_mount (mount_norm r) (mount_norm e) = true)
      /\ exists before after, entries = before ++ r :: after
            /\ forall e, e ∈ after -> mount_norm e <> mount_norm r
  | None => forall e, e ∈ entries -> path_under_mount norm (mount_norm e) = false
  end.
Proof.
  intros norm. unfold resolve_mount_for_path. fold norm.
  set (cov := fun e => path_under_mount norm (mount_norm e)).
  pose proof (max_by_key_spec (fun e => len (mount_norm e)) (List.filter cov entries)) as H.
  destruct (max_by_key _ _) as [r|].
  - destruct H as (Hr & Hmax & l1 & l2 & Hsplit & Hl2).
    apply elem_of_filter_In in Hr as [Hre Hrc]. split_and!; [done|done| |].
    + intros e He Hc. apply (cover_nested norm); auto using mount_norm_nonempty.
      by apply Hmax, elem_of_filter_In.
    + destruct (filter_split _ _ _ _ _ Hsplit) as (b & a & -> & <-).
      exists b, a. split; [done|]. intros e He Heq.
      assert (e ∈ List.filter cov a) as He2.
      { apply elem_of_filter_In. split; [done|]. unfold cov. by rewrite Heq. }
      apply Hl2 in He2. rewrite Heq in He2. lia.
  - intros e He. destruct (path_under_mount norm (mount_norm e)) eqn:E; [|done].
    assert (e ∈ List.filter cov entries) as Hf by (by apply elem_of_filter_In).
    rewrite H in Hf. by apply elem_of_nil in Hf.
Qed.

(** An export gets ACLs exactly when the operator asked for them or, in auto
    mode, when the mount is not on the denylist and a named ACL entry was
    written to the file system and read back.  Nothing less (a readable ACL, an
    inconclusive probe, a missing tool) turns auto mode on, and the [post] read
    policy is only emitted for an ACL export. *)
Theorem auto_acl_needs_write_proof share caps created setfacl getfacl sniff :
  let verdict := acl_probe_verdict caps
                   (serve_path_posix_acl_write_probe created setfacl getfacl)
                   (serve_path_posix_acl_supported sniff) in
  let eff := compute_effective_flags_probed share caps verdict in
  (enable_acl eff = true <->
     sh_enable_acl share = Some true
     \/ (sh_enable_acl share = None /\ acl_capable caps = true /\ created = true
         /\ exists set get, setfacl = Some set /\ t_success set = true
              /\ getfacl = Some get /\ t_success get = true
              /\ exists l, l ∈ lines (t_stdout get) /\ trim l = "user:0:rwx"))
  /\ (compute_read_access_policy_emit share eff = Post -> enable_acl eff = true)
  /\ (compute_read_access_policy_emit share eff = Omit -> enable_acl eff = true).
Proof.
  cbn zeta. split; [|split].
  - cbn. destruct (sh_enable_acl share) as [b|]; [destruct b; naive_solver|].
    rewrite bool_decide_eq_true. unfold acl_probe_verdict, serve_path_posix_acl_write_probe.
    split.
    + intros H. right. destruct (acl_capable caps); [|done]. cbn in H.
      destruct created; [|by repeat case_match].
      unfold write_probe_round_trip in H. destruct setfacl as [set|]; [|by repeat case_match].
      cbn in H. destruct (t_success set) eqn:Es; cbn in H; [|by repeat case_match].
      destruct getfacl as [get|]; [|by repeat case_match]. cbn in H.
      destruct (t_success get) eqn:Eg; cbn in H; [|by repeat case_match].
      destruct (existsb _ _) eqn:El; [|by repeat case_match].
      apply existsb_exists in El as (l & Hl & Ht%seqb_eq). rewrite <- list_elem_of_In in Hl.
      split_and!; try done. exists set, get. eauto 10.
    + intros [?|(_ & -> & -> & set & get & -> & Hs & -> & Hg & l & Hl & Ht)]; [done|].
      unfold write_probe_round_trip. cbn. rewrite Hs. cbn. rewrite Hg. cbn.
      rewrite (proj2 (existsb_exists _ _)); [done|]. exists l.
      by rewrite <- list_elem_of_In, Ht.
  - unfold compute_read_access_policy_emit. by repeat case_match.
  - unfold compute_read_access_policy_emit. by repeat case_match.
Qed.

(** ** Mount points below a share root *)
Lemma visible_mounts_last entries mp e :
  visible_mounts entries !! mp = Some e ->
  mount_norm e = mp /\ exists b a, entries = b ++ e :: a /\ forall x, x ∈ a -> mount_norm x <> mp.
Proof.
  unfold visible_mounts. induction entries as [|x l IH] using rev_ind; [done|].
  rewrite foldl_snoc. destruct (decide (mount_norm x = mp)) as [<-|Hne].
  - rewrite lookup_insert_eq. intros [= ->]. split; [done|]. exists l, []. set_solver.
  - rewrite lookup_insert_ne by done. intros (Hmp & b & a & -> & Ha)%IH. split; [done|].
    exists b, (a ++ [x]). split; [by rewrite <- app_assoc|]. set_solver.
Qed.

(** The mounts reported below a share root are below it and are not the
    root itself, each is the visible (last listed) mount of its mount point,
    cannot store POSIX ACLs, and is reported once, in path order; every such
    visible mount is reported. *)
Theorem acl_incapable_mounts_exact content root :
  let entries := parse_mountinfo content in
  let r := normalize_path root in
  let found := acl_incapable_mounts_under (Some content) root in
  (forall m, m ∈ found <->
     exists e, visible_mounts entries !! im_mount_point m = Some e
       /\ im_fstype m = me_fstype e
       /\ im_mount_point m <> r /\ path_under_mount (im_mount_point m) r = true
       /\ acl_capable_from_mount (me_fstype e) (me_super_options e) (me_mount_source e) = false)
  /\ StronglySorted (fun a b => sleb a b = true /\ a <> b) (map im_mount_point found).
Proof.
  cbn. split.
  - intros m. rewrite list_elem_of_omap. split.
    + intros (mp & _ & Hm). destruct (visible_mounts _ !! mp) as [e|] eqn:He; [|done]. cbn in Hm.
      destruct (seqb mp (normalize_path root)) eqn:E1; [done|].
      destruct (path_under_mount mp (normalize_path root)) eqn:E2; [|done].
      destruct (acl_capable_from_mount _ _ _) eqn:E3; [done|]. cbn in Hm. simplify_eq. cbn.
      exists e. split_and!; try done. by apply seqb_neq.
    + intros (e & He & Hf & Hne & Hu & Hc). exists (im_mount_point m).
      apply seqb_neq in Hne. rewrite He. cbn. rewrite Hne, Hu, Hc. cbn. split.
      * apply elem_of_sort_dedup_s.
        apply visible_mounts_last in He as (<- & b & a & -> & _).
        apply list_elem_of_fmap. exists e. set_solver.
      * rewrite <- Hf. by destruct m.
  - apply omap_sorted; [|apply sort_dedup_s_strict].
    intros mp m Hm. destruct (visible_mounts _ !! mp); [|done]. cbn in Hm.
    case_match; by simplify_eq.
Qed.

(** ** Escaped mount points *)

(** The kernel writes a space of a mount point as [\040] in mountinfo, and the
    parser keeps the field as it is. *)
Definition escaped_mountinfo : string :=
  "25 1 8:1 / / rw,relatime shared:1 - ext4 /dev/sda1 rw" +:+ String nl
  "36 25 8:17 / /export/My\040Disk rw,relatime shared:2 - vfat /dev/sdb1 rw,noacl".

(** Mountinfo escapes are not decoded: a share on a mount whose path holds a
    space is resolved to the enclosing mount, so a VFAT disk mounted with
    [noacl] is reported as an ACL-capable ext4. *)
Theorem escaped_mount_point_missed :
  probe_from_mountinfo_with_root escaped_mountinfo "/export/My Disk"
  = ({| fstype := "ext4"; mount_options := ["rw"]; acl_capable := true |}, Some "/")
  /\ acl_capable (probe_from_mountinfo escaped_mountinfo "/export/My\040Disk") = false.
Proof. split; vm_compute; reflexivity. Qed.
