(* ===== verification/Generate.v ===== *)
(** * Generated artifacts: export fragments and mDNS adverts

    Models [generate/directives.rs], [generate/fragments.rs] and
    [generate/avahi.rs] and the selection of values in [write_ganesha_main]; the
    other files and [generate_all] are in [Templates].  A directory is a finite map from
    file names to contents; which writes and removals fail is an argument, and
    every writer returns the directory it leaves behind even when it fails.
    The alphanumeric test on non-ASCII characters is the standard library's
    Unicode table, a parameter of the section. *)

From S2P Require Import Prelude RustStr Identity Config FsProbe.

Definition nls : string := String nl "".
Definition dq : string := String "034"%char "".

(** ** UTF-8 characters of a string: a byte of 128 and more followed by
    continuation bytes is one character. *)
Definition is_cont (c : Ascii.ascii) : bool := in_range 128 191 c.
Fixpoint utf8_chars (s : string) : list string :=
  match s with
  | "" => []
  | String c r =>
      match utf8_chars r with
      | String d t :: rest =>
          if is_cont d && negb (is_ascii c) then String c (String d t) :: rest
          else String c "" :: String d t :: rest
      | rest => String c "" :: rest
      end
  end.

Section Names.
Context (unicode_alnum : string -> bool).

Definition sanitize_char (ch : string) : string :=
  match ch with
  | String c "" =>
      if is_ascii c then
        if is_ascii_alphanumeric c || ceqb c "-" || ceqb c "_" then ch else "-"
      else if unicode_alnum ch then ch else "-"
  | _ => if unicode_alnum ch then ch else "-"
  end.
Definition sanitize_name (s : string) : string :=
  foldr (fun ch acc => sanitize_char ch +:+ acc) "" (utf8_chars s).

Definition fragment_basename (index : nat) (name : string) : string :=
  dec02 (Z.of_nat index + 10) +:+ "-" +:+ sanitize_name name +:+ ".conf".
End Names.

(** [derive_export_id]: a 32-bit hash folded into the range above [base]. *)
Definition fnv_step (h : Z) (b : Ascii.ascii) : Z :=
  Z.lxor (wrap 32 (h * 16777619)) (Z.of_N (byte b)).
Definition derive_export_id (name : string) (base : Z) : Z :=
  let h := foldl fnv_step 0x811c9dc5%Z (bytes name) in
  let span := Z.min 55000 (Z.max (Z.max 0 (u16_max - base)) 1) in
  wrap 16 (base + h mod span)%Z.

Definition export_pseudo_line (pseudo : string) : string :=
  "    Pseudo = " +:+ pseudo +:+ ";" +:+ nls.

Definition export_read_access_line (share : Share) (eff : EffectiveShareFlags) : string :=
  match compute_read_access_policy_emit share eff with
  | Omit => ""
  | Pre => "    Read_Access_Check_Policy = pre;" +:+ nls
  | Post => "    Read_Access_Check_Policy = post;" +:+ nls
  end.

(** The four pieces: Disable_ACL, Manage_Gids, Umask (always empty), comment. *)
Definition export_fs_directives (caps : FsCapabilities) (eff : EffectiveShareFlags)
  : string * string * string * string :=
  let manage_gids_line :=
    if manage_gids eff then "    Manage_Gids = true;" +:+ nls
    else "    Manage_Gids = false;" +:+ nls in
  let '(disable_acl_line, auto_comment) :=
    if negb (enable_acl eff) then
      let opts := match mount_options caps with
                  | [] => ""
                  | l => " (" +:+ join "," l +:+ ")" end in
      ("    Disable_ACL = true;" +:+ nls,
       if auto_applied eff then
         "# Auto-detected: " +:+ fstype caps +:+ opts +:+
         " — cannot store POSIX ACLs. The 9.13 VFS backend
# fetches ACLs on every attribute refresh, so exports on this filesystem are
# expected to fail attribute fetches regardless of Disable_ACL; stage onto an
# ACL-capable serve tree. See docs/ganesha-architecture.md#acl-and-filesystem-compatibility
"
       else "")
    else
      ("    Disable_ACL = false;" +:+ nls,
       if auto_enabled eff then
         "# Auto-enabled: enable_acl unset and the ACL write probe passed on " +:+ fstype caps +:+
         ".
# See docs/ganesha-architecture.md#acl-and-filesystem-compatibility
"
       else "") in
  (disable_acl_line, manage_gids_line, "", auto_comment).

(** ** Export fragments *)
Inductive GenError :=
| AclRefused (share path fs : string)
| UmaskRetired (share : string)
| GenIo (file : string).

(** What the world answers during generation: the mountinfo text read once, the
    fallback probe used when none was readable, and per path the outcome of
    the write probe and of the read sniff. *)
Record ProbeWorld := {
  mountinfo_once : option string;
  probe_fallback : string -> option FsCapabilities;
  write_probe : string -> option bool;
  read_sniff : string -> option bool;
}.

Definition unknown_caps : FsCapabilities :=
  {| fstype := "unknown"; mount_options := []; acl_capable := false |}.
Definition share_caps (w : ProbeWorld) (path : string) : FsCapabilities :=
  match mountinfo_once w with
  | Some c => probe_from_mountinfo c path
  | None => default unknown_caps (probe_fallback w path)
  end.
Definition share_verdict (w : ProbeWorld) (share : Share) (caps : FsCapabilities) (path : string)
  : AclProbeVerdict :=
  match sh_enable_acl share with
  | Some false => verdict_from_caps caps
  | _ => acl_probe_verdict caps (write_probe w path) (read_sniff w path)
  end.

Definition GANESHA_DEFAULT_SQUASH : string := "root_squash".
Definition GANESHA_PROTOCOLS : string := "4".

Definition base_sec (cfg : NfsKlldapConfig) (share : Share) : string :=
  default (ga_default_security (ganesha cfg)) (sh_security share).
Definition share_sectype (cfg : NfsKlldapConfig) (share : Share) : string :=
  let b := base_sec cfg share in
  if share_navahi_effective cfg share
     && negb (existsb (fun s => seqb (trim s) "sys") (split "," b))
  then b +:+ ", sys" else b.
Definition share_prefs (share : Share) : option Z * option Z :=
  match sh_cache_profile share with
  | Some cp => match resolve_cache_profile cp with
               | Some (r, w) => (Some r, Some w)
               | None => (sh_pref_read share, sh_pref_write share)
               end
  | None => (sh_pref_read share, sh_pref_write share)
  end.
Definition opt_line (key : string) (v : option Z) : string :=
  match v with
  | Some n => "    " +:+ key +:+ " = " +:+ dec n +:+ ";" +:+ nls
  | None => ""
  end.
(** [1000 + (i as u16 * 10)], in 16-bit arithmetic. *)
Definition export_id_base (i : nat) : Z :=
  wrap 16 (1000 + wrap 16 (wrap 16 (Z.of_nat i) * 10))%Z.

Definition export_block (cfg : NfsKlldapConfig) (i : nat) (share : Share)
    (caps : FsCapabilities) (eff : EffectiveShareFlags) : string :=
  let navahi := share_navahi_effective cfg share in
  let path := serve_path_for share in
  let access := if default true (sh_rw share) then "RW" else "RO" in
  let squash := default GANESHA_DEFAULT_SQUASH (sh_squash share) in
  let '(disable_acl_line, manage_gids_line, umask_line, auto) := export_fs_directives caps eff in
  let auto_comment :=
    if navahi then auto +:+
      "# Navahi: advertised via mDNS; NFSv3 + AUTH_SYS click-mount enabled (navahi_discovery + navahi_insecure)."
      +:+ nls
    else auto in
  let client_proto := if navahi then "3,4" else GANESHA_PROTOCOLS in
  "# Generated from nfs-klldap.conf share " +:+ dq +:+ sh_name share +:+ dq +:+ nls
  +:+ auto_comment +:+ "EXPORT {
    Export_Id = " +:+ dec (derive_export_id (sh_name share) (export_id_base i)) +:+ ";
    Path = " +:+ path +:+ ";
" +:+ export_pseudo_line (derive_share_pseudo share)
  +:+ (if navahi then "    Protocols = 3,4;" +:+ nls else "")
  +:+ disable_acl_line +:+ "    SecType = " +:+ share_sectype cfg share +:+ ";
    Squash = " +:+ squash +:+ ";
" +:+ manage_gids_line +:+ export_read_access_line share eff
  +:+ opt_line "PrefRead" (fst (share_prefs share))
  +:+ opt_line "PrefWrite" (snd (share_prefs share))
  +:+ opt_line "Attr_Expiration_Time" (sh_attr_expiration_secs share)
  +:+ "
    CLIENT {
        Clients = *;
        Access_Type = " +:+ access +:+ ";
        Protocols = " +:+ client_proto +:+ ";
    }

    FSAL {
        Name = VFS;
" +:+ umask_line +:+ "    }
}
".

(** A directory, and the file operations that fail. *)
Abbreviation Dir := (gmap string string).
Record IoWorld := { write_fails : string -> bool; remove_fails : string -> bool }.

(** The write loop: stops at the first failing [atomic_write]. *)
Fixpoint write_staged (io : IoWorld) (staged : list (string * string)) (d : Dir)
  : result unit GenError * Dir :=
  match staged with
  | [] => (Ok tt, d)
  | (f, b) :: r =>
      if write_fails io f then (Err (GenIo f), d)
      else write_staged io r (<[ f := b ]> d)
  end.

(** The prune loop: files not just written that follow the managed naming rule
    are removed; a failed removal is ignored. *)
Definition prune (io : IoWorld) (managed : string -> bool) (written : gset string) (d : Dir)
  : Dir :=
  filter (fun kv => kv.1 ∈ written \/ managed kv.1 = false \/ remove_fails io kv.1 = true) d.

Definition managed_fragment (name : string) : bool :=
  ends_with ".conf" name && (7 <=? len name) &&
  match name with
  | String a (String b (String c _)) => is_ascii_digit a && is_ascii_digit b && ceqb c "-"
  | _ => false
  end.

Section Fragments.
Context (unicode_alnum : string -> bool).

Definition stage_share (w : ProbeWorld) (cfg : NfsKlldapConfig) (i : nat) (share : Share)
  : result (string * string) GenError :=
  let path := serve_path_for share in
  let caps := share_caps w path in
  let verdict := share_verdict w share caps path in
  let eff := compute_effective_flags_probed share caps verdict in
  bail_if (match sh_enable_acl share with Some true => bool_decide (verdict = Incapable) | _ => false end)
    (AclRefused (sh_name share) path (fstype caps)) ?;;
  bail_if (is_some (sh_umask share)) (UmaskRetired (sh_name share)) ?;;
  Ok (fragment_basename unicode_alnum i (sh_name share), export_block cfg i share caps eff).

Fixpoint stage_shares (w : ProbeWorld) (cfg : NfsKlldapConfig) (i : nat) (l : list Share)
  : result (list (string * string)) GenError :=
  match l with
  | [] => Ok []
  | s :: r =>
      x <-? stage_share w cfg i s ;; xs <-? stage_shares w cfg (S i) r ;; Ok (x :: xs)
  end.

Definition write_export_fragments (w : ProbeWorld) (io : IoWorld) (cfg : NfsKlldapConfig) (d : Dir)
  : result unit GenError * Dir :=
  match stage_shares w cfg 0 (shares cfg) with
  | Err e => (Err e, d)
  | Ok staged =>
      match write_staged io staged d with
      | (Err e, d') => (Err e, d')
      | (Ok _, d') => (Ok tt, prune io managed_fragment (list_to_set (map fst staged)) d')
      end
  end.
End Fragments.

(** ** mDNS adverts *)
Definition NAVAHI_PREFIX : string := "nfs-klldap-".
Definition xml_escape_char (c : Ascii.ascii) : string :=
  if ceqb c "&" then "&amp;"
  else if ceqb c "<" then "&lt;"
  else if ceqb c ">" then "&gt;"
  else if ceqb c "034" then "&quot;"
  else if ceqb c "'" then "&apos;"
  else String c "".
Fixpoint xml_escape (s : string) : string :=
  match s with
  | "" => ""
  | String c r => xml_escape_char c +:+ xml_escape r
  end.

Definition advert_xml (host : string) (share : Share) : string :=
  let name_esc := xml_escape (sh_name share) in
  let host_line :=
    if contains_char "." host
    then "    <host-name>" +:+ xml_escape host +:+ "</host-name>" +:+ nls else "" in
  "<?xml version=" +:+ dq +:+ "1.0" +:+ dq +:+ " standalone='no'?>
<!DOCTYPE service-group SYSTEM " +:+ dq +:+ "avahi-service.dtd" +:+ dq +:+ ">
<!-- Generated from nfs-klldap.conf share " +:+ dq +:+ name_esc +:+ dq
  +:+ "; edits are overwritten. -->
<service-group>
  <name replace-wildcards=" +:+ dq +:+ "yes" +:+ dq +:+ ">" +:+ name_esc +:+ " on %h</name>
  <service>
    <type>_nfs._tcp</type>
" +:+ host_line +:+ "    <port>2049</port>
    <txt-record>path=" +:+ xml_escape (derive_share_pseudo share) +:+ "</txt-record>
  </service>
</service-group>
".

Definition managed_advert (name : string) : bool :=
  starts_with NAVAHI_PREFIX name && ends_with ".service" name.

Section Adverts.
Context (unicode_alnum : string -> bool).

Definition advert_file (share : Share) : string :=
  NAVAHI_PREFIX +:+ sanitize_name unicode_alnum (sh_name share) +:+ ".service".
Definition stage_adverts (cfg : NfsKlldapConfig) (host : string) : list (string * string) :=
  map (fun s => (advert_file s, advert_xml host s))
    (List.filter (share_navahi_effective cfg) (shares cfg)).

(** [None] is a directory that does not exist; [host] is the preferred name of
    the server's identity. *)
Definition write_avahi_services (io : IoWorld) (cfg : NfsKlldapConfig) (host : string)
    (d : option Dir) : result unit GenError * option Dir :=
  match navahi_discovery cfg, d with
  | false, None => (Ok tt, None)
  | _, _ =>
      let d0 := default ∅ d in
      let staged := stage_adverts cfg host in
      match write_staged io staged d0 with
      | (Err e, d') => (Err e, Some d')
      | (Ok _, d') => (Ok tt, Some (prune io managed_advert (list_to_set (map fst staged)) d'))
      end
  end.
End Adverts.

(** ** Values of the main Ganesha configuration *)
Definition GANESHA_IDMAPPED_VALIDITY_SECS : Z := 180.
Definition min_opt (l : list Z) : option Z :=
  foldr (fun x acc => Some (match acc with Some y => Z.min x y | None => x end)) None l.
(** [idmapped_validity_secs], else the manage-gids seeds clamped to 32 bits. *)
Definition idmap_validity (cfg : NfsKlldapConfig) : Z :=
  match ga_idmapped_validity_secs (ganesha cfg) with
  | Some v => v
  | None =>
      match (match ga_manage_gids_expiration_secs (ganesha cfg) with
             | Some v => Some v
             | None => min_opt (omap sh_manage_gids_expiration (shares cfg))
             end) with
      | Some v => if (v <=? u32_max)%Z then v else u32_max
      | None => GANESHA_IDMAPPED_VALIDITY_SECS
      end
  end.
Definition GANESHA_ROOT_KRB_PRINCIPALS : string := "nfs, root".
Definition root_krb (cfg : NfsKlldapConfig) : string :=
  default GANESHA_ROOT_KRB_PRINCIPALS (ga_root_kerberos_principals (ganesha cfg)).
Definition core_proto (cfg : NfsKlldapConfig) : string :=
  if navahi_discovery cfg then "3,4" else GANESHA_PROTOCOLS.
(** The [%include] lines: one per share, by the name of its fragment. *)
Fixpoint include_lines (unicode_alnum : string -> bool) (exports_dir : string) (i : nat)
    (l : list Share) : list string :=
  match l with
  | [] => []
  | s :: r =>
      ("%include " +:+ exports_dir +:+ "/" +:+ fragment_basename unicode_alnum i (sh_name s) +:+ nls)
      :: include_lines unicode_alnum exports_dir (S i) r
  end.

(** ** Names of generated files *)
Section NameLemmas.
Context (ua : string -> bool).

Lemma utf8_chars_pieces s ch :
  ch ∈ utf8_chars s ->
  (exists c, ch = String c "") \/ sall (fun c => negb (is_ascii c)) ch = true.
Proof.
  revert ch. induction s as [|c s IH]; intros ch; cbn; [by intros ?%elem_of_nil|].
  destruct (utf8_chars s) as [|[|d t] rest].
  - intros ->%list_elem_of_singleton. left. by eexists.
  - intros [->|H]%elem_of_cons; [left; by eexists | by apply IH].
  - destruct (is_cont d && negb (is_ascii c)) eqn:E.
    + apply andb_true_iff in E as [Ed Ec]. intros [->|H]%elem_of_cons; [|apply IH; by right].
      right. cbn. rewrite Ec. cbn.
      assert (Hd : is_ascii d = false).
      { assert (forall x, implb (is_cont x) (negb (is_ascii x)) = true) as Hx by by_bytes.
        specialize (Hx d). rewrite Ed in Hx. cbn in Hx. by apply negb_true_iff. }
      destruct (IH (String d t)) as [[x [= -> ->]]|Ht]; [by left|by rewrite Hd|by cbn in Ht].
    + intros [->|H]%elem_of_cons; [left; by eexists | by apply IH].
Qed.

(** A sanitized name holds no ASCII byte but letters, digits, [-] and [_]. *)
Definition safe_byte (c : Ascii.ascii) : bool :=
  negb (is_ascii c) || is_ascii_alphanumeric c || ceqb c "-" || ceqb c "_".

Lemma sanitize_char_safe s ch : ch ∈ utf8_chars s -> sall safe_byte (sanitize_char ua ch) = true.
Proof.
  intros [[c ->]|H]%utf8_chars_pieces; unfold sanitize_char.
  - destruct (is_ascii c) eqn:Ea.
    + destruct (is_ascii_alphanumeric c || ceqb c "-" || ceqb c "_") eqn:E; [|done].
      cbn. unfold safe_byte. rewrite <- !orb_assoc in *. by rewrite E, orb_true_r.
    + destruct (ua (String c "")); [|done]. cbn. unfold safe_byte. by rewrite Ea.
  - assert (sall safe_byte ch = true).
    { revert H. apply sall_impl. intros c Hc. unfold safe_byte. by rewrite Hc. }
    destruct ch as [|c [|d r]]; repeat case_match; done.
Qed.
Lemma sanitize_name_safe s : sall safe_byte (sanitize_name ua s) = true.
Proof.
  unfold sanitize_name. pose proof (sanitize_char_safe s) as H.
  induction (utf8_chars s) as [|ch l IH]; cbn; [done|].
  rewrite sall_app, H by set_solver. apply IH. set_solver.
Qed.

Lemma dec02_digits n : (10 <= n)%Z -> dec02 n = dec n.
Proof. intros H. unfold dec02. by rewrite (proj2 (Z.ltb_ge _ _)). Qed.

Lemma fragment_basename_split i n :
  split_once "-" (fragment_basename ua i n)
  = Some (dec (Z.of_nat i + 10), sanitize_name ua n +:+ ".conf").
Proof.
  unfold fragment_basename. rewrite dec02_digits by lia. apply split_once_app.
  apply dec_no_char; [lia|done].
Qed.
Lemma fragment_basename_inj i j n m :
  fragment_basename ua i n = fragment_basename ua j m -> i = j.
Proof.
  intros H. pose proof (fragment_basename_split i n) as Hi. rewrite H in Hi.
  rewrite fragment_basename_split in Hi. injection Hi as Hd _.
  apply dec_inj in Hd; lia.
Qed.
Lemma fragment_basename_no_slash i n : contains_char "/" (fragment_basename ua i n) = false.
Proof.
  unfold fragment_basename. rewrite dec02_digits, !contains_char_app by lia.
  rewrite dec_no_char by (done || lia).
  rewrite (sall_no_char safe_byte _ (sanitize_name ua n)) by (done || apply sanitize_name_safe).
  done.
Qed.
End NameLemmas.

(** ** Writers *)
Definition apply_writes (staged : list (string * string)) (d : Dir) : Dir :=
  foldl (fun d fb => <[ fb.1 := fb.2 ]> d) d staged.

Lemma write_staged_ok io staged d d' :
  write_staged io staged d = (Ok tt, d') -> d' = apply_writes staged d.
Proof.
  revert d. induction staged as [|[f b] r IH]; intros d; cbn; [by intros [= ->]|].
  destruct (write_fails io f); [done|]. apply IH.
Qed.
(** A failed run wrote a prefix of the staged list. *)
Lemma write_staged_err io staged d e d' :
  write_staged io staged d = (Err e, d') ->
  exists done rest, staged = done ++ rest /\ d' = apply_writes done d.
Proof.
  revert d. induction staged as [|[f b] r IH]; intros d; cbn; [done|].
  destruct (write_fails io f); [intros [= <- <-]; by exists [], ((f, b) :: r)|].
  intros (dn & rest & -> & ->)%IH. by exists ((f, b) :: dn), rest.
Qed.
Lemma write_staged_total io staged d :
  (forall f, write_fails io f = false) -> write_staged io staged d = (Ok tt, apply_writes staged d).
Proof.
  intros H. revert d. induction staged as [|[f b] r IH]; intros d; cbn; [done|].
  by rewrite H, IH.
Qed.

(** Without duplicate names, writing is overlaying the staged map. *)
Lemma apply_writes_lookup staged d f :
  NoDup (map fst staged) ->
  apply_writes staged d !! f
  = match (list_to_map staged : Dir) !! f with Some b => Some b | None => d !! f end.
Proof.
  unfold apply_writes. revert d. induction staged as [|[g b] r IH]; intros d Hnd; [done|].
  cbn [foldl fst snd]. apply NoDup_cons in Hnd as [Hg Hnd].
  rewrite IH by done.
  change (list_to_map ((g, b) :: r) : Dir) with (<[ g := b ]> (list_to_map r : Dir)).
  destruct (decide (f = g)) as [->|Hne].
  - rewrite (not_elem_of_list_to_map_1 r g) by done. by rewrite !lookup_insert_eq.
  - by rewrite !lookup_insert_ne by done.
Qed.
(** In general the last write of a name wins, and other names are untouched. *)
Lemma apply_writes_last staged d f :
  apply_writes staged d !! f
  = match (list_to_map (rev staged) : Dir) !! f with Some b => Some b | None => d !! f end.
Proof.
  unfold apply_writes. induction staged as [|[g b] r IH] using rev_ind; [done|].
  rewrite foldl_snoc, rev_unit. cbn [fst snd].
  change (list_to_map ((g, b) :: rev r) : Dir) with (<[ g := b ]> (list_to_map (rev r) : Dir)).
  destruct (decide (f = g)) as [->|Hne]; [by rewrite !lookup_insert_eq|]. by rewrite !lookup_insert_ne.
Qed.
Lemma apply_writes_frame staged d f : f ∉ map fst staged -> apply_writes staged d !! f = d !! f.
Proof.
  unfold apply_writes. revert d. induction staged as [|[g b] r IH]; intros d Hf; [done|].
  cbn in *. rewrite IH by set_solver. apply lookup_insert_ne. set_solver.
Qed.
Lemma apply_writes_in staged d f :
  f ∈ map fst staged -> exists b, (f, b) ∈ staged /\ apply_writes staged d !! f = Some b.
Proof.
  unfold apply_writes. induction staged as [|[g b] r IH] using rev_ind; [by intros ?%elem_of_nil|].
  rewrite map_app, elem_of_app, foldl_snoc. cbn. intros Hf.
  destruct (decide (f = g)) as [->|Hne].
  - exists b. rewrite lookup_insert_eq. set_solver.
  - destruct IH as (b' & Hb' & Hl); [set_solver|]. exists b'.
    rewrite lookup_insert_ne by done. split; [set_solver|done].
Qed.

Lemma prune_lookup io managed written d f :
  prune io managed written d !! f
  = if bool_decide (f ∈ written) || negb (managed f) || remove_fails io f
    then d !! f else None.
Proof.
  unfold prune. destruct (bool_decide (f ∈ written) || negb (managed f) || remove_fails io f) eqn:E.
  - destruct (d !! f) as [b|] eqn:Hd.
    + apply map_lookup_filter_Some_2; [done|]. cbn.
      rewrite !orb_true_iff, bool_decide_eq_true, negb_true_iff in E. tauto.
    + apply map_lookup_filter_None_2. by left.
  - rewrite !orb_false_iff, bool_decide_eq_false, negb_false_iff in E.
    apply map_lookup_filter_None_2. right. intros b _. cbn. destruct E as [[? ?] ?].
    intros [?|[?|?]]; congruence.
Qed.

Section FragmentTheorems.
Context (ua : string -> bool).

Lemma stage_shares_names w cfg i l staged :
  stage_shares ua w cfg i l = Ok staged ->
  length staged = length l
  /\ (forall k fb, staged !! k = Some fb ->
        exists s, l !! k = Some s /\ fst fb = fragment_basename ua (i + k) (sh_name s)).
Proof.
  revert i staged. induction l as [|s l IH]; intros i staged; cbn.
  { intros [= <-]. split; [done|]. intros k fb. by rewrite lookup_nil. }
  intros (x & Hx & (xs & Hxs & [= <-])%rbind_ok)%rbind_ok.
  destruct (IH _ _ Hxs) as [Hlen Hk]. split; [cbn; by rewrite Hlen|].
  intros [|k] fb; cbn.
  - intros [= ->]. exists s. split; [done|]. rewrite Nat.add_0_r.
    unfold stage_share in Hx. apply rbind_ok in Hx as (? & _ & Hx).
    apply rbind_ok in Hx as (? & _ & [= <-]). done.
  - intros Hfb. destruct (Hk _ _ Hfb) as (s' & ? & ->). exists s'. split; [done|].
    f_equal. lia.
Qed.

Lemma stage_shares_NoDup w cfg i l staged :
  stage_shares ua w cfg i l = Ok staged -> NoDup (map fst staged).
Proof.
  intros [_ H]%stage_shares_names. apply NoDup_alt. intros a b f Ha Hb.
  apply list_lookup_fmap_Some in Ha as (fa & -> & Ha).
  apply list_lookup_fmap_Some in Hb as (fb & Heq & Hb).
  destruct (H _ _ Ha) as (sa & _ & Hfa). destruct (H _ _ Hb) as (sb & _ & Hfb).
  cbn in Heq. rewrite Hfa, Hfb in Heq. apply fragment_basename_inj in Heq. lia.
Qed.

(** What [write_export_fragments] leaves in the exports directory.  When a
    share is refused (ACL forced on an incapable file system, retired umask)
    nothing is written.  When a write fails, fragments are overwritten one by
    one and no file is removed.  On success every staged fragment is present
    with its content, every other file that follows the generator's naming
    rule is removed (unless its removal fails), and all other files are
    untouched. *)
Theorem write_export_fragments_exact w io cfg d :
  match write_export_fragments ua w io cfg d with
  | (Ok _, d') =>
      exists staged, stage_shares ua w cfg 0 (shares cfg) = Ok staged
      /\ forall f, d' !! f =
           match (list_to_map staged : Dir) !! f with
           | Some b => Some b
           | None => if managed_fragment f && negb (remove_fails io f) then None else d !! f
           end
  | (Err e, d') =>
      (forall f, is_Some (d !! f) -> is_Some (d' !! f))
      /\ (stage_shares ua w cfg 0 (shares cfg) = Err e -> d' = d)
  end.
Proof.
  unfold write_export_fragments.
  destruct (stage_shares ua w cfg 0 (shares cfg)) as [staged|e] eqn:Hst; [|done].
  destruct (write_staged io staged d) as [[[]|e] d'] eqn:Hw.
  - apply write_staged_ok in Hw as ->. exists staged. split; [done|]. intros f.
    apply stage_shares_NoDup in Hst. rewrite prune_lookup, apply_writes_lookup by done.
    destruct (list_to_map staged !! f) as [b|] eqn:Hf.
    + apply elem_of_list_to_map_2 in Hf. rewrite bool_decide_eq_true_2; [done|].
      apply elem_of_list_to_set, list_elem_of_fmap. by exists (f, b).
    + rewrite bool_decide_eq_false_2.
      2: { intros Hin%elem_of_list_to_set. by apply not_elem_of_list_to_map in Hf. }
      cbn. by destruct (managed_fragment f), (remove_fails io f).
  - split; [|done]. apply write_staged_err in Hw as (dn & rest & -> & ->).
    intros f Hf. destruct (decide (f ∈ map fst dn)) as [Hin|Hin].
    + destruct (apply_writes_in dn d f Hin) as (b & _ & ->). by eexists.
    + by rewrite apply_writes_frame.
Qed.

Lemma dec_two_digits i : i < 90 -> len (dec (Z.of_nat i + 10)) = 2.
Proof.
  intros Hi.
  assert (forallb (fun k => len (dec (Z.of_nat k + 10)) =? 2) (seq 0 90) = true) as H
    by (vm_compute; reflexivity).
  rewrite forallb_forall in H. apply Nat.eqb_eq, H, in_seq. lia.
Qed.

(** The pruning rule recognizes the generator's own files exactly for the
    first ninety shares: a fragment of a share at index 90 or above has a
    three-digit prefix, is never pruned and stays behind when its share is
    removed.  Every fragment name is a plain file name. *)
Theorem managed_fragment_iff i name :
  (managed_fragment (fragment_basename ua i name) = true <-> i < 90)
  /\ contains_char "/" (fragment_basename ua i name) = false.
Proof.
  split; [|apply fragment_basename_no_slash].
  assert (Hlen : forall x, ends_with ".conf" (x +:+ ".conf") = true).
  { intros x. unfold ends_with. by rewrite (proj2 (strip_suffix_spec ".conf" _ x)). }
  unfold managed_fragment, fragment_basename. rewrite dec02_digits by lia.
  rewrite <- !sapp_assoc, Hlen, !sapp_assoc. cbn [andb].
  destruct (dec_spec (Z.of_nat i + 10)) as (Hd & Hne & Hv); [lia|].
  set (rest := sanitize_name ua name +:+ ".conf").
  assert (Hrest : 5 <= len rest) by (unfold rest; rewrite len_app; cbn; lia).
  destruct (dec (Z.of_nat i + 10)) as [|a [|b [|c r]]] eqn:E; [done| | |].
  - cbn in Hd, Hv. exfalso. rewrite andb_true_r in Hd.
    unfold is_ascii_digit, in_range in Hd. apply andb_true_iff in Hd as [H1%N.leb_le H2%N.leb_le].
    unfold digit_val in Hv. lia.
  - cbn in Hd. rewrite !andb_true_iff in Hd. destruct Hd as (Ha & Hb & _).
    change (String a (String b "") +:+ "-" +:+ rest) with (String a (String b (String "-" rest))).
    assert (Hl7 : 7 <= len (String a (String b (String "-" rest)))).
    { unfold len in *. cbn [String.length]. lia. }
    rewrite (proj2 (Nat.leb_le 7 _) Hl7), Ha, Hb. split; [|done]. intros _.
    unfold is_ascii_digit, in_range in Ha, Hb.
    apply andb_true_iff in Ha as [H1%N.leb_le H2%N.leb_le].
    apply andb_true_iff in Hb as [H3%N.leb_le H4%N.leb_le].
    cbn [digits_val] in Hv. unfold digit_val in Hv. lia.
  - cbn in Hd. rewrite !andb_true_iff in Hd. destruct Hd as (Ha & Hb & Hc & Hr).
    rewrite !sapp_cons. assert (ceqb c "-" = false) as ->.
    { apply ceqb_neq. intros ->. done. }
    rewrite !andb_false_r. split; [done|]. intros Hi. exfalso.
    apply dec_two_digits in Hi. by rewrite E in Hi.
Qed.
End FragmentTheorems.

(** ** Export ids *)
Lemma derive_export_id_range name base :
  (0 <= base <= u16_max)%Z -> (base <= derive_export_id name base <= u16_max)%Z.
Proof.
  intros Hb. unfold derive_export_id, u16_max in *.
  set (h := foldl _ _ _). set (span := Z.min _ _).
  assert (Hs : (1 <= span <= Z.max (65535 - base) 1)%Z) by (unfold span; lia).
  pose proof (Z.mod_pos_bound h span ltac:(lia)) as Hm.
  rewrite wrap_id; [lia|]. unfold in_width. lia.
Qed.

(** Two shares of the sample configuration. *)
Definition share_named (name : string) : Share :=
  {| sh_name := name; sh_host_path := "/media/" +:+ name; sh_pseudo_path := None;
     sh_security := None; sh_rw := Some true; sh_squash := Some "root_squash";
     sh_cache_profile := Some "Default"; sh_pref_read := None; sh_pref_write := None;
     sh_enable_acl := None; sh_manage_gids := None; sh_read_access_policy := None;
     sh_manage_gids_expiration := None; sh_container_path := "/export/" +:+ name;
     sh_source_path := None; sh_attr_expiration_secs := None;
     sh_navahi_insecure := Some true; sh_umask := None |}.
Definition with_shares (c : NfsKlldapConfig) (navahi : bool) (l : list Share) : NfsKlldapConfig :=
  {| ldap_uri := ldap_uri c; navahi_discovery := navahi;
     storage_container_root := storage_container_root c; server_hostname := server_hostname c;
     sssd := sssd c; kerberos_realm := kerberos_realm c; ganesha := ganesha c;
     webui_admin_group := webui_admin_group c; probe := probe c; host_nfs := host_nfs c;
     webui := webui c; shares := l; share_warnings := share_warnings c |}.

(** An export id stays within 16 bits and above its base for every name,
    but ids are not unique: a valid configuration whose shares are called
    [movies6] and [movies8] emits two exports with the same [Export_Id], which
    Ganesha refuses to load together. *)
Theorem export_id_bounded_not_unique :
  (forall name base, (0 <= base <= u16_max)%Z ->
     (base <= derive_export_id name base <= u16_max)%Z)
  /\ (exists cfg a b, shares cfg = [a; b]
        /\ is_ok (validate_and_derive no_env cfg) = true
        /\ sh_name a <> sh_name b
        /\ derive_export_id (sh_name a) (export_id_base 0)
           = derive_export_id (sh_name b) (export_id_base 1)).
Proof.
  split; [exact derive_export_id_range|].
  exists (with_shares sample_config false [share_named "movies6"; share_named "movies8"]),
    (share_named "movies6"), (share_named "movies8").
  split_and!; [done|vm_compute; reflexivity|done|vm_compute; reflexivity].
Qed.

(** ** Security flavours *)

(** In a validated configuration an export that is not advertised by Navahi
    accepts Kerberos only (its [SecType] is one of krb5, krb5i, krb5p), and an
    advertised one accepts its Kerberos flavour first and [sys] last; AUTH_SYS
    is never enabled while the global toggle is off. *)
Theorem sectype_kerberos_unless_navahi env cfg0 cfg share :
  validate_and_derive env cfg0 = Ok cfg -> share ∈ shares cfg ->
  exists b, b ∈ GANESHA_ALLOWED_SECTYPES
  /\ share_sectype cfg share
     = (if share_navahi_effective cfg share then b +:+ ", sys" else b)
  /\ (navahi_discovery cfg = false -> share_sectype cfg share = b).
Proof.
  intros Hv Hin. apply validate_inv in Hv as
    (_ & _ & _ & _ & _ & _ & _ & Hsec & _ & _ & _ & _ & (seen & mid & Hl & Ht) & _).
  destruct (shares_built _ _ _ _ _ _ Hl Ht) as [Hb _].
  assert (Hbs : base_sec cfg share ∈ GANESHA_ALLOWED_SECTYPES).
  { unfold base_sec. destruct (sh_security share) as [v|] eqn:E; [|done]. cbn.
    apply list_elem_of_lookup in Hin as [k Hk].
    destruct (Forall2_lookup_r _ _ _ _ _ Hb Hk) as (s0 & _ & a & b & m & Hf & Hp).
    apply share_fields_ok in Hf as (_ & _ & -> & _ & _ & Hs & _).
    apply share_paths_ok in Hp as ((src & ->) & _). cbn in E. by apply Hs. }
  exists (base_sec cfg share). split; [done|]. unfold share_sectype.
  assert (existsb (fun s => seqb (trim s) "sys") (split "," (base_sec cfg share)) = false) as ->.
  { revert Hbs. generalize (base_sec cfg share). unfold GANESHA_ALLOWED_SECTYPES. intros x.
    rewrite !elem_of_cons, elem_of_nil. intros Hx. destruct_or! Hx; subst; done. }
  rewrite andb_true_r. split; [done|]. unfold share_navahi_effective. by intros ->.
Qed.
Lemma sectype_kerberos_unless_navahi_witness :
  exists share, share ∈ shares sample_validated /\ share_sectype sample_validated share = "krb5p"
  /\ exists b, b ∈ GANESHA_ALLOWED_SECTYPES /\ share_sectype sample_validated share
       = (if share_navahi_effective sample_validated share then b +:+ ", sys" else b)
     /\ (navahi_discovery sample_validated = false -> share_sectype sample_validated share = b).
Proof.
  eexists. split; [|split].
  - vm_compute. left.
  - vm_compute. reflexivity.
  - apply (sectype_kerberos_unless_navahi no_env sample_config sample_validated _ sample_valid).
    vm_compute. left.
Defined.

(** ** Adverts *)
Section AdvertTheorems.
Context (ua : string -> bool).

(** The adverts after a successful run, in a directory that exists: each
    effective share has a file, files that carry the program's prefix and
    suffix and belong to no effective share are withdrawn (all of them when
    the toggle is off), and foreign service files are untouched. *)
Theorem write_avahi_services_exact io cfg host d d' f :
  write_avahi_services ua io cfg host (Some d) = (Ok tt, Some d') ->
  let written := map (advert_file ua) (List.filter (share_navahi_effective cfg) (shares cfg)) in
  (f ∈ written -> exists s, s ∈ shares cfg /\ share_navahi_effective cfg s = true
                    /\ advert_file ua s = f /\ d' !! f = Some (advert_xml host s))
  /\ (f ∉ written -> managed_advert f = true -> remove_fails io f = false -> d' !! f = None)
  /\ (f ∉ written -> managed_advert f = false -> d' !! f = d !! f)
  /\ (navahi_discovery cfg = false -> written = []).
Proof.
  unfold write_avahi_services. intros H.
  assert (exists d1, write_staged io (stage_adverts ua cfg host) d = (Ok tt, d1)
    /\ d' = prune io managed_advert (list_to_set (map fst (stage_adverts ua cfg host))) d1)
    as (d1 & Hw & ->).
  { destruct (navahi_discovery cfg); cbn in H;
      destruct (write_staged io _ d) as [[[]|] d1]; simplify_eq; eauto. }
  apply write_staged_ok in Hw as ->.
  assert (Hfst : map fst (stage_adverts ua cfg host)
    = map (advert_file ua) (List.filter (share_navahi_effective cfg) (shares cfg))).
  { unfold stage_adverts. by rewrite map_map. }
  cbn zeta. rewrite prune_lookup, <- Hfst. split_and!.
  - intros Hin. rewrite bool_decide_eq_true_2 by by apply elem_of_list_to_set. cbn.
    destruct (apply_writes_in _ d f Hin) as (b & Hb & Hl). rewrite Hl.
    unfold stage_adverts in Hb. apply list_elem_of_fmap in Hb as (s & [= -> ->] & Hs).
    apply elem_of_filter_In in Hs as [??]. eauto.
  - intros Hn Hm Hr. rewrite bool_decide_eq_false_2, Hm, Hr; [done|].
    by rewrite elem_of_list_to_set.
  - intros Hn Hm. rewrite Hm, orb_true_r. cbn. by apply apply_writes_frame.
  - intros Hoff. rewrite Hfst. clear H Hfst. induction (shares cfg) as [|s l IH]; [done|].
    cbn. unfold share_navahi_effective at 1. by rewrite Hoff.
Qed.
End AdvertTheorems.
Lemma write_avahi_services_exact_witness :
  exists d', write_avahi_services (fun _ => false) (Build_IoWorld (fun _ => false) (fun _ => false))
    (with_shares sample_config true [share_named "a b"]) "nas.example.org"
    (Some {[ "nfs-klldap-old.service" := "x" ]}) = (Ok tt, Some d')
  /\ d' !! "nfs-klldap-old.service" = None.
Proof.
  eexists. split; [vm_compute; reflexivity|].
  apply (write_avahi_services_exact (fun _ => false) (Build_IoWorld (fun _ => false) (fun _ => false))
    (with_shares sample_config true [share_named "a b"]) "nas.example.org"
    {[ "nfs-klldap-old.service" := "x" ]} _ "nfs-klldap-old.service");
    [vm_compute; reflexivity| |reflexivity|reflexivity].
  vm_compute. intros H. inversion H as [|? ? ? H1]. inversion H1.
Defined.

(** Advert file names are not injective: two advertised shares whose names
    differ only in a character the sanitizer replaces share one file, so the
    second overwrites the first and one share is never announced.  Export
    fragments do not have this problem, their names carry the index. *)
Theorem adverts_collide ua :
  let cfg := with_shares sample_config true [share_named "a b"; share_named "a-b"] in
  is_ok (validate_and_derive no_env cfg) = true
  /\ map (advert_file ua) (List.filter (share_navahi_effective cfg) (shares cfg))
     = ["nfs-klldap-a-b.service"; "nfs-klldap-a-b.service"]
  /\ (forall i j n m, fragment_basename ua i n = fragment_basename ua j m -> i = j).
Proof.
  split_and!; [vm_compute; reflexivity|vm_compute; reflexivity|].
  intros i j n m. apply fragment_basename_inj.
Qed.
