(* ===== verification/Recycle.v ===== *)
(** * Fingerprints and recycle plans

    Models [exports_fingerprint.rs] (FNV-1a over generated artifacts) and
    [recycle_plan.rs] (which services a configuration change touches). *)

From S2P Require Import Prelude RustStr Identity Config FsProbe Generate.
Local Open Scope Z_scope.

(** ** Fingerprints: 64-bit FNV-1a *)
Definition FNV1A_SEED : Z := 0xcbf29ce484222325.
Definition FNV1A_PRIME : Z := 0x100000001b3.
Definition fnv1a (h x : Z) : Z := wrap 64 (Z.lxor h x * FNV1A_PRIME).

Definition fingerprint_bytes (b : string) (h : Z) : Z :=
  foldl (fun h c => fnv1a h (Z.of_N (byte c))) h (bytes b).
(** [None]: the file cannot be read. *)
Definition fingerprint_file (content : option string) : Z :=
  match content with
  | Some b => fingerprint_bytes b FNV1A_SEED
  | None => 0
  end.
Definition fingerprint_identity_artifacts (sssd_conf krb5_conf idmap_conf : option string) : Z :=
  foldl (fun h f => fnv1a h (fingerprint_file f)) FNV1A_SEED [sssd_conf; krb5_conf; idmap_conf].

(** [Path::extension] of a file name. *)
Definition extension (name : string) : option string :=
  match rsplit_once "." name with
  | Some ("", _) => None
  | Some (_, e) => Some e
  | None => None
  end.
Definition has_ext (exts : list string) (name : string) : bool :=
  match extension name with Some e => mem e exts | None => false end.

(** The files of a directory with a given extension, in the order of their
    names; [None] is a directory that cannot be read. *)
Definition dir_files (exts : list string) (d : Dir) : list string :=
  omap (fun n => d !! n) (sort_dedup_s (List.filter (has_ext exts) (map fst (map_to_list d)))).
Definition fingerprint_dir (exts : list string) (d : option Dir) : Z :=
  match d with
  | None => 0
  | Some d => foldl (fun h c => fnv1a (fingerprint_bytes c h) 0xff) FNV1A_SEED (dir_files exts d)
  end.
Definition fingerprint_exports_dir (d : option Dir) : Z := fingerprint_dir ["conf"; "cfg"] d.
Definition fingerprint_avahi_dir (d : option Dir) : Z := fingerprint_dir ["service"] d.

Definition fingerprint_shares (cfg : NfsKlldapConfig) : Z :=
  let h := fnv1a (fingerprint_bytes (storage_container_root cfg) FNV1A_SEED) 0x01 in
  foldl (fun h s =>
    let h := fingerprint_bytes (sh_name s) h in
    let h := fingerprint_bytes (sh_host_path s) h in
    let h := match sh_pseudo_path s with Some p => fingerprint_bytes p h | None => h end in
    let h := fingerprint_bytes (sh_container_path s) h in
    fnv1a h 0xff) h (shares cfg).

(** ** Plans *)
Inductive GaneshaAction := GSkip | GSighup | GStopStart.
Inductive WebuiAction := WSkip | WReload | WRestart.
#[export] Instance ganesha_action_eq_dec : EqDecision GaneshaAction.
Proof. solve_decision. Defined.
#[export] Instance webui_action_eq_dec : EqDecision WebuiAction.
Proof. solve_decision. Defined.

Record ServiceRecyclePlan := {
  pl_ganesha : GaneshaAction;
  pl_restart_sssd : bool;
  pl_restart_idhelper : bool;
  pl_webui : WebuiAction;
  pl_identity_staged : bool;
  pl_restart_avahi : bool;
}.

Definition is_noop (p : ServiceRecyclePlan) : bool :=
  bool_decide (pl_ganesha p = GSkip) && negb (pl_restart_sssd p) && negb (pl_restart_idhelper p)
  && bool_decide (pl_webui p = WSkip) && negb (pl_restart_avahi p).

Definition plan_from_changes
    (exports_changed identity_changed shares_changed host_nfs_mode ganesha_running : bool)
  : ServiceRecyclePlan :=
  {| pl_ganesha := if host_nfs_mode || negb exports_changed then GSkip
                   else if ganesha_running then GSighup else GStopStart;
     pl_restart_sssd := false;
     pl_restart_idhelper := false;
     pl_webui := if exports_changed || shares_changed then WReload else WSkip;
     pl_identity_staged := identity_changed;
     pl_restart_avahi := false |}.

Definition plan_full_recycle (host_nfs_mode : bool) : ServiceRecyclePlan :=
  {| pl_ganesha := if host_nfs_mode then GSkip else GStopStart;
     pl_restart_sssd := true;
     pl_restart_idhelper := true;
     pl_webui := WRestart;
     pl_identity_staged := false;
     pl_restart_avahi := true |}.

Definition ganesha_sighup_failed (plan : ServiceRecyclePlan) : ServiceRecyclePlan :=
  match pl_ganesha plan with
  | GSighup => {| pl_ganesha := GStopStart; pl_restart_sssd := pl_restart_sssd plan;
                  pl_restart_idhelper := pl_restart_idhelper plan; pl_webui := pl_webui plan;
                  pl_identity_staged := pl_identity_staged plan;
                  pl_restart_avahi := pl_restart_avahi plan |}
  | _ => plan
  end.

(** ** Fingerprint values stay in 64 bits *)
Lemma fnv1a_width h x : in_width 64 (fnv1a h x).
Proof. by apply wrap_range. Qed.
Lemma fingerprint_bytes_width b h : in_width 64 h -> in_width 64 (fingerprint_bytes b h).
Proof.
  unfold fingerprint_bytes. revert h. induction (bytes b) as [|c l IH]; intros h Hh; cbn; [done|].
  apply IH, fnv1a_width.
Qed.

(** Only files with the selected extensions matter, and only through their
    contents in name order. *)
Lemma dir_files_ext exts d1 d2 :
  (forall f, has_ext exts f = true -> d1 !! f = d2 !! f) -> dir_files exts d1 = dir_files exts d2.
Proof.
  intros H. unfold dir_files.
  assert (Hk : forall d : Dir, forall z, z ∈ List.filter (has_ext exts) (map fst (map_to_list d))
    <-> has_ext exts z = true /\ is_Some (d !! z)).
  { intros d z. rewrite elem_of_filter_In. split.
    - intros [(kv & -> & Hin)%list_elem_of_fmap He]. destruct kv as [k v].
      apply elem_of_map_to_list in Hin. split; [done|by eexists].
    - intros [He [v Hv]]. split; [|done]. apply list_elem_of_fmap. exists (z, v).
      split; [done|]. by apply elem_of_map_to_list. }
  assert (sort_dedup_s (List.filter (has_ext exts) (map fst (map_to_list d1)))
    = sort_dedup_s (List.filter (has_ext exts) (map fst (map_to_list d2)))) as Heq.
  { apply (sort_dedup_canonical _ _ seqb_eq). intros z. rewrite !Hk. split; intros [He Hz].
    - by rewrite <- H.
    - by rewrite H. }
  rewrite Heq.
  assert (Hall : forall l : list string, (forall z, z ∈ l -> d1 !! z = d2 !! z) ->
    omap (fun n => d1 !! n) l = omap (fun n => d2 !! n) l).
  { induction l as [|z l IH]; intros Hl; [done|]. cbn.
    rewrite (Hl z) by set_solver. rewrite IH by set_solver. done. }
  apply Hall. intros z Hz. apply elem_of_sort_dedup_s, Hk in Hz as [? _]. by apply H.
Qed.

(** The exports fingerprint depends only on the [.conf] and [.cfg] files of
    the directory: editing, adding or removing any other file never looks like
    an export change.  (An existing but empty directory hashes to the seed, and
    only a directory that cannot be read hashes to 0.) *)
Theorem exports_fingerprint_frame d1 d2 :
  (forall f, has_ext ["conf"; "cfg"] f = true -> d1 !! f = d2 !! f) ->
  fingerprint_exports_dir (Some d1) = fingerprint_exports_dir (Some d2)
  /\ fingerprint_exports_dir (Some ∅) = FNV1A_SEED
  /\ fingerprint_exports_dir None = 0.
Proof.
  intros H. split; [|done]. unfold fingerprint_exports_dir, fingerprint_dir.
  by rewrite (dir_files_ext _ d1 d2).
Qed.
Lemma exports_fingerprint_frame_witness :
  fingerprint_exports_dir (Some {[ "10-a.conf" := "x"; "README" := "y" ]})
  = fingerprint_exports_dir (Some {[ "10-a.conf" := "x" ]}).
Proof.
  apply (exports_fingerprint_frame {[ "10-a.conf" := "x"; "README" := "y" ]}
    {[ "10-a.conf" := "x" ]}).
  intros f Hf. destruct (decide (f = "10-a.conf")) as [->|H1]; [vm_compute; reflexivity|].
  destruct (decide (f = "README")) as [->|H2]; [discriminate Hf|].
  rewrite lookup_insert_ne by congruence. rewrite !lookup_singleton_ne by congruence.
  reflexivity.
Defined.

(** ** What a plan may do *)
Definition ganesha_rank (a : GaneshaAction) : nat :=
  match a with GSkip => 0 | GSighup => 1 | GStopStart => 2 end.
Definition webui_rank (a : WebuiAction) : nat :=
  match a with WSkip => 0 | WReload => 1 | WRestart => 2 end.
(** [p] does no more than [q]. *)
Definition plan_le (p q : ServiceRecyclePlan) : Prop :=
  (ganesha_rank (pl_ganesha p) <= ganesha_rank (pl_ganesha q))%nat
  /\ (webui_rank (pl_webui p) <= webui_rank (pl_webui q))%nat
  /\ implb (pl_restart_sssd p) (pl_restart_sssd q) = true
  /\ implb (pl_restart_idhelper p) (pl_restart_idhelper q) = true
  /\ implb (pl_restart_avahi p) (pl_restart_avahi q) = true.

(** The plan of a SIGHUP restarts neither SSSD nor the idhelper nor avahi,
    never bounces the WebUI process, leaves identity changes staged, does
    nothing exactly when neither exports nor share mapping changed, and never
    touches an in-container Ganesha in host mode; the forced recycle does at
    least as much, also after the escalation of a failed reload, except on the
    host's own NFS server. *)
Theorem sighup_plan_scoped ec ic sc host running :
  let p := plan_from_changes ec ic sc host running in
  pl_restart_sssd p = false /\ pl_restart_idhelper p = false /\ pl_restart_avahi p = false
  /\ pl_webui p <> WRestart
  /\ pl_identity_staged p = ic
  /\ (is_noop p = true <-> ec = false /\ sc = false)
  /\ (host = true -> pl_ganesha p = GSkip /\ pl_ganesha (plan_full_recycle host) = GSkip)
  /\ (pl_ganesha p = GSighup -> running = true)
  /\ plan_le p (plan_full_recycle host)
  /\ (host = false -> plan_le (ganesha_sighup_failed p) (plan_full_recycle host)).
Proof.
  destruct ec, ic, sc, host, running; vm_compute; split_and!; try done; try lia;
    intros; split_and!; try done; lia.
Qed.
