(* ===== verification/Startup.v ===== *)
(** * Startup steps and the decision of one supervisor tick

    Models the pure part of [startup.rs].  What the functions read from the
    system (persistent volume, loaded configuration, reachability, bind probe,
    wizard marker) is passed in. *)

From S2P Require Import Prelude RustStr Identity Config.

Inductive StartupStep :=
| WaitForPersistentVolume
| SetLdapUri
| AddBindCredentials
| Ready.
#[export] Instance startup_step_eq_dec : EqDecision StartupStep.
Proof. solve_decision. Defined.

Definition wizard_index (s : StartupStep) : option nat :=
  match s with
  | WaitForPersistentVolume => Some 1
  | SetLdapUri => Some 2
  | AddBindCredentials => Some 3
  | Ready => None
  end.

Definition is_step_complete (step current : StartupStep) : bool :=
  if bool_decide (step = current) then false
  else if bool_decide (current = Ready) then true
  else match step, current with
       | WaitForPersistentVolume, SetLdapUri
       | WaitForPersistentVolume, AddBindCredentials
       | SetLdapUri, AddBindCredentials => true
       | _, _ => false
       end.

Definition ldap_uri_is_structurally_valid (uri : string) : bool :=
  let uri := trim uri in
  if is_empty uri || (negb (starts_with "ldap://" uri) && negb (starts_with "ldaps://" uri))
  then false
  else let host := extract_host_from_uri uri in
       negb (is_empty host) && negb (host_is_ip host).

Definition bind_fields_missing (cfg : NfsKlldapConfig) : bool :=
  is_empty (trim (ss_ldap_default_bind_dn (sssd cfg)))
  || is_empty (trim (ss_ldap_default_authtok (sssd cfg))).

Definition config_has_required_startup_fields (cfg : NfsKlldapConfig) : bool :=
  ldap_uri_is_structurally_valid (ldap_uri cfg) && negb (bind_fields_missing cfg).

(** [load_lenient] is the parse and the environment overlay, without validation. *)
Definition compute_wizard_step (persistent wizard_complete : bool)
    (lenient : option NfsKlldapConfig) : StartupStep :=
  if negb persistent then WaitForPersistentVolume
  else match lenient with
       | None => SetLdapUri
       | Some cfg =>
           if negb (ldap_uri_is_structurally_valid (ldap_uri cfg)) then SetLdapUri
           else if bind_fields_missing cfg then AddBindCredentials
           else if wizard_complete then Ready
           else AddBindCredentials
       end.

(** [load] is the validated configuration. *)
Definition compute_startup_step (persistent : bool) (load : option NfsKlldapConfig)
    (reachable : string -> bool) (bind_ok : NfsKlldapConfig -> bool) : StartupStep :=
  if negb persistent then WaitForPersistentVolume
  else match load with
       | None => SetLdapUri
       | Some cfg =>
           if is_empty (trim (ldap_uri cfg)) then SetLdapUri
           else if negb (reachable (extract_host_from_uri (ldap_uri cfg))) then SetLdapUri
           else if bind_fields_missing cfg then AddBindCredentials
           else if negb (bind_ok cfg) then AddBindCredentials
           else Ready
       end.

Definition is_preconfigured_deployment (keytab persistent : bool) (load : option NfsKlldapConfig)
  : bool :=
  keytab && persistent &&
  match load with Some cfg => config_has_required_startup_fields cfg | None => false end.

Definition effective_startup_step (keytab persistent : bool) (load : option NfsKlldapConfig)
    (reachable : string -> bool) (bind_ok : NfsKlldapConfig -> bool) : StartupStep :=
  if is_preconfigured_deployment keytab persistent load then Ready
  else compute_startup_step persistent load reachable bind_ok.

Definition should_bring_up_services (services_started wizard_complete : bool)
    (step : StartupStep) : bool :=
  negb services_started && wizard_complete && bool_decide (step = Ready).

Inductive SupervisorLoopAction := ProcessSighup | ProcessFullRecycle | BringUpServices | Idle.

Definition supervisor_loop_tick
    (services_started sighup_pending full_recycle_pending wizard_complete : bool)
    (startup_step : StartupStep) : SupervisorLoopAction * bool :=
  let up := should_bring_up_services services_started wizard_complete startup_step in
  if full_recycle_pending then
    if up then (BringUpServices, true) else (ProcessFullRecycle, true)
  else if sighup_pending then (ProcessSighup, true)
  else if up then (BringUpServices, true)
  else (Idle, services_started).

(** [trim_matches] of the two quote characters. *)
Definition is_quote (c : Ascii.ascii) : bool := ceqb c "034" || ceqb c "'".
Fixpoint drop_quotes (s : string) : string :=
  match s with
  | String c r => if is_quote c then drop_quotes r else s
  | "" => ""
  end.
Definition trim_quotes (s : string) : string := srev (drop_quotes (srev (drop_quotes s))).

(** The tolerant scan of the configuration text for a realm to display. *)
Definition realm_of_line (line : string) : option string :=
  rest ← strip_prefix "ldap_uri" (trim line);
  '(_, v) ← split_once "=" rest;
  let val := trim_quotes (trim v) in
  if negb (is_empty val) && (starts_with "ldap://" val || starts_with "ldaps://" val) then
    r ← derive_realm_from_uri val;
    if negb (eq_ignore_ascii_case r "EXAMPLE.COM") && negb (eq_ignore_ascii_case r "EXAMPLE")
    then Some r else None
  else None.
Definition attempt_realm_from_config (contents : option string) : option string :=
  text ← contents; head (omap realm_of_line (lines text)).

(** ** Consistency of the two step computations *)

(** The startup check says [Ready] exactly when the configuration is valid, its
    LDAP host answers and the bind succeeds. *)
Lemma startup_ready_spec persistent load reachable bind_ok :
  compute_startup_step persistent load reachable bind_ok = Ready <->
  persistent = true /\ exists cfg, load = Some cfg
    /\ trim (ldap_uri cfg) <> "" /\ bind_fields_missing cfg = false
    /\ reachable (extract_host_from_uri (ldap_uri cfg)) = true /\ bind_ok cfg = true.
Proof.
  unfold compute_startup_step. split.
  - destruct persistent; [|done]. destruct load as [cfg|]; [|done]. cbn.
    destruct (is_empty (trim (ldap_uri cfg))) eqn:E1; [done|].
    destruct (reachable _) eqn:E2; [|done]. destruct (bind_fields_missing cfg) eqn:E3; [done|].
    destruct (bind_ok cfg) eqn:E4; [|done]. intros _. split; [done|]. exists cfg.
    split_and!; try done. by apply is_empty_false.
  - intros (-> & cfg & -> & Hu & Hb & Hr & Ho). cbn. apply is_empty_false in Hu.
    by rewrite Hu, Hr, Hb, Ho.
Qed.
