(* ===== verification/Supervisor.v ===== *)
(** * The pid-1 supervisor

    Models [supervisor/mod.rs], [supervisor/services.rs] and
    [supervisor/respawn.rs] in production mode (the probe modes of the test
    harness are off).  The state pairs the [Supervisor] struct with the world
    it acts on: the live processes by service, the fingerprints of the
    generated artifacts, and two ghost fields, the exports the running Ganesha
    has loaded and the log of signals and spawns.  What the kernel and the
    tools answer during a handler (does a signalled process exit in time, does
    a spawn succeed, what does the generator write, is the principal warm-up
    complete) is an [Oracle]; processes die on their own only between ticks.
    Process ids are not reused. *)

From S2P Require Import Prelude RustStr Identity Config FsProbe Generate Recycle Startup.
Local Open Scope Z_scope.

Inductive Svc := Watcher | Sssd | Ganesha | Webui | Dbus | Idhelper | AvahiD.
#[export] Instance svc_eq_dec : EqDecision Svc.
Proof. solve_decision. Defined.

(** ** Respawn budget *)
Definition RESPAWN_WINDOW : Z := 600.
Definition RESPAWN_BUDGET : nat := 3.
Definition RESPAWN_COOLDOWN : Z := 10.
Inductive RespawnDecision := Go | Cooldown | Exhausted (first_time : bool).

(** [attempts] and [exhausted_logged], by service; times in seconds. *)
Record RespawnBudget := {
  attempts : Svc -> list Z;
  exhausted_logged : Svc -> bool;
}.
Definition empty_budget : RespawnBudget :=
  {| attempts := fun _ => []; exhausted_logged := fun _ => false |}.
Definition upd {A} (f : Svc -> A) (s : Svc) (v : A) : Svc -> A :=
  fun s' => if decide (s = s') then v else f s'.

Definition respawn_decide (b : RespawnBudget) (s : Svc) (now : Z) : RespawnDecision * RespawnBudget :=
  let hist := List.filter (fun t => now - t <? RESPAWN_WINDOW) (attempts b s) in
  let b1 := {| attempts := upd (attempts b) s hist; exhausted_logged := exhausted_logged b |} in
  if match last hist with Some t => now - t <? RESPAWN_COOLDOWN | None => false end
  then (Cooldown, b1)
  else if (RESPAWN_BUDGET <=? length hist)%nat then
    (Exhausted (negb (exhausted_logged b s)),
     {| attempts := attempts b1; exhausted_logged := upd (exhausted_logged b) s true |})
  else
    (Go, {| attempts := upd (attempts b) s (hist ++ [now]);
            exhausted_logged := upd (exhausted_logged b) s false |}).

(** ** State *)
Record Supervisor := {
  pids : Svc -> option Z;
  services_started : bool;
  ganesha_managed : bool;
  avahi_managed : bool;
  last_shares_fingerprint : Z;
  respawn : RespawnBudget;
  host_nfs_mode : bool;
}.
Record Disk := {
  d_exports : Z;
  d_identity : Z;
  d_avahi : Z;
  d_shares : option Z;
  d_host_nfs : bool;
  d_navahi : bool;
}.
Inductive Event := ESpawn (s : Svc) (p : Z) | ETerm (p : Z) | EKill (p : Z) | EHup (p : Z).
Record World := {
  procs : gmap Z Svc;
  next_pid : Z;
  disk : Disk;
  loaded_exports : Z;
  events : list Event;
}.
Record St := { sup : Supervisor; wld : World }.

(** What a spawned Ganesha does in the pause after the start: it stays in the
    foreground, exits, or leaves a daemon behind that it forked. *)
Inductive Launch := Stays | Exits | Forks.
Record Oracle := {
  o_spawn : Svc -> bool;
  o_launch : Launch;
  o_pid_file : option Z;
  o_term : Z -> bool;
  o_kill : Z -> bool;
  o_hup_kills : bool;
  o_warm : bool;
  o_generated : Disk -> Disk;
  o_generate_ok : bool;
  o_hooks_ok : bool;
}.

Definition init_sup (host : bool) : Supervisor :=
  {| pids := fun _ => None; services_started := false; ganesha_managed := false;
     avahi_managed := false; last_shares_fingerprint := 0; respawn := empty_budget;
     host_nfs_mode := host |}.

(** Field updates. *)
Definition set_pid (s : Svc) (v : option Z) (st : St) : St :=
  {| sup := {| pids := upd (pids (sup st)) s v; services_started := services_started (sup st);
               ganesha_managed := ganesha_managed (sup st); avahi_managed := avahi_managed (sup st);
               last_shares_fingerprint := last_shares_fingerprint (sup st);
               respawn := respawn (sup st); host_nfs_mode := host_nfs_mode (sup st) |};
     wld := wld st |}.
Definition set_flags (started gm am : bool) (st : St) : St :=
  {| sup := {| pids := pids (sup st); services_started := started;
               ganesha_managed := gm; avahi_managed := am;
               last_shares_fingerprint := last_shares_fingerprint (sup st);
               respawn := respawn (sup st); host_nfs_mode := host_nfs_mode (sup st) |};
     wld := wld st |}.
Definition set_started (b : bool) (st : St) : St :=
  set_flags b (ganesha_managed (sup st)) (avahi_managed (sup st)) st.
Definition set_ganesha_managed (b : bool) (st : St) : St :=
  set_flags (services_started (sup st)) b (avahi_managed (sup st)) st.
Definition set_avahi_managed (b : bool) (st : St) : St :=
  set_flags (services_started (sup st)) (ganesha_managed (sup st)) b st.
Definition set_config (fp : Z) (host : bool) (st : St) : St :=
  {| sup := {| pids := pids (sup st); services_started := services_started (sup st);
               ganesha_managed := ganesha_managed (sup st); avahi_managed := avahi_managed (sup st);
               last_shares_fingerprint := fp;
               respawn := respawn (sup st); host_nfs_mode := host |};
     wld := wld st |}.
Definition set_respawn (b : RespawnBudget) (st : St) : St :=
  {| sup := {| pids := pids (sup st); services_started := services_started (sup st);
               ganesha_managed := ganesha_managed (sup st); avahi_managed := avahi_managed (sup st);
               last_shares_fingerprint := last_shares_fingerprint (sup st);
               respawn := b; host_nfs_mode := host_nfs_mode (sup st) |};
     wld := wld st |}.
Definition set_world (w : World) (st : St) : St := {| sup := sup st; wld := w |}.
Definition set_disk (d : Disk) (st : St) : St :=
  set_world {| procs := procs (wld st); next_pid := next_pid (wld st); disk := d;
               loaded_exports := loaded_exports (wld st); events := events (wld st) |} st.
Definition set_loaded (x : Z) (st : St) : St :=
  set_world {| procs := procs (wld st); next_pid := next_pid (wld st); disk := disk (wld st);
               loaded_exports := x; events := events (wld st) |} st.
Definition emit (e : Event) (st : St) : St :=
  set_world {| procs := procs (wld st); next_pid := next_pid (wld st); disk := disk (wld st);
               loaded_exports := loaded_exports (wld st); events := events (wld st) ++ [e] |} st.
Definition reap (p : Z) (st : St) : St :=
  set_world {| procs := delete p (procs (wld st)); next_pid := next_pid (wld st);
               disk := disk (wld st); loaded_exports := loaded_exports (wld st);
               events := events (wld st) |} st.

(** [process_is_live] *)
Definition live (st : St) (p : Z) : bool := is_some (procs (wld st) !! p).
Definition live_opt (st : St) (o : option Z) : bool :=
  match o with Some p => live st p | None => false end.
(** [Command::spawn] of a service: a fresh live process. *)
Definition spawn (s : Svc) (st : St) : Z * St :=
  let p := next_pid (wld st) in
  (p, set_world {| procs := <[ p := s ]> (procs (wld st)); next_pid := p + 1;
                   disk := disk (wld st); loaded_exports := loaded_exports (wld st);
                   events := events (wld st) ++ [ESpawn s p] |} st).
(** SIGTERM to one process: it is gone if it exits in time. *)
Definition term (o : Oracle) (p : Z) (st : St) : St :=
  let st := emit (ETerm p) st in if o_term o p then reap p st else st.
Definition kill9 (o : Oracle) (p : Z) (st : St) : St :=
  let st := emit (EKill p) st in if o_kill o p then reap p st else st.
(** [pkill -TERM] by process name. *)
Definition pkill (o : Oracle) (s : Svc) (st : St) : St :=
  set_world {| procs := filter (fun ps => ~ (ps.2 = s /\ o_term o ps.1 = true)) (procs (wld st));
               next_pid := next_pid (wld st); disk := disk (wld st);
               loaded_exports := loaded_exports (wld st); events := events (wld st) |} st.

(** ** Ganesha *)
Definition refresh_tracked_ganesha_pid (st : St) : St :=
  match pids (sup st) Ganesha with
  | Some p => if live st p then st else set_pid Ganesha None st
  | None => st
  end.
Definition ganesha_running (st : St) : bool * St :=
  let st := refresh_tracked_ganesha_pid st in
  (live_opt st (pids (sup st) Ganesha), st).

Definition stop_ganesha (o : Oracle) (st : St) : St :=
  let st := refresh_tracked_ganesha_pid st in
  match pids (sup st) Ganesha with
  | None => set_ganesha_managed false st
  | Some p =>
      if negb (live st p) then set_ganesha_managed false (set_pid Ganesha None st)
      else
        let st := term o p st in
        if negb (live st p) then set_ganesha_managed false (set_pid Ganesha None st)
        else
          let st := kill9 o p st in
          if negb (live st p) then set_ganesha_managed false (set_pid Ganesha None st)
          else st
  end.

(** The 800 ms between the spawn and the look at the daemon. *)
Definition launch_pause (o : Oracle) (p : Z) (st : St) : St :=
  match o_launch o with
  | Stays => st
  | Exits => reap p st
  | Forks =>
      let w := wld (reap p st) in
      set_world {| procs := <[ next_pid w := Ganesha ]> (procs w); next_pid := next_pid w + 1; disk := disk w;
                   loaded_exports := loaded_exports w; events := events w |} st
  end.
(** [discover_ganesha_daemon_pid]: the first pid that pgrep prints. *)
Definition ganesha_pids (st : St) : list Z :=
  omap (fun ps => if decide (snd ps = Ganesha) then Some (fst ps) else None) (map_to_list (procs (wld st))).
Definition discover_live_ganesha (st : St) : option Z :=
  match ganesha_pids st with [] => None | p :: l => Some (foldr Z.min p l) end.
(** [confirm_ganesha_daemon_pid_env]; the environment of the process is only logged. *)
Definition confirm_ganesha_pid (o : Oracle) (st : St) : St :=
  if negb (ganesha_managed (sup st)) then st
  else if live_opt st (pids (sup st) Ganesha) then st
  else match discover_live_ganesha st with
       | Some p => set_pid Ganesha (Some p) st
       | None =>
           match o_pid_file o with
           | Some p => if live st p then set_pid Ganesha (Some p) st else st
           | None => st
           end
       end.
(** A successful spawn loads the export fragments on disk. *)
Definition start_ganesha (o : Oracle) (st : St) : St :=
  if live_opt st (pids (sup st) Ganesha) then st
  else
    let st := match pids (sup st) Ganesha with
              | Some _ => set_pid Ganesha None st | None => st end in
    if negb (o_warm o) then st
    else if o_spawn o Ganesha then
      let '(p, st) := spawn Ganesha st in
      let st := set_loaded (d_exports (disk (wld st))) st in
      let st := set_ganesha_managed true (set_pid Ganesha (Some p) st) in
      confirm_ganesha_pid o (launch_pause o p st)
    else st.

Definition reload_ganesha_exports (st : St) : bool * St :=
  let st := refresh_tracked_ganesha_pid st in
  match pids (sup st) Ganesha with
  | None => (false, st)
  | Some p =>
      if negb (live st p) then (false, set_pid Ganesha None st)
      else (true, set_loaded (d_exports (disk (wld st))) (emit (EHup p) st))
  end.

(** ** The other services *)
Definition start_avahi (o : Oracle) (st : St) : St :=
  if negb (d_navahi (disk (wld st))) then st
  else if host_nfs_mode (sup st) then st
  else if live_opt st (pids (sup st) AvahiD) then st
  else
    let st := match pids (sup st) AvahiD with
              | Some _ => set_pid AvahiD None st | None => st end in
    if o_spawn o AvahiD then
      let '(p, st) := spawn AvahiD st in set_avahi_managed true (set_pid AvahiD (Some p) st)
    else st.
Definition stop_avahi (o : Oracle) (st : St) : St :=
  match pids (sup st) AvahiD with
  | None => set_avahi_managed false st
  | Some p =>
      let st := if live st p then
                  let st := term o p st in
                  if live st p then kill9 o p st else st
                else st in
      set_avahi_managed false (set_pid AvahiD None st)
  end.
Definition start_watcher (o : Oracle) (st : St) : bool * St :=
  if o_spawn o Watcher then
    let '(p, st) := spawn Watcher st in (true, set_pid Watcher (Some p) st)
  else (false, st).
Definition start_webui (o : Oracle) (st : St) : bool * St :=
  let st := match pids (sup st) Webui with Some p => term o p st | None => st end in
  if o_spawn o Webui then
    let '(p, st) := spawn Webui st in (true, set_pid Webui (Some p) st)
  else (false, st).
Definition reload_webui (o : Oracle) (st : St) : St :=
  match pids (sup st) Webui with
  | Some p =>
      if live st p then
        let st := emit (EHup p) st in
        let st := if o_hup_kills o then reap p st else st in
        if negb (live st p) then snd (start_webui o (set_pid Webui None st)) else st
      else snd (start_webui o (set_pid Webui None st))
  | None => snd (start_webui o (set_pid Webui None st))
  end.
Definition restart_by_name (o : Oracle) (s : Svc) (st : St) : St :=
  let st := match pids (sup st) s with Some p => term o p st | None => st end in
  let st := pkill o s st in
  if o_spawn o s then let '(p, st) := spawn s st in set_pid s (Some p) st else st.
Definition restart_sssd_and_wait (o : Oracle) : St -> St := restart_by_name o Sssd.
Definition restart_idhelper_and_wait_bulk (o : Oracle) : St -> St := restart_by_name o Idhelper.
(** [rpcbind] is not tracked; [pgrep_running("dbus-daemon")] guards the spawn. *)
Definition svc_running (s : Svc) (st : St) : bool :=
  existsb (fun ps => bool_decide (snd ps = s)) (map_to_list (procs (wld st))).
Definition ensure_ganesha_prereqs (o : Oracle) (st : St) : St :=
  if svc_running Dbus st then st
  else if o_spawn o Dbus then let '(p, st) := spawn Dbus st in set_pid Dbus (Some p) st
  else st.
Definition reload_avahi_services (st : St) : St :=
  match pids (sup st) AvahiD with
  | Some p => if live st p then emit (EHup p) st else st
  | None => st
  end.

(** ** Handlers *)
Record FingerprintChanges := {
  exports_changed : bool;
  identity_changed : bool;
  shares_changed : bool;
  avahi_changed : bool;
}.

Definition regenerate_and_diff (o : Oracle) (st : St) : result FingerprintChanges string * St :=
  let before := disk (wld st) in
  let shares_before := last_shares_fingerprint (sup st) in
  let st := set_disk (o_generated o before) st in
  if negb (o_generate_ok o) then (Err "config generate failed", st)
  else if negb (o_hooks_ok o) then (Err "post_generate_hook", st)
  else
    let after := disk (wld st) in
    let shares_after := default shares_before (d_shares after) in
    let st := set_config shares_after (d_host_nfs after) st in
    (Ok {| exports_changed := negb (d_exports before =? d_exports after);
           identity_changed := negb (d_identity before =? d_identity after);
           shares_changed := negb (shares_before =? shares_after);
           avahi_changed := negb (d_avahi before =? d_avahi after) |}, st).

(** The first half of [execute_recycle_plan]: reload or stop Ganesha; a failed
    reload escalates the plan. *)
Definition recycle_ganesha_first (o : Oracle) (plan : ServiceRecyclePlan) (st : St)
  : ServiceRecyclePlan * St :=
  if host_nfs_mode (sup st) then (plan, st)
  else match pl_ganesha plan with
       | GSkip => (plan, st)
       | GSighup =>
           let '(ok, st) := reload_ganesha_exports st in
           if (ok : bool) then (plan, st)
           else
             let plan := ganesha_sighup_failed plan in
             let '(running, st) := ganesha_running st in
             (plan, if (running : bool) then stop_ganesha o st else st)
       | GStopStart => (plan, stop_ganesha o st)
       end.
(** The second half: SSSD, idhelper, Ganesha's start, WebUI, avahi. *)
Definition recycle_services (o : Oracle) (plan : ServiceRecyclePlan) (st : St) : St :=
  let st := if pl_restart_sssd plan then restart_sssd_and_wait o st else st in
  let st := if pl_restart_idhelper plan then restart_idhelper_and_wait_bulk o st else st in
  let st :=
    if negb (host_nfs_mode (sup st)) && bool_decide (pl_ganesha plan = GStopStart) then
      let '(running, st) := ganesha_running st in
      if (running : bool) then st else start_ganesha o (ensure_ganesha_prereqs o st)
    else st in
  let st := match pl_webui plan with
            | WSkip => st
            | WRestart => snd (start_webui o st)
            | WReload => reload_webui o st
            end in
  if pl_restart_avahi plan then start_avahi o (stop_avahi o st) else st.
Definition execute_recycle_plan (o : Oracle) (plan : ServiceRecyclePlan) (st : St) : St :=
  if is_noop plan then st
  else let '(plan, st) := recycle_ganesha_first o plan st in recycle_services o plan st.

Definition finish_recycle (o : Oracle) (st : St) : St :=
  if services_started (sup st) then st
  else snd (start_watcher o (set_started true st)).

Definition handle_sighup (o : Oracle) (st : St) : result unit string * St :=
  let st := refresh_tracked_ganesha_pid st in
  match regenerate_and_diff o st with
  | (Err e, st) => (Err e, st)
  | (Ok ch, st) =>
      let '(plan, st) :=
        if services_started (sup st) then
          let '(running, st) := ganesha_running st in
          (plan_from_changes (exports_changed ch) (identity_changed ch) (shares_changed ch)
             (host_nfs_mode (sup st)) running, st)
        else (plan_full_recycle (host_nfs_mode (sup st)), st) in
      let st := execute_recycle_plan o plan st in
      let st := if avahi_changed ch && negb (pl_restart_avahi plan)
                then reload_avahi_services st else st in
      (Ok tt, finish_recycle o st)
  end.

Definition handle_full_recycle (o : Oracle) (st : St) : result unit string * St :=
  let st := refresh_tracked_ganesha_pid st in
  match regenerate_and_diff o st with
  | (Err e, st) => (Err e, st)
  | (Ok _, st) =>
      let st := execute_recycle_plan o (plan_full_recycle (host_nfs_mode (sup st))) st in
      (Ok tt, finish_recycle o st)
  end.

Definition bring_up_services (o : Oracle) (st : St) : result unit string * St :=
  let st := set_disk (o_generated o (disk (wld st))) st in
  if negb (o_generate_ok o) then (Err "Initial config generation failed", st)
  else if negb (o_hooks_ok o) then (Err "post_generate_hook", st)
  else
    let st := set_config (default 0 (d_shares (disk (wld st)))) (host_nfs_mode (sup st)) st in
    let st := restart_sssd_and_wait o st in
    let st := restart_idhelper_and_wait_bulk o st in
    (Ok tt,
     if host_nfs_mode (sup st) then st
     else start_avahi o (start_ganesha o (ensure_ganesha_prereqs o st))).

(** ** Steady-state liveness *)
Definition dead (st : St) (s : Svc) : bool :=
  match pids (sup st) s with Some p => negb (live st p) | None => false end.
Definition respawn_needed (st : St) (s : Svc) : bool :=
  match s with
  | Webui => dead st Webui
  | Watcher | Sssd | Idhelper | Dbus => services_started (sup st) && dead st s
  | Ganesha => ganesha_managed (sup st) && negb (host_nfs_mode (sup st))
               && negb (live_opt st (pids (sup st) Ganesha))
  | AvahiD => avahi_managed (sup st) && negb (host_nfs_mode (sup st))
              && negb (live_opt st (pids (sup st) AvahiD))
  end.
Definition respawn_service (o : Oracle) (s : Svc) (st : St) : St :=
  match s with
  | Webui => snd (start_webui o st)
  | Watcher => snd (start_watcher o st)
  | Sssd => restart_sssd_and_wait o st
  | Idhelper => restart_idhelper_and_wait_bulk o st
  | Dbus => ensure_ganesha_prereqs o st
  | Ganesha => start_ganesha o st
  | AvahiD => start_avahi o st
  end.
Definition check_one (o : Oracle) (now : Z) (st : St) (s : Svc) : St :=
  if respawn_needed st s then
    let '(d, b) := respawn_decide (respawn (sup st)) s now in
    let st := set_respawn b st in
    match d with
    | Go => respawn_service o s st
    | _ => st
    end
  else st.
Definition respawn_order : list Svc := [Dbus; Sssd; Idhelper; Watcher; Webui; Ganesha; AvahiD].
Definition check_and_respawn_services (o : Oracle) (now : Z) (st : St) : St :=
  foldl (check_one o now) st respawn_order.

(** ** One pass of the loop *)
Record TickInput := {
  t_sighup : bool;
  t_full : bool;
  t_wizard : bool;
  t_step : StartupStep;
  t_now : Z;
}.
Definition start_watcher_if (o : Oracle) (need : bool) (st : St) : St :=
  if need then snd (start_watcher o st) else st.

Definition tick (o : Oracle) (i : TickInput) (st : St) : St :=
  let step := if services_started (sup st) then Ready else t_step i in
  match fst (supervisor_loop_tick (services_started (sup st)) (t_sighup i) (t_full i)
               (t_wizard i) step) with
  | ProcessSighup =>
      let need := negb (is_some (pids (sup st) Watcher)) in
      match handle_sighup o st with
      | (Ok _, st) => start_watcher_if o need (set_started true st)
      | (Err _, st) => st
      end
  | ProcessFullRecycle =>
      let need := negb (is_some (pids (sup st) Watcher)) in
      match handle_full_recycle o st with
      | (Ok _, st) => start_watcher_if o need (set_started true st)
      | (Err _, st) => st
      end
  | BringUpServices =>
      match bring_up_services o st with
      | (Ok _, st) => snd (start_webui o (snd (start_watcher o (set_started true st))))
      | (Err _, st) => st
      end
  | Idle => check_and_respawn_services o (t_now i) st
  end.

(** [run_supervisor] up to the loop: a pre-configured deployment ([bypass]) is
    brought up at once, any other starts with the WebUI wizard alone. *)
Definition boot (o : Oracle) (bypass : bool) (st : St) : result unit string * St :=
  if bypass then
    match bring_up_services o st with
    | (Err e, st) => (Err e, st)
    | (Ok _, st) =>
        let st := snd (start_watcher o (set_started true st)) in
        (Ok tt, if host_nfs_mode (sup st) then st else snd (start_webui o st))
    end
  else
    match start_webui o st with
    | (true, st) => (Ok tt, st)
    | (false, st) => (Err "webui spawn failed", st)
    end.

(** [cleanup]: every tracked child is signalled, Ganesha is waited for, then
    the daemons are signalled by name; the process exits afterwards. *)
Definition cleanup_order : list Svc := [Webui; Ganesha; Sssd; Watcher; Dbus; Idhelper; AvahiD].
Definition cleanup_by_name : list Svc := [AvahiD; Sssd; Watcher; Dbus; Idhelper].
Definition term_tracked (o : Oracle) (st : St) : St :=
  foldl (fun st p => term o p st) st (omap (pids (sup st)) cleanup_order).
Definition cleanup (o : Oracle) (st : St) : St :=
  let st := stop_ganesha o (term_tracked o st) in
  let st := set_avahi_managed false (set_ganesha_managed false st) in
  foldl (fun st s => pkill o s st) st cleanup_by_name.

(** ** Reachability: ticks, processes that die, and edits of the configuration *)
Inductive step : St -> St -> Prop :=
| step_tick o i st : step st (tick o i st)
| step_death p st : step st (reap p st)
| step_config st fp host navahi :
    step st (set_disk {| d_exports := d_exports (disk (wld st));
                         d_identity := d_identity (disk (wld st));
                         d_avahi := d_avahi (disk (wld st));
                         d_shares := fp; d_host_nfs := host; d_navahi := navahi |} st).
Inductive reachable (st0 : St) : St -> Prop :=
| reach_init : reachable st0 st0
| reach_step st st' : reachable st0 st -> step st st' -> reachable st0 st'.

(** ** At most one Ganesha *)
(** Every live Ganesha is the tracked one, and pids are fresh. *)
Definition tracked_ganesha (st : St) : Prop :=
  (forall p, procs (wld st) !! p = Some Ganesha -> pids (sup st) Ganesha = Some p)
  /\ (forall p, is_Some (procs (wld st) !! p) -> p < next_pid (wld st)).

Create HintDb sup discriminated.

Lemma upd_other {A} (f : Svc -> A) s s' v : s <> s' -> upd f s v s' = f s'.
Proof. intros H. unfold upd. by rewrite decide_False. Qed.
Lemma upd_same {A} (f : Svc -> A) s v : upd f s v s = v.
Proof. unfold upd. by rewrite decide_True. Qed.
Lemma tg_set_pid s v st : s <> Ganesha -> tracked_ganesha st -> tracked_ganesha (set_pid s v st).
Proof.
  intros Hs [H1 H2]. split; cbn; [|done]. intros p Hp. unfold upd.
  rewrite decide_False by done. auto.
Qed.
Lemma tg_drop st :
  live_opt st (pids (sup st) Ganesha) = false -> tracked_ganesha st ->
  tracked_ganesha (set_pid Ganesha None st).
Proof.
  intros Hl [H1 H2]. split; cbn; [|done]. intros p Hp. exfalso.
  pose proof (H1 p Hp) as Ht. rewrite Ht in Hl. unfold live_opt, live in Hl.
  by rewrite Hp in Hl.
Qed.
Lemma tg_flags a b c st : tracked_ganesha st -> tracked_ganesha (set_flags a b c st).
Proof. done. Qed.
Lemma tg_config a b st : tracked_ganesha st -> tracked_ganesha (set_config a b st).
Proof. done. Qed.
Lemma tg_respawn b st : tracked_ganesha st -> tracked_ganesha (set_respawn b st).
Proof. done. Qed.
Lemma tg_disk d st : tracked_ganesha st -> tracked_ganesha (set_disk d st).
Proof. done. Qed.
Lemma tg_loaded x st : tracked_ganesha st -> tracked_ganesha (set_loaded x st).
Proof. done. Qed.
Lemma tg_emit e st : tracked_ganesha st -> tracked_ganesha (emit e st).
Proof. done. Qed.
Lemma tg_reap p st : tracked_ganesha st -> tracked_ganesha (reap p st).
Proof.
  intros [H1 H2]. split; cbn; intros q.
  - rewrite lookup_delete_Some. naive_solver.
  - intros [s [_ Hs]%lookup_delete_Some]. apply H2. by eexists.
Qed.
Lemma tg_term o p st : tracked_ganesha st -> tracked_ganesha (term o p st).
Proof. intros. unfold term. destruct (o_term o p); auto using tg_reap, tg_emit. Qed.
Lemma tg_kill9 o p st : tracked_ganesha st -> tracked_ganesha (kill9 o p st).
Proof. intros. unfold kill9. destruct (o_kill o p); auto using tg_reap, tg_emit. Qed.
Lemma tg_pkill o s st : tracked_ganesha st -> tracked_ganesha (pkill o s st).
Proof.
  intros [H1 H2]. split; cbn; intros q.
  - intros [Hq _]%map_lookup_filter_Some. auto.
  - intros [t [Hq _]%map_lookup_filter_Some]. apply H2. by eexists.
Qed.
Lemma tg_spawn s st : s <> Ganesha -> tracked_ganesha st -> tracked_ganesha (snd (spawn s st)).
Proof.
  intros Hs [H1 H2]. split; cbn; intros q.
  - intros [[? ?]|[_ Hq]]%lookup_insert_Some; [done|auto].
  - intros [t [[<- _]|[_ Hq]]%lookup_insert_Some]; [lia|].
    assert (q < next_pid (wld st)); [apply H2; by eexists|lia].
Qed.
#[local] Hint Resolve tg_set_pid tg_flags tg_config tg_respawn tg_disk tg_loaded tg_emit tg_reap
  tg_term tg_kill9 tg_pkill tg_spawn : sup.
#[local] Hint Extern 1 (_ <> Ganesha) => discriminate : sup.

Lemma tg_spawn_track s st :
  s <> Ganesha -> tracked_ganesha st ->
  tracked_ganesha (set_pid s (Some (fst (spawn s st))) (snd (spawn s st))).
Proof. auto with sup. Qed.

Lemma tg_refresh st : tracked_ganesha st -> tracked_ganesha (refresh_tracked_ganesha_pid st).
Proof.
  intros H. unfold refresh_tracked_ganesha_pid.
  destruct (pids (sup st) Ganesha) as [p|] eqn:E; [|done].
  destruct (live st p) eqn:El; [done|]. apply tg_drop; [|done]. by rewrite E.
Qed.
Lemma tg_drop_dead p st :
  pids (sup st) Ganesha = Some p -> live st p = false -> tracked_ganesha st ->
  tracked_ganesha (set_ganesha_managed false (set_pid Ganesha None st)).
Proof. intros E El H. apply tg_flags, tg_drop; [|done]. by rewrite E. Qed.

Lemma pids_term o p st : pids (sup (term o p st)) = pids (sup st).
Proof. unfold term. by destruct (o_term o p). Qed.
Lemma pids_kill9 o p st : pids (sup (kill9 o p st)) = pids (sup st).
Proof. unfold kill9. by destruct (o_kill o p). Qed.

Lemma tg_stop_ganesha o st : tracked_ganesha st -> tracked_ganesha (stop_ganesha o st).
Proof.
  intros H%tg_refresh. unfold stop_ganesha. revert H.
  generalize (refresh_tracked_ganesha_pid st). clear st. intros st H.
  destruct (pids (sup st) Ganesha) as [p|] eqn:E; [|by apply tg_flags].
  destruct (live st p) eqn:E1; cbn [negb]; [|by apply (tg_drop_dead p)].
  destruct (live (term o p st) p) eqn:E2; cbn [negb].
  - destruct (live (kill9 o p (term o p st)) p) eqn:E3; cbn [negb]; [auto with sup|].
    apply (tg_drop_dead p); [by rewrite pids_kill9, pids_term|done|auto with sup].
  - apply (tg_drop_dead p); [by rewrite pids_term|done|auto with sup].
Qed.

Lemma no_live_ganesha st :
  tracked_ganesha st -> live_opt st (pids (sup st) Ganesha) = false ->
  forall p, procs (wld st) !! p <> Some Ganesha.
Proof.
  intros [H1 _] Hl p Hp. rewrite (H1 p Hp) in Hl. unfold live_opt, live in Hl.
  by rewrite Hp in Hl.
Qed.
Lemma tg_spawn_ganesha st :
  tracked_ganesha st -> (forall p, procs (wld st) !! p <> Some Ganesha) ->
  tracked_ganesha (set_pid Ganesha (Some (fst (spawn Ganesha st))) (snd (spawn Ganesha st))).
Proof.
  intros [_ H2] Hn. split; cbn; intros q.
  - unfold upd. rewrite decide_True by done.
    intros [[-> _]|[_ Hq]]%lookup_insert_Some; [done|]. by destruct (Hn q).
  - intros [t [[<- _]|[_ Hq]]%lookup_insert_Some]; [lia|].
    assert (q < next_pid (wld st)); [apply H2; by eexists|lia].
Qed.
Lemma ganesha_pids_spec st p : p ∈ ganesha_pids st <-> procs (wld st) !! p = Some Ganesha.
Proof.
  unfold ganesha_pids. rewrite list_elem_of_omap. split.
  - intros ([q s] & Hq%elem_of_map_to_list & H). cbn in H. by case_decide; simplify_eq.
  - intros H. exists (p, Ganesha). by rewrite elem_of_map_to_list.
Qed.
Lemma discover_spec st :
  match discover_live_ganesha st with
  | Some p => procs (wld st) !! p = Some Ganesha
  | None => forall p, procs (wld st) !! p <> Some Ganesha
  end.
Proof.
  unfold discover_live_ganesha. pose proof (ganesha_pids_spec st) as H. destruct (ganesha_pids st) as [|p l].
  - intros p Hp%H. by apply elem_of_nil in Hp.
  - apply H. clear. induction l as [|q l IH]; cbn; [by left|].
    destruct (Z.min_spec q (foldr Z.min p l)) as [[_ ->]|[_ ->]]; [by right; left|].
    apply elem_of_cons in IH as [->|]; [by left|by right; right].
Qed.
Lemma tg_confirm o st :
  (forall p q, procs (wld st) !! p = Some Ganesha -> procs (wld st) !! q = Some Ganesha -> p = q) ->
  (forall p, is_Some (procs (wld st) !! p) -> p < next_pid (wld st)) ->
  (live_opt st (pids (sup st) Ganesha) = true -> tracked_ganesha st) -> ganesha_managed (sup st) = true ->
  tracked_ganesha (confirm_ganesha_pid o st).
Proof.
  intros Hu Hf Hl Hm. unfold confirm_ganesha_pid. rewrite Hm. cbn [negb].
  destruct (live_opt st _); [by apply Hl|]. pose proof (discover_spec st) as Hd.
  destruct (discover_live_ganesha st) as [p|].
  - split; cbn; [|done]. intros q Hq. rewrite upd_same. f_equal. by apply Hu.
  - repeat case_match; (split; cbn; [|done]); intros q Hq; by destruct (Hd q).
Qed.
(** After the pause, the daemon that was spawned or forked is tracked again. *)
Lemma tg_launch_confirm o p st :
  ganesha_managed (sup st) = true -> pids (sup st) Ganesha = Some p -> tracked_ganesha st ->
  tracked_ganesha (confirm_ganesha_pid o (launch_pause o p st)).
Proof.
  intros Hm Hp H. assert (Hr : forall q, procs (wld (reap p st)) !! q <> Some Ganesha).
  { cbn. intros q [Hq Hg]%lookup_delete_Some. apply (proj1 H) in Hg. congruence. }
  assert (Hdead : live (reap p st) p = false) by (unfold live; cbn; by rewrite lookup_delete_eq).
  pose proof (tg_reap p st H) as [_ Hf]. unfold launch_pause. destruct (o_launch o); apply tg_confirm; try done.
  - intros q r Hq Hg. apply (proj1 H) in Hq, Hg. congruence.
  - apply H.
  - intros q r Hq. by destruct (Hr q).
  - intros _. split; [|exact Hf]. intros q Hq. by destruct (Hr q).
  - intros q r. cbn. intros [[<- _]|[_ Hq]]%lookup_insert_Some; [|by destruct (Hr q)].
    intros [[<- _]|[_ Hg]]%lookup_insert_Some; [done|by destruct (Hr r)].
  - cbn. intros q [t [[<- _]|[_ Hq]]%lookup_insert_Some]; [lia|].
    specialize (Hf q ltac:(by eexists)). cbn in Hf. lia.
  - intros Hl. assert (Hn : p = next_pid (wld st)).
    { destruct (decide (next_pid (wld st) = p)) as [->|Hne]; [done|]. revert Hl.
      cbn. rewrite Hp. cbn. unfold live. cbn. by rewrite lookup_insert_ne, lookup_delete_eq. }
    split; cbn.
    + intros q [[<- _]|[_ Hq]]%lookup_insert_Some; [congruence|by destruct (Hr q)].
    + intros q [t [[<- _]|[_ Hq]]%lookup_insert_Some]; [lia|].
      specialize (Hf q ltac:(by eexists)). cbn in Hf. lia.
Qed.
Lemma tg_start_ganesha o st : tracked_ganesha st -> tracked_ganesha (start_ganesha o st).
Proof.
  intros H. unfold start_ganesha. destruct (live_opt st _) eqn:El; [done|].
  pose proof (no_live_ganesha st H El) as Hn.
  set (st1 := match pids (sup st) Ganesha with Some _ => set_pid Ganesha None st | None => st end).
  assert (tracked_ganesha st1 /\ forall p, procs (wld st1) !! p <> Some Ganesha) as [H1 Hn1].
  { unfold st1. destruct (pids (sup st) Ganesha) eqn:E; [|done]. split; [|done].
    apply tg_drop; [|done]. by rewrite E. }
  destruct (o_warm o); [|done]. destruct (o_spawn o Ganesha); [|done].
  apply tg_launch_confirm; [done|apply upd_same|apply tg_flags, (tg_spawn_ganesha st1 H1 Hn1)].
Qed.
#[local] Hint Resolve tg_refresh tg_stop_ganesha tg_start_ganesha tg_spawn_track : sup.

(** ** Predicates closed under the supervisor's actions

    A predicate on states that survives the elementary actions on services
    other than Ganesha survives every handler, as soon as it survives the
    three operations on Ganesha itself. *)
Class Closed (P : St -> Prop) : Prop := {
  law_cl_set_pid : forall s v st, s <> Ganesha -> P st -> P (set_pid s v st);
  law_cl_avahi : forall b st, P st -> P (set_avahi_managed b st);
  law_cl_config : forall a b st, P st -> P (set_config a b st);
  law_cl_respawn : forall b st, P st -> P (set_respawn b st);
  law_cl_emit : forall e st, P st -> P (emit e st);
  law_cl_reap : forall p st, P st -> P (reap p st);
  law_cl_pkill : forall o s st, P st -> P (pkill o s st);
  law_cl_spawn : forall s st, s <> Ganesha -> P st -> P (snd (spawn s st));
}.
Class ClosedStarted (P : St -> Prop) : Prop :=
  law_cl_started : forall st, P st -> P (set_started true st).
Class ClosedDisk (P : St -> Prop) : Prop :=
  law_cl_disk : forall d st, P st -> P (set_disk d st).
Class ClosedGanesha (P : St -> Prop) : Prop := {
  law_cg_refresh : forall st, P st -> P (refresh_tracked_ganesha_pid st);
  law_cg_reload : forall st, P st -> P (snd (reload_ganesha_exports st));
  law_cg_stop : forall o st, P st -> P (stop_ganesha o st);
  law_cg_start : forall o st, P st -> P (start_ganesha o st);
}.

Section ClosedHandlers.
Context (P : St -> Prop) `{!Closed P}.

Lemma cl_set_pid : forall s v st, s <> Ganesha -> P st -> P (set_pid s v st).
Proof. apply law_cl_set_pid. Qed.
Lemma cl_avahi : forall b st, P st -> P (set_avahi_managed b st).
Proof. apply law_cl_avahi. Qed.
Lemma cl_config : forall a b st, P st -> P (set_config a b st).
Proof. apply law_cl_config. Qed.
Lemma cl_respawn : forall b st, P st -> P (set_respawn b st).
Proof. apply law_cl_respawn. Qed.
Lemma cl_emit : forall e st, P st -> P (emit e st).
Proof. apply law_cl_emit. Qed.
Lemma cl_reap : forall p st, P st -> P (reap p st).
Proof. apply law_cl_reap. Qed.
Lemma cl_pkill : forall o s st, P st -> P (pkill o s st).
Proof. apply law_cl_pkill. Qed.
Lemma cl_spawn : forall s st, s <> Ganesha -> P st -> P (snd (spawn s st)).
Proof. apply law_cl_spawn. Qed.

Lemma cl_term o p st : P st -> P (term o p st).
Proof. intros. unfold term. destruct (o_term o p); auto using cl_reap, cl_emit. Qed.
Lemma cl_kill9 o p st : P st -> P (kill9 o p st).
Proof. intros. unfold kill9. destruct (o_kill o p); auto using cl_reap, cl_emit. Qed.
Lemma cl_spawn_track s st :
  s <> Ganesha -> P st -> P (set_pid s (Some (fst (spawn s st))) (snd (spawn s st))).
Proof. intros. by apply cl_set_pid, cl_spawn. Qed.
Lemma cl_start_watcher o st : P st -> P (snd (start_watcher o st)).
Proof.
  intros. unfold start_watcher. destruct (o_spawn o Watcher); [|done].
  by apply cl_spawn_track.
Qed.
Lemma cl_start_webui o st : P st -> P (snd (start_webui o st)).
Proof.
  intros H. unfold start_webui.
  set (st1 := match pids (sup st) Webui with Some p => term o p st | None => st end).
  assert (P st1) by (unfold st1; case_match; auto using cl_term).
  destruct (o_spawn o Webui); [|done]. by apply (cl_spawn_track Webui st1).
Qed.
Lemma cl_restart_webui o st : P st -> P (snd (start_webui o (set_pid Webui None st))).
Proof. intros. by apply cl_start_webui, cl_set_pid. Qed.
Lemma cl_reload_webui o st : P st -> P (reload_webui o st).
Proof.
  intros H. unfold reload_webui.
  destruct (pids (sup st) Webui) as [p|]; [|by apply cl_restart_webui].
  destruct (live st p); [|by apply cl_restart_webui].
  set (st1 := if o_hup_kills o then reap p (emit (EHup p) st) else emit (EHup p) st).
  assert (P st1) by (unfold st1; destruct (o_hup_kills o); auto using cl_reap, cl_emit).
  cbn zeta. destruct (negb (live st1 p)); [by apply cl_restart_webui | done].
Qed.
Lemma cl_restart_by_name o s st : s <> Ganesha -> P st -> P (restart_by_name o s st).
Proof.
  intros Hs H. unfold restart_by_name.
  set (st1 := match pids (sup st) s with Some p => term o p st | None => st end).
  assert (P st1) by (unfold st1; case_match; auto using cl_term).
  destruct (o_spawn o s); [|by apply cl_pkill].
  by apply (cl_spawn_track s (pkill o s st1)), cl_pkill.
Qed.
Lemma cl_prereqs o st : P st -> P (ensure_ganesha_prereqs o st).
Proof.
  intros H. unfold ensure_ganesha_prereqs. destruct (svc_running Dbus st); [done|].
  destruct (o_spawn o Dbus); [|done]. by apply cl_spawn_track.
Qed.
Lemma cl_start_avahi o st : P st -> P (start_avahi o st).
Proof.
  intros H. unfold start_avahi.
  destruct (negb (d_navahi _)); [done|]. destruct (host_nfs_mode _); [done|].
  destruct (live_opt st _); [done|].
  set (st1 := match pids (sup st) AvahiD with Some _ => set_pid AvahiD None st | None => st end).
  assert (P st1) by (unfold st1; case_match; [by apply cl_set_pid | done]).
  destruct (o_spawn o AvahiD); [|done]. by apply cl_avahi, (cl_spawn_track AvahiD st1).
Qed.
Lemma cl_stop_avahi o st : P st -> P (stop_avahi o st).
Proof.
  intros H. unfold stop_avahi. destruct (pids (sup st) AvahiD) as [p|]; [|by apply cl_avahi].
  apply cl_avahi, cl_set_pid; [done|].
  destruct (live st p); [|done]. destruct (live (term o p st) p); auto using cl_kill9, cl_term.
Qed.
Lemma cl_reload_avahi st : P st -> P (reload_avahi_services st).
Proof. intros H. unfold reload_avahi_services. repeat case_match; auto using cl_emit. Qed.
(** The second half of a plan: only the restart of Ganesha needs more. *)
Lemma cl_recycle_gen o plan st :
  (pl_ganesha plan = GStopStart -> forall st, P st ->
     P (snd (ganesha_running st)) /\ P (start_ganesha o (ensure_ganesha_prereqs o st))) ->
  P st -> P (recycle_services o plan st).
Proof.
  intros Hst H. unfold recycle_services.
  set (st2 := if pl_restart_sssd plan then restart_sssd_and_wait o st else st).
  assert (H2 : P st2) by (unfold st2; destruct (pl_restart_sssd plan); [by apply cl_restart_by_name | done]).
  set (st3 := if pl_restart_idhelper plan then restart_idhelper_and_wait_bulk o st2 else st2).
  assert (H3 : P st3) by (unfold st3; destruct (pl_restart_idhelper plan); [by apply cl_restart_by_name | done]).
  match goal with |- context [match pl_webui plan with WSkip => ?x | _ => _ end] => set (st4 := x) end.
  assert (H4 : P st4).
  { unfold st4. destruct (negb _); [|done]. cbn [andb]. destruct (bool_decide _) eqn:E; [|done].
    apply bool_decide_eq_true in E. destruct (Hst E st3 H3) as [Hg _].
    destruct (ganesha_running st3) as [running st5]. cbn in Hg.
    destruct running; [done|]. by apply Hst. }
  assert (H5 : P (match pl_webui plan with WSkip => st4 | WRestart => snd (start_webui o st4)
                  | WReload => reload_webui o st4 end)).
  { destruct (pl_webui plan); auto using cl_reload_webui, cl_start_webui. }
  destruct (pl_restart_avahi plan); [by apply cl_start_avahi, cl_stop_avahi | done].
Qed.
(** A plan that skips Ganesha preserves any closed predicate. *)
Lemma cl_execute_skip o plan st :
  pl_ganesha plan = GSkip -> P st -> P (execute_recycle_plan o plan st).
Proof.
  intros Hp H. unfold execute_recycle_plan. destruct (is_noop plan); [done|].
  assert (recycle_ganesha_first o plan st = (plan, st)) as ->.
  { unfold recycle_ganesha_first. rewrite Hp. by destruct (host_nfs_mode (sup st)). }
  apply cl_recycle_gen; [|done]. by rewrite Hp.
Qed.
Lemma cl_respawn_other o s st : s <> Ganesha -> P st -> P (respawn_service o s st).
Proof.
  intros Hs H. destruct s; cbn; [by apply cl_start_watcher|by apply cl_restart_by_name|done
    |by apply cl_start_webui|by apply cl_prereqs|by apply cl_restart_by_name|by apply cl_start_avahi].
Qed.
(** The liveness pass: only the respawn of Ganesha needs an argument of its own. *)
Lemma cl_check_gen o now st :
  (forall st b, P st -> respawn_needed st Ganesha = true ->
     P (start_ganesha o (set_respawn b st))) ->
  P st -> P (check_and_respawn_services o now st).
Proof.
  intros Hg. unfold check_and_respawn_services. generalize respawn_order. intros l. revert st.
  induction l as [|s l IH]; intros st H; [done|]. cbn. apply IH. unfold check_one.
  destruct (respawn_needed st s) eqn:En; [|done].
  destruct (respawn_decide _ s now) as [[| |f] b]; [|by apply cl_respawn..].
  destruct (decide (s = Ganesha)) as [->|Hs]; [by apply Hg|].
  by apply cl_respawn_other, cl_respawn.
Qed.

Context `{!ClosedGanesha P}.

Lemma cg_refresh : forall st, P st -> P (refresh_tracked_ganesha_pid st).
Proof. apply law_cg_refresh. Qed.
Lemma cg_reload : forall st, P st -> P (snd (reload_ganesha_exports st)).
Proof. apply law_cg_reload. Qed.
Lemma cg_stop : forall o st, P st -> P (stop_ganesha o st).
Proof. apply law_cg_stop. Qed.
Lemma cg_start : forall o st, P st -> P (start_ganesha o st).
Proof. apply law_cg_start. Qed.

Lemma cg_running st : P st -> P (snd (ganesha_running st)).
Proof. apply cg_refresh. Qed.

Lemma cl_ganesha_first o plan st : P st -> P (snd (recycle_ganesha_first o plan st)).
Proof.
  intros H. unfold recycle_ganesha_first. destruct (host_nfs_mode (sup st)); [done|].
  destruct (pl_ganesha plan); [done| |by apply cg_stop].
  pose proof (cg_reload st H) as Hr. destruct (reload_ganesha_exports st) as [ok st1].
  cbn in Hr. destruct ok; [done|]. pose proof (cg_running st1 Hr) as Hg.
  destruct (ganesha_running st1) as [running st2]. cbn in Hg |- *.
  destruct running; [by apply cg_stop | done].
Qed.
Lemma cl_recycle_services o plan st : P st -> P (recycle_services o plan st).
Proof. apply cl_recycle_gen. intros _ st' H. split; [by apply cg_running | by apply cg_start, cl_prereqs]. Qed.
Lemma cl_execute o plan st : P st -> P (execute_recycle_plan o plan st).
Proof.
  intros H. unfold execute_recycle_plan. destruct (is_noop plan); [done|].
  pose proof (cl_ganesha_first o plan st H) as Hf.
  destruct (recycle_ganesha_first o plan st) as [plan1 st1]. by apply cl_recycle_services.
Qed.
Lemma cl_respawn_service o s st : P st -> P (respawn_service o s st).
Proof. intros H. destruct (decide (s = Ganesha)) as [->|]; [by apply cg_start | by apply cl_respawn_other]. Qed.
Lemma cl_check o now st : P st -> P (check_and_respawn_services o now st).
Proof. apply cl_check_gen. intros st' b H _. by apply cg_start, cl_respawn. Qed.

Context `{!ClosedStarted P} `{!ClosedDisk P}.

Lemma cl_started : forall st, P st -> P (set_started true st).
Proof. apply law_cl_started. Qed.
Lemma cl_finish o st : P st -> P (finish_recycle o st).
Proof.
  intros H. unfold finish_recycle. destruct (services_started _); [done|].
  by apply cl_start_watcher, cl_started.
Qed.
Lemma cl_disk d st : P st -> P (set_disk d st).
Proof. apply law_cl_disk. Qed.
Lemma cl_regenerate o st : P st -> P (snd (regenerate_and_diff o st)).
Proof.
  intros H. unfold regenerate_and_diff. destruct (o_generate_ok o), (o_hooks_ok o); cbn;
    auto using cl_disk, cl_config.
Qed.

Lemma cl_handle_sighup o st : P st -> P (snd (handle_sighup o st)).
Proof.
  intros H%cg_refresh. unfold handle_sighup.
  pose proof (cl_regenerate o _ H) as Hr.
  destruct (regenerate_and_diff o _) as [[ch|e] st1]; cbn in Hr; [|done].
  match goal with |- context [let '(_, _) := ?x in _] => set (first := x) end.
  assert (Hf : P (snd first)).
  { unfold first. destruct (services_started (sup st1)); [|done].
    pose proof (cg_running st1 Hr) as Hg. by destruct (ganesha_running st1) as [running st2]. }
  destruct first as [plan st2]. cbn in Hf |- *. apply cl_finish.
  destruct (avahi_changed ch && _); auto using cl_reload_avahi, cl_execute.
Qed.
Lemma cl_handle_full o st : P st -> P (snd (handle_full_recycle o st)).
Proof.
  intros H%cg_refresh. unfold handle_full_recycle.
  pose proof (cl_regenerate o _ H) as Hr.
  destruct (regenerate_and_diff o _) as [[ch|e] st1]; cbn in Hr |- *; [|done].
  by apply cl_finish, cl_execute.
Qed.
Lemma cl_bring_up o st : P st -> P (snd (bring_up_services o st)).
Proof.
  intros H. unfold bring_up_services. apply (cl_disk (o_generated o (disk (wld st)))) in H.
  destruct (o_generate_ok o), (o_hooks_ok o); cbn [negb]; try done. cbn [snd].
  set (st1 := restart_idhelper_and_wait_bulk o _).
  assert (H1 : P st1) by (by apply cl_restart_by_name, cl_restart_by_name, cl_config).
  destruct (host_nfs_mode (sup st1)); [done|]. by apply cl_start_avahi, cg_start, cl_prereqs.
Qed.
Lemma cl_tick o i st : P st -> P (tick o i st).
Proof.
  intros H. unfold tick. destruct (fst _).
  - pose proof (cl_handle_sighup o st H) as Hs. destruct (handle_sighup o st) as [[]]; cbn in Hs; [|done].
    unfold start_watcher_if. case_match; auto using cl_start_watcher, cl_started.
  - pose proof (cl_handle_full o st H) as Hs. destruct (handle_full_recycle o st) as [[]]; cbn in Hs; [|done].
    unfold start_watcher_if. case_match; auto using cl_start_watcher, cl_started.
  - pose proof (cl_bring_up o st H) as Hs. destruct (bring_up_services o st) as [[]]; cbn in Hs; [|done].
    by apply cl_start_webui, cl_start_watcher, cl_started.
  - by apply cl_check.
Qed.
Lemma cl_boot o bypass st : P st -> P (snd (boot o bypass st)).
Proof.
  intros H. unfold boot. destruct bypass.
  - pose proof (cl_bring_up o st H) as Hb. destruct (bring_up_services o st) as [[] st1]; [|done].
    cbn in Hb |- *. case_match; auto using cl_start_webui, cl_start_watcher, cl_started.
  - pose proof (cl_start_webui o st H) as Hw. by destruct (start_webui o st) as [[] st1].
Qed.
Lemma cl_reachable st0 st : P st0 -> reachable st0 st -> P st.
Proof.
  intros H0. induction 1 as [|st st' _ IH Hs]; [done|].
  destruct Hs; auto using cl_tick, cl_reap, cl_disk.
Qed.
End ClosedHandlers.

#[export] Instance tracked_closed : Closed tracked_ganesha.
Proof. split; auto with sup. Qed.
#[export] Instance tracked_closed_started : ClosedStarted tracked_ganesha.
Proof. intros st. apply tg_flags. Qed.
#[export] Instance tracked_closed_disk : ClosedDisk tracked_ganesha.
Proof. intros d st. apply tg_disk. Qed.
#[export] Instance tracked_closed_ganesha : ClosedGanesha tracked_ganesha.
Proof.
  split; auto with sup. intros st H%tg_refresh. unfold reload_ganesha_exports.
  destruct (pids (sup (refresh_tracked_ganesha_pid st)) Ganesha) as [p|] eqn:E; [|done].
  destruct (live _ p) eqn:El; cbn; [auto with sup|]. apply tg_drop; [|done]. by rewrite E.
Qed.

Lemma tracked_init host w : procs w = ∅ -> tracked_ganesha {| sup := init_sup host; wld := w |}.
Proof.
  intros Hw. split; cbn; rewrite Hw; intros x; [|intros [? Hx]]; by rewrite lookup_empty in *.
Qed.

(** C2: from boot on, whatever signals arrive, whichever processes die or
    refuse to die, the supervisor never runs two Ganesha daemons: every live
    Ganesha is the one it tracks (a daemon that survives SIGKILL stays tracked
    and blocks the next start). *)
Theorem at_most_one_ganesha host w o bypass st p q :
  procs w = ∅ ->
  reachable (snd (boot o bypass {| sup := init_sup host; wld := w |})) st ->
  procs (wld st) !! p = Some Ganesha -> procs (wld st) !! q = Some Ganesha ->
  p = q /\ pids (sup st) Ganesha = Some p.
Proof.
  intros Hw%(tracked_init host) Hr Hp Hq.
  apply (cl_boot tracked_ganesha o bypass) in Hw.
  apply (cl_reachable tracked_ganesha _ _ Hw) in Hr as [H _].
  pose proof (H p Hp) as Hp'. pose proof (H q Hq) as Hq'. split; congruence.
Qed.

(** ** A concrete run *)
Definition demo_disk : Disk :=
  {| d_exports := 7; d_identity := 3; d_avahi := 1; d_shares := Some 5;
     d_host_nfs := false; d_navahi := false |}.
Definition demo_world : World :=
  {| procs := ∅; next_pid := 100; disk := demo_disk; loaded_exports := 0; events := [] |}.
(** Everything works, and the generator rewrites the same files. *)
Definition demo_oracle : Oracle :=
  {| o_spawn := fun _ => true; o_term := fun _ => true; o_kill := fun _ => true;
     o_launch := Stays; o_pid_file := None; o_hup_kills := false; o_warm := true; o_generated := fun d => d;
     o_generate_ok := true; o_hooks_ok := true |}.
Definition demo_boot (o : Oracle) : St :=
  snd (boot o true {| sup := init_sup false; wld := demo_world |}).
Definition quiet_input (now : Z) : TickInput :=
  {| t_sighup := false; t_full := false; t_wizard := true; t_step := Ready; t_now := now |}.
Definition full_input (now : Z) : TickInput :=
  {| t_sighup := false; t_full := true; t_wizard := true; t_step := Ready; t_now := now |}.
Definition hup_input (now : Z) : TickInput :=
  {| t_sighup := true; t_full := false; t_wizard := true; t_step := Ready; t_now := now |}.

Lemma at_most_one_ganesha_witness :
  let st := tick demo_oracle (full_input 50) (demo_boot demo_oracle) in
  pids (sup st) Ganesha = Some 108.
Proof.
  refine (proj2 (at_most_one_ganesha false demo_world demo_oracle true _ 108 108
    eq_refl (reach_step _ _ _ (reach_init _) (step_tick demo_oracle (full_input 50) _)) _ _));
    vm_compute; reflexivity.
Defined.
