(* ===== verification/SupervisorProps.v ===== *)
(** * What the supervisor guarantees over time

    Theorems about [Supervisor]: the respawn rate limit, the export reload
    protocol between the generator and Ganesha, failed reloads, the shutdown,
    and two places where the loop loses work. *)

From stdpp Require Import sorting.
From S2P Require Import Prelude RustStr Identity Config FsProbe Generate Recycle Startup Supervisor.
Local Open Scope Z_scope.

(** ** The respawn budget *)

(** Calls of [decide] at non-decreasing times [now]; [g] lists the times at
    which service [s] was allowed to respawn. *)
Inductive respawn_run (s : Svc) : Z -> RespawnBudget -> list Z -> Prop :=
| rr_start now : respawn_run s now empty_budget []
| rr_call now0 b g s' now :
    respawn_run s now0 b g -> now0 <= now ->
    respawn_run s now (snd (respawn_decide b s' now))
      (match fst (respawn_decide b s' now) with
       | Go => if decide (s' = s) then g ++ [now] else g
       | _ => g
       end).

Definition in_window (now t : Z) : bool := now - t <? RESPAWN_WINDOW.

Lemma in_window_mono now now' t : now <= now' -> in_window now' t = true -> in_window now t = true.
Proof. unfold in_window. rewrite !Z.ltb_lt. lia. Qed.

Lemma filter_window now now' g :
  now <= now' ->
  List.filter (in_window now') (List.filter (in_window now) g) = List.filter (in_window now') g.
Proof.
  intros Hn. induction g as [|t g IH]; [done|]. cbn.
  destruct (in_window now t) eqn:E; cbn; [by rewrite IH|].
  destruct (in_window now' t) eqn:E'; [|done].
  apply (in_window_mono now) in E'; [congruence|done].
Qed.

(** The remembered attempts are the recent part of the whole history. *)
Definition budget_inv (s : Svc) (now : Z) (b : RespawnBudget) (g : list Z) : Prop :=
  List.filter (in_window now) (attempts b s) = List.filter (in_window now) g
  /\ Forall (fun t => t <= now) g /\ StronglySorted Z.le g.
(** Two consecutive respawns are a cooldown apart, any four span the window. *)
Definition rate_limited (g : list Z) : Prop :=
  (forall i t t', g !! i = Some t -> g !! S i = Some t' -> RESPAWN_COOLDOWN <= t' - t)
  /\ (forall i t t', g !! i = Some t -> g !! (i + RESPAWN_BUDGET)%nat = Some t' ->
        RESPAWN_WINDOW <= t' - t).

Lemma sorted_window now g :
  StronglySorted Z.le g ->
  exists old, g = old ++ List.filter (in_window now) g
    /\ Forall (fun t => RESPAWN_WINDOW <= now - t) old.
Proof.
  induction 1 as [|t g Hs (old & Heq & Ho) Ht]; [by exists []|]. cbn.
  destruct (in_window now t) eqn:E.
  - exists []. split; [|done]. cbn. f_equal. symmetry.
    assert (Forall (fun u => in_window now u = true) g) as Hall.
    { eapply Forall_impl; [exact Ht|]. intros u Hu. revert E. unfold in_window.
      rewrite !Z.ltb_lt. lia. }
    clear -Hall. induction Hall as [|u g Hu _ IH]; [done|]. cbn. by rewrite Hu, IH.
  - exists (t :: old). split; [cbn; congruence|]. constructor; [|done].
    revert E. unfold in_window. rewrite Z.ltb_ge. lia.
Qed.

Lemma rate_limited_snoc now g old h :
  g = old ++ h -> Forall (fun t => RESPAWN_WINDOW <= now - t) old ->
  (length h < RESPAWN_BUDGET)%nat ->
  (forall t, last h = Some t -> RESPAWN_COOLDOWN <= now - t) ->
  rate_limited g -> rate_limited (g ++ [now]).
Proof.
  intros -> Ho Hh Hl [Hc Hw]. rewrite Forall_forall in Ho.
  assert (Hold : forall i t, (old ++ h) !! i = Some t -> (i < length old)%nat ->
            RESPAWN_WINDOW <= now - t).
  { intros i t Hi Hlt. rewrite lookup_app_l in Hi by done.
    apply Ho. by eapply list_elem_of_lookup_2. }
  assert (Hsnoc : forall i k t t', (old ++ h ++ [now]) !! i = Some t ->
    (old ++ h ++ [now]) !! (i + S k)%nat = Some t' ->
    ((old ++ h) !! i = Some t /\ (old ++ h) !! (i + S k)%nat = Some t')
    \/ (t' = now /\ (old ++ h) !! i = Some t /\ (i + S k = length (old ++ h))%nat)).
  { intros i k t t' Hi Hj. rewrite app_assoc in Hi, Hj.
    pose proof (lookup_lt_Some _ _ _ Hj) as Hlt. rewrite length_app in Hlt. cbn in Hlt.
    rewrite lookup_app_l in Hi by lia.
    apply lookup_app_Some in Hj as [Hj|[Hge Hj]]; [by left|right].
    apply list_lookup_singleton_Some in Hj as [? <-]. split_and!; [done|done|lia]. }
  rewrite <- app_assoc in *. split.
  - intros i t t' Hi Hj. rewrite <- Nat.add_1_r in Hj.
    destruct (Hsnoc i 0%nat t t' Hi Hj) as [[Hi' Hj']|(-> & Hi' & Hlen)].
    { rewrite Nat.add_1_r in Hj'. by eapply Hc. }
    destruct (decide (h = [])) as [->|Hne].
    + rewrite app_nil_r in Hi', Hlen. pose proof (Hold i t) as H'. rewrite app_nil_r in H'.
      specialize (H' Hi' ltac:(lia)). unfold RESPAWN_WINDOW, RESPAWN_COOLDOWN in *. lia.
    + apply Hl. rewrite last_lookup. rewrite length_app in Hlen.
      destruct h as [|x h]; [done|]. cbn in Hlen |- *.
      rewrite lookup_app_r in Hi' by lia. rewrite <- Hi'. f_equal. lia.
  - intros i t t' Hi Hj.
    destruct (Hsnoc i 2%nat t t' Hi Hj) as [[Hi' Hj']|(-> & Hi' & Hlen)]; [by eapply Hw|].
    apply (Hold i t Hi'). rewrite length_app in Hlen. unfold RESPAWN_BUDGET in Hh. lia.
Qed.

Lemma respawn_run_inv s now b g :
  respawn_run s now b g -> budget_inv s now b g /\ rate_limited g.
Proof.
  induction 1 as [now|now0 b g s' now _ [(Hf & Hle & Hs) Hr] Hn].
  { split; [split_and!; constructor|]. by split; intros i t t'; rewrite !lookup_nil. }
  assert (Hf' : List.filter (in_window now) (attempts b s) = List.filter (in_window now) g).
  { rewrite <- (filter_window now0 now (attempts b s)), Hf, (filter_window now0) by done. done. }
  assert (Hle' : Forall (fun t => t <= now) g) by (eapply Forall_impl; [exact Hle|]; cbn; lia).
  destruct (decide (s' = s)) as [->|Hne].
  - unfold respawn_decide. fold (in_window now). rewrite Hf'.
    set (h := List.filter (in_window now) g).
    assert (Hh : List.filter (in_window now) h = h) by (apply filter_window; lia).
    destruct (match last h with Some t => now - t <? RESPAWN_COOLDOWN | None => false end) eqn:El;
      [|destruct (RESPAWN_BUDGET <=? length h)%nat eqn:Eb]; cbn [fst snd].
    + split; [|done]. split_and!; [|done..]. cbn. unfold upd. by rewrite decide_True by done.
    + split; [|done]. split_and!; [|done..]. cbn. unfold upd. by rewrite decide_True by done.
    + destruct (sorted_window now g Hs) as (old & Heq & Ho). fold h in Heq. split.
      * split_and!.
        -- cbn. unfold upd. rewrite decide_True by done. rewrite !List.filter_app.
           by fold h; rewrite Hh.
        -- apply Forall_app. split; [done|]. constructor; [lia|done].
        -- apply StronglySorted_app_2; [|done|by constructor; constructor].
           intros x y Hx ->%list_elem_of_singleton. rewrite Forall_forall in Hle'. by apply Hle'.
      * eapply rate_limited_snoc; [exact Heq|done|by apply Nat.leb_gt|..|done].
        intros t Ht. rewrite Ht in El. by apply Z.ltb_ge.
  - assert (Ha : attempts (snd (respawn_decide b s' now)) s = attempts b s).
    { unfold respawn_decide. repeat case_match; cbn; unfold upd; by rewrite decide_False. }
    assert (budget_inv s now (snd (respawn_decide b s' now)) g /\ rate_limited g) as Hg.
    { split; [|done]. split_and!; [by rewrite Ha|done..]. }
    by destruct (fst (respawn_decide b s' now)).
Qed.

(** However often children die, a service is respawned at most once per
    [RESPAWN_COOLDOWN] and at most [RESPAWN_BUDGET] times in any
    [RESPAWN_WINDOW]: over any run of the budget, two consecutive permissions
    are at least 10 s apart and the fourth comes at least 600 s after the
    first. *)
Theorem respawn_rate_limit s now b g : respawn_run s now b g -> rate_limited g.
Proof. intros H. by apply respawn_run_inv in H as [_ H]. Qed.
Lemma respawn_rate_limit_witness :
  let b0 := empty_budget in
  let b1 := snd (respawn_decide b0 Ganesha 5) in
  let b2 := snd (respawn_decide b1 Ganesha 9) in
  respawn_run Ganesha 20 (snd (respawn_decide b2 Ganesha 20)) [5; 20]
  /\ RESPAWN_COOLDOWN <= 20 - 5.
Proof.
  cbn zeta.
  assert (H : respawn_run Ganesha 20 (snd (respawn_decide (snd (respawn_decide
            (snd (respawn_decide empty_budget Ganesha 5)) Ganesha 9)) Ganesha 20)) [5; 20]).
  { refine (rr_call Ganesha 9 _ [5] Ganesha 20 _ ltac:(lia)).
    refine (rr_call Ganesha 5 _ [5] Ganesha 9 _ ltac:(lia)).
    exact (rr_call Ganesha 0 empty_budget [] Ganesha 5 (rr_start _ _) ltac:(lia)). }
  split; [exact H|].
  exact (proj1 (respawn_rate_limit _ _ _ _ H) 0%nat 5 20 eq_refl eq_refl).
Defined.

(** ** Exports: the generated fragments and what Ganesha has loaded *)

(** The tracked Ganesha, if any, has loaded the fragments on disk. *)
Definition exports_synced (st : St) : Prop :=
  pids (sup st) Ganesha = None \/ loaded_exports (wld st) = d_exports (disk (wld st)).

#[export] Instance synced_closed : Closed exports_synced.
Proof. split; try done. intros s v st Hs H. unfold exports_synced. cbn. by rewrite upd_other. Qed.
#[export] Instance synced_closed_started : ClosedStarted exports_synced.
Proof. by intros st. Qed.

Lemma synced_drop st : exports_synced (set_pid Ganesha None st).
Proof. left. cbn. apply upd_same. Qed.
Lemma synced_refresh st : exports_synced st -> exports_synced (refresh_tracked_ganesha_pid st).
Proof.
  intros H. unfold refresh_tracked_ganesha_pid. repeat case_match; auto using synced_drop.
Qed.
(** A reload leaves Ganesha in step with the disk, whatever it had loaded. *)
Lemma synced_reload st : exports_synced (snd (reload_ganesha_exports st)).
Proof.
  unfold reload_ganesha_exports. set (st1 := refresh_tracked_ganesha_pid st).
  destruct (pids (sup st1) Ganesha) as [p|] eqn:E; [|by left].
  destruct (live st1 p); [by right | apply synced_drop].
Qed.
Lemma synced_stop o st : exports_synced st -> exports_synced (stop_ganesha o st).
Proof.
  intros H%synced_refresh. unfold stop_ganesha. revert H.
  generalize (refresh_tracked_ganesha_pid st). clear st. intros st H.
  assert (Hd : forall st, exports_synced (set_ganesha_managed false (set_pid Ganesha None st)))
    by (intros; apply synced_drop).
  destruct (pids (sup st) Ganesha) as [p|]; [|done].
  repeat (case_match; [by apply Hd|]).
  by apply (cl_kill9 exports_synced), (cl_term exports_synced).
Qed.
(** The look at the daemon after its start changes nothing on disk, and nothing
    that is loaded. *)
Lemma launch_loaded o p st :
  loaded_exports (wld (launch_pause o p st)) = loaded_exports (wld st) /\ disk (wld (launch_pause o p st)) = disk (wld st).
Proof. unfold launch_pause. by destruct (o_launch o). Qed.
Lemma confirm_world o st : wld (confirm_ganesha_pid o st) = wld st.
Proof. unfold confirm_ganesha_pid. by repeat case_match. Qed.
Lemma launch_confirm_disk o p st : disk (wld (confirm_ganesha_pid o (launch_pause o p st))) = disk (wld st).
Proof. rewrite confirm_world. apply launch_loaded. Qed.
Lemma launch_confirm_started o p st :
  services_started (sup (confirm_ganesha_pid o (launch_pause o p st))) = services_started (sup st).
Proof. unfold confirm_ganesha_pid, launch_pause. destruct (o_launch o); by repeat case_match. Qed.
Lemma launch_confirm_synced o p st :
  loaded_exports (wld st) = d_exports (disk (wld st)) ->
  loaded_exports (wld (confirm_ganesha_pid o (launch_pause o p st))) = d_exports (disk (wld (confirm_ganesha_pid o (launch_pause o p st)))).
Proof. rewrite confirm_world. by destruct (launch_loaded o p st) as [-> ->]. Qed.
Lemma synced_start o st : exports_synced st -> exports_synced (start_ganesha o st).
Proof.
  intros H. unfold start_ganesha. destruct (live_opt st _); [done|].
  set (st1 := match pids (sup st) Ganesha with Some _ => set_pid Ganesha None st | None => st end).
  assert (exports_synced st1) by (unfold st1; case_match; [apply synced_drop | done]).
  destruct (o_warm o); [|done]. destruct (o_spawn o Ganesha); [|done]. right. by apply launch_confirm_synced.
Qed.
#[export] Instance synced_closed_ganesha : ClosedGanesha exports_synced.
Proof. split; auto using synced_refresh, synced_reload, synced_stop, synced_start. Qed.

Lemma refresh_frame st :
  wld (refresh_tracked_ganesha_pid st) = wld st
  /\ services_started (sup (refresh_tracked_ganesha_pid st)) = services_started (sup st)
  /\ host_nfs_mode (sup (refresh_tracked_ganesha_pid st)) = host_nfs_mode (sup st)
  /\ forall s, s <> Ganesha -> pids (sup (refresh_tracked_ganesha_pid st)) s = pids (sup st) s.
Proof.
  unfold refresh_tracked_ganesha_pid. repeat case_match; cbn; split_and!; try done.
  intros s Hs. by apply upd_other.
Qed.
Lemma refresh_pid st :
  pids (sup (refresh_tracked_ganesha_pid st)) Ganesha
  = if live_opt st (pids (sup st) Ganesha) then pids (sup st) Ganesha else None.
Proof.
  unfold refresh_tracked_ganesha_pid. destruct (pids (sup st) Ganesha) as [p|] eqn:E; [|done]. cbn.
  destruct (live st p); [done|]. apply upd_same.
Qed.
Lemma not_running_untracked st :
  fst (ganesha_running st) = false -> pids (sup (snd (ganesha_running st))) Ganesha = None.
Proof.
  unfold ganesha_running, refresh_tracked_ganesha_pid. cbn.
  destruct (pids (sup st) Ganesha) as [p|] eqn:E; [|done].
  destruct (live st p) eqn:El; cbn; [|intros _; apply upd_same]. rewrite E. cbn. congruence.
Qed.

(** A plan that reloads or restarts Ganesha outside host mode ends in step. *)
Lemma synced_first o plan st :
  host_nfs_mode (sup st) = false ->
  pl_ganesha plan = GSighup \/ exports_synced st ->
  exports_synced (snd (recycle_ganesha_first o plan st)).
Proof.
  intros Hh [Hp|H]; [|by apply (cl_ganesha_first exports_synced)].
  unfold recycle_ganesha_first. rewrite Hh, Hp.
  pose proof (synced_reload st) as Hr. destruct (reload_ganesha_exports st) as [ok st1].
  destruct ok; [done|]. pose proof (synced_refresh st1 Hr) as Hg.
  unfold ganesha_running. cbn. case_match; [by apply synced_stop | done].
Qed.
Lemma synced_execute o plan st :
  host_nfs_mode (sup st) = false ->
  pl_ganesha plan = GSighup \/ exports_synced st ->
  exports_synced (execute_recycle_plan o plan st).
Proof.
  intros Hh Hp. unfold execute_recycle_plan. destruct (is_noop plan) eqn:En.
  - destruct Hp as [Hp|]; [|done]. revert En. unfold is_noop. by rewrite Hp.
  - pose proof (synced_first o plan st Hh Hp) as Hf.
    destruct (recycle_ganesha_first o plan st) as [plan1 st1].
    by apply (cl_recycle_services exports_synced).
Qed.

(** What a successful [regenerate_and_diff] reports and stores. *)
Lemma regenerate_ok o st ch st' :
  regenerate_and_diff o st = (Ok ch, st') ->
  disk (wld st') = o_generated o (disk (wld st))
  /\ host_nfs_mode (sup st') = d_host_nfs (disk (wld st'))
  /\ services_started (sup st') = services_started (sup st)
  /\ pids (sup st') = pids (sup st)
  /\ loaded_exports (wld st') = loaded_exports (wld st)
  /\ exports_changed ch = negb (d_exports (disk (wld st)) =? d_exports (disk (wld st'))).
Proof.
  unfold regenerate_and_diff. destruct (o_generate_ok o), (o_hooks_ok o); cbn; try done.
  by intros [= <- <-].
Qed.

(** The tracked Ganesha, the exports it has loaded and those on disk. *)
Definition ganesha_view (st : St) : option Z * Z * Z :=
  (pids (sup st) Ganesha, loaded_exports (wld st), d_exports (disk (wld st))).
#[export] Instance view_closed v : Closed (fun st => ganesha_view st = v).
Proof. split; try done. intros s x st Hs H. unfold ganesha_view. cbn. by rewrite upd_other. Qed.
#[export] Instance view_closed_started v : ClosedStarted (fun st => ganesha_view st = v).
Proof. by intros st. Qed.
#[export] Instance disk_closed d : Closed (fun st => disk (wld st) = d).
Proof. by split. Qed.
#[export] Instance disk_closed_started d : ClosedStarted (fun st => disk (wld st) = d).
Proof. by intros st. Qed.
Lemma disk_start o st : disk (wld (start_ganesha o st)) = disk (wld st).
Proof.
  unfold start_ganesha. destruct (live_opt st _); [done|]. destruct (o_warm o); [|by destruct (pids (sup st) Ganesha)].
  destruct (o_spawn o Ganesha); [|by destruct (pids (sup st) Ganesha)].
  etrans; [apply launch_confirm_disk|]. by destruct (pids (sup st) Ganesha).
Qed.
#[export] Instance disk_closed_ganesha d : ClosedGanesha (fun st => disk (wld st) = d).
Proof.
  split.
  - intros st H. by rewrite (proj1 (refresh_frame st)).
  - intros st H. unfold reload_ganesha_exports. pose proof (proj1 (refresh_frame st)) as Hr.
    repeat case_match; cbn; congruence.
  - intros o st H. unfold stop_ganesha. pose proof (proj1 (refresh_frame st)) as Hr. rewrite <- Hr in H. clear Hr. revert H.
    generalize (refresh_tracked_ganesha_pid st). clear. intros st H.
    repeat case_match; cbn; auto;
      repeat first [apply (cl_kill9 (fun st => disk (wld st) = d)) | apply (cl_term (fun st => disk (wld st) = d))]; done.
  - intros o st H. by rewrite disk_start.
Qed.
(** A recycle after which the loop goes on as in a successful SIGHUP. *)
Lemma cl_sighup_tail (P : St -> Prop) `{!Closed P} `{!ClosedStarted P} o (b : bool) st :
  P st -> P (finish_recycle o (if b then reload_avahi_services st else st)).
Proof. intros H. apply (cl_finish P). destruct b; [by apply (cl_reload_avahi P)|done]. Qed.
Lemma regenerate_procs o st : procs (wld (snd (regenerate_and_diff o st))) = procs (wld st).
Proof. unfold regenerate_and_diff. by destruct (o_generate_ok o), (o_hooks_ok o). Qed.
(** A refresh leaves nothing for a second one. *)
Lemma refresh_again st st1 :
  procs (wld st1) = procs (wld st) -> pids (sup st1) = pids (sup (refresh_tracked_ganesha_pid st)) ->
  refresh_tracked_ganesha_pid st1 = st1.
Proof.
  intros Hw Hp. unfold refresh_tracked_ganesha_pid at 1. rewrite Hp, refresh_pid.
  destruct (pids (sup st) Ganesha) as [p|]; cbn; [|done]. destruct (live st p) eqn:E; [|done].
  unfold live in *. by rewrite Hw, E.
Qed.

(** C25: let the services be up and the tracked Ganesha, if any, have loaded the
    fragments on disk, and let a SIGHUP succeed.  If the regenerated configuration
    keeps NFS in the container, the tracked Ganesha, if any, has loaded the
    regenerated fragments afterwards, reloaded, restarted or untouched because
    they are the same: a change of the exports is never left unapplied.  If it
    hands NFS to the host, Ganesha is not touched at all: one that runs stays
    tracked with the exports it had, even where the SIGHUP itself switched the
    mode (only a dead one is forgotten). *)
Theorem sighup_syncs_exports o st st' :
  services_started (sup st) = true -> exports_synced st -> handle_sighup o st = (Ok tt, st') ->
  disk (wld st') = o_generated o (disk (wld st))
  /\ if d_host_nfs (o_generated o (disk (wld st)))
     then pids (sup st') Ganesha = (if live_opt st (pids (sup st) Ganesha) then pids (sup st) Ganesha else None)
          /\ loaded_exports (wld st') = loaded_exports (wld st)
     else exports_synced st'.
Proof.
  intros Hs H%synced_refresh. unfold handle_sighup.
  destruct (refresh_frame st) as (Hw & Hs0 & _ & _). rewrite <- Hw. rewrite <- Hs0 in Hs.
  assert (Hag : forall st1, procs (wld st1) = procs (wld (refresh_tracked_ganesha_pid st)) ->
    pids (sup st1) = pids (sup (refresh_tracked_ganesha_pid st)) -> refresh_tracked_ganesha_pid st1 = st1).
  { intros st1. rewrite Hw. apply refresh_again. }
  rewrite <- refresh_pid. revert H Hs Hag. generalize (refresh_tracked_ganesha_pid st). clear. intros st H Hs Hag.
  destruct (regenerate_and_diff o st) as [[ch|e] st1] eqn:Er; [|done].
  destruct (regenerate_ok _ _ _ _ Er) as (Hdisk & Hh & Hs1 & Hp & Hl & Hec).
  rewrite Hs1, Hs. rewrite Hdisk in Hh. rewrite <- Hdisk.
  pose proof (regenerate_procs o st) as Hpr. rewrite Er in Hpr. specialize (Hag st1 Hpr Hp).
  pose proof (not_running_untracked st1) as Hn. unfold ganesha_running in *. rewrite Hag in *. cbn [fst snd] in Hn.
  rewrite Hh, <- Hdisk. set (running := live_opt st1 (pids (sup st1) Ganesha)) in *. intros [= <-]. split.
  { apply (cl_sighup_tail (fun st => disk (wld st) = _)), (cl_execute (fun st => disk (wld st) = _)). done. }
  destruct (d_host_nfs (disk (wld st1))) eqn:Ed.
  - assert (Hv : forall st2, ganesha_view st2 = ganesha_view st1 ->
      pids (sup st2) Ganesha = pids (sup st) Ganesha /\ loaded_exports (wld st2) = loaded_exports (wld st))
      by (intros st2 [= Ha Hb _]; by rewrite Ha, Hb, Hp, Hl).
    apply Hv, (cl_sighup_tail (fun st => ganesha_view st = _)), (cl_execute_skip (fun st => ganesha_view st = _)); done.
  - apply (cl_sighup_tail exports_synced), synced_execute; [congruence|]. destruct (exports_changed ch) eqn:Ec.
    + destruct running; [by left | right; left; auto].
    + right. symmetry in Hec. apply negb_false_iff, Z.eqb_eq in Hec. unfold exports_synced.
      by rewrite Hp, Hl, <- Hec.
Qed.
Lemma sighup_syncs_exports_witness :
  let o := {| o_spawn := fun _ => true; o_term := fun _ => true; o_kill := fun _ => true;
     o_launch := Stays; o_pid_file := None; o_hup_kills := false; o_warm := true;
     o_generated := fun d => {| d_exports := 8; d_identity := d_identity d; d_avahi := d_avahi d;
       d_shares := d_shares d; d_host_nfs := d_host_nfs d; d_navahi := d_navahi d |};
     o_generate_ok := true; o_hooks_ok := true |} in
  exports_synced (snd (handle_sighup o (demo_boot demo_oracle)))
  /\ loaded_exports (wld (snd (handle_sighup o (demo_boot demo_oracle)))) = 8.
Proof.
  intros o. split; [|vm_compute; reflexivity].
  destruct (sighup_syncs_exports o (demo_boot demo_oracle) (snd (handle_sighup o (demo_boot demo_oracle)))) as [_ H];
    [vm_compute; reflexivity|right; vm_compute; reflexivity|vm_compute; reflexivity|exact H].
Defined.

(** ** Failed reloads *)

Lemma refresh_live st p :
  pids (sup st) Ganesha = Some p -> live st p = true -> refresh_tracked_ganesha_pid st = st.
Proof. intros E El. unfold refresh_tracked_ganesha_pid. by rewrite E, El. Qed.

(** A reload that fails (the generator or a post-generate hook) signals
    and starts nothing: the same processes run, the same exports stay loaded,
    every live child stays tracked and the supervisor stays up on its previous
    configuration. *)
Theorem failed_reload_keeps_services o i st :
  services_started (sup st) = true -> t_sighup i || t_full i = true ->
  o_generate_ok o && o_hooks_ok o = false ->
  let st' := tick o i st in
  procs (wld st') = procs (wld st) /\ events (wld st') = events (wld st)
  /\ loaded_exports (wld st') = loaded_exports (wld st)
  /\ services_started (sup st') = true
  /\ ganesha_managed (sup st') = ganesha_managed (sup st)
  /\ last_shares_fingerprint (sup st') = last_shares_fingerprint (sup st)
  /\ (forall s p, pids (sup st) s = Some p -> live st p = true -> pids (sup st') s = Some p).
Proof.
  intros Hs Hi Ho.
  assert (Ht : tick o i st
    = set_disk (o_generated o (disk (wld st))) (refresh_tracked_ganesha_pid st)).
  { unfold tick. rewrite Hs. unfold supervisor_loop_tick, should_bring_up_services. cbn [negb andb].
    destruct (refresh_frame st) as (Hw & _).
    unfold handle_sighup, handle_full_recycle, regenerate_and_diff. rewrite Hw.
    destruct (t_full i); [|destruct (t_sighup i); [|done]];
      cbn; by destruct (o_generate_ok o), (o_hooks_ok o). }
  cbn zeta. rewrite Ht. unfold refresh_tracked_ganesha_pid.
  destruct (pids (sup st) Ganesha) as [g|] eqn:Eg; [|by split_and!].
  destruct (live st g) eqn:El; [by split_and!|]. cbn. split_and!; try done.
  intros s p Hp Hl. destruct (decide (s = Ganesha)) as [->|Hne]; [congruence|].
  by rewrite upd_other.
Qed.
Definition hook_fails : Oracle :=
  {| o_spawn := fun _ => true; o_term := fun _ => true; o_kill := fun _ => true;
     o_launch := Stays; o_pid_file := None; o_hup_kills := false; o_warm := true;
     o_generated := fun d => {| d_exports := 8; d_identity := d_identity d; d_avahi := d_avahi d;
       d_shares := d_shares d; d_host_nfs := d_host_nfs d; d_navahi := d_navahi d |};
     o_generate_ok := true; o_hooks_ok := false |}.
Lemma failed_reload_keeps_services_witness :
  procs (wld (tick hook_fails (hup_input 30) (demo_boot demo_oracle)))
  = procs (wld (demo_boot demo_oracle)).
Proof.
  apply (failed_reload_keeps_services hook_fails (hup_input 30) (demo_boot demo_oracle));
    vm_compute; reflexivity.
Defined.

Lemma sighup_unchanged_exports o st p :
  services_started (sup st) = true -> pids (sup st) Ganesha = Some p -> live st p = true ->
  o_generate_ok o = true -> o_hooks_ok o = true ->
  d_exports (o_generated o (disk (wld st))) = d_exports (disk (wld st)) ->
  fst (handle_sighup o st) = Ok tt
  /\ ganesha_view (snd (handle_sighup o st)) = ganesha_view st.
Proof.
  intros Hs Hp Hl Hg Hh He. unfold handle_sighup. rewrite (refresh_live st p) by done.
  destruct (regenerate_and_diff o st) as [[ch|e] st1] eqn:Er.
  2:{ revert Er. unfold regenerate_and_diff. by rewrite Hg, Hh. }
  destruct (regenerate_ok _ _ _ _ Er) as (Hd & Hm & Hs1 & Hp1 & Hl1 & Hec).
  assert (live st1 p = true) as Hlive.
  { revert Er. unfold regenerate_and_diff. rewrite Hg, Hh. cbn. by intros [= _ <-]. }
  rewrite Hs1, Hs. unfold ganesha_running. rewrite (refresh_live st1 p) by (congruence || done).
  split; [done|]. cbn [snd].
  assert (Hv : ganesha_view st1 = ganesha_view st).
  { unfold ganesha_view. by rewrite Hp1, Hl1, Hd, He. }
  rewrite Hd, He, Z.eqb_refl in Hec. rewrite Hec. rewrite <- Hv.
  apply (cl_finish (fun s => ganesha_view s = ganesha_view st1)).
  assert (Hx : forall a b c r, ganesha_view (execute_recycle_plan o (plan_from_changes false a b c r) st1)
            = ganesha_view st1).
  { intros a b c r. apply (cl_execute_skip (fun s => ganesha_view s = ganesha_view st1)); [|done].
    by destruct c. }
  case_match; [|apply Hx].
  apply (cl_reload_avahi (fun s => ganesha_view s = ganesha_view st1)), Hx.
Qed.

(** A failing post-generate hook makes the loop lose an export change: the
    fragments were already rewritten, so the next successful SIGHUP compares
    them with themselves, reports no change and leaves Ganesha serving the
    exports it had before the failure. *)
Theorem hook_failure_loses_reload o1 o2 st p :
  services_started (sup st) = true -> pids (sup st) Ganesha = Some p -> live st p = true ->
  o_generate_ok o1 = true -> o_hooks_ok o1 = false ->
  o_generate_ok o2 = true -> o_hooks_ok o2 = true ->
  d_exports (o_generated o2 (o_generated o1 (disk (wld st))))
    = d_exports (o_generated o1 (disk (wld st))) ->
  let st1 := snd (handle_sighup o1 st) in
  let st2 := snd (handle_sighup o2 st1) in
  fst (handle_sighup o2 st1) = Ok tt /\ pids (sup st2) Ganesha = Some p
  /\ loaded_exports (wld st2) = loaded_exports (wld st)
  /\ d_exports (disk (wld st2)) = d_exports (o_generated o1 (disk (wld st))).
Proof.
  intros Hs Hp Hl Hg1 Hh1 Hg2 Hh2 He st1 st2.
  assert (H1 : st1 = set_disk (o_generated o1 (disk (wld st))) st).
  { unfold st1, handle_sighup. rewrite (refresh_live st p) by done.
    unfold regenerate_and_diff. by rewrite Hg1, Hh1. }
  destruct (sighup_unchanged_exports o2 st1 p) as [Hok Hv]; [by rewrite ?H1..|].
  fold st2 in Hv. rewrite H1 in Hv at 1. unfold ganesha_view in Hv. cbn in Hv.
  injection Hv as Ha Hb Hc. split_and!; [done|congruence|done|done].
Qed.
Lemma hook_failure_loses_reload_witness :
  let st1 := snd (handle_sighup hook_fails (demo_boot demo_oracle)) in
  let st2 := snd (handle_sighup demo_oracle st1) in
  loaded_exports (wld st2) = 7 /\ d_exports (disk (wld st2)) = 8.
Proof.
  destruct (hook_failure_loses_reload hook_fails demo_oracle (demo_boot demo_oracle) 103)
    as (_ & _ & H1 & H2); try (vm_compute; reflexivity).
  split; [rewrite H1|rewrite H2]; vm_compute; reflexivity.
Defined.

(** ** A skipped start of Ganesha *)

(** Passes of the loop with no signal pending, between which processes die. *)
Inductive idle_run (st0 : St) : St -> Prop :=
| idle_init : idle_run st0 st0
| idle_tick o i st :
    idle_run st0 st -> t_sighup i = false -> t_full i = false -> idle_run st0 (tick o i st)
| idle_death p st : idle_run st0 st -> idle_run st0 (reap p st).

Definition no_ganesha (st : St) : Prop :=
  services_started (sup st) = true /\ ganesha_managed (sup st) = false
  /\ pids (sup st) Ganesha = None
  /\ forall p, procs (wld st) !! p <> Some Ganesha.
#[export] Instance no_ganesha_closed : Closed no_ganesha.
Proof.
  split; try done.
  - intros s v st Hs (H1 & H2 & H3 & H4). split_and!; try done. cbn. by rewrite upd_other.
  - intros p st (H1 & H2 & H3 & H4). split_and!; try done. cbn. intros q [_ Hq]%lookup_delete_Some.
    by apply (H4 q).
  - intros o s st (H1 & H2 & H3 & H4). split_and!; try done. cbn.
    intros q [Hq _]%map_lookup_filter_Some. by apply (H4 q).
  - intros s st Hs (H1 & H2 & H3 & H4). split_and!; try done. cbn.
    intros q [[_ ?]|[_ Hq]]%lookup_insert_Some; [done|]. by apply (H4 q).
Qed.

(** A start of Ganesha that is skipped because the principal warm-up is
    incomplete is never retried by the loop: with the services up and no
    signal pending, no sequence of passes and deaths of processes ever starts
    Ganesha, because its liveness check only looks at a Ganesha it already
    manages. *)
Theorem skipped_ganesha_never_retried st0 st :
  services_started (sup st0) = true -> ganesha_managed (sup st0) = false ->
  pids (sup st0) Ganesha = None -> (forall p, procs (wld st0) !! p <> Some Ganesha) ->
  idle_run st0 st ->
  pids (sup st) Ganesha = None /\ forall p, procs (wld st) !! p <> Some Ganesha.
Proof.
  intros H1 H2 H3 H4 Hr.
  assert (no_ganesha st) as (_ & _ & ? & ?); [|done].
  induction Hr as [|o i st _ IH Hh Hf|p st _ IH]; [done| |by apply (cl_reap no_ganesha)].
  unfold tick. destruct IH as [Hs Hrest] eqn:E. clear E. rewrite Hs, Hh, Hf. cbn.
  apply (cl_check_gen no_ganesha); [|by split].
  intros st' b (_ & Hm & _) Hn. unfold respawn_needed in Hn. by rewrite Hm in Hn.
Qed.
Definition cold_identity : Oracle :=
  {| o_spawn := fun _ => true; o_term := fun _ => true; o_kill := fun _ => true;
     o_launch := Stays; o_pid_file := None; o_hup_kills := false; o_warm := false; o_generated := fun d => d;
     o_generate_ok := true; o_hooks_ok := true |}.
Lemma skipped_ganesha_never_retried_witness :
  pids (sup (tick demo_oracle (quiet_input 60) (demo_boot cold_identity))) Ganesha = None.
Proof.
  apply (skipped_ganesha_never_retried (demo_boot cold_identity)); try (vm_compute; reflexivity).
  - intros p Hp.
    assert (Hall : forallb (fun ps => negb (bool_decide (snd ps = Ganesha)))
              (map_to_list (procs (wld (demo_boot cold_identity)))) = true)
      by (vm_compute; reflexivity).
    rewrite forallb_forall in Hall. apply elem_of_map_to_list, list_elem_of_In, Hall in Hp.
    discriminate Hp.
  - apply idle_tick; [apply idle_init|reflexivity|reflexivity].
Defined.

(** ** A SIGHUP before the first bring-up *)

Definition not_started (st : St) : Prop := services_started (sup st) = false.
#[export] Instance not_started_closed : Closed not_started.
Proof. by split. Qed.
#[export] Instance not_started_closed_ganesha : ClosedGanesha not_started.
Proof.
  split; unfold not_started.
  - intros st H. by rewrite (proj1 (proj2 (refresh_frame st))).
  - intros st H. unfold reload_ganesha_exports.
    pose proof (proj1 (proj2 (refresh_frame st))). repeat case_match; cbn; congruence.
  - intros o st H. unfold stop_ganesha.
    pose proof (proj1 (proj2 (refresh_frame st))) as Hr. rewrite H in Hr. revert Hr.
    generalize (refresh_tracked_ganesha_pid st). clear. intros st H.
    repeat case_match; cbn; auto;
      repeat first [apply (cl_kill9 not_started) | apply (cl_term not_started)]; done.
  - intros o st H. unfold start_ganesha. destruct (live_opt st _); [done|].
    destruct (o_warm o), (o_spawn o Ganesha); cbn [negb]; try (by destruct (pids (sup st) Ganesha)).
    etrans; [apply launch_confirm_started|]. by destruct (pids (sup st) Ganesha).
Qed.

Lemma watcher_spawn_twice o st :
  o_spawn o Watcher = true ->
  let st' := snd (start_watcher o (set_started true (snd (start_watcher o st)))) in
  procs (wld st') !! next_pid (wld st) = Some Watcher
  /\ procs (wld st') !! (next_pid (wld st) + 1) = Some Watcher
  /\ pids (sup st') Watcher = Some (next_pid (wld st) + 1).
Proof.
  intros Ho. unfold start_watcher. rewrite !Ho. cbn. rewrite lookup_insert_ne by lia.
  by rewrite !lookup_insert_eq, upd_same.
Qed.

(** A SIGHUP that arrives before the first bring-up starts the
    configuration watcher twice, once in the epilogue of the reload and once
    in the loop (which decided that a watcher was needed before the reload
    ran); only the second one is tracked, so the first is never signalled or
    respawned. *)
Theorem cold_sighup_starts_two_watchers o i st :
  services_started (sup st) = false -> pids (sup st) Watcher = None ->
  t_sighup i = true -> t_full i = false ->
  o_generate_ok o = true -> o_hooks_ok o = true -> o_spawn o Watcher = true ->
  let st' := tick o i st in
  exists p q, p <> q /\ procs (wld st') !! p = Some Watcher
    /\ procs (wld st') !! q = Some Watcher /\ pids (sup st') Watcher = Some q.
Proof.
  intros Hs Hw Hi Hf Hg Hh Ho st'.
  assert (exists st1, st' = snd (start_watcher o (set_started true (snd (start_watcher o st1)))))
    as (st1 & ->).
  { unfold st', tick. rewrite Hs. unfold supervisor_loop_tick. rewrite Hi, Hf, Hw. cbn [fst is_some negb].
    unfold handle_sighup.
    assert (H1 : not_started (refresh_tracked_ganesha_pid st)) by (by apply (cg_refresh not_started)).
    revert H1. generalize (refresh_tracked_ganesha_pid st). clear -Hg Hh. intros st Hs.
    destruct (regenerate_and_diff o st) as [[ch|e] st1] eqn:Er.
    2:{ revert Er. unfold regenerate_and_diff. by rewrite Hg, Hh. }
    destruct (regenerate_ok _ _ _ _ Er) as (_ & _ & Hs1 & _). rewrite Hs in Hs1. rewrite Hs1.
    match goal with |- context [finish_recycle o ?x] => set (st2 := x) end.
    assert (H2 : not_started st2).
    { unfold st2. case_match; [apply (cl_reload_avahi not_started)|]; by apply (cl_execute not_started). }
    unfold finish_recycle. rewrite H2. by eexists. }
  destruct (watcher_spawn_twice o st1 Ho) as (H1 & H2 & H3).
  eexists _, _. split_and!; [|exact H1|exact H2|exact H3]. lia.
Qed.
Lemma cold_sighup_starts_two_watchers_witness :
  let st := snd (boot demo_oracle false {| sup := init_sup false; wld := demo_world |}) in
  exists p q, p <> q /\ procs (wld (tick demo_oracle (hup_input 4) st)) !! p = Some Watcher
    /\ procs (wld (tick demo_oracle (hup_input 4) st)) !! q = Some Watcher
    /\ pids (sup (tick demo_oracle (hup_input 4) st)) Watcher = Some q.
Proof.
  intros st. apply (cold_sighup_starts_two_watchers demo_oracle (hup_input 4) st);
    vm_compute; reflexivity.
Defined.

(** ** Shutdown *)

Lemma procs_term o p st : procs (wld (term o p st)) ⊆ procs (wld st).
Proof. unfold term. destruct (o_term o p); cbn; [apply delete_subseteq|done]. Qed.
Lemma procs_kill9 o p st : procs (wld (kill9 o p st)) ⊆ procs (wld st).
Proof. unfold kill9. destruct (o_kill o p); cbn; [apply delete_subseteq|done]. Qed.
Lemma procs_pkill o s st : procs (wld (pkill o s st)) ⊆ procs (wld st).
Proof. cbn. apply map_filter_subseteq. Qed.
Lemma term_fold o l st :
  let st' := foldl (fun st p => term o p st) st l in
  procs (wld st') ⊆ procs (wld st) /\ pids (sup st') = pids (sup st)
  /\ forall p, p ∈ l -> o_term o p = true -> live st' p = false.
Proof.
  revert st. induction l as [|q l IH]; intros st; cbn.
  { split_and!; [done|done|]. intros p Hp. by apply elem_of_nil in Hp. }
  destruct (IH (term o q st)) as (Hsub & Hpid & Hl). split_and!.
  - etrans; [exact Hsub|apply procs_term].
  - by rewrite Hpid, pids_term.
  - intros p [->|Hp]%elem_of_cons Ho; [|by apply Hl].
    unfold live. destruct (procs (wld _) !! q) eqn:E; [|done]. exfalso.
    eapply lookup_weaken in E; [|exact Hsub]. unfold term in E. rewrite Ho in E. cbn in E.
    by rewrite lookup_delete_eq in E.
Qed.
Lemma live_subseteq st st' p :
  procs (wld st') ⊆ procs (wld st) -> live st p = false -> live st' p = false.
Proof.
  intros Hs. unfold live. destruct (procs (wld st') !! p) eqn:E; [|done].
  by rewrite (lookup_weaken _ _ _ _ E Hs).
Qed.

Lemma stop_ganesha_stops o st p :
  pids (sup st) Ganesha = Some p -> o_term o p = true \/ o_kill o p = true ->
  procs (wld (stop_ganesha o st)) ⊆ procs (wld st) /\ live (stop_ganesha o st) p = false.
Proof.
  intros Hp Ho. unfold stop_ganesha, refresh_tracked_ganesha_pid. rewrite Hp.
  destruct (live st p) eqn:El; [|by cbn; rewrite upd_same]. rewrite Hp, El. cbn [negb].
  destruct (live (term o p st) p) eqn:Et; cbn [negb]; [|split; [apply procs_term|done]].
  destruct Ho as [Ho|Ho].
  { exfalso. revert Et. unfold live, term. rewrite Ho. cbn. by rewrite lookup_delete_eq. }
  assert (Ek : live (kill9 o p (term o p st)) p = false).
  { unfold live, kill9. rewrite Ho. cbn. by rewrite lookup_delete_eq. }
  rewrite Ek. cbn [negb]. split; [|done]. cbn [set_ganesha_managed set_flags set_pid wld].
  etrans; [apply procs_kill9|apply procs_term].
Qed.
Lemma stop_ganesha_subseteq o st : procs (wld (stop_ganesha o st)) ⊆ procs (wld st).
Proof.
  unfold stop_ganesha. rewrite <- (proj1 (refresh_frame st)).
  generalize (refresh_tracked_ganesha_pid st). clear st. intros st.
  repeat case_match; cbn; try done; try apply procs_term;
    (etrans; [apply procs_kill9|apply procs_term]).
Qed.

(** The shutdown stops every tracked child that obeys SIGTERM, and Ganesha
    even if it only yields to SIGKILL. *)
Theorem cleanup_stops_children o st s p :
  pids (sup st) s = Some p ->
  o_term o p = true \/ (s = Ganesha /\ o_kill o p = true) ->
  live (cleanup o st) p = false.
Proof.
  intros Hp Ho. unfold cleanup.
  destruct (term_fold o (omap (pids (sup st)) cleanup_order) st) as (_ & Hpid & Hl).
  fold (term_tracked o st) in *.
  assert (Hs : live (stop_ganesha o (term_tracked o st)) p = false).
  { destruct Ho as [Ho|[-> Ho]].
    - apply (live_subseteq (term_tracked o st)); [apply stop_ganesha_subseteq|].
      apply Hl; [|done]. apply list_elem_of_omap. exists s. split; [|done].
      destruct s; cbv; set_solver.
    - apply stop_ganesha_stops; [by rewrite Hpid | by right]. }
  apply (live_subseteq (stop_ganesha o (term_tracked o st))); [|done].
  unfold cleanup_by_name. cbn [foldl].
  repeat (etrans; [apply procs_pkill|]). done.
Qed.
Lemma cleanup_stops_children_witness :
  live (cleanup demo_oracle (demo_boot demo_oracle)) 103 = false.
Proof.
  apply (cleanup_stops_children demo_oracle (demo_boot demo_oracle) Ganesha 103);
    [vm_compute; reflexivity | right; split; reflexivity].
Defined.
