(* ===== verification/Acl.v ===== *)
(** * POSIX ACLs through getfacl and setfacl

    Models the ACL half of [nfs-klldap-ui/src/privileged.rs]: the permission
    triad, the table parsed from [getfacl -c -n], the effective permissions
    under the mask, the command line of [setfacl] for a modification, and the
    batched scan that marks extended entries.  The tools themselves are
    outside the program; their documented output format is the renderer
    [getfacl_lines], and the batch format [batch_lines]. *)

From S2P Require Import Prelude RustStr.

Record AclPerms := { p_r : bool; p_w : bool; p_x : bool }.
Definition from_str (s : string) : AclPerms :=
  let s := to_ascii_lowercase (trim s) in
  {| p_r := contains_char "r" s; p_w := contains_char "w" s;
     p_x := contains_char "x" s || contains_char "X" s |}.
Definition to_str (p : AclPerms) : string :=
  (if p_r p then "r" else "-") +:+ (if p_w p then "w" else "-") +:+ (if p_x p then "x" else "-").
Definition dir_r_implies_x (p : AclPerms) : AclPerms :=
  {| p_r := p_r p; p_w := p_w p; p_x := p_x p || p_r p |}.

Inductive AclEntryKind := KUser (u : Z) | KGroup (g : Z).
Inductive AclTag :=
| Owner | NamedUser (u : Z) | OwningGroup | NamedGroup (g : Z) | Mask | Other.
#[export] Instance acl_tag_eq_dec : EqDecision AclTag.
Proof. solve_decision. Defined.
Record AclLine := { tag : AclTag; perms : AclPerms }.
Record AclTable := { access : list AclLine; dflt : list AclLine }.

Definition layer (t : AclTable) (default : bool) : list AclLine :=
  if default then dflt t else access t.
Definition mask_of (t : AclTable) (default : bool) : option AclPerms :=
  perms <$> head (List.filter (fun l => bool_decide (tag l = Mask)) (layer t default)).
Definition group_class (g : AclTag) : bool :=
  match g with NamedUser _ | NamedGroup _ | OwningGroup => true | _ => false end.
Definition effective_perms (t : AclTable) (l : AclLine) (default : bool) : AclPerms :=
  match group_class (tag l), mask_of t default with
  | true, Some m =>
      {| p_r := p_r (perms l) && p_r m; p_w := p_w (perms l) && p_w m; p_x := p_x (perms l) && p_x m |}
  | _, _ => perms l
  end.
Definition extended_tag (g : AclTag) : bool :=
  match g with NamedUser _ | NamedGroup _ | Mask => true | _ => false end.
Definition is_extended (t : AclTable) : bool :=
  negb (bool_decide (dflt t = [])) || existsb (fun l => extended_tag (tag l)) (access t).
Definition push_line (default : bool) (l : AclLine) (t : AclTable) : AclTable :=
  if default then {| access := access t; dflt := dflt t ++ [l] |}
  else {| access := access t ++ [l]; dflt := dflt t |}.

(** ** Reading [getfacl -c -n] *)
Definition parse_acl_line (rest : string) : option AclLine :=
  '(tag_str, qual_and_perms) ← split_once ":" rest;
  '(qualifier, perms_str) ← split_once ":" qual_and_perms;
  let p := from_str perms_str in
  g ← (if seqb tag_str "user" then
         if is_empty qualifier then Some Owner else NamedUser <$> parse_uint u32_max qualifier
       else if seqb tag_str "group" then
         if is_empty qualifier then Some OwningGroup else NamedGroup <$> parse_uint u32_max qualifier
       else if seqb tag_str "mask" then if is_empty qualifier then Some Mask else None
       else if seqb tag_str "other" then if is_empty qualifier then Some Other else None
       else None);
  Some {| tag := g; perms := p |}.

Definition parse_getfacl_step (t : AclTable) (raw : string) : AclTable :=
  let line := trim raw in
  if is_empty line || starts_with "#" line then t
  else
    let line := match split_once "#" line with Some (entry, _) => trim entry | None => line end in
    let '(default, rest) :=
      match strip_prefix "default:" line with Some rest => (true, rest) | None => (false, line) end in
    match parse_acl_line rest with
    | Some l => push_line default l t
    | None => t
    end.
Definition parse_getfacl_table (s : string) : AclTable :=
  foldl parse_getfacl_step {| access := []; dflt := [] |} (lines s).

(** ** Writing with [setfacl] *)
Inductive AclModification :=
| AclSet (kind : AclEntryKind) (p : AclPerms) (default : bool)
| AclRemove (kinds : list AclEntryKind) (default : bool)
| AclSetMask (p : AclPerms) (default : bool).

Definition kind_spec (k : AclEntryKind) : string :=
  match k with KUser u => "u:" +:+ dec u | KGroup g => "g:" +:+ dec g end.
Definition modification_spec (m : AclModification) : bool * string * string :=
  match m with
  | AclSet k p d => (d, "-m", kind_spec k +:+ ":" +:+ to_str p)
  | AclRemove ks d => (d, "-x", join "," (map kind_spec ks))
  | AclSetMask p d => (d, "-m", "m::" +:+ to_str p)
  end.
(** The arguments of the [setfacl] process. *)
Definition setfacl_argv (paths : list string) (default : bool) (op spec : string) : list string :=
  (if default then ["-d"] else []) ++ [op; spec; "--"] ++ paths.
(** A finished process: its status and standard error; [Err] when it could not
    be run or timed out. *)
Abbreviation ToolRun := (result (bool * string) string).
Definition setfacl_status (op : string) (out : ToolRun) : result unit string :=
  match out with
  | Err e => Err e
  | Ok (true, _) => Ok tt
  | Ok (false, stderr) =>
      Err ("setfacl " +:+ op +:+ " failed: " +:+ default "unknown error" (head (lines stderr)))
  end.
Definition run_setfacl_many (exec : list string -> ToolRun) (paths : list string) (default : bool)
    (op spec : string) : result unit string :=
  match paths with
  | [] => Ok tt
  | _ => setfacl_status op (exec (setfacl_argv paths default op spec))
  end.
Definition apply_acl_many (exec : list string -> ToolRun) (paths : list string) (m : AclModification)
  : result unit string :=
  let '(d, op, spec) := modification_spec m in run_setfacl_many exec paths d op spec.

(** ** The batched scan *)
(** [(result, current, current_extended)] *)
Definition flush_current (res : list string) (cur : option string) (ext : bool) : list string :=
  match cur, ext with Some p, true => res ++ [p] | _, _ => res end.
Definition marks_extended (t : string) : bool :=
  if starts_with "default:" t || starts_with "mask::" t then true
  else match strip_prefix "user:" t with
       | Some rest => negb (starts_with ":" rest)
       | None => match strip_prefix "group:" t with
                 | Some rest => negb (starts_with ":" rest)
                 | None => false
                 end
       end.
Definition batch_step (st : list string * option string * bool) (line : string)
  : list string * option string * bool :=
  let '(res, cur, ext) := st in
  let t := trim line in
  match strip_prefix "# file: " t with
  | Some file => (flush_current res cur ext, Some file, false)
  | None =>
      if is_empty t || starts_with "#" t then st
      else (res, cur, ext || marks_extended t)
  end.
(** [run] is the standard output of the batched getfacl, or why it did not run. *)
Definition extended_acl_paths (paths : list string) (run : result string string)
  : result (list string) string :=
  match paths with
  | [] => Ok []
  | _ =>
      match run with
      | Err e => Err ("getfacl batch: " +:+ e)
      | Ok stdout =>
          let '(res, cur, ext) := foldl batch_step ([], None, false) (lines stdout) in
          Ok (flush_current res cur ext)
      end
  end.

(** ** The documented output format of getfacl *)
Definition tag_prefix (g : AclTag) : string :=
  match g with
  | Owner => "user::"
  | NamedUser u => "user:" +:+ dec u +:+ ":"
  | OwningGroup => "group::"
  | NamedGroup g => "group:" +:+ dec g +:+ ":"
  | Mask => "mask::"
  | Other => "other::"
  end.
Definition entry_text (default : bool) (l : AclLine) : string :=
  (if default then "default:" else "") +:+ tag_prefix (tag l) +:+ to_str (perms l).
(** An entry the mask caps carries an [#effective:] comment. *)
Definition line_text (e : bool * AclLine * option AclPerms) : string :=
  let '(default, l, eff) := e in
  entry_text default l +:+
  match eff with Some p => String "009" ("#effective:" +:+ to_str p) | None => "" end.
Definition getfacl_lines (es : list (bool * AclLine * option AclPerms)) : string :=
  unlines (map line_text es).
Definition table_of (es : list (bool * AclLine * option AclPerms)) : AclTable :=
  {| access := map (fun e => snd (fst e)) (List.filter (fun e => negb (fst (fst e))) es);
     dflt := map (fun e => snd (fst e)) (List.filter (fun e => fst (fst e)) es) |}.
Definition id_ok (g : AclTag) : Prop :=
  match g with NamedUser n | NamedGroup n => (0 <= n <= u32_max)%Z | _ => True end.

Lemma from_to_str p : from_str (to_str p) = p.
Proof. destruct p as [[] [] []]; vm_compute; reflexivity. Qed.
Lemma to_str_solid p : sall solid (to_str p) = true.
Proof. destruct p as [[] [] []]; vm_compute; reflexivity. Qed.
Lemma to_str_no_hash p : contains_char "#" (to_str p) = false.
Proof. destruct p as [[] [] []]; vm_compute; reflexivity. Qed.
Lemma dec_solid n : (0 <= n)%Z -> sall solid (dec n) = true.
Proof. intros [H _]%dec_spec. by apply digit_solid. Qed.

Lemma tag_prefix_solid g : id_ok g -> sall solid (tag_prefix g) = true.
Proof.
  destruct g; cbn -[dec sall]; intros H; try reflexivity;
    rewrite !sall_app, dec_solid by lia; reflexivity.
Qed.
Lemma tag_prefix_no_hash g : id_ok g -> contains_char "#" (tag_prefix g) = false.
Proof.
  destruct g; cbn -[dec contains_char]; intros H; try reflexivity;
    rewrite !contains_char_app, (dec_no_char "#") by (lia || done); reflexivity.
Qed.

Lemma parse_entry l :
  id_ok (tag l) -> parse_acl_line (tag_prefix (tag l) +:+ to_str (perms l)) = Some l.
Proof.
  destruct l as [g p]. cbn [tag perms]. intros Hid. unfold parse_acl_line.
  destruct g as [|n| |n| |]; cbn [tag_prefix id_ok] in *; rewrite ?sapp_assoc.
  2,4: change ("user:" +:+ ?z) with ("user" +:+ String ":" z);
       change ("group:" +:+ ?z) with ("group" +:+ String ":" z);
       rewrite split_once_app by reflexivity; cbn [mbind option_bind];
       change (":" +:+ ?z) with (String ":" z);
       rewrite split_once_app by (apply dec_no_char; [lia|reflexivity]); cbn [mbind option_bind];
       destruct (dec_spec n) as (_ & Hne & _); [lia|]; apply is_empty_false in Hne; rewrite Hne;
       rewrite parse_uint_dec, from_to_str by lia; reflexivity.
  all: destruct p as [[] [] []]; vm_compute; reflexivity.
Qed.

Lemma entry_text_solid d l : id_ok (tag l) -> sall solid (entry_text d l) = true.
Proof.
  intros H. unfold entry_text. rewrite !sall_app, tag_prefix_solid, to_str_solid by done.
  by destruct d.
Qed.
Lemma entry_text_no_hash d l : id_ok (tag l) -> contains_char "#" (entry_text d l) = false.
Proof.
  intros H. unfold entry_text. rewrite !contains_char_app, tag_prefix_no_hash, to_str_no_hash by done.
  by destruct d.
Qed.
Lemma entry_text_cons d l : exists c s, entry_text d l = String c s /\ ceqb "#" c = false.
Proof. unfold entry_text. destruct d, (tag l); cbn; by eexists _, _. Qed.
Lemma entry_text_last d l :
  exists a y, entry_text d l = a +:+ String y "" /\ solid y = true.
Proof.
  unfold entry_text, to_str.
  exists ((if d then "default:" else "") +:+ tag_prefix (tag l) +:+
          (if p_r (perms l) then "r" else "-") +:+ (if p_w (perms l) then "w" else "-")).
  exists (if p_x (perms l) then "x" else "-")%char. rewrite !sapp_assoc.
  by destruct (p_x (perms l)).
Qed.
Lemma strip_default d l :
  match strip_prefix "default:" (entry_text d l) with
  | Some rest => (true, rest) | None => (false, entry_text d l) end
  = (d, tag_prefix (tag l) +:+ to_str (perms l)).
Proof.
  unfold entry_text. destruct d.
  - by rewrite (proj2 (strip_prefix_spec "default:" _ _) eq_refl).
  - by destruct (tag l).
Qed.

Lemma parse_getfacl_line t e :
  id_ok (tag (snd (fst e))) ->
  parse_getfacl_step t (line_text e) = push_line (fst (fst e)) (snd (fst e)) t.
Proof.
  destruct e as [[d l] eff]. cbn [fst snd]. intros Hid. unfold parse_getfacl_step, line_text.
  pose proof (entry_text_solid d l Hid) as Hs. pose proof (entry_text_no_hash d l Hid) as Hh.
  destruct (entry_text_cons d l) as (c & s & Hcs & Hc).
  destruct eff as [p|].
  - assert (Ht : trim (entry_text d l +:+ String "009" ("#effective:" +:+ to_str p))
                 = entry_text d l +:+ String "009" ("#effective:" +:+ to_str p)).
    { apply trim_start_end.
      - rewrite Hcs. apply trim_start_solid. rewrite Hcs in Hs. by apply andb_true_iff in Hs as [? _].
      - change (String "009" ("#effective:" +:+ to_str p))
          with ((String "009" "#effective") +:+ String ":" (to_str p)).
        rewrite <- sapp_assoc, trim_end_solid by reflexivity. do 2 f_equal.
        destruct p as [[] [] []]; reflexivity. }
    rewrite Ht.
    assert (is_empty (entry_text d l +:+ String "009" ("#effective:" +:+ to_str p))
            || starts_with "#" (entry_text d l +:+ String "009" ("#effective:" +:+ to_str p)) = false)
      as ->. { rewrite Hcs, sapp_cons, starts_with_one. exact Hc. }
    change (String "009" ("#effective:" +:+ to_str p))
      with ((String "009" "") +:+ String "#" ("effective:" +:+ to_str p)).
    rewrite <- sapp_assoc, split_once_app by (by rewrite contains_char_app, Hh).
    assert (trim (entry_text d l +:+ String "009" "") = entry_text d l) as ->.
    { rewrite <- (trim_all_solid _ Hs) at 2. destruct (entry_text_last d l) as (a & y & -> & Hy).
      by apply trim_app_ws. }
    rewrite strip_default, parse_entry; done.
  - rewrite sapp_nil_r, trim_all_solid by done.
    assert (is_empty (entry_text d l) || starts_with "#" (entry_text d l) = false) as ->.
    { rewrite Hcs, starts_with_one. exact Hc. }
    rewrite (proj2 (split_once_none "#" _) Hh).
    rewrite strip_default, parse_entry; done.
Qed.

Lemma parse_getfacl_fold es t :
  Forall (fun e => id_ok (tag (snd (fst e)))) es ->
  foldl parse_getfacl_step t (map line_text es)
  = {| access := access t ++ access (table_of es); dflt := dflt t ++ dflt (table_of es) |}.
Proof.
  intros H. revert t. induction H as [|e es He _ IH]; intros t.
  { destruct t. cbn. by rewrite !app_nil_r. }
  cbn [map foldl]. rewrite parse_getfacl_line, IH by done.
  destruct e as [[[] l] eff]; cbn; by rewrite <- app_assoc.
Qed.
Lemma line_text_ok e : id_ok (tag (snd (fst e))) -> line_ok (line_text e) = true.
Proof.
  destruct e as [[d l] eff]. cbn [fst snd]. intros H%(entry_text_solid d)%solid_line_ok.
  unfold line_ok, line_text in *. rewrite !contains_char_app.
  apply andb_true_iff in H as [->%negb_true_iff ->%negb_true_iff]. destruct eff as [[[] [] []]|]; reflexivity.
Qed.

(** The table parsed from the output of getfacl is the table it printed,
    both layers, for every 32-bit id and with or without [#effective:]
    comments. *)
Theorem getfacl_roundtrip es :
  Forall (fun e => id_ok (tag (snd (fst e)))) es ->
  parse_getfacl_table (getfacl_lines es) = table_of es.
Proof.
  intros H. unfold parse_getfacl_table, getfacl_lines. rewrite lines_unlines.
  - rewrite parse_getfacl_fold by done. by destruct (table_of es).
  - apply Forall_fmap. eapply Forall_impl; [exact H|]. intros e. apply line_text_ok.
Qed.
Definition sample_entries : list (bool * AclLine * option AclPerms) :=
  let rwx := {| p_r := true; p_w := true; p_x := true |} in
  let rx := {| p_r := true; p_w := false; p_x := true |} in
  [(false, {| tag := Owner; perms := rwx |}, None);
   (false, {| tag := NamedUser 1000; perms := rwx |}, Some rx);
   (false, {| tag := OwningGroup; perms := rx |}, None);
   (false, {| tag := Mask; perms := rx |}, None);
   (false, {| tag := Other; perms := rx |}, None);
   (true, {| tag := NamedGroup 4294967295; perms := rx |}, None)].
Lemma getfacl_roundtrip_witness :
  parse_getfacl_table (getfacl_lines sample_entries) = table_of sample_entries.
Proof. apply getfacl_roundtrip. repeat constructor; discriminate. Defined.

(** Effective permissions never exceed the entry, never exceed the mask of
    the layer for the group class (named entries and the owning group), and
    are exactly their intersection there; owner and other are not masked. *)
Theorem effective_perms_spec t l d :
  let e := effective_perms t l d in
  (implb (p_r e) (p_r (perms l)) && implb (p_w e) (p_w (perms l)) && implb (p_x e) (p_x (perms l))) = true
  /\ (group_class (tag l) = false -> e = perms l)
  /\ (forall m, group_class (tag l) = true -> mask_of t d = Some m ->
        p_r e = p_r (perms l) && p_r m /\ p_w e = p_w (perms l) && p_w m
        /\ p_x e = p_x (perms l) && p_x m)
  /\ (forall m, mask_of t d = Some m <->
        exists a l' b, layer t d = a ++ l' :: b /\ tag l' = Mask /\ perms l' = m
          /\ Forall (fun k => tag k <> Mask) a).
Proof.
  cbn zeta. unfold effective_perms. split_and!.
  - destruct (group_class (tag l)), (mask_of t d) as [[[] [] []]|];
      destruct (perms l) as [[] [] []]; reflexivity.
  - by intros ->.
  - intros m -> ->. done.
  - intros m. unfold mask_of. induction (layer t d) as [|k ls IH]; cbn.
    + split; [done|]. by intros ([|??] & ? & ? & ? & _).
    + case_bool_decide as Hk; cbn.
      * split; [intros [= <-]; by exists [], k, ls|].
        intros ([|k' a] & l' & b & [= -> ->] & Hm & <- & Ha); [done|].
        by apply Forall_cons in Ha as [? _].
      * rewrite IH. split.
        -- intros (a & l' & b & -> & ? & ? & ?). exists (k :: a), l', b. by split_and!; [..|constructor].
        -- intros ([|k' a] & l' & b & [= -> ->] & ? & ? & Ha); [done|].
           apply Forall_cons in Ha as [_ Ha]. by exists a, l', b.
Qed.

(** ** The entries of a setfacl specification *)
Definition read_kind (t q : string) : option AclEntryKind :=
  if seqb t "u" then KUser <$> parse_uint u32_max q
  else if seqb t "g" then KGroup <$> parse_uint u32_max q else None.
(** An entry is [tag:qualifier] or [tag:qualifier:perms]; the mask has no
    qualifier. *)
Definition read_entry (s : string) : option (option AclEntryKind * option AclPerms) :=
  match split ":" s with
  | [t; q] => k ← read_kind t q; Some (Some k, None)
  | [t; q; p] =>
      if seqb t "m" then if is_empty q then Some (None, Some (from_str p)) else None
      else k ← read_kind t q; Some (Some k, Some (from_str p))
  | _ => None
  end.
Definition read_spec (spec : string) : option (list (option AclEntryKind * option AclPerms)) :=
  mapM read_entry (split "," spec).
Definition modification_entries (m : AclModification)
  : list (option AclEntryKind * option AclPerms) :=
  match m with
  | AclSet k p _ => [(Some k, Some p)]
  | AclRemove ks _ => map (fun k => (Some k, None)) ks
  | AclSetMask p _ => [(None, Some p)]
  end.
Definition kind_id (k : AclEntryKind) : Z := match k with KUser n | KGroup n => n end.
Definition modification_ok (m : AclModification) : Prop :=
  match m with
  | AclSet k _ _ => (0 <= kind_id k <= u32_max)%Z
  | AclRemove ks _ => ks <> [] /\ Forall (fun k => (0 <= kind_id k <= u32_max)%Z) ks
  | AclSetMask _ _ => True
  end.
Definition is_default (m : AclModification) : bool :=
  match m with AclSet _ _ d | AclRemove _ d | AclSetMask _ d => d end.

Lemma kind_spec_no_char c k :
  (0 <= kind_id k)%Z -> is_ascii_digit c = false -> contains_char c "ug:" = false ->
  contains_char c (kind_spec k) = false.
Proof.
  intros Hk Hd Hc. unfold contains_char in Hc. cbn [sany] in Hc.
  apply orb_false_iff in Hc as [Hu [Hg [H1 _]%orb_false_iff]%orb_false_iff].
  destruct k as [n|n]; cbn [kind_spec kind_id] in *;
    rewrite contains_char_app, (dec_no_char c n) by done;
    unfold contains_char; cbn [sany]; by rewrite ?Hu, ?Hg, H1.
Qed.
Lemma split_kind k b :
  (0 <= kind_id k)%Z ->
  split ":" (kind_spec k +:+ ":" +:+ b)
    = (match k with KUser _ => "u" | KGroup _ => "g" end) :: dec (kind_id k) :: split ":" b
  /\ split ":" (kind_spec k)
    = [(match k with KUser _ => "u" | KGroup _ => "g" end); dec (kind_id k)].
Proof.
  intros Hk. pose proof (dec_no_char ":" (kind_id k) Hk eq_refl) as Hd.
  destruct k as [n|n]; cbn [kind_spec kind_id] in *; rewrite sapp_assoc.
  - change ("u:" +:+ ?z) with ("u" +:+ String ":" z). rewrite !split_app by reflexivity.
    change (":" +:+ b) with (String ":" b). rewrite split_app, (split_no_char _ (dec n)) by done. done.
  - change ("g:" +:+ ?z) with ("g" +:+ String ":" z). rewrite !split_app by reflexivity.
    change (":" +:+ b) with (String ":" b). rewrite split_app, (split_no_char _ (dec n)) by done. done.
Qed.
Lemma read_kind_spec k :
  (0 <= kind_id k <= u32_max)%Z ->
  read_kind (match k with KUser _ => "u" | KGroup _ => "g" end) (dec (kind_id k)) = Some k.
Proof. intros H. destruct k; unfold read_kind; cbn; by rewrite parse_uint_dec. Qed.
Lemma read_remove ks :
  Forall (fun k => (0 <= kind_id k <= u32_max)%Z) ks ->
  mapM read_entry (map kind_spec ks) = Some (map (fun k => (Some k, None)) ks).
Proof.
  induction 1 as [|k ks Hk _ IH]; [done|]. cbn [map].
  change (mapM read_entry (kind_spec k :: map kind_spec ks))
    with (y ← read_entry (kind_spec k); ys ← mapM read_entry (map kind_spec ks); Some (y :: ys)).
  assert (read_entry (kind_spec k) = Some (Some k, None)) as ->; [|by rewrite IH].
  unfold read_entry. by rewrite (proj2 (split_kind k "" ltac:(lia))), read_kind_spec.
Qed.

Lemma spec_reads_back m :
  modification_ok m -> read_spec (snd (modification_spec m)) = Some (modification_entries m).
Proof.
  assert (Hp : forall p, split ":" (to_str p) = [to_str p]) by (by intros [[] [] []]).
  assert (Hpc : forall p, contains_char "," (to_str p) = false) by (by intros [[] [] []]).
  destruct m as [k p d|ks d|p d]; cbn [modification_ok modification_spec modification_entries snd];
    intros H; unfold read_spec.
  - rewrite split_no_char.
    + change (mapM read_entry ?l) with (y ← read_entry (kind_spec k +:+ ":" +:+ to_str p); Some [y]).
      unfold read_entry. rewrite (proj1 (split_kind k _ ltac:(lia))), Hp.
      assert (seqb (match k with KUser _ => "u" | KGroup _ => "g" end) "m" = false) as ->
        by (by destruct k).
      by rewrite read_kind_spec, from_to_str.
    + rewrite !contains_char_app, kind_spec_no_char, Hpc by (lia || done). done.
  - destruct H as [Hne H]. rewrite join_split; [by apply read_remove|by destruct ks|].
    apply Forall_fmap. eapply Forall_impl; [exact H|]. intros k Hk.
    apply kind_spec_no_char; [cbv beta in Hk; lia|done|done].
  - by destruct p as [[] [] []].
Qed.

(** For every modification and non-empty list of paths the setfacl command
    is exactly one [-m] or [-x] with a specification that reads back as the
    requested entries, [-d] exactly for the default layer, and the paths only
    after [--]: no entry is lost or widened, and the ACL is never cleared
    ([-b]) or left without its mask recalculation ([-n]). *)
Theorem setfacl_command_exact exec m paths :
  modification_ok m -> paths <> [] ->
  exists op spec, op = (match m with AclRemove _ _ => "-x" | _ => "-m" end)
    /\ apply_acl_many exec paths m
       = setfacl_status op (exec ((if is_default m then ["-d"] else []) ++ [op; spec; "--"] ++ paths))
    /\ read_spec spec = Some (modification_entries m)
    /\ starts_with "-" spec = false.
Proof.
  intros Hm Hp. pose proof (spec_reads_back m Hm) as Hr.
  exists (snd (fst (modification_spec m))), (snd (modification_spec m)). split_and!; [by destruct m| |done|].
  - unfold apply_acl_many, run_setfacl_many. by destruct m, paths.
  - destruct m as [[n|n] p d|[|[n|n] ks] d|p d]; try reflexivity;
      by destruct ks.
Qed.
Lemma setfacl_command_exact_witness :
  exists op spec, op = "-x"
    /\ apply_acl_many (fun argv => Ok (false, join " " argv)) ["/export/a"]
         (AclRemove [KUser 1000; KGroup 7] true)
       = setfacl_status op (Ok (false, join " " (["-d"] ++ [op; spec; "--"] ++ ["/export/a"])))
    /\ read_spec spec = Some [(Some (KUser 1000), None); (Some (KGroup 7), None)]
    /\ starts_with "-" spec = false.
Proof.
  apply (setfacl_command_exact (fun argv => Ok (false, join " " argv)) (AclRemove [KUser 1000; KGroup 7] true) ["/export/a"]).
  - split; [discriminate|]. repeat constructor; discriminate.
  - discriminate.
Defined.

(** ** The batched getfacl output *)
Record AclBlock := {
  blk_path : string;
  blk_uid : Z;
  blk_gid : Z;
  blk_flags : option string;
  blk_entries : list (bool * AclLine * option AclPerms);
}.
Definition header_lines (b : AclBlock) : list string :=
  ["# owner: " +:+ dec (blk_uid b); "# group: " +:+ dec (blk_gid b)]
  ++ match blk_flags b with Some f => ["# flags: " +:+ f] | None => [] end.
Definition block_lines (b : AclBlock) : list string :=
  ("# file: " +:+ blk_path b) :: header_lines b ++ map line_text (blk_entries b) ++ [""].
Definition batch_text (bs : list AclBlock) : string := unlines (concat (map block_lines bs)).
(** Absolute, on one line, without white space at the end. *)
Definition path_plain (p : string) : Prop :=
  exists s, p = String "/" s /\ trim_end s = s /\ line_ok p = true.
Definition block_ok (b : AclBlock) : Prop :=
  path_plain (blk_path b) /\ (0 <= blk_uid b)%Z /\ (0 <= blk_gid b)%Z
  /\ (forall f, blk_flags b = Some f -> sall solid f = true)
  /\ Forall (fun e => id_ok (tag (snd (fst e)))) (blk_entries b).

Lemma trim_line_text e : id_ok (tag (snd (fst e))) -> trim (line_text e) = line_text e.
Proof.
  destruct e as [[d l] eff]. cbn [fst snd]. intros Hid. unfold line_text.
  pose proof (entry_text_solid d l Hid) as Hs.
  destruct eff as [p|]; [|rewrite sapp_nil_r; by apply trim_all_solid].
  destruct (entry_text_cons d l) as (c & s & Hcs & Hc).
  apply trim_start_end.
  - rewrite Hcs. apply trim_start_solid. rewrite Hcs in Hs. by apply andb_true_iff in Hs as [? _].
  - change (String "009" ("#effective:" +:+ to_str p))
      with ((String "009" "#effective") +:+ String ":" (to_str p)).
    rewrite <- sapp_assoc, trim_end_solid by reflexivity. do 2 f_equal.
    destruct p as [[] [] []]; reflexivity.
Qed.
Lemma line_text_cons e : exists c s, line_text e = String c s /\ ceqb "#" c = false.
Proof.
  destruct e as [[d l] eff]. unfold line_text. destruct (entry_text_cons d l) as (c & s & -> & Hc).
  eexists _, _. split; [|exact Hc]. apply sapp_cons.
Qed.
Lemma marks_user c z : marks_extended ("user:" +:+ String c z) = negb (ceqb ":" c).
Proof.
  unfold marks_extended.
  rewrite (proj2 (strip_prefix_spec "user:" _ _) eq_refl), starts_with_one. reflexivity.
Qed.
Lemma marks_group c z : marks_extended ("group:" +:+ String c z) = negb (ceqb ":" c).
Proof.
  unfold marks_extended.
  rewrite (proj2 (strip_prefix_spec "group:" _ _) eq_refl), starts_with_one. reflexivity.
Qed.
Lemma marks_line e :
  id_ok (tag (snd (fst e))) ->
  marks_extended (line_text e) = fst (fst e) || extended_tag (tag (snd (fst e))).
Proof.
  destruct e as [[d l] eff]. cbn [fst snd]. intros Hid. unfold line_text, entry_text.
  destruct d; [by rewrite !sapp_assoc|].
  destruct (tag l) as [|n| |n| |]; cbn [tag_prefix id_ok] in *; rewrite ?sapp_assoc; try reflexivity;
    destruct (dec_spec n) as (Hd & Hne & _); try lia;
    destruct (dec n) as [|c s]; try done; cbn [sall] in Hd; apply andb_true_iff in Hd as [Hd _];
    rewrite sapp_nil_l, (sapp_cons c s); rewrite (marks_user c) || rewrite (marks_group c);
    (destruct (ceqb ":" c) eqn:E; [|done]); apply ceqb_eq in E; subst; discriminate Hd.
Qed.

Lemma batch_entries es st :
  Forall (fun e => id_ok (tag (snd (fst e)))) es ->
  foldl batch_step st (map line_text es)
  = (fst st, snd st || existsb (fun e => fst (fst e) || extended_tag (tag (snd (fst e)))) es).
Proof.
  intros H. revert st. induction H as [|e es He _ IH]; intros [[res cur] ext].
  { cbn. by rewrite orb_false_r. }
  cbn [map foldl]. unfold batch_step at 2. rewrite trim_line_text by done.
  destruct (line_text_cons e) as (c & s & Hcs & Hc).
  assert (strip_prefix "# file: " (line_text e) = None) as ->.
  { rewrite Hcs. cbn [strip_prefix]. by rewrite Hc. }
  assert (is_empty (line_text e) || starts_with "#" (line_text e) = false) as ->.
  { by rewrite Hcs, starts_with_one, Hc. }
  rewrite IH, marks_line by done. cbn [fst snd existsb]. by rewrite <- orb_assoc.
Qed.
Lemma existsb_extended es :
  existsb (fun e => fst (fst e) || extended_tag (tag (snd (fst e)))) es = is_extended (table_of es).
Proof.
  unfold is_extended. induction es as [|[[[] l] eff] es IH]; [done|done|].
  cbn [existsb fst snd orb]. unfold table_of in *. cbn in IH |- *.
  rewrite IH. by destruct (bool_decide _), (extended_tag (tag l)).
Qed.
(** Text after a comment sign and a solid byte only loses its end. *)
Lemma trim_comment a y b :
  solid y = true -> trim (String "#" (a +:+ String y b)) = String "#" (a +:+ String y (trim_end b)).
Proof.
  intros Hy. rewrite <- (sapp_nil_l (String "#" (a +:+ String y b))), trim_solid by reflexivity.
  by rewrite trim_end_solid.
Qed.
Lemma batch_header b st : foldl batch_step st (header_lines b) = st.
Proof.
  assert (H : forall k, k ∈ [" owner"; " group"; " flags"] -> forall h st,
            batch_step st (String "#" (k +:+ String ":" h)) = st).
  { intros k Hk h [[res cur] ext]. unfold batch_step. rewrite trim_comment by reflexivity.
    rewrite !elem_of_cons in Hk. destruct Hk as [->|[->|[->|Hk]]]; [reflexivity..|].
    by apply elem_of_nil in Hk. }
  unfold header_lines. rewrite foldl_app. cbn [foldl].
  change (batch_step st ("# owner: " +:+ dec (blk_uid b)))
    with (batch_step st (String "#" (" owner" +:+ String ":" (String " " (dec (blk_uid b)))))).
  rewrite H by set_solver.
  change (batch_step st ("# group: " +:+ dec (blk_gid b)))
    with (batch_step st (String "#" (" group" +:+ String ":" (String " " (dec (blk_gid b)))))).
  rewrite H by set_solver. destruct (blk_flags b) as [f|]; [|done]. cbn [foldl].
  change (batch_step st ("# flags: " +:+ f))
    with (batch_step st (String "#" (" flags" +:+ String ":" (String " " f)))).
  by rewrite H by set_solver.
Qed.
Lemma batch_block b res cur ext :
  block_ok b ->
  foldl batch_step (res, cur, ext) (block_lines b)
  = (flush_current res cur ext, Some (blk_path b), is_extended (table_of (blk_entries b))).
Proof.
  intros ((s & Hp & Ht & _) & _ & _ & _ & He). unfold block_lines. cbn [foldl].
  assert (batch_step (res, cur, ext) ("# file: " +:+ blk_path b)
          = (flush_current res cur ext, Some (blk_path b), false)) as ->.
  { unfold batch_step. rewrite Hp.
    change ("# file: " +:+ String "/" s) with (String "#" (" file: " +:+ String "/" s)).
    rewrite trim_comment, Ht by reflexivity.
    change (String "#" (" file: " +:+ String "/" s)) with ("# file: " +:+ String "/" s).
    by rewrite (proj2 (strip_prefix_spec "# file: " _ _) eq_refl). }
  rewrite !foldl_app, batch_header, batch_entries, existsb_extended by done. reflexivity.
Qed.
Lemma batch_blocks bs res cur ext :
  Forall block_ok bs ->
  let '(res', cur', ext') := foldl batch_step (res, cur, ext) (concat (map block_lines bs)) in
  flush_current res' cur' ext'
  = flush_current res cur ext
    ++ map blk_path (List.filter (fun b => is_extended (table_of (blk_entries b))) bs).
Proof.
  intros H. revert res cur ext. induction H as [|b bs Hb _ IH]; intros res cur ext.
  { cbn. by rewrite app_nil_r. }
  cbn [map concat]. rewrite foldl_app, batch_block by done.
  specialize (IH (flush_current res cur ext) (Some (blk_path b))
    (is_extended (table_of (blk_entries b)))).
  destruct (foldl batch_step _ _) as [[res' cur'] ext']. rewrite IH. cbn [List.filter].
  destruct (is_extended (table_of (blk_entries b))); cbn; by rewrite <- ?app_assoc.
Qed.
Lemma block_lines_ok b : block_ok b -> Forall (fun s => line_ok s = true) (block_lines b).
Proof.
  intros ((s & _ & _ & Hl) & Hu & Hg & Hf & He).
  assert (Happ : forall a c, line_ok a = true -> line_ok c = true -> line_ok (a +:+ c) = true).
  { unfold line_ok. intros a c Ha Hc. rewrite !contains_char_app.
    apply andb_true_iff in Ha as [->%negb_true_iff ->%negb_true_iff].
    by apply andb_true_iff in Hc as [->%negb_true_iff ->%negb_true_iff]. }
  unfold block_lines, header_lines. constructor; [by apply Happ|].
  rewrite !Forall_app. split_and!.
  - repeat constructor; apply Happ; try done; by apply solid_line_ok, dec_solid.
  - destruct (blk_flags b) as [f|]; constructor; [|constructor].
    apply Happ; [done|]. by apply solid_line_ok, Hf.
  - apply Forall_fmap. eapply Forall_impl; [exact He|]. intros e. apply line_text_ok.
  - by repeat constructor.
Qed.

(** The batched scan behind the tree markers agrees with the parsed table:
    it returns exactly the paths, in order, whose ACL is extended (a named
    entry, a mask, or any default entry). *)
Theorem extended_scan_exact bs :
  bs <> [] -> Forall block_ok bs ->
  extended_acl_paths (map blk_path bs) (Ok (batch_text bs))
  = Ok (map blk_path (List.filter (fun b => is_extended (table_of (blk_entries b))) bs)).
Proof.
  intros Hne H. unfold extended_acl_paths, batch_text. rewrite lines_unlines.
  - pose proof (batch_blocks bs [] None false H) as Hb.
    destruct bs as [|b bs]; [done|]. cbn [map] in *.
    destruct (foldl batch_step _ _) as [[res cur] ext]. by rewrite Hb.
  - rewrite Forall_concat. apply Forall_fmap. eapply Forall_impl; [exact H|].
    intros b. apply block_lines_ok.
Qed.
Definition sample_block : AclBlock :=
  {| blk_path := "/export/media"; blk_uid := 0; blk_gid := 100; blk_flags := Some "-s-";
     blk_entries := sample_entries |}.
Definition plain_block : AclBlock :=
  {| blk_path := "/export/media/a b.txt"; blk_uid := 0; blk_gid := 100; blk_flags := None;
     blk_entries := take 1 sample_entries |}.
Lemma extended_scan_exact_witness :
  extended_acl_paths ["/export/media"; "/export/media/a b.txt"]
    (Ok (batch_text [sample_block; plain_block])) = Ok ["/export/media"].
Proof.
  apply (extended_scan_exact [sample_block; plain_block]); [discriminate|].
  repeat constructor; try discriminate; cbn.
  - exists "export/media". split_and!; reflexivity.
  - intros f [= <-]. reflexivity.
  - exists "export/media/a b.txt". split_and!; reflexivity.
Defined.
