(* ===== verification/Auth.v ===== *)
(** * WebUI sessions and the localhost password

    Models [nfs-klldap-ui/src/auth.rs]: the session table and its sidecar
    file, and the salted password file.  SHA-256, the JSON codec and the
    random source are outside the program: the hash and the codec are section
    variables, tokens and salts are arguments.  Times are nanoseconds since
    the epoch.  A write of the sidecar may fail ([saved = false]). *)

From S2P Require Import Prelude RustStr.
Local Open Scope Z_scope.

(** ** Hexadecimal *)
Abbreviation Bytes := (list Ascii.ascii).
Definition hex_digit (n : N) : Ascii.ascii :=
  if (n <? 10)%N then Ascii.ascii_of_N (48 + n) else Ascii.ascii_of_N (87 + n).
Fixpoint hex_encode (b : Bytes) : string :=
  match b with
  | [] => ""
  | c :: r => String (hex_digit (N.shiftr (byte c) 4))
                (String (hex_digit (N.land (byte c) 15)) (hex_encode r))
  end.
Definition from_hex_digit (c : Ascii.ascii) : option N :=
  if in_range 48 57 c then Some (byte c - 48)%N
  else if in_range 97 102 c then Some (10 + byte c - 97)%N
  else if in_range 65 70 c then Some (10 + byte c - 65)%N
  else None.
Fixpoint hex_pairs (s : string) : option Bytes :=
  match s with
  | String a (String b r) =>
      hi ← from_hex_digit a; lo ← from_hex_digit b; rest ← hex_pairs r;
      Some (Ascii.ascii_of_N (N.lor (N.shiftl hi 4) lo) :: rest)
  | _ => Some []
  end.
Definition hex_decode (s : string) : option Bytes :=
  if negb (Nat.even (len s)) then None else hex_pairs s.

Record Session := { username : string; expires_at : Z }.
Record PersistedSession := { ps_username : string; ps_expires_unix : Z }.
Definition NANOS : Z := 1000000000.
Definition DEFAULT_SESSION_TTL : Z := 12 * 3600 * NANOS.
Definition PW_HASH_ITERATIONS : N := 100000.

Record AuthManager := {
  sessions : gmap string Session;
  admin_group : string;
  session_ttl : Z;
}.
(** The two sidecar files. *)
Record Sidecar := { sessions_file : option string; simple_pw_file : option string }.

Section Auth.
Context (sha256 : Bytes -> Bytes).
Context (to_json : gmap string PersistedSession -> string).
Context (of_json : string -> option (gmap string PersistedSession)).

Definition token_hash (token : string) : string := hex_encode (sha256 (bytes token)).
Definition hash_password (salt pw : Bytes) : Bytes :=
  N.iter (PW_HASH_ITERATIONS - 1) sha256 (sha256 (salt ++ pw)).

(** ** Sessions *)
Definition of_persisted (now : Z) (p : PersistedSession) : option Session :=
  let e := ps_expires_unix p * NANOS in
  if now <? e then Some {| username := ps_username p; expires_at := e |} else None.
Definition load_sessions (now : Z) (file : option string) : gmap string Session :=
  match file with
  | None => ∅
  | Some raw => match of_json raw with None => ∅ | Some m => omap (of_persisted now) m end
  end.
Definition new (now : Z) (d : Sidecar) (group : option string) (ttl : option Z) : AuthManager :=
  {| sessions := load_sessions now (sessions_file d);
     admin_group := default "lldap_admin" group;
     session_ttl := default DEFAULT_SESSION_TTL ttl |}.
Definition to_persisted (s : Session) : PersistedSession :=
  {| ps_username := username s;
     ps_expires_unix := if expires_at s <? 0 then 0 else expires_at s / NANOS |}.
Definition persist_sessions (saved : bool) (m : gmap string Session) (d : Sidecar) : Sidecar :=
  if saved then {| sessions_file := Some (to_json (to_persisted <$> m));
                   simple_pw_file := simple_pw_file d |}
  else d.
Definition with_sessions (a : AuthManager) (m : gmap string Session) : AuthManager :=
  {| sessions := m; admin_group := admin_group a; session_ttl := session_ttl a |}.

Definition create_privileged_session (saved : bool) (now : Z) (user token : string)
    (a : AuthManager) (d : Sidecar) : AuthManager * Sidecar :=
  let s := {| username := user; expires_at := now + session_ttl a |} in
  let m := filter (fun ks => now < expires_at (snd ks)) (<[ token_hash token := s ]> (sessions a)) in
  (with_sessions a m, persist_sessions saved m d).
Definition validate (saved : bool) (now : Z) (token : string) (a : AuthManager) (d : Sidecar)
  : option string * (AuthManager * Sidecar) :=
  let key := token_hash token in
  match sessions a !! key with
  | Some s =>
      if now <? expires_at s then (Some (username s), (a, d))
      else let m := delete key (sessions a) in
           (None, (with_sessions a m, persist_sessions saved m d))
  | None => (None, (a, d))
  end.
Definition logout (saved : bool) (token : string) (a : AuthManager) (d : Sidecar)
  : AuthManager * Sidecar :=
  match sessions a !! token_hash token with
  | Some _ => let m := delete (token_hash token) (sessions a) in
              (with_sessions a m, persist_sessions saved m d)
  | None => (a, d)
  end.
Definition invalidate_sessions_for_user_except (saved : bool) (user keep_token : string)
    (a : AuthManager) (d : Sidecar) : nat * (AuthManager * Sidecar) :=
  let keep_key := token_hash keep_token in
  let m := filter (fun ks => username (snd ks) <> user \/ fst ks = keep_key) (sessions a) in
  let dropped := (size (sessions a) - size m)%nat in
  (dropped, (with_sessions a m, if (0 <? dropped)%nat then persist_sessions saved m d else d)).

(** ** The localhost password *)
Definition pw_line (salt hash : Bytes) : string :=
  hex_encode salt +:+ ":" +:+ hex_encode hash +:+ String nl "".
(** [open_ok], [write_ok] and [rename_ok]: the three file operations. *)
Definition set_simple_password (open_ok write_ok rename_ok : bool) (salt : Bytes)
    (password : string) (d : Sidecar) : result unit string * Sidecar :=
  if is_empty (trim password) then (Err "Password cannot be empty", d)
  else if (len password <? 8)%nat then (Err "Password must be at least 8 characters", d)
  else
    let line := pw_line salt (hash_password salt (bytes password)) in
    if negb open_ok then (Err "failed to open", d)
    else if negb write_ok then (Err "write failed", d)
    else if negb rename_ok then (Err "failed to move password file into place", d)
    else (Ok tt, {| sessions_file := sessions_file d; simple_pw_file := Some line |}).
Definition validate_simple_password (user password : string) (d : Sidecar) : result unit string :=
  if negb (seqb user "localhost")
  then Err "Only the special 'localhost' user can use the simple password path"
  else match simple_pw_file d with
       | None => Err "No simple password has been set yet. Use the first-run setup form."
       | Some raw =>
           match split_once ":" (trim raw) with
           | None => Err "corrupt simple password file (bad format)"
           | Some (salt_hex, hash_hex) =>
               match hex_decode salt_hex, hex_decode hash_hex with
               | None, _ => Err "corrupt simple password file (bad salt)"
               | _, None => Err "corrupt simple password file (bad hash)"
               | Some salt, Some expected =>
                   if bool_decide (hash_password salt (bytes password) = expected) then Ok tt
                   else Err "Invalid password for 'localhost'"
               end
           end
       end.

(** The iterated hash is never computed in proofs. *)
Local Opaque hash_password.

(** ** Lemmas: hexadecimal *)
Lemma hex_byte c :
  (hi ← from_hex_digit (hex_digit (N.shiftr (byte c) 4));
   lo ← from_hex_digit (hex_digit (N.land (byte c) 15));
   Some (Ascii.ascii_of_N (N.lor (N.shiftl hi 4) lo))) = Some c.
Proof.
  assert (H : forall c, match
    (hi ← from_hex_digit (hex_digit (N.shiftr (byte c) 4));
     lo ← from_hex_digit (hex_digit (N.land (byte c) 15));
     Some (Ascii.ascii_of_N (N.lor (N.shiftl hi 4) lo))) with
    | Some d => ceqb c d | None => false end = true) by by_bytes.
  specialize (H c). case_match; [|done]. apply ceqb_eq in H. by subst.
Qed.
Lemma hex_encode_even b : Nat.even (len (hex_encode b)) = true.
Proof. induction b as [|c b IH]; [done|]. exact IH. Qed.
Lemma hex_roundtrip b : hex_decode (hex_encode b) = Some b.
Proof.
  unfold hex_decode. rewrite hex_encode_even. cbn [negb].
  induction b as [|c b IH]; [done|]. cbn [hex_encode hex_pairs]. rewrite IH.
  pose proof (hex_byte c) as H.
  destruct (from_hex_digit (hex_digit (N.shiftr (byte c) 4))) as [hi|]; [|done].
  cbn in H |- *. destruct (from_hex_digit _) as [lo|]; [|done]. cbn in H |- *. congruence.
Qed.
Lemma hex_encode_solid b : sall (fun c => solid c && negb (ceqb ":" c)) (hex_encode b) = true.
Proof.
  assert (H : forall c, (solid (hex_digit (N.shiftr (byte c) 4))
      && negb (ceqb ":" (hex_digit (N.shiftr (byte c) 4))))
    && (solid (hex_digit (N.land (byte c) 15))
      && negb (ceqb ":" (hex_digit (N.land (byte c) 15)))) = true) by by_bytes.
  induction b as [|c b IH]; [done|]. cbn [hex_encode sall]. rewrite IH, andb_true_r. apply H.
Qed.
Lemma hex_no_colon b : contains_char ":" (hex_encode b) = false.
Proof. apply (sall_no_char _ ":" _ eq_refl (hex_encode_solid b)). Qed.
Lemma pw_line_parse salt hash :
  split_once ":" (trim (pw_line salt hash)) = Some (hex_encode salt, hex_encode hash).
Proof.
  assert (Hs : forall b, sall solid (hex_encode b) = true).
  { intros b. eapply sall_impl; [|apply hex_encode_solid]. intros c [? _]%andb_true_iff. done. }
  unfold pw_line. change (":" +:+ ?z) with (String ":" z). rewrite trim_solid by reflexivity.
  assert (trim_start (hex_encode salt) = hex_encode salt) as ->.
  { rewrite <- (trim_all_solid _ (Hs salt)) at 1. rewrite trim_trim_start. by apply trim_all_solid. }
  assert (trim_end (hex_encode hash +:+ String nl "") = hex_encode hash) as ->.
  { assert (trim_end (hex_encode hash) = hex_encode hash) as He.
    { rewrite <- (trim_all_solid _ (Hs hash)) at 1. rewrite trim_trim_end. by apply trim_all_solid. }
    destruct hash as [|c hash _] using rev_ind; [reflexivity|].
    assert (exists a y, hex_encode (hash ++ [c]) = a +:+ String y "" /\ solid y = true)
      as (a & y & E & Hy).
    { clear He. exists (hex_encode hash +:+ String (hex_digit (N.shiftr (byte c) 4)) ""),
        (hex_digit (N.land (byte c) 15)). split.
      - induction hash as [|b hash IH]; [done|]. cbn [app hex_encode]. by rewrite IH.
      - specialize (Hs [c]). cbn in Hs. by apply andb_true_iff in Hs as [_ [? _]%andb_true_iff]. }
    rewrite E, sapp_assoc. change (String y "" +:+ String nl "") with (String y (String nl "")).
    by rewrite trim_end_solid. }
  apply split_once_app, hex_no_colon.
Qed.

(** The file written for a password accepts what has its salted hash. *)
Definition pw_files (salt : Bytes) (pw : string) (d : Sidecar) : Sidecar :=
  {| sessions_file := sessions_file d; simple_pw_file := Some (pw_line salt (hash_password salt (bytes pw))) |}.
Lemma pw_files_accept salt pw d user pw' :
  validate_simple_password user pw' (pw_files salt pw d) = Ok tt <->
  user = "localhost" /\ hash_password salt (bytes pw') = hash_password salt (bytes pw).
Proof.
  clear to_json of_json. unfold validate_simple_password, pw_files. cbn [simple_pw_file]. rewrite pw_line_parse, !hex_roundtrip.
  generalize (hash_password salt (bytes pw)) (hash_password salt (bytes pw')). intros h1 h2.
  destruct (seqb user "localhost") eqn:E; cbn [negb].
  - apply seqb_eq in E. case_bool_decide; naive_solver.
  - apply seqb_neq in E. naive_solver.
Qed.
Lemma set_password_cases oo wo ro salt pw d :
  match set_simple_password oo wo ro salt pw d with
  | (Ok _, d') => trim pw <> "" /\ (8 <= len pw)%nat /\ d' = pw_files salt pw d
  | (Err _, d') => d' = d
  end.
Proof.
  unfold set_simple_password. destruct (is_empty (trim pw)) eqn:E1; [done|].
  destruct (len pw <? 8)%nat eqn:E2; [done|]. destruct oo; [|reflexivity]. destruct wo; [|reflexivity].
  destruct ro; [|reflexivity]. cbn [negb].
  split_and!; [by apply is_empty_false|by apply Nat.ltb_ge|reflexivity].
Qed.

(** After a successful change the password file accepts, for the localhost
    user only, exactly the passwords with the same salted hash, the new one
    among them; a refused or failed change leaves the old file in force, and a
    password that is blank or shorter than eight bytes is refused. *)
Theorem set_password_spec oo wo ro salt pw d :
  match set_simple_password oo wo ro salt pw d with
  | (Ok _, d') =>
      trim pw <> "" /\ (8 <= len pw)%nat /\ sessions_file d' = sessions_file d
      /\ (forall user pw', validate_simple_password user pw' d' = Ok tt <->
            user = "localhost" /\ hash_password salt (bytes pw') = hash_password salt (bytes pw))
      /\ validate_simple_password "localhost" pw d' = Ok tt
  | (Err _, d') => d' = d
  end.
Proof.
  pose proof (set_password_cases oo wo ro salt pw d) as H.
  destruct (set_simple_password oo wo ro salt pw d) as [[u|e] d']; [|done].
  destruct H as (H1 & H2 & ->). split_and!; [done..| |].
  - intros user pw'. apply pw_files_accept.
  - by apply pw_files_accept.
Qed.

(** ** Sessions as seen at a time *)
(** The abstract session table at time [t]: what has not expired. *)
Definition live_at (t : Z) (a : AuthManager) : gmap string Session :=
  filter (fun ks => t < expires_at (snd ks)) (sessions a).

Lemma live_create saved now t user token a d :
  now <= t ->
  live_at t (fst (create_privileged_session saved now user token a d))
  = (if decide (t < now + session_ttl a)
     then <[ token_hash token := {| username := user; expires_at := now + session_ttl a |} ]> (live_at t a)
     else delete (token_hash token) (live_at t a)).
Proof.
  intros Ht. unfold live_at, create_privileged_session. cbn. rewrite map_filter_filter_l.
  - rewrite map_filter_insert. cbn. repeat case_decide; try done. by rewrite map_filter_delete.
  - intros k s _ Hs. cbn in *. lia.
Qed.
Lemma live_lookup t a key s :
  sessions a !! key = Some s -> live_at t a !! key = if t <? expires_at s then Some s else None.
Proof.
  intros E. unfold live_at. destruct (t <? expires_at s) eqn:El.
  - apply map_lookup_filter_Some. split; [done|]. cbn. lia.
  - apply map_lookup_filter_None. right. intros s' Hs'. cbn. assert (s' = s) as -> by congruence. lia.
Qed.
Lemma live_none t a key : sessions a !! key = None -> live_at t a !! key = None.
Proof. intros E. apply map_lookup_filter_None. by left. Qed.
Lemma live_validate saved now t token a d :
  now <= t ->
  fst (validate saved now token a d) = username <$> live_at now a !! token_hash token
  /\ live_at t (fst (snd (validate saved now token a d))) = live_at t a.
Proof.
  intros Ht. unfold validate. destruct (sessions a !! token_hash token) as [s|] eqn:E.
  - rewrite (live_lookup now a _ s E). destruct (now <? expires_at s) eqn:El; [done|]. split; [done|].
    cbn. unfold live_at at 1. cbn. rewrite map_filter_delete. apply delete_id.
    change (live_at t a !! token_hash token = None). rewrite (live_lookup t a _ s E).
    by destruct (Z.ltb_spec t (expires_at s)); [lia|].
  - by rewrite (live_none now a _ E).
Qed.
Lemma live_logout saved t token a d :
  live_at t (fst (logout saved token a d)) = delete (token_hash token) (live_at t a).
Proof.
  unfold logout. destruct (sessions a !! token_hash token) as [s|] eqn:E; cbn.
  - unfold live_at. cbn. by rewrite map_filter_delete.
  - symmetry. by apply delete_id, live_none.
Qed.
Lemma live_invalidate saved t user token a d :
  live_at t (fst (snd (invalidate_sessions_for_user_except saved user token a d)))
  = filter (fun ks => username (snd ks) <> user \/ fst ks = token_hash token) (live_at t a).
Proof. unfold live_at. cbn. apply map_filter_comm. Qed.

(** C40: the session table implements an abstract one in which sessions simply
    end at their expiry: [validate] answers from the live sessions and changes
    none of them; creating, logging out and dropping a user's other sessions
    act on the live sessions alone, at every later time. *)
Theorem sessions_refine saved now t user token a d :
  now <= t ->
  let h := token_hash token in
  (let s := {| username := user; expires_at := now + session_ttl a |} in
   live_at t (fst (create_privileged_session saved now user token a d))
   = (if decide (t < now + session_ttl a) then <[ h := s ]> (live_at t a)
      else delete h (live_at t a)))
  /\ (fst (validate saved now token a d) = username <$> live_at now a !! h
      /\ live_at t (fst (snd (validate saved now token a d))) = live_at t a)
  /\ live_at t (fst (logout saved token a d)) = delete h (live_at t a)
  /\ live_at t (fst (snd (invalidate_sessions_for_user_except saved user token a d)))
      = filter (fun ks => username (snd ks) <> user \/ fst ks = h) (live_at t a).
Proof.
  intros Ht h. split_and!; [by apply live_create|by apply (live_validate saved now t)|
    by apply live_validate|
    apply live_logout|apply live_invalidate].
Qed.

(** ** Restarts *)
(** Expiry times in the sidecar are unsigned. *)
Definition unsigned (m : gmap string PersistedSession) : Prop :=
  map_Forall (fun _ p => 0 <= ps_expires_unix p) m.
Hypothesis of_to_json : forall m, unsigned m -> of_json (to_json m) = Some m.
Hypothesis of_json_unsigned : forall s m, of_json s = Some m -> unsigned m.

(** A process start followed by operations at non-decreasing times, whose
    writes of the sidecar succeed. *)
Inductive auth_run : Z -> AuthManager -> Sidecar -> Prop :=
| ar_new now d g ttl : auth_run now (new now d g ttl) d
| ar_create now now' user tok a d :
    auth_run now a d -> now <= now' ->
    let r := create_privileged_session true now' user tok a d in auth_run now' (fst r) (snd r)
| ar_validate now now' tok a d :
    auth_run now a d -> now <= now' ->
    let r := snd (validate true now' tok a d) in auth_run now' (fst r) (snd r)
| ar_logout now tok a d :
    auth_run now a d -> let r := logout true tok a d in auth_run now (fst r) (snd r)
| ar_invalidate now user tok a d :
    auth_run now a d ->
    let r := snd (invalidate_sessions_for_user_except true user tok a d) in
    auth_run now (fst r) (snd r).

(** What a restart at [t] keeps of a session: its expiry in whole seconds. *)
Definition reloaded (t : Z) (s : Session) : option Session := of_persisted t (to_persisted s).
Definition mirrored (now : Z) (a : AuthManager) (d : Sidecar) : Prop :=
  forall t, now <= t -> load_sessions t (sessions_file d) = omap (reloaded t) (sessions a).

Lemma to_persisted_unsigned m : unsigned (to_persisted <$> m).
Proof.
  intros k p. rewrite lookup_fmap, fmap_Some. intros (s & _ & ->). cbn.
  destruct (expires_at s <? 0) eqn:E; [lia|]. apply Z.div_pos; [lia|done].
Qed.
Lemma mirrored_saved now a m d :
  mirrored now (with_sessions a m) (persist_sessions true m d).
Proof.
  intros t _. cbn. rewrite of_to_json by apply to_persisted_unsigned.
  apply map_eq. intros k. rewrite !lookup_omap, lookup_fmap. by destruct (m !! k).
Qed.
Lemma mirrored_later now now' a d : now <= now' -> mirrored now a d -> mirrored now' a d.
Proof. intros Hn H t Ht. apply H. lia. Qed.
Lemma reloaded_of_persisted now t p :
  now <= t -> 0 <= ps_expires_unix p ->
  of_persisted t p = of_persisted now p ≫= reloaded t.
Proof.
  intros Ht Hp. unfold of_persisted. destruct (now <? ps_expires_unix p * NANOS) eqn:E; cbn.
  - unfold reloaded, of_persisted, to_persisted. cbn.
    assert (0 <= ps_expires_unix p * NANOS) by (unfold NANOS; lia).
    rewrite (proj2 (Z.ltb_ge (ps_expires_unix p * NANOS) 0)) by done. rewrite Z.div_mul by (unfold NANOS; lia). done.
  - by rewrite (proj2 (Z.ltb_ge _ _)) by lia.
Qed.
Lemma auth_run_mirrored now a d : auth_run now a d -> mirrored now a d.
Proof.
  induction 1 as [now d g ttl|now now' user tok a d _ IH Hn|now now' tok a d _ IH Hn
                 |now tok a d _ IH|now user tok a d _ IH].
  - intros t Ht. cbn. unfold load_sessions. destruct (sessions_file d) as [raw|].
    + destruct (of_json raw) as [m|] eqn:E; [|by rewrite omap_empty].
      apply map_eq. intros k. rewrite !lookup_omap.
      destruct (m !! k) as [p|] eqn:Ek; [|done]. cbn.
      apply reloaded_of_persisted; [done|]. exact (of_json_unsigned _ _ E _ _ Ek).
    + by rewrite omap_empty.
  - apply mirrored_saved.
  - subst r. unfold validate. destruct (sessions a !! token_hash tok) as [s|]; [|by eapply mirrored_later].
    destruct (now' <? expires_at s); [by eapply mirrored_later|]. apply mirrored_saved.
  - subst r. unfold logout. destruct (sessions a !! token_hash tok); [apply mirrored_saved|done].
  - subst r. unfold invalidate_sessions_for_user_except. cbn. set (m := filter _ (sessions a)).
    destruct (size (sessions a) - size m)%nat eqn:E; cbn; [|apply (mirrored_saved now a m d)].
    assert (m = sessions a) as ->; [|by destruct a].
    apply map_subseteq_size_eq; [apply map_filter_subseteq|lia].
Qed.

Lemma reloaded_some t s s' :
  reloaded t s = Some s' -> username s' = username s /\ (0 <= t -> t < expires_at s).
Proof.
  unfold reloaded, of_persisted, to_persisted. cbn.
  destruct (expires_at s <? 0) eqn:E; cbn.
  - case_match eqn:Et; [|done]. intros [= <-]. split; [done|]. unfold NANOS in Et. lia.
  - case_match eqn:Et; [|done]. intros [= <-]. split; [done|]. intros _.
    pose proof (Z.mul_div_le (expires_at s) NANOS eq_refl). lia.
Qed.
Lemma reloaded_keeps t s :
  0 <= t -> t + NANOS <= expires_at s ->
  exists s', reloaded t s = Some s' /\ username s' = username s /\ t < expires_at s'.
Proof.
  intros H0 Ht. unfold reloaded, of_persisted, to_persisted. cbn.
  assert (0 < NANOS) by done. rewrite (proj2 (Z.ltb_ge (expires_at s) 0)) by lia.
  pose proof (Z.mul_succ_div_gt (expires_at s) NANOS ltac:(done)).
  rewrite (proj2 (Z.ltb_lt _ _)) by lia. eexists. split; [done|]. split; [done|]. cbn. lia.
Qed.
Lemma validate_some saved t tok a d u :
  fst (validate saved t tok a d) = Some u <->
  exists s, sessions a !! token_hash tok = Some s /\ t < expires_at s /\ username s = u.
Proof.
  unfold validate. destruct (sessions a !! token_hash tok) as [s|]; [|naive_solver].
  destruct (t <? expires_at s) eqn:E; cbn; split.
  - intros [= <-]. exists s. split_and!; [done|lia|done].
  - intros (s' & [= <-] & _ & <-). done.
  - done.
  - intros (s' & [= <-] & ? & _). lia.
Qed.
Lemma restart_lookup now t a d g ttl key :
  auth_run now a d -> now <= t ->
  sessions (new t d g ttl) !! key = sessions a !! key ≫= reloaded t.
Proof. intros Hr Ht. cbn. by rewrite (auth_run_mirrored _ _ _ Hr t Ht), lookup_omap. Qed.

(** When the sidecar writes succeed, a restart of the WebUI never logs a
    user out early by more than the rounding to whole seconds and never
    revives or extends a session: every token accepted after the restart would
    have been accepted before it, for the same user, and every session with at
    least a second left is kept. *)
Theorem restart_keeps_sessions now t a d g ttl saved tok :
  auth_run now a d -> now <= t -> 0 <= t ->
  (forall u, fst (validate saved t tok (new t d g ttl) d) = Some u ->
             fst (validate saved t tok a d) = Some u)
  /\ (forall s, sessions a !! token_hash tok = Some s -> t + NANOS <= expires_at s ->
        fst (validate saved t tok (new t d g ttl) d) = Some (username s)).
Proof.
  intros Hr Ht H0. split.
  - intros u (s' & Hs' & _ & <-)%validate_some. apply validate_some.
    rewrite (restart_lookup now t a) in Hs' by done.
    destruct (sessions a !! token_hash tok) as [s|]; [|done]. cbn in Hs'.
    apply reloaded_some in Hs' as [-> Hlt]. exists s. split_and!; auto.
  - intros s Hs He. apply validate_some. rewrite (restart_lookup now t a) by done. rewrite Hs. cbn.
    destruct (reloaded_keeps t s) as (s' & -> & Hu & Hlt); [done|done|]. by exists s'.
Qed.

(** A logout whose write of the sidecar fails is undone by a restart: the
    token is refused until then and accepted again afterwards, for a session
    with at least a second left. *)
Theorem unsaved_logout_revives now t a d g ttl saved tok s :
  auth_run now a d -> now <= t -> 0 <= t ->
  sessions a !! token_hash tok = Some s -> t + NANOS <= expires_at s ->
  let r := logout false tok a d in
  fst (validate saved t tok (fst r) (snd r)) = None
  /\ fst (validate saved t tok (new t (snd r) g ttl) (snd r)) = Some (username s).
Proof.
  intros Hr Ht H0 Hs He. unfold logout. rewrite Hs. cbn [fst snd persist_sessions]. split.
  - unfold validate. cbn. by rewrite lookup_delete_eq.
  - apply validate_some. rewrite (restart_lookup now t a) by done. rewrite Hs. cbn.
    destruct (reloaded_keeps t s) as (s' & -> & Hu & Hlt); [done|done|]. by exists s'.
Qed.
End Auth.

(** ** A concrete hash and codec *)
#[export] Instance persisted_eq_dec : EqDecision PersistedSession.
Proof. solve_decision. Defined.
#[export] Program Instance persisted_countable : Countable PersistedSession :=
  inj_countable' (fun p => (ps_username p, ps_expires_unix p))
    (fun q => {| ps_username := fst q; ps_expires_unix := snd q |}) _.
Next Obligation. by intros []. Qed.
Definition demo_json (m : gmap string PersistedSession) : string := dec (Z.pos (encode m)).
Definition demo_unjson (s : string) : option (gmap string PersistedSession) :=
  m ← decode (Z.to_pos (digits_val 0 s));
  if decide (map_Forall (fun _ p => 0 <= ps_expires_unix p) m) then Some m else None.
Lemma demo_json_ok m : unsigned m -> demo_unjson (demo_json m) = Some m.
Proof.
  intros H. unfold demo_unjson, demo_json.
  destruct (dec_spec (Z.pos (encode m)) ltac:(lia)) as (_ & _ & ->). cbn [Z.to_pos].
  rewrite decode_encode. cbn. by rewrite decide_True.
Qed.
Lemma demo_unjson_unsigned s m : demo_unjson s = Some m -> unsigned m.
Proof.
  unfold demo_unjson. destruct (decode _) as [m'|]; [|done]. cbn.
  case_decide; [|done]. by intros [= <-].
Qed.
Definition demo_hash (b : Bytes) : Bytes := b.
Definition demo_auth : AuthManager * Sidecar :=
  create_privileged_session demo_hash demo_json true (5 * NANOS) "alice" "tok"
    (new demo_unjson 0 {| sessions_file := None; simple_pw_file := None |} None None)
    {| sessions_file := None; simple_pw_file := None |}.
Lemma demo_auth_run : auth_run demo_hash demo_json demo_unjson (5 * NANOS) (fst demo_auth) (snd demo_auth).
Proof. refine (ar_create _ _ _ 0 (5 * NANOS) "alice" "tok" _ _ (ar_new _ _ _ _ _ _ _) _). discriminate. Qed.
Lemma demo_session :
  sessions (fst demo_auth) !! token_hash demo_hash "tok"
  = Some {| username := "alice"; expires_at := 43205 * NANOS |}.
Proof. vm_compute. reflexivity. Qed.

Lemma sessions_refine_witness :
  live_at (6 * NANOS) (fst (logout demo_hash demo_json true "tok" (fst demo_auth) (snd demo_auth)))
  = delete (token_hash demo_hash "tok") (live_at (6 * NANOS) (fst demo_auth)).
Proof.
  apply (sessions_refine demo_hash demo_json true (5 * NANOS) (6 * NANOS) "alice" "tok"
    (fst demo_auth) (snd demo_auth)). discriminate.
Defined.
Lemma restart_keeps_sessions_witness :
  fst (validate demo_hash demo_json true (10 * NANOS) "tok"
    (new demo_unjson (10 * NANOS) (snd demo_auth) None None) (snd demo_auth)) = Some "alice".
Proof.
  apply (proj2 (restart_keeps_sessions demo_hash demo_json demo_unjson demo_json_ok
    demo_unjson_unsigned (5 * NANOS) (10 * NANOS) (fst demo_auth) (snd demo_auth) None None true "tok"
    demo_auth_run ltac:(discriminate) ltac:(discriminate)) _ demo_session).
  discriminate.
Defined.
Lemma unsaved_logout_revives_witness :
  let r := logout demo_hash demo_json false "tok" (fst demo_auth) (snd demo_auth) in
  fst (validate demo_hash demo_json true (10 * NANOS) "tok"
    (new demo_unjson (10 * NANOS) (snd r) None None) (snd r)) = Some "alice".
Proof.
  apply (unsaved_logout_revives demo_hash demo_json demo_unjson demo_json_ok
    demo_unjson_unsigned (5 * NANOS) (10 * NANOS) (fst demo_auth) (snd demo_auth) None None true "tok"
    _ demo_auth_run ltac:(discriminate) ltac:(discriminate) demo_session).
  discriminate.
Defined.
