(* ===== verification/FsManager.v ===== *)
(** * The permission manager of the WebUI

    Models [nfs-klldap-ui/src/fs.rs]: which paths may be managed, how a host
    path maps to the path inside the container, and the two tree walks that
    apply modes and ACLs.  A [Path] is its list of components, which is how
    Rust compares paths; the walk over the tree (the walkdir crate), the
    privileged system calls and the cancel flag are arguments.  Effects are
    recorded as the sequence of privileged calls. *)

From S2P Require Import Prelude RustStr Identity Config FsProbe Acl.
Local Open Scope Z_scope.

(** ** Paths *)
Inductive Component := RootDir | CurDir | ParentDir | Normal (s : string).
#[export] Instance component_eq_dec : EqDecision Component.
Proof. solve_decision. Defined.
Abbreviation Path := (list Component).

Definition comp_of (part : string) : option Component :=
  if is_empty part || seqb part "." then None
  else if seqb part ".." then Some ParentDir else Some (Normal part).
(** [Path::components]: repeated separators and inner [.] disappear, a leading
    [.] of a relative path stays. *)
Definition components (p : string) : Path :=
  let parts := split "/" p in
  if starts_with "/" p then RootDir :: omap comp_of parts
  else match parts with
       | first :: rest =>
           if seqb first "." then CurDir :: omap comp_of rest else omap comp_of parts
       | [] => []
       end.
Definition has_parent_traversal (p : string) : bool :=
  existsb (fun c => bool_decide (c = ParentDir)) (components p).
(** [Path::starts_with] and [Path::strip_prefix]. *)
Fixpoint strip_path (base p : Path) : option Path :=
  match base, p with
  | [], _ => Some p
  | a :: base', b :: p' => if decide (a = b) then strip_path base' p' else None
  | _ :: _, [] => None
  end.
Definition path_starts_with (p base : string) : bool :=
  is_some (strip_path (components base) (components p)).

Definition normalize_for_matching : string -> string := normalize_path.
Definition is_allowed (cfg : NfsKlldapConfig) (path : string) : bool :=
  if has_parent_traversal path then false
  else
    let normalized := normalize_for_matching path in
    existsb (fun root => path_starts_with normalized (normalize_for_matching root)) (host_paths cfg).

Inductive MapError := ParentTraversal (p : string) | NotUnderShare (p : string).
(** One pass of the search for the most specific share. *)
Definition better_share (normalized : string) (best : option (nat * Path)) (share : Share)
  : option (nat * Path) :=
  let share_normalized := normalize_for_matching (sh_host_path share) in
  match strip_path (components share_normalized) (components normalized) with
  | None => best
  | Some rel =>
      let cpath := components (serve_path_for share) ++ rel in
      let spec := len share_normalized in
      match best with
      | Some (b, _) => if (b <? spec)%nat then Some (spec, cpath) else best
      | None => Some (spec, cpath)
      end
  end.
Definition host_path_to_container_path (cfg : NfsKlldapConfig) (host_path : string)
  : result Path MapError :=
  if has_parent_traversal host_path then Err (ParentTraversal host_path)
  else match foldl (better_share (normalize_for_matching host_path)) None (shares cfg) with
       | Some (_, cpath) => Ok cpath
       | None => Err (NotUnderShare host_path)
       end.

(** [diagnose_path]'s serve path: [max_by_key] keeps the last maximum. *)
Definition diagnose_serve_path (cfg : NfsKlldapConfig) (host_path : string) : string :=
  let normalized := normalize_for_matching host_path in
  default "" (serve_path_for <$>
    max_by_key (fun s => len (normalize_for_matching (sh_host_path s)))
      (List.filter (fun s => path_starts_with normalized (normalize_for_matching (sh_host_path s)))
         (shares cfg))).
Record PathDiagnostic := {
  pd_allowed : bool;
  pd_container_path : option Path;
  pd_container_exists : bool;
  pd_serve_path : string;
}.
Definition diagnose_path (is_dir : Path -> bool) (cfg : NfsKlldapConfig) (host_path : string)
  : PathDiagnostic :=
  let container := match host_path_to_container_path cfg host_path with
                   | Ok p => Some p | Err _ => None end in
  {| pd_allowed := is_allowed cfg (normalize_for_matching host_path);
     pd_container_path := container;
     pd_container_exists := match container with Some p => is_dir p | None => false end;
     pd_serve_path := diagnose_serve_path cfg host_path |}.

(** ** What an apply writes *)
Inductive ApplyScope := DirOnly | ImmediateFiles | All.
Definition USIZE_MAX : Z := u64_max.
Definition max_depth (s : ApplyScope) : Z :=
  match s with DirOnly => 0 | ImmediateFiles => 1 | All => USIZE_MAX end.
Record ApplySpec := { spec_mode : Z; spec_scope : ApplyScope; spec_file_mode : option Z }.
Record ApplyOptions := { scope : ApplyScope; file_mode : option Z; continue_on_error : bool }.

(** [0o444], [0o4000], [0o777] *)
Definition R_BITS : Z := 292.
Definition SETUID : Z := 2048.
Definition RWX_BITS : Z := 511.
Definition dir_mode_r_implies_x (mode : Z) : Z :=
  Z.lor mode (Z.shiftr (Z.land mode R_BITS) 2).

Inductive FileKind := KDir | KFile | KSymlink | KSpecial.
#[export] Instance file_kind_eq_dec : EqDecision FileKind.
Proof. solve_decision. Defined.
Definition is_dir (k : FileKind) : bool := bool_decide (k = KDir).
Definition is_file (k : FileKind) : bool := bool_decide (k = KFile).
Definition is_symlink (k : FileKind) : bool := bool_decide (k = KSymlink).
Record DirEntry := { e_path : Path; e_kind : FileKind; e_depth : Z }.
Inductive WalkItem := WEntry (e : DirEntry) | WError (path : option Path) (msg : string).

Definition should_apply_entry (e : DirEntry) (o : ApplyOptions) : bool :=
  let k := e_kind e in
  if is_symlink k then false
  else match scope o with
       | DirOnly => (is_dir k || is_file k) && (e_depth e =? 0)
       | ImmediateFiles => (is_dir k && (e_depth e =? 0)) || (is_file k && (e_depth e <=? 1))
       | All => is_dir k || is_file k
       end.

(** ** The mode walk *)
Record ApplyResult := {
  r_changed : nat;
  r_errors : list (Path * string);
  r_skipped : nat;
  r_fused_dirs : list Path;
  r_fused_dir_count : nat;
}.
Definition empty_result : ApplyResult :=
  {| r_changed := 0; r_errors := []; r_skipped := 0; r_fused_dirs := []; r_fused_dir_count := 0 |}.
(** The counters the poller reads. *)
Record ApplyProgress := {
  g_processed : nat;
  g_changed : nat;
  g_skipped : nat;
  g_error_count : nat;
  g_recent_errors : list (Path * string);
  g_last_path : option Path;
}.
Inductive PrivCall := Chown (p : Path) (uid gid : Z) | Chmod (p : Path) (mode : Z).
Record Apply := { res : ApplyResult; prog : ApplyProgress; calls : list PrivCall }.

Definition unknown_path : Path := [Normal "<unknown>"].
(** [errs.push(x); if errs.len() > 10 { errs.remove(0) }] *)
Definition push_capped (x : Path * string) (l : list (Path * string)) : list (Path * string) :=
  let l := l ++ [x] in if (10 <? length l)%nat then tail l else l.
Definition add_error (x : Path * string) (st : Apply) : Apply :=
  let r := res st in let g := prog st in
  {| res := {| r_changed := r_changed r; r_errors := r_errors r ++ [x]; r_skipped := r_skipped r;
               r_fused_dirs := r_fused_dirs r; r_fused_dir_count := r_fused_dir_count r |};
     prog := {| g_processed := g_processed g; g_changed := g_changed g; g_skipped := g_skipped g;
                g_error_count := S (g_error_count g);
                g_recent_errors := push_capped x (g_recent_errors g);
                g_last_path := g_last_path g |};
     calls := calls st |}.
Definition add_skipped (st : Apply) : Apply :=
  let r := res st in let g := prog st in
  {| res := {| r_changed := r_changed r; r_errors := r_errors r; r_skipped := S (r_skipped r);
               r_fused_dirs := r_fused_dirs r; r_fused_dir_count := r_fused_dir_count r |};
     prog := {| g_processed := g_processed g; g_changed := g_changed g;
                g_skipped := S (g_skipped g); g_error_count := g_error_count g;
                g_recent_errors := g_recent_errors g; g_last_path := g_last_path g |};
     calls := calls st |}.
Definition set_last (p : Path) (st : Apply) : Apply :=
  let g := prog st in
  {| res := res st;
     prog := {| g_processed := g_processed g; g_changed := g_changed g; g_skipped := g_skipped g;
                g_error_count := g_error_count g; g_recent_errors := g_recent_errors g;
                g_last_path := Some p |};
     calls := calls st |}.
Definition add_processed (n : nat) (st : Apply) : Apply :=
  let g := prog st in
  {| res := res st;
     prog := {| g_processed := g_processed g + n; g_changed := g_changed g; g_skipped := g_skipped g;
                g_error_count := g_error_count g; g_recent_errors := g_recent_errors g;
                g_last_path := g_last_path g |};
     calls := calls st |}.
Definition add_call (c : PrivCall) (st : Apply) : Apply :=
  {| res := res st; prog := prog st; calls := calls st ++ [c] |}.
Definition add_changed (p : Path) (fused : bool) (st : Apply) : Apply :=
  let r := res st in let g := prog st in
  {| res := {| r_changed := S (r_changed r); r_errors := r_errors r; r_skipped := r_skipped r;
               r_fused_dirs := if fused && (length (r_fused_dirs r) <? 10)%nat
                               then r_fused_dirs r ++ [p] else r_fused_dirs r;
               r_fused_dir_count := if fused then S (r_fused_dir_count r)
                                    else r_fused_dir_count r |};
     prog := {| g_processed := g_processed g; g_changed := S (g_changed g);
                g_skipped := g_skipped g; g_error_count := g_error_count g;
                g_recent_errors := g_recent_errors g; g_last_path := g_last_path g |};
     calls := calls st |}.

(** What the privileged calls answer. *)
Record Kernel := { chown_err : Path -> option string; chmod_err : Path -> option string }.

Definition entry_mode (mode : Z) (o : ApplyOptions) (e : DirEntry) : Z :=
  if is_dir (e_kind e) then dir_mode_r_implies_x mode else default mode (file_mode o).
(** The body of the loop for one item; [Err] is an early return. *)
Definition apply_item (k : Kernel) (uid gid mode : Z) (o : ApplyOptions) (it : WalkItem) (st : Apply)
  : result unit string * Apply :=
  match it with
  | WError p msg =>
      let st := add_error (default unknown_path p, msg) st in
      if continue_on_error o then (Ok tt, st)
      else (Err "aborted on walk error (continue_on_error=false)", st)
  | WEntry e =>
      let p := e_path e in
      if is_symlink (e_kind e) then (Ok tt, add_skipped st)
      else if negb (should_apply_entry e o) then (Ok tt, add_skipped st)
      else
        let st := set_last p st in
        let st := add_call (Chown p uid gid) st in
        match chown_err k p with
        | Some m =>
            let st := add_error (p, "chown: " +:+ m) st in
            if continue_on_error o then (Ok tt, add_processed 1 st) else (Err m, st)
        | None =>
            let st := add_call (Chmod p (entry_mode mode o e)) st in
            match chmod_err k p with
            | Some m =>
                let st := add_error (p, "chmod: " +:+ m) st in
                if continue_on_error o then (Ok tt, add_processed 1 st) else (Err m, st)
            | None =>
                let fused := negb (dir_mode_r_implies_x mode =? mode) && is_dir (e_kind e) in
                (Ok tt, add_processed 1 (add_changed p fused st))
            end
        end
  end.
(** [cancelled i]: what the flag reads before item [i]. *)
Fixpoint apply_walk (k : Kernel) (uid gid mode : Z) (o : ApplyOptions) (cancelled : nat -> bool)
    (i : nat) (items : list WalkItem) (st : Apply) : result unit string * Apply :=
  match items with
  | [] => (Ok tt, st)
  | it :: items =>
      if cancelled i then (Ok tt, st)
      else match apply_item k uid gid mode o it st with
           | (Err m, st) => (Err m, st)
           | (Ok _, st) => apply_walk k uid gid mode o cancelled (S i) items st
           end
  end.

Section Walk.
Context (walk : Path -> Z -> list WalkItem).

Definition apply_tree_with_progress (k : Kernel) (cancelled : nat -> bool) (root : Path)
    (uid gid mode : Z) (o : ApplyOptions) (st : Apply) : result unit string * Apply :=
  apply_walk k uid gid mode o cancelled 0 (walk root (max_depth (scope o))) st.

Inductive ApplyError :=
| OutsideRoots | SetuidRefused | SpecialBitsRefused | Unmapped (e : MapError) | Failed (m : string).
Definition apply_permissions_with_progress (k : Kernel) (cancelled : nat -> bool)
    (cfg : NfsKlldapConfig) (path : string) (owner_uid group_gid : Z) (spec : ApplySpec) (g : ApplyProgress)
  : result ApplyResult ApplyError * Apply :=
  let st := {| res := empty_result; prog := g; calls := [] |} in
  let normalized := normalize_for_matching path in
  if negb (is_allowed cfg normalized) then (Err OutsideRoots, st)
  else if negb (Z.land (spec_mode spec) SETUID =? 0) then (Err SetuidRefused, st)
  else if match spec_file_mode spec with
          | Some fm => negb (Z.ldiff fm RWX_BITS =? 0) | None => false end
  then (Err SpecialBitsRefused, st)
  else match host_path_to_container_path cfg normalized with
       | Err e => (Err (Unmapped e), st)
       | Ok target =>
           let o := {| scope := spec_scope spec; file_mode := spec_file_mode spec;
                       continue_on_error := true |} in
           match apply_tree_with_progress k cancelled target owner_uid group_gid
                   (spec_mode spec) o st with
           | (Ok _, st) => (Ok (res st), st)
           | (Err m, st) => (Err (Failed m), st)
           end
       end.

(** The scan phase: [(count, last path)]. *)
Fixpoint count_walk (applies : DirEntry -> bool) (cancelled : nat -> bool) (i : nat)
    (items : list WalkItem) : nat :=
  match items with
  | [] => 0
  | it :: items =>
      if cancelled i then 0
      else match it with
           | WEntry e => ((if applies e then 1 else 0)
                          + count_walk applies cancelled (S i) items)%nat
           | WError _ _ => count_walk applies cancelled (S i) items
           end
  end.
Definition count_applicable_with_live (cancelled : nat -> bool) (cfg : NfsKlldapConfig)
    (path : string) (s : ApplyScope) : result nat ApplyError :=
  let normalized := normalize_for_matching path in
  if negb (is_allowed cfg normalized) then Err OutsideRoots
  else match host_path_to_container_path cfg normalized with
       | Err e => Err (Unmapped e)
       | Ok target =>
           let o := {| scope := s; file_mode := None; continue_on_error := true |} in
           Ok (count_walk (fun e => should_apply_entry e o) cancelled 0 (walk target (max_depth s)))
       end.

(** ** The ACL walk *)
Definition is_default_layer (m : AclModification) : bool := is_default m.
Definition acl_entry_applies (e : DirEntry) (o : ApplyOptions) (default_layer : bool) : bool :=
  if default_layer && negb (is_dir (e_kind e)) then false else should_apply_entry e o.
Definition count_acl_applicable_with_live (cancelled : nat -> bool) (cfg : NfsKlldapConfig)
    (path : string) (m : AclModification) (s : ApplyScope) : result nat ApplyError :=
  let normalized := normalize_for_matching path in
  if negb (is_allowed cfg normalized) then Err OutsideRoots
  else match host_path_to_container_path cfg normalized with
       | Err e => Err (Unmapped e)
       | Ok target =>
           let o := {| scope := s; file_mode := None; continue_on_error := false |} in
           Ok (count_walk (fun e => acl_entry_applies e o (is_default_layer m)) cancelled 0
                 (walk target (max_depth s)))
       end.
Definition CHUNK : nat := 64.
Record AclApply := {
  a_changed : nat;
  a_errors : list (Path * string);
  a_skipped : nat;
  a_processed : nat;
  a_recent_errors : list (Path * string);
  a_last_path : option Path;
  dir_chunk : list Path;
  file_chunk : list Path;
  acl_calls : list (list Path * AclModification);
}.
Definition acl_start : AclApply :=
  {| a_changed := 0; a_errors := []; a_skipped := 0; a_processed := 0; a_recent_errors := [];
     a_last_path := None; dir_chunk := []; file_chunk := []; acl_calls := [] |}.

Context (setfacl : list Path -> AclModification -> option string).

(** The closure [flush] on the directory chunk or the file chunk. *)
Definition flush (dirs : bool) (m : AclModification) (st : AclApply) : AclApply :=
  let chunk := if dirs then dir_chunk st else file_chunk st in
  match chunk with
  | [] => st
  | first :: _ =>
      let err := setfacl chunk m in
      let msg e := "setfacl on " +:+ dec (Z.of_nat (length chunk)) +:+ " paths: " +:+ e in
      {| a_changed := match err with None => a_changed st + length chunk | Some _ => a_changed st end;
         a_errors := match err with None => a_errors st | Some e => a_errors st ++ [(first, msg e)] end;
         a_skipped := a_skipped st;
         a_processed := a_processed st + length chunk;
         a_recent_errors := match err with
                            | None => a_recent_errors st
                            | Some e => push_capped (first, msg e) (a_recent_errors st) end;
         a_last_path := a_last_path st;
         dir_chunk := if dirs then [] else dir_chunk st;
         file_chunk := if dirs then file_chunk st else [];
         acl_calls := acl_calls st ++ [(chunk, m)] |}
  end.
Definition acl_skip (st : AclApply) : AclApply :=
  {| a_changed := a_changed st; a_errors := a_errors st; a_skipped := S (a_skipped st);
     a_processed := a_processed st; a_recent_errors := a_recent_errors st;
     a_last_path := a_last_path st; dir_chunk := dir_chunk st; file_chunk := file_chunk st;
     acl_calls := acl_calls st |}.
Definition acl_walk_error (x : Path * string) (st : AclApply) : AclApply :=
  {| a_changed := a_changed st; a_errors := a_errors st ++ [x]; a_skipped := a_skipped st;
     a_processed := a_processed st; a_recent_errors := a_recent_errors st;
     a_last_path := a_last_path st; dir_chunk := dir_chunk st; file_chunk := file_chunk st;
     acl_calls := acl_calls st |}.
Definition acl_push (dirs : bool) (p : Path) (st : AclApply) : AclApply :=
  {| a_changed := a_changed st; a_errors := a_errors st; a_skipped := a_skipped st;
     a_processed := a_processed st; a_recent_errors := a_recent_errors st;
     a_last_path := Some p;
     dir_chunk := if dirs then dir_chunk st ++ [p] else dir_chunk st;
     file_chunk := if dirs then file_chunk st else file_chunk st ++ [p];
     acl_calls := acl_calls st |}.
Definition acl_item (dm fm : AclModification) (o : ApplyOptions) (default_layer : bool)
    (it : WalkItem) (st : AclApply) : AclApply :=
  match it with
  | WError p msg => acl_walk_error (default unknown_path p, msg) st
  | WEntry e =>
      if is_symlink (e_kind e) then acl_skip st
      else if negb (acl_entry_applies e o default_layer) then acl_skip st
      else
        let dirs := is_dir (e_kind e) in
        let st := acl_push dirs (e_path e) st in
        let chunk := if dirs then dir_chunk st else file_chunk st in
        if (CHUNK <=? length chunk)%nat then flush dirs (if dirs then dm else fm) st else st
  end.
Fixpoint acl_walk (dm fm : AclModification) (o : ApplyOptions) (default_layer : bool)
    (cancelled : nat -> bool) (i : nat) (items : list WalkItem) (st : AclApply) : AclApply :=
  match items with
  | [] => st
  | it :: items =>
      if cancelled i then st
      else acl_walk dm fm o default_layer cancelled (S i) items (acl_item dm fm o default_layer it st)
  end.
Definition apply_acl_with_progress (cancelled : nat -> bool) (cfg : NfsKlldapConfig) (path : string)
    (dm fm : AclModification) (s : ApplyScope) : result AclApply ApplyError :=
  let normalized := normalize_for_matching path in
  if negb (is_allowed cfg normalized) then Err OutsideRoots
  else match host_path_to_container_path cfg normalized with
       | Err e => Err (Unmapped e)
       | Ok target =>
           let o := {| scope := s; file_mode := None; continue_on_error := true |} in
           let st := acl_walk dm fm o (is_default_layer dm) cancelled 0
                       (walk target (max_depth s)) acl_start in
           Ok (flush false fm (flush true dm st))
       end.
(** [apply_acl_mod]: one entry on one node. *)
Definition apply_acl_mod (cfg : NfsKlldapConfig) (path : string) (m : AclModification)
  : result string ApplyError :=
  let normalized := normalize_for_matching path in
  if negb (is_allowed cfg normalized) then Err OutsideRoots
  else match host_path_to_container_path cfg normalized with
       | Err e => Err (Unmapped e)
       | Ok real =>
           match setfacl [real] m with
           | None => Ok "ACL entry updated on disk"
           | Some e => Err (Failed ("ACL apply failed: " +:+ e))
           end
       end.
End Walk.

(** ** Mapping: lemmas *)
Lemma strip_path_spec base p rel : strip_path base p = Some rel <-> p = base ++ rel.
Proof.
  revert p. induction base as [|a base IH]; intros p; cbn.
  { split; [by intros [= ->]|by intros ->]. }
  destruct p as [|b p]; [done|]. case_decide as Hd.
  - subst. rewrite IH. split; [by intros ->|by intros [= ->]].
  - split; [done|]. intros [= -> _]. done.
Qed.
Lemma path_starts_with_spec p base :
  path_starts_with p base = true <-> exists rel, components p = components base ++ rel.
Proof.
  unfold path_starts_with. destruct (strip_path _ _) as [rel|] eqn:E; cbn.
  - apply strip_path_spec in E. split; [by exists rel|done].
  - split; [done|]. intros [rel Hr]. apply strip_path_spec in Hr. congruence.
Qed.

(** The search keeps the first share with the longest matching host path. *)
Definition matches (n : string) (s : Share) (rel : Path) : Prop :=
  components n = components (normalize_for_matching (sh_host_path s)) ++ rel.
Definition spec_of (s : Share) : nat := len (normalize_for_matching (sh_host_path s)).
Definition best_of (n : string) (l : list Share) (best : option (nat * Path)) : Prop :=
  match best with
  | None => forall s rel, s ∈ l -> ~ matches n s rel
  | Some (b, c) =>
      exists s rel, s ∈ l /\ matches n s rel /\ b = spec_of s
        /\ c = components (serve_path_for s) ++ rel
        /\ forall s' rel', s' ∈ l -> matches n s' rel' -> (spec_of s' <= b)%nat
  end.
Lemma better_share_spec n l best s :
  best_of n l best -> best_of n (l ++ [s]) (better_share n best s).
Proof.
  intros Hb. unfold better_share.
  destruct (strip_path (components (normalize_for_matching (sh_host_path s))) (components n))
    as [rel|] eqn:E.
  - apply strip_path_spec in E. destruct best as [[b c]|]; cbn in Hb.
    + destruct (b <? len (normalize_for_matching (sh_host_path s)))%nat eqn:El.
      * apply Nat.ltb_lt in El. destruct Hb as (s0 & r0 & _ & _ & _ & _ & Hmax).
        exists s, rel. split_and!; [set_solver|done|done|done|].
        intros s' rel' [Hs| ->%list_elem_of_singleton]%elem_of_app Hm; [|done].
        specialize (Hmax s' rel' Hs Hm). unfold spec_of in *. lia.
      * apply Nat.ltb_ge in El. destruct Hb as (s0 & r0 & Hin & Hm0 & -> & -> & Hmax).
        exists s0, r0. split_and!; [set_solver|done|done|done|].
        intros s' rel' [Hs| ->%list_elem_of_singleton]%elem_of_app Hm; [by eapply Hmax|done].
    + exists s, rel. split_and!; [set_solver|done|done|done|].
      intros s' rel' [Hs| ->%list_elem_of_singleton]%elem_of_app Hm; [|done]. by destruct (Hb s' rel' Hs).
  - assert (Hn : forall rel, ~ matches n s rel).
    { intros rel Hm. apply strip_path_spec in Hm. congruence. }
    destruct best as [[b c]|]; cbn in Hb |- *.
    + destruct Hb as (s0 & r0 & Hin & Hm0 & -> & -> & Hmax).
      exists s0, r0. split_and!; [set_solver|done|done|done|].
      intros s' rel' [Hs| ->%list_elem_of_singleton]%elem_of_app Hm; [by eapply Hmax|]. by destruct (Hn rel').
    + intros s' rel' [Hs| ->%list_elem_of_singleton]%elem_of_app; [by apply Hb|apply Hn].
Qed.
Lemma search_spec n l : best_of n l (foldl (better_share n) None l).
Proof.
  induction l as [|s l IH] using rev_ind; [cbn; set_solver|].
  rewrite foldl_app. cbn. by apply better_share_spec.
Qed.
Lemma host_path_ok cfg p c :
  host_path_to_container_path cfg p = Ok c ->
  has_parent_traversal p = false
  /\ exists s rel, s ∈ shares cfg /\ matches (normalize_for_matching p) s rel
      /\ c = components (serve_path_for s) ++ rel
      /\ forall s' rel', s' ∈ shares cfg -> matches (normalize_for_matching p) s' rel' ->
            (spec_of s' <= spec_of s)%nat.
Proof.
  unfold host_path_to_container_path. destruct (has_parent_traversal p); [done|].
  pose proof (search_spec (normalize_for_matching p) (shares cfg)) as H.
  destruct (foldl _ _ _) as [[b c']|]; [|done]. intros [= <-]. split; [done|].
  destruct H as (s & rel & ? & ? & -> & -> & ?). by exists s, rel.
Qed.

(** ** Components of normalized paths *)
Lemma split_app_gen c a b : split c (a +:+ String c b) = split c a ++ split c b.
Proof.
  unfold split. induction a as [|d a IH].
  - rewrite sapp_nil_l. cbn. by rewrite ceqb_refl.
  - rewrite sapp_cons. cbn [split_p]. rewrite IH. destruct (ceqb c d); [done|].
    pose proof (split_nonempty (ceqb c) a) as Hn. by destruct (split_p (ceqb c) a).
Qed.
Lemma split_slashes a k :
  sall (ceqb "/") k = true -> exists n, split "/" (a +:+ k) = split "/" a ++ replicate n "".
Proof.
  revert a. induction k as [|c k IH]; intros a Hk.
  { exists 0%nat. by rewrite sapp_nil_r, app_nil_r. }
  cbn [sall] in Hk. apply andb_true_iff in Hk as [<-%ceqb_eq Hk].
  destruct (IH "" Hk) as [n Hn]. rewrite sapp_nil_l in Hn. exists (S n).
  rewrite split_app_gen, Hn. done.
Qed.
Lemma omap_replicate n : omap comp_of (replicate n "") = [].
Proof. by induction n. Qed.
Lemma components_slashes t k :
  t <> "" -> sall (ceqb "/") k = true -> components (t +:+ k) = components t.
Proof.
  intros Ht Hk. unfold components. destruct (split_slashes t k Hk) as [n ->].
  assert (starts_with "/" (t +:+ k) = starts_with "/" t) as ->.
  { destruct t as [|c t]; [done|]. by rewrite sapp_cons, !starts_with_one. }
  assert (Ho : omap comp_of (split "/" t ++ replicate n "") = omap comp_of (split "/" t)).
  { by rewrite omap_app, omap_replicate, app_nil_r. }
  destruct (starts_with "/" t); [by rewrite Ho|].
  pose proof (split_nonempty (ceqb "/") t) as Hne. unfold split in *.
  destruct (split_p (ceqb "/") t) as [|first rest]; [done|]. cbn [app].
  destruct (seqb first "."); [|exact Ho].
  by rewrite omap_app, omap_replicate, app_nil_r.
Qed.
Lemma components_normalize p : p <> "" -> components (normalize_path p) = components p.
Proof.
  intros Hp. unfold normalize_path. destruct (trim_end_matches_app "/" p) as (k & Heq & Hk).
  destruct (is_empty (trim_end_matches "/" p)) eqn:E.
  - apply is_empty_true in E. rewrite E, sapp_nil_l in Heq. subst p. symmetry.
    destruct k as [|c k]; [done|]. cbn [sall] in Hk. apply andb_true_iff in Hk as [<-%ceqb_eq Hk].
    apply (components_slashes "/" k); done.
  - apply is_empty_false in E. rewrite Heq at 2. symmetry. by apply components_slashes.
Qed.
Lemma normalize_no_parent p :
  has_parent_traversal p = false -> has_parent_traversal (normalize_path p) = false.
Proof.
  intros H. destruct (decide (p = "")) as [->|Hp]; [reflexivity|].
  unfold has_parent_traversal in *. by rewrite components_normalize.
Qed.

(** After its first component, a path has only names and [..]. *)
Lemma components_tail p c rest :
  components p = c :: rest -> Forall (fun x => x = ParentDir \/ exists s, x = Normal s) rest.
Proof.
  assert (Ho : forall l, Forall (fun x => x = ParentDir \/ exists s, x = Normal s) (omap comp_of l)).
  { induction l as [|x l IH]; [constructor|]. cbn. unfold comp_of at 1.
    destruct (is_empty x || seqb x "."); [done|]. destruct (seqb x ".."); constructor; eauto. }
  unfold components. destruct (starts_with "/" p); [by intros [= _ <-]|].
  destruct (split "/" p) as [|first more]; [done|].
  destruct (seqb first "."); [by intros [= _ <-]|].
  intros H. pose proof (Ho (first :: more)) as Hf. rewrite H in Hf. by apply Forall_cons in Hf as [_ ?].
Qed.
Lemma components_nonempty p : p <> "" -> components p <> [].
Proof.
  intros Hp. unfold components. destruct (starts_with "/" p) eqn:Es; [done|].
  destruct p as [|c p]; [done|]. rewrite starts_with_one in Es.
  unfold split. cbn [split_p]. rewrite Es.
  assert (Hx : forall h (t : list string), (if seqb (String c h) "." then CurDir :: omap comp_of t
            else omap comp_of (String c h :: t)) <> []).
  { intros h t. destruct (seqb (String c h) ".") eqn:Ed; [done|].
    change (omap comp_of (String c h :: t)) with
      (match comp_of (String c h) with Some y => y :: omap comp_of t | None => omap comp_of t end).
    assert (exists y, comp_of (String c h) = Some y) as [y ->]; [|done].
    unfold comp_of. rewrite Ed. cbn [is_empty orb]. case_match; eauto. }
  destruct (split_p _ p); apply Hx.
Qed.
Lemma trim_end_twice c s : trim_end_matches c (trim_end_matches c s) = trim_end_matches c s.
Proof.
  induction s as [|d s IH]; [done|]. cbn. destruct (is_empty (trim_end_matches c s) && ceqb c d) eqn:E; [done|].
  cbn. by rewrite IH, E.
Qed.
Lemma normalize_twice p : normalize_path (normalize_path p) = normalize_path p.
Proof.
  unfold normalize_path. destruct (is_empty (trim_end_matches "/" p)) eqn:E; [done|]. by rewrite trim_end_twice, E.
Qed.
Lemma normalize_nonempty p : normalize_path p <> "".
Proof. unfold normalize_path. case_match eqn:E; [done|]. by apply is_empty_false. Qed.
Lemma rel_names n s rel :
  matches n s rel -> has_parent_traversal n = false -> Forall (fun x => exists v, x = Normal v) rel.
Proof.
  unfold matches. intros Hm Hp.
  pose proof (components_nonempty _ (normalize_nonempty (sh_host_path s))) as Hne.
  fold (normalize_for_matching (sh_host_path s)) in Hne.
  destruct (components (normalize_for_matching (sh_host_path s))) as [|c base]; [done|].
  pose proof (components_tail n _ _ Hm) as Ht. apply Forall_app in Ht as [_ Ht].
  apply Forall_forall. intros x Hx. rewrite Forall_forall in Ht. destruct (Ht x Hx) as [->|?]; [|done].
  exfalso. unfold has_parent_traversal in Hp. rewrite Hm in Hp.
  assert (existsb (fun c => bool_decide (c = ParentDir)) ((c :: base) ++ rel) = true); [|congruence].
  apply existsb_exists. exists ParentDir. split; [|done].
  apply in_or_app. right. by apply list_elem_of_In.
Qed.

(** The allow-list and the path mapping agree: a path may be managed
    exactly when it maps into the container. *)
Theorem allowed_iff_mapped cfg p :
  is_allowed cfg p = is_ok (host_path_to_container_path cfg p).
Proof.
  unfold is_allowed, host_path_to_container_path. destruct (has_parent_traversal p); [done|].
  pose proof (search_spec (normalize_for_matching p) (shares cfg)) as Hs.
  set (best := foldl _ _ _) in *. apply eq_true_iff_eq. rewrite existsb_exists. split.
  - intros (root & Hin & (rel & Hr)%path_starts_with_spec).
    apply in_map_iff in Hin as (s & <- & Hin).
    destruct best as [[b c]|]; [done|]. cbn in Hs. exfalso.
    apply (Hs s rel); [by apply list_elem_of_In|done].
  - destruct best as [[b c]|]; [|done]. intros _. destruct Hs as (s & rel & Hin & Hm & _).
    exists (sh_host_path s). split; [apply in_map; by apply list_elem_of_In|].
    apply path_starts_with_spec. by exists rel.
Qed.

(** A mapped path lies inside the tree a share serves: it is the serve path
    of a configured share followed by plain names (no [..], [.] or root), the
    same names that follow the share's host path in the request, and no other
    matching share has a longer host path. *)
Theorem mapped_path_confined cfg p c :
  host_path_to_container_path cfg p = Ok c ->
  exists s rel, s ∈ shares cfg
    /\ c = components (serve_path_for s) ++ rel
    /\ Forall (fun x => exists v, x = Normal v) rel
    /\ components (normalize_path p) = components (normalize_path (sh_host_path s)) ++ rel
    /\ (forall s', s' ∈ shares cfg ->
          path_starts_with (normalize_path p) (normalize_path (sh_host_path s')) = true ->
          (len (normalize_path (sh_host_path s')) <= len (normalize_path (sh_host_path s)))%nat).
Proof.
  intros (Hp & s & rel & Hin & Hm & -> & Hmax)%host_path_ok. exists s, rel. split_and!; try done.
  - eapply rel_names; [exact Hm|]. by apply normalize_no_parent.
  - intros s' Hs' (rel' & Hr)%path_starts_with_spec. by apply (Hmax s' rel').
Qed.
Lemma mapped_path_confined_witness :
  exists s rel, s ∈ shares sample_validated
    /\ [RootDir; Normal "export"; Normal "movies"; Normal "a"; Normal "b.mkv"]
       = components (serve_path_for s) ++ rel
    /\ Forall (fun x => exists v, x = Normal v) rel
    /\ components (normalize_path "/media/movies//a/./b.mkv/")
       = components (normalize_path (sh_host_path s)) ++ rel
    /\ (forall s', s' ∈ shares sample_validated ->
          path_starts_with (normalize_path "/media/movies//a/./b.mkv/")
            (normalize_path (sh_host_path s')) = true ->
          (len (normalize_path (sh_host_path s')) <= len (normalize_path (sh_host_path s)))%nat).
Proof. apply mapped_path_confined. vm_compute. reflexivity. Defined.

(** ** The innermost share *)
(** Host paths in canonical spelling. *)
Definition name_ok (n : string) : Prop := contains_char "/" n = false /\ comp_of n = Some (Normal n).
Definition clean_path (h : string) : Prop :=
  exists names, Forall name_ok names /\ h = "/" +:+ join "/" names.

Lemma omap_names names : Forall name_ok names -> omap comp_of names = map Normal names.
Proof. induction 1 as [|n l [_ Hn] _ IH]; [done|]. cbn. by rewrite Hn, IH. Qed.
Lemma components_clean names :
  Forall name_ok names -> components ("/" +:+ join "/" names) = RootDir :: map Normal names.
Proof.
  intros H. unfold components.
  change ("/" +:+ join "/" names) with ("" +:+ String "/" (join "/" names)).
  rewrite split_app_gen. change (starts_with "/" _) with true. cbn [app split split_p]. f_equal.
  change (omap comp_of ("" :: ?l)) with (omap comp_of l).
  rewrite <- omap_names by done. destruct names as [|n names]; [done|].
  rewrite join_split; [done|done|]. eapply Forall_impl; [exact H|]. by intros ? [? _].
Qed.
Lemma len_join_app a x b :
  x <> "" -> (len (join "/" a) < len (join "/" (a ++ x :: b)))%nat.
Proof.
  intros Hx. assert (0 < len x)%nat by (destruct x; cbn; [done|lia]).
  assert (Hj : forall y l, (len y <= len (join "/" (y :: l)))%nat).
  { intros y [|z l]; cbn [join]; [done|]. rewrite !len_app. lia. }
  induction a as [|y a IH].
  - pose proof (Hj x b). cbn [app]. change (len (join "/" [])) with 0%nat. lia.
  - destruct a as [|z a].
    + change (join "/" ([y] ++ x :: b)) with (y +:+ "/" +:+ join "/" (x :: b)).
      change (join "/" [y]) with y. rewrite !len_app. change (len "/") with 1%nat. lia.
    + change (join "/" ((y :: z :: a) ++ x :: b)) with (y +:+ "/" +:+ join "/" ((z :: a) ++ x :: b)).
      change (join "/" (y :: z :: a)) with (y +:+ "/" +:+ join "/" (z :: a)).
      rewrite !len_app. lia.
Qed.
(** Among the host paths above one path, the longer text is the deeper one. *)
Lemma clean_prefix_deeper h1 h2 full r1 r2 :
  clean_path h1 -> clean_path h2 ->
  full = components h1 ++ r1 -> full = components h2 ++ r2 -> (len h2 <= len h1)%nat ->
  exists more, components h1 = components h2 ++ more.
Proof.
  intros (n1 & Hn1 & ->) (n2 & Hn2 & ->) E1 E2 Hlen. rewrite !components_clean in * by done.
  rewrite E1 in E2. destruct (app_eq_inv _ _ _ _ E2) as [(k & Hk & _)|(k & Hk & _)]; [by exists k|].
  destruct k as [|x k]; [exists []; by rewrite Hk, !app_nil_r|]. exfalso.
  injection Hk as Hk.
  assert (Hk' : Normal <$> n2 = (Normal <$> n1) ++ x :: k) by exact Hk.
  apply fmap_app_inv in Hk' as (a & b & Ha & Hb & ->).
  apply list_fmap_eq_inj in Ha as ->; [|by intros ? ? [= ->]].
  destruct b as [|y b]; [done|]. apply Forall_app in Hn2 as [_ [[_ Hy] _]%Forall_cons].
  assert (y <> "") by (by intros ->).
  pose proof (len_join_app a y b ltac:(done)). rewrite !len_app in Hlen. lia.
Qed.

(** With host paths in canonical spelling (no doubled slashes or dots), the
    share chosen for a path is the innermost one: every other share whose host
    path contains the request also contains the chosen share's host path. *)
Theorem innermost_share_wins cfg p c :
  (forall s, s ∈ shares cfg -> clean_path (normalize_path (sh_host_path s))) ->
  host_path_to_container_path cfg p = Ok c ->
  exists s rel, s ∈ shares cfg /\ c = components (serve_path_for s) ++ rel
    /\ forall s', s' ∈ shares cfg ->
        path_starts_with (normalize_path p) (normalize_path (sh_host_path s')) = true ->
        exists more, components (normalize_path (sh_host_path s))
                     = components (normalize_path (sh_host_path s')) ++ more.
Proof.
  intros Hc (Hp & s & rel & Hin & Hm & -> & Hmax)%host_path_ok. exists s, rel. split_and!; try done.
  intros s' Hs' (rel' & Hr)%path_starts_with_spec.
  eapply clean_prefix_deeper; [by apply Hc|by apply Hc|exact Hm|exact Hr|].
  by apply (Hmax s' rel').
Qed.
Definition share_at (name host container : string) : Share :=
  with_share_paths {| sh_name := name; sh_host_path := host;
    sh_pseudo_path := None; sh_security := None; sh_rw := Some true;
    sh_squash := Some "root_squash"; sh_cache_profile := Some "Default"; sh_pref_read := None;
    sh_pref_write := None; sh_enable_acl := None; sh_manage_gids := None;
    sh_read_access_policy := None; sh_manage_gids_expiration := None; sh_container_path := "";
    sh_source_path := None; sh_attr_expiration_secs := None; sh_navahi_insecure := None;
    sh_umask := None |} container None None.
Definition config_of (l : list Share) : NfsKlldapConfig :=
  {| ldap_uri := ldap_uri sample_config; navahi_discovery := false;
     storage_container_root := "/export"; server_hostname := None; sssd := sssd sample_config;
     kerberos_realm := None; ganesha := ganesha sample_config; webui_admin_group := None;
     probe := probe sample_config; host_nfs := None; webui := webui sample_config; shares := l;
     share_warnings := [] |}.
Definition nested_config : NfsKlldapConfig :=
  config_of [share_at "inner" "/srv/data/media" "/export/m"; share_at "outer" "/srv/data" "/export/d"].
Lemma innermost_share_wins_witness :
  host_path_to_container_path nested_config "/srv/data/media/x"
    = Ok [RootDir; Normal "export"; Normal "m"; Normal "x"]
  /\ exists s rel, s ∈ shares nested_config
    /\ [RootDir; Normal "export"; Normal "m"; Normal "x"] = components (serve_path_for s) ++ rel
    /\ forall s', s' ∈ shares nested_config ->
        path_starts_with (normalize_path "/srv/data/media/x") (normalize_path (sh_host_path s')) = true ->
        exists more, components (normalize_path (sh_host_path s))
                     = components (normalize_path (sh_host_path s')) ++ more.
Proof.
  split; [vm_compute; reflexivity|]. apply innermost_share_wins; [|vm_compute; reflexivity].
  intros s. cbn. rewrite !elem_of_cons. intros [->|[->|H]]; [..|by apply elem_of_nil in H].
  - exists ["srv"; "data"; "media"]. split; [|reflexivity]. by repeat constructor.
  - exists ["srv"; "data"]. split; [|reflexivity]. by repeat constructor.
Defined.

(** Two shares may declare the same host path (validation accepts it), and
    then the WebUI manages only the first: every request maps to the first
    share's tree, while the diagnostic for the same path names the second. *)
Theorem duplicate_host_path_shadows :
  let cfg := config_of [share_at "a" "/srv/data" "/export/a"; share_at "b" "/srv/data" "/export/b"] in
  is_ok (validate_and_derive no_env cfg) = true
  /\ host_path_to_container_path cfg "/srv/data/f" = Ok (components "/export/a/f")
  /\ pd_serve_path (diagnose_path (fun _ => true) cfg "/srv/data/f") = "/export/b".
Proof. vm_compute. split_and!; reflexivity. Qed.

(** ** Modes *)
Lemma testbit_r_bits n : 0 <= n -> Z.testbit R_BITS (n + 2) = (n =? 0) || (n =? 3) || (n =? 6).
Proof.
  intros Hn. destruct (Z_lt_le_dec n 10) as [Hlt|Hge].
  - assert (Hall : forall i, (i < 10)%nat ->
      Z.testbit R_BITS (Z.of_nat i + 2) = (Z.of_nat i =? 0) || (Z.of_nat i =? 3) || (Z.of_nat i =? 6)).
    { intros i Hi. do 10 (destruct i as [|i]; [reflexivity|]). lia. }
    rewrite <- (Z2Nat.id n) by done. apply Hall. lia.
  - rewrite Z.bits_above_log2; [|done|change (Z.log2 R_BITS) with 8; lia].
    symmetry. rewrite !orb_false_iff, !Z.eqb_neq. lia.
Qed.
(** The directory mode is the requested mode with execute added exactly
    where read is granted, for owner, group and other: no other bit changes
    (in particular no special bit), and the fuse is idempotent. *)
Theorem dir_mode_fuse_spec mode n :
  0 <= n ->
  Z.testbit (dir_mode_r_implies_x mode) n
  = Z.testbit mode n || (((n =? 0) || (n =? 3) || (n =? 6)) && Z.testbit mode (n + 2)).
Proof.
  intros Hn. unfold dir_mode_r_implies_x.
  rewrite Z.lor_spec, Z.shiftr_spec, Z.land_spec, testbit_r_bits by done.
  by rewrite (andb_comm (Z.testbit mode (n + 2))).
Qed.
Lemma dir_mode_fuse_spec_witness :
  Z.testbit (dir_mode_r_implies_x 420) 3
  = Z.testbit 420 3 || (((3 =? 0) || (3 =? 3) || (3 =? 6)) && Z.testbit 420 (3 + 2)).
Proof. apply dir_mode_fuse_spec. discriminate. Defined.

Lemma setuid_bit m : Z.land m SETUID = 0 <-> Z.testbit m 11 = false.
Proof.
  change SETUID with (2 ^ 11). split; intros H.
  - apply (f_equal (fun z => Z.testbit z 11)) in H. rewrite Z.land_spec, Z.bits_0 in H.
    change (Z.testbit (2 ^ 11) 11) with true in H. by rewrite andb_true_r in H.
  - apply Z.bits_inj'. intros n Hn. rewrite Z.land_spec, Z.bits_0.
    destruct (decide (n = 11)) as [->|Hne]; [by rewrite H|].
    rewrite Z.pow2_bits_false by done. apply andb_false_r.
Qed.
Lemma dir_mode_no_setuid m : Z.land m SETUID = 0 -> Z.land (dir_mode_r_implies_x m) SETUID = 0.
Proof.
  rewrite !setuid_bit. intros H. unfold dir_mode_r_implies_x.
  rewrite Z.lor_spec, H, Z.shiftr_spec, Z.land_spec, testbit_r_bits by done. cbn.
  by rewrite andb_false_r.
Qed.

(** ** Accounting of the mode walk *)
Fixpoint visited (cancelled : nat -> bool) (i : nat) (items : list WalkItem) : list WalkItem :=
  match items with
  | [] => []
  | it :: items => if cancelled i then [] else it :: visited cancelled (S i) items
  end.
Definition applied_entry (applies : DirEntry -> bool) (it : WalkItem) : option DirEntry :=
  match it with WEntry e => if applies e then Some e else None | WError _ _ => None end.
Definition entry_calls (k : Kernel) (uid gid mode : Z) (o : ApplyOptions) (e : DirEntry)
  : list PrivCall :=
  Chown (e_path e) uid gid
  :: match chown_err k (e_path e) with
     | Some _ => [] | None => [Chmod (e_path e) (entry_mode mode o e)] end.

Lemma visited_incl cancelled i items it : it ∈ visited cancelled i items -> it ∈ items.
Proof.
  revert i. induction items as [|x items IH]; intros i; [done|]. cbn.
  destruct (cancelled i); [by intros ?%elem_of_nil|].
  intros [->|H]%elem_of_cons; [set_solver|]. apply elem_of_cons. right. by eapply IH.
Qed.
Lemma count_walk_spec applies cancelled i items :
  count_walk applies cancelled i items
  = length (omap (applied_entry applies) (visited cancelled i items)).
Proof.
  revert i. induction items as [|it items IH]; intros i; [done|]. cbn.
  destruct (cancelled i); [done|]. cbn. destruct it as [e|p m]; cbn; rewrite IH; [|done].
  by destruct (applies e).
Qed.
Definition applies_in (o : ApplyOptions) : DirEntry -> bool := fun e => should_apply_entry e o.
(** One item: its calls, and exactly one counter. *)
Lemma apply_item_spec k uid gid mode o it st :
  continue_on_error o = true ->
  exists st', apply_item k uid gid mode o it st = (Ok tt, st')
  /\ calls st' = calls st ++ concat (map (entry_calls k uid gid mode o)
                   (option_list (applied_entry (applies_in o) it)))
  /\ (r_changed (res st') + r_skipped (res st') + length (r_errors (res st'))
      = S (r_changed (res st) + r_skipped (res st) + length (r_errors (res st))))%nat
  /\ (g_processed (prog st') = g_processed (prog st)
        + length (option_list (applied_entry (applies_in o) it)))%nat
  /\ (r_changed (res st) <= r_changed (res st'))%nat
  /\ (g_changed (prog st') + r_changed (res st) = g_changed (prog st) + r_changed (res st'))%nat
  /\ (g_skipped (prog st') + r_skipped (res st) = g_skipped (prog st) + r_skipped (res st'))%nat
  /\ (g_error_count (prog st') + length (r_errors (res st))
      = g_error_count (prog st) + length (r_errors (res st')))%nat.
Proof.
  intros Hc. unfold apply_item. rewrite Hc. destruct it as [e|p m].
  - unfold applied_entry, applies_in. destruct (is_symlink (e_kind e)) eqn:Es.
    { assert (should_apply_entry e o = false) as -> by (unfold should_apply_entry; by rewrite Es).
      eexists. split; [reflexivity|]. cbn. rewrite app_nil_r. split_and!; lia || done. }
    destruct (should_apply_entry e o) eqn:Ea; cbn [negb].
    2:{ eexists. split; [reflexivity|]. cbn. rewrite app_nil_r. split_and!; lia || done. }
    unfold entry_calls. cbn [option_list map concat app].
    destruct (chown_err k (e_path e)) as [m|] eqn:Eo.
    { eexists. split; [reflexivity|]. cbn. rewrite Eo, length_app. cbn. split_and!; lia || done. }
    destruct (chmod_err k (e_path e)) as [m|]; (eexists; split; [reflexivity|]); cbn;
      rewrite Eo, <- app_assoc, ?length_app; cbn; split_and!; lia || done.
  - eexists. split; [reflexivity|]. cbn. rewrite app_nil_r, length_app. cbn. split_and!; lia || done.
Qed.

Lemma apply_walk_spec k uid gid mode o cancelled i items st :
  continue_on_error o = true ->
  exists st', apply_walk k uid gid mode o cancelled i items st = (Ok tt, st')
  /\ (let vis := visited cancelled i items in
      let app := omap (applied_entry (applies_in o)) vis in
      calls st' = calls st ++ concat (map (entry_calls k uid gid mode o) app)
  /\ (r_changed (res st') + r_skipped (res st') + length (r_errors (res st'))
      = length vis + (r_changed (res st) + r_skipped (res st) + length (r_errors (res st))))%nat
  /\ (g_processed (prog st') = g_processed (prog st) + length app)%nat
  /\ (r_changed (res st) <= r_changed (res st'))%nat
  /\ (g_changed (prog st') + r_changed (res st) = g_changed (prog st) + r_changed (res st'))%nat
  /\ (g_skipped (prog st') + r_skipped (res st) = g_skipped (prog st) + r_skipped (res st'))%nat
  /\ (g_error_count (prog st') + length (r_errors (res st))
      = g_error_count (prog st) + length (r_errors (res st')))%nat).
Proof.
  intros Hc. revert i st. induction items as [|it items IH]; intros i st; cbn [apply_walk visited].
  { exists st. split; [done|]. cbn. rewrite app_nil_r. split_and!; lia || done. }
  destruct (cancelled i).
  { exists st. split; [done|]. cbn. rewrite app_nil_r. split_and!; lia || done. }
  destruct (apply_item_spec k uid gid mode o it st Hc) as (st1 & -> & H1 & H2 & H3 & H4 & H5 & H6 & H7).
  destruct (IH (S i) st1) as (st2 & -> & G1 & G2 & G3 & G4 & G5 & G6 & G7).
  exists st2. split; [done|]. cbn zeta in *.
  assert (Ho : omap (applied_entry (applies_in o)) (it :: visited cancelled (S i) items)
    = option_list (applied_entry (applies_in o) it)
      ++ omap (applied_entry (applies_in o)) (visited cancelled (S i) items)).
  { cbn. by destruct (applied_entry (applies_in o) it). }
  rewrite Ho, map_app, concat_app, app_assoc, <- H1, length_app.
  cbn [length]. split_and!; lia || done.
Qed.

Lemma applied_in applies (items : list WalkItem) e :
  e ∈ omap (applied_entry applies) items -> WEntry e ∈ items /\ applies e = true.
Proof.
  intros (it & Hit & He)%list_elem_of_omap. destruct it as [e'|]; [|done]. cbn in He.
  destruct (applies e') eqn:E; [|done]. by injection He as ->.
Qed.
Lemma names_of (rel : Path) :
  Forall (fun x => exists v, x = Normal v) rel -> exists names, rel = map Normal names.
Proof.
  induction 1 as [|x rel [v ->] _ [names ->]]; [by exists []|]. by exists (v :: names).
Qed.
Definition call_path (c : PrivCall) : Path := match c with Chown p _ _ | Chmod p _ => p end.
Lemma entry_call_cases k uid gid mode o e c :
  c ∈ entry_calls k uid gid mode o e ->
  call_path c = e_path e
  /\ match c with Chown _ u v => u = uid /\ v = gid | Chmod _ m => m = entry_mode mode o e end.
Proof.
  unfold entry_calls. intros [->|H]%elem_of_cons; [done|].
  destruct (chown_err k (e_path e)); [by apply elem_of_nil in H|].
  by apply list_elem_of_singleton in H as ->.
Qed.
Lemma rwx_no_setuid fm : Z.ldiff fm RWX_BITS = 0 -> Z.land fm SETUID = 0.
Proof.
  intros H. apply setuid_bit. apply (f_equal (fun z => Z.testbit z 11)) in H.
  rewrite Z.ldiff_spec, Z.bits_0 in H by done. change (Z.testbit RWX_BITS 11) with false in H.
  by rewrite andb_true_r in H.
Qed.

Section WalkTheorems.
Context (walk : Path -> Z -> list WalkItem).

(** The mode walk (errors do not stop it) accounts for every item it
    visits exactly once as changed, skipped or failed, makes the calls of the
    entries in scope and no others, in walk order and ownership before mode;
    the live counters agree with the result, and the number processed is what
    the scan phase counted over the same walk. *)
Theorem apply_accounts_every_entry k cancelled root uid gid mode o st :
  continue_on_error o = true ->
  exists st', apply_tree_with_progress walk k cancelled root uid gid mode o
      {| res := empty_result; prog := st; calls := [] |} = (Ok tt, st')
  /\ (let vis := visited cancelled 0 (walk root (max_depth (scope o))) in
      let app := omap (applied_entry (applies_in o)) vis in
      calls st' = concat (map (entry_calls k uid gid mode o) app)
      /\ (r_changed (res st') + r_skipped (res st') + length (r_errors (res st')) = length vis)%nat
      /\ (g_processed (prog st') = g_processed st + length app)%nat
      /\ (count_walk (applies_in o) cancelled 0 (walk root (max_depth (scope o))) = length app)%nat
      /\ (g_changed (prog st') = g_changed st + r_changed (res st'))%nat
      /\ (g_skipped (prog st') = g_skipped st + r_skipped (res st'))%nat
      /\ (g_error_count (prog st') = g_error_count st + length (r_errors (res st')))%nat).
Proof.
  intros Hc. unfold apply_tree_with_progress.
  destruct (apply_walk_spec k uid gid mode o cancelled 0 (walk root (max_depth (scope o)))
    {| res := empty_result; prog := st; calls := [] |} Hc)
    as (st' & -> & H1 & H2 & H3 & H4 & H5 & H6 & H7).
  exists st'. split; [done|]. cbn zeta in *. rewrite count_walk_spec. cbn in *.
  split_and!; lia || done.
Qed.

(** ** What a permission change may touch *)
(** The entries of a walk are the root followed by as many names as the depth,
    which is at most the requested one. *)
Hypothesis walk_below : forall root d e, WEntry e ∈ walk root d ->
  exists names, e_path e = root ++ map Normal names
    /\ e_depth e = Z.of_nat (length names) /\ e_depth e <= d.

(** The entries that a scope reaches, by their names below the chosen node. *)
Definition in_scope (s : ApplyScope) (kind : FileKind) (below : list string) : Prop :=
  match s with
  | DirOnly => below = []
  | ImmediateFiles => below = [] \/ (length below = 1%nat /\ kind = KFile)
  | All => True
  end.
Lemma applied_in_scope o e below :
  should_apply_entry e o = true -> e_depth e = Z.of_nat (length below) ->
  (e_kind e = KDir \/ e_kind e = KFile) /\ in_scope (scope o) (e_kind e) below.
Proof.
  unfold should_apply_entry, in_scope, is_dir, is_file, is_symlink. intros H Hd.
  rewrite Hd in H. destruct (e_kind e); [|..|destruct (scope o); discriminate H]; try discriminate H.
  all: destruct (scope o), below as [|x [|y l]]; cbn -[Z.of_nat] in H |- *; try lia; auto 10.
  all: exfalso; repeat match type of H with context [bool_decide ?p] =>
      let b := eval vm_compute in (bool_decide p) in change (bool_decide p) with b in H end.
  all: cbn -[Z.of_nat] in H; rewrite ?orb_false_r, ?Z.eqb_eq, ?Z.leb_le in H; lia.
Qed.

(** C18: every privileged call of a permission change is confined and safe.  The
    path of the request lies under a configured share, the most specific one, and
    the call is on an entry of the walk that starts at the same place under the
    serve path of that share; the entry is a directory or a regular file, never a
    link, and the scope reaches it: the chosen node only, or also its direct files,
    or the subtree.  An owner is set as asked; a directory gets the mode asked for
    with execute added to read, a file the mode for files if there is one and else
    the mode asked for; no mode carries setuid and a mode for files holds
    permission bits only.  A request that is refused makes no call at all. *)
Theorem apply_permissions_safe k cancelled cfg path uid gid spec g :
  let r := apply_permissions_with_progress walk k cancelled cfg path uid gid spec g in
  (is_ok (fst r) = false -> calls (snd r) = [])
  /\ forall c, c ∈ calls (snd r) ->
     exists s rel e below, s ∈ shares cfg
       /\ components (normalize_path path) = components (normalize_path (sh_host_path s)) ++ map Normal rel
       /\ (forall s' rel', s' ∈ shares cfg ->
            components (normalize_path path) = components (normalize_path (sh_host_path s')) ++ rel' ->
            (len (normalize_path (sh_host_path s')) <= len (normalize_path (sh_host_path s)))%nat)
       /\ WEntry e ∈ walk (components (serve_path_for s) ++ map Normal rel) (max_depth (spec_scope spec))
       /\ call_path c = e_path e
       /\ e_path e = components (serve_path_for s) ++ map Normal rel ++ map Normal below
       /\ (e_kind e = KDir \/ e_kind e = KFile) /\ in_scope (spec_scope spec) (e_kind e) below
       /\ match c with
          | Chown _ u v => u = uid /\ v = gid
          | Chmod _ m => Z.land m SETUID = 0
              /\ m = (if is_dir (e_kind e) then dir_mode_r_implies_x (spec_mode spec)
                      else default (spec_mode spec) (spec_file_mode spec))
              /\ (forall fm, spec_file_mode spec = Some fm -> Z.ldiff fm RWX_BITS = 0)
          end.
Proof.
  unfold apply_permissions_with_progress. cbv zeta.
  destruct (negb (is_allowed cfg _)); [split; [done|by intros ? ?%elem_of_nil]|].
  destruct (negb (Z.land (spec_mode spec) SETUID =? 0)) eqn:Es; [split; [done|by intros ? ?%elem_of_nil]|].
  destruct (match spec_file_mode spec with Some fm => _ | None => _ end) eqn:Ef; [split; [done|by intros ? ?%elem_of_nil]|].
  destruct (host_path_to_container_path cfg _) as [target|e] eqn:Et; [|split; [done|by intros ? ?%elem_of_nil]].
  apply host_path_ok in Et as (Hp & s & rel & Hin & Hmat & -> & Hmost).
  set (o := {| scope := spec_scope spec; file_mode := spec_file_mode spec; continue_on_error := true |}).
  unfold apply_tree_with_progress.
  destruct (apply_walk_spec k uid gid (spec_mode spec) o cancelled 0
    (walk (components (serve_path_for s) ++ rel) (max_depth (scope o)))
    {| res := empty_result; prog := g; calls := [] |} eq_refl) as (st' & -> & Hcalls & _).
  split; [done|]. intros c. cbn [snd]. rewrite Hcalls. cbn [calls app].
  intros (l & Hl & Hc)%list_elem_of_In%in_concat.
  apply in_map_iff in Hl as (e & <- & He). apply list_elem_of_In in He, Hc.
  apply applied_in in He as [He Ha]. apply visited_incl in He.
  destruct (walk_below _ _ _ He) as (below & Hpath & Hdep & Hle).
  destruct (names_of rel) as [names ->].
  { eapply rel_names; [exact Hmat|]. by apply normalize_no_parent. }
  unfold matches, spec_of, normalize_for_matching in Hmat, Hmost. rewrite normalize_twice in Hmat, Hmost.
  apply entry_call_cases in Hc as (Hcp & Hck).
  destruct (applied_in_scope _ _ _ Ha Hdep) as [Hkind Hscope].
  exists s, names, e, below. rewrite app_assoc. split_and!; try done.
  destruct c as [p u v|p m]; [done|]. apply negb_false_iff, Z.eqb_eq in Es.
  assert (Hfm : forall fm, spec_file_mode spec = Some fm -> Z.ldiff fm RWX_BITS = 0).
  { intros fm E. rewrite E in Ef. by apply negb_false_iff, Z.eqb_eq in Ef. }
  subst m. unfold entry_mode. destruct (is_dir (e_kind e)).
  - split; [by apply dir_mode_no_setuid|done].
  - split; [|done]. cbn. destruct (spec_file_mode spec) as [fm|]; [|done]. cbn. by apply rwx_no_setuid, Hfm.
Qed.
End WalkTheorems.

(** A concrete walk: a directory with one file. *)
Definition demo_walk (root : Path) (d : Z) : list WalkItem :=
  if d <? 0 then []
  else WEntry {| e_path := root; e_kind := KDir; e_depth := 0 |}
       :: if d <? 1 then []
          else [WEntry {| e_path := root ++ [Normal "f"]; e_kind := KFile; e_depth := 1 |}].
Lemma demo_walk_below root d e :
  WEntry e ∈ demo_walk root d ->
  exists names, e_path e = root ++ map Normal names
    /\ e_depth e = Z.of_nat (length names) /\ e_depth e <= d.
Proof.
  unfold demo_walk. destruct (d <? 0) eqn:E0; [by intros ?%elem_of_nil|].
  intros [[= ->]|H]%elem_of_cons.
  - exists []. cbn. rewrite app_nil_r. split_and!; lia || done.
  - destruct (d <? 1) eqn:E1; [by apply elem_of_nil in H|].
    apply list_elem_of_singleton in H as [= ->]. exists ["f"]. cbn. split_and!; lia || done.
Qed.
Definition demo_kernel : Kernel := {| chown_err := fun _ => None; chmod_err := fun _ => None |}.
Definition demo_progress : ApplyProgress :=
  {| g_processed := 0; g_changed := 0; g_skipped := 0; g_error_count := 0; g_recent_errors := [];
     g_last_path := None |}.
Definition demo_spec : ApplySpec :=
  {| spec_mode := 436; spec_scope := All; spec_file_mode := Some 420 |}.
Lemma apply_accounts_every_entry_witness :
  exists st', apply_tree_with_progress demo_walk demo_kernel (fun _ => false) [RootDir] 10 20 436
      {| scope := All; file_mode := None; continue_on_error := true |}
      {| res := empty_result; prog := demo_progress; calls := [] |} = (Ok tt, st')
  /\ (r_changed (res st') + r_skipped (res st') + length (r_errors (res st')) = 2)%nat.
Proof.
  destruct (apply_accounts_every_entry demo_walk demo_kernel (fun _ => false) [RootDir] 10 20 436
    {| scope := All; file_mode := None; continue_on_error := true |} demo_progress eq_refl)
    as (st' & H & _ & H2 & _). exists st'. split; [exact H | exact H2].
Defined.
Lemma apply_permissions_safe_witness :
  exists s rel below, s ∈ shares sample_validated
    /\ components "/media/movies" = components (normalize_path (sh_host_path s)) ++ map Normal rel
    /\ [RootDir; Normal "export"; Normal "movies"; Normal "f"]
       = components (serve_path_for s) ++ map Normal rel ++ map Normal below
    /\ Z.land 420 SETUID = 0.
Proof.
  destruct (apply_permissions_safe demo_walk demo_walk_below demo_kernel (fun _ => false)
    sample_validated "/media/movies/" 10 20 demo_spec demo_progress) as [_ H].
  destruct (H (Chmod [RootDir; Normal "export"; Normal "movies"; Normal "f"] 420))
    as (s & rel & e & below & Hs & Hr & _ & _ & Hc & Hp & _ & _ & Hm & _).
  { vm_compute. apply list_elem_of_In. cbn. tauto. }
  exists s, rel, below. rewrite <- Hp, <- Hc. split; [exact Hs|]. split; [|split; [reflexivity|exact Hm]].
  rewrite <- Hr. vm_compute. reflexivity.
Defined.

(** ** The chunks of the ACL walk *)
Section AclChunks.
Context (setfacl : list Path -> AclModification -> option string) (dm fm : AclModification).

(** A setfacl run on directories ([true]) or files ([false]). *)
Definition run_call (c : bool * list Path) : list Path * AclModification :=
  (snd c, if fst c then dm else fm).
Definition chunks (d : bool) (runs : list (bool * list Path)) : list (list Path) :=
  map snd (List.filter (fun c => Bool.eqb (fst c) d) runs).
Definition run_ok (c : bool * list Path) : bool :=
  match setfacl (fst (run_call c)) (snd (run_call c)) with None => true | Some _ => false end.
Fixpoint sizes (runs : list (bool * list Path)) : nat :=
  match runs with [] => 0 | c :: runs => length (snd c) + sizes runs end.

Record acl_inv (D F : list Path) (nskip nerr : nat) (runs : list (bool * list Path)) (st : AclApply)
  : Prop := {
  ai_calls : acl_calls st = map run_call runs;
  ai_dirs : concat (chunks true runs) ++ dir_chunk st = D;
  ai_files : concat (chunks false runs) ++ file_chunk st = F;
  ai_size : Forall (fun c => 0 < length (snd c) <= CHUNK)%nat runs;
  ai_processed : a_processed st = sizes runs;
  ai_changed : a_changed st = sizes (List.filter run_ok runs);
  ai_skipped : a_skipped st = nskip;
  ai_errors : (length (a_errors st) = nerr + length (List.filter (fun c => negb (run_ok c)) runs))%nat;
}.

Lemma sizes_app a b : sizes (a ++ b) = (sizes a + sizes b)%nat.
Proof. induction a as [|c a IH]; cbn; [done|]. rewrite IH. lia. Qed.
Lemma chunks_app d a b : chunks d (a ++ b) = chunks d a ++ chunks d b.
Proof. unfold chunks. by rewrite List.filter_app, map_app. Qed.
Lemma sizes_chunks runs :
  sizes runs = (length (concat (chunks true runs)) + length (concat (chunks false runs)))%nat.
Proof.
  induction runs as [|[[] c] runs IH]; [done|..]; cbn; rewrite length_app, IH; unfold chunks; lia.
Qed.
Lemma flush_inv D F nskip nerr runs st (d : bool) :
  acl_inv D F nskip nerr runs st ->
  (length (if d then dir_chunk st else file_chunk st) <= CHUNK)%nat ->
  exists runs', acl_inv D F nskip nerr runs' (flush setfacl d (if d then dm else fm) st)
    /\ (if d then dir_chunk else file_chunk) (flush setfacl d (if d then dm else fm) st) = []
    /\ (if d then file_chunk else dir_chunk) (flush setfacl d (if d then dm else fm) st)
       = (if d then file_chunk else dir_chunk) st.
Proof.
  intros [Hc Hd Hf Hs Hp Hch Hsk He] Hlen. unfold flush.
  destruct (if d then dir_chunk st else file_chunk st) as [|p ch] eqn:Ech.
  { exists runs. split; [by split|]. by destruct d. }
  assert (Hpos : (0 < length (p :: ch))%nat) by (cbn; lia).
  remember (p :: ch) as chunk eqn:Hchunk. clear Hchunk. exists (runs ++ [(d, chunk)]). split; [|by destruct d].
  assert (Hrun : run_call (d, chunk) = (chunk, if d then dm else fm)) by done.
  assert (Hok : run_ok (d, chunk) = match setfacl chunk (if d then dm else fm) with
                                    | None => true | Some _ => false end) by done.
  split; cbn [acl_calls dir_chunk file_chunk a_processed a_changed a_skipped a_errors].
  - by rewrite Hc, map_app.
  - rewrite chunks_app, concat_app. destruct d; cbn in Ech |- *; rewrite ?app_nil_r; [by rewrite <- Ech|done].
  - rewrite chunks_app, concat_app. destruct d; cbn in Ech |- *; rewrite ?app_nil_r; [done|by rewrite <- Ech].
  - apply Forall_app. split; [done|]. constructor; [|constructor]. cbn in *. lia.
  - rewrite sizes_app, Hp. cbn. lia.
  - rewrite List.filter_app, sizes_app, Hch. cbn. rewrite Hok.
    destruct (setfacl chunk _); cbn; lia.
  - done.
  - rewrite List.filter_app, length_app. cbn. rewrite Hok.
    destruct (setfacl chunk _); cbn; rewrite ?length_app; cbn; lia.
Qed.

Definition dirs_of (l : list DirEntry) : list Path := map e_path (List.filter (fun e => is_dir (e_kind e)) l).
Definition files_of (l : list DirEntry) : list Path :=
  map e_path (List.filter (fun e => negb (is_dir (e_kind e))) l).
Definition is_walk_error (it : WalkItem) : bool := match it with WError _ _ => true | _ => false end.
Lemma acl_item_inv o dl it D F nskip nerr runs st :
  acl_inv D F nskip nerr runs st ->
  (length (dir_chunk st) < CHUNK)%nat -> (length (file_chunk st) < CHUNK)%nat ->
  let app := option_list (applied_entry (fun e => acl_entry_applies e o dl) it) in
  let err := if is_walk_error it then 1%nat else 0%nat in
  exists runs', acl_inv (D ++ dirs_of app) (F ++ files_of app) (nskip + (1 - length app - err)) (nerr + err)
      runs' (acl_item setfacl dm fm o dl it st)
    /\ (length (dir_chunk (acl_item setfacl dm fm o dl it st)) < CHUNK)%nat
    /\ (length (file_chunk (acl_item setfacl dm fm o dl it st)) < CHUNK)%nat.
Proof.
  intros H Hd Hf. unfold acl_item. destruct it as [e|p m]; cbn zeta.
  2:{ exists runs. split; [|done]. destruct H as [H1 H2 H3 H4 H5 H6 H7 H8].
      split; cbn; rewrite ?app_nil_r; try done; [lia|]. rewrite length_app, H8. cbn. lia. }
  cbn [applied_entry is_walk_error].
  assert (Hskip : exists runs', acl_inv (D ++ dirs_of []) (F ++ files_of []) (nskip + (1 - 0 - 0)) (nerr + 0)
      runs' (acl_skip st)
    /\ (length (dir_chunk (acl_skip st)) < CHUNK)%nat /\ (length (file_chunk (acl_skip st)) < CHUNK)%nat).
  { exists runs. split; [|done]. destruct H as [H1 H2 H3 H4 H5 H6 H7 H8].
    split; cbn; rewrite ?app_nil_r; try done; lia. }
  destruct (is_symlink (e_kind e)) eqn:Es.
  { assert (acl_entry_applies e o dl = false) as ->; [|done].
    unfold acl_entry_applies, should_apply_entry. rewrite Es. by case_match. }
  destruct (acl_entry_applies e o dl) eqn:Ea; cbn [negb]; [|done]. clear Hskip.
  set (d := is_dir (e_kind e)). set (st1 := acl_push d (e_path e) st).
  assert (H1 : acl_inv (D ++ dirs_of [e]) (F ++ files_of [e]) (nskip + 0) (nerr + 0) runs st1).
  { destruct H as [H1 H2 H3 H4 H5 H6 H7 H8]. unfold dirs_of, files_of, st1. fold d. cbn.
    split; cbn; fold d; try done; try lia; destruct d; cbn; rewrite ?app_nil_r, ?app_assoc; congruence. }
  assert (Hl : (length (if d then dir_chunk st1 else file_chunk st1) <= CHUNK)%nat).
  { unfold st1. destruct d; cbn; rewrite length_app; cbn; lia. }
  assert (Hother : (length (if d then file_chunk st1 else dir_chunk st1) < CHUNK)%nat).
  { unfold st1. by destruct d. }
  cbn [option_list]. fold d.
  destruct (CHUNK <=? length (if d then dir_chunk st1 else file_chunk st1))%nat eqn:Ec.
  - destruct (flush_inv _ _ _ _ _ _ d H1 Hl) as (runs' & H2 & Hnil & Hkeep). exists runs'.
    split; [exact H2|]. destruct d; rewrite Hnil, Hkeep; cbn; split; [unfold CHUNK; lia|done|done|unfold CHUNK; lia].
  - exists runs. apply Nat.leb_gt in Ec. split; [exact H1|]. by destruct d.
Qed.

Definition acl_applied (o : ApplyOptions) (dl : bool) (items : list WalkItem) : list DirEntry :=
  omap (applied_entry (fun e => acl_entry_applies e o dl)) items.
Definition walk_errors (items : list WalkItem) : nat := length (List.filter is_walk_error items).
Lemma acl_applied_cons o dl it items :
  acl_applied o dl (it :: items)
  = option_list (applied_entry (fun e => acl_entry_applies e o dl) it) ++ acl_applied o dl items.
Proof. unfold acl_applied. cbn. by destruct (applied_entry _ it). Qed.
Lemma dirs_of_app a b : dirs_of (a ++ b) = dirs_of a ++ dirs_of b.
Proof. unfold dirs_of. by rewrite List.filter_app, map_app. Qed.
Lemma files_of_app a b : files_of (a ++ b) = files_of a ++ files_of b.
Proof. unfold files_of. by rewrite List.filter_app, map_app. Qed.
Lemma item_once o dl it :
  (length (option_list (applied_entry (fun e => acl_entry_applies e o dl) it))
   + (if is_walk_error it then 1 else 0) <= 1)%nat.
Proof. destruct it as [e|]; cbn; [|lia]. destruct (acl_entry_applies e o dl); cbn; lia. Qed.

Lemma acl_walk_inv o dl cancelled i items D F nskip nerr runs st :
  acl_inv D F nskip nerr runs st ->
  (length (dir_chunk st) < CHUNK)%nat -> (length (file_chunk st) < CHUNK)%nat ->
  let vis := visited cancelled i items in
  let app := acl_applied o dl vis in
  let st' := acl_walk setfacl dm fm o dl cancelled i items st in
  exists runs', acl_inv (D ++ dirs_of app) (F ++ files_of app)
      (nskip + (length vis - length app - walk_errors vis)) (nerr + walk_errors vis) runs' st'
    /\ (length app + walk_errors vis <= length vis)%nat
    /\ (length (dir_chunk st') < CHUNK)%nat /\ (length (file_chunk st') < CHUNK)%nat.
Proof.
  revert i D F nskip nerr runs st. induction items as [|it items IH];
    intros i D F nskip nerr runs st H Hd Hf; cbn zeta; cbn [visited acl_walk].
  { exists runs. cbn. rewrite !app_nil_r, !Nat.add_0_r. by split_and!. }
  destruct (cancelled i).
  { exists runs. cbn. rewrite !app_nil_r, !Nat.add_0_r. by split_and!. }
  destruct (acl_item_inv o dl it D F nskip nerr runs st H Hd Hf) as (r1 & H1 & Hd1 & Hf1).
  destruct (IH (S i) _ _ _ _ _ _ H1 Hd1 Hf1) as (r2 & H2 & Hle & Hd2 & Hf2).
  exists r2. pose proof (item_once o dl it) as Honce.
  rewrite acl_applied_cons, dirs_of_app, files_of_app, !app_assoc.
  assert (Hw : walk_errors (it :: visited cancelled (S i) items)
    = ((if is_walk_error it then 1 else 0) + walk_errors (visited cancelled (S i) items))%nat).
  { unfold walk_errors. cbn. by destruct (is_walk_error it). }
  rewrite Hw, length_app. cbn [length].
  split; [|split_and!; [lia|done|done]].
  replace (nskip + (S (length (visited cancelled (S i) items)) - _ - _))%nat
    with (nskip + (1 - length (option_list (applied_entry (fun e => acl_entry_applies e o dl) it))
            - (if is_walk_error it then 1 else 0))
          + (length (visited cancelled (S i) items)
             - length (acl_applied o dl (visited cancelled (S i) items))
             - walk_errors (visited cancelled (S i) items)))%nat by lia.
  rewrite Nat.add_assoc. exact H2.
Qed.
End AclChunks.

(** A recursive ACL change reaches exactly the entries in scope, each in
    one setfacl run: the runs on directories, in order, cover exactly the
    directories and carry the directory modification, those on files the
    files and the file modification; a run has between 1 and 64 paths (the
    entries pending when a cancel is seen are still applied), and every
    visited item is counted once as processed, skipped or a walk error, with
    [changed] the entries of the runs that succeeded. *)
Theorem acl_runs_partition walk setfacl cancelled cfg path dm fm s st :
  apply_acl_with_progress walk setfacl cancelled cfg path dm fm s = Ok st ->
  exists target runs,
    host_path_to_container_path cfg (normalize_path path) = Ok target
    /\ (let o := {| scope := s; file_mode := None; continue_on_error := true |} in
        let vis := visited cancelled 0 (walk target (max_depth s)) in
        let app := acl_applied o (is_default dm) vis in
        acl_calls st = map (run_call dm fm) runs
        /\ concat (chunks true runs) = dirs_of app /\ concat (chunks false runs) = files_of app
        /\ Forall (fun c => 0 < length (snd c) <= CHUNK)%nat runs
        /\ a_processed st = length app
        /\ (a_processed st + a_skipped st + walk_errors vis = length vis)%nat
        /\ a_changed st = sizes (List.filter (run_ok setfacl dm fm) runs)
        /\ (length (a_errors st)
            = walk_errors vis + length (List.filter (fun c => negb (run_ok setfacl dm fm c)) runs))%nat).
Proof.
  unfold apply_acl_with_progress. destruct (negb _); [done|].
  destruct (host_path_to_container_path cfg (normalize_for_matching path)) as [target|] eqn:Et; [|done].
  intros [= <-]. set (o := {| scope := s; file_mode := None; continue_on_error := true |}).
  assert (H0 : acl_inv setfacl dm fm [] [] 0 0 [] acl_start) by (split; done || constructor).
  destruct (acl_walk_inv setfacl dm fm o (is_default dm) cancelled 0 (walk target (max_depth s))
    _ _ _ _ _ _ H0) as (r1 & H1 & Hle & Hd1 & Hf1); [unfold CHUNK; cbn; lia..|].
  destruct (flush_inv setfacl dm fm _ _ _ _ _ _ true H1) as (r2 & H2 & Hn2 & Hk2); [cbn; lia|].
  destruct (flush_inv setfacl dm fm _ _ _ _ _ _ false H2) as (r3 & H3 & Hn3 & Hk3).
  { cbn in *. rewrite Hk2. lia. }
  exists target, r3. split; [done|]. cbn zeta. cbn in Hn3, Hk3, Hn2.
  destruct H3 as [G1 G2 G3 G4 G5 G6 G7 G8]. cbn in G1, G2, G3, G5, G6, G7, G8.
  unfold is_default_layer in *. fold o in G1, G2, G3, G5, G6, G7, G8. 
  rewrite Hk3, Hn2, app_nil_r in G2. rewrite Hn3, app_nil_r in G3.
  assert (Hsz : sizes r3 = length (acl_applied o (is_default dm) (visited cancelled 0 (walk target (max_depth s))))).
  { rewrite sizes_chunks, G2, G3. unfold dirs_of, files_of. rewrite !length_map.
    generalize (acl_applied o (is_default dm) (visited cancelled 0 (walk target (max_depth s)))).
    intros l. induction l as [|e l IH]; [done|]. cbn. destruct (is_dir (e_kind e)); cbn; lia. }
  split_and!; try done; lia.
Qed.
Definition demo_mod : AclModification :=
  AclSet (KUser 1000) {| p_r := true; p_w := false; p_x := true |} false.
Definition demo_acl_result : AclApply :=
  match apply_acl_with_progress demo_walk (fun _ _ => None) (fun _ => false) sample_validated
          "/media/movies" demo_mod demo_mod All with Ok st => st | Err _ => acl_start end.
Lemma acl_runs_partition_witness :
  exists target runs,
    host_path_to_container_path sample_validated (normalize_path "/media/movies") = Ok target
    /\ acl_calls demo_acl_result = map (run_call demo_mod demo_mod) runs
    /\ concat (chunks true runs) = [components "/export/movies"].
Proof.
  destruct (acl_runs_partition demo_walk (fun _ _ => None) (fun _ => false) sample_validated
    "/media/movies" demo_mod demo_mod All demo_acl_result) as (target & runs & Ht & Hc & Hd & _);
    [vm_compute; reflexivity|].
  exists target, runs. split; [exact Ht|]. split; [exact Hc|]. rewrite Hd.
  assert (target = components "/export/movies") as ->.
  { assert (Ok target = Ok (E := MapError) (components "/export/movies")) as [= ->]; [|reflexivity].
    rewrite <- Ht. vm_compute. reflexivity. }
  vm_compute. reflexivity.
Defined.
