(* ===== verification/IdCache.v ===== *)
(** * The identity cache of the idhelper

    Models [IdCache] of [bin/idhelper/common.rs]: the table of resolved
    principals, its pruning, its fingerprint and the file it is kept in.  The
    table is a hash map, so the order in which its rows are visited is the
    interface [HashIter]. *)

From S2P Require Import Prelude RustStr Identity Generate Recycle.
Local Open Scope Z_scope.

Inductive PrincipalKind := User | Machine | Unknown.
#[export] Instance principal_kind_eq_dec : EqDecision PrincipalKind.
Proof. solve_decision. Defined.
Definition kind_str (k : PrincipalKind) : string :=
  match k with User => "user" | Machine => "machine" | Unknown => "unknown" end.
Definition kind_of_str (s : string) : PrincipalKind :=
  if seqb s "machine" then Machine else if seqb s "user" then User else Unknown.

Record Resolved := {
  r_principal : string;
  r_name : string;
  r_uid : Z;
  r_gid : Z;
  r_kind : PrincipalKind;
  r_source : string;
  r_supps : list Z;
}.
#[export] Instance resolved_eq_dec : EqDecision Resolved.
Proof. solve_decision. Defined.

Abbreviation IdCache := (gmap string Resolved).

Definition cache_get (c : IdCache) (norm : string) : option Resolved := c !! norm.
Definition cache_insert (r : Resolved) (c : IdCache) : IdCache :=
  <[ normalize_principal (r_principal r) := r ]> c.

(** [to_le_bytes] of a [u32]. *)
Definition le32 (x : Z) : list Z :=
  [x mod 256; x / 256 mod 256; x / 65536 mod 256; x / 16777216 mod 256].
Definition str_bytes (s : string) : list Z := map (fun c => Z.of_N (byte c)) (bytes s).
Definition row_bytes (k : string) (r : Resolved) : list Z :=
  str_bytes k ++ str_bytes (r_name r) ++ le32 (r_uid r) ++ le32 (r_gid r)
  ++ str_bytes (kind_str (r_kind r)) ++ concat (map le32 (r_supps r)).
(** Multiply, then xor. *)
Definition content_step (h b : Z) : Z := Z.lxor (wrap 64 (h * FNV1A_PRIME)) b.

Definition prune_where (keep : Resolved -> bool) (c : IdCache) : nat * IdCache :=
  let c' : IdCache := filter (fun kr => keep (snd kr) = true) c in
  (size c - size c', c')%nat.
Definition is_machine (r : Resolved) : bool := bool_decide (r_kind r = Machine).
Definition prune_non_machine_users : IdCache -> nat * IdCache := prune_where is_machine.
Definition prune_malformed_principals : IdCache -> nat * IdCache :=
  prune_where (fun r => principal_has_realm (r_principal r)).
Definition prune_numeric_user_entries : IdCache -> nat * IdCache :=
  prune_where (fun r => is_machine r || negb (is_numeric_local_principal (r_principal r))).

(** ** The cache file *)
Definition short_name (p : string) : string :=
  let local := principal_local_part p in
  if contains_char "/" local then machine_short_name p else local.
Definition parse_supps (field : string) : list Z :=
  omap (fun s => parse_uint u32_max (trim s)) (split "," field).
Definition parse_cache_line (line : string) : option Resolved :=
  if starts_with "#" line || is_empty (trim line) then None
  else match split "|" line with
       | p :: u :: g :: k :: s :: rest =>
           match parse_uint u32_max u, parse_uint u32_max g with
           | Some uid, Some gid =>
               Some {| r_principal := p; r_name := short_name p; r_uid := uid; r_gid := gid;
                       r_kind := kind_of_str k; r_source := s;
                       r_supps := match rest with f :: _ => parse_supps f | [] => [] end |}
           | _, _ => None
           end
       | _ => None
       end.
(** [None]: the file cannot be opened. *)
Definition load_from_file (content : option string) : IdCache :=
  match content with
  | Some text => foldl (fun c r => cache_insert r c) ∅ (omap parse_cache_line (lines text))
  | None => ∅
  end.

Definition CACHE_VERSION : string := "1".
Definition cache_header : list string :=
  ["# nfs-klldap-idhelper cache v" +:+ CACHE_VERSION;
   "# principal|uid|gid|kind|source|supplemental (comma sep, may be empty)"].
Definition cache_row (e : Resolved) : string :=
  r_principal e +:+ "|" +:+ dec (r_uid e) +:+ "|" +:+ dec (r_gid e) +:+ "|"
  +:+ kind_str (r_kind e) +:+ "|" +:+ r_source e +:+ "|" +:+ join "," (map dec (r_supps e)).

(** [Path::with_extension] for a path whose last component has a stem. *)
Definition with_extension (ext path : string) : string :=
  let '(dir, file) := match rsplit_once "/" path with
                      | Some (d, f) => (d +:+ "/", f) | None => ("", path) end in
  let stem := match rsplit_once "." file with
              | Some ("", _) => file | Some (s, _) => s | None => file end in
  dir +:+ stem +:+ "." +:+ ext.

(** What the file system does to one atomic write: whether the temporary can
    be opened, whether a write call reports an error, whether the rename
    works, and what has reached the temporary when it is closed. *)
Record WriteWorld := {
  open_ok : bool;
  write_ok : bool;
  rename_ok : bool;
  landed : string -> string;
}.
Definition all_well : WriteWorld :=
  {| open_ok := true; write_ok := true; rename_ok := true; landed := fun s => s |}.
Abbreviation Disk := (gmap string string).
Inductive IoError := OpenFailed | WriteFailed | RenameFailed.

Section Iter.
Context `{!HashIter string}.

Definition content_fingerprint (c : IdCache) : Z :=
  let keys := sort_by sleb (map fst (hiter c)) in
  foldl content_step FNV1A_SEED
    (concat (omap (fun k => row_bytes k <$> c !! k) keys)).

(** The rows in the order of their principals. *)
Definition sorted_rows (c : IdCache) : list Resolved :=
  sort_key r_principal sleb (hvalues c).
Definition cache_text (c : IdCache) : string :=
  unlines (cache_header ++ map cache_row (sorted_rows c)).

(** The buffered writer is dropped, not flushed: an error of the last flush is
    not seen, so [landed] may be a part of the text although every call
    succeeded. *)
Definition write_to_file (w : WriteWorld) (path : string) (c : IdCache) (d : Disk)
  : result unit IoError * Disk :=
  let tmp := with_extension "tmp" path in
  if negb (open_ok w) then (Err OpenFailed, d)
  else
    let d := <[ tmp := landed w (cache_text c) ]> d in
    if negb (write_ok w) then (Err WriteFailed, d)
    else if negb (rename_ok w) then (Err RenameFailed, d)
    else (Ok tt, <[ path := landed w (cache_text c) ]> (delete tmp d)).
End Iter.

(** ** Keys

    Every row is stored under the normal form of its principal. *)
Definition keyed (c : IdCache) : Prop :=
  forall k r, c !! k = Some r -> k = normalize_principal (r_principal r).

Lemma keyed_empty : keyed ∅.
Proof. intros k r. by rewrite lookup_empty. Qed.
Lemma keyed_insert r c : keyed c -> keyed (cache_insert r c).
Proof.
  intros H k r'. unfold cache_insert.
  intros [[<- <-]|[_ Hk]]%lookup_insert_Some; [done|]. by apply H.
Qed.
Lemma keyed_prune keep c : keyed c -> keyed (snd (prune_where keep c)).
Proof.
  intros H k r. unfold prune_where. cbn [snd]. intros [Hk _]%map_lookup_filter_Some. by apply H.
Qed.
Lemma keyed_fold l c : keyed c -> keyed (foldl (fun c r => cache_insert r c) c l).
Proof. revert c. induction l as [|r l IH]; cbn; auto using keyed_insert. Qed.
Lemma keyed_load content : keyed (load_from_file content).
Proof. destruct content; cbn; auto using keyed_fold, keyed_empty. Qed.
#[export] Hint Resolve keyed_empty keyed_insert keyed_prune keyed_fold keyed_load : rust.

Lemma keyed_inj c k1 k2 r1 r2 :
  keyed c -> c !! k1 = Some r1 -> c !! k2 = Some r2 ->
  r_principal r1 = r_principal r2 -> k1 = k2 /\ r1 = r2.
Proof.
  intros H H1 H2 He. pose proof (H _ _ H1). pose proof (H _ _ H2).
  assert (k1 = k2) as -> by congruence. split; congruence.
Qed.

Lemma NoDup_map_inj_on {A B} (f : A -> B) l :
  NoDup l -> (forall x y, x ∈ l -> y ∈ l -> f x = f y -> x = y) -> NoDup (map f l).
Proof.
  induction 1 as [|x l Hx Hl IH]; intros Hinj; cbn; [constructor|]. constructor.
  - intros (y & Hy & Hyl)%list_elem_of_fmap. apply Hx.
    rewrite (Hinj x y); [done|left|by right|done].
  - apply IH. intros y z Hy Hz. apply Hinj; by right.
Qed.

Section Rows.
Context `{!HashIter string}.

Lemma keyed_principals c : keyed c -> NoDup (map r_principal (hvalues c)).
Proof.
  intros H. unfold hvalues. rewrite map_map. apply NoDup_map_inj_on.
  - rewrite hiter_perm. apply NoDup_map_to_list.
  - intros [k1 r1] [k2 r2] H1%elem_of_hiter H2%elem_of_hiter He. cbn in He.
    destruct (keyed_inj c k1 k2 r1 r2) as [-> ->]; done.
Qed.
Lemma elem_of_sorted_rows c r : r ∈ sorted_rows c <-> exists k, c !! k = Some r.
Proof. unfold sorted_rows. by rewrite elem_of_sort_key, elem_of_hvalues. Qed.
Lemma sorted_rows_principals c : keyed c -> NoDup (map r_principal (sorted_rows c)).
Proof.
  intros H. assert (map r_principal (sorted_rows c) ≡ₚ map r_principal (hvalues c)) as ->.
  { apply Permutation_map, sort_key_perm. }
  by apply keyed_principals.
Qed.
(** Rebuilding the table from its rows gives the table back. *)
Lemma rebuild_lookup l c0 k :
  NoDup (map (fun r => normalize_principal (r_principal r)) l) ->
  foldl (fun c r => cache_insert r c) c0 l !! k
  = match list_find (fun r => normalize_principal (r_principal r) = k) l with
    | Some (_, r) => Some r
    | None => c0 !! k
    end.
Proof.
  revert c0. induction l as [|r l IH]; intros c0 Hn; cbn [foldl]; [done|].
  apply NoDup_cons in Hn as [Hr Hn]. rewrite (IH _ Hn). cbn [list_find].
  case_decide as E.
  - subst k. destruct (list_find _ l) as [[i r']|] eqn:Ef; cbn.
    + apply list_find_Some in Ef as (Hi & He & _). destruct Hr.
      rewrite <- He. apply (list_elem_of_fmap_2 (fun r => normalize_principal (r_principal r))).
      by eapply list_elem_of_lookup_2.
    + apply lookup_insert_eq.
  - destruct (list_find _ l) as [[i r']|]; cbn; [done|]. by apply lookup_insert_ne.
Qed.
Lemma rebuild c l :
  keyed c -> NoDup (map r_principal l) -> (forall r, r ∈ l <-> exists k, c !! k = Some r) ->
  foldl (fun c r => cache_insert r c) ∅ l = c.
Proof.
  intros Hk Hn Hl. apply map_eq. intros k. rewrite rebuild_lookup.
  - rewrite lookup_empty. destruct (list_find _ l) as [[i r]|] eqn:E.
    + apply list_find_Some in E as (Hi & <- & _).
      destruct (proj1 (Hl r)) as [k Hr]; [by eapply list_elem_of_lookup_2|].
      by rewrite <- (Hk _ _ Hr).
    + destruct (c !! k) as [r|] eqn:Er; [|done]. apply list_find_None in E.
      rewrite Forall_forall in E. exfalso. apply (E r); [apply Hl; eauto|].
      symmetry. by apply Hk.
  - apply NoDup_map_inj_on; [by eapply NoDup_fmap_1|].
    intros x y [kx Hx]%Hl [ky Hy]%Hl He. apply Hk in Hx as Hx'. apply Hk in Hy as Hy'. congruence.
Qed.
End Rows.

(** The text of the file does not depend on the iteration order. *)
Lemma cache_text_canonical (h1 h2 : HashIter string) c :
  keyed c -> cache_text (HashIter0 := h1) c = cache_text (HashIter0 := h2) c.
Proof.
  intros H. unfold cache_text, sorted_rows. do 3 f_equal.
  apply sort_key_canonical; [exact _ | apply hvalues_perm | by apply keyed_principals].
Qed.

(** ** Reading the cache file back *)

(** A row the file format can carry. *)
Definition row_ok (r : Resolved) : Prop :=
  contains_char "|" (r_principal r) = false /\ line_ok (r_principal r) = true
  /\ starts_with "#" (r_principal r) = false
  /\ r_name r = short_name (r_principal r)
  /\ 0 <= r_uid r <= u32_max /\ 0 <= r_gid r <= u32_max
  /\ contains_char "|" (r_source r) = false /\ line_ok (r_source r) = true
  /\ Forall (fun g => 0 <= g <= u32_max) (r_supps r).

Lemma parse_supps_join l :
  Forall (fun g => 0 <= g <= u32_max) l -> parse_supps (join "," (map dec l)) = l.
Proof.
  intros H. unfold parse_supps. destruct l as [|g l]; [done|].
  change "," with (String ","%char ""). rewrite join_split; [|done|].
  - induction H as [|x r Hx _ IH]; [done|]. cbn [map omap list_omap].
    rewrite trim_all_solid by (apply digit_solid, dec_spec; lia).
    rewrite parse_uint_dec by done. by f_equal.
  - apply Forall_map. eapply Forall_impl; [exact H|]. intros x Hx.
    apply dec_no_char; [cbn in Hx; lia|done].
Qed.
Lemma join_no_char c sep l :
  contains_char c sep = false -> Forall (fun s => contains_char c s = false) l ->
  contains_char c (join sep l) = false.
Proof.
  intros Hs. induction 1 as [|x [|y l] Hx Hl IH]; [done|done|].
  change (join sep (x :: y :: l)) with (x +:+ sep +:+ join sep (y :: l)).
  by rewrite !contains_char_app, Hx, Hs, IH.
Qed.
Lemma supps_no_char c l :
  is_ascii_digit c = false -> ceqb c "," = false -> Forall (fun g => 0 <= g <= u32_max) l ->
  contains_char c (join "," (map dec l)) = false.
Proof.
  intros Hd Hc H. apply join_no_char; [cbn; by rewrite Hc|].
  apply Forall_map. eapply Forall_impl; [exact H|]. intros g Hg. apply dec_no_char; [cbn in Hg; lia|done].
Qed.

Lemma bar_app a : "|" +:+ a = String "|" a.
Proof. done. Qed.
Lemma kind_str_no_char c k : ceqb c "|" = true -> contains_char c (kind_str k) = false.
Proof. intros ->%ceqb_eq. by destruct k. Qed.
Lemma kind_of_kind_str k : kind_of_str (kind_str k) = k.
Proof. by destruct k. Qed.

Lemma cache_row_split r :
  row_ok r ->
  split "|" (cache_row r)
  = [r_principal r; dec (r_uid r); dec (r_gid r); kind_str (r_kind r); r_source r;
     join "," (map dec (r_supps r))].
Proof.
  intros (Hp & _ & _ & _ & Hu & Hg & Hs & _ & Hl). unfold cache_row. rewrite !bar_app.
  rewrite split_app by done. do 2 (rewrite split_app by (apply dec_no_char; [lia|done])).
  rewrite split_app by (by apply kind_str_no_char). rewrite split_app by done.
  by rewrite split_no_char by (by apply supps_no_char).
Qed.
Lemma trim_bar a b : is_empty (trim (a +:+ String "|" b)) = false.
Proof. rewrite trim_solid by done. by destruct (trim_start a). Qed.
Lemma cache_row_parses r : row_ok r -> parse_cache_line (cache_row r) = Some r.
Proof.
  intros H. unfold parse_cache_line. rewrite (cache_row_split r H).
  destruct H as (Hp & _ & Hh & Hn & Hu & Hg & Hs & _ & Hl).
  assert (starts_with "#" (cache_row r) = false) as ->.
  { unfold cache_row. destruct (r_principal r) as [|c p]; [done|].
    rewrite starts_with_one in Hh. rewrite sapp_cons, starts_with_one. done. }
  unfold cache_row. rewrite !bar_app, trim_bar, !parse_uint_dec, parse_supps_join, kind_of_kind_str by done.
  cbn. rewrite <- Hn. by destruct r.
Qed.
Lemma dec_line_ok n : 0 <= n -> line_ok (dec n) = true.
Proof. intros H. by apply solid_line_ok, digit_solid, dec_spec. Qed.
Lemma line_ok_app a b : line_ok (a +:+ b) = line_ok a && line_ok b.
Proof.
  unfold line_ok. rewrite !contains_char_app, !negb_orb.
  destruct (contains_char nl a), (contains_char nl b), (contains_char "013" a),
    (contains_char "013" b); done.
Qed.
Lemma cache_row_line_ok r : row_ok r -> line_ok (cache_row r) = true.
Proof.
  intros (_ & Hp & _ & _ & Hu & Hg & _ & Hs & Hl). unfold cache_row.
  rewrite !line_ok_app, Hp, Hs, !dec_line_ok by lia.
  assert (line_ok (join "," (map dec (r_supps r))) = true) as ->.
  { unfold line_ok. by rewrite !supps_no_char. }
  by destruct (r_kind r).
Qed.

Section RoundTrip.
Context `{!HashIter string}.

Lemma load_cache_text c :
  keyed c -> (forall k r, c !! k = Some r -> row_ok r) ->
  load_from_file (Some (cache_text c)) = c.
Proof.
  intros Hk Hr. assert (Hrow : Forall row_ok (sorted_rows c)).
  { apply Forall_forall. intros r [k Hc]%elem_of_sorted_rows. eauto. }
  cbn [load_from_file]. unfold cache_text. rewrite lines_unlines.
  - assert (omap parse_cache_line (cache_header ++ map cache_row (sorted_rows c)) = sorted_rows c)
      as ->.
    { rewrite omap_app. change (omap parse_cache_line cache_header) with (@nil Resolved). cbn [app].
      induction Hrow as [|r l Hr1 _ IH]; [done|].
      cbn [map omap list_omap]. rewrite cache_row_parses by done.
      rewrite <- IH at 2. done. }
    apply rebuild; [done|by apply sorted_rows_principals|apply elem_of_sorted_rows].
  - apply Forall_app. split; [by repeat constructor|]. apply Forall_map.
    eapply Forall_impl; [exact Hrow|]. apply cache_row_line_ok.
Qed.
End RoundTrip.

(** A cache written to its file is read back unchanged, for every order in
    which the writer visits the table, when the rows fit the format (no [|] or
    line break, no leading [#], ids of 32 bits, the name the principal gives)
    and the bytes reach the disk; no other file but the temporary changes, and
    a write that reports an error leaves the old cache file in place. *)
Theorem cache_file_roundtrip (h : HashIter string) w path c d :
  keyed c -> (forall k r, c !! k = Some r -> row_ok r) ->
  (forall s, landed w s = s) -> with_extension "tmp" path <> path ->
  match write_to_file w path c d with
  | (Ok _, d') =>
      load_from_file (d' !! path) = c
      /\ forall p, p <> path -> p <> with_extension "tmp" path -> d' !! p = d !! p
  | (Err _, d') => d' !! path = d !! path
  end.
Proof.
  intros Hk Hr Hw Ht. unfold write_to_file. destruct (open_ok w); [|done]. cbn [negb].
  destruct (write_ok w); cbn [negb]; cbv beta iota; [|by rewrite lookup_insert_ne].
  destruct (rename_ok w); cbn [negb]; cbv beta iota; [|by rewrite lookup_insert_ne].
  rewrite lookup_insert_eq, Hw. split; [by apply load_cache_text|].
  intros p H1 H2. by rewrite lookup_insert_ne, lookup_delete_ne, lookup_insert_ne.
Qed.

Definition sample_row : Resolved :=
  {| r_principal := "alice@EXAMPLE.COM"; r_name := "alice"; r_uid := 1001; r_gid := 513;
     r_kind := User; r_source := "bulk"; r_supps := [2001; 2002] |}.
Lemma sample_row_ok : row_ok sample_row.
Proof. unfold row_ok. split_and!; try done. repeat constructor; done. Qed.
Lemma cache_file_roundtrip_witness :
  let c := cache_insert sample_row ∅ in
  load_from_file (snd (write_to_file (HashIter0 := iter_forward) all_well "/v/idmap.cache" c ∅)
                  !! "/v/idmap.cache") = c.
Proof.
  pose proof (cache_file_roundtrip iter_forward all_well "/v/idmap.cache"
                (cache_insert sample_row ∅) ∅) as H.
  apply H; [auto with rust| |done|by vm_compute].
  intros k r. unfold cache_insert.
  intros [[_ <-]|[_ Hk]]%lookup_insert_Some; [apply sample_row_ok|by rewrite lookup_empty in Hk].
Defined.

(** The writer is dropped without a flush: when the disk is full at that
    moment no call reports it and the truncated file replaces a good one. *)
Theorem unflushed_write_truncates :
  let c := cache_insert sample_row ∅ in
  let path := "/v/idmap.cache" in
  let d := snd (write_to_file (HashIter0 := iter_forward) all_well path c ∅) in
  let full := {| open_ok := true; write_ok := true; rename_ok := true; landed := fun _ => "" |} in
  let r := write_to_file (HashIter0 := iter_forward) full path c d in
  fst r = Ok tt /\ load_from_file (d !! path) = c /\ load_from_file (snd r !! path) = ∅.
Proof. vm_compute. split_and!; reflexivity. Qed.

(** The fingerprint does not depend on the iteration order either. *)
Lemma fingerprint_canonical (h1 h2 : HashIter string) c :
  content_fingerprint (HashIter0 := h1) c = content_fingerprint (HashIter0 := h2) c.
Proof.
  unfold content_fingerprint. do 3 f_equal.
  apply (sort_key_canonical (fun k => k) sleb); rewrite ?map_id.
  - by rewrite !hiter_perm.
  - rewrite hiter_perm. apply NoDup_fst_map_to_list.
Qed.
(** The pruning steps are idempotent: the second run drops nothing. *)
Lemma prune_again keep c :
  prune_where keep (snd (prune_where keep c)) = (0%nat, snd (prune_where keep c)).
Proof.
  unfold prune_where. cbn [snd].
  assert (E : forall m : IdCache,
    filter (fun kr => keep (snd kr) = true) (filter (fun kr => keep (snd kr) = true) m)
    = filter (fun kr => keep (snd kr) = true) m).
  { intros m. apply map_filter_id. by intros k r [_ ?]%map_lookup_filter_Some. }
  rewrite E. f_equal. lia.
Qed.
