(* ===== verification/Nss.v ===== *)
(** * The passwd and group stores served to Ganesha

    Models [bin/idhelper/materialize.rs]: the seeding of the identity cache
    from an LDAP snapshot, the passwd and group rows built from the cache, and
    the content-guarded writes of the four stores.  Rows are records with their
    printed form; where the source inspects the printed line the model does
    too.  Hash maps are visited through [HashIter]; a [BTreeMap] or [BTreeSet]
    is visited in the order of its keys. *)

From S2P Require Import Prelude RustStr State Identity Resolver Generate Recycle IdCache.
Local Open Scope Z_scope.

(** [x as u32] *)
Definition as_u32 (x : Z) : Z := wrap 32 x.

(** ** Login names *)
Definition is_numeric_login (login : string) : bool :=
  negb (is_empty login) && sall is_ascii_digit login.
Definition login_char (extra : Ascii.ascii -> bool) (ch : string) : string :=
  match ch with
  | String c "" =>
      if is_ascii_alphanumeric c || ceqb c "_" || ceqb c "-" || ceqb c "." || extra c
      then ch else "_"
  | _ => "_"
  end.
Definition login_of (extra : Ascii.ascii -> bool) (s : string) : string :=
  let out := foldr (fun ch acc => login_char extra ch +:+ acc) "" (utf8_chars s) in
  if is_empty out then "unknown" else out.
Definition principal_realm_login_for_nss : string -> string :=
  login_of (fun c => ceqb c "@" || ceqb c "/").
Definition sanitize_for_nss : string -> string := login_of (fun _ => false).

(** The set of logins of a row, in the order of the [BTreeSet]. *)
Definition nss_passwd_logins_for (r : Resolved) : list string :=
  let short := sanitize_for_nss (r_name r) in
  let local := principal_local_part (r_principal r) in
  let at_form := principal_realm_login_for_nss (r_principal r) in
  sort_dedup_s
    ([short]
     ++ if is_machine r && principal_has_realm (r_principal r) then
          (if negb (seqb local short) then [local] else []) ++ [at_form]
        else if principal_has_realm (r_principal r) then
          (if negb (seqb at_form short) then [at_form] else [])
        else []).

Definition gecos_for (r : Resolved) : string :=
  let tag := if principal_has_realm (r_principal r) then r_principal r else r_name r in
  of_bytes (List.filter (fun c => negb (ceqb c ":")) (bytes tag)).

(** ** Rows *)
Record PasswdLine := {
  pl_login : string; pl_uid : Z; pl_gid : Z; pl_gecos : string; pl_home : string; pl_shell : string;
}.
Definition passwd_text (l : PasswdLine) : string :=
  pl_login l +:+ ":x:" +:+ dec (pl_uid l) +:+ ":" +:+ dec (pl_gid l) +:+ ":" +:+ pl_gecos l
  +:+ ":" +:+ pl_home l +:+ ":" +:+ pl_shell l.
Definition synthetic_line (login : string) (uid gid : Z) (gecos : string) : PasswdLine :=
  {| pl_login := login; pl_uid := uid; pl_gid := gid; pl_gecos := gecos;
     pl_home := "/nonexistent"; pl_shell := "/usr/sbin/nologin" |}.
Definition root_passwd : PasswdLine :=
  {| pl_login := "root"; pl_uid := 0; pl_gid := 0; pl_gecos := "root";
     pl_home := "/root"; pl_shell := "/bin/sh" |}.
Definition nobody_passwd : PasswdLine :=
  synthetic_line "nobody" FALLBACK_NOBODY_UID FALLBACK_NOBODY_GID "nfs-klldap fallback".

Record GroupLine := { gl_gid : Z; gl_name : string; gl_members : list string }.
Definition group_line_with_members (gid : Z) (gname : string) (members : list string) : GroupLine :=
  {| gl_gid := gid; gl_name := gname; gl_members := members |}.
Definition group_text (l : GroupLine) : string :=
  gl_name l +:+ ":x:" +:+ dec (gl_gid l) +:+ ":" +:+ join "," (gl_members l).
Definition minimal_root_group_members : list string := ["root"; "daemon"; "bin"].
Definition group_line_for (r : Resolved) : GroupLine :=
  if r_gid r =? 0 then group_line_with_members 0 "root" ["root"; "daemon"; "bin"]
  else if r_gid r =? FALLBACK_NOBODY_GID then
    group_line_with_members FALLBACK_NOBODY_GID "nobody" []
  else group_line_with_members (r_gid r) (sanitize_for_nss (r_name r)) [].

Definition mem_s (x : string) (l : list string) : bool := existsb (seqb x) l.
Definition push_if_new (l : list string) (x : string) : list string :=
  if mem_s x l then l else l ++ [x].

(** Maps from a gid to the logins pushed for it. *)
Abbreviation Members := (gmap Z (list string)).
Definition members_of (m : Members) (g : Z) : list string := default [] (m !! g).
Definition push (g : Z) (m : Members) (x : string) : Members := <[ g := members_of m g ++ [x] ]> m.
Definition push_new (g : Z) (m : Members) (x : string) : Members :=
  <[ g := push_if_new (members_of m g) x ]> m.

(** First binding in the order of the keys with the given gid. *)
Definition min_step {A} (best : option (string * A)) (kv : string * A) : option (string * A) :=
  match best with
  | Some b => if sleb (fst b) (fst kv) then best else Some kv
  | None => Some kv
  end.
Definition min_by_key {A} (l : list (string * A)) : option (string * A) := foldl min_step None l.

Definition users_by_gid_step (m : Members) (r : Resolved) : Members :=
  if bool_decide (r_kind r = User) && negb (r_gid r =? 0)
     && negb (is_numeric_local_principal (r_principal r)) then
    let short := sanitize_for_nss (r_name r) in
    let m := push (r_gid r) m short in
    if principal_has_realm (r_principal r) then
      let at_form := principal_realm_login_for_nss (r_principal r) in
      if negb (seqb at_form short) then push (r_gid r) m at_form else m
    else m
  else m.
Definition claims (r : Resolved) : list Z := r_gid r :: r_supps r.
Definition members_by_gid_step (m : Members) (r : Resolved) : Members :=
  foldl (fun m g =>
    if g =? 0 then m
    else if is_machine r then push_new g m "root"
    else foldl (fun m login => if is_numeric_login login then m else push_new g m login)
           m (nss_passwd_logins_for r)) m (claims r).

(** What the build loop threads. *)
Record Build := {
  b_login : gset string;   (** [seen_login] *)
  b_gid : gset Z;          (** [seen_gid] *)
  b_passwd : list PasswdLine;
  b_group : list GroupLine;
}.
Definition build0 : Build := {| b_login := ∅; b_gid := ∅; b_passwd := []; b_group := [] |}.
(** [if seen_gid.insert(g) { group_lines.push(row) }] *)
Definition add_group (g : Z) (row : GroupLine) (b : Build) : Build :=
  if bool_decide (g ∈ b_gid b) then b
  else {| b_login := b_login b; b_gid := b_gid b ∪ {[ g ]}; b_passwd := b_passwd b;
          b_group := b_group b ++ [row] |}.
Definition see_gid (g : Z) (b : Build) : Build :=
  {| b_login := b_login b; b_gid := b_gid b ∪ {[ g ]}; b_passwd := b_passwd b; b_group := b_group b |}.
Definition add_passwd (r : Resolved) (b : Build) (login : string) : Build :=
  if is_numeric_login login || bool_decide (login ∈ b_login b) then b
  else {| b_login := b_login b ∪ {[ login ]}; b_gid := b_gid b;
          b_passwd := b_passwd b ++ [synthetic_line login (r_uid r) (r_gid r) (gecos_for r)];
          b_group := b_group b |}.

(** Values of a [BTreeMap] keyed by [i32]. *)
Definition btree_values {A} (m : gmap Z A) : list A :=
  map snd (sort_key fst Z.leb (map_to_list m)).
Definition by_gid_step (m : gmap Z PosixGroupEntry) (kv : string * PosixGroupEntry)
  : gmap Z PosixGroupEntry :=
  match m !! g_gid (snd kv) with
  | Some _ => m
  | None => <[ g_gid (snd kv) := snd kv ]> m
  end.
Definition by_gid_map (sorted : list (string * PosixGroupEntry)) : gmap Z PosixGroupEntry :=
  foldl by_gid_step ∅ sorted.
Definition ldap_row (ubg mbg : Members) (entry : PosixGroupEntry) : GroupLine :=
  let gid := as_u32 (g_gid entry) in
  let gname := if gid =? FALLBACK_NOBODY_GID then "nobody" else sanitize_for_nss (g_display entry) in
  let members := map sanitize_for_nss (g_members entry) in
  let members := foldl push_if_new members (members_of ubg gid) in
  let members := foldl push_if_new members (members_of mbg gid) in
  group_line_with_members gid gname members.

Section Build.
Context `{!HashIter string}.

(** The name of a group: the LDAP group with the least key, else a fallback. *)
Definition gname_for_gid (gid : Z) (ldap_groups : option (gmap string PosixGroupEntry))
    (fallback : string) : string :=
  if gid =? FALLBACK_NOBODY_GID then "nobody"
  else match ldap_groups with
       | Some gs =>
           match min_by_key (List.filter (fun kv => as_u32 (g_gid (snd kv)) =? gid) (hiter gs)) with
           | Some (_, entry) => sanitize_for_nss (g_display entry)
           | None => sanitize_for_nss fallback
           end
       | None => sanitize_for_nss fallback
       end.

Definition root_supps_step (supps : list Z) (r : Resolved) : list Z :=
  if ((r_uid r =? 0) || (r_gid r =? 0)) && principal_has_realm (r_principal r) then
    foldl (fun supps g => if negb (g =? 0) && negb (existsb (Z.eqb g) supps)
                          then supps ++ [g] else supps) supps (r_supps r)
  else supps.
Definition root_supplemental_gids_from_cache (c : IdCache) : list Z :=
  sort_by Z.leb (foldl root_supps_step [] (hvalues c)).

Context (ldap_groups : option (gmap string PosixGroupEntry)) (c : IdCache).

Definition nss_items : list Resolved :=
  sort_key r_principal sleb
    (List.filter (fun r => principal_has_realm (r_principal r)) (hvalues c)).
Definition users_by_gid : Members := foldl users_by_gid_step ∅ nss_items.
Definition root_supps : list Z := root_supplemental_gids_from_cache c.
Definition members_by_gid : Members :=
  foldl (fun m g => push_new g m "root") (foldl members_by_gid_step ∅ nss_items) root_supps.

Definition ldap_entries : list PosixGroupEntry :=
  match ldap_groups with
  | Some gs => btree_values (by_gid_map (sort_key fst sleb (hiter gs)))
  | None => []
  end.
Definition ldap_step (b : Build) (entry : PosixGroupEntry) : Build :=
  add_group (as_u32 (g_gid entry)) (ldap_row users_by_gid members_by_gid entry) b.

(** The row of gid [g] when the row's own groups are emitted. *)
Definition claim_row (r : Resolved) (g : Z) : GroupLine :=
  if g =? 0 then group_line_with_members 0 "root" minimal_root_group_members
  else if is_machine r then
    group_line_with_members g (gname_for_gid g ldap_groups ("g" +:+ dec g))
      (push_if_new (members_of members_by_gid g) "root")
  else if negb (g =? 0) then
    let gname := if g =? FALLBACK_NOBODY_GID then "nobody"
                 else gname_for_gid g ldap_groups ("g" +:+ dec g) in
    let short := sanitize_for_nss (r_name r) in
    let mems := push_if_new (members_of members_by_gid g) short in
    let at_form := principal_realm_login_for_nss (r_principal r) in
    let mems := if principal_has_realm (r_principal r) && negb (seqb at_form short)
                then push_if_new mems at_form else mems in
    group_line_with_members g gname mems
  else group_line_for r.
(** The private group of a uid that is not its gid. *)
Definition uid_group (r : Resolved) (b : Build) : Build :=
  if (r_uid r =? r_gid r) || bool_decide (r_uid r ∈ b_gid b) then b
  else if r_uid r =? 0 then see_gid 0 b
  else add_group (r_uid r) (group_line_with_members (r_uid r) ("u" +:+ dec (r_uid r)) []) b.
Definition item_step (b : Build) (r : Resolved) : Build :=
  if is_numeric_local_principal (r_principal r) then b
  else
    let b := foldl (add_passwd r) b (nss_passwd_logins_for r) in
    let b := foldl (fun b g => add_group g (claim_row r g) b) b (claims r) in
    uid_group r b.
Definition root_supp_step (b : Build) (g : Z) : Build :=
  add_group g (group_line_with_members g (gname_for_gid g ldap_groups ("g" +:+ dec g))
                 (push_if_new (members_of members_by_gid g) "root")) b.

Definition root_group : GroupLine := group_line_with_members 0 "root" minimal_root_group_members.
(** The rows before root and nobody are put in place. *)
Definition build_rows : Build :=
  let b := foldl ldap_step build0 ldap_entries in
  let b := foldl item_step b nss_items in
  foldl root_supp_step b root_supps.
Definition finish_groups (b : Build) : list GroupLine :=
  let lines := if bool_decide (0 ∈ b_gid b) then b_group b else b_group b ++ [root_group] in
  root_group :: List.filter (fun l => negb (starts_with "root:x:0:" (group_text l))) lines.
Fixpoint remove_first {A} (p : A -> bool) (l : list A) : list A :=
  match l with
  | [] => []
  | x :: r => if p x then r else x :: remove_first p r
  end.
Definition finish_passwd (b : Build) : list PasswdLine :=
  let is_root := fun l => starts_with "root:" (passwd_text l) in
  let lines := root_passwd :: (if existsb is_root (b_passwd b)
                               then remove_first is_root (b_passwd b) else b_passwd b) in
  if existsb (fun l => starts_with "nobody:" (passwd_text l)) lines then lines
  else lines ++ [nobody_passwd].
Definition build_nss_snapshot : list PasswdLine * list GroupLine :=
  (finish_passwd build_rows, finish_groups build_rows).
End Build.

(** ** Writing the stores *)
Definition write_atomic_if_changed (w : WriteWorld) (path content : string) (d : Disk)
  : result bool IoError * Disk :=
  if bool_decide (d !! path = Some content) then (Ok false, d)
  else
    let tmp := with_extension "new" path in
    if negb (open_ok w) then (Err OpenFailed, d)
    else if negb (write_ok w) then (Err WriteFailed, <[ tmp := landed w content ]> d)
    else if negb (rename_ok w) then (Err RenameFailed, <[ tmp := content ]> d)
    else (Ok true, <[ path := content ]> (delete tmp (<[ tmp := content ]> d))).

Record NssMaterializePaths := {
  nss_passwd : string; nss_group : string; extrausers_passwd : string; extrausers_group : string;
}.
Fixpoint write_stores (ws : string -> WriteWorld) (wrote : bool) (l : list (string * string)) (d : Disk)
  : result bool IoError * Disk :=
  match l with
  | [] => (Ok wrote, d)
  | (p, content) :: r =>
      match write_atomic_if_changed (ws p) p content d with
      | (Ok b, d') => write_stores ws (wrote || b) r d'
      | (Err e, d') => (Err e, d')
      end
  end.
Definition stores (paths : NssMaterializePaths) (rows : list PasswdLine * list GroupLine)
  : list (string * string) :=
  let passwd_content := unlines (map passwd_text (fst rows)) in
  let group_content := unlines (map group_text (snd rows)) in
  [(nss_passwd paths, passwd_content); (nss_group paths, group_content);
   (extrausers_passwd paths, passwd_content); (extrausers_group paths, group_content)].
Definition materialize_nss_wrappers_at `{!HashIter string} (ws : string -> WriteWorld) (c : IdCache)
    (paths : NssMaterializePaths) (ldap_groups : option (gmap string PosixGroupEntry)) (d : Disk)
  : result bool IoError * Disk :=
  write_stores ws false (stores paths (build_nss_snapshot ldap_groups c)) d.

(** ** Seeding the cache from a snapshot *)
(** Groups per short name, resolved live. *)
Abbreviation LiveGroupEdges := (gmap string (list Z)).
Section Seed.
Context `{!HashIter string, !HashIter Z}.

(** One user of the snapshot: the first name seen for a uid is kept, and
    replaced only when it contains an [@] and the new key does not. *)
Definition best_step (best : gmap Z (string * Z * Z)) (kv : string * PosixUserEntry)
  : gmap Z (string * Z * Z) :=
  let '(key, entry) := kv in
  if u_uid entry =? 0 then best
  else if contains_char "/" key && existsb (fun p => starts_with p key) MACHINE_PRINCIPAL_PREFIXES
  then best
  else
    let short := principal_local_part key in
    match best !! u_uid entry with
    | Some (name, u, g) =>
        if negb (contains_char "@" key) && contains_char "@" name
        then <[ u_uid entry := (short, u, g) ]> best else best
    | None => <[ u_uid entry := (short, as_u32 (u_uid entry), as_u32 (u_gid entry)) ]> best
    end.
Definition member_hit (short principal : string) (entry : PosixGroupEntry) : bool :=
  let at_form := principal_realm_login_for_nss principal in
  existsb (fun m => let m := trim m in seqb m short || seqb m principal || seqb m at_form)
    (g_members entry).
Definition supplemental_gids_from_snapshot (short principal : string) (primary_gid : Z)
    (snap : IdMapSnapshot) : list Z :=
  sort_dedup_z
    (omap (fun entry =>
       let g := as_u32 (g_gid entry) in
       if (g =? 0) || (g =? primary_gid) then None
       else if member_hit short principal entry then Some g else None)
     (hvalues (groups snap))).
Definition seeded_row (snap : IdMapSnapshot) (realm : string) (b : string * Z * Z) : Resolved :=
  let '(short, uid, gid) := b in
  let principal := short +:+ "@" +:+ realm in
  {| r_principal := principal; r_name := short; r_uid := uid; r_gid := gid; r_kind := User;
     r_source := "bulk";
     r_supps := supplemental_gids_from_snapshot short principal gid snap |}.
Definition seed_cache_and_nss_from_snapshot (snap : IdMapSnapshot) (realm : string) (c : IdCache)
  : nat * IdCache :=
  let best := foldl best_step ∅ (hiter (users snap)) in
  let rows := map (fun b => seeded_row snap realm b) (hvalues best) in
  (length rows, foldl (fun c r => cache_insert r c) c rows).

Definition fold_live (live : LiveGroupEdges) (e : Resolved) : Resolved :=
  if negb (bool_decide (r_kind e = User)) || negb (principal_has_realm (r_principal e)) then e
  else match live !! r_name e with
       | Some gids =>
           let supps := foldl (fun s g =>
             if negb (g =? 0) && negb (g =? r_gid e) && negb (existsb (Z.eqb g) s)
             then s ++ [g] else s) (r_supps e) gids in
           {| r_principal := r_principal e; r_name := r_name e; r_uid := r_uid e; r_gid := r_gid e;
              r_kind := r_kind e; r_source := r_source e; r_supps := sort_dedup_z supps |}
       | None => e
       end.
Definition sync_user_cache_from_snapshot (snap : IdMapSnapshot) (realm : string) (c : IdCache)
    (live : LiveGroupEdges) : nat * IdCache :=
  let c := snd (prune_non_machine_users c) in
  let '(n, c) := seed_cache_and_nss_from_snapshot snap realm c in
  let c := fold_live live <$> c in
  let c := snd (prune_malformed_principals c) in
  (n, snd (prune_numeric_user_entries c)).
End Seed.
Definition cache_changed_since `{!HashIter string} (fp_before : Z) (c : IdCache) : bool :=
  negb (fp_before =? content_fingerprint c).

(** ** Adding one login to the group stores *)
(** The line after the update, whether it is the row of the gid, and whether
    it changed. *)
Definition ensure_line (gid : Z) (login line : string) : string * bool * bool :=
  let trimmed := trim line in
  if is_empty trimmed || starts_with "#" trimmed then (line, false, false)
  else match split ":" trimmed with
       | name :: _ :: gfield :: rest =>
           match parse_uint u32_max gfield with
           | Some g =>
               if g =? gid then
                 let members := match rest with m :: _ => m | [] => "" end in
                 if mem_s login (split "," members) then (line, true, false)
                 else
                   let new_members := if is_empty members then login
                                      else members +:+ "," +:+ login in
                   (name +:+ ":x:" +:+ gfield +:+ ":" +:+ new_members, true, true)
               else (line, false, false)
           | None => (line, false, false)
           end
       | _ => (line, false, false)
       end.
Definition find_name (gid : Z) (content : option string) : option string :=
  text ← content;
  head (omap (fun line =>
    let t := trim line in
    if is_empty t || starts_with "#" t then None
    else match splitn 4 ":" t with
         | name :: _ :: g :: _ =>
             if bool_decide (parse_uint u32_max g = Some gid) then Some name else None
         | _ => None
         end) (lines text)).
Definition stub_name (gid : Z) (paths : NssMaterializePaths) (d : Disk) : string :=
  if gid =? FALLBACK_NOBODY_GID then "nobody"
  else match find_name gid (d !! nss_group paths), find_name gid (d !! extrausers_group paths) with
       | Some n, _ | None, Some n => n
       | None, None => if gid =? 0 then "root" else "g" +:+ dec gid
       end.
(** One store; [read_fails]: the file exists and cannot be read. *)
Definition ensure_store (read_fails : string -> bool) (ws : string -> WriteWorld)
    (paths : NssMaterializePaths) (gid : Z) (login path : string) (d : Disk)
  : result unit IoError * Disk :=
  if read_fails path then (Err OpenFailed, d)
  else
    let rows := map (ensure_line gid login) (lines (default "" (d !! path))) in
    let saw := existsb (fun x => snd (fst x)) rows in
    let changed := existsb snd rows in
    let out := map (fun x => fst (fst x)) rows
               ++ (if saw then [] else [stub_name gid paths d +:+ ":x:" +:+ dec gid +:+ ":" +:+ login]) in
    if changed || negb saw then
      match write_atomic_if_changed (ws path) path (join (String nl "") out +:+ String nl "") d with
      | (Ok _, d') => (Ok tt, d')
      | (Err e, d') => (Err e, d')
      end
    else (Ok tt, d).
Definition ensure_nss_group_member_login (read_fails : string -> bool) (ws : string -> WriteWorld)
    (paths : NssMaterializePaths) (gid : Z) (login : string) (d : Disk) : result unit IoError * Disk :=
  let login := trim login in
  if is_empty login then (Ok tt, d)
  else match ensure_store read_fails ws paths gid login (nss_group paths) d with
       | (Ok _, d') => ensure_store read_fails ws paths gid login (extrausers_group paths) d'
       | (Err e, d') => (Err e, d')
       end.

(** * Synchronising the cache *)

(** A snapshot user that is seeded. *)
Definition seedable (key : string) (e : PosixUserEntry) : bool :=
  negb (u_uid e =? 0)
  && negb (contains_char "/" key && existsb (fun p => starts_with p key) MACHINE_PRINCIPAL_PREFIXES).
Definition best_of (key : string) (e : PosixUserEntry) : string * Z * Z :=
  (principal_local_part key, as_u32 (u_uid e), as_u32 (u_gid e)).

Lemma local_part_no_at p : contains_char "@" (principal_local_part p) = false.
Proof. apply before_no_char. Qed.

(** The replacement branch is never taken: the names stored are local parts.
    So the first key visited for a uid names it. *)
Lemma best_step_simple best key e :
  (forall u b, best !! u = Some b -> contains_char "@" (fst (fst b)) = false) ->
  best_step best (key, e)
  = if seedable key e then
      match best !! u_uid e with Some _ => best | None => <[ u_uid e := best_of key e ]> best end
    else best.
Proof.
  intros H. unfold best_step, seedable, best_of. destruct (u_uid e =? 0); [done|].
  destruct (contains_char "/" key && _); [done|]. cbn.
  destruct (best !! u_uid e) as [[[name u] g]|] eqn:E; [|done].
  apply H in E. cbn in E. by rewrite E, andb_false_r.
Qed.

Section BestSpec.
Context (l : list (string * PosixUserEntry)).
Definition best_inv (best : gmap Z (string * Z * Z)) (seen : list (string * PosixUserEntry)) : Prop :=
  (forall u b, best !! u = Some b ->
     exists key e, (key, e) ∈ seen /\ seedable key e = true /\ u_uid e = u /\ b = best_of key e)
  /\ (forall key e, (key, e) ∈ seen -> seedable key e = true -> is_Some (best !! u_uid e)).

Lemma best_inv_step best seen kv :
  best_inv best seen -> best_inv (best_step best kv) (seen ++ [kv]).
Proof.
  destruct kv as [key e]. intros [H1 H2]. rewrite best_step_simple.
  2:{ intros u b (k & e' & _ & _ & _ & ->)%H1. apply local_part_no_at. }
  destruct (seedable key e) eqn:Es; [destruct (best !! u_uid e) as [b|] eqn:Eb|]; split.
  - intros u b' (k & e' & ? & ?)%H1. exists k, e'. split; [set_solver|done].
  - intros k e' [?| [= <- <-]%list_elem_of_singleton]%elem_of_app ?; [eauto|]. by rewrite Eb.
  - intros u b' [[<- <-]|[_ (k & e' & ? & ?)%H1]]%lookup_insert_Some.
    + exists key, e. split; [set_solver|done].
    + exists k, e'. split; [set_solver|done].
  - intros k e' Hin ?. apply lookup_insert_is_Some'.
    apply elem_of_app in Hin as [?|[= <- <-]%list_elem_of_singleton]; eauto.
  - intros u b' (k & e' & ? & ?)%H1. exists k, e'. split; [set_solver|done].
  - intros k e' [?|[= <- <-]%list_elem_of_singleton]%elem_of_app ?; [eauto|congruence].
Qed.
Lemma best_fold : best_inv (foldl best_step ∅ l) l.
Proof.
  assert (forall l best seen, best_inv best seen -> best_inv (foldl best_step best l) (seen ++ l)) as H.
  { clear l. intros l. induction l as [|kv l IH]; intros best seen Hi; cbn.
    - by rewrite app_nil_r.
    - replace (seen ++ kv :: l) with ((seen ++ [kv]) ++ l) by by rewrite <- app_assoc.
      by apply IH, best_inv_step. }
  apply (H l ∅ []). split.
  - intros u b. by rewrite lookup_empty.
  - intros key e ?%not_elem_of_nil. done.
Qed.
End BestSpec.

Abbreviation row_key r := (normalize_principal (r_principal r)).
Lemma insert_rows rows c k :
  match foldl (fun c r => cache_insert r c) c rows !! k with
  | Some r => (r ∈ rows /\ row_key r = k) \/ (c !! k = Some r /\ Forall (fun r => row_key r <> k) rows)
  | None => c !! k = None /\ Forall (fun r => row_key r <> k) rows
  end.
Proof.
  revert c. induction rows as [|r rows IH]; intros c; cbn [foldl].
  { destruct (c !! k); auto. }
  specialize (IH (cache_insert r c)).
  assert (Hc : cache_insert r c !! k = if decide (row_key r = k) then Some r else c !! k).
  { unfold cache_insert. by case_decide; simplify_map_eq. }
  rewrite Hc in IH.
  destruct (foldl _ _ rows !! k) as [r'|]; case_decide as Hk; try (by destruct IH).
  - destruct IH as [[? ?]|[[= <-] ?]]; left; set_solver.
  - destruct IH as [[? ?]|[? ?]]; [left; set_solver|right; by repeat constructor].
  - destruct IH as [? ?]. split; [done|by constructor].
Qed.

(** Memberships granted by the snapshot and by the live edges. *)
Definition granted (snap : IdMapSnapshot) (live : LiveGroupEdges) (r : Resolved) (g : Z) : Prop :=
  g <> 0 /\ g <> r_gid r
  /\ ((exists gk ge, groups snap !! gk = Some ge /\ as_u32 (g_gid ge) = g
         /\ member_hit (r_name r) (r_principal r) ge = true)
      \/ (exists gids, live !! r_name r = Some gids /\ g ∈ gids)).

Lemma existsb_zeqb x l : existsb (Z.eqb x) l = true <-> x ∈ l.
Proof.
  rewrite existsb_exists. setoid_rewrite Z.eqb_eq. setoid_rewrite <- list_elem_of_In. naive_solver.
Qed.
(** [if test(g) && !v.contains(&g) { v.push(g) }] over a list. *)
Lemma elem_of_push_unique (test : Z -> bool) l s g :
  g ∈ foldl (fun s g => if test g && negb (existsb (Z.eqb g) s) then s ++ [g] else s) s l
  <-> g ∈ s \/ (g ∈ l /\ test g = true).
Proof.
  revert s. induction l as [|x l IH]; intros s; cbn [foldl].
  { rewrite elem_of_nil. naive_solver. }
  rewrite IH. destruct (test x) eqn:Et; cbn [andb].
  - destruct (existsb (Z.eqb x) s) eqn:Ex; cbn [negb].
    + apply existsb_zeqb in Ex. rewrite elem_of_cons. naive_solver.
    + rewrite elem_of_app, list_elem_of_singleton, elem_of_cons. naive_solver.
  - rewrite elem_of_cons. naive_solver congruence.
Qed.

Section Sync.
Context `{!HashIter string, !HashIter Z}.

Lemma snapshot_supps short p primary snap g :
  g ∈ supplemental_gids_from_snapshot short p primary snap
  <-> g <> 0 /\ g <> primary
      /\ exists gk ge, groups snap !! gk = Some ge /\ as_u32 (g_gid ge) = g
                       /\ member_hit short p ge = true.
Proof.
  unfold supplemental_gids_from_snapshot. rewrite elem_of_sort_dedup_z, list_elem_of_omap. split.
  - intros (ge & [gk Hg]%elem_of_hvalues & He).
    destruct (_ || _) eqn:E1; [done|]. destruct (member_hit short p ge) eqn:E2; [|done].
    injection He as <-. apply orb_false_iff in E1 as [?%Z.eqb_neq ?%Z.eqb_neq]. eauto 10.
  - intros (H0 & Hp & gk & ge & Hg & <- & Hm). exists ge. split; [apply elem_of_hvalues; eauto|].
    by rewrite (proj2 (Z.eqb_neq _ _) H0), (proj2 (Z.eqb_neq _ _) Hp), Hm.
Qed.

Lemma fold_live_principal live r : r_principal (fold_live live r) = r_principal r.
Proof. unfold fold_live. by repeat case_match. Qed.
(** A seeded row after the live edges are folded in. *)
Lemma fold_live_seeded snap realm live b r :
  r = fold_live live (seeded_row snap realm b) -> principal_has_realm (r_principal r) = true ->
  r_principal r = r_name r +:+ "@" +:+ realm /\ r_kind r = User /\ r_source r = "bulk"
  /\ (r_name r, r_uid r, r_gid r) = b
  /\ (forall g, g ∈ r_supps r <-> granted snap live r g).
Proof.
  destruct b as [[short uid] gid]. intros -> H. rewrite fold_live_principal in H.
  unfold fold_live. rewrite H. cbn [seeded_row r_kind r_principal r_name r_gid r_supps].
  rewrite bool_decide_eq_true_2 by done. cbn [negb orb]. unfold granted.
  destruct (live !! short) as [gids|] eqn:El;
    cbn [seeded_row r_principal r_name r_kind r_source r_uid r_gid r_supps];
    split_and!; try done; intros g.
  - rewrite elem_of_sort_dedup_z.
    rewrite (elem_of_push_unique (fun g => negb (g =? 0) && negb (g =? gid))), snapshot_supps.
    rewrite andb_true_iff, !negb_true_iff, !Z.eqb_neq, El. naive_solver.
  - rewrite snapshot_supps, El. naive_solver.
Qed.
Lemma fold_live_machine live r : r_kind r = Machine -> fold_live live r = r.
Proof. intros H. unfold fold_live. by rewrite H. Qed.
Lemma fold_live_kind live r : r_kind (fold_live live r) = r_kind r.
Proof. unfold fold_live. by repeat case_match. Qed.
Lemma lookup_prune keep c k r :
  snd (prune_where keep c) !! k = Some r <-> c !! k = Some r /\ keep r = true.
Proof. unfold prune_where. cbn [snd]. by rewrite map_lookup_filter_Some. Qed.

Definition seeded_rows (snap : IdMapSnapshot) (realm : string) : list Resolved :=
  map (fun b => seeded_row snap realm b) (hvalues (foldl best_step ∅ (hiter (users snap)))).
Lemma elem_of_seeded_rows snap realm r :
  r ∈ seeded_rows snap realm <->
  exists key e, users snap !! key = Some e /\ seedable key e = true
    /\ foldl best_step ∅ (hiter (users snap)) !! u_uid e = Some (best_of key e)
    /\ r = seeded_row snap realm (best_of key e).
Proof.
  unfold seeded_rows. rewrite list_elem_of_fmap. setoid_rewrite elem_of_hvalues.
  destruct (best_fold (hiter (users snap))) as [H1 _]. split.
  - intros (b & -> & u & Hu). destruct (H1 _ _ Hu) as (key & e & Hin & ? & <- & ->).
    exists key, e. by rewrite <- elem_of_hiter.
  - intros (key & e & _ & _ & Hb & ->). eauto.
Qed.
(** What a lookup in the synchronised cache finds. *)
Lemma lookup_sync snap realm c live k r :
  snd (sync_user_cache_from_snapshot snap realm c live) !! k = Some r <->
  principal_has_realm (r_principal r) = true
  /\ (is_machine r || negb (is_numeric_local_principal (r_principal r))) = true
  /\ exists r0, r = fold_live live r0
       /\ foldl (fun c r => cache_insert r c) (snd (prune_non_machine_users c))
            (seeded_rows snap realm) !! k = Some r0.
Proof.
  unfold sync_user_cache_from_snapshot, seed_cache_and_nss_from_snapshot,
    prune_numeric_user_entries, prune_malformed_principals. fold (seeded_rows snap realm).
  cbn [snd fst]. cbv beta iota zeta. cbn [snd]. rewrite !lookup_prune, lookup_fmap, fmap_Some.
  naive_solver.
Qed.
End Sync.

(** The name a snapshot user is seeded under. *)
Definition seeded_key (realm key : string) : string :=
  normalize_principal (principal_local_part key +:+ "@" +:+ realm).
Lemma seeded_row_key `{!HashIter string} snap realm key e :
  row_key (seeded_row snap realm (best_of key e)) = seeded_key realm key.
Proof. done. Qed.

(** C13: after a synchronisation every row is a machine row of the old cache or
    a user of the snapshot, and a user's supplemental groups are exactly those
    the snapshot's member lists and the live edges grant, so that a revoked
    membership is gone; a machine row stays unless a snapshot user takes its
    key; and nothing else of the old cache has any influence.  This holds for
    every iteration order. *)
Theorem sync_exact (hs : HashIter string) (hz : HashIter Z) snap realm c live :
  keyed c ->
  let c' := snd (sync_user_cache_from_snapshot snap realm c live) in
  (forall k r, c' !! k = Some r ->
     (is_machine r = true /\ c !! k = Some r)
     \/ (r_kind r = User /\ r_principal r = r_name r +:+ "@" +:+ realm
         /\ (exists key e, users snap !! key = Some e /\ u_uid e <> 0
               /\ r_name r = principal_local_part key /\ r_uid r = as_u32 (u_uid e)
               /\ r_gid r = as_u32 (u_gid e))
         /\ forall g, g ∈ r_supps r <-> granted snap live r g))
  /\ (forall k r, c !! k = Some r -> is_machine r = true -> principal_has_realm (r_principal r) = true ->
        (forall key e, users snap !! key = Some e -> seeded_key realm key <> k) -> c' !! k = Some r)
  /\ (forall c2, (forall k r, is_machine r = true -> c !! k = Some r <-> c2 !! k = Some r) ->
        snd (sync_user_cache_from_snapshot snap realm c2 live) = c').
Proof.
  intros Hk. cbv zeta. split_and!.
  - intros k r (Hr & _ & r0 & -> & H0)%lookup_sync.
    pose proof (insert_rows (seeded_rows snap realm) (snd (prune_non_machine_users c)) k) as Hi.
    rewrite H0 in Hi. destruct Hi as [[Hs _]|[[Hc Hm]%lookup_prune _]].
    + right. apply elem_of_seeded_rows in Hs as (key & e & Hu & Hse & _ & ->).
      edestruct fold_live_seeded as (Hp & Hkd & _ & Hb & Hg); [reflexivity|exact Hr|].
      injection Hb as Hb1 Hb2 Hb3. split; [done|]. split; [done|]. split; [|done].
      exists key, e. apply andb_true_iff in Hse as [Hz%negb_true_iff%Z.eqb_neq _]. done.
    + left. apply bool_decide_eq_true_1 in Hm as Hm'. rewrite fold_live_machine by done. done.
  - intros k r Hc Hm Hr Hno. apply lookup_sync. rewrite Hm. split_and!; [done|done|].
    exists r. apply bool_decide_eq_true_1 in Hm as Hm'. rewrite fold_live_machine by done.
    split; [done|].
    pose proof (insert_rows (seeded_rows snap realm) (snd (prune_non_machine_users c)) k) as Hi.
    assert (Hp : snd (prune_non_machine_users c) !! k = Some r) by by apply lookup_prune.
    rewrite Hp in Hi. destruct (foldl _ _ _ !! k) as [r'|]; [|by destruct Hi].
    destruct Hi as [[Hin <-]|[[= ->] _]]; [|done].
    apply elem_of_seeded_rows in Hin as (key & e & Hu & _ & _ & ->).
    by destruct (Hno _ _ Hu).
  - intros c2 H2. unfold sync_user_cache_from_snapshot.
    assert (snd (prune_non_machine_users c2) = snd (prune_non_machine_users c)) as ->; [|done].
    apply map_eq. intros k. apply option_eq. intros r. unfold prune_non_machine_users.
    rewrite !lookup_prune. naive_solver.
Qed.

Definition sample_snap : IdMapSnapshot := {|
  users := {[ "alice" := {| u_uid := 1001; u_gid := 513; u_display := "Alice" |} ]};
  groups := {[ "devs" := {| g_gid := 2001; g_display := "devs"; g_members := ["alice"] |} ]};
  by_uid := {[ 1001 := "alice" ]}; by_gid := {[ 2001 := "devs" ]};
|}.
Definition revoked_cache : IdCache := cache_insert sample_row ∅.
Definition synced : IdCache :=
  snd (sync_user_cache_from_snapshot (HashIter0 := iter_forward) (HashIter1 := iter_forward)
         sample_snap "EXAMPLE.COM" revoked_cache ∅).
(** Alice was in 2001 and 2002; the snapshot only lists 2001. *)
Lemma sync_exact_witness :
  (r_supps <$> revoked_cache !! "alice@EXAMPLE.COM") = Some [2001; 2002]
  /\ exists r, synced !! "alice@EXAMPLE.COM" = Some r /\ r_supps r = [2001]
       /\ forall g, g ∈ r_supps r <-> granted sample_snap ∅ r g.
Proof.
  split; [by vm_compute|].
  eexists. split; [by vm_compute|]. split; [done|].
  destruct (proj1 (sync_exact iter_forward iter_forward sample_snap "EXAMPLE.COM" revoked_cache ∅
                     (keyed_insert _ _ keyed_empty)) "alice@EXAMPLE.COM" {| r_principal := "alice@EXAMPLE.COM"; r_name := "alice"; r_uid := 1001; r_gid := 513;
     r_kind := User; r_source := "bulk"; r_supps := [2001] |})
    as [[Hm _]|(_ & _ & _ & Hg)]; [by vm_compute|discriminate Hm|exact Hg].
Defined.

(** The preference for short names never takes effect, so which name a uid gets
    when the snapshot has it under two different local names is left to the
    iteration order of the hash map. *)
Definition two_names : IdMapSnapshot := {|
  users := {[ "alice" := {| u_uid := 1001; u_gid := 513; u_display := "Alice" |};
              "asmith@EXAMPLE.COM" := {| u_uid := 1001; u_gid := 513; u_display := "Alice" |} ]};
  groups := ∅; by_uid := {[ 1001 := "alice" ]}; by_gid := ∅;
|}.
Definition seeded_names (h : HashIter string) : list string :=
  map (fun kv => r_name (snd kv))
    (map_to_list (snd (seed_cache_and_nss_from_snapshot (HashIter0 := h) (HashIter1 := iter_forward)
                         two_names "EXAMPLE.COM" ∅))).
(** A uid that the snapshot holds under a short name and under a principal
    with another local part is seeded under either name, depending only on the
    iteration order. *)
Theorem seed_name_depends_on_order :
  exists h1 h2 : HashIter string,
    seeded_names h1 = ["alice"] /\ seeded_names h2 = ["asmith"].
Proof.
  first [ exists iter_forward, iter_backward; vm_compute; split; reflexivity
        | exists iter_backward, iter_forward; vm_compute; split; reflexivity ].
Qed.
