(* ===== verification/NssRows.v ===== *)
(** * The rows of the passwd and group stores

    Theorems about [build_nss_snapshot] of [Nss]: the printed group rows read
    back with the program's own reader, a member list holds only logins that
    the cache or LDAP entitles, every cached membership is there, and each
    login and gid has one row. *)

From S2P Require Import Prelude RustStr State Identity Resolver Generate Recycle IdCache Nss.
Local Open Scope Z_scope.

(** ** Login names are safe in both formats *)
Definition login_byte (c : Ascii.ascii) : bool :=
  is_ascii_alphanumeric c || ceqb c "_" || ceqb c "-" || ceqb c "." || ceqb c "@" || ceqb c "/".
Definition clean (s : string) : Prop := sall login_byte s = true /\ s <> "".

Lemma login_of_clean extra s :
  (forall c, extra c = true -> login_byte c = true) -> clean (login_of extra s).
Proof.
  intros He. unfold login_of.
  assert (H : sall login_byte (foldr (fun ch acc => login_char extra ch +:+ acc) "" (utf8_chars s)) = true).
  { induction (utf8_chars s) as [|ch l IH]; [done|]. cbn [foldr].
    rewrite sall_app, IH, andb_true_r. unfold login_char.
    destruct ch as [|c [|? ?]]; [done| |done].
    destruct (_ || extra c) eqn:E; [|done]. cbn. rewrite andb_true_r.
    apply orb_true_iff in E as [E|E]; [|by apply He].
    unfold login_byte. by rewrite E. }
  destruct (is_empty _) eqn:E; split; [done|done|done|]. by apply is_empty_false.
Qed.
Lemma sanitize_clean s : clean (sanitize_for_nss s).
Proof. by apply login_of_clean. Qed.
Lemma realm_login_clean s : clean (principal_realm_login_for_nss s).
Proof.
  apply login_of_clean. intros c. unfold login_byte.
  intros [-> | ->]%orb_true_iff; by rewrite ?orb_true_r.
Qed.
Lemma prefixed_dec_clean c n : login_byte c = true -> 0 <= n -> clean (String c "" +:+ dec n).
Proof.
  intros Hc [Hd _]%dec_spec. split; [|done].
  rewrite sapp_cons, sapp_nil_l. cbn [sall]. rewrite Hc. cbn [andb]. revert Hd. apply sall_impl. intros x Hx. unfold login_byte, is_ascii_alphanumeric.
  by rewrite Hx, orb_true_r.
Qed.
#[export] Hint Resolve sanitize_clean realm_login_clean : rust.

Lemma clean_no_char s c : clean s -> login_byte c = false -> contains_char c s = false.
Proof. intros [H _] Hc. by apply (sall_no_char login_byte). Qed.
Lemma clean_solid s : clean s -> sall solid s = true.
Proof.
  intros [H _]. revert H. apply sall_impl. intros c.
  assert (Hb : forall c, implb (login_byte c) (solid c) = true) by by_bytes.
  specialize (Hb c). by destruct (login_byte c).
Qed.
Lemma clean_trim s : clean s -> trim s = s.
Proof. intros H. by apply trim_all_solid, clean_solid. Qed.

(** ** A printed row reads back *)
Definition row_clean (l : GroupLine) : Prop :=
  clean (gl_name l) /\ 0 <= gl_gid l <= u32_max /\ Forall clean (gl_members l).

Lemma join_clean_solid l : Forall clean l -> sall solid (join "," l) = true.
Proof.
  induction 1 as [|x [|y l] Hx Hl IH]; [done|by apply clean_solid|].
  change (join "," (x :: y :: l)) with (x +:+ "," +:+ join "," (y :: l)).
  by rewrite !sall_app, IH, clean_solid.
Qed.
Lemma group_text_solid l : row_clean l -> sall solid (group_text l) = true.
Proof.
  intros (Hn & Hg & Hm). unfold group_text.
  rewrite !sall_app, (clean_solid _ Hn), (join_clean_solid _ Hm).
  by rewrite (digit_solid (dec _)) by (apply dec_spec; lia).
Qed.
Lemma filter_nonempty_clean l :
  Forall clean l -> List.filter (fun s => negb (is_empty s)) (map trim l) = l.
Proof.
  induction 1 as [|x l Hx _ IH]; [done|]. cbn. rewrite clean_trim by done.
  destruct Hx as [_ ->%is_empty_false]. cbn. by rewrite IH.
Qed.
Lemma parse_group_text l :
  row_clean l ->
  parse_group_row (group_text l)
  = Some {| gr_name := gl_name l; gr_gid := gl_gid l; gr_members := gl_members l |}.
Proof.
  intros H. unfold parse_group_row. rewrite trim_all_solid by by apply group_text_solid.
  destruct H as (Hn & Hg & Hm). assert (skipped_line (group_text l) = false) as ->.
  { unfold skipped_line, group_text. destruct (gl_name l) as [|c s]; [by destruct Hn|].
    rewrite sapp_cons, starts_with_one. cbn [is_empty orb]. apply ceqb_neq. intros <-.
    by destruct Hn. }
  unfold group_text. cbn [splitn]. change (":x:" +:+ ?x) with (String ":" ("x" +:+ String ":" x)).
  rewrite split_once_app by by apply clean_no_char. rewrite split_once_app by done.
  change (":" +:+ ?x) with (String ":" x). rewrite split_once_app by (apply dec_no_char; [lia|done]).
  rewrite (trim_all_solid (dec _)) by (apply digit_solid, dec_spec; lia).
  rewrite parse_uint_dec by done. cbn [mbind option_bind]. rewrite clean_trim by done.
  rewrite (trim_all_solid (join _ _)) by by apply join_clean_solid. do 2 f_equal.
  destruct (gl_members l) as [|x r] eqn:E; [done|].
  change "," with (String "," ""). rewrite join_split; [by apply filter_nonempty_clean|done|].
  eapply Forall_impl; [exact Hm|]. intros s Hs. by apply clean_no_char.
Qed.

(** ** Who is in which member list *)
Lemma mem_s_spec x l : mem_s x l = true <-> x ∈ l.
Proof.
  unfold mem_s. rewrite existsb_exists. setoid_rewrite seqb_eq.
  setoid_rewrite <- list_elem_of_In. naive_solver.
Qed.
Lemma elem_of_push_if_new l x y : y ∈ push_if_new l x <-> y ∈ l \/ y = x.
Proof.
  unfold push_if_new. destruct (mem_s x l) eqn:E.
  - apply mem_s_spec in E. naive_solver.
  - rewrite elem_of_app, list_elem_of_singleton. done.
Qed.
Lemma elem_of_push_all l xs y : y ∈ foldl push_if_new l xs <-> y ∈ l \/ y ∈ xs.
Proof.
  revert l. induction xs as [|x xs IH]; intros l; cbn [foldl].
  - rewrite elem_of_nil. naive_solver.
  - rewrite IH, elem_of_push_if_new, elem_of_cons. naive_solver.
Qed.
Lemma members_push_new g m x g' y :
  y ∈ members_of (push_new g m x) g' <-> y ∈ members_of m g' \/ (g = g' /\ y = x).
Proof.
  unfold push_new, members_of. destruct (decide (g = g')) as [<-|Hne].
  - rewrite lookup_insert_eq. cbn. rewrite elem_of_push_if_new. naive_solver.
  - rewrite lookup_insert_ne by done. naive_solver.
Qed.
Lemma members_push g m x g' y :
  y ∈ members_of (push g m x) g' <-> y ∈ members_of m g' \/ (g = g' /\ y = x).
Proof.
  unfold push, members_of. destruct (decide (g = g')) as [<-|Hne].
  - rewrite lookup_insert_eq. cbn. rewrite elem_of_app, list_elem_of_singleton. naive_solver.
  - rewrite lookup_insert_ne by done. naive_solver.
Qed.
(** A loop whose every step adds exactly [C a] adds exactly the union. *)
Lemma members_fold {A} (step : Members -> A -> Members) (C : A -> Z -> string -> Prop) l m g y :
  (forall m a g y, y ∈ members_of (step m a) g <-> y ∈ members_of m g \/ C a g y) ->
  y ∈ members_of (foldl step m l) g <-> y ∈ members_of m g \/ exists a, a ∈ l /\ C a g y.
Proof.
  intros H. revert m. induction l as [|a l IH]; intros m; cbn [foldl].
  - setoid_rewrite elem_of_nil. naive_solver.
  - rewrite IH, H. setoid_rewrite elem_of_cons. naive_solver.
Qed.
Lemma members_empty g y : y ∈ members_of ∅ g <-> False.
Proof. unfold members_of. rewrite lookup_empty. cbn. apply elem_of_nil. Qed.

(** The logins a cached row contributes to gid [g]. *)
Definition contributes (r : Resolved) (g : Z) (x : string) : Prop :=
  g <> 0 /\ g ∈ claims r
  /\ if is_machine r then x = "root" else x ∈ nss_passwd_logins_for r /\ is_numeric_login x = false.

Lemma members_by_gid_step_spec m r g y :
  y ∈ members_of (members_by_gid_step m r) g <-> y ∈ members_of m g \/ contributes r g y.
Proof.
  unfold members_by_gid_step, contributes.
  rewrite (members_fold _ (fun g' g y => g' <> 0 /\ g' = g
    /\ if is_machine r then y = "root"
       else y ∈ nss_passwd_logins_for r /\ is_numeric_login y = false)); [naive_solver|].
  clear. intros m g' g y. destruct (Z.eqb_spec g' 0) as [->|Hne]; [naive_solver|].
  destruct (is_machine r); [rewrite members_push_new; naive_solver|].
  rewrite (members_fold _ (fun x g y => g' = g /\ y = x /\ is_numeric_login x = false));
    [naive_solver|].
  clear. intros m x g y. destruct (is_numeric_login x); [naive_solver|].
  rewrite members_push_new. naive_solver.
Qed.

Lemma logins_clean r x : is_machine r = false -> x ∈ nss_passwd_logins_for r -> clean x.
Proof.
  intros Hm. unfold nss_passwd_logins_for. rewrite Hm, elem_of_sort_dedup_s. cbn [andb].
  rewrite elem_of_app, list_elem_of_singleton. intros [->|H]; [apply sanitize_clean|].
  repeat case_match; try (apply list_elem_of_singleton in H as ->; apply realm_login_clean).
  all: by apply not_elem_of_nil in H.
Qed.
(** The short and the principal form are among the logins. *)
Lemma short_in_logins r : sanitize_for_nss (r_name r) ∈ nss_passwd_logins_for r.
Proof. unfold nss_passwd_logins_for. rewrite elem_of_sort_dedup_s. set_solver. Qed.
Lemma at_in_logins r :
  principal_has_realm (r_principal r) = true ->
  principal_realm_login_for_nss (r_principal r) ∈ nss_passwd_logins_for r.
Proof.
  intros Hr. unfold nss_passwd_logins_for. rewrite elem_of_sort_dedup_s, Hr, andb_true_r.
  destruct (is_machine r); [set_solver|].
  destruct (seqb (principal_realm_login_for_nss (r_principal r)) _) eqn:E; cbn; [|set_solver].
  apply seqb_eq in E. rewrite E. left.
Qed.
Lemma users_by_gid_step_spec m r g y :
  principal_has_realm (r_principal r) = true ->
  y ∈ members_of (users_by_gid_step m r) g ->
  y ∈ members_of m g
  \/ (r_kind r = User /\ r_gid r = g /\ g <> 0 /\ y ∈ nss_passwd_logins_for r).
Proof.
  intros Hr. unfold users_by_gid_step. destruct (_ && _) eqn:E; [|by left].
  apply andb_true_iff in E as [[Hk%bool_decide_eq_true Hz%negb_true_iff%Z.eqb_neq]%andb_true_iff _].
  rewrite Hr. pose proof (short_in_logins r). pose proof (at_in_logins r Hr).
  destruct (negb _); rewrite !members_push; naive_solver.
Qed.

(** ** The invariant of the build loop

    Every group row is added for a gid not seen before, so the rows have
    distinct gids; [P] is what each row satisfies when it is added, and [L] the
    gids of the LDAP groups, whose rows come first. *)
Record rows_inv (P : GroupLine -> Prop) (L : list Z) (b : Build) : Prop := {
  inv_rows : Forall P (b_group b);
  inv_nodup : NoDup (map gl_gid (b_group b));
  inv_seen : forall g, g ∈ b_gid b -> g = 0 \/ g ∈ map gl_gid (b_group b);
  inv_rows_seen : forall g, g ∈ map gl_gid (b_group b) -> g ∈ b_gid b;
  inv_ldap : forall g, g ∈ L -> g ∈ b_gid b;
}.

Lemma NoDup_map_filter {A B} (f : A -> B) (p : A -> bool) l :
  NoDup (map f l) -> NoDup (map f (List.filter p l)).
Proof.
  induction l as [|x l IH]; cbn; [done|]. intros [Hx Hl]%NoDup_cons.
  destruct (p x); cbn; [|by apply IH]. constructor; [|by apply IH].
  intros (y & Hy & [Hyl _]%elem_of_filter_In)%list_elem_of_fmap. apply Hx. rewrite Hy.
  by apply list_elem_of_fmap_2.
Qed.
Lemma add_group_sees g row b : g ∈ b_gid (add_group g row b).
Proof. unfold add_group. case_bool_decide; cbn; set_solver. Qed.
Lemma add_group_mono g row b g' : g' ∈ b_gid b -> g' ∈ b_gid (add_group g row b).
Proof. unfold add_group. case_bool_decide; cbn; set_solver. Qed.
Lemma add_passwd_groups r b login :
  b_group (add_passwd r b login) = b_group b /\ b_gid (add_passwd r b login) = b_gid b.
Proof. unfold add_passwd. by case_match. Qed.
Lemma add_passwds_groups r logins b :
  b_group (foldl (add_passwd r) b logins) = b_group b
  /\ b_gid (foldl (add_passwd r) b logins) = b_gid b.
Proof.
  revert b. induction logins as [|x l IH]; intros b; [done|]. cbn [foldl].
  destruct (IH (add_passwd r b x)) as [-> ->]. apply add_passwd_groups.
Qed.
Lemma foldl_inv {A B} (I : B -> Prop) (f : B -> A -> B) l b :
  (forall b a, a ∈ l -> I b -> I (f b a)) -> I b -> I (foldl f b l).
Proof.
  revert b. induction l as [|a l IH]; intros b H Hb; cbn; [done|].
  apply IH; [|by apply H; [left|]]. intros b' a' Ha. apply H. by right.
Qed.
(** A loop of steps that never lose a gid and see that of their own element. *)
Lemma foldl_sees {A} (f : Build -> A -> Build) (gids : A -> list Z) l b g :
  (forall b a g, g ∈ b_gid b -> g ∈ b_gid (f b a)) ->
  (forall b a g, a ∈ l -> g ∈ gids a -> g ∈ b_gid (f b a)) ->
  g ∈ b_gid b \/ (exists a, a ∈ l /\ g ∈ gids a) -> g ∈ b_gid (foldl f b l).
Proof.
  intros Hm. revert b. induction l as [|x l IH]; intros b Hs; cbn [foldl].
  - intros [?|(a & ?%not_elem_of_nil & _)]; done.
  - intros H. apply IH; [intros b' a g' Ha; apply Hs; by right|].
    destruct H as [?|(a & [ -> |Ha]%elem_of_cons & Hg)]; [left; by apply Hm| |eauto].
    left. apply Hs; [left|done].
Qed.

Section Rows.
Context (P : GroupLine -> Prop).

Lemma inv_weaken L L' b : rows_inv P L b -> (forall g, g ∈ L' -> g ∈ b_gid b) -> rows_inv P L' b.
Proof. intros [] ?. by split. Qed.
Lemma inv_see_zero L b : rows_inv P L b -> rows_inv P L (see_gid 0 b).
Proof.
  intros []. split; cbn; try done.
  - intros g [?| ->%elem_of_singleton]%elem_of_union; auto.
  - set_solver.
  - set_solver.
Qed.
Lemma inv_add_group L b row :
  rows_inv P L b -> (gl_gid row ∉ b_gid b -> P row) -> rows_inv P L (add_group (gl_gid row) row b).
Proof.
  intros Hi HP. unfold add_group. case_bool_decide as Hg; [done|]. destruct Hi as [H1 H2 H3 H4 H5].
  split; cbn; rewrite ?map_app; cbn [map].
  - apply Forall_app. split; [done|]. by repeat constructor; auto.
  - apply NoDup_app. split_and!; [done| |repeat constructor; by intros ?%not_elem_of_nil].
    intros g Hin ->%list_elem_of_singleton. by apply Hg, H4.
  - intros g [?%H3| ->%elem_of_singleton]%elem_of_union; set_solver.
  - intros g [?%H4| ->%list_elem_of_singleton]%elem_of_app; set_solver.
  - set_solver.
Qed.
Lemma inv_ext L b b' :
  b_group b' = b_group b -> b_gid b' = b_gid b -> rows_inv P L b -> rows_inv P L b'.
Proof. intros Hg Hs []. split; by rewrite ?Hg, ?Hs. Qed.
End Rows.

Section BuildInv.
Context `{!HashIter string} (ldap : option (gmap string PosixGroupEntry)) (c : IdCache).

Lemma elem_of_nss_items r :
  r ∈ nss_items c <-> (exists k, c !! k = Some r) /\ principal_has_realm (r_principal r) = true.
Proof. unfold nss_items. rewrite elem_of_sort_key, elem_of_filter_In, elem_of_hvalues. done. Qed.

Lemma by_gid_map_spec l g e :
  by_gid_map l !! g = Some e -> g_gid e = g /\ exists k, (k, e) ∈ l.
Proof.
  revert g e. apply (foldl_inv (fun m : gmap Z PosixGroupEntry =>
    forall g e, m !! g = Some e -> g_gid e = g /\ exists k, (k, e) ∈ l)).
  - intros m [k e'] Hin Hm g e. unfold by_gid_step. cbn [snd].
    destruct (m !! g_gid e') eqn:E; [apply Hm|].
    intros [[<- <-]|[_ ?%Hm]]%lookup_insert_Some; [|done]. eauto.
  - intros g e. by rewrite lookup_empty.
Qed.
Lemma by_gid_step_mono m kv g : is_Some (m !! g) -> is_Some (by_gid_step m kv !! g).
Proof.
  intros Hm. unfold by_gid_step. case_match; [done|]. apply lookup_insert_is_Some'. by right.
Qed.
Lemma by_gid_map_total l k e : (k, e) ∈ l -> is_Some (by_gid_map l !! g_gid e).
Proof.
  unfold by_gid_map. intros (l1 & l2 & ->)%list_elem_of_split. rewrite foldl_app. cbn [foldl].
  apply (foldl_inv (fun m : gmap Z PosixGroupEntry => is_Some (m !! g_gid e)));
    [intros; by apply by_gid_step_mono|].
  unfold by_gid_step. cbn [snd]. case_match eqn:E; [by rewrite E|].
  apply lookup_insert_is_Some'. by left.
Qed.
Lemma elem_of_btree_values {A} (m : gmap Z A) x : x ∈ btree_values m <-> exists g, m !! g = Some x.
Proof.
  unfold btree_values. rewrite list_elem_of_fmap. setoid_rewrite elem_of_sort_key. split.
  - intros ([g y] & -> & Hy%elem_of_map_to_list). eauto.
  - intros [g Hg%elem_of_map_to_list]. by exists (g, x).
Qed.
(** The LDAP groups that get a row: one per gid. *)
Lemma ldap_entries_sound e :
  e ∈ ldap_entries ldap -> exists gs k, ldap = Some gs /\ gs !! k = Some e.
Proof.
  unfold ldap_entries. destruct ldap as [gs|]; [|by intros ?%not_elem_of_nil].
  intros [g [_ [k Hk]]%by_gid_map_spec]%elem_of_btree_values.
  rewrite elem_of_sort_key in Hk. apply elem_of_hiter in Hk. eauto.
Qed.
Lemma ldap_entries_total gs k e :
  ldap = Some gs -> gs !! k = Some e -> exists e', e' ∈ ldap_entries ldap /\ g_gid e' = g_gid e.
Proof.
  intros Hgs Hk. unfold ldap_entries. rewrite Hgs.
  destruct (by_gid_map_total (sort_key fst sleb (hiter gs)) k e) as [e' He'].
  { by rewrite elem_of_sort_key, elem_of_hiter. }
  exists e'. split; [apply elem_of_btree_values; eauto|]. by apply by_gid_map_spec in He' as [? _].
Qed.

Definition ldap_gids : list Z := map (fun e => as_u32 (g_gid e)) (ldap_entries ldap).

Section Inv.
Context (P : GroupLine -> Prop)
  (P_ldap : forall e, e ∈ ldap_entries ldap -> P (ldap_row (users_by_gid c) (members_by_gid c) e))
  (P_claim : forall r g, r ∈ nss_items c -> g ∈ claims r -> g ∉ ldap_gids -> P (claim_row ldap c r g))
  (P_uid : forall r, r ∈ nss_items c -> r_uid r <> 0 -> r_uid r <> r_gid r -> r_uid r ∉ ldap_gids ->
     P (group_line_with_members (r_uid r) ("u" +:+ dec (r_uid r)) []))
  (P_root : forall g, g ∈ root_supps c -> g ∉ ldap_gids ->
     P (group_line_with_members g (gname_for_gid g ldap ("g" +:+ dec g))
          (push_if_new (members_of (members_by_gid c) g) "root"))).

Lemma claim_row_gid r g : gl_gid (claim_row ldap c r g) = g.
Proof.
  unfold claim_row. destruct (Z.eqb_spec g 0) as [->|Hg]; [done|]. by case_match.
Qed.
Lemma inv_after_ldap :
  rows_inv P ldap_gids (foldl (ldap_step c) build0 (ldap_entries ldap)).
Proof.
  eapply inv_weaken.
  - apply (foldl_inv (rows_inv P [])).
    + intros b e He Hb. unfold ldap_step.
      apply (inv_add_group P [] b (ldap_row (users_by_gid c) (members_by_gid c) e)); auto.
    + split; cbn; [constructor|constructor|set_solver|set_solver|set_solver].
  - intros g Hg. unfold ldap_gids in Hg. apply list_elem_of_fmap in Hg as (e & -> & He).
    apply (foldl_sees _ (fun e => [as_u32 (g_gid e)])); [| |right; exists e; set_solver].
    + intros. by apply add_group_mono.
    + intros b a g _ ->%list_elem_of_singleton. apply add_group_sees.
Qed.
Lemma inv_uid_group b r :
  r ∈ nss_items c -> rows_inv P ldap_gids b -> rows_inv P ldap_gids (uid_group r b).
Proof.
  intros Hr Hb. unfold uid_group. destruct (Z.eqb_spec (r_uid r) (r_gid r)); [done|].
  case_bool_decide as Hs; [done|]. cbn [orb]. destruct (Z.eqb_spec (r_uid r) 0); [by apply inv_see_zero|].
  apply (inv_add_group _ _ _ (group_line_with_members (r_uid r) ("u" +:+ dec (r_uid r)) [])); [done|].
  intros _. apply P_uid; try done. intros Hl. by apply Hs, (inv_ldap _ _ _ Hb).
Qed.
Lemma inv_item b r :
  r ∈ nss_items c -> rows_inv P ldap_gids b -> rows_inv P ldap_gids (item_step ldap c b r).
Proof.
  intros Hr Hb. unfold item_step. case_match; [done|]. cbv zeta. apply inv_uid_group; [done|].
  apply (foldl_inv (rows_inv P ldap_gids)).
  - intros b' g Hg Hb'. pose proof (inv_add_group P ldap_gids b' (claim_row ldap c r g)) as H'.
    rewrite claim_row_gid in H'. apply H'; [done|]. intros Hn. apply P_claim; [done|done|].
    intros Hl. by apply Hn, (inv_ldap _ _ _ Hb').
  - destruct (add_passwds_groups r (nss_passwd_logins_for r) b). by eapply inv_ext.
Qed.
Lemma build_inv : rows_inv P ldap_gids (build_rows ldap c).
Proof.
  unfold build_rows. apply (foldl_inv (rows_inv P ldap_gids)).
  - intros b g Hg Hb. unfold root_supp_step.
    apply (inv_add_group P ldap_gids b
      (group_line_with_members g (gname_for_gid g ldap ("g" +:+ dec g))
         (push_if_new (members_of (members_by_gid c) g) "root"))); [done|].
    cbn. intros Hn. apply P_root; [done|]. intros Hl. by apply Hn, (inv_ldap _ _ _ Hb).
  - apply (foldl_inv (rows_inv P ldap_gids)); [intros; by apply inv_item|apply inv_after_ldap].
Qed.
End Inv.

Lemma item_step_mono b r g : g ∈ b_gid b -> g ∈ b_gid (item_step ldap c b r).
Proof.
  intros Hg. unfold item_step. case_match; [done|]. cbv zeta.
  assert (Hs : g ∈ b_gid (foldl (fun b g => add_group g (claim_row ldap c r g) b)
    (foldl (add_passwd r) b (nss_passwd_logins_for r)) (claims r))).
  { apply (foldl_inv (fun b => g ∈ b_gid b)); [intros; by apply add_group_mono|].
    by rewrite (proj2 (add_passwds_groups r _ b)). }
  unfold uid_group. repeat case_match; cbn; [done|set_solver|by apply add_group_mono].
Qed.
Lemma item_step_sees b r g :
  is_numeric_local_principal (r_principal r) = false -> g ∈ claims r ->
  g ∈ b_gid (item_step ldap c b r).
Proof.
  intros Hn Hg. unfold item_step. rewrite Hn. cbv zeta.
  assert (Hs : g ∈ b_gid (foldl (fun b g => add_group g (claim_row ldap c r g) b)
    (foldl (add_passwd r) b (nss_passwd_logins_for r)) (claims r))).
  { apply (foldl_sees _ (fun g => [g])); [| |right; exists g; set_solver].
    - intros. by apply add_group_mono.
    - intros ? ? ? _ ->%list_elem_of_singleton. apply add_group_sees. }
  unfold uid_group. repeat case_match; cbn; [done|set_solver|by apply add_group_mono].
Qed.
Lemma build_sees r g :
  r ∈ nss_items c -> is_numeric_local_principal (r_principal r) = false -> g ∈ claims r ->
  g ∈ b_gid (build_rows ldap c).
Proof.
  intros Hr Hn Hg. unfold build_rows.
  apply (foldl_inv (fun b => g ∈ b_gid b)); [intros; by apply add_group_mono|].
  apply (foldl_sees _ (fun r => if is_numeric_local_principal (r_principal r) then [] else claims r)).
  - intros. by apply item_step_mono.
  - intros b a g' _. case_match; [by intros ?%not_elem_of_nil|]. by apply item_step_sees.
  - right. exists r. by rewrite Hn.
Qed.
End BuildInv.

(** ** Entitlement *)

(** Who may be a member of gid [g]: the logins of a cached row that claims
    [g], root for a machine or uid-0 row with [g], and the members LDAP lists
    for a group with that gid. *)
Definition entitled (ldap : option (gmap string PosixGroupEntry)) (c : IdCache) (g : Z) (x : string)
  : Prop :=
  (exists k r, c !! k = Some r /\ principal_has_realm (r_principal r) = true /\ g ∈ claims r
     /\ if is_machine r then x = "root" else x ∈ nss_passwd_logins_for r)
  \/ (x = "root" /\ exists k r, c !! k = Some r /\ (r_uid r = 0 \/ r_gid r = 0) /\ g ∈ r_supps r)
  \/ (exists gs k e m, ldap = Some gs /\ gs !! k = Some e /\ as_u32 (g_gid e) = g
        /\ m ∈ g_members e /\ x = sanitize_for_nss m).
(** Ids are [u32]. *)
Definition ids_ok (c : IdCache) : Prop :=
  forall k r, c !! k = Some r ->
    0 <= r_uid r <= u32_max /\ Forall (fun g => 0 <= g <= u32_max) (claims r).

Lemma as_u32_range x : 0 <= as_u32 x <= u32_max.
Proof. unfold as_u32. pose proof (wrap_range 32 x ltac:(lia)) as []. unfold u32_max. lia. Qed.

Lemma elem_of_root_supps_fold l s g :
  g ∈ foldl root_supps_step s l <->
  g ∈ s \/ exists r, r ∈ l /\ g <> 0 /\ (r_uid r = 0 \/ r_gid r = 0)
                    /\ principal_has_realm (r_principal r) = true /\ g ∈ r_supps r.
Proof.
  revert s. induction l as [|r l IH]; intros s; cbn [foldl].
  { setoid_rewrite elem_of_nil. naive_solver. }
  rewrite IH. setoid_rewrite elem_of_cons.
  assert (Hs : g ∈ root_supps_step s r <-> g ∈ s \/ (g <> 0 /\ (r_uid r = 0 \/ r_gid r = 0)
    /\ principal_has_realm (r_principal r) = true /\ g ∈ r_supps r)); [|rewrite Hs; naive_solver].
  unfold root_supps_step.
  rewrite <- (Z.eqb_eq (r_uid r)), <- (Z.eqb_eq (r_gid r)), <- orb_true_iff.
  destruct ((r_uid r =? 0) || (r_gid r =? 0)), (principal_has_realm (r_principal r));
    cbn [andb]; try tauto; try (split; [tauto|intuition discriminate]).
  rewrite (elem_of_push_unique (fun g => negb (g =? 0))), negb_true_iff, Z.eqb_neq. tauto.
Qed.

Section Entitled.
Context `{!HashIter string} (ldap : option (gmap string PosixGroupEntry)) (c : IdCache).

Lemma elem_of_root_supps g :
  g ∈ root_supps c <->
  g <> 0 /\ exists k r, c !! k = Some r /\ (r_uid r = 0 \/ r_gid r = 0)
                        /\ principal_has_realm (r_principal r) = true /\ g ∈ r_supps r.
Proof.
  unfold root_supps, root_supplemental_gids_from_cache. rewrite (elem_of_sort_by _ Z.eqb).
  rewrite elem_of_root_supps_fold, elem_of_nil. setoid_rewrite elem_of_hvalues. naive_solver.
Qed.
Lemma elem_of_members_by_gid g x :
  x ∈ members_of (members_by_gid c) g <->
  (exists r, r ∈ nss_items c /\ contributes r g x) \/ (g ∈ root_supps c /\ x = "root").
Proof.
  unfold members_by_gid.
  rewrite (members_fold (fun m g => push_new g m "root") (fun g' g x => g' = g /\ x = "root"))
    by (intros; apply members_push_new).
  rewrite (members_fold _ contributes) by (intros; apply members_by_gid_step_spec).
  rewrite members_empty. naive_solver.
Qed.
Lemma users_by_gid_sound g x :
  x ∈ members_of (users_by_gid c) g ->
  exists r, r ∈ nss_items c /\ r_kind r = User /\ r_gid r = g /\ x ∈ nss_passwd_logins_for r.
Proof.
  revert g x. unfold users_by_gid.
  apply (foldl_inv (fun m => forall g x, x ∈ members_of m g -> exists r, r ∈ nss_items c
    /\ r_kind r = User /\ r_gid r = g /\ x ∈ nss_passwd_logins_for r)).
  - intros m r Hr Hm g x [?|?]%users_by_gid_step_spec; [by apply Hm|naive_solver|].
    by apply elem_of_nss_items in Hr as [_ ?].
  - intros g x. by rewrite members_empty.
Qed.

Lemma claims_entitled r g x :
  r ∈ nss_items c -> g ∈ claims r ->
  (if is_machine r then x = "root" else x ∈ nss_passwd_logins_for r) -> entitled ldap c g x.
Proof. intros [[k Hk] Hr]%elem_of_nss_items Hg Hx. left. exists k, r. done. Qed.
Lemma members_entitled g x : x ∈ members_of (members_by_gid c) g -> entitled ldap c g x.
Proof.
  intros [(r & Hr & _ & Hg & Hx)|[Hg ->]]%elem_of_members_by_gid.
  - apply (claims_entitled r); [done|done|]. destruct (is_machine r); tauto.
  - apply elem_of_root_supps in Hg as (_ & k & r & Hk & H0 & _ & Hs). right. left. eauto 10.
Qed.
Lemma users_entitled g x : x ∈ members_of (users_by_gid c) g -> entitled ldap c g x.
Proof.
  intros (r & Hr & Hk & <- & Hx)%users_by_gid_sound. apply (claims_entitled r); [done|left|].
  unfold is_machine. by rewrite Hk.
Qed.
Lemma entitled_clean g x : entitled ldap c g x -> clean x.
Proof.
  intros [(k & r & _ & _ & _ & Hx)|[[-> _]|(gs & k & e & m & _ & _ & _ & _ & ->)]];
    [|done|apply sanitize_clean].
  destruct (is_machine r) eqn:Em; [by subst|]. by eapply logins_clean.
Qed.
Lemma gname_clean g fallback : clean (gname_for_gid g ldap fallback).
Proof. unfold gname_for_gid. repeat case_match; try apply sanitize_clean; done. Qed.
Lemma root_group_clean : row_clean root_group.
Proof. split_and!; [done|done|done|]. by repeat constructor. Qed.
End Entitled.

Section GroupRows.
Context `{!HashIter string} (ldap : option (gmap string PosixGroupEntry)) (c : IdCache).
Context (Hids : ids_ok c).

Definition sound_row (l : GroupLine) : Prop :=
  row_clean l /\ (gl_gid l <> 0 -> Forall (entitled ldap c (gl_gid l)) (gl_members l))
  /\ (gl_gid l = 0 -> l = root_group \/ 0 ∈ ldap_gids ldap).
Lemma sound_row_intro g name ms :
  clean name -> 0 <= g <= u32_max -> Forall (entitled ldap c g) ms ->
  (g = 0 -> 0 ∈ ldap_gids ldap) -> sound_row (group_line_with_members g name ms).
Proof.
  intros Hn Hg Hm H0. split; [|split; cbn; auto]. split; [done|]. split; [done|].
  eapply Forall_impl; [exact Hm|]. apply entitled_clean.
Qed.
Lemma item_range r g : r ∈ nss_items c -> g ∈ claims r -> 0 <= g <= u32_max.
Proof.
  intros [[k Hk] _]%elem_of_nss_items Hg. apply Hids in Hk as [_ Hf].
  rewrite Forall_forall in Hf. by apply Hf.
Qed.
Lemma sound_ldap e :
  e ∈ ldap_entries ldap -> sound_row (ldap_row (users_by_gid c) (members_by_gid c) e).
Proof.
  intros He. apply sound_row_intro; [|apply as_u32_range| |].
  - case_match; [done|apply sanitize_clean].
  - apply Forall_forall. intros x. rewrite !elem_of_push_all.
    intros [[(m & -> & Hm)%list_elem_of_fmap|Hx]|Hx];
      [|by apply users_entitled|by apply members_entitled].
    apply ldap_entries_sound in He as (gs & k & -> & Hk). right. right. exists gs, k, e, m. done.
  - intros <-. unfold ldap_gids. by apply (list_elem_of_fmap_2 (fun e => as_u32 (g_gid e))).
Qed.
Lemma sound_claim r g : r ∈ nss_items c -> g ∈ claims r -> sound_row (claim_row ldap c r g).
Proof.
  intros Hr Hg. pose proof (item_range r g Hr Hg). unfold claim_row.
  destruct (Z.eqb_spec g 0) as [->|Hne].
  { split; [apply root_group_clean|]. by split; [|left]. }
  assert (He : forall x, (if is_machine r then x = "root" else x ∈ nss_passwd_logins_for r) ->
    entitled ldap c g x) by (intros; by apply (claims_entitled ldap c r)).
  destruct (is_machine r) eqn:Em; cbn [negb].
  - apply sound_row_intro; [apply gname_clean|done| |done].
    apply Forall_forall. intros x [?| ->]%elem_of_push_if_new; [by apply members_entitled|by apply He].
  - apply sound_row_intro; [case_match; [done|apply gname_clean]|done| |done].
    apply Forall_forall. intros x.
    assert (Hs : x ∈ push_if_new (members_of (members_by_gid c) g) (sanitize_for_nss (r_name r)) ->
      entitled ldap c g x).
    { intros [?| ->]%elem_of_push_if_new; [by apply members_entitled|apply He, short_in_logins]. }
    destruct (principal_has_realm (r_principal r)) eqn:Er; cbn [andb]; [|done].
    case_match; [|done]. intros [?| ->]%elem_of_push_if_new; [auto|by apply He, at_in_logins].
Qed.
Lemma sound_uid r :
  r ∈ nss_items c -> r_uid r <> 0 ->
  sound_row (group_line_with_members (r_uid r) ("u" +:+ dec (r_uid r)) []).
Proof.
  intros [[k Hk] _]%elem_of_nss_items H0. apply Hids in Hk as [Hu _].
  apply sound_row_intro; [apply (prefixed_dec_clean "u"); [done|lia]|done|constructor|done].
Qed.
Lemma sound_root g :
  g ∈ root_supps c ->
  sound_row (group_line_with_members g (gname_for_gid g ldap ("g" +:+ dec g))
    (push_if_new (members_of (members_by_gid c) g) "root")).
Proof.
  intros Hg. pose proof (proj1 (elem_of_root_supps c g) Hg) as (H0 & k & r & Hk & Hz & Hr & Hs).
  apply sound_row_intro; [apply gname_clean| | |done].
  - apply (item_range r); [apply elem_of_nss_items; eauto|by right].
  - apply Forall_forall. intros x [?| ->]%elem_of_push_if_new; [by apply members_entitled|].
    right. left. eauto 10.
Qed.
Lemma sound_inv : rows_inv sound_row (ldap_gids ldap) (build_rows ldap c).
Proof.
  apply build_inv; [apply sound_ldap| | |].
  - intros r g Hr Hg _. by apply sound_claim.
  - intros r Hr H0 _ _. by apply sound_uid.
  - intros g Hg _. by apply sound_root.
Qed.

(** The prefix test on the printed line recognises exactly the rows named root
    with gid 0. *)
Lemma root_prefix l :
  row_clean l -> starts_with "root:x:0:" (group_text l) = true -> gl_gid l = 0.
Proof.
  intros (Hn & Hg & _) [s Hs]%starts_with_spec. unfold group_text in Hs.
  apply (f_equal (splitn 4 ":")) in Hs. cbn [splitn] in Hs.
  change (":x:" +:+ ?x) with (String ":" ("x" +:+ String ":" x)) in Hs.
  change ("root:x:0:" +:+ s) with ("root" +:+ String ":" ("x" +:+ String ":" ("0" +:+ String ":" s))) in Hs.
  rewrite !split_once_app in Hs; try done; [|by apply clean_no_char].
  change (":" +:+ ?x) with (String ":" x) in Hs.
  rewrite split_once_app in Hs by (apply dec_no_char; [lia|done]).
  injection Hs as _ Hd _. apply dec_inj; [lia|lia|exact Hd].
Qed.
Lemma elem_of_group_rows l :
  l ∈ snd (build_nss_snapshot ldap c) <->
  l = root_group \/ (l ∈ b_group (build_rows ldap c)
                     /\ starts_with "root:x:0:" (group_text l) = false).
Proof.
  unfold build_nss_snapshot, finish_groups. cbn [snd]. rewrite elem_of_cons, elem_of_filter_In.
  rewrite negb_true_iff. case_bool_decide; [done|].
  rewrite elem_of_app, list_elem_of_singleton. split; [|tauto]. intros [?|[[?| ->] ?]]; auto.
Qed.
Lemma group_rows_sound l : l ∈ snd (build_nss_snapshot ldap c) -> sound_row l.
Proof.
  intros [->|[Hl _]]%elem_of_group_rows.
  - split; [apply root_group_clean|]. by split; [|left].
  - pose proof (inv_rows _ _ _ sound_inv) as H. rewrite Forall_forall in H. by apply H.
Qed.
Lemma group_gids_nodup : 0 ∉ ldap_gids ldap -> NoDup (map gl_gid (snd (build_nss_snapshot ldap c))).
Proof.
  intros H0. unfold build_nss_snapshot, finish_groups. cbn [snd map].
  set (ls := if bool_decide _ then _ else _).
  assert (Hsub : forall l, l ∈ List.filter (fun l => negb (starts_with "root:x:0:" (group_text l))) ls ->
    l ∈ b_group (build_rows ldap c) /\ l <> root_group).
  { intros l [Hl Hp%negb_true_iff]%elem_of_filter_In.
    assert (l <> root_group) by (intros ->; done). split; [|done]. revert Hl. unfold ls.
    case_bool_decide; [done|]. by rewrite elem_of_app, list_elem_of_singleton; intros [?|?]. }
  constructor.
  - intros (l & Hl0 & [Hl Hne]%Hsub)%list_elem_of_fmap.
    pose proof (inv_rows _ _ _ sound_inv) as H. rewrite Forall_forall in H.
    destruct (H l Hl) as (_ & _ & Hz). destruct Hz as [?|?]; done.
  - unfold ls. clear Hsub ls. pose proof (inv_nodup _ _ _ sound_inv) as Hn.
    case_bool_decide as H0s; [by apply NoDup_map_filter|]. rewrite List.filter_app. cbn. rewrite app_nil_r. by apply NoDup_map_filter.
Qed.
End GroupRows.

(** LDAP holds no group with gid 0. *)
Definition no_gid0 (ldap : option (gmap string PosixGroupEntry)) : Prop :=
  forall gs k e, ldap = Some gs -> gs !! k = Some e -> as_u32 (g_gid e) <> 0.
Lemma no_gid0_ldap `{!HashIter string} ldap : no_gid0 ldap -> 0 ∉ ldap_gids ldap.
Proof.
  intros H (e & He & (gs & k & Hgs & Hk)%ldap_entries_sound)%list_elem_of_fmap.
  by apply (H gs k e).
Qed.

Definition root_line : string := "root:x:0:root,daemon,bin".
(** C4: every line of the group store reads back as a row, the first is the
    fixed root row, and a row of another gid lists only entitled logins: those
    of cached principals that claim the gid, root for machines, and the members
    LDAP lists for the group.  Without an LDAP group of gid 0 no other line has
    gid 0 and no gid has two lines. *)
Theorem nss_groups_sound (h : HashIter string) ldap c :
  ids_ok c ->
  let lines := map group_text (snd (build_nss_snapshot ldap c)) in
  head lines = Some root_line
  /\ Forall (fun line => exists row, parse_group_row line = Some row
       /\ (gr_gid row <> 0 -> Forall (entitled ldap c (gr_gid row)) (gr_members row))
       /\ (gr_gid row = 0 -> no_gid0 ldap -> line = root_line)) lines
  /\ (no_gid0 ldap -> NoDup (omap (fun line => gr_gid <$> parse_group_row line) lines)).
Proof.
  intros Hids. cbv zeta. split; [done|]. split.
  - apply Forall_map, Forall_forall. intros l Hl. cbn.
    destruct (group_rows_sound ldap c Hids l Hl) as (Hc & He & H0).
    eexists. split; [by apply parse_group_text|]. split; cbn; [done|].
    intros Hz Hn%no_gid0_ldap. by destruct (H0 Hz) as [->|?].
  - intros Hn%no_gid0_ldap. pose proof (group_gids_nodup ldap c Hids Hn) as Hd.
    pose proof (group_rows_sound ldap c Hids) as Hs. revert Hd Hs.
    generalize (snd (build_nss_snapshot ldap c)) as ls. intros ls Hd Hs.
    assert (omap (fun line => gr_gid <$> parse_group_row line) (map group_text ls) = map gl_gid ls)
      as ->; [|done].
    clear Hd. induction ls as [|l ls IH]; [done|]. cbn [map omap list_omap].
    rewrite parse_group_text by (apply Hs; left). cbn. f_equal. apply IH. intros l' Hl'.
    apply Hs. by right.
Qed.

Definition machine_row : Resolved :=
  {| r_principal := "host/c1.example.com@EXAMPLE.COM"; r_name := "c1.example.com"; r_uid := 0;
     r_gid := 0; r_kind := Machine; r_source := "machine"; r_supps := [2001] |}.
Definition sample_cache : IdCache := cache_insert machine_row (cache_insert sample_row ∅).
Lemma sample_ids : ids_ok sample_cache.
Proof.
  intros k r. unfold sample_cache, cache_insert.
  intros [[_ <-]|[_ [[_ <-]|[_ Hk]]%lookup_insert_Some]]%lookup_insert_Some;
    [..|by rewrite lookup_empty in Hk]; (split; [done|by repeat constructor]).
Qed.
Definition sample_lines : list string :=
  map group_text
    (snd (build_nss_snapshot (HashIter0 := iter_forward) (Some (groups sample_snap)) sample_cache)).
Lemma sample_no_gid0 : no_gid0 (Some (groups sample_snap)).
Proof.
  intros gs k e [= <-]. cbn [groups sample_snap].
  intros [_ <-]%lookup_singleton_Some. by vm_compute.
Qed.
Lemma nss_groups_sound_witness :
  sample_lines = [root_line; "devs:x:2001:alice,alice@EXAMPLE.COM,root";
    "g513:x:513:alice,alice@EXAMPLE.COM"; "g2002:x:2002:alice,alice@EXAMPLE.COM"; "u1001:x:1001:"]
  /\ NoDup (omap (fun line => gr_gid <$> parse_group_row line) sample_lines).
Proof.
  split; [by vm_compute|].
  apply (nss_groups_sound iter_forward (Some (groups sample_snap)) sample_cache sample_ids),
    sample_no_gid0.
Defined.

(** An LDAP group with gidNumber 0 is emitted beside the root row, members
    included: its members become members of the root group. *)
Theorem ldap_gid0_members_join_root :
  let gs : gmap string PosixGroupEntry :=
    {[ "wheel" := {| g_gid := 0; g_display := "wheel"; g_members := ["alice"] |} ]} in
  map group_text (snd (build_nss_snapshot (HashIter0 := iter_forward) (Some gs) ∅))
  = [root_line; "wheel:x:0:alice"].
Proof. by vm_compute. Qed.

(** ** Completeness *)
Section Complete.
Context `{!HashIter string} (ldap : option (gmap string PosixGroupEntry)) (c : IdCache).

(** A row that is not root's lists everything collected for its gid, unless it
    is the private group of a uid. *)
Definition complete_row (l : GroupLine) : Prop :=
  gl_gid l = 0
  \/ (forall x, x ∈ members_of (members_by_gid c) (gl_gid l) -> x ∈ gl_members l)
  \/ (gl_gid l ∉ ldap_gids ldap /\ exists r, r ∈ nss_items c /\ r_uid r = gl_gid l /\ r_uid r <> r_gid r).

Lemma complete_claim r g : complete_row (claim_row ldap c r g).
Proof.
  unfold claim_row. destruct (Z.eqb_spec g 0) as [->|Hne]; [by left|]. right. left.
  destruct (is_machine r); cbn [negb]; intros x Hx; cbn [gl_gid gl_members group_line_with_members] in *.
  - apply elem_of_push_if_new. by left.
  - destruct (_ && _); repeat (apply elem_of_push_if_new; left); done.
Qed.
Lemma complete_inv : rows_inv complete_row (ldap_gids ldap) (build_rows ldap c).
Proof.
  apply build_inv.
  - intros e He. right. left. intros x Hx. cbn. apply elem_of_push_all. by right.
  - intros r g _ _ _. apply complete_claim.
  - intros r Hr _ Hne Hl. right. right. split; [done|]. by exists r.
  - intros g _ _. right. left. intros x Hx. cbn. apply elem_of_push_if_new. by left.
Qed.
End Complete.

(** No principal has the number [g] as its uid, unless it is its gid too or
    LDAP names a group [g]. *)
Definition not_a_uid (ldap : option (gmap string PosixGroupEntry)) (c : IdCache) (g : Z) : Prop :=
  (forall k r, c !! k = Some r -> r_uid r = g -> r_gid r = g)
  \/ (exists gs k e, ldap = Some gs /\ gs !! k = Some e /\ as_u32 (g_gid e) = g).

(** C34: memberships in the cache reach the group store.  Let the ids in the cache be
    32-bit numbers, and take a principal of the cache that has a realm and a name
    that is not a number, and a gid that it claims, its own or a supplementary
    one, other than 0 (group 0 is the fixed row of root, which no principal joins)
    and not also the uid of a principal with another gid, unless LDAP names a
    group of that gid.  Then the store has a line with that gid that lists all
    that the principal contributes to it: the logins of a user that are not numbers,
    and root, not its own names, for a machine; so getgrouplist finds them there. *)
Theorem nss_groups_complete (h : HashIter string) ldap c k r g :
  ids_ok c -> c !! k = Some r -> principal_has_realm (r_principal r) = true ->
  is_numeric_local_principal (r_principal r) = false ->
  g ∈ claims r -> g <> 0 -> not_a_uid ldap c g ->
  exists line row, line ∈ map group_text (snd (build_nss_snapshot ldap c))
    /\ parse_group_row line = Some row /\ gr_gid row = g
    /\ forall x, contributes r g x -> x ∈ gr_members row.
Proof.
  intros Hids Hk Hr Hn Hg H0 Hu.
  assert (Hit : r ∈ nss_items c) by (apply elem_of_nss_items; eauto).
  pose proof (build_sees ldap c r g Hit Hn Hg) as Hs.
  pose proof (complete_inv ldap c) as [Hrows _ Hseen _ _].
  destruct (Hseen g Hs) as [?|(l & -> & Hl)%list_elem_of_fmap]; [done|].
  rewrite Forall_forall in Hrows. specialize (Hrows l Hl).
  pose proof (inv_rows _ _ _ (sound_inv ldap c Hids)) as Hsound. rewrite Forall_forall in Hsound.
  destruct (Hsound l Hl) as (Hclean & _).
  exists (group_text l). eexists. split_and!; [|by apply parse_group_text|done|].
  - apply list_elem_of_fmap_2, elem_of_group_rows. right. split; [done|].
    apply not_true_iff_false. intros Hp%root_prefix; done.
  - intros x Hx. cbn. destruct Hrows as [?|[Hm|(Hl' & r' & [[k' Hk'] _]%elem_of_nss_items & He & Hne)]];
      [done| |].
    + apply Hm, elem_of_members_by_gid. left. eauto.
    + exfalso. destruct Hu as [Hu|(gs & k2 & e & Hgs & Hk2 & He2)].
      * apply Hne. rewrite He. symmetry. by apply (Hu k').
      * apply Hl'. destruct (ldap_entries_total ldap gs k2 e Hgs Hk2) as (e' & He' & Heq).
        unfold ldap_gids. apply list_elem_of_fmap. exists e'. by rewrite Heq.
Qed.
Lemma nss_groups_complete_witness :
  exists line row, line ∈ sample_lines /\ parse_group_row line = Some row /\ gr_gid row = 2002
    /\ forall x, contributes sample_row 2002 x -> x ∈ gr_members row.
Proof.
  apply (nss_groups_complete iter_forward (Some (groups sample_snap)) sample_cache
           "alice@EXAMPLE.COM" sample_row 2002 sample_ids);
    [by vm_compute|by vm_compute|by vm_compute|by_elem|done|].
  left. intros k r. unfold sample_cache, cache_insert.
  intros [[_ <-]|[_ [[_ <-]|[_ Hk]]%lookup_insert_Some]]%lookup_insert_Some;
    [done|done|by rewrite lookup_empty in Hk].
Defined.

(** Bob's group 1001 has the number of Alice's uid and is not in the snapshot:
    Alice's row comes first and takes the gid for her private group. *)
Definition bob_row : Resolved :=
  {| r_principal := "bob@EXAMPLE.COM"; r_name := "bob"; r_uid := 1002; r_gid := 513;
     r_kind := User; r_source := "sss"; r_supps := [1001] |}.
(** A membership in a gid that is also another user's uid is lost when LDAP
    names no such group: the gid's only line is the empty private group. *)
Theorem uid_group_hides_members :
  let c := cache_insert bob_row (cache_insert sample_row ∅) in
  1001 ∈ claims bob_row
  /\ map group_text (snd (build_nss_snapshot (HashIter0 := iter_forward) None c))
     = [root_line; "g513:x:513:alice,alice@EXAMPLE.COM,bob,bob@EXAMPLE.COM";
        "g2001:x:2001:alice,alice@EXAMPLE.COM"; "g2002:x:2002:alice,alice@EXAMPLE.COM";
        "u1001:x:1001:"; "u1002:x:1002:"].
Proof. cbv zeta. split; [by_elem|by vm_compute]. Qed.

(** ** The passwd store *)
Section Passwd.
Context `{!HashIter string} (ldap : option (gmap string PosixGroupEntry)) (c : IdCache).

(** A synthetic row of a cached principal. *)
Definition passwd_row_of (l : PasswdLine) : Prop :=
  exists r, r ∈ nss_items c /\ pl_login l ∈ nss_passwd_logins_for r
    /\ l = synthetic_line (pl_login l) (r_uid r) (r_gid r) (gecos_for r).
Record passwd_inv (b : Build) : Prop := {
  pinv_nodup : NoDup (map pl_login (b_passwd b));
  pinv_seen : forall x, x ∈ b_login b <-> x ∈ map pl_login (b_passwd b);
  pinv_rows : Forall passwd_row_of (b_passwd b);
}.
Lemma pinv_ext b b' :
  b_login b' = b_login b -> b_passwd b' = b_passwd b -> passwd_inv b -> passwd_inv b'.
Proof. intros Hl Hp []. by split; rewrite ?Hl, ?Hp. Qed.
Lemma pinv_add r login b :
  r ∈ nss_items c -> login ∈ nss_passwd_logins_for r -> passwd_inv b -> passwd_inv (add_passwd r b login).
Proof.
  intros Hr Hl Hb. unfold add_passwd. destruct (is_numeric_login login); [done|]. cbn [orb].
  case_bool_decide as Hs; [done|]. destruct Hb as [H1 H2 H3]. split; cbn; rewrite ?map_app; cbn [map].
  - apply NoDup_app. split_and!; [done| |repeat constructor; by intros ?%not_elem_of_nil].
    intros x Hx%H2 ->%list_elem_of_singleton. done.
  - intros x. rewrite elem_of_union, elem_of_app, elem_of_singleton, list_elem_of_singleton, H2. done.
  - apply Forall_app. split; [done|]. constructor; [|constructor]. by exists r.
Qed.
Lemma add_group_passwd g row b :
  b_login (add_group g row b) = b_login b /\ b_passwd (add_group g row b) = b_passwd b.
Proof. unfold add_group. by case_match. Qed.
Lemma add_groups_passwd {A} (gid : A -> Z) (row : A -> GroupLine) l b :
  b_login (foldl (fun b a => add_group (gid a) (row a) b) b l) = b_login b
  /\ b_passwd (foldl (fun b a => add_group (gid a) (row a) b) b l) = b_passwd b.
Proof.
  revert b. induction l as [|a l IH]; intros b; [done|]. cbn [foldl].
  destruct (IH (add_group (gid a) (row a) b)) as [-> ->]. apply add_group_passwd.
Qed.
Lemma uid_group_passwd r b :
  b_login (uid_group r b) = b_login b /\ b_passwd (uid_group r b) = b_passwd b.
Proof. unfold uid_group. repeat case_match; try done. apply add_group_passwd. Qed.
(** An item touches the passwd rows only through its logins. *)
Lemma item_step_passwd b r :
  let b' := if is_numeric_local_principal (r_principal r) then b
            else foldl (add_passwd r) b (nss_passwd_logins_for r) in
  b_login (item_step ldap c b r) = b_login b' /\ b_passwd (item_step ldap c b r) = b_passwd b'.
Proof.
  cbv zeta. unfold item_step. case_match; [done|]. cbv zeta.
  rewrite !(proj1 (uid_group_passwd _ _)), !(proj2 (uid_group_passwd _ _)).
  apply (add_groups_passwd (fun g => g) (claim_row ldap c r)).
Qed.
Definition build_items : Build :=
  foldl (item_step ldap c) (foldl (ldap_step c) build0 (ldap_entries ldap)) (nss_items c).
Lemma build_rows_passwd :
  b_login (build_rows ldap c) = b_login build_items
  /\ b_passwd (build_rows ldap c) = b_passwd build_items.
Proof. apply (add_groups_passwd (fun g => g)). Qed.
Lemma pinv_build : passwd_inv (build_rows ldap c).
Proof.
  destruct build_rows_passwd. eapply pinv_ext; [done|done|]. unfold build_items.
  apply (foldl_inv passwd_inv).
  - intros b r Hr Hb. destruct (item_step_passwd b r). eapply pinv_ext; [done|done|].
    case_match; [done|]. apply (foldl_inv passwd_inv); [|done]. intros. by apply pinv_add.
  - destruct (add_groups_passwd (fun e => as_u32 (g_gid e))
      (ldap_row (users_by_gid c) (members_by_gid c)) (ldap_entries ldap) build0).
    eapply pinv_ext; [done|done|]. split; cbn; [constructor|set_solver|constructor].
Qed.

Lemma add_passwd_mono r b login x : x ∈ b_login b -> x ∈ b_login (add_passwd r b login).
Proof. unfold add_passwd. case_match; cbn; set_solver. Qed.
Lemma add_passwd_sees r b login :
  is_numeric_login login = false -> login ∈ b_login (add_passwd r b login).
Proof.
  intros H. unfold add_passwd. rewrite H. cbn [orb]. case_bool_decide; cbn; set_solver.
Qed.
Lemma build_logins r x :
  r ∈ nss_items c -> is_numeric_local_principal (r_principal r) = false ->
  x ∈ nss_passwd_logins_for r -> is_numeric_login x = false ->
  x ∈ b_login (build_rows ldap c).
Proof.
  intros (l1 & l2 & Hi)%list_elem_of_split Hn Hx Hxn. rewrite (proj1 build_rows_passwd).
  assert (Hm : forall b r, x ∈ b_login b -> x ∈ b_login (item_step ldap c b r)).
  { intros b r' Hb. rewrite (proj1 (item_step_passwd b r')). case_match; [done|].
    apply (foldl_inv (fun b => x ∈ b_login b)); [intros; by apply add_passwd_mono|done]. }
  unfold build_items. rewrite Hi, foldl_app. cbn [foldl].
  apply (foldl_inv (fun b => x ∈ b_login b)); [intros; by apply Hm|].
  rewrite (proj1 (item_step_passwd _ r)), Hn.
  apply list_elem_of_split in Hx as (k1 & k2 & ->). rewrite foldl_app. cbn [foldl].
  apply (foldl_inv (fun b => x ∈ b_login b)); [intros; by apply add_passwd_mono|].
  by apply add_passwd_sees.
Qed.
End Passwd.

Lemma login_prefix name l :
  contains_char ":" name = false -> contains_char ":" (pl_login l) = false ->
  starts_with (name +:+ ":") (passwd_text l) = seqb name (pl_login l).
Proof.
  intros Hn Hl. apply eq_true_iff_eq. rewrite starts_with_spec, seqb_eq. unfold passwd_text.
  change (":x:" +:+ ?x) with (String ":" ("x:" +:+ x)). split.
  - intros [s Hs]. rewrite sapp_assoc in Hs. change (":" +:+ s) with (String ":" s) in Hs.
    apply (f_equal (split_once ":")) in Hs. rewrite !split_once_app in Hs by done. congruence.
  - intros <-. eexists. rewrite sapp_assoc. change (":" +:+ ?x) with (String ":" x). done.
Qed.
Lemma remove_first_login name l :
  NoDup (map pl_login l) -> Forall (fun p => contains_char ":" (pl_login p) = false) l ->
  contains_char ":" name = false ->
  remove_first (fun p => starts_with (name +:+ ":") (passwd_text p)) l
  = List.filter (fun p => negb (seqb name (pl_login p))) l.
Proof.
  intros Hn Hc Hname. induction Hc as [|x l Hx Hc IH]; [done|]. cbn [remove_first List.filter].
  apply NoDup_cons in Hn as [Hnx Hn]. rewrite login_prefix by done.
  destruct (seqb name (pl_login x)) eqn:E; cbn [negb]; [|by rewrite IH].
  apply seqb_eq in E as ->. clear IH Hn Hc Hx. induction l as [|y l IH]; [done|]. cbn [List.filter].
  destruct (seqb (pl_login x) (pl_login y)) eqn:E.
  - apply seqb_eq in E. destruct Hnx. rewrite E. left.
  - cbn [negb]. f_equal. apply IH. intros ?. apply Hnx. by right.
Qed.

(** Machine principals have no colon before the [@]. *)
Definition no_colon (c : IdCache) : Prop :=
  forall k r, c !! k = Some r -> contains_char ":" (principal_local_part (r_principal r)) = false.

Section FinishPasswd.
Context `{!HashIter string} (ldap : option (gmap string PosixGroupEntry)) (c : IdCache).
Context (Hcol : no_colon c).

Lemma login_no_colon r x :
  r ∈ nss_items c -> x ∈ nss_passwd_logins_for r -> contains_char ":" x = false.
Proof.
  intros [[k Hk] _]%elem_of_nss_items. unfold nss_passwd_logins_for.
  rewrite elem_of_sort_dedup_s, elem_of_app, list_elem_of_singleton.
  pose proof (clean_no_char _ ":" (sanitize_clean (r_name r)) eq_refl) as H1.
  pose proof (clean_no_char _ ":" (realm_login_clean (r_principal r)) eq_refl) as H2.
  pose proof (Hcol k r Hk) as H3. intros [->|Hx]; [done|].
  repeat case_match; rewrite ?elem_of_app, ?list_elem_of_singleton, ?elem_of_nil in Hx; naive_solver.
Qed.
Lemma build_no_colon :
  Forall (fun p => contains_char ":" (pl_login p) = false) (b_passwd (build_rows ldap c)).
Proof.
  eapply Forall_impl; [apply pinv_rows, pinv_build|]. intros l (r & Hr & Hx & _).
  by eapply login_no_colon.
Qed.
(** The rows after root: those of the principals, root's own login excepted. *)
Definition principal_rows : list PasswdLine :=
  List.filter (fun p => negb (seqb "root" (pl_login p))) (b_passwd (build_rows ldap c)).
Lemma passwd_rows_eq :
  fst (build_nss_snapshot ldap c)
  = root_passwd :: principal_rows
    ++ (if bool_decide ("nobody" ∈ map pl_login principal_rows) then [] else [nobody_passwd]).
Proof.
  unfold build_nss_snapshot, finish_passwd. cbn [fst]. pose proof build_no_colon as Hc.
  pose proof (pinv_nodup _ _ (pinv_build ldap c)) as Hn.
  set (bp := b_passwd (build_rows ldap c)) in *.
  assert (Hr : (if existsb (fun l => starts_with "root:" (passwd_text l)) bp
    then remove_first (fun l => starts_with "root:" (passwd_text l)) bp else bp) = principal_rows).
  { change "root:" with ("root" +:+ ":"). rewrite remove_first_login by done. unfold principal_rows.
    destruct (existsb _ bp) eqn:E; [done|]. fold bp. symmetry.
    clear Hn. induction Hc as [|x l Hx Hc IH]; [done|]. cbn [existsb List.filter] in *.
    apply orb_false_iff in E as [E1 E2]. rewrite login_prefix in E1 by done.
    rewrite E1. cbn [negb]. by rewrite IH. }
  rewrite Hr. cbn [existsb]. change (starts_with "nobody:" (passwd_text root_passwd)) with false.
  cbn [orb]. assert (He : existsb (fun l => starts_with "nobody:" (passwd_text l)) principal_rows
    = bool_decide ("nobody" ∈ map pl_login principal_rows)).
  { apply eq_true_iff_eq. rewrite existsb_exists, bool_decide_eq_true, list_elem_of_fmap.
    change "nobody:" with ("nobody" +:+ ":"). rewrite Forall_forall in Hc. split.
    - intros (l & Hl%list_elem_of_In & Hp). exists l. split; [|done].
      rewrite login_prefix in Hp; [by apply seqb_eq|done|].
      apply Hc. by apply elem_of_filter_In in Hl as [? _].
    - intros (l & Hl & Hin). exists l. split; [by apply list_elem_of_In|].
      rewrite login_prefix; [by apply seqb_eq|done|].
      apply Hc. by apply elem_of_filter_In in Hin as [? _]. }
  rewrite He. case_bool_decide; [by rewrite app_nil_r|done].
Qed.
Lemma elem_of_principal_rows l :
  l ∈ principal_rows <-> l ∈ b_passwd (build_rows ldap c) /\ pl_login l <> "root".
Proof.
  unfold principal_rows. rewrite elem_of_filter_In, negb_true_iff, seqb_neq. naive_solver.
Qed.
Lemma passwd_logins_nodup : NoDup (map pl_login (fst (build_nss_snapshot ldap c))).
Proof.
  rewrite passwd_rows_eq. cbn [map].
  assert (Hp : NoDup (map pl_login principal_rows)).
  { by apply NoDup_map_filter, (pinv_nodup c), pinv_build. }
  rewrite map_app. constructor.
  - rewrite elem_of_app. intros [(l & Hl & [_ ?]%elem_of_principal_rows)%list_elem_of_fmap|Hx].
    + by apply H.
    + by case_bool_decide; apply list_elem_of_In in Hx; destruct Hx.
  - apply NoDup_app. split_and!; [done| |case_bool_decide; repeat constructor; by intros ?%not_elem_of_nil].
    intros x Hx Hin. case_bool_decide as Hb; [by apply not_elem_of_nil in Hin|].
    apply list_elem_of_singleton in Hin as ->. done.
Qed.
End FinishPasswd.

(** The passwd store starts with the fixed root line, has one line per
    login, and apart from root and the fallback nobody every line is of a
    cached principal, under one of its logins and with its uid and gid; no
    principal can take the login root; and every login of every principal with
    a realm and a name that is not a number has a line. *)
Theorem nss_passwd_rows (h : HashIter string) ldap c :
  no_colon c ->
  let rows := fst (build_nss_snapshot ldap c) in
  head rows = Some root_passwd /\ NoDup (map pl_login rows)
  /\ (forall l, l ∈ rows -> l = root_passwd \/ l = nobody_passwd
        \/ exists k r, c !! k = Some r /\ principal_has_realm (r_principal r) = true
             /\ pl_login l ∈ nss_passwd_logins_for r /\ pl_login l <> "root"
             /\ l = synthetic_line (pl_login l) (r_uid r) (r_gid r) (gecos_for r))
  /\ (forall k r x, c !! k = Some r -> principal_has_realm (r_principal r) = true ->
        is_numeric_local_principal (r_principal r) = false ->
        x ∈ nss_passwd_logins_for r -> is_numeric_login x = false -> x ∈ map pl_login rows).
Proof.
  intros Hcol. cbv zeta. split_and!.
  - by rewrite passwd_rows_eq.
  - by apply passwd_logins_nodup.
  - intros l. rewrite passwd_rows_eq by done.
    rewrite elem_of_cons, elem_of_app. intros [->|[[Hl Hne]%elem_of_principal_rows|Hl]]; [by left| |].
    + right. right. pose proof (pinv_rows _ _ (pinv_build ldap c)) as Hr. rewrite Forall_forall in Hr.
      destruct (Hr l Hl) as (r & [[k Hk] Hre]%elem_of_nss_items & Hx & Heq). eauto 10.
    + case_bool_decide; [by apply not_elem_of_nil in Hl|]. apply list_elem_of_singleton in Hl. auto.
  - intros k r x Hk Hre Hn Hx Hxn. rewrite passwd_rows_eq by done. cbn [map].
    destruct (decide (x = "root")) as [->|Hne]; [left|right].
    rewrite map_app. apply elem_of_app. left.
    assert (Hb : x ∈ b_login (build_rows ldap c)).
    { apply (build_logins ldap c r); [apply elem_of_nss_items; eauto|done..]. }
    apply (pinv_seen _ _ (pinv_build ldap c)), list_elem_of_fmap in Hb as (l & -> & Hl).
    by apply list_elem_of_fmap_2, elem_of_principal_rows.
Qed.
Lemma sample_no_colon : no_colon sample_cache.
Proof.
  intros k r. unfold sample_cache, cache_insert.
  intros [[_ <-]|[_ [[_ <-]|[_ Hk]]%lookup_insert_Some]]%lookup_insert_Some;
    [done|done|by rewrite lookup_empty in Hk].
Qed.
Lemma nss_passwd_rows_witness :
  let rows := fst (build_nss_snapshot (HashIter0 := iter_forward) None sample_cache) in
  map passwd_text rows
  = ["root:x:0:0:root:/root:/bin/sh";
     "alice:x:1001:513:alice@EXAMPLE.COM:/nonexistent:/usr/sbin/nologin";
     "alice@EXAMPLE.COM:x:1001:513:alice@EXAMPLE.COM:/nonexistent:/usr/sbin/nologin";
     "c1.example.com:x:0:0:host/c1.example.com@EXAMPLE.COM:/nonexistent:/usr/sbin/nologin";
     "host/c1.example.com:x:0:0:host/c1.example.com@EXAMPLE.COM:/nonexistent:/usr/sbin/nologin";
     "host/c1.example.com@EXAMPLE.COM:x:0:0:host/c1.example.com@EXAMPLE.COM:/nonexistent:/usr/sbin/nologin";
     "nobody:x:65534:65534:nfs-klldap fallback:/nonexistent:/usr/sbin/nologin"]
  /\ NoDup (map pl_login rows).
Proof.
  cbv zeta. split; [by vm_compute|].
  apply (nss_passwd_rows iter_forward None sample_cache sample_no_colon).
Defined.

(** ** Determinism

    The stores are compared with their old content before they are written, so
    two builds of the same data have to print the same bytes. *)
Lemma min_fold {A} (l : list (string * A)) best :
  match foldl min_step best l with
  | Some kv => (kv ∈ l \/ best = Some kv) /\ (forall kv', kv' ∈ l -> sleb (fst kv) (fst kv') = true)
               /\ (forall b, best = Some b -> sleb (fst kv) (fst b) = true)
  | None => l = [] /\ best = None
  end.
Proof.
  revert best. induction l as [|kv l IH]; intros best; cbn [foldl].
  - destruct best as [b|]; [|done]. split_and!; [by right|by intros ? ?%not_elem_of_nil|].
    intros b' [= <-]. by destruct (leb_total (leb := sleb) (fst b) (fst b)).
  - specialize (IH (min_step best kv)).
    destruct (foldl _ _ l) as [m|]; [|destruct IH as [_ IH]; unfold min_step in IH; by repeat case_match].
    destruct IH as (Hin & Hl & Hb). unfold min_step in *. destruct best as [b|].
    + destruct (sleb (fst b) (fst kv)) eqn:E; split_and!.
      * destruct Hin as [?|?]; [left; by right|by right].
      * intros kv' [->|?]%elem_of_cons; [|auto]. eapply leb_trans; [by apply Hb|done].
      * done.
      * left. destruct Hin as [?|[= ->]]; [by right|left].
      * intros kv' [->|?]%elem_of_cons; auto.
      * intros b' [= <-]. eapply leb_trans; [by apply Hb|].
        destruct (leb_total (leb := sleb) (fst b) (fst kv)); [congruence|done].
    + split_and!; [|intros kv' [->|?]%elem_of_cons; auto|done].
      left. destruct Hin as [?|[= ->]]; [by right|left].
Qed.
Lemma min_by_key_spec {A} (l : list (string * A)) :
  match min_by_key l with
  | Some kv => kv ∈ l /\ forall kv', kv' ∈ l -> sleb (fst kv) (fst kv') = true
  | None => l = []
  end.
Proof.
  pose proof (min_fold l None) as H. unfold min_by_key.
  destruct (foldl _ None l) as [kv|]; [|by destruct H]. destruct H as ([?|?] & ? & _); done.
Qed.
Lemma filter_perm {A} (p : A -> bool) l l' : l ≡ₚ l' -> List.filter p l ≡ₚ List.filter p l'.
Proof. induction 1; cbn; repeat case_match; eauto using Permutation. Qed.
Lemma min_by_key_canonical {A} (l1 l2 : list (string * A)) :
  l1 ≡ₚ l2 -> NoDup (map fst l1) -> min_by_key l1 = min_by_key l2.
Proof.
  intros Hp Hn. pose proof (min_by_key_spec l1) as H1. pose proof (min_by_key_spec l2) as H2.
  destruct (min_by_key l1) as [x|], (min_by_key l2) as [y|].
  - destruct H1 as [Hx H1], H2 as [Hy H2]. f_equal.
    assert (Hf : fst x = fst y).
    { apply (leb_antisym (leb := sleb)); [apply H1; by rewrite Hp|apply H2; by rewrite <- Hp]. }
    rewrite <- Hp in Hy. apply list_elem_of_lookup in Hx as [i Hi], Hy as [j Hj].
    assert (i = j) as ->; [|congruence].
    eapply (NoDup_lookup _ i j (fst x) Hn); rewrite list_lookup_fmap; [by rewrite Hi|by rewrite Hj, Hf].
  - subst l2. destruct H1 as [H1 _]. rewrite Hp in H1. by apply not_elem_of_nil in H1.
  - subst l1. destruct H2 as [H2 _]. rewrite <- Hp in H2. by apply not_elem_of_nil in H2.
  - done.
Qed.
Lemma root_supps_nodup l s : NoDup s -> NoDup (foldl root_supps_step s l).
Proof.
  intros Hs. apply (foldl_inv (fun s => NoDup s)); [|done]. clear. intros s r _ Hs.
  unfold root_supps_step. case_match; [|done]. apply (foldl_inv (fun s => NoDup s)); [|done].
  clear. intros s g _ Hs. destruct (negb (g =? 0)); cbn [andb]; [|done].
  destruct (existsb (Z.eqb g) s) eqn:E; [done|]. apply NoDup_app. split_and!; [done| |].
  - intros x Hx ->%list_elem_of_singleton. apply existsb_zeqb in Hx. congruence.
  - repeat constructor. by intros ?%not_elem_of_nil.
Qed.
Lemma foldl_ext_all {A B} (f g : B -> A -> B) l b :
  (forall b a, f b a = g b a) -> foldl f b l = foldl g b l.
Proof. intros H. revert b. induction l as [|a l IH]; intros b; cbn; [done|]. by rewrite H, IH. Qed.

Section Canonical.
Context (h1 h2 : HashIter string) (ldap : option (gmap string PosixGroupEntry)) (c : IdCache).
Context (Hk : keyed c).

Lemma nss_items_canonical : nss_items (HashIter0 := h1) c = nss_items (HashIter0 := h2) c.
Proof.
  unfold nss_items. apply sort_key_canonical; [exact _| |].
  - apply filter_perm, hvalues_perm.
  - apply NoDup_map_filter. by apply keyed_principals.
Qed.
Lemma root_supps_canonical : root_supps (HashIter0 := h1) c = root_supps (HashIter0 := h2) c.
Proof.
  unfold root_supps, root_supplemental_gids_from_cache.
  apply (sort_key_canonical (fun g : Z => g) Z.leb).
  - apply NoDup_Permutation; [apply root_supps_nodup; constructor..|].
    intros g. rewrite !elem_of_root_supps_fold. setoid_rewrite elem_of_hvalues. done.
  - rewrite map_id. apply root_supps_nodup. constructor.
Qed.
Lemma members_canonical : members_by_gid (HashIter0 := h1) c = members_by_gid (HashIter0 := h2) c.
Proof. unfold members_by_gid. by rewrite nss_items_canonical, root_supps_canonical. Qed.
Lemma ldap_entries_canonical :
  ldap_entries (HashIter0 := h1) ldap = ldap_entries (HashIter0 := h2) ldap.
Proof.
  unfold ldap_entries. destruct ldap as [gs|]; [|done]. do 2 f_equal.
  apply sort_key_canonical; [exact _|by rewrite !hiter_perm|].
  change (NoDup ((hiter (HashIter := h1) gs).*1)).
  rewrite hiter_perm. apply NoDup_fst_map_to_list.
Qed.
Lemma gname_canonical g fallback :
  gname_for_gid (HashIter0 := h1) g ldap fallback = gname_for_gid (HashIter0 := h2) g ldap fallback.
Proof.
  unfold gname_for_gid. destruct ldap as [gs|]; [|done]. case_match; [done|].
  rewrite (min_by_key_canonical
    (List.filter (fun kv => as_u32 (g_gid (snd kv)) =? g) (@hiter _ _ _ h1 _ gs))
    (List.filter (fun kv => as_u32 (g_gid (snd kv)) =? g) (@hiter _ _ _ h2 _ gs))); [done| |].
  - apply filter_perm. by rewrite !hiter_perm.
  - apply NoDup_map_filter. change (NoDup ((@hiter _ _ _ h1 _ gs).*1)).
    rewrite hiter_perm. apply NoDup_fst_map_to_list.
Qed.
Lemma claim_row_canonical r g :
  claim_row (HashIter0 := h1) ldap c r g = claim_row (HashIter0 := h2) ldap c r g.
Proof. unfold claim_row. by rewrite members_canonical, gname_canonical. Qed.
Lemma build_rows_canonical :
  build_rows (HashIter0 := h1) ldap c = build_rows (HashIter0 := h2) ldap c.
Proof.
  unfold build_rows. rewrite nss_items_canonical, root_supps_canonical, ldap_entries_canonical.
  assert (foldl (ldap_step (HashIter0 := h1) c) build0 (ldap_entries (HashIter0 := h2) ldap)
          = foldl (ldap_step (HashIter0 := h2) c) build0 (ldap_entries (HashIter0 := h2) ldap)) as ->.
  { apply foldl_ext_all. intros b e. unfold ldap_step, users_by_gid.
    by rewrite members_canonical, nss_items_canonical. }
  erewrite (foldl_ext_all (item_step (HashIter0 := h1) ldap c)).
  - apply foldl_ext_all. intros b g. unfold root_supp_step. by rewrite members_canonical, gname_canonical.
  - intros b r. unfold item_step. case_match; [done|]. cbv zeta. f_equal.
    apply foldl_ext_all. intros b' g. by rewrite claim_row_canonical.
Qed.
End Canonical.

(** The rows do not depend on the order in which any hash map is visited,
    so repeated builds of the same data print the same bytes. *)
Theorem build_deterministic (h1 h2 : HashIter string) ldap c :
  keyed c ->
  build_nss_snapshot (HashIter0 := h1) ldap c = build_nss_snapshot (HashIter0 := h2) ldap c.
Proof. intros Hk. unfold build_nss_snapshot. by rewrite (build_rows_canonical h1 h2). Qed.
Lemma build_deterministic_witness :
  build_nss_snapshot (HashIter0 := iter_forward) (Some (groups sample_snap)) sample_cache
  = build_nss_snapshot (HashIter0 := iter_backward) (Some (groups sample_snap)) sample_cache.
Proof. apply build_deterministic. unfold sample_cache. auto with rust. Defined.

(** ** Writing the stores *)
Lemma write_atomic_frame w path content d r d' p :
  write_atomic_if_changed w path content d = (r, d') ->
  p <> path -> p <> with_extension "new" path -> d' !! p = d !! p.
Proof.
  unfold write_atomic_if_changed. intros H Hp Ht. repeat case_match; simplify_eq; try done;
    by rewrite ?lookup_insert_ne, ?lookup_delete_ne, ?lookup_insert_ne by done.
Qed.
Lemma write_atomic_path w path content d r d' :
  write_atomic_if_changed w path content d = (r, d') -> with_extension "new" path <> path ->
  (is_ok r = true -> d' !! path = Some content) /\ (is_ok r = false -> d' !! path = d !! path)
  /\ (r = Ok false -> d' = d).
Proof.
  unfold write_atomic_if_changed. intros H Ht.
  case_bool_decide; [by simplify_eq|].
  repeat case_match; simplify_eq; split_and!; try done; intros _;
    by rewrite ?lookup_insert_eq, ?lookup_insert_ne.
Qed.

Definition safe_paths (l : list (string * string)) : Prop :=
  NoDup (map fst l)
  /\ forall p q, p ∈ map fst l -> q ∈ map fst l -> with_extension "new" p <> q.
Lemma safe_paths_cons kv l : safe_paths (kv :: l) -> safe_paths l.
Proof.
  intros [[_ Hn]%NoDup_cons Ht]. split; [done|]. intros p q Hp Hq. apply Ht; by right.
Qed.
Lemma write_stores_frame ws wrote l d r d' p :
  write_stores ws wrote l d = (r, d') ->
  p ∉ map fst l -> (forall q, q ∈ map fst l -> with_extension "new" q <> p) -> d' !! p = d !! p.
Proof.
  revert wrote d. induction l as [|[q content] l IH]; intros wrote d; cbn [write_stores map fst].
  { by intros [= _ <-]. }
  destruct (write_atomic_if_changed (ws q) q content d) as [rb d1] eqn:E. intros H Hp Ht.
  assert (H1 : d1 !! p = d !! p).
  { eapply write_atomic_frame; [exact E|set_solver|]. intros ->. eapply Ht; [left|done]. }
  destruct rb as [b|e]; [|by simplify_eq]. rewrite <- H1. eapply IH; [exact H|set_solver|].
  intros q' Hq'. apply Ht. by right.
Qed.
Lemma write_stores_ok ws wrote l d b d' :
  safe_paths l -> write_stores ws wrote l d = (Ok b, d') ->
  (forall p content, (p, content) ∈ l -> d' !! p = Some content)
  /\ (wrote = true -> b = true) /\ (b = false -> d' = d).
Proof.
  revert wrote d. induction l as [|[q content] l IH]; intros wrote d Hs; cbn [write_stores].
  { intros [= <- <-]. split_and!; [by intros ? ? ?%not_elem_of_nil|done|done]. }
  destruct (write_atomic_if_changed (ws q) q content d) as [rb d1] eqn:E. intros H.
  destruct rb as [b1|e]; [|done].
  assert (Ht : with_extension "new" q <> q) by (apply Hs; left).
  destruct (write_atomic_path _ _ _ _ _ _ E Ht) as (Hq & _ & Hf).
  destruct (IH _ _ (safe_paths_cons _ _ Hs) H) as (Hl & Hw & Hb). split_and!.
  - intros p c' [[= -> ->]|Hin]%elem_of_cons; [|by apply Hl].
    rewrite (write_stores_frame _ _ _ _ _ _ q H); [by apply Hq| |].
    + destruct Hs as [[Hn _]%NoDup_cons _]. done.
    + intros q' Hq'. apply Hs; [by right|left].
  - intros ->. by apply Hw.
  - intros ->. destruct b1; [rewrite orb_true_r in Hw; by discriminate Hw|].
    by rewrite Hb, Hf.
Qed.
Lemma write_stores_skip ws l d :
  (forall p content, (p, content) ∈ l -> d !! p = Some content) ->
  write_stores ws false l d = (Ok false, d).
Proof.
  induction l as [|[q content] l IH]; intros H; [done|]. cbn [write_stores].
  unfold write_atomic_if_changed. rewrite bool_decide_eq_true_2 by (apply H; left). cbn [orb].
  apply IH. intros p c' Hin. apply H. by right.
Qed.
(** Whatever fails, a store holds its old or its complete new content. *)
Lemma write_stores_atomic ws wrote l d r d' p content :
  safe_paths l -> write_stores ws wrote l d = (r, d') -> (p, content) ∈ l ->
  d' !! p = d !! p \/ d' !! p = Some content.
Proof.
  revert wrote d. induction l as [|[q c1] l IH]; intros wrote d Hs; [by intros _ ?%not_elem_of_nil|].
  cbn [write_stores]. destruct (write_atomic_if_changed (ws q) q c1 d) as [rb d1] eqn:E.
  assert (Ht : with_extension "new" q <> q) by (apply Hs; left).
  destruct (write_atomic_path _ _ _ _ _ _ E Ht) as (Hq & Hq' & _).
  intros H [[= -> ->]|Hin]%elem_of_cons.
  - destruct rb as [b1|e]; [|simplify_eq; left; by apply Hq'].
    right. rewrite (write_stores_frame _ _ _ _ _ _ q H); [by apply Hq| |].
    + by destruct Hs as [[Hn _]%NoDup_cons _].
    + intros q' Hq2. apply Hs; [by right|left].
  - assert (Hpl : p ∈ map fst l) by by apply (list_elem_of_fmap_2 fst _ (p, content)).
    assert (Hp : p <> q).
    { intros ->. by destruct Hs as [[Hn _]%NoDup_cons _]. }
    assert (H1 : d1 !! p = d !! p).
    { eapply write_atomic_frame; [exact E|done|]. intros ->.
      by apply (proj2 Hs q (with_extension "new" q)); [left|right|]. }
    destruct rb as [b1|e]; [|simplify_eq; by left].
    rewrite <- H1. eapply IH; [by eapply safe_paths_cons|exact H|done].
Qed.

(** A successful materialization leaves the four stores with the printed
    rows, and the next one for the same data writes nothing and leaves the disk
    untouched, whatever the iteration order; one that reports no write changed
    nothing; and after a failure every store holds its old or its complete new
    content. *)
Theorem materialize_steady (h1 h2 : HashIter string) ws ws' c paths ldap d :
  keyed c -> safe_paths (stores paths (build_nss_snapshot (HashIter0 := h1) ldap c)) ->
  match materialize_nss_wrappers_at (HashIter0 := h1) ws c paths ldap d with
  | (Ok b, d') =>
      (forall p content, (p, content) ∈ stores paths (build_nss_snapshot (HashIter0 := h1) ldap c) ->
         d' !! p = Some content)
      /\ materialize_nss_wrappers_at (HashIter0 := h2) ws' c paths ldap d' = (Ok false, d')
      /\ (b = false -> d' = d)
  | (Err _, d') =>
      forall p content, (p, content) ∈ stores paths (build_nss_snapshot (HashIter0 := h1) ldap c) ->
        d' !! p = d !! p \/ d' !! p = Some content
  end.
Proof.
  intros Hk Hs. unfold materialize_nss_wrappers_at.
  destruct (write_stores ws false _ d) as [[b|e] d'] eqn:E.
  - destruct (write_stores_ok _ _ _ _ _ _ Hs E) as (Hl & _ & Hb). split_and!; [done| |done].
    apply write_stores_skip. unfold build_nss_snapshot.
    by rewrite <- (build_rows_canonical h1 h2 ldap c Hk).
  - intros p content. by eapply write_stores_atomic.
Qed.
Definition sample_paths : NssMaterializePaths := {|
  nss_passwd := "/var/lib/nfs-klldap/nss_passwd"; nss_group := "/var/lib/nfs-klldap/nss_group";
  extrausers_passwd := "/var/lib/extrausers/passwd"; extrausers_group := "/var/lib/extrausers/group" |}.
Lemma materialize_steady_witness :
  let run := fun h d => materialize_nss_wrappers_at (HashIter0 := h) (fun _ => all_well) sample_cache
                          sample_paths (Some (groups sample_snap)) d in
  fst (run iter_forward ∅) = Ok true
  /\ run iter_backward (snd (run iter_forward ∅)) = (Ok false, snd (run iter_forward ∅)).
Proof.
  cbv zeta. split; [by vm_compute|].
  pose proof (materialize_steady iter_forward iter_backward (fun _ => all_well) (fun _ => all_well)
    sample_cache sample_paths (Some (groups sample_snap)) ∅) as H.
  destruct (materialize_nss_wrappers_at (HashIter0 := iter_forward) _ _ _ _ ∅) as [[b|e] d'] eqn:E;
    [|vm_compute in E; discriminate E].
  apply H; [unfold sample_cache; auto with rust|]. split.
  - cbn [stores map fst nss_passwd nss_group extrausers_passwd extrausers_group sample_paths].
    apply (bool_decide_unpack _). by vm_compute.
  - cbn [stores map fst nss_passwd nss_group extrausers_passwd extrausers_group sample_paths].
    intros p q Hp Hq. repeat setoid_rewrite elem_of_cons in Hp. repeat setoid_rewrite elem_of_cons in Hq.
    destruct Hp as [->|[->|[->|[->|?%not_elem_of_nil]]]]; try done; vm_compute;
    destruct Hq as [->|[->|[->|[->|?%not_elem_of_nil]]]]; done.
Defined.
