(* ===== verification/Idhelper.v ===== *)
(** * On-demand resolution and the daemon of the idhelper

    Models [bin/idhelper/resolve.rs] and [bin/idhelper/daemon.rs]: how a
    Kerberos principal becomes a uid, a gid and a list of groups, what that
    leaves in the cache, in the NSS stores and in the directory resolver, the
    bulk reload, the socket protocol and the single flight of equal requests.

    The state is the cache under its lock, the resolver of [Resolver.v], the
    disk, and a log of the commands run.  What the outside world answers is
    given per occasion: [server] for the directory, [commands] for [getent]
    and [sss_cache], [config] for the configuration file, [ws] and
    [read_fails] for the file system.  [paths] are the NSS stores and
    [cache_path] is [effective_cache_path()]; the bulk reload writes its cache to
    the fixed [CACHE_PATH].  The daemon of the model runs without NSS_PASSWD, which
    only the pipeline and the tests set: with it a request of [handle_client]
    uses the stores beside that file, the bulk reload still the production
    ones. *)

From S2P Require Import Prelude RustStr State Identity Resolver Generate IdCache Nss.
Local Open Scope Z_scope.

(** ** State *)
Record HelperConfig := { hc_inputs : LdapResolverInputs; hc_bind_dn : string; hc_authtok : string }.
(** A resolver with the credentials of its binds. *)
Record Access := { ac_resolver : ResolverConfig; ac_dn : string; ac_pw : string }.
Record Helper := MkHelper {
  h_cache : IdCache;
  h_resolver : Resolver;
  h_slot : option Access;         (** [ID_RESOLVER] *)
  h_disk : Disk;
  h_written : nat;                (** operations that changed one of the four stores *)
  h_io : nat;                     (** file operations so far *)
  h_loads : nat;                  (** configuration loads so far *)
  h_cmds : list (list string);    (** commands run *)
}.
Definition on_cache (f : IdCache -> IdCache) h :=
  let '(MkHelper c r s d w i l k) := h in MkHelper (f c) r s d w i l k.
Definition on_slot f h := let '(MkHelper c r s d w i l k) := h in MkHelper c r (f s) d w i l k.
Definition on_loads f h := let '(MkHelper c r s d w i l k) := h in MkHelper c r s d w i (f l) k.
Definition on_cmds f h := let '(MkHelper c r s d w i l k) := h in MkHelper c r s d w i l (f k).

Abbreviation H := (M Helper).
Definition with_resolver {A} (m : M Resolver A) : H A := fun h =>
  let '(MkHelper c r s d w i l k) := h in
  let '(a, r') := m r in (a, MkHelper c r' s d w i l k).
Definition store_paths (paths : NssMaterializePaths) : list string :=
  [nss_passwd paths; nss_group paths; extrausers_passwd paths; extrausers_group paths].
Definition same_stores (paths : NssMaterializePaths) (d d' : Disk) : bool :=
  forallb (fun p => bool_decide (d !! p = d' !! p)) (store_paths paths).
(** A file operation, the [h_io]-th; a store that is written changes its
    content, so its inode. *)
Definition disk_op {A} (paths : NssMaterializePaths) (f : nat -> Disk -> A * Disk) : H A := fun h =>
  let '(MkHelper c r s d w i l k) := h in
  let '(a, d') := f i d in
  (a, MkHelper c r s d' (if same_stores paths d d' then w else S w) (S i) l k).

(** The cache file unless the environment names another one. *)
Definition CACHE_PATH : string := "/var/lib/nfs-klldap/idmap.cache".

(** ** The policy *)
Definition RESOLVE_FAIL_CLOSED_SOURCE : string := "unresolved-fail-closed".
Definition RESOLVE_UNRESOLVED_UID : Z := u32_max.
Definition RESOLVE_UNRESOLVED_GID : Z := u32_max.
Definition RESOLVE_ERR_UNRESOLVED : string := "ERR unresolved principal" +:+ String nl "".
Definition is_unresolved_fail_closed (r : Resolved) : bool := seqb (r_source r) RESOLVE_FAIL_CLOSED_SOURCE.

Abbreviation Ids := (Z * Z)%type.
Definition ldap_ids (o : option Ids) : option (Z * Z * string) := (fun '(u, g) => (u, g, "ldap")) <$> o.
Definition resolve_identity_candidates (full : string) (nss_full nss_short : option (Z * Z * string))
    (test_force_ldap ldap_snap_full ldap_snap_short ldap_live_full ldap_live_short : option Ids)
  : option (Z * Z * string) :=
  let is_realm := principal_has_realm full in
  or_else nss_full
  (or_else (if is_realm then None else nss_short)
  (or_else (if contains_char "@" full then ldap_ids test_force_ldap else None)
  (or_else (ldap_ids ldap_snap_full)
  (or_else (ldap_ids ldap_live_full)
  (if is_realm then None else or_else (ldap_ids ldap_snap_short) (ldap_ids ldap_live_short)))))).
(** [env] is the value of TEST_FORCE_LDAP_UID_GID. *)
Definition test_force_ldap_uid_gid (env : option string) (full : string) : option Ids :=
  if negb (contains_char "@" full) then None
  else
    '(us, gs) ← env ≫= split_once ":";
    u ← parse_uint u32_max (trim us);
    g ← parse_uint u32_max (trim gs);
    Some (u, g).
Definition format_resolve_socket_line (r : Resolved) : string :=
  if is_unresolved_fail_closed r then RESOLVE_ERR_UNRESOLVED
  else "OK " +:+ r_principal r +:+ "|" +:+ dec (r_uid r) +:+ "|" +:+ dec (r_gid r) +:+ "|"
       +:+ kind_str (r_kind r) +:+ "|" +:+ r_source r +:+ String nl "".

Definition snap_ids (u : PosixUserEntry) : Ids := (as_u32 (u_uid u), as_u32 (u_gid u)).
Definition uid_gid_from_snapshot (snap : IdMapSnapshot) (full short : string) : option Ids :=
  match users snap !! full with
  | Some u => Some (snap_ids u)
  | None => if principal_has_realm full then None else snap_ids <$> users snap !! short
  end.
Definition ldap_snapshot_pair (snap : IdMapSnapshot) (full short : string) : option Ids * option Ids :=
  (uid_gid_from_snapshot snap full short,
   if principal_has_realm full then None else snap_ids <$> users snap !! short).
Definition merge_group_gids (primary : Z) (supplemental : list Z) : list Z :=
  foldl push_unique [primary] supplemental.
(** [u32 as i32] *)
Definition as_i32 (x : Z) : Z := if x <? 2147483648 then x else x - 4294967296.

Fixpoint lookup_passwd_lines (ls : list string) (name : string) : option Ids :=
  match ls with
  | [] => None
  | line :: r =>
      let line := trim line in
      if is_empty line || starts_with "#" line then lookup_passwd_lines r name
      else if seqb (before ":" line) name then Getent.parse_getent_passwd line
      else lookup_passwd_lines r name
  end.
Definition lookup_passwd_file (content : option string) (name : string) : option Ids :=
  text ← content; lookup_passwd_lines (lines text) name.
Definition lookup_group_in_content (content : string) (gid : Z) : option string :=
  Getent.gr_name <$> head (List.filter (fun row => Getent.gr_gid row =? gid)
                      (omap Getent.parse_group_row (lines content))).
Definition lookup_group_file (gid : Z) (paths : NssMaterializePaths) (d : Disk) : option string :=
  or_else (d !! nss_group paths ≫= (fun t => lookup_group_in_content t gid))
          (d !! extrausers_group paths ≫= (fun t => lookup_group_in_content t gid)).

Section Helper.
Context `{!HashIter string, !HashIter Z}.
Context (server : nat -> Query -> Attempt) (op_timeout_secs : Z).
Context (commands : nat -> list string -> option string).
Context (config : nat -> option HelperConfig) (env_force : option string).
Context (ws : nat -> string -> WriteWorld) (read_fails : nat -> string -> bool).
Context (paths : NssMaterializePaths) (cache_path realm : string) (server_variants : list string).

(** ** The outside world *)
(** [command_with_timeout(8, ..)]: its output when it succeeds in time. *)
Definition run_command (args : list string) : H (option string) :=
  let* n := get (fun h => length (h_cmds h)) in
  do* modify (on_cmds (fun l => l ++ [args])) in
  ret (commands n args).
Definition load_resolver_from_config (c : option HelperConfig) : option Access :=
  cfg ← c;
  if is_empty (trim (hc_bind_dn cfg)) || is_empty (trim (hc_authtok cfg)) then None
  else Some {| ac_resolver := from_inputs (hc_inputs cfg); ac_dn := hc_bind_dn cfg; ac_pw := hc_authtok cfg |}.
Definition get_or_init_resolver : H (option Access) :=
  let* slot := get h_slot in
  match slot with
  | Some a => ret (Some a)
  | None =>
      let* n := get h_loads in
      do* modify (on_loads S) in
      match load_resolver_from_config (config n) with
      | Some a => do* modify (on_slot (fun _ => Some a)) in ret (Some a)
      | None => ret None
      end
  end.
Definition r_snapshot : H IdMapSnapshot := with_resolver snapshot.
Definition r_load (a : Access) : H nat :=
  with_resolver (load_full_identities server op_timeout_secs (rc_user_base (ac_resolver a))
    (rc_group_base (ac_resolver a)) (rc_posix_attributes (ac_resolver a)) (ac_dn a) (ac_pw a)).
Definition r_user (a : Access) (name : string) : H (option (Z * option Z * string)) :=
  with_resolver (Resolver.resolve_user server op_timeout_secs (rc_user_base (ac_resolver a))
    (rc_posix_attributes (ac_resolver a)) (ac_dn a) (ac_pw a) name).
Definition r_group_by_gid (a : Access) (gid : Z) : H unit :=
  do* with_resolver (resolve_group_by_gid server op_timeout_secs (rc_group_base (ac_resolver a))
    (rc_posix_attributes (ac_resolver a)) (ac_dn a) (ac_pw a) gid) in ret tt.
Definition r_groups (a : Access) (p : string) : H (list Z) :=
  with_resolver (resolve_groups_for_principal server op_timeout_secs (rc_user_base (ac_resolver a))
    (rc_posix_attributes (ac_resolver a)) (ac_dn a) (ac_pw a) p).
Definition materialize (groups : option (gmap string PosixGroupEntry)) : H (result bool IoError) :=
  let* c := get h_cache in
  disk_op paths (fun n => materialize_nss_wrappers_at (ws n) c paths groups).
Definition ensure_member (gid : Z) (login : string) : H unit :=
  do* disk_op paths (fun n => ensure_nss_group_member_login (read_fails n) (ws n) paths gid login) in ret tt.
Definition write_cache_to (path : string) : H (result unit IoError) :=
  let* c := get h_cache in disk_op paths (fun n => write_to_file (ws n path) path c).
Definition write_cache : H (result unit IoError) := write_cache_to cache_path.

(** ** Looking a user up *)
Definition resolve_getent (name : string) : H (option (Z * Z * string)) :=
  let* out := run_command ["getent"; "passwd"; name] in
  match out ≫= (fun s => Getent.parse_getent_passwd (default "" (head (lines s)))) with
  | Some (u, g) => ret (Some (u, g, "sss"))
  | None =>
      let* d := get h_disk in
      ret (match lookup_passwd_file (d !! extrausers_passwd paths) name with
           | Some (u, g) => Some (u, g, "extrausers")
           | None => (fun '(u, g) => (u, g, "nss")) <$> lookup_passwd_file (d !! nss_passwd paths) name
           end)
  end.
Definition uid_gid_from_user_resolve (a : Access) (name : string) : H (option Ids) :=
  let* r := r_user a name in
  ret ((fun '(uid, gid, _) => (as_u32 uid, default (as_u32 uid) (as_u32 <$> gid))) <$> r).
(** [try_resolve]: the snapshot is taken by the caller. *)
Definition try_resolve (a : Access) (name : string) (snap : IdMapSnapshot) : H (option Ids) :=
  let short := principal_local_part name in
  let '(snap_full, snap_short) := ldap_snapshot_pair snap name short in
  let* live_full := uid_gid_from_user_resolve a name in
  let* live_short := (if principal_has_realm name then ret None else uid_gid_from_user_resolve a short) in
  ret (fst <$> resolve_identity_candidates name None None None snap_full snap_short live_full live_short).
Definition resolve_via_structured_ldap (name : string) : H (option Ids) :=
  let* a := get_or_init_resolver in
  match a with
  | None => ret None
  | Some a =>
      let* snap := r_snapshot in
      let* ids := try_resolve a name snap in
      match ids with
      | Some ids => ret (Some ids)
      | None =>
          do* r_load a in
          let* snap := r_snapshot in
          let* ids := try_resolve a name snap in
          match ids with
          | Some (u, g) => do* r_group_by_gid a (as_i32 g) in ret (Some (u, g))
          | None => ret None
          end
      end
  end.
Definition resolve_via_nss (name_or_principal : string) : H (option (Z * Z * string)) :=
  let trimmed := trim name_or_principal in
  let short := principal_local_part trimmed in
  let is_realm := principal_has_realm trimmed in
  let* nss_full := resolve_getent trimmed in
  let* nss_short := (if negb is_realm && negb (seqb short trimmed) then resolve_getent short else ret None) in
  match resolve_identity_candidates trimmed nss_full nss_short
          (test_force_ldap_uid_gid env_force trimmed) None None None None with
  | Some ids => ret (Some ids)
  | None =>
      let* ids := resolve_via_structured_ldap trimmed in
      ret ((fun '(u, g) => (u, g, "ldap")) <$> ids)
  end.

(** ** Groups *)
Definition ensure_resolver_snapshot (a : Access) : H unit :=
  let* snap := r_snapshot in
  if bool_decide (groups snap = ∅) then do* r_load a in ret tt else ret tt.
Definition ensure_root_on_supplemental_groups (gids : list Z) : H unit :=
  each gids (fun g => if g =? 0 then ret tt else ensure_member g "root").
Definition compute_gids_for_resolved (r : Resolved) (principal : string) : H (list Z) :=
  if is_machine r then
    let* a := get_or_init_resolver in
    let* extra :=
      match a with
      | Some a =>
          do* ensure_resolver_snapshot a in
          let* more := r_groups a principal in
          let extra := foldl push_unique (r_supps r)
                         (List.filter (fun g => negb (g =? MACHINE_GID)) (map as_u32 more)) in
          do* each extra (fun g => r_group_by_gid a (as_i32 g)) in
          ret extra
      | None => ret (r_supps r)
      end in
    ret (merge_group_gids MACHINE_GID extra)
  else
    let* a := get_or_init_resolver in
    let* extra :=
      match a with
      | Some a =>
          do* ensure_resolver_snapshot a in
          let* more := r_groups a principal in
          let extra := map as_u32 more in
          do* r_group_by_gid a (as_i32 (r_gid r)) in
          do* each extra (fun g => if g =? r_gid r then ret tt else r_group_by_gid a (as_i32 g)) in
          ret extra
      | None => ret []
      end in
    ret (merge_group_gids (r_gid r) extra).
(** The member logins of a user on its groups, or root on a machine's. *)
Definition ensure_memberships (r : Resolved) (gids : list Z) : H unit :=
  let logins := nss_passwd_logins_for r in
  if bool_decide (r_kind r = User) && principal_has_realm (r_principal r) then
    do* each gids (fun g => each logins (fun login => ensure_member g login)) in
    do* ensure_member (r_gid r) (sanitize_for_nss (r_name r)) in
    match head (List.filter (contains_char "@") logins) with
    | Some at_ => ensure_member (r_gid r) at_
    | None => ret tt
    end
  else if is_machine r then ensure_root_on_supplemental_groups gids
  else ret tt.
Definition snapshot_groups : H (option (gmap string PosixGroupEntry)) :=
  let* a := get_or_init_resolver in
  match a with
  | Some _ => let* snap := r_snapshot in ret (Some (groups snap))
  | None => ret None
  end.
Definition ensure_nss_materialized_for (r : Resolved) (gids : list Z) : H unit :=
  let* gs := snapshot_groups in
  do* materialize gs in
  ensure_memberships r gids.

(** ** Resolving a principal *)
Definition with_supps (l : list Z) (r : Resolved) : Resolved :=
  {| r_principal := r_principal r; r_name := r_name r; r_uid := r_uid r; r_gid := r_gid r;
     r_kind := r_kind r; r_source := r_source r; r_supps := l |}.
Definition with_source (src : string) (r : Resolved) : Resolved :=
  {| r_principal := r_principal r; r_name := r_name r; r_uid := r_uid r; r_gid := r_gid r;
     r_kind := r_kind r; r_source := src; r_supps := r_supps r |}.
Definition row (p name : string) (uid gid : Z) (k : PrincipalKind) (src : string) : Resolved :=
  {| r_principal := p; r_name := name; r_uid := uid; r_gid := gid; r_kind := k; r_source := src; r_supps := [] |}.
Definition not_eq (g0 : Z) : list Z -> list Z := List.filter (fun g => negb (g =? g0)).
Definition set_supps (key : string) (f : Resolved -> list Z) : H unit :=
  modify (on_cache (fun c => match c !! key with
                             | Some e => <[ key := with_supps (f e) e ]> c | None => c end)).
(** What a principal that is not in the cache maps to. *)
Definition resolve_fresh (principal : string) : H Resolved :=
  if fst (classify_principal principal realm server_variants) then
    ret (row principal (machine_short_name principal) 0 0 Machine "special")
  else
    let name := principal_local_part principal in
    let* looked := resolve_via_nss principal in
    match looked with
    | Some (uid, gid, src) =>
        let* a := get_or_init_resolver in
        do* match a with Some a => r_group_by_gid a (as_i32 gid) | None => ret tt end in
        ret (row principal name uid gid User src)
    | None =>
        if principal_has_realm principal then
          ret (row principal name RESOLVE_UNRESOLVED_UID RESOLVE_UNRESOLVED_GID Unknown
                 RESOLVE_FAIL_CLOSED_SOURCE)
        else ret (row principal name FALLBACK_NOBODY_UID FALLBACK_NOBODY_GID Unknown "direct")
    end.
(** [refresh] is [refresh_supplemental_nss_for_cached_users]. *)
Definition publish (refresh : H bool) (resolved : Resolved) : H Resolved :=
  let* fp_before := get (fun h => content_fingerprint (h_cache h)) in
  do* (if principal_has_realm (r_principal resolved) then modify (on_cache (cache_insert resolved)) else ret tt) in
  do* modify (on_cache (fun c => snd (prune_malformed_principals c))) in
  do* modify (on_cache (fun c => snd (prune_numeric_user_entries c))) in
  let* fp_after := get (fun h => content_fingerprint (h_cache h)) in
  let changed := negb (fp_before =? fp_after) || (r_uid resolved =? 0) in
  let key := normalize_principal (r_principal resolved) in
  do* (if principal_has_realm (r_principal resolved) then
         match r_kind resolved with
         | User =>
             let* gids := compute_gids_for_resolved resolved (r_principal resolved) in
             let* c := get h_cache in
             do* (if is_some (c !! key) then
                    do* set_supps key (fun e => foldl push_unique (not_eq (r_gid e) gids) (r_supps e)) in
                    do* write_cache in ret tt
                  else ret tt) in
             ensure_nss_materialized_for resolved gids
         | Machine =>
             let* gids := compute_gids_for_resolved resolved (r_principal resolved) in
             let* c := get h_cache in
             do* (if is_some (c !! key) then
                    do* set_supps key (fun e => not_eq (r_gid e) gids) in
                    do* write_cache in ret tt
                  else ret tt) in
             ensure_nss_materialized_for resolved gids
         | Unknown =>
             if changed then
               let* gs := snapshot_groups in
               do* materialize gs in
               do* refresh in ret tt
             else ret tt
         end
       else ret tt) in
  do* (if changed then do* write_cache in ret tt else ret tt) in
  do* (if negb (r_uid resolved =? 0) && negb (r_uid resolved =? FALLBACK_NOBODY_UID) then
         do* run_command ["sss_cache"; "-u"; r_name resolved] in
         do* run_command ["getent"; "passwd"; r_name resolved] in ret tt
       else ret tt) in
  ret resolved.
Definition resolve_principal_with (refresh : H bool) (principal : string) : H Resolved :=
  let principal := canonicalize_principal (trim principal) realm in
  let norm := normalize_principal principal in
  if is_numeric_local_principal principal then
    ret (row principal (principal_local_part norm) FALLBACK_NOBODY_UID FALLBACK_NOBODY_GID Unknown
           "rejected-numeric")
  else
    let* c := get h_cache in
    let fresh :=
      let* resolved := resolve_fresh principal in
      if is_unresolved_fail_closed resolved then ret resolved else publish refresh resolved in
    match cache_get c norm with
    | Some existing =>
        if is_numeric_local_principal (r_principal existing) then
          do* modify (on_cache (delete norm)) in fresh
        else ret (with_source "cache" existing)
    | None => fresh
    end.
(** The call of [refresh] is dead code, see [refresh_never_called]. *)
Definition resolve_principal : string -> H Resolved := resolve_principal_with (ret false).

(** ** Groups of a principal *)
Definition resolve_gids_and_materialize (principal : string) (force_materialize : bool) : H (list Z) :=
  let p := trim principal in
  if eq_ignore_ascii_case p "root" || seqb p "0" then
    let* supps := get (fun h => root_supplemental_gids_from_cache (h_cache h)) in
    do* (if force_materialize then each supps (fun g => ensure_member g "root") else ret tt) in
    ret (merge_group_gids MACHINE_GID supps)
  else
    let* r := resolve_principal principal in
    if is_unresolved_fail_closed r then ret []
    else
      let* gids := compute_gids_for_resolved r principal in
      let key := normalize_principal (r_principal r) in
      let* c := get h_cache in
      let* gids :=
        match c !! key with
        | Some entry =>
            let supps := foldl push_unique (not_eq (r_gid entry) gids) (r_supps entry) in
            do* (if bool_decide (r_supps entry = supps) then ret tt
                 else do* set_supps key (fun _ => supps) in do* write_cache in ret tt) in
            ret (foldl push_unique gids supps)
        | None => ret gids
        end in
      do* (if force_materialize || negb (seqb (r_source r) "cache")
           then ensure_nss_materialized_for r gids else ret tt) in
      do* ensure_memberships r gids in
      ret gids.
(** Whether a store changed on disk. *)
Definition refresh_supplemental_nss_for_cached_users : H bool :=
  let* before := get h_written in
  let* principals := get (fun h => map r_principal (List.filter
    (fun r => negb (bool_decide (r_kind r = Unknown)) && principal_has_realm (r_principal r))
    (hvalues (h_cache h)))) in
  do* each principals (fun p => do* resolve_gids_and_materialize p true in ret tt) in
  let* after := get h_written in
  ret (negb (Nat.eqb before after)).

(** ** The bulk reload *)
Definition ignored {A} (m : H A) : H unit := do* m in ret tt.
(** [RebulkPaths::production]: the stores are those of the section, the cache file
    is the fixed one, whatever [cache_path] is. *)
Record RebulkOutcome := { rb_synced : nat; rb_materialized : bool }.
Definition rebulk_apply_sync (snap : IdMapSnapshot) (live : LiveGroupEdges)
  : H (result RebulkOutcome IoError) :=
  let* fp_before := get (fun h => content_fingerprint (h_cache h)) in
  let* c := get h_cache in
  let '(synced, c') := sync_user_cache_from_snapshot snap realm c live in
  do* modify (on_cache (fun _ => c')) in
  let user_changed := cache_changed_since fp_before c' in
  let* w1 := materialize (Some (groups snap)) in
  match w1 with
  | Err e => ret (Err e)
  | Ok w1 =>
      let* w2 := refresh_supplemental_nss_for_cached_users in
      let* w3 := materialize (Some (groups snap)) in
      match w3 with
      | Err e => ret (Err e)
      | Ok w3 =>
          let* written := (if user_changed then write_cache_to CACHE_PATH else ret (Ok tt)) in
          ret (match written with
               | Ok _ => Ok {| rb_synced := synced; rb_materialized := w1 || w2 || w3 |}
               | Err e => Err e
               end)
      end
  end.
(** One name of the snapshot; the state of the loop is [warmed] and [live]. *)
Definition warm_name (a : Access) (st : gset string * LiveGroupEdges) (name : string)
  : H (gset string * LiveGroupEdges) :=
  let '(warmed, live) := st in
  if contains_char "/" name then ret st
  else
    let short := before "@" name in
    if bool_decide (short ∈ warmed) then ret st
    else
      let* gids := r_groups a (short +:+ "@" +:+ realm) in
      do* each gids (fun g => r_group_by_gid a g) in
      ret ({[ short ]} ∪ warmed, <[ short := map as_u32 gids ]> live).
Definition warm_rebulk_group_cache (a : Access) (pre : IdMapSnapshot) : H LiveGroupEdges :=
  do* each (hvalues (users pre)) (fun u => r_group_by_gid a (u_gid u)) in
  let* st := fold_m (map fst (hiter (users pre))) (∅, ∅) (warm_name a) in
  ret (snd st).
Definition rebulk_ldap_users : H (option nat) :=
  let* a := get_or_init_resolver in
  match a with
  | None => ret None
  | Some a =>
      let* loaded := r_load a in
      if (loaded =? 0)%nat then ret None
      else
        let* pre := r_snapshot in
        let* live := warm_rebulk_group_cache a pre in
        let* snap := r_snapshot in
        let* o := rebulk_apply_sync snap live in
        ret (match o with Ok o => Some (rb_synced o) | Err _ => None end)
  end.

(** ** The socket protocol *)
Definition nl_ : string := String nl "".
Definition grps_reply (gs : list Z) (q : string) : string :=
  if bool_decide (gs = []) && contains_char "@" q then RESOLVE_ERR_UNRESOLVED
  else "OK " +:+ join "|" (map dec gs) +:+ nl_.
(** The answer to one request line; [None]: an empty line, no answer. *)
Definition request (line : string) : option (string * string) :=
  let req := trim line in
  if is_empty req then None
  else Some (match split_once " " req with
             | Some (v, a) => (to_ascii_uppercase v, trim a)
             | None => (to_ascii_uppercase req, "")
             end).
Definition handle_client (line : string) : H (option string) :=
  match request line with
  | None => ret None
  | Some (verb, arg) =>
      let missing := "ERR missing principal" +:+ nl_ in
      let* out :=
        (if seqb verb "PING" then ret ("OK" +:+ nl_)
         else if seqb verb "CLASSIFY" then
           if is_empty arg then ret missing
           else
             let '(is_m, reason) := classify_principal arg realm server_variants in
             ret ("OK " +:+ (if is_m : bool then "machine" else "user") +:+ "|" +:+ reason +:+ nl_)
         else if seqb verb "RESOLVE" then
           if is_empty arg then ret missing
           else let* r := resolve_principal arg in ret (format_resolve_socket_line r)
         else if seqb verb "REBULK" then
           let* n := rebulk_ldap_users in
           ret (match n with
                | Some n => "OK " +:+ dec (Z.of_nat n) +:+ nl_
                | None => "ERR rebulk failed" +:+ nl_ end)
         else if seqb verb "GRPS" then
           if is_empty arg then ret missing
           else let* gs := resolve_gids_and_materialize arg false in ret (grps_reply gs arg)
         else if seqb verb "GROUPLIST" || seqb verb "GETGROUPLIST" then
           let q := if is_empty arg then "root" else arg in
           let* gs := resolve_gids_and_materialize q false in ret (grps_reply gs q)
         else ret ("ERR unknown command" +:+ nl_)) in
      ret (Some out)
  end.
(** The key of the single flight of a request. *)
Definition flight_key (verb arg : string) : option string :=
  if (seqb verb "RESOLVE" || seqb verb "GRPS" || seqb verb "GROUPLIST" || seqb verb "GETGROUPLIST")
     && negb (is_empty arg) then Some (verb +:+ ":" +:+ arg)
  else if seqb verb "REBULK" then Some "REBULK" else None.

(** ** Startup, before the socket is served *)
Definition daemon_start (preresolve : option string) : H unit :=
  let* d := get h_disk in
  let c := load_from_file (d !! cache_path) in
  let '(bad, c) := prune_malformed_principals c in
  let '(numeric, c) := prune_numeric_user_entries c in
  do* modify (on_cache (fun _ => c)) in
  do* (if (0 <? bad)%nat || (0 <? numeric)%nat then ignored write_cache else ret tt) in
  do* get_or_init_resolver in
  do* rebulk_ldap_users in
  do* each server_variants (fun v => each ["host"; "nfs"] (fun prefix =>
    ignored (resolve_principal (prefix +:+ "/" +:+ v +:+ "@" +:+ realm)))) in
  do* (let* gs := snapshot_groups in materialize gs) in
  do* refresh_supplemental_nss_for_cached_users in
  match preresolve with
  | Some l => each (split "," l) (fun p =>
      let p := trim p in if is_empty p then ret tt else ignored (resolve_principal p))
  | None => ret tt
  end.
End Helper.

(** ** Single flight *)
Module Flight.
(** A request thread; [leader] is a local variable of [begin].  A thread in
    [cv.wait] sleeps until it is notified, and then has to take the lock and look
    again. *)
Inductive Thread := Idle | Waiting (key : string) | Notified (key : string) | Leader (key : string) | Follower (key : string).
Record State := { keys : gset string; threads : nat -> Thread }.
Definition set_thread (i : nat) (t : Thread) (f : nat -> Thread) : nat -> Thread :=
  fun j => if Nat.eqb j i then t else f j.
(** [begin], up to the first wait: the key is claimed or waited for. *)
Definition enter (i : nat) (k : string) (s : State) : State :=
  if decide (k ∈ keys s) then {| keys := keys s; threads := set_thread i (Waiting k) (threads s) |}
  else {| keys := {[ k ]} ∪ keys s; threads := set_thread i (Leader k) (threads s) |}.
(** The loop of [begin] after a wait: no second claim. *)
Definition recheck (i : nat) (k : string) (s : State) : State :=
  {| keys := keys s;
     threads := set_thread i (if decide (k ∈ keys s) then Waiting k else Follower k) (threads s) |}.
(** [cv.notify_all()]: one condition variable for all keys. *)
Definition notify (t : Thread) : Thread := match t with Waiting k => Notified k | _ => t end.
Definition notify_all (f : nat -> Thread) : nat -> Thread := fun j => notify (f j).
(** The drop of the guard of a leader, when its request is answered or panics. *)
Definition release (i : nat) (k : string) (s : State) : State :=
  {| keys := keys s ∖ {[ k ]}; threads := notify_all (set_thread i Idle (threads s)) |}.
(** What the threads do, each while it holds the lock. *)
Inductive step : State -> State -> Prop :=
| enters i k s : threads s i = Idle -> step s (enter i k s)
| rechecks i k s : threads s i = Notified k -> step s (recheck i k s)
| drop_leader i k s : threads s i = Leader k -> step s (release i k s)
| drop_follower i k s : threads s i = Follower k ->
    step s {| keys := keys s; threads := set_thread i Idle (threads s) |}.
(** A condition variable may also wake a thread that nobody notified. *)
Inductive spurious : State -> State -> Prop :=
| wakes_up i k s : threads s i = Waiting k ->
    spurious s {| keys := keys s; threads := set_thread i (Notified k) (threads s) |}.
Definition init : State := {| keys := ∅; threads := fun _ => Idle |}.
Definition reachable (s : State) : Prop := rtc (fun a b => step a b \/ spurious a b) init s.
End Flight.
