(* ===== verification/IdhelperProps.v ===== *)
(** * What the idhelper guarantees

    Properties of [Idhelper.v]: a cached principal is answered without any
    effect, an unresolved one leaves no trace, a realm principal is never
    looked up under its short name, the cache stays well formed, a failed bulk
    reload changes nothing, and equal requests share one resolution. *)

From S2P Require Import Prelude RustStr State Identity Resolver Generate IdCache Nss Idhelper.
Local Open Scope Z_scope.

(** ** Computations that leave the cache and the disk alone *)
Definition untouched (c : IdCache) (d : Disk) (w : nat) (h : Helper) : Prop :=
  h_cache h = c /\ h_disk h = d /\ h_written h = w.
Definition quiet {A} (m : H A) : Prop := forall c d w, keeps (untouched c d w) m.

Lemma with_resolver_quiet {A} (m : M Resolver A) : quiet (with_resolver m).
Proof. intros c d w h Hh. unfold with_resolver. destruct h. by destruct (m _). Qed.
Lemma quiet_bind {A B} (m : H A) (k : A -> H B) : quiet m -> (forall a, quiet (k a)) -> quiet (bind m k).
Proof. intros Hm Hk c d w. apply keeps_bind; [apply Hm|]. intros a. apply Hk. Qed.
Lemma quiet_ret {A} (a : A) : quiet (ret a : H A).
Proof. intros c d w. apply keeps_ret. Qed.
Lemma quiet_get {A} (f : Helper -> A) : quiet (get f).
Proof. intros c d w. apply keeps_get. Qed.
Lemma quiet_each {A} (l : list A) (f : A -> H unit) : (forall a, quiet (f a)) -> quiet (each l f).
Proof. intros Hf c d w. apply keeps_each. intros a _. apply Hf. Qed.
Create HintDb quiet discriminated.
#[export] Hint Resolve with_resolver_quiet quiet_ret quiet_get : quiet.
Ltac quiet_step :=
  match goal with
  | |- quiet (bind _ _) => apply quiet_bind; [|intros ?]
  | |- quiet (each _ _) => apply quiet_each; intros ?
  | |- quiet (let _ := _ in _) => cbv zeta
  | |- quiet (match ?x with _ => _ end) => destruct x
  end.
Ltac quiet_all := repeat (first [solve [auto with quiet nocore] | quiet_step]).

Section Props.
Context `{!HashIter string, !HashIter Z}.
Context (server : nat -> Query -> Attempt) (op_timeout_secs : Z).
Context (commands : nat -> list string -> option string).
Context (config : nat -> option HelperConfig) (env_force : option string).
Context (ws : nat -> string -> WriteWorld) (read_fails : nat -> string -> bool).
Context (paths : NssMaterializePaths) (cache_path realm : string) (server_variants : list string).

Local Abbreviation resolver := (get_or_init_resolver config).
Local Abbreviation via_nss := (resolve_via_nss server op_timeout_secs commands config env_force paths).
Local Abbreviation fresh :=
  (resolve_fresh server op_timeout_secs commands config env_force paths realm server_variants).
Local Abbreviation publish_ :=
  (publish server op_timeout_secs commands config ws read_fails paths cache_path).
Local Abbreviation resolve_with :=
  (resolve_principal_with server op_timeout_secs commands config env_force ws read_fails paths cache_path
     realm server_variants).
Local Abbreviation resolve :=
  (resolve_principal server op_timeout_secs commands config env_force ws read_fails paths cache_path
     realm server_variants).

Lemma run_command_quiet args : quiet (run_command commands args).
Proof. unfold run_command. quiet_all. intros c d w. apply keeps_modify. by intros []. Qed.
Lemma get_or_init_quiet : quiet resolver.
Proof. unfold get_or_init_resolver. quiet_all; intros c d w; apply keeps_modify; by intros []. Qed.
#[local] Hint Resolve run_command_quiet get_or_init_quiet : quiet.
Lemma resolve_getent_quiet n : quiet (resolve_getent commands paths n).
Proof. unfold resolve_getent. quiet_all. Qed.
Lemma group_by_gid_quiet a g : quiet (r_group_by_gid server op_timeout_secs a g).
Proof. unfold r_group_by_gid. quiet_all. Qed.
Lemma r_load_quiet a : quiet (r_load server op_timeout_secs a).
Proof. apply with_resolver_quiet. Qed.
Lemma r_snapshot_quiet : quiet r_snapshot.
Proof. apply with_resolver_quiet. Qed.
Lemma r_groups_quiet a p : quiet (r_groups server op_timeout_secs a p).
Proof. apply with_resolver_quiet. Qed.
#[local] Hint Resolve resolve_getent_quiet group_by_gid_quiet r_load_quiet r_snapshot_quiet r_groups_quiet : quiet.
Lemma user_resolve_quiet a n : quiet (uid_gid_from_user_resolve server op_timeout_secs a n).
Proof. unfold uid_gid_from_user_resolve, r_user. quiet_all. Qed.
#[local] Hint Resolve user_resolve_quiet : quiet.
Lemma try_resolve_quiet a n s : quiet (try_resolve server op_timeout_secs a n s).
Proof. unfold try_resolve. quiet_all. Qed.
#[local] Hint Resolve try_resolve_quiet : quiet.
Lemma structured_quiet n : quiet (resolve_via_structured_ldap server op_timeout_secs config n).
Proof. unfold resolve_via_structured_ldap. quiet_all. Qed.
#[local] Hint Resolve structured_quiet : quiet.
Lemma via_nss_quiet n : quiet (via_nss n).
Proof. unfold resolve_via_nss. quiet_all. Qed.
#[local] Hint Resolve via_nss_quiet : quiet.
Lemma fresh_quiet p : quiet (fresh p).
Proof. unfold resolve_fresh. quiet_all. Qed.
Lemma ensure_snapshot_quiet a : quiet (ensure_resolver_snapshot server op_timeout_secs a).
Proof. unfold ensure_resolver_snapshot. quiet_all. Qed.
#[local] Hint Resolve ensure_snapshot_quiet : quiet.
Lemma compute_gids_quiet r p : quiet (compute_gids_for_resolved server op_timeout_secs config r p).
Proof. unfold compute_gids_for_resolved. quiet_all. Qed.
Lemma snapshot_groups_quiet : quiet (snapshot_groups config).
Proof. unfold snapshot_groups. quiet_all. Qed.
Lemma quiet_run {A} (m : H A) h :
  quiet m -> h_cache (snd (m h)) = h_cache h /\ h_disk (snd (m h)) = h_disk h
    /\ h_written (snd (m h)) = h_written h.
Proof. intros Hm. by apply (Hm (h_cache h) (h_disk h) (h_written h) h). Qed.

(** ** What a lookup can say *)
Lemma or_else_Some {A} (a b : option A) x : or_else a b = Some x -> a = Some x \/ b = Some x.
Proof. destruct a; cbn; auto. Qed.
Lemma ldap_ids_source o u g src : ldap_ids o = Some (u, g, src) -> src = "ldap".
Proof. destruct o as [[]|]; [|done]. by intros [= _ _ <-]. Qed.
Lemma candidates_source full a b c d e f g u gi src :
  resolve_identity_candidates full a b c d e f g = Some (u, gi, src) ->
  a = Some (u, gi, src) \/ b = Some (u, gi, src) \/ src = "ldap".
Proof.
  unfold resolve_identity_candidates. cbv zeta.
  intros [H|[H|[H|[H|[H|H]%or_else_Some]%or_else_Some]%or_else_Some]%or_else_Some]%or_else_Some; [auto|..].
  - destruct (principal_has_realm full); [done|auto].
  - destruct (contains_char "@" full); [|done]. eauto using ldap_ids_source.
  - eauto using ldap_ids_source.
  - eauto using ldap_ids_source.
  - destruct (principal_has_realm full); [done|].
    apply or_else_Some in H as [H|H]; eauto using ldap_ids_source.
Qed.
Lemma getent_source n h u g src :
  fst (resolve_getent commands paths n h) = Some (u, g, src) -> src ∈ ["sss"; "extrausers"; "nss"].
Proof.
  unfold resolve_getent. rewrite bind_run.
  destruct (fst (run_command commands _ h) ≫= _) as [[u' g']|]; cbn; [intros [= _ _ <-]; set_solver|].
  destruct (lookup_passwd_file _ n) as [[u' g']|]; [intros [= _ _ <-]; set_solver|].
  destruct (lookup_passwd_file _ n) as [[u' g']|]; [|done]. intros [= _ _ <-]. set_solver.
Qed.
Lemma via_nss_source n h u g src :
  fst (via_nss n h) = Some (u, g, src) -> src ∈ ["sss"; "extrausers"; "nss"; "ldap"].
Proof.
  unfold resolve_via_nss. rewrite bind_run.
  pose proof (getent_source (trim n) h) as H1. destruct (resolve_getent _ _ _ h) as [o1 h1]. cbn [fst snd] in *.
  rewrite bind_run.
  assert (H2 : forall u g src, fst ((if negb (principal_has_realm (trim n)) && negb (seqb (principal_local_part (trim n)) (trim n))
    then resolve_getent commands paths (principal_local_part (trim n)) else ret None) h1) = Some (u, g, src) ->
    src ∈ ["sss"; "extrausers"; "nss"]).
  { intros u' g' s'. case_match; [apply getent_source|done]. }
  match type of H2 with forall u g s, fst ?x = _ -> _ => destruct x as [o2 h2] end. cbn [fst snd] in *.
  destruct (resolve_identity_candidates _ _ _ _ _ _ _ _) as [[[u' g'] s']|] eqn:E.
  - cbn. intros [= -> -> ->]. apply candidates_source in E as [->|[->| ->]]; [|by specialize (H2 _ _ _ eq_refl); set_solver|set_solver].
    specialize (H1 _ _ _ eq_refl). set_solver.
  - rewrite bind_run. cbn. destruct (fst _) as [[]|]; cbn; [|done]. intros [= _ _ <-]. set_solver.
Qed.
(** The row a fresh resolution gives, by kind. *)
Lemma fresh_row p h :
  let r := fst (fresh p h) in
  r_principal r = p
  /\ match r_kind r with
     | Machine => r_uid r = 0 /\ r_gid r = 0 /\ is_unresolved_fail_closed r = false
     | User => is_unresolved_fail_closed r = false
     | Unknown => if principal_has_realm p then is_unresolved_fail_closed r = true
                  else is_unresolved_fail_closed r = false
     end.
Proof.
  unfold resolve_fresh. destruct (fst (classify_principal p realm server_variants)); [done|]. cbv zeta.
  rewrite bind_run. pose proof (via_nss_source p h) as H.
  destruct (via_nss p h) as [[[[u g] src]|] h1]; cbn [fst snd] in *.
  - rewrite bind_run, bind_run. cbn. split; [done|]. specialize (H u g src eq_refl).
    unfold is_unresolved_fail_closed. cbn. apply not_true_is_false. intros ->%seqb_eq.
    repeat (apply elem_of_cons in H as [H|H]; [done|]). by apply elem_of_nil in H.
  - by destruct (principal_has_realm p) eqn:E; cbn; rewrite ?E.
Qed.

(** The recursion of the source, from the resolution into the refresh of every
    cached user and back, never happens: what [refresh] does is irrelevant. *)
Lemma publish_ext refresh1 refresh2 r h :
  (r_kind r = Unknown -> principal_has_realm (r_principal r) = false) ->
  publish_ refresh1 r h = publish_ refresh2 r h.
Proof.
  intros Hr. unfold publish. destruct (r_kind r) eqn:Ek; [done|done|]. by rewrite Hr.
Qed.
Theorem refresh_never_called refresh1 refresh2 p h : resolve_with refresh1 p h = resolve_with refresh2 p h.
Proof.
  unfold resolve_principal_with. cbv zeta.
  destruct (is_numeric_local_principal _); [done|]. rewrite !(bind_run (get h_cache)). cbn [get fst snd].
  set (p' := canonicalize_principal (trim p) realm).
  assert (H : forall h, (let* r := fresh p' in
      if is_unresolved_fail_closed r then ret r else publish_ refresh1 r) h
    = (let* r := fresh p' in if is_unresolved_fail_closed r then ret r else publish_ refresh2 r) h).
  { intros h'. rewrite !bind_run. pose proof (fresh_row p' h') as [Hp Hk].
    destruct (is_unresolved_fail_closed (fst (fresh p' h'))) eqn:E; [done|].
    apply publish_ext. intros Hu. rewrite Hu in Hk. rewrite Hp. by destruct (principal_has_realm p'). }
  destruct (cache_get _ _) as [e|]; [|apply H]. destruct (is_numeric_local_principal _); [|done].
  rewrite !(bind_run (modify _)). apply H.
Qed.

Lemma publish_returns refresh r h : fst (publish_ refresh r h) = r.
Proof. unfold publish. rewrite !bind_run. cbn [ret fst]. repeat (rewrite bind_run; cbn [fst snd]). done. Qed.

(** The principal a request is about, and its key in the cache. *)
Definition canonical (p : string) : string := canonicalize_principal (trim p) realm.
Definition cache_key (p : string) : string := normalize_principal (canonical p).
Lemma resolve_miss p h :
  is_numeric_local_principal (canonical p) = false -> h_cache h !! cache_key p = None ->
  resolve p h = (let* r := fresh (canonical p) in
                 if is_unresolved_fail_closed r then ret r else publish_ (ret false) r) h.
Proof.
  intros Hn Hc. unfold resolve_principal, resolve_principal_with. cbv zeta. unfold canonical in Hn.
  rewrite Hn. rewrite (bind_run (get h_cache)). cbn [get fst snd]. unfold cache_get, cache_key, canonical in *.
  by rewrite Hc.
Qed.
Lemma resolve_unresolved_trace p h :
  let res := resolve p h in
  is_unresolved_fail_closed (fst res) = true ->
  h_disk (snd res) = h_disk h /\ h_written (snd res) = h_written h
  /\ (h_cache (snd res) = h_cache h \/ h_cache (snd res) = delete (cache_key p) (h_cache h)).
Proof.
  cbv zeta. unfold resolve_principal, resolve_principal_with. cbv zeta.
  fold (canonical p). fold (cache_key p).
  destruct (is_numeric_local_principal (canonical p)); [done|].
  rewrite (bind_run (get h_cache)). cbn [get fst snd].
  assert (Hf : forall h', is_unresolved_fail_closed (fst ((let* r := fresh (canonical p) in
      if is_unresolved_fail_closed r then ret r else publish_ (ret false) r) h')) = true ->
    untouched (h_cache h') (h_disk h') (h_written h') (snd ((let* r := fresh (canonical p) in
      if is_unresolved_fail_closed r then ret r else publish_ (ret false) r) h'))).
  { intros h'. rewrite !bind_run.
    destruct (is_unresolved_fail_closed (fst (fresh (canonical p) h'))) eqn:E.
    - intros _. exact (quiet_run (fresh (canonical p)) h' (fresh_quiet (canonical p))).
    - rewrite publish_returns. by rewrite E. }
  destruct (cache_get _ _) as [e|].
  - destruct (is_numeric_local_principal _); [|done]. rewrite (bind_run (modify _)).
    intros H. destruct (Hf _ H) as (E1 & E2 & E3). rewrite E1, E2, E3. destruct h. cbn. auto.
  - intros H. destruct (Hf _ H) as (E1 & E2 & E3). rewrite E1, E2, E3. auto.
Qed.

(** A cached principal costs nothing.  A request for a principal in the
    cache answers its row, with the source "cache", and changes nothing: no
    command is run, no directory is asked, no file is written. *)
Theorem cached_principal_answered p h e :
  is_numeric_local_principal (canonical p) = false ->
  h_cache h !! cache_key p = Some e -> is_numeric_local_principal (r_principal e) = false ->
  resolve p h = (with_source "cache" e, h).
Proof.
  intros Hn Hc He. unfold resolve_principal, resolve_principal_with. cbv zeta.
  fold (canonical p). fold (cache_key p). rewrite Hn. rewrite (bind_run (get h_cache)). cbn [get fst snd].
  unfold cache_get. by rewrite Hc, He.
Qed.

(** C15: what a request gets for a principal that neither NSS nor the directory
    knows, case by case.  A numeric name is rejected as nobody at once; a
    principal in the cache, if its row is not numeric, is answered from it; both
    change nothing.  Of the others, one that has the form of a machine's gets
    root's ids; one with a realm fails closed: the unresolved row without ids, an
    error on the socket, and the cache and every file as they were; and one
    without a realm gets nobody. *)
Theorem unknown_principal_fails_closed p h :
  fst (via_nss (canonical p) h) = None ->
  let '(r, h') := resolve p h in
  let name := principal_local_part (canonical p) in
  if is_numeric_local_principal (canonical p) then
    r = row (canonical p) (principal_local_part (cache_key p)) 65534 65534 Unknown "rejected-numeric" /\ h' = h
  else match h_cache h !! cache_key p with
  | Some e => is_numeric_local_principal (r_principal e) = false -> r = with_source "cache" e /\ h' = h
  | None =>
      if fst (classify_principal (canonical p) realm server_variants) then
        r = row (canonical p) (machine_short_name (canonical p)) 0 0 Machine "special"
      else if principal_has_realm (canonical p) then
        r = row (canonical p) name u32_max u32_max Unknown RESOLVE_FAIL_CLOSED_SOURCE
        /\ format_resolve_socket_line r = RESOLVE_ERR_UNRESOLVED
        /\ h_cache h' = h_cache h /\ h_disk h' = h_disk h /\ h_written h' = h_written h
      else r = row (canonical p) name 65534 65534 Unknown "direct"
  end.
Proof.
  intros Hv. destruct (is_numeric_local_principal (canonical p)) eqn:Hn.
  { unfold resolve_principal, resolve_principal_with. cbv zeta. fold (canonical p). fold (cache_key p). by rewrite Hn. }
  destruct (h_cache h !! cache_key p) as [e|] eqn:Hc.
  { destruct (is_numeric_local_principal (r_principal e)) eqn:He; [by destruct (resolve p h)|].
    by rewrite (cached_principal_answered p h e Hn Hc He). }
  assert (Hrow : fst (fresh (canonical p) h) =
    if fst (classify_principal (canonical p) realm server_variants)
    then row (canonical p) (machine_short_name (canonical p)) 0 0 Machine "special"
    else if principal_has_realm (canonical p)
    then row (canonical p) (principal_local_part (canonical p)) u32_max u32_max Unknown RESOLVE_FAIL_CLOSED_SOURCE
    else row (canonical p) (principal_local_part (canonical p)) 65534 65534 Unknown "direct").
  { unfold resolve_fresh. destruct (fst (classify_principal _ _ _)); [done|]. cbv zeta. rewrite bind_run, Hv.
    by destruct (principal_has_realm (canonical p)). }
  assert (Hpub : forall r h, let '(r', _) := publish_ (ret false) r h in r' = r).
  { intros r h0. pose proof (publish_returns (ret false) r h0) as H. by destruct (publish_ _ _ _). }
  rewrite (resolve_miss p h Hn Hc), bind_run, Hrow.
  destruct (fst (classify_principal (canonical p) realm server_variants)).
  { cbn [is_unresolved_fail_closed r_source row]. apply Hpub. }
  destruct (principal_has_realm (canonical p)).
  - cbn. split; [done|]. split; [done|]. apply quiet_run, fresh_quiet.
  - cbn [is_unresolved_fail_closed r_source row]. apply Hpub.
Qed.
End Props.

(** A small deployment, for the witnesses. *)
Definition demo_config : HelperConfig := {|
  hc_inputs := {| ri_ldap_uri := "ldaps://ldap.ex.com"; ri_realm := "EX.COM";
    ri_search_bases := {| ldap_search_base := Some "dc=ex"; ldap_user_search_base := None;
                          ldap_group_search_base := None |};
    ri_posix_mapping := {| in_user_object_class := None; in_group_object_class := None;
      in_user_name := None; in_user_uid_number := None; in_user_gid_number := None;
      in_user_home_directory := None; in_user_shell := None; in_user_fullname := None;
      in_group_name := None; in_group_gid_number := None; in_group_member := None;
      in_user_principal_name := None; in_kllldap_ignored_attributes := None |};
    ri_tls_reqcert := None; ri_tls_cacert := None; ri_use_start_tls := None |};
  hc_bind_dn := "cn=svc"; hc_authtok := "pw" |}.
Definition demo_paths : NssMaterializePaths := {|
  nss_passwd := "/n/passwd"; nss_group := "/n/group";
  extrausers_passwd := "/x/passwd"; extrausers_group := "/x/group" |}.
Definition start : Helper := MkHelper ∅ (new_resolver 0) None ∅ 0 0 0 [].
#[local] Instance iter_s : HashIter string := iter_forward.
#[local] Instance iter_z : HashIter Z := iter_forward.
(** No command succeeds. *)
Definition demo (server : nat -> Query -> Attempt) : string -> H Resolved :=
  resolve_principal server 15 (fun _ _ => None) (fun _ => Some demo_config) None (fun _ _ => all_well)
    (fun _ _ => false) demo_paths "/n/cache" "EX.COM" ["nas"].

Definition ann_row : Resolved := row "ann@EX.COM" "ann" 1001 2001 User "ldap".
Lemma cached_principal_answered_witness :
  let h := snd (demo (answering [demo_entry]) "ann@EX.COM" start) in
  h_cache h !! "ann@EX.COM" = Some ann_row
  /\ demo (answering [demo_entry]) "ann" h = (with_source "cache" ann_row, h).
Proof.
  cut (forall h, h_cache h !! "ann@EX.COM" = Some ann_row ->
    demo (answering [demo_entry]) "ann" h = (with_source "cache" ann_row, h)).
  { intros H h. assert (E : h_cache h !! "ann@EX.COM" = Some ann_row) by (vm_compute; reflexivity).
    split; [exact E|exact (H h E)]. }
  intros h E. apply cached_principal_answered; [by vm_compute|exact E|by vm_compute].
Defined.
Lemma unknown_principal_fails_closed_witness :
  let '(r, h') := demo (answering []) "bob@EX.COM" start in
  format_resolve_socket_line r = RESOLVE_ERR_UNRESOLVED /\ h_cache h' = ∅ /\ h_disk h' = ∅.
Proof.
  pose proof (unknown_principal_fails_closed (answering []) 15 (fun _ _ => None) (fun _ => Some demo_config) None
    (fun _ _ => all_well) (fun _ _ => false) demo_paths "/n/cache" "EX.COM" ["nas"] "bob@EX.COM" start
    ltac:(by vm_compute)) as H.
  unfold demo. destruct (resolve_principal _ _ _ _ _ _ _ _ _ _ _ _ _) as [r h'].
  assert (En : is_numeric_local_principal (canonical "EX.COM" "bob@EX.COM") = false) by (vm_compute; reflexivity).
  assert (Ec : h_cache start !! cache_key "EX.COM" "bob@EX.COM" = None) by (vm_compute; reflexivity).
  assert (Ek : fst (classify_principal (canonical "EX.COM" "bob@EX.COM") "EX.COM" ["nas"]) = false) by (vm_compute; reflexivity).
  assert (Er : principal_has_realm (canonical "EX.COM" "bob@EX.COM") = true) by (vm_compute; reflexivity).
  rewrite En, Ec, Ek, Er in H. destruct H as (_ & H1 & H2 & H3 & _). by split_and!.
Defined.

(** ** The cache stays well formed *)
(** Every row is filed under the normal form of its principal, has a realm,
    and is not numeric unless it is a machine's. *)
Definition cache_ok (c : IdCache) : Prop :=
  keyed c /\ forall k r, c !! k = Some r ->
    principal_has_realm (r_principal r) = true
    /\ (is_machine r = false -> is_numeric_local_principal (r_principal r) = false).
Definition helper_ok (h : Helper) : Prop := cache_ok (h_cache h).

Lemma cache_ok_empty : cache_ok ∅.
Proof. split; [apply keyed_empty|]. intros k r H. by rewrite lookup_empty in H. Qed.
Lemma cache_ok_insert r c :
  principal_has_realm (r_principal r) = true -> is_numeric_local_principal (r_principal r) = false ->
  cache_ok c -> cache_ok (cache_insert r c).
Proof.
  intros Hr Hn [H1 H2]. split; [by apply keyed_insert|]. unfold cache_insert. intros k r'.
  intros [[_ <-]|[_ H]]%lookup_insert_Some; [done|by apply H2 in H].
Qed.
Lemma cache_ok_prune keep c : cache_ok c -> cache_ok (snd (prune_where keep c)).
Proof.
  intros [H1 H2]. split; [by apply keyed_prune|]. intros k r [H _]%lookup_prune. by apply H2 in H.
Qed.
Lemma cache_ok_delete k c : cache_ok c -> cache_ok (delete k c).
Proof.
  intros [H1 H2]. split.
  - intros k' r [_ H]%lookup_delete_Some. by apply H1.
  - intros k' r [_ H]%lookup_delete_Some. by apply H2 in H.
Qed.
Lemma cache_ok_supps k e l c : c !! k = Some e -> cache_ok c -> cache_ok (<[ k := with_supps l e ]> c).
Proof.
  intros He [H1 H2]. split.
  - intros k' r [[<- <-]|[_ H]]%lookup_insert_Some; [by apply (H1 k e)|by apply H1].
  - intros k' r [[<- <-]|[_ H]]%lookup_insert_Some; [apply (H2 k e He)|by apply H2 in H].
Qed.
(** The two prunes make any keyed cache well formed. *)
Lemma cache_ok_pruned c :
  keyed c -> cache_ok (snd (prune_numeric_user_entries (snd (prune_malformed_principals c)))).
Proof.
  intros H. split; [by apply keyed_prune, keyed_prune|].
  intros k r [[_ Hm]%lookup_prune Hn]%lookup_prune. split; [done|].
  intros E. rewrite E in Hn. cbn in Hn. by apply negb_true_iff in Hn.
Qed.
Lemma keyed_live live c : keyed c -> keyed (fold_live live <$> c).
Proof.
  intros H k r. rewrite lookup_fmap. intros (r0 & H0 & ->)%fmap_Some_1.
  rewrite fold_live_principal. by apply H.
Qed.
Lemma cache_ok_sync `{!HashIter string, !HashIter Z} snap realm c live :
  cache_ok c -> cache_ok (snd (sync_user_cache_from_snapshot snap realm c live)).
Proof.
  intros [H _]. unfold sync_user_cache_from_snapshot, seed_cache_and_nss_from_snapshot. cbn [fst snd].
  apply cache_ok_pruned, keyed_live, keyed_fold, keyed_prune, H.
Qed.

Section CacheOk.
Context `{!HashIter string, !HashIter Z}.
Context (server : nat -> Query -> Attempt) (op_timeout_secs : Z).
Context (commands : nat -> list string -> option string).
Context (config : nat -> option HelperConfig) (env_force : option string).
Context (ws : nat -> string -> WriteWorld) (read_fails : nat -> string -> bool).
Context (paths : NssMaterializePaths) (cache_path realm : string) (server_variants : list string).

Local Abbreviation resolve :=
  (resolve_principal server op_timeout_secs commands config env_force ws read_fails paths cache_path
     realm server_variants).
Local Abbreviation groups_of :=
  (resolve_gids_and_materialize server op_timeout_secs commands config env_force ws read_fails paths
     cache_path realm server_variants).
Local Abbreviation rebulk :=
  (rebulk_ldap_users server op_timeout_secs commands config env_force ws read_fails paths
     cache_path realm server_variants).
Local Abbreviation handle :=
  (handle_client server op_timeout_secs commands config env_force ws read_fails paths
     cache_path realm server_variants).
Local Abbreviation start_daemon :=
  (daemon_start server op_timeout_secs commands config env_force ws read_fails paths
     cache_path realm server_variants).

Lemma quiet_ok {A} (m : H A) : quiet m -> keeps helper_ok m.
Proof. intros Hm h Hh. unfold helper_ok. by rewrite (proj1 (quiet_run m h Hm)). Qed.
Lemma disk_op_ok {A} (f : nat -> Disk -> A * Disk) : keeps helper_ok (disk_op paths f).
Proof. intros h Hh. unfold disk_op. destruct h. by destruct (f _ _). Qed.
Lemma keeps_on_cache f : (forall c, cache_ok c -> cache_ok (f c)) -> keeps helper_ok (modify (on_cache f)).
Proof. intros Hf. apply keeps_modify. intros [] Hh. by apply Hf. Qed.
Lemma materialize_ok gs : keeps helper_ok (materialize ws paths gs).
Proof. apply keeps_bind; [apply keeps_get|]. intros c. apply disk_op_ok. Qed.
Lemma ensure_member_ok g l : keeps helper_ok (ensure_member ws read_fails paths g l).
Proof. apply keeps_bind; [apply disk_op_ok|]. intros c. apply keeps_ret. Qed.
Lemma write_cache_to_ok q : keeps helper_ok (write_cache_to ws paths q).
Proof. apply keeps_bind; [apply keeps_get|]. intros c. apply disk_op_ok. Qed.
Lemma write_cache_ok : keeps helper_ok (write_cache ws paths cache_path).
Proof. apply write_cache_to_ok. Qed.
Lemma set_supps_ok k f : keeps helper_ok (set_supps k f).
Proof.
  apply keeps_on_cache. intros c Hc. destruct (c !! k) as [e|] eqn:E; [|done]. by apply cache_ok_supps.
Qed.
Lemma prune_ok keep : keeps helper_ok (modify (on_cache (fun c => snd (prune_where keep c)))).
Proof. apply keeps_on_cache. intros c. apply cache_ok_prune. Qed.
Lemma run_ok args : keeps helper_ok (run_command commands args).
Proof. apply quiet_ok, run_command_quiet. Qed.
Lemma init_ok : keeps helper_ok (get_or_init_resolver config).
Proof. apply quiet_ok, get_or_init_quiet. Qed.
Lemma snapshot_groups_ok : keeps helper_ok (snapshot_groups config).
Proof. apply quiet_ok, snapshot_groups_quiet. Qed.
Lemma compute_gids_ok r p : keeps helper_ok (compute_gids_for_resolved server op_timeout_secs config r p).
Proof. apply quiet_ok, compute_gids_quiet. Qed.
Lemma r_load_ok a : keeps helper_ok (r_load server op_timeout_secs a).
Proof. apply quiet_ok, r_load_quiet. Qed.
Lemma r_snapshot_ok : keeps helper_ok r_snapshot.
Proof. apply quiet_ok, r_snapshot_quiet. Qed.
Lemma r_groups_ok a p : keeps helper_ok (r_groups server op_timeout_secs a p).
Proof. apply quiet_ok, r_groups_quiet. Qed.
Lemma r_group_by_gid_ok a g : keeps helper_ok (r_group_by_gid server op_timeout_secs a g).
Proof. apply quiet_ok, group_by_gid_quiet. Qed.
#[local] Hint Resolve materialize_ok ensure_member_ok write_cache_ok write_cache_to_ok set_supps_ok prune_ok run_ok init_ok
  snapshot_groups_ok compute_gids_ok r_load_ok r_snapshot_ok r_groups_ok r_group_by_gid_ok : keep.
Lemma ensure_memberships_ok r gids : keeps helper_ok (ensure_memberships ws read_fails paths r gids).
Proof. unfold ensure_memberships, ensure_root_on_supplemental_groups. keep_all. Qed.
#[local] Hint Resolve ensure_memberships_ok : keep.
Lemma ensure_materialized_ok r gids : keeps helper_ok (ensure_nss_materialized_for config ws read_fails paths r gids).
Proof. unfold ensure_nss_materialized_for. keep_all. Qed.
#[local] Hint Resolve ensure_materialized_ok : keep.

Lemma publish_ok refresh r :
  keeps helper_ok refresh -> is_numeric_local_principal (r_principal r) = false ->
  keeps helper_ok (publish server op_timeout_secs commands config ws read_fails paths cache_path refresh r).
Proof.
  intros Hf Hn. unfold publish. apply keeps_bind; [apply keeps_get|]. intros fp.
  apply keeps_bind.
  { destruct (principal_has_realm (r_principal r)) eqn:E; [|apply keeps_ret].
    apply keeps_on_cache. intros c. by apply cache_ok_insert. }
  intros _. unfold prune_malformed_principals, prune_numeric_user_entries.
  destruct (r_kind r); keep_all; apply Hf.
Qed.
Lemma resolve_ok p : keeps helper_ok (resolve p).
Proof.
  unfold resolve_principal, resolve_principal_with. cbv zeta. fold (canonical realm p).
  destruct (is_numeric_local_principal (canonical realm p)) eqn:Hn; [apply keeps_ret|].
  assert (Hfresh : keeps helper_ok (let* r :=
      resolve_fresh server op_timeout_secs commands config env_force paths realm server_variants (canonical realm p) in
      if is_unresolved_fail_closed r then ret r
      else publish server op_timeout_secs commands config ws read_fails paths cache_path (ret false) r)).
  { intros h Hh. rewrite bind_run.
    pose proof (fresh_row server op_timeout_secs commands config env_force paths realm server_variants
      (canonical realm p) h) as [Hp _].
    assert (Hq := quiet_ok _ (fresh_quiet server op_timeout_secs commands config env_force paths realm
      server_variants (canonical realm p)) h Hh).
    destruct (resolve_fresh _ _ _ _ _ _ _ _ _ h) as [r h1]. cbn [fst snd] in *.
    destruct (is_unresolved_fail_closed r); [done|]. apply publish_ok; [apply keeps_ret| |done].
    by rewrite Hp. }
  apply keeps_bind; [apply keeps_get|]. intros c. destruct (cache_get _ _) as [e|]; [|exact Hfresh].
  destruct (is_numeric_local_principal (r_principal e)); [|apply keeps_ret].
  apply keeps_bind; [|intros _; exact Hfresh]. apply keeps_on_cache. intros c'. apply cache_ok_delete.
Qed.
#[local] Hint Resolve resolve_ok : keep.
Lemma groups_ok p force : keeps helper_ok (groups_of p force).
Proof. unfold resolve_gids_and_materialize. keep_all. Qed.
#[local] Hint Resolve groups_ok : keep.
Lemma refresh_ok : keeps helper_ok (refresh_supplemental_nss_for_cached_users server op_timeout_secs commands config
  env_force ws read_fails paths cache_path realm server_variants).
Proof. unfold refresh_supplemental_nss_for_cached_users. keep_all. Qed.
#[local] Hint Resolve refresh_ok : keep.
Lemma warm_ok a pre : keeps helper_ok (warm_rebulk_group_cache server op_timeout_secs realm a pre).
Proof. unfold warm_rebulk_group_cache, warm_name. keep_all. Qed.
#[local] Hint Resolve warm_ok : keep.
Lemma rebulk_apply_ok snap live :
  keeps helper_ok (rebulk_apply_sync server op_timeout_secs commands config env_force ws read_fails paths
     cache_path realm server_variants snap live).
Proof.
  unfold rebulk_apply_sync. intros h Hh. rewrite bind_run. cbn [get fst snd]. rewrite bind_run. cbn [get fst snd].
  pose proof (cache_ok_sync snap realm (h_cache h) live Hh) as Hc.
  destruct (sync_user_cache_from_snapshot _ _ _ _) as [n c'].
  match goal with |- helper_ok (snd (?m h)) => cut (keeps helper_ok m); [intros K; exact (K h Hh)|] end.
  apply keeps_bind; [apply keeps_on_cache; intros _ _; exact Hc|]. intros _. keep_all.
Qed.
#[local] Hint Resolve rebulk_apply_ok : keep.
Lemma rebulk_ok : keeps helper_ok rebulk.
Proof. unfold rebulk_ldap_users. keep_all. Qed.
#[local] Hint Resolve rebulk_ok : keep.

(** One more thing the daemon does, as a step from state to state. *)
Inductive daemon_step : Helper -> Helper -> Prop :=
| step_client line h : daemon_step h (snd (handle line h))
| step_rebulk h : daemon_step h (snd (rebulk h))
| step_world h r : daemon_step h (MkHelper (h_cache h) r (h_slot h) (h_disk h) (h_written h) (h_io h) (h_loads h) (h_cmds h)).

Lemma daemon_start_ok preresolve h0 : helper_ok (snd (start_daemon preresolve h0)).
Proof.
  unfold daemon_start. rewrite bind_run. cbn [get fst snd].
  pose proof (cache_ok_pruned (load_from_file (h_disk h0 !! cache_path)) (keyed_load _)) as Hc.
  destruct (prune_malformed_principals _) as [bad c]. cbn [snd] in Hc.
  destruct (prune_numeric_user_entries c) as [numeric c']. cbn [snd] in Hc.
  rewrite bind_run. cbn [modify fst snd].
  match goal with |- helper_ok (snd (?m ?h)) => cut (keeps helper_ok m); [intros K; apply K; by destruct h0|] end.
  unfold ignored. keep_all.
Qed.
Lemma daemon_step_ok h h' : daemon_step h h' -> helper_ok h -> helper_ok h'.
Proof.
  intros Hs H. destruct Hs as [line h| |]; [|by apply rebulk_ok|done].
  assert (K : keeps helper_ok (handle line)) by (unfold handle_client; keep_all). by apply K.
Qed.

(** The cache of the daemon is well formed.  Whatever the cache file held
    when the daemon started, and whatever clients ask and the outside world
    answers since, every row of the cache is filed under the normal form of
    its principal, has a realm, and is not a number unless it is a machine's. *)
Theorem daemon_cache_well_formed preresolve h0 h :
  rtc daemon_step (snd (start_daemon preresolve h0)) h -> cache_ok (h_cache h).
Proof.
  pose proof (daemon_start_ok preresolve h0) as H0. intros H. change (helper_ok h).
  induction H as [h|h1 h2 h3 Hs _ IH]; [done|]. apply IH. by apply (daemon_step_ok h1).
Qed.
End CacheOk.

Lemma daemon_cache_well_formed_witness :
  let start_ := daemon_start (answering [demo_entry]) 15 (fun _ _ => None) (fun _ => Some demo_config) None
    (fun _ _ => all_well) (fun _ _ => false) demo_paths "/n/cache" "EX.COM" ["nas"] None in
  let handle := handle_client (answering [demo_entry]) 15 (fun _ _ => None) (fun _ => Some demo_config) None
    (fun _ _ => all_well) (fun _ _ => false) demo_paths "/n/cache" "EX.COM" ["nas"] in
  let h := snd (start_ start) in
  map fst (map_to_list (h_cache h)) = ["ann@EX.COM"; "nfs/nas@EX.COM"; "host/nas@EX.COM"]
  /\ cache_ok (h_cache (snd (handle "RESOLVE 17@EX.COM" h))).
Proof.
  split; [by vm_compute|].
  eapply (daemon_cache_well_formed (answering [demo_entry]) 15 (fun _ _ => None) (fun _ => Some demo_config) None
    (fun _ _ => all_well) (fun _ _ => false) demo_paths "/n/cache" "EX.COM" ["nas"] None start).
  apply rtc_once. apply step_client.
Defined.

(** ** A failed reload changes nothing *)
(** A directory that cannot be reached: no connection is accepted, and the
    pooled ones are dead or stall. *)
Definition unreachable (server : nat -> Query -> Attempt) : Prop :=
  forall n q, is_some (a_connect (server n q)) = true /\ (exists e, a_search (server n q) true = Err e).
Section Outage.
Context (server : nat -> Query -> Attempt) (op_timeout_secs : Z) (Hdown : unreachable server).
Lemma unreachable_attempt pooled q r :
  match fst (one_attempt server pooled q r) with Answered _ _ => False | _ => True end.
Proof.
  unfold one_attempt, run_search, send, bind, get, modify, ret. destruct r; cbn.
  destruct (Hdown attempts q) as [Hc [e He]]. destruct pooled; cbn.
  - rewrite He. by destruct (a_stalls _).
  - destruct (a_connect _); [|done]. by destruct (a_stalls _).
Qed.
Lemma unreachable_loop left q r :
  exists e, fst (service_loop server op_timeout_secs left q r) = Err e.
Proof.
  revert r. induction left as [|left IH]; intros r; cbn [service_loop]; [by eexists|].
  rewrite bind_run. destruct (take_pooled_conn (q_dn q) r) as [pooled r1]. cbn [fst snd]. rewrite bind_run.
  pose proof (unreachable_attempt pooled q r1) as Ha.
  destruct (one_attempt server pooled q r1) as [[es c|e|] r2]; cbn [fst snd] in *; [done| |by eexists].
  cbv zeta. destruct (is_some pooled); [apply IH|]. destruct (_ =? _)%nat; [by eexists|].
  rewrite bind_run. apply IH.
Qed.
Lemma unreachable_load ub gb pa dn pw r :
  fst (load_full_identities server op_timeout_secs ub gb pa dn pw r) = 0%nat.
Proof.
  unfold load_full_identities. rewrite !bind_run. cbn [ret fst].
  generalize (snd (clear_caches r)). generalize (bases_from ub). intros l. induction l as [|b l IH]; intros r0; [done|].
  cbn [fold_m]. rewrite bind_run. unfold search. rewrite bind_run.
  match goal with |- context [service_search _ _ ?q ?r] => destruct (unreachable_loop 3 q r) as [e He] end.
  unfold service_search. rewrite He. cbn [ret fst snd]. apply IH.
Qed.
End Outage.

(** C26: An outage keeps the last good identities.  While the directory cannot
    be reached a bulk reload reports failure and leaves the cache of principals
    and every file exactly as they were; so does one whose bulk load reads no
    user, and one without a usable configuration. *)
Theorem failed_rebulk_keeps_identities `{!HashIter string, !HashIter Z} server op_timeout_secs commands config
    env_force ws read_fails paths cache_path realm server_variants (Hdown : unreachable server) h :
  let '(o, h') := rebulk_ldap_users server op_timeout_secs commands config env_force ws read_fails paths
    cache_path realm server_variants h in
  o = None /\ h_cache h' = h_cache h /\ h_disk h' = h_disk h /\ h_written h' = h_written h.
Proof.
  unfold rebulk_ldap_users. rewrite bind_run.
  destruct (quiet_run _ h (get_or_init_quiet config)) as (E1 & E2 & E3).
  destruct (get_or_init_resolver config h) as [[a|] h1]; cbn [fst snd] in *; [|by split_and!].
  rewrite bind_run. destruct (quiet_run _ h1 (r_load_quiet server op_timeout_secs a)) as (E4 & E5 & E6).
  assert (E0 : fst (r_load server op_timeout_secs a h1) = 0%nat).
  { unfold r_load, with_resolver. destruct h1.
    match goal with |- context [load_full_identities ?s ?t ?a ?b ?c ?d ?e ?r] =>
      pose proof (unreachable_load s t Hdown a b c d e r) as E; destruct (load_full_identities s t a b c d e r) end.
    exact E. }
  rewrite E0. cbn. split_and!; congruence.
Qed.
Lemma failed_rebulk_keeps_identities_witness :
  let up := snd (demo (answering [demo_entry]) "ann@EX.COM" start) in
  let server n q := {| a_connect := Some "refused"; a_bind := None; a_search := fun _ => Err "broken pipe";
                       a_stalls := false; a_elapsed := 1 |} in
  let rebulk := rebulk_ldap_users server 15 (fun _ _ => None) (fun _ => Some demo_config) None
    (fun _ _ => all_well) (fun _ _ => false) demo_paths "/n/cache" "EX.COM" ["nas"] in
  h_cache up !! "ann@EX.COM" = Some ann_row
  /\ fst (rebulk up) = None /\ h_cache (snd (rebulk up)) !! "ann@EX.COM" = Some ann_row.
Proof.
  intros up server rebulk.
  assert (E : h_cache up !! "ann@EX.COM" = Some ann_row) by (vm_compute; reflexivity).
  revert E. generalize up. clear up. intros up E. split; [done|].
  pose proof (failed_rebulk_keeps_identities server 15 (fun _ _ => None) (fun _ => Some demo_config) None
    (fun _ _ => all_well) (fun _ _ => false) demo_paths "/n/cache" "EX.COM" ["nas"]
    ltac:(intros n q; split; [done|by eexists]) up) as H.
  fold rebulk in H. clearbody rebulk. destruct (rebulk up) as [o h']. cbn [fst snd].
  destruct H as (-> & -> & _). by split.
Defined.

(** ** Single flight *)
Module FlightProps.
Import Flight.
(** A key is taken exactly while a thread leads it, by one thread, and nobody
    sleeps on a key that is free. *)
Definition inv (s : State) : Prop :=
  (forall k, k ∈ keys s <-> exists i, threads s i = Leader k)
  /\ (forall i j k, threads s i = Leader k -> threads s j = Leader k -> i = j)
  /\ (forall i k, threads s i = Waiting k -> k ∈ keys s).
Lemma set_same i t f : set_thread i t f i = t.
Proof. unfold set_thread. by rewrite Nat.eqb_refl. Qed.
Lemma set_other i j t f : j <> i -> set_thread i t f j = f j.
Proof. intros H. unfold set_thread. by apply Nat.eqb_neq in H as ->. Qed.
Lemma set_cases i j t f x : set_thread i t f j = x -> (j = i /\ x = t) \/ (j <> i /\ f j = x).
Proof. destruct (decide (j = i)) as [->|H]; [rewrite set_same; auto|rewrite set_other; auto]. Qed.
Lemma notify_leader t k : notify t = Leader k <-> t = Leader k.
Proof. by destruct t. Qed.
Lemma notify_waits t k : notify t <> Waiting k.
Proof. by destruct t. Qed.
(** A thread that is not a leader before and after does not matter. *)
Lemma inv_other s i t :
  (forall k, threads s i <> Leader k) -> (forall k, t <> Leader k) -> (forall k, t = Waiting k -> k ∈ keys s) -> inv s ->
  inv {| keys := keys s; threads := set_thread i t (threads s) |}.
Proof.
  intros Hi Ht Hw (H1 & H2 & H3). unfold inv. cbn [keys threads].
  assert (E : forall j k, set_thread i t (threads s) j = Leader k <-> threads s j = Leader k).
  { intros j k. destruct (decide (j = i)) as [->|Hn]; [|by rewrite set_other].
    rewrite set_same. split; intros E; [by destruct (Ht k)|by destruct (Hi k)]. }
  split; [intros k; rewrite H1; by setoid_rewrite E|]. split; [intros i' j' k; rewrite !E; apply H2|].
  intros j k [[-> <-]|[_ Hj]]%set_cases; [by apply Hw|by eapply H3].
Qed.
Lemma inv_enter i k s : threads s i = Idle -> inv s -> inv (enter i k s).
Proof.
  intros Hi Hinv. unfold enter. case_decide as Hk.
  { apply inv_other; [intros k'; by rewrite Hi|done| |done]. by intros k' [= <-]. }
  destruct Hinv as (H1 & H2 & H3). unfold inv. cbn [keys threads]. split; [|split].
  - intros k'. rewrite elem_of_union, elem_of_singleton, H1. split.
    + intros [->|[j Hj]]; [exists i; by rewrite set_same|]. exists j. rewrite set_other; [done|]. intros ->. by rewrite Hi in Hj.
    + intros [j [[-> [= ->]]|[_ Hj]]%set_cases]; [by left|right; by exists j].
  - intros a b k' [[-> [= ->]]|[Hna Ha]]%set_cases [[-> Eb]|[Hnb Hb]]%set_cases; [done| | |by apply (H2 a b k')].
    + destruct Hk. apply H1. by exists b.
    + injection Eb as ->. destruct Hk. apply H1. by exists a.
  - intros j k' [[-> ?]|[_ Hj]]%set_cases; [done|]. apply elem_of_union. right. by eapply H3.
Qed.
Lemma inv_release i k s : threads s i = Leader k -> inv s -> inv (release i k s).
Proof.
  intros Hi (H1 & H2 & H3). unfold inv, release. cbn [keys threads]. split; [|split].
  - intros k'. rewrite elem_of_difference, elem_of_singleton, H1. unfold notify_all. setoid_rewrite notify_leader. split.
    + intros [[j Hj] Hne]. exists j. rewrite set_other; [done|]. intros ->. rewrite Hi in Hj. congruence.
    + intros [j [[_ ?]|[Hn Hj]]%set_cases]; [done|]. split; [by exists j|]. intros ->. destruct Hn. by apply (H2 j i k).
  - unfold notify_all. intros a b k' Ha Hb. rewrite notify_leader in Ha, Hb.
    apply set_cases in Ha as [[_ ?]|[_ Ha]], Hb as [[_ ?]|[_ Hb]]; try done. by apply (H2 a b k').
  - intros j k' Hj. by apply notify_waits in Hj.
Qed.
Lemma inv_step s s' : step s s' \/ spurious s s' -> inv s -> inv s'.
Proof.
  intros [[i k s0 Hi|i k s0 Hi|i k s0 Hi|i k s0 Hi]|[i k s0 Hi]] Hinv.
  - by apply inv_enter.
  - apply inv_other; [intros k'; by rewrite Hi| | |done]; intros k'; case_decide; try done. by intros [= <-].
  - by apply inv_release.
  - apply inv_other; try done. intros k'; by rewrite Hi.
  - apply inv_other; try done. intros k'; by rewrite Hi.
Qed.
Lemma flight_inv s : reachable s -> inv s.
Proof.
  assert (H0 : inv init).
  { split_and!; cbn; [|done|done]. intros k. split; [by intros ?%elem_of_empty|by intros [i Hi]]. }
  intros H. induction H as [s|s1 s2 s3 Hs _ IH]; [done|]. apply IH. by apply (inv_step s1).
Qed.
(** A notified thread whose key is free goes on by itself. *)
Lemma notified_follows i k s :
  threads s i = Notified k -> k ∉ keys s -> step s (recheck i k s) /\ threads (recheck i k s) i = Follower k.
Proof. intros Hi Hk. split; [by constructor|]. cbn. by rewrite set_same, decide_False. Qed.

(** C27: equal requests share one resolution, and none sleeps forever, whatever
    threads come and go and wake up unasked.  In every reachable state at most one
    thread leads a key and a key is taken exactly while a thread leads it; a
    thread asleep sleeps on a key that is led (so no wake-up was lost), and the
    end of any leader wakes every sleeper; and each thread that waits, asleep or
    woken, becomes a follower by the steps of the leader of its key and its own,
    without any unasked wake-up and without one step of the others. *)
Theorem single_flight s :
  reachable s ->
  (forall i j k, threads s i = Leader k -> threads s j = Leader k -> i = j)
  /\ (forall k, k ∈ keys s <-> exists i, threads s i = Leader k)
  /\ (forall i k, threads s i = Waiting k -> exists j, threads s j = Leader k)
  /\ (forall j k s', threads s j = Leader k -> step s s' -> threads s' j <> Leader k ->
        k ∉ keys s' /\ forall i k', threads s i = Waiting k' -> threads s' i = Notified k')
  /\ (forall i k, threads s i = Waiting k \/ threads s i = Notified k ->
      exists s', rtc step s s' /\ threads s' i = Follower k
        /\ forall j, j <> i -> threads s' j = threads s j \/ threads s' j = notify (threads s j)
                               \/ (threads s j = Leader k /\ threads s' j = Idle)).
Proof.
  intros (H1 & H2 & H3)%flight_inv. split; [done|]. split; [done|]. split; [|split].
  - intros i k Hi. apply H1. by eapply H3.
  - intros j k s' Hj Hs Hne. destruct Hs as [i k' s Hi|i k' s Hi|i k' s Hi|i k' s Hi].
    + destruct Hne. unfold enter. case_decide; cbn; rewrite set_other; [done|congruence|done|congruence].
    + destruct Hne. cbn. rewrite set_other; [done|congruence].
    + destruct (decide (j = i)) as [->|Hn].
      * assert (k' = k) as -> by congruence. cbn. split; [set_solver|]. intros i' k' Hi'. unfold notify_all.
        rewrite set_other by congruence. by rewrite Hi'.
      * destruct Hne. cbn. unfold notify_all. rewrite set_other by done. by rewrite Hj.
    + destruct Hne. cbn. rewrite set_other; [done|congruence].
  - intros i k Hi. destruct (decide (k ∈ keys s)) as [Hk|Hk].
    + destruct (proj1 (H1 k) Hk) as [j Hj]. assert (Hij : i <> j) by (intros ->; destruct Hi; congruence).
      destruct (notified_follows i k (release j k s)) as [Hstep Hf]; [|cbn; set_solver|].
      { cbn. unfold notify_all. rewrite set_other by done. by destruct Hi as [-> | ->]. }
      exists (recheck i k (release j k s)). split; [eapply rtc_l; [by apply drop_leader|by apply rtc_once]|]. split; [exact Hf|].
      intros j' Hj'. cbn. rewrite set_other by done. unfold notify_all.
      destruct (decide (j' = j)) as [->|Hn]; [right; right; by rewrite set_same|right; left; by rewrite set_other].
    + destruct Hi as [Hi|Hi]; [by apply H3 in Hi|]. destruct (notified_follows i k s Hi Hk) as [Hstep Hf].
      exists (recheck i k s). split; [by apply rtc_once|]. split; [exact Hf|]. intros j Hj. left. cbn. by rewrite set_other.
Qed.
Lemma single_flight_witness :
  exists s, reachable s /\ threads s 0%nat = Leader "RESOLVE:ann" /\ threads s 1%nat = Waiting "RESOLVE:ann"
    /\ exists s', rtc step s s' /\ threads s' 1%nat = Follower "RESOLVE:ann".
Proof.
  set (s1 := enter 0 "RESOLVE:ann" init). set (s2 := enter 1 "RESOLVE:ann" s1).
  assert (H : reachable s2).
  { eapply rtc_l; [left; by apply (enters 0 "RESOLVE:ann")|]. apply rtc_once. left. by apply (enters 1 "RESOLVE:ann" s1). }
  exists s2. split_and!; [done|by vm_compute|by vm_compute|].
  destruct (single_flight s2 H) as (_ & _ & _ & _ & Hw). destruct (Hw 1%nat "RESOLVE:ann") as (s' & ? & ? & _).
  - left. vm_compute. reflexivity.
  - by exists s'.
Defined.
End FlightProps.

(** ** What a groups request answers *)
Lemma elem_of_push_unique_fold l s g : g ∈ foldl push_unique s l <-> g ∈ s \/ g ∈ l.
Proof.
  revert s. induction l as [|x l IH]; intros s; cbn; [set_solver|]. rewrite IH, elem_of_cons.
  unfold push_unique. destruct (existsb (Z.eqb x) s) eqn:E; [|set_solver].
  apply existsb_zeqb in E. set_solver.
Qed.
Lemma NoDup_push_unique l s : NoDup s -> NoDup (foldl push_unique s l).
Proof.
  revert s. induction l as [|x l IH]; intros s Hs; cbn; [done|]. apply IH. unfold push_unique.
  destruct (existsb (Z.eqb x) s) eqn:E; [done|]. apply NoDup_app. split; [done|]. split; [|apply NoDup_singleton].
  intros y Hy ->%list_elem_of_singleton. apply existsb_zeqb in Hy. congruence.
Qed.
Lemma head_push_unique l x s : head (foldl push_unique (x :: s) l) = Some x.
Proof.
  revert s. induction l as [|y l IH]; intros s; cbn [foldl]; [done|]. unfold push_unique at 2.
  destruct (existsb _ _); [apply IH|]. cbn. apply IH.
Qed.
Lemma merge_group_gids_spec primary l :
  NoDup (merge_group_gids primary l) /\ head (merge_group_gids primary l) = Some primary
  /\ forall g, g ∈ merge_group_gids primary l <-> g = primary \/ g ∈ l.
Proof.
  unfold merge_group_gids. split_and!; [apply NoDup_push_unique, NoDup_singleton|apply head_push_unique|].
  intros g. by rewrite elem_of_push_unique_fold, list_elem_of_singleton.
Qed.

(** Computations that leave the cache alone, whatever they do to files. *)
Definition same_cache {A} (m : H A) : Prop := forall c, keeps (fun h => h_cache h = c) m.
Lemma quiet_same_cache {A} (m : H A) : quiet m -> same_cache m.
Proof. intros Hm c h <-. apply (quiet_run m h Hm). Qed.
Lemma disk_op_same_cache {A} paths (f : nat -> Disk -> A * Disk) : same_cache (disk_op paths f).
Proof. intros c h Hh. unfold disk_op. destruct h. by destruct (f _ _). Qed.

Section Groups.
Context `{!HashIter string, !HashIter Z}.
Context (server : nat -> Query -> Attempt) (op_timeout_secs : Z).
Context (commands : nat -> list string -> option string).
Context (config : nat -> option HelperConfig) (env_force : option string).
Context (ws : nat -> string -> WriteWorld) (read_fails : nat -> string -> bool).
Context (paths : NssMaterializePaths) (cache_path realm : string) (server_variants : list string).

Local Abbreviation resolve :=
  (resolve_principal server op_timeout_secs commands config env_force ws read_fails paths cache_path
     realm server_variants).
Local Abbreviation groups_of :=
  (resolve_gids_and_materialize server op_timeout_secs commands config env_force ws read_fails paths
     cache_path realm server_variants).

Lemma ensure_member_same_cache c g l : keeps (fun h => h_cache h = c) (ensure_member ws read_fails paths g l).
Proof. apply keeps_bind; [apply disk_op_same_cache|]. intros ?. apply keeps_ret. Qed.
Lemma materialize_same_cache c gs : keeps (fun h => h_cache h = c) (materialize ws paths gs).
Proof. apply keeps_bind; [apply keeps_get|]. intros ?. apply disk_op_same_cache. Qed.
Lemma write_cache_same_cache c : keeps (fun h => h_cache h = c) (write_cache ws paths cache_path).
Proof. apply keeps_bind; [apply keeps_get|]. intros ?. apply disk_op_same_cache. Qed.
Lemma snapshot_groups_same_cache c : keeps (fun h => h_cache h = c) (snapshot_groups config).
Proof. apply quiet_same_cache, snapshot_groups_quiet. Qed.
#[local] Hint Resolve ensure_member_same_cache materialize_same_cache snapshot_groups_same_cache : keep.
Lemma ensure_memberships_same_cache c r gids :
  keeps (fun h => h_cache h = c) (ensure_memberships ws read_fails paths r gids).
Proof. unfold ensure_memberships, ensure_root_on_supplemental_groups. keep_all. Qed.
#[local] Hint Resolve ensure_memberships_same_cache : keep.
Lemma ensure_materialized_same_cache c r gids :
  keeps (fun h => h_cache h = c) (ensure_nss_materialized_for config ws read_fails paths r gids).
Proof. unfold ensure_nss_materialized_for. keep_all. Qed.
#[local] Hint Resolve ensure_materialized_same_cache : keep.

Definition primary (r : Resolved) : Z := if is_machine r then MACHINE_GID else r_gid r.
Lemma compute_gids_merge r p h :
  exists extra, fst (compute_gids_for_resolved server op_timeout_secs config r p h)
    = merge_group_gids (primary r) extra.
Proof.
  unfold compute_gids_for_resolved, primary. destruct (is_machine r).
  - rewrite bind_run. destruct (fst (get_or_init_resolver config h)); rewrite bind_run; eexists; reflexivity.
  - rewrite bind_run. destruct (fst (get_or_init_resolver config h)); rewrite bind_run; eexists; reflexivity.
Qed.

Lemma with_supps_same r : with_supps (r_supps r) r = r.
Proof. by destruct r. Qed.

(** A groups request answers what NSS will say.  For a principal that
    resolves to a cached row, the reply lists every gid once, the primary one
    first, and is as a set the gid and the supplemental gids the row then has,
    which are the gids the next build of the group stores claims for it; an
    unresolved principal gets no group. *)
Theorem groups_reply_is_cached_row p force h :
  eq_ignore_ascii_case (trim p) "root" = false -> seqb (trim p) "0" = false ->
  let '(r, h1) := resolve p h in
  let '(gs, h') := groups_of p force h in
  let key := normalize_principal (r_principal r) in
  if is_unresolved_fail_closed r then gs = [] /\ h' = h1
  else
    NoDup gs /\ head gs = Some (primary r)
    /\ (forall e, h_cache h1 !! key = Some e -> r_gid e = primary r ->
        exists e', h_cache h' !! key = Some e' /\ r_gid e' = r_gid e
          /\ forall g, g ∈ gs <-> g ∈ claims e').
Proof.
  intros H1 H2. unfold resolve_gids_and_materialize. cbv zeta. rewrite H1, H2. cbn [orb].
  rewrite bind_run. destruct (resolve p h) as [r h1]. cbn [fst snd].
  destruct (is_unresolved_fail_closed r); [done|]. rewrite bind_run.
  destruct (compute_gids_merge r p h1) as [extra Hx].
  destruct (merge_group_gids_spec (primary r) extra) as (Hn & Hh & Hm). rewrite <-Hx in Hn, Hh, Hm.
  destruct (quiet_run _ h1 (compute_gids_quiet server op_timeout_secs config r p)) as (E1 & _).
  destruct (compute_gids_for_resolved _ _ _ r p h1) as [gids h2]. cbn [fst snd] in *. clear Hx.
  rewrite bind_run. cbn [get fst snd]. rewrite E1. set (key := normalize_principal (r_principal r)).
  destruct (h_cache h1 !! key) as [e|] eqn:Ee.
  - rewrite bind_run. set (supps := foldl push_unique _ _).
    match goal with |- context [snd (?X h2)] => set (upd := X h2) end.
    assert (Hg : fst upd = foldl push_unique gids supps) by (unfold upd; by rewrite bind_run).
    assert (Hc : h_cache (snd upd) !! key = Some (with_supps supps e)).
    { unfold upd. rewrite bind_run. cbn [ret snd]. case_bool_decide as Es.
      - cbn [ret snd]. by rewrite E1, Ee, <-Es, with_supps_same.
      - rewrite bind_run, bind_run. cbn [ret snd]. erewrite (write_cache_same_cache _ _ eq_refl). cbn.
        destruct h2; cbn in *. rewrite E1, Ee. by rewrite lookup_insert_eq. }
    rewrite Hg. match goal with |- let '(gs, h') := ?m (snd upd) in _ =>
      assert (Hk : keeps (fun h => h_cache h = h_cache (snd upd)) m) by keep_all;
      assert (Hf : fst (m (snd upd)) = foldl push_unique gids supps) by (by rewrite bind_run, bind_run);
      specialize (Hk (snd upd) eq_refl); destruct (m (snd upd)) as [gs' h'] end.
    cbn [fst snd] in *. subst gs'. split_and!.
    + by apply NoDup_push_unique.
    + destruct gids as [|x gids]; [done|]. cbn in Hh. injection Hh as ->. apply head_push_unique.
    + intros e' [= <-] He. exists (with_supps supps e). rewrite Hk. split; [done|]. split; [done|].
      intros g. unfold claims. cbn. rewrite elem_of_push_unique_fold, elem_of_cons. unfold supps.
      rewrite !elem_of_push_unique_fold. unfold not_eq. rewrite elem_of_filter_In.
      rewrite (Hm g), <-He. rewrite negb_true_iff, Z.eqb_neq. destruct (decide (g = r_gid e)); naive_solver.
  - cbn [ret]. rewrite bind_run. cbn [ret fst snd].
    match goal with |- let '(gs, h') := ?m h2 in _ =>
      assert (Hf : fst (m h2) = gids) by (by rewrite bind_run, bind_run); destruct (m h2) as [gs' h'] end.
    cbn [fst] in Hf. subst gs'. by split_and!.
Qed.
End Groups.
Lemma groups_reply_is_cached_row_witness :
  let groups_of := resolve_gids_and_materialize (answering [demo_entry]) 15 (fun _ _ => None)
    (fun _ => Some demo_config) None (fun _ _ => all_well) (fun _ _ => false) demo_paths "/n/cache" "EX.COM" ["nas"] in
  let '(gs, h') := groups_of "ann@EX.COM" false start in
  gs = [2001] /\ exists e', h_cache h' !! "ann@EX.COM" = Some e' /\ forall g, g ∈ gs <-> g ∈ claims e'.
Proof.
  cbv zeta.
  pose proof (groups_reply_is_cached_row (answering [demo_entry]) 15 (fun _ _ => None)
    (fun _ => Some demo_config) None (fun _ _ => all_well) (fun _ _ => false) demo_paths "/n/cache" "EX.COM" ["nas"]
    "ann@EX.COM" false start eq_refl eq_refl) as H.
  assert (E1 : fst (demo (answering [demo_entry]) "ann@EX.COM" start) = ann_row) by (vm_compute; reflexivity).
  assert (E2 : h_cache (snd (demo (answering [demo_entry]) "ann@EX.COM" start)) !! "ann@EX.COM" = Some ann_row)
    by (vm_compute; reflexivity).
  assert (E3 : fst (resolve_gids_and_materialize (answering [demo_entry]) 15 (fun _ _ => None)
    (fun _ => Some demo_config) None (fun _ _ => all_well) (fun _ _ => false) demo_paths "/n/cache" "EX.COM" ["nas"]
    "ann@EX.COM" false start) = [2001]) by (vm_compute; reflexivity).
  unfold demo in E1, E2. destruct (resolve_principal _ _ _ _ _ _ _ _ _ _ _ _ _) as [r h1].
  destruct (resolve_gids_and_materialize _ _ _ _ _ _ _ _ _ _ _ _ _ _) as [gs h']. cbn [fst snd] in *. subst r gs.
  destruct H as (_ & _ & H). destruct (H ann_row E2 eq_refl) as (e' & ? & _ & ?). split; [done|]. by exists e'.
Defined.

(** ** A realm principal is looked up under its full name only *)
(** Every search sent after [s0] satisfies [P]. *)
Definition sends_only (P : Query -> Prop) (s0 : list Sent) (r : Resolver) : Prop :=
  exists l, sent r = s0 ++ l /\ Forall (fun s => P (s_query s)) l.
Section Sends.
Context (server : nat -> Query -> Attempt) (op_timeout_secs : Z) (P : Query -> Prop) (s0 : list Sent).
Local Abbreviation I := (sends_only P s0).
Lemma sends_ext r r' : sent r' = sent r -> I r -> I r'.
Proof. intros E (l & H & ?). exists l. by rewrite E. Qed.
Lemma sends_modify f : (forall r, sent (f r) = sent r) -> keeps I (modify f).
Proof. intros Hf. apply keeps_modify. intros r. apply sends_ext, Hf. Qed.
Lemma sends_take dn : keeps I (take_pooled_conn dn).
Proof. intros r. unfold take_pooled_conn. destruct (last _); apply sends_ext; by destruct r. Qed.
Lemma sends_store c dn : keeps I (store_pooled_conn c dn).
Proof. apply sends_modify. intros r. destruct (_ <=? _)%nat; by destruct r. Qed.
Lemma sends_send c q : P q -> keeps I (send c q).
Proof.
  intros Hq. apply keeps_modify. intros r (l & H & Hl). exists (l ++ [{| s_conn := c; s_query := q; s_at := now r |}]).
  destruct r; cbn in *. rewrite H, app_assoc. split; [done|]. apply Forall_app. split; [done|]. by constructor.
Qed.
Lemma sends_counters f : (forall r, sent (f r) = sent r) -> keeps I (modify f).
Proof. apply sends_modify. Qed.
Ltac sends_trivial := apply sends_modify; by intros [].
Lemma sends_attempt pooled q : P q -> keeps I (one_attempt server pooled q).
Proof.
  intros Hq. unfold one_attempt, run_search. keep_all; try sends_trivial; by apply sends_send.
Qed.
#[local] Hint Resolve sends_take sends_store : keep.
Lemma sends_search q : P q -> keeps I (service_search server op_timeout_secs q).
Proof.
  intros Hq. unfold service_search. generalize 3%nat as left. induction left as [|left IH]; [apply keeps_ret|].
  cbn [service_loop]. apply keeps_bind; [apply sends_take|]. intros pooled.
  apply keeps_bind; [by apply sends_attempt|]. intros o. keep_all; try exact IH. sends_trivial.
Qed.
Lemma sends_evict : keeps I evict_expired.
Proof.
  apply sends_modify. intros r. cbv zeta. destruct (last_evict r); [destruct (_ <? _)|]; by destruct r.
Qed.
Lemma sends_hit : keeps I hit.
Proof. sends_trivial. Qed.
Lemma sends_miss : keeps I miss.
Proof. sends_trivial. Qed.
Lemma sends_negative k : keeps I (mark_negative k).
Proof. sends_trivial. Qed.
Lemma sends_negative_hit k : keeps I (negative_hit k).
Proof. apply keeps_get. Qed.
Lemma sends_clear : keeps I clear_caches.
Proof. sends_trivial. Qed.
Lemma sends_cache_user k u cu : keeps I (cache_user k u cu).
Proof. unfold cache_user. keep_all; sends_trivial. Qed.
Lemma sends_cache_group k g cg : keeps I (cache_group k g cg).
Proof. unfold cache_group. keep_all; sends_trivial. Qed.
#[local] Hint Resolve sends_evict sends_hit sends_miss sends_negative sends_negative_hit sends_clear
  sends_cache_user sends_cache_group : keep.
Lemma sends_take_user pa k n es : keeps I (take_user pa k n es).
Proof. unfold take_user. keep_all. Qed.
Lemma sends_load_user pa n se : keeps I (load_user pa n se).
Proof. unfold load_user. keep_all; sends_trivial. Qed.
Lemma sends_load_group pa se : keeps I (load_group pa se).
Proof. unfold load_group. keep_all. Qed.
Lemma sends_snapshot `{!HashIter string} : keeps I snapshot.
Proof. unfold snapshot. keep_all. Qed.
#[local] Hint Resolve sends_take_user sends_load_user sends_load_group : keep.
Lemma sends_bases pa dn pw n f attrs bases :
  (forall b, P {| q_base := b; q_filter := f; q_attrs := attrs; q_dn := dn; q_pw := pw |}) ->
  keeps I (user_bases_loop server op_timeout_secs pa dn pw n f attrs bases).
Proof.
  intros HP. induction bases as [|b l IH]; cbn [user_bases_loop]; [apply keeps_ret|].
  apply keeps_bind; [by apply sends_search|]. intros res. keep_all; exact IH.
Qed.
Lemma sends_resolve_user ub pa dn pw n :
  (forall b attrs, P {| q_base := b; q_filter := eq_filter (user_object_class pa) (user_name pa) (escape_ldap_filter n);
                        q_attrs := attrs; q_dn := dn; q_pw := pw |}) ->
  (forall b attrs, P {| q_base := b; q_filter := eq_filter (user_object_class pa) (user_principal_name pa) (escape_ldap_filter n);
                        q_attrs := attrs; q_dn := dn; q_pw := pw |}) ->
  keeps I (Resolver.resolve_user server op_timeout_secs ub pa dn pw n).
Proof.
  intros H1 H2. unfold Resolver.resolve_user.
  apply keeps_bind; [apply sends_evict|]. intros _. apply keeps_bind; [apply keeps_get|]. intros c.
  destruct (_ ≫= _) as [[h u]|]; [keep_all|]. apply keeps_bind; [apply sends_miss|]. intros _.
  apply keeps_bind; [apply keeps_get|]. intros neg. destruct neg; [apply keeps_ret|].
  apply keeps_bind; [apply sends_bases; intros b; apply H1|]. intros [[u|] unr]; [apply keeps_ret|].
  apply keeps_bind; [|intros [u|]; keep_all]. destruct (_ && _); [|apply keeps_ret].
  apply keeps_first_of. intros b _. apply keeps_bind; [apply sends_search, H2|]. intros res. keep_all.
Qed.
Lemma sends_group_by_gid gb pa dn pw g :
  (forall q, q_filter q = eq_filter (group_object_class pa) (group_gid_number pa) (dec_i32 g) -> P q) ->
  keeps I (resolve_group_by_gid server op_timeout_secs gb pa dn pw g).
Proof.
  intros HP. unfold resolve_group_by_gid, search. keep_all. by apply sends_search, HP.
Qed.
Lemma sends_load ub gb pa dn pw :
  (forall q, q_filter q = class_filter (user_object_class pa) -> P q) ->
  (forall q, q_filter q = class_filter (group_object_class pa) -> P q) ->
  keeps I (load_full_identities server op_timeout_secs ub gb pa dn pw).
Proof.
  intros H1 H2. unfold load_full_identities, search. keep_all; apply sends_search; auto.
Qed.
End Sends.

(** The searches that may be made for the full name [p]. *)
Definition asks_full_name (pa : PosixAttributeMapping) (p : string) (q : Query) : Prop :=
  q_filter q = eq_filter (user_object_class pa) (user_name pa) (escape_ldap_filter p)
  \/ q_filter q = eq_filter (user_object_class pa) (user_principal_name pa) (escape_ldap_filter p)
  \/ q_filter q = class_filter (user_object_class pa) \/ q_filter q = class_filter (group_object_class pa)
  \/ exists g, q_filter q = eq_filter (group_object_class pa) (group_gid_number pa) (dec_i32 g).
(** The access that a lookup works with: the resolver there is, or the one that
    the configuration gives. *)
Definition access_of (config : nat -> option HelperConfig) (h : Helper) : option Access :=
  match h_slot h with Some a => Some a | None => load_resolver_from_config (config (h_loads h)) end.
(** What has been asked since. *)
Definition asked_full (P : Query -> Prop) (p : string) (s0 : list Sent) (c0 : list (list string)) (h : Helper) : Prop :=
  sends_only P s0 (h_resolver h)
  /\ exists l, h_cmds h = c0 ++ l /\ Forall (fun args => args = ["getent"; "passwd"; p]) l.

Section FullName.
Context `{!HashIter string}.
Context (server : nat -> Query -> Attempt) (op_timeout_secs : Z).
Context (commands : nat -> list string -> option string).
Context (config : nat -> option HelperConfig) (env_force : option string) (paths : NssMaterializePaths).

(** ** The lookup of a full name *)
(** What the directory says of [p]: the row of the snapshot that is filed under
    [p], or the answer to a search for it. *)
Definition directory_ids (a : Access) (p : string) : H (option Ids) :=
  let* snap := r_snapshot in
  let* live := uid_gid_from_user_resolve server op_timeout_secs a p in
  ret (or_else (snap_ids <$> users snap !! p) live).
(** Reference: getent and the files for [p], the override of the tests, the
    directory for [p], and once more after a bulk load. *)
Definition full_name_ids (p : string) : H (option (Z * Z * string)) :=
  let* nss := resolve_getent commands paths p in
  match or_else nss (ldap_ids (test_force_ldap_uid_gid env_force p)) with
  | Some ids => ret (Some ids)
  | None =>
      let* a := get_or_init_resolver config in
      match a with
      | None => ret None
      | Some a =>
          let* ids := directory_ids a p in
          match ids with
          | Some ids => ret (ldap_ids (Some ids))
          | None =>
              do* r_load server op_timeout_secs a in
              let* ids := directory_ids a p in
              match ids with
              | Some (u, g) => do* r_group_by_gid server op_timeout_secs a (as_i32 g) in ret (ldap_ids (Some (u, g)))
              | None => ret None
              end
          end
      end
  end.
Lemma try_resolve_full a p h :
  principal_has_realm p = true ->
  (let* snap := r_snapshot in try_resolve server op_timeout_secs a p snap) h = directory_ids a p h.
Proof.
  intros Hr. unfold try_resolve, directory_ids, ldap_snapshot_pair, uid_gid_from_snapshot, resolve_identity_candidates.
  rewrite !bind_run. rewrite Hr. cbv beta iota zeta. cbn [ret fst snd or_else ldap_ids fmap option_fmap option_map].
  set (snap := fst (r_snapshot h)). set (h1 := snd (r_snapshot h)).
  set (live := fst (uid_gid_from_user_resolve server op_timeout_secs a p h1)).
  destruct (contains_char "@" p), (users snap !! p) as [u|], live as [[u' g']|]; done.
Qed.
Lemma via_nss_full p h :
  principal_has_realm (trim p) = true ->
  resolve_via_nss server op_timeout_secs commands config env_force paths p h = full_name_ids (trim p) h.
Proof.
  intros Hr. unfold resolve_via_nss, full_name_ids. rewrite Hr. cbn [negb andb]. rewrite !bind_run. cbn [ret fst snd].
  set (t := trim p) in *. unfold resolve_identity_candidates. rewrite Hr. cbv zeta.
  destruct (fst (resolve_getent commands paths t h)) as [ids|]; [done|]. cbn [or_else ldap_ids fmap option_fmap option_map].
  assert (Hf : (if contains_char "@" t then ldap_ids (test_force_ldap_uid_gid env_force t) else None)
    = ldap_ids (test_force_ldap_uid_gid env_force t)).
  { unfold test_force_ldap_uid_gid. by destruct (contains_char "@" t). }
  rewrite Hf. destruct (ldap_ids (test_force_ldap_uid_gid env_force t)) as [[[u g] src]|]; [done|]. cbn [or_else].
  rewrite bind_run. unfold resolve_via_structured_ldap. rewrite !bind_run.
  destruct (fst (get_or_init_resolver config _)) as [a|]; [|done].
  set (h1 := snd (get_or_init_resolver config _)). rewrite !bind_run.
  pose proof (try_resolve_full a t h1 Hr) as E. rewrite bind_run in E. rewrite E. clear E.
  destruct (fst (directory_ids a t h1)) as [[u g]|]; [done|]. rewrite !bind_run.
  set (h2 := snd (r_load server op_timeout_secs a _)).
  pose proof (try_resolve_full a t h2 Hr) as E. rewrite bind_run in E. rewrite E. clear E.
  destruct (fst (directory_ids a t h2)) as [[u g]|]; [|done]. by rewrite !bind_run.
Qed.

(** ** What it asks *)
Context (p : string) (s0 : list Sent) (c0 : list (list string)).
Section Asked.
Context (a : Access).
Local Abbreviation P := (asks_full_name (rc_posix_attributes (ac_resolver a)) p).
Local Abbreviation J := (asked_full P p s0 c0).
Lemma full_with_resolver {A} (m : M Resolver A) : keeps (sends_only P s0) m -> keeps J (with_resolver m).
Proof.
  intros Hm h (H2 & H3). unfold with_resolver. destruct h; cbn in *. specialize (Hm _ H2).
  by destruct (m _).
Qed.
Lemma full_user : keeps J (uid_gid_from_user_resolve server op_timeout_secs a p).
Proof.
  unfold uid_gid_from_user_resolve, r_user. apply keeps_bind; [|intros ?; apply keeps_ret].
  apply full_with_resolver, sends_resolve_user; intros b attrs; unfold asks_full_name; cbn; auto.
Qed.
Lemma full_snapshot : keeps J r_snapshot.
Proof. apply full_with_resolver, sends_snapshot. Qed.
Lemma full_group g : keeps J (r_group_by_gid server op_timeout_secs a g).
Proof.
  unfold r_group_by_gid. apply keeps_bind; [|intros ?; apply keeps_ret].
  apply full_with_resolver, sends_group_by_gid. intros q Hq. unfold asks_full_name. eauto 6.
Qed.
Lemma full_load : keeps J (r_load server op_timeout_secs a).
Proof. apply full_with_resolver, sends_load; intros q Hq; unfold asks_full_name; auto. Qed.
#[local] Hint Resolve full_user full_snapshot full_group full_load : keep.
Lemma full_directory : keeps J (directory_ids a p).
Proof. unfold directory_ids. keep_all. Qed.
End Asked.
#[local] Hint Resolve full_directory full_group full_load : keep.
(** The searches that the access of [h] may lead to. *)
Definition asked_with (o : option Access) (q : Query) : Prop :=
  match o with Some a => asks_full_name (rc_posix_attributes (ac_resolver a)) p q | None => False end.
Lemma full_getent P : keeps (asked_full P p s0 c0) (resolve_getent commands paths p).
Proof.
  unfold resolve_getent, run_command. apply keeps_bind; [|intros o; keep_all].
  apply keeps_bind; [apply keeps_get|]. intros n. apply keeps_bind; [|intros _; apply keeps_ret].
  apply keeps_modify. intros [] (H2 & (l & Hl & Hf)). split; [done|]. cbn in *.
  exists (l ++ [["getent"; "passwd"; p]]). rewrite Hl, app_assoc. split; [done|].
  apply Forall_app. split; [done|]. by constructor.
Qed.
Lemma getent_access h : access_of config (snd (resolve_getent commands paths p h)) = access_of config h.
Proof.
  unfold resolve_getent, run_command. rewrite !bind_run. cbn [get modify ret fst snd].
  by destruct h, (commands _ _ ≫= _) as [[]|].
Qed.
Lemma init_access P h :
  asked_full P p s0 c0 h ->
  fst (get_or_init_resolver config h) = access_of config h /\ asked_full P p s0 c0 (snd (get_or_init_resolver config h)).
Proof.
  intros Hh. unfold get_or_init_resolver, access_of. rewrite bind_run. cbn [get fst snd]. destruct (h_slot h); [done|].
  rewrite !bind_run. cbn [get modify fst snd]. destruct (load_resolver_from_config _); destruct h; by split.
Qed.
Lemma full_name_asks h :
  asked_full (asked_with (access_of config h)) p s0 c0 h ->
  asked_full (asked_with (access_of config h)) p s0 c0 (snd (full_name_ids p h)).
Proof.
  intros Hh. unfold full_name_ids. rewrite bind_run.
  pose proof (full_getent _ h Hh) as H1. pose proof (getent_access h) as Ha.
  destruct (resolve_getent commands paths p h) as [nss h1]. cbn [fst snd] in *.
  destruct (or_else nss _); [done|]. rewrite bind_run. destruct (init_access _ h1 H1) as [E H2].
  destruct (get_or_init_resolver config h1) as [o h2]. cbn [fst snd] in *. rewrite Ha in E. subst o.
  destruct (access_of config h) as [a|]; [|done]. revert h2 H2. change (keeps (asked_full (asked_with (Some a)) p s0 c0)
    (let* ids := directory_ids a p in
     match ids with
     | Some ids => ret (ldap_ids (Some ids))
     | None =>
         do* r_load server op_timeout_secs a in
         let* ids := directory_ids a p in
         match ids with
         | Some (u, g) => do* r_group_by_gid server op_timeout_secs a (as_i32 g) in ret (ldap_ids (Some (u, g)))
         | None => ret None
         end
     end)). unfold asked_with. keep_all.
Qed.
End FullName.

(** C14: a principal with a realm is never taken for a local name, nor for that of
    another realm.  Its lookup is, answer and effects alike, the reference lookup
    [full_name_ids], which knows the full name only: what getent and the files
    say of the full name, the override of the tests, the row of the snapshot
    filed under the full name, the answer of the directory to a search for it.
    And the searches and commands that it sends, with the resolver there is or
    the one the configuration gives, name the full principal, or are the bulk
    load and the search for the group of the answer. *)
Theorem realm_principal_asked_in_full `{!HashIter string} server op_timeout_secs commands config env_force paths p h :
  principal_has_realm (trim p) = true ->
  let r := resolve_via_nss server op_timeout_secs commands config env_force paths p h in
  r = full_name_ids server op_timeout_secs commands config env_force paths (trim p) h
  /\ (exists l, sent (h_resolver (snd r)) = sent (h_resolver h) ++ l
        /\ Forall (fun s => asked_with (trim p) (access_of config h) (s_query s)) l)
  /\ (exists l, h_cmds (snd r) = h_cmds h ++ l /\ Forall (fun args => args = ["getent"; "passwd"; trim p]) l).
Proof.
  intros Hr. cbv zeta. split; [by apply via_nss_full|]. rewrite via_nss_full by done.
  apply (full_name_asks server op_timeout_secs commands config env_force paths (trim p)
    (sent (h_resolver h)) (h_cmds h) h).
  split; exists []; rewrite app_nil_r; by split.
Qed.
(** A user [ann] of the snapshot does not answer for ann@OTHER.ORG. *)
Definition loaded_helper : Helper :=
  snd (rebulk_ldap_users (answering [demo_entry]) 15 (fun _ _ => None) (fun _ => Some demo_config) None (fun _ _ => all_well)
    (fun _ _ => false) demo_paths "/n/cache" "EX.COM" ["nas"] start).
Lemma realm_principal_asked_in_full_witness :
  is_some (users (fst (snapshot (h_resolver loaded_helper))) !! "ann") = true
  /\ fst (resolve_via_nss (answering []) 15 (fun _ _ => None) (fun _ => Some demo_config) None demo_paths "ann@OTHER.ORG"
            loaded_helper) = None.
Proof.
  split; [by vm_compute|].
  rewrite (proj1 (realm_principal_asked_in_full (answering []) 15 (fun _ _ => None) (fun _ => Some demo_config) None demo_paths
    "ann@OTHER.ORG" loaded_helper eq_refl)). vm_compute. reflexivity.
Defined.

(** ** Two things the helper does not guard against *)
Definition entry (dn : string) (attrs : list (string * list string)) : Entry :=
  {| e_dn := dn; e_attrs := list_to_map attrs |}.
Definition directory (groups_up : bool) (uid : string) (n : nat) (q : Query) : Attempt :=
  {| a_connect := None; a_bind := None; a_stalls := false; a_elapsed := 1;
     a_search := fun _ =>
       if contains_str "posixGroup" (q_filter q) then
         if groups_up then Ok [entry "cn=devs,dc=ex" [("cn", ["devs"]); ("gidNumber", ["3000"]);
                                ("member", ["uid=ann,dc=ex"])]]
         else Err "search: server busy"
       else Ok [entry "uid=ann,dc=ex" [("uid", ["ann"]); ("uidNumber", [uid]); ("gidNumber", ["2001"])]] |}.
Definition demo_rebulk (server : nat -> Query -> Attempt) : H (option nat) :=
  rebulk_ldap_users server 15 (fun _ _ => None) (fun _ => Some demo_config) None (fun _ _ => all_well)
    (fun _ _ => false) demo_paths "/n/cache" "EX.COM" ["nas"].
(** A reload whose user search succeeds and whose group search fails goes on
    with no groups: every membership is revoked, although the reload is meant
    to keep the last good set while the directory is not available. *)
Theorem group_outage_revokes_memberships :
  let good := snd (demo_rebulk (directory true "1001") start) in
  let bad := demo_rebulk (directory false "1001") good in
  (r_supps <$> h_cache good !! "ann@EX.COM") = Some [3000]
  /\ is_some (fst bad) = true /\ (r_supps <$> h_cache (snd bad) !! "ann@EX.COM") = Some [].
Proof. vm_compute. by split_and!. Qed.
(** The bulk seed skips a user whose uidNumber is 0; a request for the user
    maps it to uid 0. *)
Theorem uid0_user_is_root_on_demand :
  h_cache (snd (demo_rebulk (directory true "0") start)) = ∅
  /\ r_uid (fst (demo (directory true "0") "ann@EX.COM" start)) = 0.
Proof. split; vm_compute; done. Qed.
