(* ===== verification/LdapClient.v ===== *)
(** * The LDAP client of the WebUI

    Models [nfs-klldap-ui/src/ldap.rs], with the adapter that builds a resolver
    from the configuration ([nfs-klldap-config/src/idmap.rs]) and the refresh
    tick of [nfs-klldap-ui/src/main.rs].  The client owns one resolver
    (Resolver.v); its own state is the service credentials, the two full lists
    of the permission editor and the [memberOf] values of the last verified
    login.  A user's bind goes over a connection of its own: what the server
    answers to it is the parameter [simple_bind], numbered like the searches.
    [str::to_lowercase] (a Unicode table) is a parameter. *)

From S2P Require Import Prelude RustStr State Identity Config Resolver.
Local Open Scope Z_scope.

(** ** The resolver of a configuration *)
Definition sssd_resolver_inputs (uri : string) (s : SssdSection) (realm : string)
  : LdapResolverInputs := {|
  ri_ldap_uri := uri;
  ri_realm := realm;
  ri_search_bases := {|
    ldap_search_base := ss_ldap_search_base s;
    ldap_user_search_base := ss_ldap_user_search_base s;
    ldap_group_search_base := ss_ldap_group_search_base s |};
  ri_posix_mapping := {|
    in_user_object_class := ss_ldap_user_object_class s;
    in_group_object_class := ss_ldap_group_object_class s;
    in_user_name := ss_ldap_user_name s;
    in_user_uid_number := ss_ldap_user_uid_number s;
    in_user_gid_number := ss_ldap_user_gid_number s;
    in_user_home_directory := ss_ldap_user_home_directory s;
    in_user_shell := ss_ldap_user_shell s;
    in_user_fullname := ss_ldap_user_fullname s;
    in_group_name := ss_ldap_group_name s;
    in_group_gid_number := ss_ldap_group_gid_number s;
    in_group_member := ss_ldap_group_member s;
    in_user_principal_name := ss_ldap_user_principal_name s;
    in_kllldap_ignored_attributes := ss_kllldap_ignored_attributes s |};
  ri_tls_reqcert := ss_ldap_tls_reqcert s;
  ri_tls_cacert := ss_ldap_tls_cacert s;
  ri_use_start_tls := ss_ldap_id_use_start_tls s;
|}.
Definition from_sssd_section (uri : string) (s : SssdSection) (realm : string) : ResolverConfig :=
  from_inputs (sssd_resolver_inputs uri s realm).

(** ** State *)
Definition SEARCH_CACHE_TTL : Z := 2 * 60 * SECS.
Definition MEMBEROF_TTL : Z := 120 * SECS.
Definition FULL_LIST_FETCH_LIMIT : nat := 1000.
Definition LIST_RESULT_LIMIT : nat := 25.

(** id, number, display. *)
Abbreviation ListRow := (string * option Z * string)%type.
Record CachedSearch := { results : list ListRow; cs_fetched_at : Z }.
Record User := { us_id : string; us_display_name : option string; us_uid_number : option Z }.
Record Group := { gr_id : string; gr_display_name : option string; gr_gid_number : option Z }.
Inductive LdapError := AuthError (e : string).
Definition ldap_error_text (e : LdapError) : string :=
  match e with AuthError s => "Authentication error: " +:+ s end.

(** What becomes of one bind on a fresh connection. *)
Record BindTry := { b_connects : bool; b_accepts : bool; b_panics : bool; b_elapsed : Z }.

Record LdapClient := MkClient {
  lc_username : option string;
  lc_password : option string;
  lc_last_auth_time : option Z;
  full_user_list : option CachedSearch;
  full_group_list : option CachedSearch;
  last_verified_memberofs : option (string * list string * Z);
  ui_cache_hits : Z;
  ui_cache_misses : Z;
  cache_clears : Z;
  last_cache_clear : option Z;
  last_full_refresh : option Z;
  identity_resolver : Resolver;
  (* the binds tried for users, with their verdicts *)
  bind_log : list (string * string * bool);
}.
Definition on_full_list (is_user : bool) (f : option CachedSearch -> option CachedSearch) c :=
  let '(MkClient u p la fu fg lv h m cl lc lr ir bl) := c in
  if is_user then MkClient u p la (f fu) fg lv h m cl lc lr ir bl
  else MkClient u p la fu (f fg) lv h m cl lc lr ir bl.
Definition on_verified f c :=
  let '(MkClient u p la fu fg lv h m cl lc lr ir bl) := c in
  MkClient u p la fu fg (f lv) h m cl lc lr ir bl.
Definition on_ui_hits f c :=
  let '(MkClient u p la fu fg lv h m cl lc lr ir bl) := c in
  MkClient u p la fu fg lv (f h) m cl lc lr ir bl.
Definition on_ui_misses f c :=
  let '(MkClient u p la fu fg lv h m cl lc lr ir bl) := c in
  MkClient u p la fu fg lv h (f m) cl lc lr ir bl.
Definition on_clear f c :=
  let '(MkClient u p la fu fg lv h m cl lc lr ir bl) := c in
  MkClient u p la fu fg lv h m (cl + 1) (f lc) lr ir bl.
Definition on_last_refresh f c :=
  let '(MkClient u p la fu fg lv h m cl lc lr ir bl) := c in
  MkClient u p la fu fg lv h m cl lc (f lr) ir bl.
Definition on_auth_time f c :=
  let '(MkClient u p la fu fg lv h m cl lc lr ir bl) := c in
  MkClient u p (f la) fu fg lv h m cl lc lr ir bl.
Definition on_creds (user pass : string) c :=
  let '(MkClient u p la fu fg lv h m cl lc lr ir bl) := c in
  MkClient (Some user) (Some pass) la fu fg lv h m cl lc lr ir bl.
Definition on_resolver f c :=
  let '(MkClient u p la fu fg lv h m cl lc lr ir bl) := c in
  MkClient u p la fu fg lv h m cl lc lr (f ir) bl.
Definition on_bind_log f c :=
  let '(MkClient u p la fu fg lv h m cl lc lr ir bl) := c in
  MkClient u p la fu fg lv h m cl lc lr ir (f bl).

Abbreviation L := (M LdapClient).
Definition clock (c : LdapClient) : Z := now (identity_resolver c).
(** [LdapClient::new_with_attributes]. *)
Definition new_client (t : Z) : LdapClient :=
  MkClient None None None None None None 0 0 0 None None (new_resolver t) [].
(** [LdapClient::from_config]: the settings, the new client, and the effective
    [no_tls_verify]. *)
Definition from_config (cfg : NfsKlldapConfig) (t : Z) : ResolverConfig * LdapClient * bool :=
  let rc := from_sssd_section (ldap_uri cfg) (sssd cfg) (display_realm cfg) in
  let '(no_tls_verify, start_tls) :=
    ldap_tls_policy (ldap_uri cfg) (ss_ldap_tls_reqcert (sssd cfg)) (ss_ldap_tls_cacert (sssd cfg))
      (ss_ldap_id_use_start_tls (sssd cfg)) in
  ({| rc_ldap_uri := ldap_uri cfg; rc_user_base := rc_user_base rc;
      rc_group_base := rc_group_base rc; rc_posix_attributes := rc_posix_attributes rc;
      rc_no_tls_verify := no_tls_verify; rc_start_tls := start_tls;
      rc_tls_cacert := ss_ldap_tls_cacert (sssd cfg) |},
   new_client t, no_tls_verify).

Definition service_bind_creds (c : LdapClient) : option (string * string) :=
  match lc_username c, lc_password c with Some u, Some p => Some (u, p) | _, _ => None end.
(** [with_identity]: a resolver operation with the service credentials. *)
Definition with_resolver {A} (m : R A) : L A := fun c =>
  let '(a, r) := m (identity_resolver c) in (a, on_resolver (fun _ => r) c).
Definition with_identity {A} (f : string -> string -> R (option A)) : L (option A) :=
  let* creds := get service_bind_creds in
  match creds with
  | None => ret None
  | Some (dn, pw) => with_resolver (f dn pw)
  end.

(** ** The caches of the client *)
Definition expire_list (t : Z) (slot : option CachedSearch) : option CachedSearch :=
  match slot with
  | Some c => if SEARCH_CACHE_TTL <=? t - cs_fetched_at c then None else Some c
  | None => None
  end.
Definition evict_expired : L unit :=
  do* with_resolver Resolver.evict_expired in
  let* t := get clock in
  do* modify (on_full_list true (expire_list t)) in
  do* modify (on_full_list false (expire_list t)) in
  modify (on_verified (fun v =>
    match v with
    | Some (_, _, at_) => if MEMBEROF_TTL <=? t - at_ then None else v
    | None => None
    end)).
Definition store_full_list (is_user : bool) (rows : list ListRow) : L unit :=
  let* t := get clock in
  modify (on_full_list is_user (fun _ => Some {| results := rows; cs_fetched_at := t |})).
Definition list_slot (is_user : bool) (c : LdapClient) : option CachedSearch :=
  if is_user then full_user_list c else full_group_list c.
Definition cached_full_list (is_user : bool) : L (option (list ListRow)) :=
  do* evict_expired in
  let* hit := get (fun c => results <$> list_slot is_user c) in
  do* modify (if is_some hit then on_ui_hits (fun n => n + 1) else on_ui_misses (fun n => n + 1)) in
  ret hit.
Definition clear_cache : L unit :=
  do* with_resolver clear_caches in
  do* modify (on_full_list true (fun _ => None)) in
  do* modify (on_full_list false (fun _ => None)) in
  do* modify (on_verified (fun _ => None)) in
  let* t := get clock in
  modify (on_clear (fun _ => Some t)).
Record LdapCacheStats := {
  user_entries : nat; group_entries : nat; recent_search_entries : nat;
  st_hits : Z; st_misses : Z; st_clears : Z; last_cleared_ago_secs : option Z;
  st_binds : Z; pool_warm : bool;
}.
Definition cache_stats_summary : L LdapCacheStats :=
  let* counts := with_resolver cache_entry_counts in
  let* binds := with_resolver bind_stats in
  let* warm := with_resolver pool_is_warm in
  get (fun c => {|
    user_entries := fst counts; group_entries := snd counts;
    recent_search_entries :=
      length (List.filter is_some [full_user_list c; full_group_list c]);
    st_hits := ui_cache_hits c; st_misses := ui_cache_misses c; st_clears := cache_clears c;
    last_cleared_ago_secs := (fun t => (clock c - t) / SECS) <$> last_cache_clear c;
    st_binds := binds; pool_warm := warm |}).
Definition record_verified_memberofs (username : string) (memberofs : list string) : L unit :=
  let* t := get clock in modify (on_verified (fun _ => Some (username, memberofs, t))).
Definition has_recent_memberof (username group_dn : string) (c : LdapClient) : bool :=
  match last_verified_memberofs c with
  | Some (u, l, _) =>
      eq_ignore_ascii_case u username && existsb (fun m => eq_ignore_ascii_case m group_dn) l
  | None => false
  end.
Definition get_or_bind_service : L (result unit LdapError) :=
  let* creds := get service_bind_creds in
  match creds with
  | None => ret (Err (AuthError "no service credentials"))
  | Some _ =>
      let* t := get clock in
      do* modify (on_auth_time (fun _ => Some t)) in ret (Ok tt)
  end.
Definition authenticate (username password : string) : L (result unit LdapError) :=
  do* modify (on_creds username password) in
  do* clear_cache in
  get_or_bind_service.

(** ** Pure helpers of the permission editor *)
Definition strip_id_label (inner : string) : string :=
  match or_else (strip_prefix "UID" inner) (or_else (strip_prefix "uid" inner)
         (or_else (strip_prefix "GID" inner) (strip_prefix "gid" inner))) with
  | Some rest => trim rest
  | None => inner
  end.
Definition normalize_editor_search_query (q : option string) : option string :=
  s ← q;
  let s := trim s in
  if is_empty s then None
  else match rsplit_once "(" s with
       | None => Some s
       | Some (before, after) =>
           let closed := ends_with ")" s in
           let inner := trim (if closed then default after (strip_suffix ")" after) else after) in
           let digits := strip_id_label inner in
           let name := trim before in
           if negb (is_empty digits) && sall is_ascii_digit digits then Some digits
           else if (closed || is_empty digits) && negb (is_empty name) then Some name
           else Some s
       end.

Section Lists.
Context (to_lowercase : string -> string).

Definition matches_list_query (q_lower id display : string) (num : option Z) : bool :=
  is_empty q_lower
  || contains_str q_lower (to_lowercase id)
  || contains_str q_lower (to_lowercase display)
  || contains_str q_lower (default "" (dec_i32 <$> num)).
(** The first row of every id: [filter(|row| seen.insert(id))]. *)
Fixpoint first_by_id (seen : gset string) (rows : list (string * option Z * string * string))
  : list (string * option Z * string * string) :=
  match rows with
  | [] => []
  | row :: rest =>
      let id := row.1.1.1 in
      if bool_decide (id ∈ seen) then first_by_id seen rest
      else row :: first_by_id ({[ id ]} ∪ seen) rest
  end.
Definition list_row_of (row : string * option Z * string * string) : ListRow :=
  let '(id, num, display, dn) := row in (id, num, if is_empty display then id else display).
(** The comparison of two pairs of strings. *)
Definition pair_leb (a b : string * string) : bool :=
  if seqb (fst a) (fst b) then sleb (snd a) (snd b) else sleb (fst a) (fst b).
Definition row_key (row : ListRow) : string * string :=
  let '(id, _, display) := row in (to_lowercase display, to_lowercase id).
Definition build_full_rows (raw : list (string * option Z * string * string)) : list ListRow :=
  sort_key row_key pair_leb
    (map list_row_of
       (first_by_id ∅ (List.filter (fun row => is_some row.1.1.2 && negb (is_empty row.1.1.1)) raw))).
Definition filter_list_rows (rows : list ListRow) (query : string) (limit : nat) : list ListRow :=
  let q_lower := to_lowercase query in
  take limit (List.filter (fun row => matches_list_query q_lower row.1.1 row.2 row.1.2) rows).
End Lists.

(** [joined.unwrap_or(false)] *)
Definition bind_verdict (joined : result bool unit) : bool :=
  match joined with Ok b => b | Err _ => false end.

(** ** Operations *)
Section Client.
Context (to_lowercase : string -> string).
Context (server : nat -> Query -> Attempt) (op_timeout_secs : Z).
Context (user_base group_base : string) (pa : PosixAttributeMapping).
Context (simple_bind : nat -> string -> string -> BindTry).

Definition try_simple_bind (dn pw : string) : L bool :=
  let* n := get (fun c => length (bind_log c)) in
  let b := simple_bind n dn pw in
  do* modify (on_resolver (on_now (fun t => t + b_elapsed b))) in
  let joined := if b_panics b then Err tt else Ok (b_connects b && b_accepts b) in
  do* modify (on_bind_log (fun l => l ++ [(dn, pw, bind_verdict joined)])) in
  ret (bind_verdict joined).

Definition fetch_entry_dn (base filter : string) : L (option string) :=
  with_identity (fun dn pw => lookup_first_dn server op_timeout_secs dn pw base filter).
Definition resolve_user (name : string) : L (option (Z * string)) :=
  let* resolved := with_identity (fun dn pw =>
    Resolver.resolve_user server op_timeout_secs user_base pa dn pw name) in
  ret ((fun '(uid, _, display) => (uid, display)) <$> resolved).
Definition resolve_user_dn (name : string) : L (option string) :=
  fetch_entry_dn user_base (user_filter_by_name pa name).
Definition resolve_group (name : string) : L (option (Z * string)) :=
  with_identity (fun dn pw =>
    Resolver.resolve_group server op_timeout_secs group_base pa dn pw name).
Definition resolve_user_by_uid (uid : Z) : L (option (string * string)) :=
  with_identity (fun dn pw =>
    Resolver.resolve_user_by_uid server op_timeout_secs user_base pa dn pw uid).
Definition resolve_group_by_gid (gid : Z) : L (option (string * string)) :=
  with_identity (fun dn pw =>
    Resolver.resolve_group_by_gid server op_timeout_secs group_base pa dn pw gid).

(** *** Lists *)
Definition fetch_and_store_full_list (is_user : bool) : L (option (list ListRow)) :=
  let* raw := with_identity (fun dn pw =>
    let* res := (if is_user
                 then search_list_users server op_timeout_secs user_base pa dn pw FULL_LIST_FETCH_LIMIT
                 else search_list_groups server op_timeout_secs group_base pa dn pw FULL_LIST_FETCH_LIMIT) in
    ret (match res with Ok rows => Some rows | Err _ => None end)) in
  match raw with
  | None => ret None
  | Some raw =>
      let rows := build_full_rows to_lowercase raw in
      do* store_full_list is_user rows in
      ret (Some rows)
  end.
Definition full_list_rows (is_user : bool) : L (option (list ListRow)) :=
  let* cached := cached_full_list is_user in
  match cached with
  | Some rows => ret (Some rows)
  | None => fetch_and_store_full_list is_user
  end.
Definition list_rows (is_user : bool) (filter : option string) : L (option (list ListRow)) :=
  let q := default "" (normalize_editor_search_query filter) in
  let* rows := full_list_rows is_user in
  ret ((fun rows => filter_list_rows to_lowercase rows q LIST_RESULT_LIMIT) <$> rows).
Definition list_users (filter : option string) : L (option (list User)) :=
  let* rows := list_rows true filter in
  ret (map (fun '(id, uid, display) =>
              {| us_id := id; us_display_name := Some display; us_uid_number := uid |}) <$> rows).
Definition list_groups (filter : option string) : L (option (list Group)) :=
  let* rows := list_rows false filter in
  ret (map (fun '(id, gid, display) =>
              {| gr_id := id; gr_display_name := Some display; gr_gid_number := gid |}) <$> rows).
Definition refresh_identity_data : L (option nat) :=
  let* loaded := with_identity (fun dn pw =>
    let* n := load_full_identities server op_timeout_secs user_base group_base pa dn pw in
    ret (Some n)) in
  match loaded with
  | None => ret None
  | Some n =>
      do* fetch_and_store_full_list true in
      do* fetch_and_store_full_list false in
      let* t := get clock in
      do* modify (on_last_refresh (fun _ => Some t)) in
      ret (Some n)
  end.
(** [main.rs]: the periodic refresh skips a tick after a recent one. *)
Definition webui_refresh_tick_due (last : option Z) (t interval : Z) : bool :=
  match last with None => true | Some l => interval / 2 <=? t - l end.
Definition webui_refresh_tick (interval : Z) : L (option nat) :=
  let* due := get (fun c => webui_refresh_tick_due (last_full_refresh c) (clock c) interval) in
  if due : bool then refresh_identity_data else ret None.

(** *** Login *)
Definition verify_user_credentials (username password : string) : L (result unit LdapError) :=
  let* found := with_identity (fun dn pw =>
    lookup_user_dn_and_memberof server op_timeout_secs user_base pa dn pw username) in
  match found with
  | None => ret (Err (AuthError "user not found or service account lacks permission to search"))
  | Some (user_dn, memberofs) =>
      let* ok := try_simple_bind user_dn password in
      if ok : bool then
        do* record_verified_memberofs username memberofs in ret (Ok tt)
      else ret (Err (AuthError "Invalid username or password (KLLDAP/LDAP bind failed)"))
  end.
Definition user_is_member_of (username group_name : string) : L bool :=
  let* group_dn := with_identity (fun dn pw =>
    lookup_group_dn server op_timeout_secs group_base pa dn pw group_name) in
  match group_dn with
  | None => ret false
  | Some group_dn =>
      if is_empty group_dn then ret false
      else
        let* recent := get (has_recent_memberof username group_dn) in
        if recent : bool then ret true
        else
          let* user_dn := resolve_user_dn username in
          match user_dn with
          | None => ret false
          | Some user_dn =>
              let* m := with_identity (fun dn pw =>
                let* b := user_dn_has_memberof server op_timeout_secs user_base pa dn pw user_dn group_dn in
                ret (Some b)) in
              ret (default false m)
          end
  end.
Definition user_is_member_of_group : string -> string -> L bool := user_is_member_of.
Definition not_member_text (username admin_group : string) : string :=
  "Access denied: '" +:+ username +:+ "' is not a member of the '" +:+ admin_group +:+ "' group.".
Definition verify_user_is_admin (username password admin_group : string) : L (result unit LdapError) :=
  let* cred := verify_user_credentials username password in
  match cred with
  | Err e => ret (Err e)
  | Ok _ =>
      let* m := user_is_member_of_group username admin_group in
      ret (if m : bool then Ok tt else Err (AuthError (not_member_text username admin_group)))
  end.
(** [.filter(|dn| !dn.is_empty())] *)
Definition non_empty_dn (dn : string) : option string := if is_empty dn then None else Some dn.
(** The check for an existing session: no cache, three searches. *)
Definition verify_admin_group_membership_live (username admin_group : string)
  : L (result unit string) :=
  let* creds := get service_bind_creds in
  match creds with
  | None => ret (Err "LDAP service credentials are not configured; cannot verify admin membership")
  | Some _ =>
      let* group_dn := with_identity (fun dn pw =>
        lookup_group_dn server op_timeout_secs group_base pa dn pw admin_group) in
      match group_dn ≫= non_empty_dn with
      | None => ret (Err ("could not resolve admin group '" +:+ admin_group
                          +:+ "' (LDAP unreachable or group missing)"))
      | Some group_dn =>
          let* user_dn := resolve_user_dn username in
          match user_dn with
          | None => ret (Err ("could not resolve user '" +:+ username
                              +:+ "' (LDAP unreachable or user missing)"))
          | Some user_dn =>
              let* membership := with_identity (fun dn pw =>
                let* m := user_dn_memberof_check server op_timeout_secs user_base pa dn pw user_dn group_dn in
                ret (Some m)) in
              ret (match membership with
                   | None => Err "LDAP membership query failed"
                   | Some (Ok true) => Ok tt
                   | Some (Ok false) =>
                       Err ("'" +:+ username +:+ "' is not a member of '" +:+ admin_group +:+ "'")
                   | Some (Err e) => Err ("LDAP membership check failed: " +:+ e)
                   end)
          end
      end
  end.
End Client.

(** * What the login decides *)

(** ** One search, whatever the caches hold *)
Definition same_but_caches (r1 r2 : Resolver) : Prop :=
  conn_pool r1 = conn_pool r2 /\ now r1 = now r2 /\ attempts r1 = attempts r2.
(** The two runs end the same way, in states that differ in the caches only. *)
Definition cache_blind {A} (m : R A) : Prop :=
  forall r1 r2, same_but_caches r1 r2 ->
  fst (m r1) = fst (m r2) /\ same_but_caches (snd (m r1)) (snd (m r2)).

Lemma blind_ret {A} (a : A) : cache_blind (ret a).
Proof. by intros r1 r2 H. Qed.
Lemma blind_bind {A B} (m : R A) (k : A -> R B) :
  cache_blind m -> (forall a, cache_blind (k a)) -> cache_blind (bind m k).
Proof.
  intros Hm Hk r1 r2 H. destruct (Hm r1 r2 H) as [E H']. rewrite !bind_run, E. by apply Hk.
Qed.
Lemma blind_modify f :
  (forall r1 r2, same_but_caches r1 r2 -> same_but_caches (f r1) (f r2)) -> cache_blind (modify f).
Proof. intros Hf r1 r2 H. split; [done|by apply Hf]. Qed.
Lemma blind_now f : cache_blind (modify (on_now f)).
Proof.
  apply blind_modify. intros r1 r2 (H1 & H2 & H3). destruct r1, r2. unfold same_but_caches.
  cbn in *. naive_solver congruence.
Qed.
Lemma blind_take dn : cache_blind (take_pooled_conn dn).
Proof.
  intros r1 r2 (H1 & H2 & H3). unfold take_pooled_conn, same_but_caches. rewrite H1, H2.
  destruct (last _), r1, r2; cbn in *; naive_solver.
Qed.
Lemma blind_store c dn : cache_blind (store_pooled_conn c dn).
Proof.
  apply blind_modify. intros r1 r2 (H1 & H2 & H3). unfold same_but_caches. rewrite H1, H2.
  destruct (_ <=? _)%nat; [done|]. destruct r1, r2; cbn in *. naive_solver congruence.
Qed.
Lemma blind_attempt server pooled q : cache_blind (one_attempt server pooled q).
Proof.
  intros r1 r2 (H1 & H2 & H3).
  unfold one_attempt, run_search, send, same_but_caches, bind, get, modify, ret. cbn. rewrite H3.
  destruct r1, r2; cbn in *. subst. destruct pooled; cbn; [done|].
  destruct (a_connect _); cbn; [done|]. by destruct (a_bind _).
Qed.
Lemma blind_loop server t left q : cache_blind (service_loop server t left q).
Proof.
  induction left as [|left IH]; [apply blind_ret|]. cbn [service_loop].
  apply blind_bind; [apply blind_take|]. intros pooled. cbv zeta.
  apply blind_bind; [apply blind_attempt|]. intros [es c|e|].
  - apply blind_bind; [apply blind_store|]. intros _. apply blind_ret.
  - destruct (is_some pooled); [done|]. destruct (_ =? _)%nat; [apply blind_ret|].
    apply blind_bind; [apply blind_now|]. intros _. exact IH.
  - apply blind_ret.
Qed.
Lemma blind_search server t dn pw b f attrs : cache_blind (search server t dn pw b f attrs).
Proof. apply blind_loop. Qed.
Lemma blind_first_dn server t dn pw b f : cache_blind (lookup_first_dn server t dn pw b f).
Proof. apply blind_bind; [apply blind_search|]. intros res. apply blind_ret. Qed.
Lemma blind_check server t ub pa dn pw u g :
  cache_blind (user_dn_memberof_check server t ub pa dn pw u g).
Proof. apply blind_bind; [apply blind_search|]. intros res. apply blind_ret. Qed.

(** ** Running a resolver operation in the client *)
Lemma with_identity_run {A} (f : string -> string -> R (option A)) c dn pw :
  service_bind_creds c = Some (dn, pw) ->
  let '(a, r) := f dn pw (identity_resolver c) in
  with_identity f c = (a, on_resolver (fun _ => r) c).
Proof.
  intros Hc. destruct (f dn pw (identity_resolver c)) as [a r] eqn:E.
  unfold with_identity, with_resolver. rewrite bind_run. cbn. by rewrite Hc, E.
Qed.
Lemma on_resolver_fields f c :
  service_bind_creds (on_resolver f c) = service_bind_creds c
  /\ identity_resolver (on_resolver f c) = f (identity_resolver c)
  /\ bind_log (on_resolver f c) = bind_log c
  /\ last_verified_memberofs (on_resolver f c) = last_verified_memberofs c.
Proof. by destruct c. Qed.

(** A search for [q] in between that was answered with [es]: its own query ends the
    log, and [es] is what the server said to it at one of the attempts made. *)
Definition asked (server : nat -> Query -> Attempt) (q : Query) (es : list Entry) (r r' : Resolver) : Prop :=
  (exists l s, sent r' = sent r ++ l ++ [s] /\ s_query s = q)
  /\ exists n reused, (attempts r <= n < attempts r')%nat /\ a_search (server n q) reused = Ok es.
Section SearchLog.
Context (server : nat -> Query -> Attempt) (op_timeout_secs : Z).
Context (Helapsed : forall n q, 0 <= a_elapsed (server n q)).

Lemma one_attempt_served pooled q r es c :
  fst (one_attempt server pooled q r) = Answered es c ->
  attempts (snd (one_attempt server pooled q r)) = S (attempts r)
  /\ exists reused, a_search (server (attempts r) q) reused = Ok es.
Proof.
  unfold one_attempt, run_search, send, bind, get, modify, ret. destruct r; cbn.
  intros H. repeat case_match; cbn in *; simplify_eq; (split; [done|]); by eexists.
Qed.
Lemma service_loop_asked left q r es :
  fst (service_loop server op_timeout_secs left q r) = Ok es ->
  asked server q es r (snd (service_loop server op_timeout_secs left q r)).
Proof.
  revert r. induction left as [|left IH]; intros r; [done|]. cbn [service_loop].
  unfold bind. pose proof (take_pooled_frame (q_dn q) r) as H1.
  destruct (take_pooled_conn (q_dn q) r) as [pooled r1]. cbn in H1.
  pose proof (one_attempt_frame server Helapsed pooled q r1) as H2.
  pose proof (one_attempt_answer server pooled q r1) as Ha. pose proof (one_attempt_served pooled q r1) as Hv.
  destruct (one_attempt server pooled q r1) as [o r2]. cbn in H2, Ha, Hv.
  destruct (sf_sent _ _ _ H1) as (l1 & E1 & _), (sf_sent _ _ _ H2) as (l2 & E2 & _).
  pose proof (sf_attempts _ _ _ H1) as T1. pose proof (sf_attempts _ _ _ H2) as T2.
  assert (Hcont : forall f, fst (service_loop server op_timeout_secs left q (on_now f r2)) = Ok es ->
    asked server q es r (snd (service_loop server op_timeout_secs left q (on_now f r2)))).
  { intros f Ho. destruct (IH _ Ho) as ((l & s & E & Hq) & n & b & Hn & Hs).
    assert (Er : sent (on_now f r2) = sent r2 /\ attempts (on_now f r2) = attempts r2) by by destruct r2.
    destruct Er as [Er1 Er2]. rewrite Er1 in E. rewrite Er2 in Hn. split.
    - exists (l1 ++ l2 ++ l), s. split; [|done]. rewrite E, E2, E1. by rewrite <- !app_assoc.
    - exists n, b. split; [lia|done]. }
  destruct o as [es' c|e|]; [|cbv zeta|done].
  - destruct (Ha es' c eq_refl) as (s & El & _ & Hq & _). destruct (Hv es' c eq_refl) as (Hat & b & Hs). cbv zeta.
    pose proof (store_pooled_frame c (q_dn q) r2) as H3. pose proof (sf_sent _ _ _ H3) as (l3 & E3 & L3).
    pose proof (sf_attempts _ _ _ H3) as T3.
    assert (l3 = []) as -> by (destruct l3; [done|cbn in L3; lia]).
    destruct (store_pooled_conn c (q_dn q) r2) as [u r3]. cbn in E3, T3 |- *. intros [= <-]. split.
    + exists l1, s. split; [|done]. by rewrite E3, El, E1, app_nil_r, <- app_assoc.
    + exists (attempts r1), b. split; [lia|done].
  - destruct (is_some pooled).
    + intros Ho. specialize (Hcont (fun t => t)).
      assert (on_now (fun t => t) r2 = r2) as Er by by destruct r2. rewrite Er in Hcont. by apply Hcont.
    + destruct ((2 - left =? 2)%nat); [done|]. unfold modify. apply Hcont.
Qed.
Lemma search_asked dn pw b f attrs r es :
  fst (search server op_timeout_secs dn pw b f attrs r) = Ok es ->
  asked server {| q_base := b; q_filter := f; q_attrs := attrs; q_dn := dn; q_pw := pw |} es r
    (snd (search server op_timeout_secs dn pw b f attrs r)).
Proof. apply service_loop_asked. Qed.
Lemma first_dn_asked dn pw b f r d :
  fst (lookup_first_dn server op_timeout_secs dn pw b f r) = Some d ->
  exists es, e_dn <$> head es = Some d
    /\ asked server {| q_base := b; q_filter := f; q_attrs := ["1.1"]; q_dn := dn; q_pw := pw |} es r
         (snd (lookup_first_dn server op_timeout_secs dn pw b f r)).
Proof.
  unfold lookup_first_dn. rewrite bind_run. pose proof (search_asked dn pw b f ["1.1"] r) as H.
  destruct (search _ _ _ _ b f ["1.1"] r) as [[[|se es]|e] r']; [done| |done]. cbn. intros [= <-].
  exists (se :: es). split; [done|]. by apply H.
Qed.
End SearchLog.

Definition group_query group_base pa dn pw group : Query := {|
  q_base := group_base; q_filter := group_filter_by_name pa group; q_attrs := ["1.1"];
  q_dn := dn; q_pw := pw |}.
Definition user_dn_query user_base pa dn pw user : Query := {|
  q_base := user_base; q_filter := user_filter_by_name pa user; q_attrs := ["1.1"];
  q_dn := dn; q_pw := pw |}.
Definition member_query user_base pa dn pw group_dn : Query := {|
  q_base := user_base;
  q_filter := "(&(objectClass=" +:+ user_object_class pa +:+ ")(memberOf="
              +:+ escape_ldap_filter group_dn +:+ "))";
  q_attrs := ["1.1"]; q_dn := dn; q_pw := pw |}.
Definition login_query user_base pa dn pw user : Query := {|
  q_base := user_base; q_filter := user_filter_by_name pa user;
  q_attrs := [user_name pa; "memberOf"]; q_dn := dn; q_pw := pw |}.

Definition clients_agree (c1 c2 : LdapClient) : Prop :=
  service_bind_creds c1 = service_bind_creds c2
  /\ same_but_caches (identity_resolver c1) (identity_resolver c2).
Definition client_blind {A} (m : L A) : Prop :=
  forall c1 c2, clients_agree c1 c2 ->
  fst (m c1) = fst (m c2) /\ clients_agree (snd (m c1)) (snd (m c2)).
Lemma client_blind_ret {A} (a : A) : client_blind (ret a).
Proof. by intros c1 c2 H. Qed.
Lemma client_blind_bind {A B} (m : L A) (k : A -> L B) :
  client_blind m -> (forall a, client_blind (k a)) -> client_blind (bind m k).
Proof.
  intros Hm Hk c1 c2 H. destruct (Hm c1 c2 H) as [E H']. rewrite !bind_run, E. by apply Hk.
Qed.
Lemma client_blind_creds : client_blind (get service_bind_creds).
Proof. intros c1 c2 H. split; [apply H|done]. Qed.
Lemma client_blind_identity {A} (f : string -> string -> R (option A)) :
  (forall dn pw, cache_blind (f dn pw)) -> client_blind (with_identity f).
Proof.
  intros Hf. apply client_blind_bind; [apply client_blind_creds|].
  intros [[dn pw]|]; [|apply client_blind_ret]. intros c1 c2 [Hc Hr].
  destruct (Hf dn pw _ _ Hr) as [E H']. unfold with_resolver.
  destruct (f dn pw (identity_resolver c1)) as [a1 r1], (f dn pw (identity_resolver c2)) as [a2 r2].
  cbn in *. split; [done|]. split; [by destruct c1, c2|]. by destruct c1, c2.
Qed.

Lemma identity_creds {A} (f : string -> string -> R (option A)) c :
  service_bind_creds (snd (with_identity f c)) = service_bind_creds c.
Proof.
  unfold with_identity, with_resolver. rewrite bind_run. cbn. destruct (service_bind_creds c) as [[dn pw]|] eqn:E; [|done].
  destruct (f dn pw _) as [a r]. rewrite <- E. apply on_resolver_fields.
Qed.
Lemma identity_eq {A} (f : string -> string -> R (option A)) c dn pw :
  service_bind_creds c = Some (dn, pw) ->
  fst (with_identity f c) = fst (f dn pw (identity_resolver c))
  /\ identity_resolver (snd (with_identity f c)) = snd (f dn pw (identity_resolver c)).
Proof.
  intros Hc. pose proof (with_identity_run f c dn pw Hc) as H. destruct (f dn pw _) as [a r].
  rewrite H. split; [done|]. by destruct (on_resolver_fields (fun _ => r) c) as (_ & ? & _).
Qed.
(** A DN found by a search over the service credentials. *)
Lemma identity_first_dn_asked server t (Helapsed : forall n q, 0 <= a_elapsed (server n q)) c dn pw b f d :
  service_bind_creds c = Some (dn, pw) ->
  let r := with_identity (fun dn pw => lookup_first_dn server t dn pw b f) c in
  fst r = Some d ->
  exists es, e_dn <$> head es = Some d
    /\ asked server {| q_base := b; q_filter := f; q_attrs := ["1.1"]; q_dn := dn; q_pw := pw |} es
         (identity_resolver c) (identity_resolver (snd r)).
Proof.
  intros Hc r. destruct (identity_eq (fun dn pw => lookup_first_dn server t dn pw b f) c dn pw Hc) as [E1 E2].
  unfold r. rewrite E1, E2. by apply first_dn_asked.
Qed.
Lemma check_asked server t (Helapsed : forall n q, 0 <= a_elapsed (server n q)) ub pa dn pw u g r m :
  fst (user_dn_memberof_check server t ub pa dn pw u g r) = Ok m ->
  exists es, m = existsb (fun e => eq_ignore_ascii_case (e_dn e) u) es
    /\ asked server (member_query ub pa dn pw g) es r (snd (user_dn_memberof_check server t ub pa dn pw u g r)).
Proof.
  unfold user_dn_memberof_check. rewrite bind_run.
  pose proof (search_asked server t Helapsed dn pw ub (q_filter (member_query ub pa dn pw g)) ["1.1"] r) as H.
  cbn [q_filter member_query] in H. destruct (search _ _ _ _ ub _ ["1.1"] r) as [[es|e] r']; [|done].
  cbn. intros [= <-]. exists es. split; [done|]. by apply (H es).
Qed.
Lemma live_blind server t ub gb pa user group :
  client_blind (verify_admin_group_membership_live server t ub gb pa user group).
Proof.
  apply client_blind_bind; [apply client_blind_creds|]. intros [creds|]; [|apply client_blind_ret].
  apply client_blind_bind; [apply client_blind_identity; intros; apply blind_first_dn|].
  intros g. destruct (g ≫= non_empty_dn) as [gd|]; [|apply client_blind_ret].
  apply client_blind_bind; [apply client_blind_identity; intros; apply blind_first_dn|].
  intros [ud|]; [|apply client_blind_ret].
  apply client_blind_bind; [|intros m; apply client_blind_ret].
  apply client_blind_identity. intros. apply blind_bind; [apply blind_check|]. intros. apply blind_ret.
Qed.

(** C21: the live admin check reads no cache: two clients that share only the
    credentials, the connection pool and the clock get the same verdict from
    the same server (whose answers take no negative time), and leave alike.  A positive verdict comes from three
    searches that the server answered during the call, one after the other: the
    first entry found for the admin group's name gives the DN of the group, which
    is not empty; the first entry found for the user's name gives the DN of the
    user; and the entries whose memberOf names that DN of the group include one
    with that DN of the user (up to the case of ASCII letters). *)
Theorem live_check_asks_directory server op_timeout_secs
    (Helapsed : forall n q, 0 <= a_elapsed (server n q)) ub gb pa user group c1 c2 :
  clients_agree c1 c2 ->
  let live := verify_admin_group_membership_live server op_timeout_secs ub gb pa user group in
  fst (live c1) = fst (live c2) /\ clients_agree (snd (live c1)) (snd (live c2))
  /\ (fst (live c1) = Ok tt ->
      exists dn pw r1 r2 group_entries group_dn user_entries user_dn members,
        service_bind_creds c1 = Some (dn, pw)
        /\ asked server (group_query gb pa dn pw group) group_entries (identity_resolver c1) r1
        /\ e_dn <$> head group_entries = Some group_dn /\ group_dn <> ""
        /\ asked server (user_dn_query ub pa dn pw user) user_entries r1 r2
        /\ e_dn <$> head user_entries = Some user_dn
        /\ asked server (member_query ub pa dn pw group_dn) members r2 (identity_resolver (snd (live c1)))
        /\ exists e, e ∈ members /\ eq_ignore_ascii_case (e_dn e) user_dn = true).
Proof.
  intros Ha live.
  split; [apply live_blind, Ha|]. split; [apply live_blind, Ha|]. clear Ha c2.
  unfold live, verify_admin_group_membership_live.
  rewrite bind_run. cbn [get fst snd]. destruct (service_bind_creds c1) as [[dn pw]|] eqn:Ec; [|done].
  rewrite bind_run. unfold lookup_group_dn.
  pose proof (fun d => identity_first_dn_asked server op_timeout_secs Helapsed c1 dn pw gb
    (group_filter_by_name pa group) d Ec) as A1.
  pose proof (identity_creds (fun dn pw => lookup_first_dn server op_timeout_secs dn pw gb
    (group_filter_by_name pa group)) c1) as F1.
  destruct (with_identity _ c1) as [[gd|] c2]; [|done]. cbn [fst snd mbind option_bind] in *.
  unfold non_empty_dn. destruct (is_empty gd) eqn:Eg; [done|]. rewrite Ec in F1.
  rewrite bind_run. unfold resolve_user_dn, fetch_entry_dn.
  pose proof (fun d => identity_first_dn_asked server op_timeout_secs Helapsed c2 dn pw ub
    (user_filter_by_name pa user) d F1) as A2.
  pose proof (identity_creds (fun dn pw => lookup_first_dn server op_timeout_secs dn pw ub
    (user_filter_by_name pa user)) c2) as F2.
  destruct (with_identity _ c2) as [[ud|] c3]; [|done]. cbn [fst snd] in *. rewrite F1 in F2.
  rewrite bind_run. destruct (identity_eq (fun dn pw =>
    let* m := user_dn_memberof_check server op_timeout_secs ub pa dn pw ud gd in ret (Some m)) c3 dn pw F2)
    as [E1 E2]. rewrite bind_run in E1, E2.
  pose proof (check_asked server op_timeout_secs Helapsed ub pa dn pw ud gd (identity_resolver c3)) as A3.
  rewrite E1. cbn [ret fst snd]. rewrite E2. cbn [ret fst snd].
  destruct (user_dn_memberof_check _ _ _ _ _ _ ud gd _) as [[[]|e] r3]; [|done..]. intros _.
  destruct (A1 gd eq_refl) as (gs & Hgs & Hag), (A2 ud eq_refl) as (us & Hus & Hau), (A3 true eq_refl) as (ms & Hms & Ham).
  symmetry in Hms. apply existsb_exists in Hms as (e & He%list_elem_of_In & Heq).
  exists dn, pw, (identity_resolver c2), (identity_resolver c3), gs, gd, us, ud, ms.
  split_and!; try done; [by apply is_empty_false|by exists e].
Qed.

(** ** Login against a directory that answers *)
Section Decision.
Context (to_lowercase : string -> string).
Context (server : nat -> Query -> Attempt) (op_timeout_secs : Z).
Context (user_base group_base : string) (pa : PosixAttributeMapping).
Context (simple_bind : nat -> string -> string -> BindTry).
Context (dir : Query -> list Entry) (Hdir : answers server dir).
Context (dn pw : string).

(** What the directory says of a login name, and of the groups it is in. *)
Definition found_user (user : string) : option (string * list string) :=
  (fun se => (e_dn se, default [] (or_else (e_attrs se !! "memberOf") (e_attrs se !! "memberof"))))
    <$> head (dir (login_query user_base pa dn pw user)).
Definition group_dn_of (group : string) : option string :=
  (e_dn <$> head (dir (group_query group_base pa dn pw group))) ≫= non_empty_dn.
Definition user_dn_of (user : string) : option string :=
  e_dn <$> head (dir (user_dn_query user_base pa dn pw user)).
Definition listed_in (user_dn group_dn : string) : bool :=
  existsb (fun e => eq_ignore_ascii_case (e_dn e) user_dn) (dir (member_query user_base pa dn pw group_dn)).
Definition listed_member (user group_dn : string) : bool :=
  match user_dn_of user with Some d => listed_in d group_dn | None => false end.
Definition bind_accepted (n : nat) (d p : string) : bool :=
  let b := simple_bind n d p in negb (b_panics b) && (b_connects b && b_accepts b).
(** The decision of a login, without caches and state. *)
Definition admin_decision (n : nat) (user password group : string) : result unit LdapError :=
  match found_user user with
  | None => Err (AuthError "user not found or service account lacks permission to search")
  | Some (d, memberofs) =>
      if negb (bind_accepted n d password)
      then Err (AuthError "Invalid username or password (KLLDAP/LDAP bind failed)")
      else match group_dn_of group with
           | Some g =>
               if existsb (fun m => eq_ignore_ascii_case m g) memberofs || listed_member user g
               then Ok tt else Err (AuthError (not_member_text user group))
           | None => Err (AuthError (not_member_text user group))
           end
  end.

(** The login caches of the resolver agree with the directory. *)
Definition login_cache_ok (r : Resolver) : Prop :=
  (forall u v, memberof_cache r !! u = Some v -> found_user u = Some (mo_dn v, mo_memberofs v))
  /\ (forall u t, negative_cache r !! ("mo:" +:+ u) = Some t -> found_user u = None).
(** Entries may go, none may come. *)
Definition login_cache_le (r' r : Resolver) : Prop :=
  memberof_cache r' ⊆ memberof_cache r
  /\ (forall u t, negative_cache r' !! ("mo:" +:+ u) = Some t -> negative_cache r !! ("mo:" +:+ u) = Some t).
Lemma login_cache_le_ok r r' : login_cache_le r' r -> login_cache_ok r -> login_cache_ok r'.
Proof.
  intros [H1 H2] [H3 H4]. split.
  - intros u v Hv. apply H3. by eapply lookup_weaken.
  - intros u t Ht. by eapply H4, H2.
Qed.
Lemma login_cache_same r r' :
  memberof_cache r' = memberof_cache r -> negative_cache r' = negative_cache r ->
  login_cache_ok r -> login_cache_ok r'.
Proof. intros H1 H2. apply login_cache_le_ok. split; [by rewrite H1|by rewrite H2]. Qed.
Local Abbreviation I := login_cache_ok.

Lemma login_search b f attrs :
  gives I (search server op_timeout_secs dn pw b f attrs)
    (Ok (dir {| q_base := b; q_filter := f; q_attrs := attrs; q_dn := dn; q_pw := pw |})).
Proof.
  intros r Hr. unfold search. split; [by apply search_answers|].
  pose proof (service_search_frame server op_timeout_secs (answers_elapsed server dir Hdir)
    {| q_base := b; q_filter := f; q_attrs := attrs; q_dn := dn; q_pw := pw |} r) as [].
  by eapply login_cache_same.
Qed.
Lemma login_first_dn b f :
  gives I (lookup_first_dn server op_timeout_secs dn pw b f)
    (e_dn <$> head (dir {| q_base := b; q_filter := f; q_attrs := ["1.1"]; q_dn := dn; q_pw := pw |})).
Proof.
  eapply gives_bind; [apply login_search|]. apply triple_ret. intros r Hr. split; [|done].
  by destruct (dir _).
Qed.
Lemma login_check d g :
  gives I (user_dn_memberof_check server op_timeout_secs user_base pa dn pw d g) (Ok (listed_in d g)).
Proof. eapply gives_bind; [apply login_search|]. apply triple_ret. intros r Hr. done. Qed.
Lemma login_hit : keeps I hit.
Proof. apply keeps_modify. intros r. apply login_cache_same; by destruct r. Qed.
Lemma login_miss : keeps I miss.
Proof. apply keeps_modify. intros r. apply login_cache_same; by destruct r. Qed.
Lemma login_insert user se es r :
  dir (login_query user_base pa dn pw user) = se :: es -> I r ->
  let ms := default [] (or_else (e_attrs se !! "memberOf") (e_attrs se !! "memberof")) in
  I (on_memberof_cache (insert user {| mo_dn := e_dn se; mo_memberofs := ms; mo_fetched_at := now r |}) r).
Proof.
  intros Ed [H1 H2] ms. destruct r; split; cbn in *; [|exact H2]. intros u v.
  rewrite lookup_insert_Some. intros [[<- <-]|[_ Hv]]; [|by apply H1].
  unfold found_user. by rewrite Ed.
Qed.
Lemma login_refuse user r : found_user user = None -> I r -> I (snd (mark_negative ("mo:" +:+ user) r)).
Proof.
  intros Hf [H1 H2]. unfold mark_negative, modify. destruct r; split; cbn in *; [exact H1|].
  intros u t. rewrite lookup_insert_Some. intros [[E _]|[_ Hv]]; [|by eapply H2].
  by apply (sapp_inj_l "mo:") in E as <-.
Qed.
Lemma login_lookup user :
  gives I (lookup_user_dn_and_memberof server op_timeout_secs user_base pa dn pw user) (found_user user).
Proof.
  apply (triple_bind _ _ (fun o s =>
    (forall v, o = Some v -> found_user user = Some (mo_dn v, mo_memberofs v)) /\ I s)).
  { intros r Hr. split; [|done]. intros v. cbn. destruct (memberof_cache r !! user) as [v'|] eqn:E; [|done].
    destruct (_ <? _); [|done]. intros [= <-]. by apply Hr. }
  intros [v|].
  { intros r [Hv Hr]. rewrite bind_run. split; [symmetry; by apply Hv|by apply login_hit]. }
  apply (triple_bind _ _ (fun b s => (b = true -> found_user user = None) /\ I s)).
  { intros r [_ Hr]. split; [|done]. cbn. destruct (negative_cache r !! _) as [t|] eqn:E; [|done].
    intros _. by eapply Hr. }
  intros [].
  { apply triple_ret. intros r [Hn Hr]. split; [symmetry; by apply Hn|done]. }
  apply (triple_bind _ _ (fun _ => I)); [intros r [_ Hr]; by apply login_miss|]. intros _.
  eapply gives_bind; [apply login_search|]. cbv beta iota.
  change {| q_base := _; q_filter := _; q_attrs := _; q_dn := _; q_pw := _ |}
    with (login_query user_base pa dn pw user).
  destruct (dir (login_query user_base pa dn pw user)) as [|se es] eqn:Ed; intros r Hr.
  - assert (found_user user = None) as Hf by (unfold found_user; by rewrite Ed).
    rewrite bind_run. split; [done|by apply login_refuse].
  - rewrite bind_run. split; [unfold found_user; by rewrite Ed|]. by eapply login_insert.
Qed.

(** *** The client *)
Definition ok_with (bl : list (string * string * bool)) (lv : option (string * list string * Z))
    (c : LdapClient) : Prop :=
  service_bind_creds c = Some (dn, pw) /\ I (identity_resolver c)
  /\ bind_log c = bl /\ last_verified_memberofs c = lv.
Lemma ok_identity {A} (f : string -> string -> R (option A)) a bl lv :
  gives I (f dn pw) a -> gives (ok_with bl lv) (with_identity f) a.
Proof.
  intros Hf c (Hc & Hr & Hb & Hl). pose proof (with_identity_run f c dn pw Hc) as E.
  destruct (Hf _ Hr) as [Ea Hr']. destruct (f dn pw (identity_resolver c)) as [a' r']. rewrite E.
  split; [done|]. destruct (on_resolver_fields (fun _ => r') c) as (F1 & F2 & F3 & F4).
  unfold ok_with. cbn. rewrite F1, F2, F3, F4. done.
Qed.
Lemma ok_first_dn b f bl lv :
  gives (ok_with bl lv) (fetch_entry_dn server op_timeout_secs b f)
    (e_dn <$> head (dir {| q_base := b; q_filter := f; q_attrs := ["1.1"]; q_dn := dn; q_pw := pw |})).
Proof. apply ok_identity, login_first_dn. Qed.
Lemma ok_bind d p bl lv :
  triple (ok_with bl lv) (try_simple_bind simple_bind d p) (fun b c =>
    b = bind_accepted (length bl) d p /\ ok_with (bl ++ [(d, p, b)]) lv c).
Proof.
  intros c (Hc & Hr & Hb & Hl). unfold try_simple_bind, bind, get, modify, ret. cbn.
  assert (Hv : bind_verdict (if b_panics (simple_bind (length (bind_log c)) d p) then Err ()
      else Ok (b_connects (simple_bind (length (bind_log c)) d p) &&
               b_accepts (simple_bind (length (bind_log c)) d p))) = bind_accepted (length bl) d p).
  { unfold bind_accepted. rewrite Hb. by destruct (b_panics _). }
  rewrite Hv. split; [done|]. destruct c; cbn in *. unfold ok_with. cbn. rewrite Hb.
  split_and!; [done| |done|done]. destruct identity_resolver0. apply (login_cache_same _ _ eq_refl eq_refl Hr).
Qed.
Lemma ok_record u ms bl lv :
  triple (ok_with bl lv) (record_verified_memberofs u ms)
    (fun _ c => exists t, ok_with bl (Some (u, ms, t)) c).
Proof.
  intros c (Hc & Hr & Hb & Hl). unfold record_verified_memberofs, bind, get, modify. exists (clock c).
  destruct c; cbn in *. by unfold ok_with.
Qed.
Lemma eq_ic_refl s : eq_ignore_ascii_case s s = true.
Proof. apply seqb_refl. Qed.
(** Membership, as the login asks it right after the bind. *)
Lemma ok_member user group ms t bl :
  gives (ok_with bl (Some (user, ms, t)))
    (user_is_member_of server op_timeout_secs user_base group_base pa user group)
    (match group_dn_of group with
     | Some g => existsb (fun m => eq_ignore_ascii_case m g) ms || listed_member user g
     | None => false
     end).
Proof.
  unfold user_is_member_of. eapply gives_bind; [apply ok_identity, login_first_dn|].
  change {| q_base := _; q_filter := _; q_attrs := _; q_dn := _; q_pw := _ |}
    with (group_query group_base pa dn pw group).
  unfold group_dn_of. destruct (head _) as [ge|]; cbn; [|apply gives_ret].
  unfold non_empty_dn. destruct (is_empty (e_dn ge)); [apply gives_ret|].
  apply (gives_bind _ _ (existsb (fun m => eq_ignore_ascii_case m (e_dn ge)) ms)).
  { intros c Hc. split; [|done]. unfold get, has_recent_memberof. cbn.
    destruct Hc as (_ & _ & _ & ->). by rewrite eq_ic_refl. }
  destruct (existsb _ ms); [apply gives_ret|]. eapply gives_bind; [apply ok_first_dn|].
  change {| q_base := _; q_filter := _; q_attrs := _; q_dn := _; q_pw := _ |}
    with (user_dn_query user_base pa dn pw user).
  unfold listed_member, user_dn_of. destruct (head _) as [ue|]; cbn; [|apply gives_ret].
  apply (gives_bind _ _ (Some (listed_in (e_dn ue) (e_dn ge)))); [apply ok_identity|apply gives_ret].
  apply (gives_bind _ _ (listed_in (e_dn ue) (e_dn ge))); [|apply gives_ret].
  eapply gives_bind; [apply login_check|apply gives_ret].
Qed.
Lemma ok_admin user password group bl lv :
  triple (ok_with bl lv)
    (verify_user_is_admin server op_timeout_secs user_base group_base pa simple_bind user password group)
    (fun r c => r = admin_decision (length bl) user password group
      /\ exists lv', ok_with (bl ++ match found_user user with
                     | Some (d, _) => [(d, password, bind_accepted (length bl) d password)]
                     | None => [] end) lv' c).
Proof.
  unfold verify_user_is_admin, verify_user_credentials, admin_decision. intros c Hc.
  rewrite bind_run, bind_run.
  destruct (ok_identity (fun dn pw => lookup_user_dn_and_memberof server op_timeout_secs user_base pa dn pw user)
    _ bl lv (login_lookup user) c Hc) as [E1 H1].
  destruct (with_identity _ c) as [o c1]. cbn [fst snd] in *. subst o.
  destruct (found_user user) as [[d ms]|]; [|cbn; split; [done|exists lv; by rewrite app_nil_r]].
  rewrite bind_run. destruct (ok_bind d password bl lv c1 H1) as [E2 H2].
  destruct (try_simple_bind simple_bind d password c1) as [b c2]. cbn [fst snd] in *. subst b.
  destruct (bind_accepted _ d password); cbn [negb]; [|cbn; split; [done|by exists lv]].
  rewrite bind_run. destruct (ok_record user ms _ _ c2 H2) as [t H3]. cbn [ret fst snd].
  rewrite bind_run. destruct (ok_member user group ms t _ _ H3) as [E4 H4].
  unfold user_is_member_of_group. rewrite E4. cbn [ret fst snd].
  split; [|by exists (Some (user, ms, t))]. destruct (group_dn_of group); [|done]. by destruct (_ || _).
Qed.
End Decision.

(** ** The login caches over the life of a client *)

(** Resolver operations other than the login lookup add nothing to the login caches. *)
Section LoginFrame.
Context (server : nat -> Query -> Attempt) (op_timeout_secs : Z).
Context (Helapsed : forall n q, 0 <= a_elapsed (server n q)) (r0 : Resolver).
Local Abbreviation J := (fun r => login_cache_le r r0).

Lemma frame_of (f : Resolver -> Resolver) :
  (forall r, memberof_cache (f r) = memberof_cache r) ->
  (forall r, negative_cache (f r) = negative_cache r) -> keeps J (modify f).
Proof. intros H1 H2 r Hr. cbn. unfold login_cache_le. by rewrite H1, H2. Qed.
Lemma frame_search b f attrs dn pw : keeps J (search server op_timeout_secs dn pw b f attrs).
Proof.
  intros r Hr. unfold search. destruct (service_search_frame server op_timeout_secs Helapsed
    {| q_base := b; q_filter := f; q_attrs := attrs; q_dn := dn; q_pw := pw |} r).
  unfold login_cache_le. by rewrite sf_memberof, sf_negative.
Qed.
Lemma frame_sub r r' :
  memberof_cache r' ⊆ memberof_cache r -> negative_cache r' ⊆ negative_cache r -> J r -> J r'.
Proof.
  intros H1 H2 [H3 H4]. split; [by transitivity (memberof_cache r)|].
  intros u t Ht. by eapply H4, lookup_weaken.
Qed.
Lemma frame_evict : keeps J Resolver.evict_expired.
Proof.
  apply keeps_modify. intros r Hr.
  assert (Hs : forall t l, J (sweep t (on_last_evict (fun _ => l) r))).
  { intros t l. eapply frame_sub, Hr; destruct r; cbn; apply map_filter_subseteq. }
  cbv zeta. destruct (last_evict r) as [l|]; [destruct (_ <? _); [done|]|]; apply Hs.
Qed.
Lemma frame_clear : keeps J clear_caches.
Proof. apply keeps_modify. intros r Hr. destruct r. split; cbn; [apply map_empty_subseteq|done]. Qed.
Lemma frame_hit : keeps J hit.
Proof. apply frame_of; by intros []. Qed.
Lemma frame_miss : keeps J miss.
Proof. apply frame_of; by intros []. Qed.
Lemma frame_negative k : starts_with "mo:" k = false -> keeps J (mark_negative k).
Proof.
  intros Hk. apply keeps_modify. intros r [H1 H2]. destruct r; split; cbn in *; [done|].
  intros u t. rewrite lookup_insert_ne; [apply H2|]. intros ->. by cbn in Hk.
Qed.
Lemma frame_negative_u k : keeps J (mark_negative ("u:" +:+ k)).
Proof. by apply frame_negative. Qed.
Lemma frame_negative_g k : keeps J (mark_negative ("g:" +:+ k)).
Proof. by apply frame_negative. Qed.
Lemma frame_negative_uid k : keeps J (mark_negative ("uid:" +:+ k)).
Proof. by apply frame_negative. Qed.
Lemma frame_negative_gid k : keeps J (mark_negative ("gid:" +:+ k)).
Proof. by apply frame_negative. Qed.
Lemma frame_negative_hit k : keeps J (negative_hit k).
Proof. apply keeps_get. Qed.
Lemma frame_cache_user k u cu : keeps J (cache_user k u cu).
Proof. apply keeps_bind; [|intros _]; apply frame_of; by intros []. Qed.
Lemma frame_cache_group k g cg : keeps J (cache_group k g cg).
Proof. apply keeps_bind; [|intros _]; apply frame_of; by intros []. Qed.
Local Hint Resolve frame_search frame_evict frame_clear frame_hit frame_miss frame_negative_u
  frame_negative_g frame_negative_uid frame_negative_gid frame_negative_hit frame_cache_user
  frame_cache_group keeps_ret keeps_get : keep.
Lemma frame_take_user pa key name es : keeps J (take_user pa key name es).
Proof. unfold take_user. keep_all. Qed.
Local Hint Resolve frame_take_user : keep.
Lemma frame_bases pa dn pw n f attrs bases :
  keeps J (user_bases_loop server op_timeout_secs pa dn pw n f attrs bases).
Proof. induction bases as [|b l IH]; cbn [user_bases_loop]; keep_all. Qed.
Local Hint Resolve frame_bases : keep.
Lemma frame_resolve_user ub pa dn pw n :
  keeps J (Resolver.resolve_user server op_timeout_secs ub pa dn pw n).
Proof. unfold Resolver.resolve_user. keep_all. Qed.
Lemma frame_resolve_group gb pa dn pw n :
  keeps J (Resolver.resolve_group server op_timeout_secs gb pa dn pw n).
Proof. unfold Resolver.resolve_group. keep_all. Qed.
Lemma frame_by_uid ub pa dn pw n :
  keeps J (Resolver.resolve_user_by_uid server op_timeout_secs ub pa dn pw n).
Proof. unfold Resolver.resolve_user_by_uid. keep_all. Qed.
Lemma frame_by_gid gb pa dn pw n :
  keeps J (Resolver.resolve_group_by_gid server op_timeout_secs gb pa dn pw n).
Proof. unfold Resolver.resolve_group_by_gid. keep_all. Qed.
Lemma frame_load_user pa n se : keeps J (load_user pa n se).
Proof. unfold load_user. keep_all. all: apply frame_of; by intros []. Qed.
Lemma frame_load_group pa se : keeps J (load_group pa se).
Proof. unfold load_group. keep_all. Qed.
Local Hint Resolve frame_load_user frame_load_group : keep.
Lemma frame_load ub gb pa dn pw :
  keeps J (load_full_identities server op_timeout_secs ub gb pa dn pw).
Proof. unfold load_full_identities. keep_all. Qed.
Lemma frame_list b f na nu di l dn pw :
  keeps J (search_list_posix server op_timeout_secs dn pw b f na nu di l).
Proof. unfold search_list_posix. keep_all. Qed.
End LoginFrame.

Section ClientRuns.
Context (to_lowercase : string -> string).
Context (server : nat -> Query -> Attempt) (op_timeout_secs : Z).
Context (user_base group_base : string) (pa : PosixAttributeMapping).
Context (simple_bind : nat -> string -> string -> BindTry).

(** What the WebUI does with its client, in any order, and the passage of time. *)
Inductive client_op : forall A, L A -> Prop :=
| co_auth u p : client_op _ (authenticate u p)
| co_clear : client_op _ clear_cache
| co_stats : client_op _ cache_stats_summary
| co_user n : client_op _ (resolve_user server op_timeout_secs user_base pa n)
| co_group n : client_op _ (resolve_group server op_timeout_secs group_base pa n)
| co_uid n : client_op _ (resolve_user_by_uid server op_timeout_secs user_base pa n)
| co_gid n : client_op _ (resolve_group_by_gid server op_timeout_secs group_base pa n)
| co_users f : client_op _ (list_users to_lowercase server op_timeout_secs user_base group_base pa f)
| co_groups f : client_op _ (list_groups to_lowercase server op_timeout_secs user_base group_base pa f)
| co_refresh : client_op _ (refresh_identity_data to_lowercase server op_timeout_secs user_base group_base pa)
| co_tick i : client_op _ (webui_refresh_tick to_lowercase server op_timeout_secs user_base group_base pa i)
| co_admin u p g :
    client_op _ (verify_user_is_admin server op_timeout_secs user_base group_base pa simple_bind u p g)
| co_live u g :
    client_op _ (verify_admin_group_membership_live server op_timeout_secs user_base group_base pa u g)
| co_wait d : 0 <= d -> client_op _ (modify (on_resolver (on_now (fun t => t + d)))).
Inductive client_step : LdapClient -> LdapClient -> Prop :=
| client_step_op A (m : L A) c : client_op A m -> client_step c (snd (m c)).
Definition client_reachable (t0 : Z) (c : LdapClient) : Prop := rtc client_step (new_client t0) c.

Context (dir : Query -> list Entry) (Hdir : answers server dir).
Definition client_inv (c : LdapClient) : Prop :=
  forall dn pw, service_bind_creds c = Some (dn, pw) ->
  login_cache_ok user_base pa dir dn pw (identity_resolver c).

Lemma inv_same f :
  (forall c, service_bind_creds (f c) = service_bind_creds c) ->
  (forall c, identity_resolver (f c) = identity_resolver c) -> keeps client_inv (modify f).
Proof. intros H1 H2 c Hc dn pw. cbn. rewrite H1, H2. apply Hc. Qed.
Lemma inv_with_resolver {A} (m : R A) :
  (forall r0, keeps (fun r => login_cache_le r r0) m) -> keeps client_inv (with_resolver m).
Proof.
  intros Hm c Hc dn pw. unfold with_resolver.
  specialize (Hm (identity_resolver c) (identity_resolver c)). cbn beta in Hm.
  destruct (m (identity_resolver c)) as [a r]. destruct (on_resolver_fields (fun _ => r) c) as (F1 & F2 & _).
  cbn. rewrite F1, F2. intros E. eapply login_cache_le_ok; [apply Hm; done|by apply Hc].
Qed.
Lemma inv_identity {A} (f : string -> string -> R (option A)) :
  (forall dn pw r0, keeps (fun r => login_cache_le r r0) (f dn pw)) -> keeps client_inv (with_identity f).
Proof.
  intros Hf. apply keeps_bind; [apply keeps_get|]. intros [[dn pw]|]; [|apply keeps_ret].
  by apply inv_with_resolver.
Qed.
Lemma dir_elapsed n q : 0 <= a_elapsed (server n q).
Proof. by apply (answers_elapsed server dir). Qed.
Local Hint Resolve dir_elapsed : keep.
Local Ltac same_fields := apply inv_same; intros []; by repeat
  (cbn; match goal with |- context [if ?b then _ else _] => destruct b end).
Local Hint Extern 1 (keeps client_inv (modify _)) => same_fields : keep.
Local Hint Extern 2 (keeps client_inv (with_identity _)) =>
  apply inv_identity; intros; cbv beta; keep_all : keep.
Local Hint Resolve frame_resolve_user frame_resolve_group frame_by_uid frame_by_gid frame_load
  frame_list frame_search frame_evict frame_clear keeps_ret keeps_get inv_with_resolver : keep.
Lemma inv_evict : keeps client_inv evict_expired.
Proof. unfold evict_expired. keep_all. Qed.
Lemma inv_full_list b rows : keeps client_inv (store_full_list b rows).
Proof. unfold store_full_list. keep_all. Qed.
Local Hint Resolve inv_evict inv_full_list : keep.
Lemma inv_fetch b :
  keeps client_inv (fetch_and_store_full_list to_lowercase server op_timeout_secs user_base group_base pa b).
Proof.
  unfold fetch_and_store_full_list, search_list_users, search_list_groups.
  keep_all. all: unfold search_list_users, search_list_groups; keep_all.
Qed.
Local Hint Resolve inv_fetch : keep.
Lemma inv_list b f :
  keeps client_inv (list_rows to_lowercase server op_timeout_secs user_base group_base pa b f).
Proof.
  unfold list_rows, full_list_rows, cached_full_list. keep_all.
Qed.
Local Hint Resolve inv_list : keep.
Lemma inv_refresh :
  keeps client_inv (refresh_identity_data to_lowercase server op_timeout_secs user_base group_base pa).
Proof. unfold refresh_identity_data. keep_all. Qed.
Lemma inv_auth u p : keeps client_inv (authenticate u p).
Proof.
  intros c _ dn pw _. unfold authenticate, clear_cache, get_or_bind_service, with_resolver, clear_caches,
    bind, get, modify, ret. destruct c as [? ? ? ? ? ? ? ? ? ? ? [] ?]; cbn. by split.
Qed.
Lemma inv_wait d : keeps client_inv (modify (on_resolver (on_now (fun t => t + d)))).
Proof.
  intros c Hc dn pw E. destruct c as [? ? ? ? ? ? ? ? ? ? ? [] ?]. cbn in *. by specialize (Hc dn pw E).
Qed.
Lemma inv_admin u p g : keeps client_inv
  (verify_user_is_admin server op_timeout_secs user_base group_base pa simple_bind u p g).
Proof.
  intros c Hc dn pw. destruct (service_bind_creds c) as [[dn' pw']|] eqn:E.
  - destruct (ok_admin server op_timeout_secs user_base group_base pa simple_bind dir Hdir dn' pw' u p g
      (bind_log c) (last_verified_memberofs c) c) as (_ & lv & E' & H & _).
    { split_and!; [done|by apply Hc|done|done]. }
    rewrite E'. by intros [= <- <-].
  - assert (verify_user_is_admin server op_timeout_secs user_base group_base pa simple_bind u p g c
      = (Err (AuthError "user not found or service account lacks permission to search"), c)) as ->.
    { unfold verify_user_is_admin, verify_user_credentials, with_identity, bind, get, ret. by rewrite E. }
    cbn. by rewrite E.
Qed.
Lemma inv_live u g :
  keeps client_inv (verify_admin_group_membership_live server op_timeout_secs user_base group_base pa u g).
Proof.
  unfold verify_admin_group_membership_live, resolve_user_dn, fetch_entry_dn, lookup_group_dn,
    lookup_first_dn, user_dn_memberof_check. keep_all.
Qed.
Lemma client_op_inv A (m : L A) : client_op A m -> keeps client_inv m.
Proof.
  destruct 1; auto using inv_auth, inv_wait, inv_admin, inv_live, inv_refresh.
  - unfold clear_cache. keep_all.
  - unfold cache_stats_summary, cache_entry_counts, bind_stats, pool_is_warm. keep_all.
  - unfold resolve_user. keep_all.
  - unfold resolve_group. keep_all.
  - unfold resolve_user_by_uid. keep_all.
  - unfold resolve_group_by_gid. keep_all.
  - unfold list_users. keep_all.
  - unfold list_groups. keep_all.
  - unfold webui_refresh_tick. apply keeps_bind; [apply keeps_get|]. intros []; [apply inv_refresh|apply keeps_ret].
Qed.
Lemma client_reachable_inv t0 c : client_reachable t0 c -> client_inv c.
Proof.
  intros H. cut (client_inv (new_client t0)); [|by intros dn pw].
  induction H as [c|c1 c2 c3 [A m c0 Hop] _ IH]; [done|]. intros Hc. apply IH. by eapply client_op_inv.
Qed.
End ClientRuns.

(** C5: Against a directory that answers, the verdict of an admin login depends
    on the directory and on one bind alone, whatever the client's history and
    caches: the name is found, the server accepts the password for exactly the
    DN found (one bind, and none for an unknown name), and the admin group,
    which exists, is among the user's memberOf values or lists the user.  Every
    refusal has its own error, and membership is never reported before the
    password was accepted. *)
Theorem admin_login_exact to_lowercase server op_timeout_secs ub gb pa simple_bind dir
    (Hdir : answers server dir) t0 c dn pw user password group :
  client_reachable to_lowercase server op_timeout_secs ub gb pa simple_bind t0 c ->
  service_bind_creds c = Some (dn, pw) ->
  let r := verify_user_is_admin server op_timeout_secs ub gb pa simple_bind user password group c in
  let n := length (bind_log c) in
  fst r = admin_decision ub gb pa simple_bind dir dn pw n user password group
  /\ bind_log (snd r) = bind_log c ++
       match found_user ub pa dir dn pw user with
       | Some (d, _) => [(d, password, bind_accepted simple_bind n d password)]
       | None => []
       end.
Proof.
  intros Hc Hcr r n.
  pose proof (client_reachable_inv to_lowercase server op_timeout_secs ub gb pa simple_bind dir Hdir t0 c Hc
    dn pw Hcr) as Hi.
  destruct (ok_admin server op_timeout_secs ub gb pa simple_bind dir Hdir dn pw user password group
    (bind_log c) (last_verified_memberofs c) c) as (E & lv & _ & _ & El & _); [done|].
  by split.
Qed.

(** ** A concrete directory *)
Definition demo_dir (q : Query) : list Entry :=
  if seqb (q_base q) "ou=groups,dc=ex" then [{| e_dn := "cn=admins,ou=groups,dc=ex"; e_attrs := ∅ |}]
  else [{| e_dn := "uid=ann,ou=people,dc=ex";
           e_attrs := {["memberOf" := ["CN=admins,ou=groups,dc=ex"]]} |}].
Definition demo_server (n : nat) (q : Query) : Attempt := {|
  a_connect := None; a_bind := None; a_search := fun _ => Ok (demo_dir q);
  a_stalls := false; a_elapsed := 1 |}.
Definition demo_bind (n : nat) (d p : string) : BindTry := {|
  b_connects := true; b_accepts := seqb p "right"; b_panics := false; b_elapsed := 1 |}.
Definition demo_client : LdapClient := snd (authenticate "cn=svc" "pw" (new_client 0)).
Lemma demo_answers : answers demo_server demo_dir.
Proof. intros n q. by split_and!. Qed.
Lemma demo_reachable lower :
  client_reachable lower demo_server 15 "ou=people,dc=ex" "ou=groups,dc=ex" demo_mapping demo_bind 0 demo_client.
Proof. apply rtc_once. apply (client_step_op _ _ _ _ _ _ _ _ (authenticate "cn=svc" "pw")). constructor. Qed.
Definition demo_login (password : string) (c : LdapClient) : result unit LdapError * LdapClient :=
  verify_user_is_admin demo_server 15 "ou=people,dc=ex" "ou=groups,dc=ex" demo_mapping demo_bind
    "ann" password "admins" c.
Lemma admin_login_exact_witness :
  fst (demo_login "right" demo_client) = Ok tt
  /\ bind_log (snd (demo_login "wrong" demo_client)) = [("uid=ann,ou=people,dc=ex", "wrong", false)].
Proof.
  unfold demo_login. split.
  - rewrite (proj1 (admin_login_exact (fun s => s) demo_server 15 "ou=people,dc=ex" "ou=groups,dc=ex"
      demo_mapping demo_bind demo_dir demo_answers 0 demo_client "cn=svc" "pw" "ann" "right" "admins"
      (demo_reachable _) ltac:(by vm_compute))). by vm_compute.
  - rewrite (proj2 (admin_login_exact (fun s => s) demo_server 15 "ou=people,dc=ex" "ou=groups,dc=ex"
      demo_mapping demo_bind demo_dir demo_answers 0 demo_client "cn=svc" "pw" "ann" "wrong" "admins"
      (demo_reachable _) ltac:(by vm_compute))). by vm_compute.
Defined.
Lemma live_check_asks_directory_witness :
  let live := verify_admin_group_membership_live demo_server 15 "ou=people,dc=ex" "ou=groups,dc=ex"
    demo_mapping "ann" "admins" in
  fst (live demo_client) = Ok tt
  /\ exists dn pw r1 r2 members,
      asked demo_server (group_query "ou=groups,dc=ex" demo_mapping dn pw "admins")
        (demo_dir (group_query "ou=groups,dc=ex" demo_mapping dn pw "admins")) (identity_resolver demo_client) r1
      /\ asked demo_server (member_query "ou=people,dc=ex" demo_mapping dn pw "cn=admins,ou=groups,dc=ex") members r2
           (identity_resolver (snd (live demo_client)))
      /\ exists e, e ∈ members /\ eq_ignore_ascii_case (e_dn e) "uid=ann,ou=people,dc=ex" = true.
Proof.
  intros live. assert (Hok : fst (live demo_client) = Ok tt) by (by vm_compute). split; [exact Hok|].
  destruct (live_check_asks_directory demo_server 15 ltac:(intros; cbn; lia) "ou=people,dc=ex" "ou=groups,dc=ex"
    demo_mapping "ann" "admins" demo_client demo_client ltac:(by split)) as (_ & _ & H).
  destruct (H Hok) as (dn & pw & r1 & r2 & gs & gd & us & ud & ms & Hc & Hg & Hgd & _ & Hu & Hud & Hm & He).
  pose proof (proj2 Hg) as (n1 & b1 & _ & Eg). pose proof (proj2 Hu) as (n2 & b2 & _ & Eu). vm_compute in Hc. injection Hc as <- <-.
  exists "cn=svc", "pw", r1, r2, ms. cbn in Eg, Eu.
  injection Eg as <-. injection Eu as <-. vm_compute in Hgd, Hud. injection Hgd as <-. injection Hud as <-.
  split; [exact Hg|]. split; [exact Hm|exact He].
Defined.

(** A password is handed to the server as it is, the empty one too: a server
    that takes a bind with an empty password for an anonymous one lets anybody
    in as an admin. *)
Theorem empty_password_is_sent server t ub gb pa simple_bind dir (Hdir : answers server dir) lower t0 c
    dn pw user group d ms g :
  client_reachable lower server t ub gb pa simple_bind t0 c ->
  service_bind_creds c = Some (dn, pw) ->
  found_user ub pa dir dn pw user = Some (d, ms) ->
  bind_accepted simple_bind (length (bind_log c)) d "" = true ->
  group_dn_of gb pa dir dn pw group = Some g -> g ∈ ms ->
  fst (verify_user_is_admin server t ub gb pa simple_bind user "" group c) = Ok tt.
Proof.
  intros Hc Hcr Hf Hb Hg Hm.
  pose proof (client_reachable_inv lower server t ub gb pa simple_bind dir Hdir t0 c Hc dn pw Hcr) as Hi.
  destruct (ok_admin server t ub gb pa simple_bind dir Hdir dn pw user "" group
    (bind_log c) (last_verified_memberofs c) c) as (E & _); [done|].
  rewrite E. unfold admin_decision. rewrite Hf, Hb, Hg. cbn.
  assert (existsb (fun m => eq_ignore_ascii_case m g) ms = true) as ->; [|done].
  apply existsb_exists. exists g. split; [by apply list_elem_of_In|apply eq_ic_refl].
Qed.
