(* ===== verification/WebLogin.v ===== *)
(** * Logging in to the WebUI

    Models [nfs-klldap-ui/src/web/auth.rs], the setup gate of [web/mod.rs] and
    [web/setup.rs], and the password change of [web/settings/mod.rs]: what a
    request with its cookies may do, and what it changes.  The state is the
    session table with its files (Auth.v) and the LDAP client (LdapClient.v).
    The HTML and the text of the Set-Cookie header (the [cookie] crate) are not
    modelled: a response is its status or target, its message and the fields
    of its cookie.  Random tokens and salts, the time of the session
    operations and the outcome of each write are arguments. *)

From S2P Require Import Prelude RustStr State Identity Config Startup Auth Resolver LdapClient.
Local Open Scope Z_scope.

(** ** Requests and responses *)
(** The first value of each header, when it is text. *)
Record Headers := { h_cookie : option string; h_forwarded_proto : option string }.
Record Cookie := {
  ck_value : string; ck_http_only : bool; ck_same_site_lax : bool; ck_path : string;
  ck_max_age : Z; ck_secure : bool;
}.
Record LoginPage := { lp_error : option string; lp_first_run : bool; lp_admin_group : string }.
Inductive Response :=
| Redirect (target : string) (set_cookie : option Cookie)
| LoginHtml (status : Z) (page : LoginPage).

(** ** The setup gate *)
(** What the files say of the first-run setup. *)
Record Setup := { preconfigured : bool; wizard_marker : bool; wizard_step : StartupStep }.
Definition setup_wizard_required (s : Setup) : bool :=
  if preconfigured s then false else negb (wizard_marker s).
Definition setup_redirect_for_step (s : Setup) : string :=
  if preconfigured s then "/login"
  else if wizard_marker s then "/login"
  else match wizard_index (wizard_step s) with
       | Some n => "/setup/" +:+ dec (Z.of_nat n)
       | None => "/login"
       end.
(** [require_setup_complete]: where a request is sent instead, if anywhere. *)
Definition require_setup_complete (s : Setup) (path : string) : option string :=
  if starts_with "/setup" path || starts_with "/assets/" path || seqb path "/login"
     || seqb path "/setup-password" || seqb path "/restart-status" || seqb path "/logout"
     || seqb path "/client-manifest.json"
  then None
  else if setup_wizard_required s then Some (setup_redirect_for_step s) else None.

(** ** Cookies *)
Definition session_token_of (part : string) : option string :=
  match strip_prefix "session=" (trim part) with
  | Some rest => let token := trim_matches "034" rest in if is_empty token then None else Some token
  | None => None
  end.
Definition extract_all_session_tokens (cookie_header : string) : list string :=
  omap session_token_of (split ";" cookie_header).
Definition extract_all_session_tokens_from_headers (h : Headers) : list string :=
  match h_cookie h with Some s => extract_all_session_tokens s | None => [] end.
Definition had_session_cookie (h : Headers) : bool :=
  match h_cookie h with
  | Some s => match extract_all_session_tokens s with [] => false | _ => true end
  | None => false
  end.
Definition is_https (direct_tls : bool) (h : Headers) : bool :=
  direct_tls || match h_forwarded_proto h with Some s => eq_ignore_ascii_case s "https" | None => false end.
(** [env]: NFS_KLLDAP_WEBUI_COOKIE_SECURE. *)
Definition effective_cookie_secure (env : option string) (direct_tls : bool) (h : Headers) : bool :=
  match env with
  | Some v => let v := to_ascii_lowercase (trim v) in
              negb (seqb v "0" || seqb v "false" || seqb v "off" || seqb v "no")
  | None => is_https direct_tls h
  end.
Definition login_error_message (first_run : bool) (error : option string) : option string :=
  code ← error;
  let expired := seqb code "session" || seqb code "required" || seqb code "auth" in
  if first_run && expired then None
  else Some (if expired
             then "Your session has expired or you are not logged in. Please sign in again."
             else "Authentication required: " +:+ code).

(** ** The handlers *)
Record Web := {
  w_auth : AuthManager;
  w_files : Sidecar;
  w_client : LdapClient;
  (* session operations done, and cache warm-ups spawned *)
  w_ops : nat;
  w_warms : nat;
}.
Abbreviation W := (M Web).

Section Handlers.
Context (sha256 : Bytes -> Bytes).
Context (to_json : gmap string PersistedSession -> string).
Context (disk_ok : nat -> bool).
Context (server : nat -> Query -> Attempt) (op_timeout_secs : Z).
Context (user_base group_base : string) (pa : PosixAttributeMapping).
Context (simple_bind : nat -> string -> string -> BindTry).
Context (cookie_env : option string) (direct_tls : bool).

(** Calls into the two components. *)
Definition with_client {A} (m : L A) : W A := fun w =>
  let '(a, c) := m (w_client w) in
  (a, {| w_auth := w_auth w; w_files := w_files w; w_client := c; w_ops := w_ops w; w_warms := w_warms w |}).
Definition with_auth {A} (f : bool -> AuthManager -> Sidecar -> A * (AuthManager * Sidecar)) : W A := fun w =>
  let '(x, (a, d)) := f (disk_ok (w_ops w)) (w_auth w) (w_files w) in
  (x, {| w_auth := a; w_files := d; w_client := w_client w; w_ops := S (w_ops w); w_warms := w_warms w |}).
Definition auth_logout (token : string) : W unit :=
  with_auth (fun saved a d => (tt, Auth.logout sha256 to_json saved token a d)).
Definition auth_validate (now : Z) (token : string) : W (option string) :=
  with_auth (fun saved a d => Auth.validate sha256 to_json saved now token a d).
Definition auth_create (now : Z) (user token : string) : W unit :=
  with_auth (fun saved a d => (tt, create_privileged_session sha256 to_json saved now user token a d)).
Definition auth_invalidate (user keep : string) : W nat :=
  with_auth (fun saved a d => invalidate_sessions_for_user_except sha256 to_json saved user keep a d).
(** The outcomes of the three file operations of a password change. *)
Record PwWrite := { pw_open : bool; pw_write : bool; pw_rename : bool; pw_salt : Bytes }.
Definition auth_set_password (io : PwWrite) (password : string) : W (result unit string) :=
  with_auth (fun _ a d =>
    let '(r, d') := set_simple_password sha256 (pw_open io) (pw_write io) (pw_rename io) (pw_salt io) password d in
    (r, (a, d'))).
Definition has_simple_password (w : Web) : bool := is_some (simple_pw_file (w_files w)).
Definition spawn_warm : W unit := modify (fun w =>
  {| w_auth := w_auth w; w_files := w_files w; w_client := w_client w; w_ops := w_ops w;
     w_warms := S (w_warms w) |}).

Definition build_session_cookie (h : Headers) (token : string) (w : Web) : Cookie := {|
  ck_value := token; ck_http_only := true; ck_same_site_lax := true; ck_path := "/";
  ck_max_age := session_ttl (w_auth w) / NANOS; ck_secure := effective_cookie_secure cookie_env direct_tls h |}.
Definition build_clear_session_cookie (h : Headers) : Cookie := {|
  ck_value := ""; ck_http_only := true; ck_same_site_lax := true; ck_path := "/";
  ck_max_age := 0; ck_secure := effective_cookie_secure cookie_env direct_tls h |}.
Definition login_html (status : Z) (error : option string) : W Response :=
  get (fun w => LoginHtml status {| lp_error := error; lp_first_run := negb (has_simple_password w);
                                    lp_admin_group := admin_group (w_auth w) |}).

(** The user of the last cookie with a live session. *)
Definition validate_session_in_headers (now : Z) (h : Headers) : W (option string) :=
  first_of (rev (extract_all_session_tokens_from_headers h)) (auth_validate now).
Definition current_session_token (now : Z) (h : Headers) : W (option string) :=
  first_of (rev (extract_all_session_tokens_from_headers h)) (fun t =>
    let* u := auth_validate now t in ret (if is_some u then Some t else None)).
Definition auth_failure_redirect (h : Headers) (w : Web) : string :=
  if negb (has_simple_password w) then "/login"
  else if had_session_cookie h then "/login?error=session" else "/login".
Definition require_auth (now : Z) (h : Headers) : W (result string string) :=
  let* user := validate_session_in_headers now h in
  match user with
  | Some u => ret (Ok u)
  | None => let* target := get (auth_failure_redirect h) in ret (Err target)
  end.

Definition login_page (su : Setup) (now : Z) (h : Headers) (error : option string) : W Response :=
  if setup_wizard_required su then ret (Redirect (setup_redirect_for_step su) None)
  else
    let* user := validate_session_in_headers now h in
    match user with
    | Some _ => ret (Redirect "/" None)
    | None =>
        let* first_run := get (fun w => negb (has_simple_password w)) in
        login_html 200 (login_error_message first_run error)
    end.

(** The end of both ways in: the old sessions of the browser go, a new one
    comes, and the caches of the permission editor are warmed. *)
Definition open_session (now : Z) (h : Headers) (user token target : string) : W Response :=
  do* each (extract_all_session_tokens_from_headers h) auth_logout in
  do* auth_create now user token in
  let* cookie := get (build_session_cookie h token) in
  do* spawn_warm in
  ret (Redirect target (Some cookie)).
Definition ldap_login_result (username : string) (r : result unit LdapError) : result string string :=
  match r with
  | Ok _ => Ok username
  | Err e => if contains_str "not a member of" (ldap_error_text e) then Err (ldap_error_text e)
             else Err "Invalid username or password (LDAP)"
  end.
Definition check_login (username password : string) : W (result string string) :=
  if seqb username "localhost" then
    get (fun w => match validate_simple_password sha256 username password (w_files w) with
                  | Ok _ => Ok username
                  | Err e => Err e
                  end)
  else
    let* group := get (fun w => admin_group (w_auth w)) in
    let* r := with_client (verify_user_is_admin server op_timeout_secs user_base group_base pa simple_bind
                             username password group) in
    ret (ldap_login_result username r).
Definition login (now : Z) (token : string) (h : Headers) (form_user form_password : string) : W Response :=
  let* r := check_login (trim form_user) form_password in
  match r with
  | Ok user => open_session now h user token "/"
  | Err e => login_html 401 (Some e)
  end.
Definition setup_password (su : Setup) (now : Z) (token : string) (io : PwWrite) (h : Headers)
    (form_password : string) : W Response :=
  if setup_wizard_required su then ret (Redirect (setup_redirect_for_step su) None)
  else
    let* has := get has_simple_password in
    let* group := get (fun w => admin_group (w_auth w)) in
    if has then
      ret (LoginHtml 400 {| lp_error := Some "A simple password has already been set. Use the normal login form.";
                            lp_first_run := false; lp_admin_group := group |})
    else
      let pw := trim form_password in
      if is_empty pw then
        ret (LoginHtml 400 {| lp_error := Some "Password cannot be empty"; lp_first_run := true;
                              lp_admin_group := group |})
      else
        let* r := auth_set_password io pw in
        match r with
        | Ok _ => open_session now h "localhost" token "/?first_run=1"
        | Err e => ret (LoginHtml 400 {| lp_error := Some e; lp_first_run := true; lp_admin_group := group |})
        end.
Definition logout (h : Headers) : W Response :=
  do* each (extract_all_session_tokens_from_headers h) auth_logout in
  ret (Redirect "/login" (Some (build_clear_session_cookie h))).

(** [settings_change_password]: who may change the local password. *)
Definition authorize_change (user : string) (current : option string) : W (result unit string) :=
  if seqb user "localhost" then
    get (fun w => validate_simple_password sha256 "localhost" (default "" current) (w_files w))
  else
    let* group := get (fun w => admin_group (w_auth w)) in
    let* r := with_client (verify_admin_group_membership_live server op_timeout_secs user_base
                             group_base pa user group) in
    ret (match r with
         | Ok _ => Ok tt
         | Err e => Err ("live admin-group re-check failed (failing closed): " +:+ e)
         end).
(** ... and the change itself. *)
Definition rotate_password (now : Z) (io : PwWrite) (h : Headers) (new_password confirm : string)
  : W (result string string) :=
  let new_pw := trim new_password in
  if negb (seqb new_pw (trim confirm)) then
    ret (Err "new password and confirmation do not match.")
  else
    let* r := auth_set_password io new_pw in
    match r with
    | Err e => ret (Err e)
    | Ok _ =>
        let* keep := current_session_token now h in
        let* dropped := auth_invalidate "localhost" (default "" keep) in
        ret (Ok ("Password for 'localhost' updated. Signed out "
                 +:+ dec (Z.of_nat dropped) +:+ " other localhost session(s)."))
    end.
(** The message, and whether it is an error; or the redirect to the login. *)
Definition settings_change_password (now : Z) (io : PwWrite) (h : Headers)
    (current : option string) (new_password confirm : string) : W (result (string * bool) string) :=
  let* auth := require_auth now h in
  match auth with
  | Err target => ret (Err target)
  | Ok user =>
      let* authz := authorize_change user current in
      let* outcome :=
        match authz with
        | Err e => ret (Err e)
        | Ok _ => rotate_password now io h new_password confirm
        end in
      ret (Ok (match outcome with
               | Ok m => (m, false)
               | Err e => ("Password not changed — " +:+ e, true)
               end))
  end.
End Handlers.

(** ** Lemmas: cookies *)
Lemma split_app_any c a b : split c (a +:+ String c b) = split c a ++ split c b.
Proof.
  unfold split. induction a as [|d a IH].
  - rewrite sapp_nil_l. cbn. by rewrite ceqb_refl.
  - rewrite sapp_cons. cbn. rewrite IH. destruct (ceqb c d); [done|].
    pose proof (split_nonempty (ceqb c) a) as Hne. by destruct (split_p (ceqb c) a).
Qed.
Lemma extract_app a b :
  extract_all_session_tokens (a +:+ String ";" b) = extract_all_session_tokens a ++ extract_all_session_tokens b.
Proof. unfold extract_all_session_tokens. by rewrite split_app_any, omap_app. Qed.
Definition token_char (c : Ascii.ascii) : bool := is_ascii_alphanumeric c.
Lemma token_char_ok c :
  token_char c = true -> solid c = true /\ ceqb ";" c = false /\ ceqb "034" c = false.
Proof.
  assert (H : forall c, implb (token_char c) (solid c && (negb (ceqb ";" c) && negb (ceqb "034" c))) = true)
    by by_bytes.
  intros Hc. specialize (H c). rewrite Hc in H. cbn in H.
  apply andb_true_iff in H as [H1 [H2%negb_true_iff H3%negb_true_iff]%andb_true_iff]. done.
Qed.
Lemma token_trim_matches s : sall token_char s = true -> trim_matches "034" s = s.
Proof.
  intros Hs. unfold trim_matches.
  assert (trim_start_matches "034" s = s) as ->.
  { destruct s as [|c s]; [done|]. cbn [sall trim_start_matches] in *. apply andb_true_iff in Hs as [Hc _].
    by destruct (token_char_ok c Hc) as (_ & _ & ->). }
  induction s as [|c s IH]; [done|]. cbn [sall trim_end_matches] in *. apply andb_true_iff in Hs as [Hc Hs].
  rewrite IH by done. destruct (token_char_ok c Hc) as (_ & _ & ->). by rewrite andb_false_r.
Qed.
(** The cookie of a session, as the browser sends it after others or alone. *)
Lemma extract_session ws tok :
  (ws = "" \/ ws = " ") -> sall token_char tok = true -> tok <> "" ->
  extract_all_session_tokens (ws +:+ "session=" +:+ tok) = [tok].
Proof.
  intros Hws Ht Hne. unfold extract_all_session_tokens.
  assert (contains_char ";" tok = false) as Hn.
  { eapply sall_no_char, Ht. done. }
  rewrite split_no_char by (rewrite !contains_char_app, Hn; by destruct Hws as [-> | ->]).
  cbn [omap list_omap]. unfold session_token_of.
  assert (trim (ws +:+ "session=" +:+ tok) = "session=" +:+ tok) as ->.
  { assert (trim ("session=" +:+ tok) = "session=" +:+ tok) as Hs.
    { apply trim_all_solid. rewrite sall_app. cbn [sall andb]. change (sall solid "session=") with true.
      eapply sall_impl, Ht. intros c Hc. by apply token_char_ok. }
    destruct Hws as [-> | ->]; [done|].
    change (" " +:+ "session=" +:+ tok) with (" " +:+ String "s" ("ession=" +:+ tok)).
    rewrite trim_solid by done. change ("session=" +:+ tok) with ("" +:+ String "s" ("ession=" +:+ tok)) in Hs |- *.
    by rewrite trim_solid in Hs by done. }
  rewrite (proj2 (strip_prefix_spec _ _ tok) eq_refl). rewrite token_trim_matches by done.
  by destruct (is_empty tok) eqn:E; [apply is_empty_true in E|].
Qed.

(** ** What the handlers guarantee *)
(** The iterated hash is never computed in proofs. *)
Local Opaque hash_password.
Section HandlerFacts.
Context (sha256 : Bytes -> Bytes).
Context (to_json : gmap string PersistedSession -> string).
Context (disk_ok : nat -> bool).
Context (server : nat -> Query -> Attempt) (op_timeout_secs : Z).
Context (user_base group_base : string) (pa : PosixAttributeMapping).
Context (simple_bind : nat -> string -> string -> BindTry).
Context (cookie_env : option string) (direct_tls : bool).

(** The live sessions at [t], under the hashes of their tokens. *)
Definition alive (t : Z) (w : Web) : gmap string Session := live_at t (w_auth w).
Definition forget (tokens : list string) (m : gmap string Session) : gmap string Session :=
  foldl (fun m tok => delete (token_hash sha256 tok) m) m tokens.
(** Everything but the session table and its file. *)
Definition same_rest (w w' : Web) : Prop :=
  w_client w' = w_client w /\ simple_pw_file (w_files w') = simple_pw_file (w_files w)
  /\ admin_group (w_auth w') = admin_group (w_auth w) /\ session_ttl (w_auth w') = session_ttl (w_auth w).
Lemma same_rest_trans w1 w2 w3 : same_rest w1 w2 -> same_rest w2 w3 -> same_rest w1 w3.
Proof. unfold same_rest. intros (?&?&?&?) (?&?&?&?). split_and!; congruence. Qed.

Lemma with_auth_run {A} (f : bool -> AuthManager -> Sidecar -> A * (AuthManager * Sidecar)) w :
  let r := f (disk_ok (w_ops w)) (w_auth w) (w_files w) in
  let r' := with_auth disk_ok f w in
  fst r' = fst r /\ w_auth (snd r') = fst (snd r) /\ w_files (snd r') = snd (snd r)
  /\ w_client (snd r') = w_client w.
Proof. unfold with_auth. by destruct (f _ _ _) as [x [a d]]. Qed.

Lemma logout_run tok t w :
  let w' := snd (auth_logout sha256 to_json disk_ok tok w) in
  alive t w' = delete (token_hash sha256 tok) (alive t w) /\ same_rest w w'.
Proof.
  unfold auth_logout. destruct (with_auth_run (fun saved a d =>
    (tt, Auth.logout sha256 to_json saved tok a d)) w) as (_ & Ha & Hf & Hc).
  cbv zeta. unfold alive, same_rest. rewrite Ha, Hf, Hc. cbn [fst snd]. split; [apply live_logout|].
  unfold Auth.logout. destruct (sessions _ !! _); [|done]. unfold persist_sessions. by destruct (disk_ok _).
Qed.
Lemma logouts_run tokens t w :
  let w' := snd (each tokens (auth_logout sha256 to_json disk_ok) w) in
  alive t w' = forget tokens (alive t w) /\ same_rest w w'.
Proof.
  revert w. induction tokens as [|tok l IH]; intros w; [done|]. cbn [each]. rewrite bind_run.
  destruct (logout_run tok t w) as [E1 R1]. specialize (IH (snd (auth_logout sha256 to_json disk_ok tok w))).
  destruct IH as [E2 R2]. cbv zeta. split; [rewrite E2, E1; done|by eapply same_rest_trans].
Qed.
Lemma validate_run now tok t w :
  now <= t ->
  let r := auth_validate sha256 to_json disk_ok now tok w in
  fst r = username <$> alive now w !! token_hash sha256 tok /\ alive t (snd r) = alive t w
  /\ same_rest w (snd r).
Proof.
  intros Ht. unfold auth_validate. destruct (with_auth_run (fun saved a d =>
    Auth.validate sha256 to_json saved now tok a d) w) as (E & Ha & Hf & Hc).
  cbv zeta. unfold alive, same_rest. rewrite E, Ha, Hf, Hc.
  destruct (live_validate sha256 to_json (disk_ok (w_ops w)) now t tok (w_auth w) (w_files w) Ht) as [H1 H2].
  split_and!; [done|done|done| | |]; unfold Auth.validate; destruct (sessions _ !! _) as [s|]; try done;
    (destruct (now <? expires_at s); [done|]); unfold persist_sessions; by destruct (disk_ok _).
Qed.
(** The loop over the cookies, newest first. *)
Definition session_user (now : Z) (w : Web) (tok : string) : option string :=
  username <$> alive now w !! token_hash sha256 tok.
Lemma newest_run {B} now t tokens (g : string -> option string -> option B) w :
  now <= t -> (forall tok, g tok None = None) ->
  let r := first_of tokens (fun tok => let* u := auth_validate sha256 to_json disk_ok now tok in ret (g tok u)) w in
  fst r = head (omap (fun tok => g tok (session_user now w tok)) tokens)
  /\ alive t (snd r) = alive t w /\ same_rest w (snd r).
Proof.
  intros Ht Hg. revert w. induction tokens as [|tok l IH]; intros w; [done|]. cbn [first_of].
  rewrite bind_run, bind_run. cbn [ret fst snd].
  destruct (validate_run now tok now w ltac:(lia)) as (E & En & _).
  destruct (validate_run now tok t w Ht) as (_ & Ea & R).
  rewrite E. fold (session_user now w tok). cbn [omap list_omap].
  destruct (g tok (session_user now w tok)) as [b|]; [done|].
  specialize (IH (snd (auth_validate sha256 to_json disk_ok now tok w))). destruct IH as (E2 & Ea2 & R2).
  split_and!; [|by rewrite Ea2|by eapply same_rest_trans].
  rewrite E2. unfold session_user. by rewrite En.
Qed.
Lemma first_of_ext {S A B} (l : list A) (f g : A -> M S (option B)) s :
  (forall a s, f a s = g a s) -> first_of l f s = first_of l g s.
Proof.
  intros H. revert s. induction l as [|a l IH]; intros s; [done|]. cbn. rewrite !bind_run, H.
  by destruct (fst (g a s)).
Qed.
Definition newest_user (now : Z) (h : Headers) (w : Web) : option string :=
  head (omap (session_user now w) (rev (extract_all_session_tokens_from_headers h))).
Lemma session_in_headers_run now t h w :
  now <= t ->
  let r := validate_session_in_headers sha256 to_json disk_ok now h w in
  fst r = newest_user now h w /\ alive t (snd r) = alive t w /\ same_rest w (snd r).
Proof.
  intros Ht. unfold validate_session_in_headers, newest_user.
  rewrite (first_of_ext _ _ (fun tok => let* u := auth_validate sha256 to_json disk_ok now tok in ret u)).
  - by apply (newest_run now t _ (fun _ u => u)).
  - intros tok s. rewrite bind_run. cbn. by destruct (auth_validate _ _ _ _ _ s).
Qed.
Definition newest_token (now : Z) (h : Headers) (w : Web) : option string :=
  head (List.filter (fun tok => is_some (session_user now w tok)) (rev (extract_all_session_tokens_from_headers h))).
Lemma current_token_run now t h w :
  now <= t ->
  let r := current_session_token sha256 to_json disk_ok now h w in
  fst r = newest_token now h w /\ alive t (snd r) = alive t w /\ same_rest w (snd r).
Proof.
  intros Ht. unfold current_session_token, newest_token.
  destruct (newest_run now t (rev (extract_all_session_tokens_from_headers h))
    (fun tok u => if is_some u then Some tok else None) w Ht ltac:(done)) as (E & Ea & R).
  split_and!; [|done|done]. rewrite E. f_equal.
  generalize (rev (extract_all_session_tokens_from_headers h)). intros l.
  induction l as [|tok l IH]; [done|]. cbn. rewrite IH. by destruct (is_some _).
Qed.
Lemma require_auth_run now t h w :
  now <= t ->
  let r := require_auth sha256 to_json disk_ok now h w in
  fst r = match newest_user now h w with Some u => Ok u | None => Err (auth_failure_redirect h w) end
  /\ alive t (snd r) = alive t w /\ same_rest w (snd r).
Proof.
  intros Ht. unfold require_auth. rewrite bind_run.
  destruct (session_in_headers_run now t h w Ht) as (E & Ea & R). rewrite E.
  destruct (newest_user now h w); [done|]. rewrite bind_run. cbn [get ret fst snd].
  split_and!; [|done|done]. f_equal. unfold auth_failure_redirect, has_simple_password.
  by destruct R as (_ & -> & _).
Qed.
Lemma create_run now t user tok w :
  now <= t ->
  let w' := snd (auth_create sha256 to_json disk_ok now user tok w) in
  let s := {| username := user; expires_at := now + session_ttl (w_auth w) |} in
  alive t w' = (if decide (t < expires_at s) then <[ token_hash sha256 tok := s ]> (alive t w)
                else delete (token_hash sha256 tok) (alive t w))
  /\ same_rest w w'.
Proof.
  intros Ht. unfold auth_create. destruct (with_auth_run (fun saved a d =>
    (tt, create_privileged_session sha256 to_json saved now user tok a d)) w) as (_ & Ha & Hf & Hc).
  cbv zeta. unfold alive, same_rest. rewrite Ha, Hf, Hc. cbn [fst snd].
  split; [by apply live_create|]. unfold create_privileged_session, persist_sessions. by destruct (disk_ok _).
Qed.

(** The cookie of a new session. *)
Definition session_cookie (h : Headers) (token : string) (w : Web) : Cookie := {|
  ck_value := token; ck_http_only := true; ck_same_site_lax := true; ck_path := "/";
  ck_max_age := session_ttl (w_auth w) / NANOS; ck_secure := effective_cookie_secure cookie_env direct_tls h |}.
(** The sessions after a login: the browser's old ones gone, the new one in. *)
Definition after_login (now t : Z) (h : Headers) (user token : string) (w : Web) : gmap string Session :=
  let s := {| username := user; expires_at := now + session_ttl (w_auth w) |} in
  let m := forget (extract_all_session_tokens_from_headers h) (alive t w) in
  if decide (t < expires_at s) then <[ token_hash sha256 token := s ]> m
  else delete (token_hash sha256 token) m.
Lemma open_session_run now t h user token target w :
  now <= t ->
  let r := open_session sha256 to_json disk_ok cookie_env direct_tls now h user token target w in
  fst r = Redirect target (Some (session_cookie h token w))
  /\ alive t (snd r) = after_login now t h user token w /\ same_rest w (snd r).
Proof.
  intros Ht. unfold open_session. rewrite !bind_run.
  destruct (logouts_run (extract_all_session_tokens_from_headers h) t w) as [E1 R1].
  set (w1 := snd (each _ _ w)) in *. destruct (create_run now t user token w1 Ht) as [E2 R2].
  set (w2 := snd (auth_create _ _ _ _ _ _ w1)) in *. cbn [get ret fst snd spawn_warm modify].
  pose proof (same_rest_trans _ _ _ R1 R2) as R. split_and!; [| |exact R].
  - unfold build_session_cookie, session_cookie. by destruct R as (_ & _ & _ & ->).
  - change (alive t _) with (alive t w2). rewrite E2, E1. unfold after_login.
    by destruct R1 as (_ & _ & _ & ->).
Qed.

(** Who may log in, in the state of the request. *)
Definition proven (user password : string) (w : Web) : Prop :=
  if seqb user "localhost"
  then validate_simple_password sha256 user password (w_files w) = Ok tt
  else fst (verify_user_is_admin server op_timeout_secs user_base group_base pa simple_bind user password
              (admin_group (w_auth w)) (w_client w)) = Ok tt.
Lemma check_login_run user password w :
  let r := check_login sha256 server op_timeout_secs user_base group_base pa simple_bind user password w in
  (fst r = Ok user /\ proven user password w \/ (exists e, fst r = Err e) /\ ~ proven user password w)
  /\ w_auth (snd r) = w_auth w /\ w_files (snd r) = w_files w
  /\ (seqb user "localhost" = true -> snd r = w).
Proof.
  unfold check_login, proven. destruct (seqb user "localhost").
  - cbn. destruct (validate_simple_password _ _ _ _) as [[]|e]; split_and!; try done; [by left|].
    right. split; [by exists e|done].
  - rewrite bind_run. cbn [get fst snd]. rewrite bind_run. unfold with_client.
    destruct (verify_user_is_admin _ _ _ _ _ _ _ _ _ _) as [[[]|e] c]; cbn; split_and!; try done; [by left|].
    right. split; [|done]. unfold ldap_login_result. destruct (contains_str _ _); by eexists.
Qed.

(** C6: A login answers in two ways.  With a session: only for the local account
    with its password in force, or for a directory user whose password the
    server accepted and who is in the admin group; the old sessions of that
    browser end, the new token stands for exactly that user until its expiry
    and nobody else's session changes, and the cookie is HttpOnly, SameSite and
    lives as long as the session.  Or with the login page and an error: then
    the proof failed, and no session and no file has changed. *)
Theorem login_session_safe now t token h form_user form_password w :
  now <= t ->
  let '(resp, w') := login sha256 to_json disk_ok server op_timeout_secs user_base group_base pa simple_bind
    cookie_env direct_tls now token h form_user form_password w in
  let user := trim form_user in
  match resp with
  | Redirect target cookie =>
      proven user form_password w /\ target = "/" /\ cookie = Some (session_cookie h token w)
      /\ alive t w' = after_login now t h user token w
      /\ simple_pw_file (w_files w') = simple_pw_file (w_files w)
  | LoginHtml status page =>
      ~ proven user form_password w /\ status = 401 /\ is_Some (lp_error page)
      /\ w_auth w' = w_auth w /\ w_files w' = w_files w
  end.
Proof.
  intros Ht. unfold login. rewrite bind_run.
  destruct (check_login_run (trim form_user) form_password w) as (H & Ha & Hf & _).
  set (w1 := snd _) in *. destruct H as [[E Hp]|[[e E] Hp]]; rewrite E.
  - destruct (open_session_run now t h (trim form_user) token "/" w1 Ht) as (Er & Ea & R).
    destruct (open_session _ _ _ _ _ _ _ _ _ _ w1) as [resp w2]. cbn in *. subst resp.
    split_and!; [done|done| | |].
    + unfold session_cookie. by rewrite Ha.
    + rewrite Ea. unfold after_login, alive. by rewrite Ha.
    + destruct R as (_ & -> & _). by rewrite Hf.
  - cbn. by split_and!.
Qed.

Lemma forget_delete k m l : forget l (delete k m) = delete k (forget l m).
Proof.
  revert m. induction l as [|tok l IH]; intros m; [done|]. cbn. rewrite delete_delete. apply IH.
Qed.
Lemma forgotten tok l m : tok ∈ l -> forget l m !! token_hash sha256 tok = None.
Proof.
  intros H. revert m. induction H as [tok l|tok x l H IH]; intros m; cbn [forget foldl]; [|apply IH].
  change (foldl _ ?a l) with (forget l a). rewrite forget_delete. by apply lookup_delete_eq.
Qed.

(** Logging out ends every session whose token the browser sent, at once
    and for good, and clears the cookie; no other session changes. *)
Theorem logout_ends_sessions t h w :
  let '(resp, w') := logout sha256 to_json disk_ok cookie_env direct_tls h w in
  resp = Redirect "/login" (Some (build_clear_session_cookie cookie_env direct_tls h))
  /\ alive t w' = forget (extract_all_session_tokens_from_headers h) (alive t w)
  /\ (forall tok, tok ∈ extract_all_session_tokens_from_headers h ->
      alive t w' !! token_hash sha256 tok = None)
  /\ (forall key, (forall tok, tok ∈ extract_all_session_tokens_from_headers h -> key <> token_hash sha256 tok) ->
      alive t w' !! key = alive t w !! key).
Proof.
  unfold logout. rewrite bind_run. destruct (logouts_run (extract_all_session_tokens_from_headers h) t w) as [E _].
  cbn. rewrite E. split_and!; [done|done|intros tok; apply forgotten|].
  intros key. generalize (extract_all_session_tokens_from_headers h) (alive t w). intros l.
  induction l as [|tok l IH]; intros m Hk; [done|]. cbn [forget foldl].
  change (foldl _ ?a l) with (forget l a). rewrite IH; [|intros x Hx; apply Hk; by right].
  rewrite lookup_delete_ne; [done|]. intros E'. by apply (Hk tok); [left|].
Qed.

(** The last element of [l] that [f] accepts. *)
Lemma omap_none {A B} (f : A -> option B) l : Forall (fun x => f x = None) l -> omap f l = [].
Proof. induction 1 as [|x l Hx _ IH]; [done|]. cbn. by rewrite Hx. Qed.
Lemma last_accepted {A B} (f : A -> option B) l :
  match head (omap f (rev l)) with
  | Some b => exists l1 x l2, l = l1 ++ x :: l2 /\ f x = Some b /\ Forall (fun y => f y = None) l2
  | None => Forall (fun y => f y = None) l
  end.
Proof.
  induction l as [|x l IH] using rev_ind; [constructor|]. rewrite rev_app_distr. cbn.
  destruct (f x) as [b|] eqn:E; cbn; [by exists l, x, []|].
  destruct (head _) as [b|].
  - destruct IH as (l1 & y & l2 & -> & Hy & Hl2). exists l1, y, (l2 ++ [x]).
    split_and!; [by rewrite <- app_assoc|done|]. by rewrite Forall_app, Forall_singleton.
  - by rewrite Forall_app, Forall_singleton.
Qed.
Lemma last_accepted_eq {A B} (f : A -> option B) l1 x l2 b :
  f x = Some b -> Forall (fun y => f y = None) l2 -> head (omap f (rev (l1 ++ x :: l2))) = Some b.
Proof.
  intros Hx Hl. rewrite rev_app_distr. cbn. rewrite <- app_assoc, omap_app, (omap_none f (rev l2)).
  - cbn. by rewrite Hx.
  - by apply Forall_rev.
Qed.

(** A request is let in exactly as the user of the newest of its session
    cookies that is alive; with none alive it is sent to the login page.  The
    check itself ends no live session and changes nothing else. *)
Theorem require_auth_newest now t h w :
  now <= t ->
  let '(r, w') := require_auth sha256 to_json disk_ok now h w in
  (forall u, r = Ok u <-> exists l1 tok l2,
      extract_all_session_tokens_from_headers h = l1 ++ tok :: l2
      /\ session_user now w tok = Some u /\ Forall (fun x => session_user now w x = None) l2)
  /\ (forall target, r = Err target ->
      target = auth_failure_redirect h w
      /\ Forall (fun x => session_user now w x = None) (extract_all_session_tokens_from_headers h))
  /\ alive t w' = alive t w /\ same_rest w w'.
Proof.
  intros Ht. destruct (require_auth_run now t h w Ht) as (E & Ea & R).
  destruct (require_auth _ _ _ now h w) as [r w']. cbn in *.
  pose proof (last_accepted (session_user now w) (extract_all_session_tokens_from_headers h)) as Hl.
  fold (newest_user now h w) in Hl. split_and!; [| |done|done].
  - intros u. split.
    + rewrite E. destruct (newest_user now h w) as [u'|]; [|done]. by intros [= <-].
    + intros (l1 & tok & l2 & El & Hu & Hn). rewrite E. unfold newest_user.
      by rewrite El, (last_accepted_eq _ l1 tok l2 u).
  - intros target. rewrite E. destruct (newest_user now h w); [done|]. by intros [= <-].
Qed.

(** *** The password change *)
Definition untouched (t : Z) (w w' : Web) : Prop :=
  simple_pw_file (w_files w') = simple_pw_file (w_files w) /\ alive t w' = alive t w.
Lemma validate_pw_ext user pw d d' :
  simple_pw_file d' = simple_pw_file d ->
  validate_simple_password sha256 user pw d' = validate_simple_password sha256 user pw d.
Proof. intros H. unfold validate_simple_password. by rewrite H. Qed.
Lemma set_password_run io pw t w :
  let r := auth_set_password sha256 disk_ok io pw w in
  alive t (snd r) = alive t w
  /\ match fst r with
     | Ok _ => trim pw <> "" /\ (8 <= len pw)%nat
               /\ w_files (snd r) = pw_files sha256 (pw_salt io) pw (w_files w)
     | Err _ => w_files (snd r) = w_files w
     end
  /\ (forall now tok, session_user now (snd r) tok = session_user now w tok).
Proof.
  unfold auth_set_password, with_auth, alive, session_user.
  pose proof (set_password_cases sha256 (pw_open io) (pw_write io) (pw_rename io) (pw_salt io) pw (w_files w)) as H.
  destruct (set_simple_password _ _ _ _ _ _ _) as [[[]|e] d']; by cbn.
Qed.
Lemma newest_token_ext now h w w' :
  (forall tok, session_user now w' tok = session_user now w tok) -> newest_token now h w' = newest_token now h w.
Proof.
  intros H. unfold newest_token. f_equal. generalize (rev (extract_all_session_tokens_from_headers h)).
  induction l as [|x l IH]; [done|]. cbn. by rewrite H, IH.
Qed.
Lemma alive_session_user now w w' tok : alive now w' = alive now w -> session_user now w' tok = session_user now w tok.
Proof. intros E. unfold session_user. by rewrite E. Qed.
Lemma invalidate_run user keep t w :
  let w' := snd (auth_invalidate sha256 to_json disk_ok user keep w) in
  alive t w' = filter (fun ks => Auth.username (snd ks) <> user \/ fst ks = token_hash sha256 keep) (alive t w)
  /\ simple_pw_file (w_files w') = simple_pw_file (w_files w).
Proof.
  unfold auth_invalidate. destruct (with_auth_run (fun saved a d =>
    invalidate_sessions_for_user_except sha256 to_json saved user keep a d) w) as (_ & Ha & Hf & _).
  cbv zeta. unfold alive. rewrite Ha, Hf. split; [apply live_invalidate|].
  unfold invalidate_sessions_for_user_except, persist_sessions. cbn. by repeat case_match.
Qed.
(** Who may change the password, in the state of the request. *)
Definition may_change (user : string) (current : option string) (w : Web) : Prop :=
  if seqb user "localhost"
  then validate_simple_password sha256 "localhost" (default "" current) (w_files w) = Ok tt
  else fst (verify_admin_group_membership_live server op_timeout_secs user_base group_base pa user
              (admin_group (w_auth w)) (w_client w)) = Ok tt.

Lemma authorize_run user current w :
  let r := authorize_change sha256 server op_timeout_secs user_base group_base pa user current w in
  (fst r = Ok tt <-> may_change user current w) /\ w_auth (snd r) = w_auth w /\ w_files (snd r) = w_files w.
Proof.
  unfold authorize_change, may_change. destruct (seqb user "localhost"); [done|].
  rewrite bind_run. cbn [get fst snd]. rewrite bind_run. unfold with_client.
  by destruct (verify_admin_group_membership_live _ _ _ _ _ _ _ _) as [[[]|e] c].
Qed.
Lemma may_change_ext user current w w' :
  same_rest w w' -> may_change user current w' <-> may_change user current w.
Proof.
  unfold may_change. intros (Hc & Hf & Hg & _). by rewrite Hc, Hg, (validate_pw_ext _ _ _ _ Hf).
Qed.
Lemma rotate_run now t io h new_password confirm w :
  now <= t ->
  let r := rotate_password sha256 to_json disk_ok now io h new_password confirm w in
  match fst r with
  | Ok _ => trim new_password = trim confirm /\ (8 <= len (trim new_password))%nat
      /\ simple_pw_file (w_files (snd r))
         = simple_pw_file (pw_files sha256 (pw_salt io) (trim new_password) (w_files w))
      /\ alive t (snd r) = filter (fun ks => Auth.username (snd ks) <> "localhost"
           \/ fst ks = token_hash sha256 (default "" (newest_token now h w))) (alive t w)
  | Err _ => untouched t w (snd r)
  end.
Proof.
  intros Ht. unfold rotate_password. cbv zeta.
  destruct (negb (seqb (trim new_password) (trim confirm))) eqn:Ec; [by cbn|].
  apply negb_false_iff, seqb_eq in Ec. rewrite bind_run.
  destruct (set_password_run io (trim new_password) t w) as (E3 & H3 & Hs3).
  destruct (auth_set_password _ _ _ _ w) as [[[]|e] w3]; cbn [fst snd] in *;
    [|cbn; split; [by rewrite H3|done]].
  destruct H3 as (_ & Hlen & Hf3). rewrite bind_run.
  destruct (current_token_run now t h w3 Ht) as (E4 & Ea4 & R4).
  destruct (current_session_token _ _ _ now h w3) as [keep w4]. cbn [fst snd] in *. subst keep.
  rewrite bind_run, (newest_token_ext now h w w3 (Hs3 now)).
  destruct (invalidate_run "localhost" (default "" (newest_token now h w)) t w4) as [E5 F5].
  destruct (auth_invalidate _ _ _ _ _ w4) as [n w5]. cbn [fst snd ret] in *.
  split_and!; [done|done| |by rewrite E5, Ea4, E3].
  rewrite F5, <- Hf3. apply R4.
Qed.

(** C22: The local password changes only for a request with a live session that
    proves itself again: the local account by the password in force, a
    directory user by the live admin check.  Then exactly the passwords with
    the new salted hash are accepted, every other session of the local account
    ends and all remaining sessions stay.  In every other case the password
    file and the sessions are as before. *)
Theorem change_password_authorized now t io h current new_password confirm w :
  now <= t ->
  let '(r, w') := settings_change_password sha256 to_json disk_ok server op_timeout_secs user_base group_base pa
    now io h current new_password confirm w in
  match r with
  | Err target => newest_user now h w = None /\ target = auth_failure_redirect h w /\ untouched t w w'
  | Ok (_, true) => untouched t w w'
  | Ok (_, false) => exists user,
      newest_user now h w = Some user /\ may_change user current w
      /\ trim new_password = trim confirm /\ (8 <= len (trim new_password))%nat
      /\ (forall who pw, validate_simple_password sha256 who pw (w_files w') = Ok tt <->
            who = "localhost" /\ hash_password sha256 (pw_salt io) (bytes pw)
                                 = hash_password sha256 (pw_salt io) (bytes (trim new_password)))
      /\ alive t w' = filter (fun ks => Auth.username (snd ks) <> "localhost"
                                \/ fst ks = token_hash sha256 (default "" (newest_token now h w))) (alive t w)
  end.
Proof.
  intros Ht. unfold settings_change_password. rewrite bind_run.
  destruct (require_auth_run now t h w Ht) as (E & Ea & R).
  destruct (require_auth_run now now h w ltac:(lia)) as (_ & En & _).
  destruct (require_auth sha256 to_json disk_ok now h w) as [r1 w1]. cbn [fst snd] in *. subst r1.
  destruct (newest_user now h w) as [user|]; [|by destruct R as (_ & ? & _)].
  rewrite bind_run. destruct (authorize_run user current w1) as (Hm & Ha2 & Hf2).
  rewrite (may_change_ext user current w w1 R) in Hm.
  destruct (authorize_change _ _ _ _ _ _ user current w1) as [authz w2]. cbn [fst snd] in *.
  assert (Hu : untouched t w w2).
  { split; [rewrite Hf2; apply R|]. unfold alive in *. by rewrite Ha2. }
  destruct authz as [[]|e]; [|by cbn]. rewrite bind_run.
  pose proof (rotate_run now t io h new_password confirm w2 Ht) as H.
  destruct (rotate_password _ _ _ _ _ _ _ _ w2) as [[m|e] w3]; cbn [fst snd ret] in *.
  - destruct H as (Hc & Hl & Hf & Hs). exists user. split_and!; [done|by apply Hm|done|done| |].
    + intros who pw. rewrite (validate_pw_ext who pw _ _ Hf). apply pw_files_accept.
    + rewrite Hs, (newest_token_ext now h w w2), (proj2 Hu); [done|].
      intros tok. apply alive_session_user. unfold alive in *. by rewrite Ha2.
  - split; [rewrite (proj1 H); apply Hu|rewrite (proj2 H); apply Hu].
Qed.

(** From a login to the next request.  The token a login hands out, sent
    back after whatever other cookies the browser keeps, lets the request in
    as the user of that login, at every time before the session expires. *)
Theorem login_then_request now t token h form_user form_password w target cookie w' before proto :
  now <= t < now + session_ttl (w_auth w) ->
  sall token_char token = true -> token <> "" ->
  login sha256 to_json disk_ok server op_timeout_secs user_base group_base pa simple_bind cookie_env direct_tls
    now token h form_user form_password w = (Redirect target cookie, w') ->
  fst (require_auth sha256 to_json disk_ok t
         {| h_cookie := Some (before +:+ "; session=" +:+ token); h_forwarded_proto := proto |} w')
  = Ok (trim form_user).
Proof.
  intros Ht Htok Hne. unfold login. rewrite bind_run.
  destruct (check_login_run (trim form_user) form_password w) as (H & Ha & _).
  destruct (check_login _ _ _ _ _ _ _ _ form_password w) as [r w1]. cbn [fst snd] in *.
  destruct H as [[-> _]|[[e ->] _]]; [|by intros [= ?]].
  destruct (open_session_run now t h (trim form_user) token "/" w1 ltac:(lia)) as (_ & Ea & _).
  intros E. rewrite E in Ea. cbn [snd] in Ea.
  set (h' := {| h_cookie := _; h_forwarded_proto := proto |}).
  destruct (require_auth_run t t h' w' ltac:(lia)) as (-> & _).
  assert (newest_user t h' w' = Some (trim form_user)) as ->; [|done].
  unfold newest_user. cbn [h_cookie extract_all_session_tokens_from_headers h'].
  change ("; session=" +:+ token) with (String ";" (" " +:+ "session=" +:+ token)).
  rewrite extract_app, (extract_session " ") by (done || by right). apply last_accepted_eq; [|constructor].
  unfold session_user. rewrite Ea. unfold after_login. cbn [expires_at]. rewrite Ha, decide_True by lia.
  by rewrite lookup_insert_eq.
Qed.

(** The first-run form stores the password trimmed, the login form sends it as
    typed: a password typed with blanks around it locks its owner out. *)
Theorem spaced_password_locks_out su now now' token token' io h h' typed w target cookie w' :
  setup_password sha256 to_json disk_ok cookie_env direct_tls su now token io h typed w
    = (Redirect target (Some cookie), w') ->
  hash_password sha256 (pw_salt io) (bytes typed) <> hash_password sha256 (pw_salt io) (bytes (trim typed)) ->
  exists page, fst (login sha256 to_json disk_ok server op_timeout_secs user_base group_base pa simple_bind
    cookie_env direct_tls now' token' h' "localhost" typed w') = LoginHtml 401 page.
Proof.
  unfold setup_password. destruct (setup_wizard_required su); [done|]. rewrite bind_run, bind_run.
  cbn [get fst snd]. destruct (has_simple_password w); [done|]. cbv zeta.
  destruct (is_empty (trim typed)); [done|]. rewrite bind_run.
  destruct (set_password_run io (trim typed) now w) as (_ & H & _).
  destruct (auth_set_password _ _ _ _ w) as [[[]|e] w1]; [|done]. cbn [fst snd] in H |- *.
  destruct H as (_ & _ & Hf). intros E Hh.
  destruct (open_session_run now now h "localhost" token "/?first_run=1" w1 ltac:(lia)) as (_ & _ & R).
  rewrite E in R. cbn [snd] in R.
  assert (Et : trim "localhost" = "localhost") by reflexivity.
  unfold login. rewrite Et, bind_run.
  destruct (check_login_run "localhost" typed w') as ([[_ Hp]|[[e Ee] _]] & _).
  - unfold proven in Hp. rewrite seqb_refl in Hp.
    destruct R as (_ & R & _). rewrite (validate_pw_ext _ _ _ _ R), Hf in Hp.
    destruct (proj1 (pw_files_accept _ _ _ _ _ _) Hp) as [_ Hp']. destruct (Hh Hp').
  - rewrite Ee. by eexists.
Qed.
End HandlerFacts.

(** ** A concrete browser *)
Definition demo_web : Web := {|
  w_auth := fst demo_auth; w_files := snd demo_auth; w_client := demo_client; w_ops := 0; w_warms := 0 |}.
Definition demo_headers (cookie : string) : Headers := {|
  h_cookie := Some cookie; h_forwarded_proto := Some "https" |}.
Definition demo_web_login (password : string) : Response * Web :=
  login demo_hash demo_json (fun _ => true) demo_server 15 "ou=people,dc=ex" "ou=groups,dc=ex" demo_mapping
    demo_bind None false (10 * NANOS) "tok2" (demo_headers "session=tok") " ann" password demo_web.
Definition demo_io : PwWrite := {| pw_open := true; pw_write := true; pw_rename := true; pw_salt := bytes "salt" |}.
Definition demo_change (new_password : string) : result (string * bool) string * Web :=
  settings_change_password demo_hash demo_json (fun _ => true) demo_server 15 "ou=people,dc=ex"
    "ou=groups,dc=ex" demo_mapping (11 * NANOS) demo_io (demo_headers "session=tok2") None new_password new_password
    (snd (demo_web_login "right")).

Lemma login_session_safe_witness :
  (match fst (demo_web_login "right") with Redirect "/" (Some c) => ck_value c = "tok2" | _ => False end)
  /\ match fst (demo_web_login "wrong") with LoginHtml 401 _ => True | _ => False end
  /\ let '(resp, w') := demo_web_login "right" in
     match resp with
     | Redirect _ _ => alive (20 * NANOS) w'
         = after_login demo_hash (10 * NANOS) (20 * NANOS) (demo_headers "session=tok") "ann" "tok2" demo_web
     | LoginHtml _ _ => True
     end.
Proof.
  split; [by vm_compute|]. split; [by vm_compute|].
  pose proof (login_session_safe demo_hash demo_json (fun _ => true) demo_server 15 "ou=people,dc=ex"
    "ou=groups,dc=ex" demo_mapping demo_bind None false (10 * NANOS) (20 * NANOS) "tok2"
    (demo_headers "session=tok") " ann" "right" demo_web ltac:(discriminate)) as H.
  unfold demo_web_login. destruct (login _ _ _ _ _ _ _ _ _ _ _ _ _ _ _ _ _) as [[target cookie|st page] w'].
  - apply H.
  - done.
Defined.
Lemma require_auth_newest_witness :
  let w := snd (demo_web_login "right") in
  fst (require_auth demo_hash demo_json (fun _ => true) (11 * NANOS)
         (demo_headers "session=tok2; session=tok") w) = Ok "ann".
Proof.
  pose proof (require_auth_newest demo_hash demo_json (fun _ => true) (11 * NANOS) (11 * NANOS)
    (demo_headers "session=tok2; session=tok") (snd (demo_web_login "right")) ltac:(discriminate)) as H.
  cbv zeta. destruct (require_auth _ _ _ _ _ _) as [r w']. apply H.
  exists [], "tok2", ["tok"]. split_and!; [by vm_compute|by vm_compute|]. repeat constructor.
Defined.
Lemma login_then_request_witness :
  fst (require_auth demo_hash demo_json (fun _ => true) (20 * NANOS)
         (demo_headers "theme=dark; session=tok2") (snd (demo_web_login "right"))) = Ok "ann".
Proof.
  apply (login_then_request demo_hash demo_json (fun _ => true) demo_server 15 "ou=people,dc=ex"
    "ou=groups,dc=ex" demo_mapping demo_bind None false (10 * NANOS) (20 * NANOS) "tok2"
    (demo_headers "session=tok") " ann" "right" demo_web "/"
    (Some (session_cookie None false (demo_headers "session=tok") "tok2" demo_web))
    (snd (demo_web_login "right")) "theme=dark" (Some "https")).
  - split; vm_compute; [discriminate|reflexivity].
  - reflexivity.
  - discriminate.
  - vm_compute. reflexivity.
Defined.
Lemma change_password_authorized_witness :
  (match fst (demo_change "longenough") with Ok (_, false) => True | _ => False end)
  /\ match fst (demo_change "short") with Ok (_, true) => True | _ => False end
  /\ let '(r, w') := demo_change "longenough" in
     match r with
     | Ok (_, false) => exists user,
         newest_user demo_hash (11 * NANOS) (demo_headers "session=tok2") (snd (demo_web_login "right")) = Some user
         /\ may_change demo_hash demo_server 15 "ou=people,dc=ex" "ou=groups,dc=ex" demo_mapping user None
              (snd (demo_web_login "right"))
     | _ => True
     end.
Proof.
  split; [by vm_compute|]. split; [by vm_compute|].
  pose proof (change_password_authorized demo_hash demo_json (fun _ => true) demo_server 15 "ou=people,dc=ex"
    "ou=groups,dc=ex" demo_mapping (11 * NANOS) (11 * NANOS) demo_io (demo_headers "session=tok2") None
    "longenough" "longenough" (snd (demo_web_login "right")) ltac:(discriminate)) as H.
  unfold demo_change. destruct (settings_change_password _ _ _ _ _ _ _ _ _ _ _ _ _ _ _) as [[[m [|]]|target] w'].
  - done.
  - destruct H as (user & H1 & H2 & _). exact (ex_intro _ user (conj H1 H2)).
  - done.
Defined.
