(* ===== verification/FsWarnings.v ===== *)
(** * File-system warnings per share

    Models [fs_warnings.rs]: the capability of a share's serve path read from
    one mountinfo snapshot, and the warnings that the health check, the
    settings page and the permission editor show for a share whose file system
    cannot hold POSIX ACLs. *)

From S2P Require Import Prelude RustStr Identity Config FsProbe Generate.

Record FsShareWarning := {
  fw_share_name : string;
  fw_host_path : string;
  fw_serve_path : string;
  fw_fstype : string;
  fw_acl_capable : bool;
  fw_effective_enable_acl : bool;
  fw_effective_manage_gids : bool;
  fw_message : string;
}.
(** [{}] of a [bool]. *)
Definition show_bool (b : bool) : string := if b then "true" else "false".

Definition format_line (w : FsShareWarning) : string :=
  let head := "share=" +:+ fw_share_name w +:+ " host_path=" +:+ fw_host_path w
              +:+ " serve_path=" +:+ fw_serve_path w +:+ " fstype=" +:+ fw_fstype w in
  if fw_acl_capable w then head +:+ " acl_capable=true"
  else head +:+ " acl_capable=false effective_enable_acl="
       +:+ show_bool (fw_effective_enable_acl w)
       +:+ " effective_manage_gids=" +:+ show_bool (fw_effective_manage_gids w)
       +:+ " — " +:+ fw_message w.

Definition default_capable_unknown : FsCapabilities :=
  {| fstype := "unknown"; mount_options := []; acl_capable := true |}.
Definition limited_fs_opts_suffix (caps : FsCapabilities) : string :=
  match mount_options caps with
  | [] => ""
  | o => " (" +:+ join "," o +:+ ")"
  end.

Record PosixOnlyPolicy := {
  fs_warning : string;
  settings_ui_warning : string;
  staging_recommended : bool;
}.
Definition ganesha_96_has_mode_only_access_knob : bool := false.
(** The head of every line: [share "name": fstype (options) limited filesystem]. *)
Definition limited_head (name : string) (caps : FsCapabilities) : string :=
  "share " +:+ dq +:+ name +:+ dq +:+ ": " +:+ fstype caps +:+ limited_fs_opts_suffix caps
  +:+ " limited filesystem".
(** [PosixOnlyPolicy::for_share] *)
Definition policy_for_share (name : string) (caps : FsCapabilities) (eff : EffectiveShareFlags)
  : option PosixOnlyPolicy :=
  if enable_acl eff then None
  else Some {|
    fs_warning := limited_head name caps +:+ " — NOACL mode (enable_acl=false, manage_gids="
      +:+ show_bool (manage_gids eff) +:+ "); cannot store POSIX ACLs, and the 9.13 VFS backend is expected to fail attribute fetches on such filesystems — stage onto an ACL-capable serve tree";
    settings_ui_warning := limited_head name caps +:+ " — NOACL (enable_acl="
      +:+ show_bool (enable_acl eff) +:+ ", manage_gids=" +:+ show_bool (manage_gids eff) +:+ ")";
    staging_recommended := negb ganesha_96_has_mode_only_access_knob |}.

Definition limited_fs_warning (share : Share) (caps : FsCapabilities) : string :=
  match policy_for_share (sh_name share) caps (compute_effective_flags share caps) with
  | Some p => fs_warning p
  | None => limited_head (sh_name share) caps
  end.
Definition limited_fs_warning_settings_ui (name : string) (caps : FsCapabilities)
    (eff : EffectiveShareFlags) : string :=
  match policy_for_share name caps eff with
  | Some p => settings_ui_warning p
  | None => limited_head name caps
  end.

Definition caps_for_share_snapshot (share : Share) (snap : MountinfoSnapshot) : FsCapabilities :=
  default default_capable_unknown (snapshot_probe snap (serve_path_for share)).

Definition share_warning (snap : MountinfoSnapshot) (share : Share) : FsShareWarning :=
  let caps := caps_for_share_snapshot share snap in
  let eff := compute_effective_flags share caps in
  {| fw_share_name := sh_name share; fw_host_path := sh_host_path share;
     fw_serve_path := serve_path_for share; fw_fstype := fstype caps;
     fw_acl_capable := acl_capable caps; fw_effective_enable_acl := enable_acl eff;
     fw_effective_manage_gids := manage_gids eff;
     fw_message := if acl_capable caps then "" else limited_fs_warning share caps |}.
Definition collect_fs_warnings (snap : MountinfoSnapshot) (cfg : NfsKlldapConfig)
  : list FsShareWarning := map (share_warning snap) (shares cfg).
Definition limited_fs_warnings_only (snap : MountinfoSnapshot) (cfg : NfsKlldapConfig)
  : list FsShareWarning :=
  List.filter (fun w => negb (fw_acl_capable w)) (collect_fs_warnings snap cfg).

Definition share_fs_warning_message_snapshot (share : Share) (snap : MountinfoSnapshot)
  : option string :=
  let caps := caps_for_share_snapshot share snap in
  if acl_capable caps then None
  else Some (limited_fs_warning_settings_ui (sh_name share) caps
               (compute_effective_flags share caps)).
Definition share_fs_acl_limited_snapshot (share : Share) (snap : MountinfoSnapshot) : bool :=
  negb (acl_capable (caps_for_share_snapshot share snap)).

Definition share_divergent_submount_warning_snapshot (share : Share) (snap : MountinfoSnapshot)
    (effective_enable_acl : bool) : option string :=
  if negb effective_enable_acl then None
  else match acl_incapable_mounts_under snap (serve_path_for share) with
       | [] => None
       | hits =>
           Some ("share " +:+ dq +:+ sh_name share +:+ dq
             +:+ ": ACL share contains ACL-incapable submount(s): "
             +:+ join ", " (map (fun m => im_mount_point m +:+ " (" +:+ im_fstype m +:+ ")") hits)
             +:+ " — this build cannot serve such subtrees (attribute fetches fail for both classes); unmount them or move them out of the share")
       end.

Definition any_share_manage_gids_enabled (snap : MountinfoSnapshot) (cfg : NfsKlldapConfig) : bool :=
  existsb (fun s => manage_gids (compute_effective_flags s (caps_for_share_snapshot s snap)))
    (shares cfg).

(** The snapshot and the generator read the same mount when mountinfo could be
    read: a share is limited in the warnings exactly when the generator sees an
    incapable file system.  Without mountinfo they differ on purpose: the
    warnings stay quiet, the generator treats the mount as incapable. *)
Theorem warnings_follow_generate content fb wp rs share :
  let w := {| mountinfo_once := Some content; probe_fallback := fb; write_probe := wp;
              read_sniff := rs |} in
  caps_for_share_snapshot share (Some content) = share_caps w (serve_path_for share)
  /\ share_fs_acl_limited_snapshot share (Some content)
     = negb (acl_capable (share_caps w (serve_path_for share)))
  /\ share_fs_warning_message_snapshot share None = None.
Proof. by split_and!. Qed.

(** A submount warning is raised exactly for a share that serves ACLs and has,
    below its serve path, a visible mount that cannot store them. *)
Theorem submount_warning_exact share snap acl :
  is_some (share_divergent_submount_warning_snapshot share snap acl) = true <->
  acl = true /\ exists m, m ∈ acl_incapable_mounts_under snap (serve_path_for share).
Proof.
  unfold share_divergent_submount_warning_snapshot. destruct acl; cbn; [|naive_solver].
  destruct (acl_incapable_mounts_under _ _) as [|m l]; cbn; [|set_solver].
  split; [done|]. intros [_ [m Hm]]. set_solver.
Qed.

(** The health check's list: the limited shares, in the order of the file, each
    with a message, and no message for a capable one. *)
Theorem limited_warnings_exact snap cfg w :
  w ∈ limited_fs_warnings_only snap cfg <->
  exists s, s ∈ shares cfg /\ share_fs_acl_limited_snapshot s snap = true
    /\ w = share_warning snap s.
Proof.
  unfold limited_fs_warnings_only, collect_fs_warnings, share_fs_acl_limited_snapshot.
  rewrite elem_of_filter_In, list_elem_of_fmap. cbn.
  naive_solver.
Qed.
