(* ===== verification/RecycleLatch.v ===== *)
(** * Recycle requests of the WebUI

    Models the recycle latch of [web/settings/mod.rs]
    ([try_schedule_service_recycle] with the task it spawns,
    [send_recycle_signal], the recycle marker and [restart_status]).  A request
    and the spawned tasks interleave: each acts in its own step on the shared
    latch, and the supervisor touches the marker file between them.  Time is in
    milliseconds; what the kernel answers to a signal is an argument. *)

From S2P Require Import Prelude RustStr Identity.
Local Open Scope Z_scope.

Inductive RecycleKind := SharesApply | FullRestart.
#[export] Instance recycle_kind_eq_dec : EqDecision RecycleKind.
Proof. solve_decision. Defined.

(** The task that owns the latch: before its signal, then waiting for the marker. *)
Inductive OwnerPhase := Sending (k : RecycleKind) | Waiting (deadline : Z).
Record Owner := { ow_latch_at : Z; ow_phase : OwnerPhase }.
Record LatchState := {
  restart_requested : option RecycleKind;
  owners : list Owner;
  senders : nat;               (* sender-only upgrades still to signal *)
  marker : option Z;           (* modification time of the marker file *)
  attempts : list RecycleKind; (* signals tried since the latch was taken *)
}.

Definition recycle_marker_is_fresh (marker : option Z) (latch_at : Z) : bool :=
  match marker with Some mtime => latch_at <=? mtime | None => false end.

(** [deliver k pid]: whether the signal of [k] reached [pid]. *)
Definition send_recycle_signal (deliver : RecycleKind -> Z -> bool) (hup_pid : string)
    (kind : RecycleKind) : bool :=
  match parse_uint u32_max hup_pid with
  | Some pid => (0 <? pid) && deliver kind pid
  | None => false
  end.

(** The request itself, up to the spawn.  [removed]: the old marker could be
    removed (a failure is ignored). *)
Definition try_schedule_service_recycle (removed : bool) (now : Z) (kind : RecycleKind)
    (s : LatchState) : bool * LatchState :=
  match restart_requested s, kind with
  | None, _ =>
      (true, {| restart_requested := Some kind;
                owners := owners s ++ [{| ow_latch_at := now; ow_phase := Sending kind |}];
                senders := senders s; marker := if removed then None else marker s;
                attempts := [] |})
  | Some SharesApply, FullRestart =>
      (true, {| restart_requested := Some FullRestart; owners := owners s;
                senders := S (senders s); marker := marker s; attempts := attempts s |})
  | _, _ => (false, s)
  end.

Definition unlatch (i : nat) (s : LatchState) : LatchState :=
  {| restart_requested := None; owners := delete i (owners s); senders := senders s;
     marker := marker s; attempts := attempts s |}.
Definition attempted (k : RecycleKind) (s : LatchState) : LatchState :=
  {| restart_requested := restart_requested s; owners := owners s; senders := senders s;
     marker := marker s; attempts := attempts s ++ [k] |}.
Definition with_owner (i : nat) (o : Owner) (s : LatchState) : LatchState :=
  {| restart_requested := restart_requested s; owners := <[ i := o ]> (owners s);
     senders := senders s; marker := marker s; attempts := attempts s |}.

(** The owning task after its delay. *)
Definition owner_send (deliver : RecycleKind -> Z -> bool) (hup_pid : string) (timeout_ms now : Z)
    (i : nat) (s : LatchState) : LatchState :=
  match owners s !! i with
  | Some {| ow_latch_at := at_; ow_phase := Sending k |} =>
      let s := attempted k s in
      if send_recycle_signal deliver hup_pid k
      then with_owner i {| ow_latch_at := at_; ow_phase := Waiting (now + timeout_ms) |} s
      else unlatch i s
  | _ => s
  end.
(** One turn of its polling loop. *)
Definition owner_poll (now : Z) (i : nat) (s : LatchState) : LatchState :=
  match owners s !! i with
  | Some {| ow_latch_at := at_; ow_phase := Waiting deadline |} =>
      if negb (recycle_marker_is_fresh (marker s) at_) && (now <? deadline) then s else unlatch i s
  | _ => s
  end.
(** The sender-only task of an upgrade. *)
Definition upgrade_send (s : LatchState) : LatchState :=
  match senders s with
  | O => s
  | S n => {| restart_requested := restart_requested s; owners := owners s; senders := n;
              marker := marker s; attempts := attempts s ++ [FullRestart] |}
  end.
Definition supervisor_touch (now : Z) (s : LatchState) : LatchState :=
  {| restart_requested := restart_requested s; owners := owners s; senders := senders s;
     marker := Some now; attempts := attempts s |}.

(** [restart_status]: 200 when the marker is younger than ten minutes; a marker
    from the future has no age. *)
Definition restart_status (now : Z) (s : LatchState) : Z * string :=
  match marker s with
  | Some mtime => if (mtime <=? now) && (now - mtime <? 10 * 60 * 1000) then (200, "recycled")
                  else (503, "pending")
  | None => (503, "pending")
  end.

Definition idle : LatchState :=
  {| restart_requested := None; owners := []; senders := 0; marker := None; attempts := [] |}.

Inductive step : LatchState -> LatchState -> Prop :=
| step_request removed now kind s : step s (snd (try_schedule_service_recycle removed now kind s))
| step_send deliver pid timeout now i s : step s (owner_send deliver pid timeout now i s)
| step_poll now i s : step s (owner_poll now i s)
| step_upgrade s : step s (upgrade_send s)
| step_touch now s : step s (supervisor_touch now s).
Inductive reachable : LatchState -> Prop :=
| reach_idle : reachable idle
| reach_step s s' : reachable s -> step s s' -> reachable s'.

(** ** The latch is always owned *)
(** The latch is set exactly while one task owns it, and it names the forced
    recycle only when one was tried or is still to be sent. *)
Definition full_pending (s : LatchState) : Prop :=
  FullRestart ∈ attempts s \/ (0 < senders s)%nat
  \/ exists o, o ∈ owners s /\ ow_phase o = Sending FullRestart.
Definition latch_wf (s : LatchState) : Prop :=
  match restart_requested s with
  | None => owners s = []
  | Some k => (exists o, owners s = [o]
                 /\ (forall k', ow_phase o = Sending k' -> k' = k \/ k = FullRestart))
              /\ (k = FullRestart -> full_pending s)
  end.

Lemma wf_request removed now kind s :
  latch_wf s -> latch_wf (snd (try_schedule_service_recycle removed now kind s)).
Proof.
  unfold latch_wf, try_schedule_service_recycle, full_pending.
  destruct (restart_requested s) as [[]|] eqn:E.
  - intros [(o & Ho & Hk) _]. destruct kind; cbn; [rewrite E; naive_solver|].
    split; [eauto|]. intros _. right. left. lia.
  - intros H. by destruct kind; cbn; rewrite E.
  - intros Ho. destruct kind; cbn; rewrite Ho; (split; [eexists; split; [done|]; naive_solver|]);
      intros; [done|]. right. right. eexists. split; [left|done].
Qed.
Lemma wf_send deliver pid timeout now i s :
  latch_wf s -> latch_wf (owner_send deliver pid timeout now i s).
Proof.
  intros H. unfold owner_send. destruct (owners s !! i) as [[t [k|d]]|] eqn:Ei; [|done..].
  unfold latch_wf in H. destruct (restart_requested s) as [r|] eqn:E; [|by rewrite H in Ei].
  destruct H as [(o & Ho & Hk) Hf]. rewrite Ho in Ei.
  destruct i as [|i]; [|by rewrite lookup_nil in Ei || discriminate Ei]. injection Ei as ->.
  specialize (Hk k eq_refl). cbn in Hk.
  destruct (send_recycle_signal _ _ _); unfold latch_wf; cbn; rewrite ?E, ?Ho; cbn; [|done].
  split; [eexists; split; [done|]; naive_solver|]. intros ->. unfold full_pending in *. cbn in *.
  destruct (Hf eq_refl) as [Hx|[Hx|(o & Hx & Hp)]]; [left; set_solver|by right; left|].
  rewrite Ho in Hx. apply list_elem_of_singleton in Hx as ->. cbn in Hp. injection Hp as ->.
  left. set_solver.
Qed.
Lemma wf_poll now i s : latch_wf s -> latch_wf (owner_poll now i s).
Proof.
  intros H. unfold owner_poll. destruct (owners s !! i) as [[t [k|d]]|] eqn:Ei; [done| |done].
  destruct (_ && _); [done|]. unfold latch_wf in *. cbn.
  destruct (restart_requested s); [|by rewrite H in Ei]. destruct H as [(o & Ho & _) _].
  rewrite Ho in *. by destruct i.
Qed.
Lemma wf_upgrade s : latch_wf s -> latch_wf (upgrade_send s).
Proof.
  unfold upgrade_send, latch_wf, full_pending. destruct (senders s) eqn:E; [by rewrite E|]. cbn.
  destruct (restart_requested s); [|done]. intros [H _]. split; [done|]. intros _. left. set_solver.
Qed.
Lemma reachable_wf s : reachable s -> latch_wf s.
Proof.
  induction 1 as [|s s' _ IH Hs]; [done|]. destruct Hs;
    auto using wf_request, wf_send, wf_poll, wf_upgrade.
Qed.

(** C29: a recycle request is never lost.  In every state the requests and tasks can
    reach, the latch is set exactly while one spawned task owns it (and will
    release it), a request is turned down only when the latch already holds a
    recycle that does at least as much, a latch that holds the forced recycle
    has one tried or still to be sent, and an accepted request adds a task that
    will send the signal of exactly the requested kind. *)
Theorem recycle_request_never_lost s removed now kind :
  reachable s ->
  let '(accepted, s') := try_schedule_service_recycle removed now kind s in
  (restart_requested s = None <-> owners s = []) /\ (length (owners s) <= 1)%nat
  /\ (accepted = false ->
        s' = s /\ (restart_requested s = Some kind \/ restart_requested s = Some FullRestart)
        /\ (restart_requested s = Some FullRestart -> full_pending s))
  /\ (accepted = true ->
        restart_requested s' = Some kind
        /\ (owners s' = owners s ++ [{| ow_latch_at := now; ow_phase := Sending kind |}]
            \/ (kind = FullRestart /\ senders s' = S (senders s)))).
Proof.
  intros H%reachable_wf. destruct (try_schedule_service_recycle removed now kind s) as [a s'] eqn:E.
  unfold latch_wf in H. unfold try_schedule_service_recycle in E.
  destruct (restart_requested s) as [r|] eqn:Er.
  - destruct H as [(o & Ho & _) Hf]. rewrite Ho.
    split; [naive_solver|]. split; [done|].
    destruct r, kind; simplify_eq; naive_solver.
  - rewrite H. split; [done|]. split; [cbn; lia|]. simplify_eq. cbn. rewrite H. naive_solver.
Qed.

(** The scenario of an upgrade: a shares apply, then "Restart and apply" before
    the supervisor finished the first one. *)
Definition kill_ok : RecycleKind -> Z -> bool := fun _ _ => true.
Definition applied : LatchState :=
  owner_send kill_ok "1" 90000 1400 0 (snd (try_schedule_service_recycle true 0 SharesApply idle)).
Definition upgraded : LatchState :=
  snd (try_schedule_service_recycle true 2000 FullRestart (supervisor_touch 1900 applied)).
Lemma applied_reachable : reachable applied.
Proof.
  apply (reach_step (snd (try_schedule_service_recycle true 0 SharesApply idle)));
    [|apply step_send]. apply (reach_step idle); [constructor|apply step_request].
Qed.
Lemma recycle_request_never_lost_witness :
  restart_requested applied = Some SharesApply /\ (length (owners applied) <= 1)%nat
  /\ fst (try_schedule_service_recycle true 5 SharesApply applied) = false
  /\ senders (snd (try_schedule_service_recycle true 5 FullRestart applied)) = 1%nat.
Proof.
  split; [reflexivity|]. split; [|split; [reflexivity|]].
  - apply (recycle_request_never_lost applied true 5 SharesApply applied_reachable).
  - destruct (recycle_request_never_lost applied true 5 FullRestart applied_reachable)
      as (_ & _ & _ & H).
    destruct (H eq_refl) as [_ [Ho|[_ Hs]]]; [discriminate Ho|exact Hs].
Defined.

(** The latch never wedges: from every reachable state in which it is set, the
    owning task's next actions release it, whatever the signal's outcome and
    whether or not the supervisor ever touches the marker: at the latest when
    the deadline has passed. *)
Theorem latch_released s deliver pid timeout sent now :
  reachable s -> restart_requested s <> None -> sent + timeout <= now ->
  (forall o d, o ∈ owners s -> ow_phase o = Waiting d -> d <= now) ->
  restart_requested (owner_poll now 0 (owner_send deliver pid timeout sent 0 s)) = None.
Proof.
  intros H%reachable_wf Hl Ht Hd. unfold latch_wf in H.
  destruct (restart_requested s) as [r|] eqn:E; [|done]. destruct H as [([t p] & Ho & _) _].
  unfold owner_send. rewrite Ho. cbn. destruct p as [k|d].
  - destruct (send_recycle_signal _ _ _); unfold owner_poll; cbn; rewrite Ho; cbn; [|done].
    rewrite (proj2 (Z.ltb_ge _ _)) by lia. by rewrite andb_false_r.
  - unfold owner_poll. rewrite Ho. cbn.
    rewrite (proj2 (Z.ltb_ge now d)); [by rewrite andb_false_r|].
    apply (Hd {| ow_latch_at := t; ow_phase := Waiting d |}); [rewrite Ho; left|done].
Qed.

(** The page of a forced recycle can report success too early: the upgrade of a
    graceful apply keeps the marker, so when the apply finishes first the poll
    answers [recycled] while the forced recycle has not even been signalled. *)
Theorem upgrade_reports_early :
  reachable upgraded /\ restart_requested upgraded = Some FullRestart
  /\ senders upgraded = 1%nat /\ FullRestart ∉ attempts upgraded
  /\ restart_status 2500 upgraded = (200, "recycled")
  /\ restart_requested (owner_poll 2500 0 upgraded) = None
  /\ senders (owner_poll 2500 0 upgraded) = 1%nat.
Proof.
  split_and!; try reflexivity; [|vm_compute; set_solver].
  apply (reach_step (supervisor_touch 1900 applied)); [|apply step_request].
  apply (reach_step applied); [|apply step_touch]. apply applied_reachable.
Qed.
