(* ===== verification/AclGate.v ===== *)
(** * Which nodes may have their ACL edited

    Models [web/acl_capability.rs] (the cache of write-probe verdicts per
    mount), [web/acl_status.rs] (the classification of a share shown
    everywhere), the two editor gates of [web/permission_tree.rs]
    ([share_acl_gate], [acl_apply_gate]) and the background watcher
    [web/acl_watch.rs].  The outcome of a write probe and of the read sniff in
    a directory, the mountinfo snapshot and the clock are arguments; time is in
    nanoseconds.  Directories are given by their text and compared, as Rust
    compares paths, by their components. *)

From S2P Require Import Prelude RustStr State Identity Config FsProbe Generate FsWarnings FsManager RecycleLatch.
Local Open Scope Z_scope.

(** ** The capability cache *)
Definition SECS : Z := 1000000000.
Definition DEFAULT_TTL_SECS : Z := 300.
Definition INCONCLUSIVE_TTL : Z := 30 * SECS.
Record ProbeOutcome := {
  po_caps : FsCapabilities;
  po_mount_root : option string;
  po_verdict : AclProbeVerdict;
}.
Record CacheEntry := {
  ce_verdict : AclProbeVerdict;
  ce_fstype : string;
  ce_options : list string;
  ce_probe_dir : string;
  ce_probed_at : Z;
}.
Abbreviation Entries := (gmap string CacheEntry).
(** [NFS_KLLDAP_ACL_PROBE_TTL_SECS] *)
Definition ttl_from_env (env : option string) : Z :=
  SECS * default DEFAULT_TTL_SECS (env ≫= parse_uint u64_max).
Definition elapsed (now t : Z) : Z := Z.max 0 (now - t).

Section Cache.
Context (ttl : Z) (write_probe read_sniff : string -> option bool).

Definition ttl_for (v : AclProbeVerdict) : Z :=
  match v with Inconclusive => INCONCLUSIVE_TTL | _ => ttl end.
Definition cached_hit (now : Z) (root : string) (caps : FsCapabilities) (probe_dir : string)
    (m : Entries) : option AclProbeVerdict :=
  e ← m !! root;
  if negb (seqb (ce_fstype e) (fstype caps))
     || negb (bool_decide (ce_options e = mount_options caps)) then None
  else if bool_decide (ce_verdict e = Inconclusive)
          && negb (bool_decide (components (ce_probe_dir e) = components probe_dir)) then None
  else if elapsed now (ce_probed_at e) <? ttl_for (ce_verdict e) then Some (ce_verdict e)
  else None.
Definition store (now : Z) (root : string) (caps : FsCapabilities) (probe_dir : string)
    (v : AclProbeVerdict) (m : Entries) : Entries :=
  <[ root := {| ce_verdict := v; ce_fstype := fstype caps; ce_options := mount_options caps;
                ce_probe_dir := probe_dir; ce_probed_at := now |} ]>
    (filter (fun kv => elapsed now (ce_probed_at kv.2) < ttl * 8) m).

(** The probe the cache is given: both ACL tools in the probe directory. *)
Definition run_probe (caps : FsCapabilities) (dir : string) : AclProbeVerdict :=
  acl_probe_verdict caps (write_probe dir) (read_sniff dir).
(** [done_at]: the time after the probe, when there is one. *)
Definition verdict_cached (now done_at : Z) (caps : FsCapabilities) (mount_root : option string)
    (probe_dir : string) (skip_write_probe force_refresh : bool) (m : Entries)
  : AclProbeVerdict * Entries :=
  if seqb (fstype caps) "unknown" then (Inconclusive, m)
  else if negb (acl_capable caps) then (Incapable, m)
  else if skip_write_probe then (verdict_from_caps caps, m)
  else match mount_root with
       | None => (run_probe caps probe_dir, m)
       | Some root =>
           match (if force_refresh then None else cached_hit now root caps probe_dir m) with
           | Some v => (v, m)
           | None =>
               let v := run_probe caps probe_dir in
               (v, store done_at root caps probe_dir v m)
           end
       end.
Definition stage_a (snap : MountinfoSnapshot) (node_path : string)
  : FsCapabilities * option string :=
  default (unknown_caps, None) (probe_with_root snap node_path).
Definition verdict_for_snapshot (now done_at : Z) (snap : MountinfoSnapshot)
    (node_path probe_dir : string) (skip_write_probe force_refresh : bool) (m : Entries)
  : ProbeOutcome * Entries :=
  let '(caps, root) := stage_a snap node_path in
  let '(v, m) := verdict_cached now done_at caps root probe_dir skip_write_probe force_refresh m in
  ({| po_caps := caps; po_mount_root := root; po_verdict := v |}, m).

(** ** The status of a share *)
Record ShareAclStatus := {
  effective_acl_capable : bool;
  effective_enable_acl : bool;
  st_verdict : AclProbeVerdict;
  st_probed : string;
  state_label : string;
}.
Definition share_acl_state_label (enable : option bool) (v : AclProbeVerdict) : string :=
  match enable, v with
  | Some false, _ => "off"
  | Some true, Capable => "on"
  | Some true, Inconclusive => "on (unverified)"
  | Some true, Incapable => "on (unsupported)"
  | None, Capable => "auto (on)"
  | None, _ => "auto (off)"
  end.
Definition explicit_off (share : Share) : bool :=
  match sh_enable_acl share with Some false => true | _ => false end.
Definition share_acl_status (now done_at : Z) (snap : MountinfoSnapshot) (share : Share)
    (m : Entries) : ShareAclStatus * Entries :=
  let serve := serve_path_for share in
  let '(o, m) := verdict_for_snapshot now done_at snap serve serve (explicit_off share) false m in
  let eff := compute_effective_flags_probed share (po_caps o) (po_verdict o) in
  ({| effective_acl_capable := enable_acl eff && acl_capable (po_caps o);
      effective_enable_acl := enable_acl eff;
      st_verdict := po_verdict o;
      st_probed := match po_verdict o with
                   | Capable => "capable" | Incapable => "incapable" | Inconclusive => "unverified" end;
      state_label := share_acl_state_label (sh_enable_acl share) (po_verdict o) |}, m).
End Cache.

(** ** The gates *)
Record AclGateView := {
  editable : bool;
  pill : string;
  pill_class : string;
  gv_short : string;
  gv_long : string;
}.
Definition off_view (short long : string) : AclGateView :=
  {| editable := false; pill := "off"; pill_class := "off"; gv_short := short; gv_long := long |}.
Definition gate_outside_shares : AclGateView := off_view "Not under a configured share." "".
(** [max_by_key] keeps the last share of the greatest length. *)
Definition best_share_for (cfg : NfsKlldapConfig) (host_path : string) : option Share :=
  max_by_key (fun s => len (sh_host_path s))
    (List.filter (fun s => path_starts_with host_path (sh_host_path s)
                           || bool_decide (components host_path = components (sh_host_path s)))
       (shares cfg)).
Definition gate_join (warn base : string) : string :=
  if is_empty warn then base else base +:+ " " +:+ warn.
Definition off_help : string :=
  "Extended ACLs already on disk still enforce kernel-side on the 9.13 build; turn ACLs on for this share to manage them here.".
Definition share_level_decision (enable : option bool) (root_verdict : AclProbeVerdict)
    (join : string -> string) : AclGateView :=
  let on_view p := {| editable := true; pill := p; pill_class := "on"; gv_short := ""; gv_long := "" |} in
  match enable, root_verdict with
  | Some false, _ =>
      off_view "ACL is off for this share." (join ("enable_acl = false in the share config. " +:+ off_help))
  | Some true, Capable => on_view "on"
  | None, Capable => on_view "auto"
  | Some true, Inconclusive =>
      {| editable := true; pill := "on (unverified)"; pill_class := "warn";
         gv_short := "ACL on — filesystem support unverified.";
         gv_long := join "The POSIX ACL write probe was inconclusive, but enable_acl = true so the export serves ACLs. Verify with verify-ganesha.sh." |}
  | Some true, Incapable =>
      off_view "ACL is on in config, but this filesystem can't store ACLs."
        (join "The serve path failed the POSIX ACL probe, so the next config reload will refuse to generate exports. Stage onto an ACL-capable tree (source_path) or set enable_acl = false.")
  | None, _ =>
      off_view "ACL auto: off — filesystem support unproven."
        (join ("enable_acl is unset (auto): ACL turns on automatically once the serve path passes the write probe. " +:+ off_help))
  end.
Definition acl_capability_decision (enable : option bool) (root_verdict : AclProbeVerdict)
    (node_verdict : option AclProbeVerdict) (warn : string) : AclGateView :=
  let base := share_level_decision enable root_verdict (gate_join warn) in
  if editable base then
    match node_verdict with
    | Some Incapable =>
        off_view "This folder is on a filesystem that can't store ACLs (submount)."
          (gate_join warn "The share serves ACLs, but this subtree is a mount (vfat/ntfs or similar) that cannot hold POSIX ACLs. Editing is disabled here.")
    | Some Inconclusive =>
        off_view "This submount's ACL support is unverified."
          (gate_join warn "The share serves ACLs, but the POSIX ACL probe on this submount was inconclusive, so editing is disabled here until it is verified.")
    | _ => base
    end
  else base.

(** The text of a path made of components. *)
Definition comp_text (c : Component) : string :=
  match c with RootDir => "" | CurDir => "." | ParentDir => ".." | Normal s => s end.
Definition path_text (p : Path) : string :=
  match p with [RootDir] => "/" | _ => join "/" (map comp_text p) end.
(** [Path::parent]: none for the root and the empty path. *)
Definition path_parent (p : Path) : option Path :=
  match reverse p with [] | RootDir :: _ => None | _ :: r => Some (reverse r) end.

Section Gates.
Context (ttl : Z) (write_probe read_sniff : string -> option bool) (is_dir : string -> bool).
(** The handlers' configuration and the permission manager's own copy. *)
Context (snap : MountinfoSnapshot) (cfg fs_cfg : NfsKlldapConfig).

Definition share_acl_gate (now done_at : Z) (host_path : string) (m : Entries)
  : AclGateView * Entries :=
  match best_share_for cfg host_path with
  | None => (gate_outside_shares, m)
  | Some s =>
      let '(status, m) := share_acl_status ttl write_probe read_sniff now done_at snap s m in
      let warn := default "" (share_fs_warning_message_snapshot s snap) in
      (share_level_decision (sh_enable_acl s) (st_verdict status) (gate_join warn), m)
  end.

Definition node_path_of (serve host_path : string) : string :=
  match host_path_to_container_path fs_cfg host_path with Ok p => path_text p | Err _ => serve end.
Definition node_dir_of (serve node_path : string) : string :=
  if is_dir node_path then node_path
  else match path_parent (components node_path) with Some p => path_text p | None => serve end.
(** Four readings of the clock: before and after each of the two probes. *)
Definition acl_apply_gate (t1 t2 t3 t4 : Z) (host_path : string) (m : Entries)
  : AclGateView * Entries :=
  match best_share_for cfg host_path with
  | None => (gate_outside_shares, m)
  | Some s =>
      let skip := explicit_off s in
      let serve := serve_path_for s in
      let '(root, m) := verdict_for_snapshot ttl write_probe read_sniff t1 t2 snap serve serve skip false m in
      let node_path := node_path_of serve host_path in
      let node_dir := node_dir_of serve node_path in
      let '(node, m) :=
        verdict_for_snapshot ttl write_probe read_sniff t3 t4 snap node_path node_dir skip false m in
      let node_verdict := if bool_decide (po_mount_root node = po_mount_root root)
                          then None else Some (po_verdict node) in
      let warn := default "" (share_fs_warning_message_snapshot s snap) in
      (acl_capability_decision (sh_enable_acl s) (po_verdict root) node_verdict warn, m)
  end.
End Gates.

(** ** The gate, decided *)
Lemma level_editable enable v j :
  editable (share_level_decision enable v j) = true <->
  (enable <> Some false /\ v = Capable) \/ (enable = Some true /\ v = Inconclusive).
Proof. destruct enable as [[]|], v; cbn; naive_solver. Qed.
Lemma decision_editable enable root node warn :
  editable (acl_capability_decision enable root node warn) = true <->
  ((enable <> Some false /\ root = Capable) \/ (enable = Some true /\ root = Inconclusive))
  /\ (node = None \/ node = Some Capable).
Proof.
  rewrite <- (level_editable enable root (gate_join warn)). unfold acl_capability_decision.
  destruct (editable (share_level_decision _ _ _)) eqn:E; [|rewrite E; naive_solver].
  destruct node as [[]|]; cbn; rewrite ?E; naive_solver.
Qed.

(** An ACL write is let through exactly when the node lies under a share, the
    share is not switched off, the mount the share is served from was proven to
    store ACLs (or the operator insists and the probe was inconclusive), and
    the node is on that same mount or its own mount was proven too. *)
Theorem apply_gate_open ttl wp rs is_dir snap cfg fs_cfg t1 t2 t3 t4 host m :
  editable (fst (acl_apply_gate ttl wp rs is_dir snap cfg fs_cfg t1 t2 t3 t4 host m)) = true <->
  exists s, best_share_for cfg host = Some s
  /\ let serve := serve_path_for s in
     let node_path := node_path_of fs_cfg serve host in
     let '(root, m1) := verdict_for_snapshot ttl wp rs t1 t2 snap serve serve (explicit_off s) false m in
     let '(node, _) := verdict_for_snapshot ttl wp rs t3 t4 snap node_path
                         (node_dir_of is_dir serve node_path) (explicit_off s) false m1 in
     ((sh_enable_acl s <> Some false /\ po_verdict root = Capable)
      \/ (sh_enable_acl s = Some true /\ po_verdict root = Inconclusive))
     /\ (po_mount_root node = po_mount_root root \/ po_verdict node = Capable).
Proof.
  unfold acl_apply_gate. destruct (best_share_for cfg host) as [s|]; [|naive_solver].
  transitivity (let serve := serve_path_for s in
     let node_path := node_path_of fs_cfg serve host in
     let '(root, m1) := verdict_for_snapshot ttl wp rs t1 t2 snap serve serve (explicit_off s) false m in
     let '(node, _) := verdict_for_snapshot ttl wp rs t3 t4 snap node_path
                         (node_dir_of is_dir serve node_path) (explicit_off s) false m1 in
     ((sh_enable_acl s <> Some false /\ po_verdict root = Capable)
      \/ (sh_enable_acl s = Some true /\ po_verdict root = Inconclusive))
     /\ (po_mount_root node = po_mount_root root \/ po_verdict node = Capable));
    [|split; [intros H; by exists s|by intros (s' & [= <-] & H)]].
  cbn zeta. destruct (verdict_for_snapshot _ _ _ t1 _ _ _ _ _ _ _) as [root m1].
  destruct (verdict_for_snapshot _ _ _ t3 _ _ _ _ _ _ _) as [node m2].
  cbn [fst]. rewrite decision_editable. case_bool_decide as Hr.
  - split; [intros [H _]|intros [H _]]; auto.
  - split; intros [H Hn]; (split; [exact H|]); [destruct Hn as [Hn|Hn]|destruct Hn as [Hn|Hn]];
      try done; [right; congruence|right; congruence].
Qed.

(** ** Verdicts answered from the cache *)
(** What a run of the write probe found, kept as history. *)
Record Probe := {
  pb_root : string; pb_fstype : string; pb_options : list string; pb_dir : string;
  pb_write : option bool; pb_sniff : option bool; pb_at : Z;
}.
Definition pb_verdict (p : Probe) : AclProbeVerdict :=
  acl_probe_verdict {| fstype := pb_fstype p; mount_options := pb_options p; acl_capable := true |}
    (pb_write p) (pb_sniff p).
Definition probe_of (wp rs : string -> option bool) (done_at : Z) (root : string)
    (caps : FsCapabilities) (dir : string) : Probe :=
  {| pb_root := root; pb_fstype := fstype caps; pb_options := mount_options caps; pb_dir := dir;
     pb_write := wp dir; pb_sniff := rs dir; pb_at := done_at |}.

(** The probe a lookup runs and stores, if it does. *)
Definition probes_run (ttl : Z) (wp rs : string -> option bool) (now done_at : Z)
    (caps : FsCapabilities) (root : option string) (dir : string) (skip force : bool) (m : Entries)
  : list Probe :=
  match root with
  | Some r =>
      if negb (seqb (fstype caps) "unknown") && acl_capable caps && negb skip
         && (force || negb (is_some (cached_hit ttl now r caps dir m)))
      then [probe_of wp rs done_at r caps dir] else []
  | None => []
  end.

(** The caches that lookups and reloads can produce, with every probe run so
    far.  What the tools answer may change between lookups. *)
Inductive cache_reach (ttl : Z) : list Probe -> Entries -> Prop :=
| cr_new : cache_reach ttl [] ∅
| cr_invalidate_all h m : cache_reach ttl h m -> cache_reach ttl h ∅
| cr_lookup h m wp rs now done_at caps root dir skip force :
    cache_reach ttl h m ->
    cache_reach ttl (probes_run ttl wp rs now done_at caps root dir skip force m ++ h)
      (snd (verdict_cached ttl wp rs now done_at caps root dir skip force m)).

Definition backed (h : list Probe) (root : string) (e : CacheEntry) : Prop :=
  exists p, p ∈ h /\ pb_root p = root /\ pb_fstype p = ce_fstype e /\ pb_options p = ce_options e
    /\ pb_dir p = ce_probe_dir e /\ pb_at p = ce_probed_at e /\ pb_verdict p = ce_verdict e.

(** What a lookup does: answer from the mount's class, from the cache, or from
    a probe run now. *)
Lemma verdict_cached_cases ttl wp rs now done_at caps root dir skip force m :
  let '(v, m') := verdict_cached ttl wp rs now done_at caps root dir skip force m in
  let run := probes_run ttl wp rs now done_at caps root dir skip force m in
  (m' = m /\ run = [] /\ v <> Capable
     /\ (v = Incapable -> acl_capable caps = false))
  \/ (acl_capable caps = true /\ root = None /\ m' = m /\ run = [] /\ v = run_probe wp rs caps dir)
  \/ (exists r, acl_capable caps = true /\ root = Some r /\ m' = m /\ run = []
        /\ force = false /\ cached_hit ttl now r caps dir m = Some v)
  \/ (exists r, acl_capable caps = true /\ root = Some r
        /\ run = [probe_of wp rs done_at r caps dir]
        /\ v = run_probe wp rs caps dir /\ m' = store ttl done_at r caps dir v m).
Proof.
  unfold verdict_cached, probes_run. destruct (seqb (fstype caps) "unknown"); cbn.
  { left. destruct root; naive_solver. }
  destruct (acl_capable caps) eqn:Ec; cbn; [|left; destruct root; naive_solver].
  destruct skip; cbn.
  { left. unfold verdict_from_caps. rewrite Ec. destruct root; naive_solver. }
  destruct root as [r|]; [|naive_solver].
  destruct force; cbn; [right; right; right; eauto 10|].
  destruct (cached_hit ttl now r caps dir m) as [v|] eqn:Eh; cbn; right; right; [left|right];
    exists r; eauto 10.
Qed.

Lemma run_probe_verdict wp rs done_at r caps dir :
  acl_capable caps = true -> pb_verdict (probe_of wp rs done_at r caps dir) = run_probe wp rs caps dir.
Proof. intros H. unfold pb_verdict, run_probe, acl_probe_verdict. by rewrite H. Qed.

Lemma cache_backed ttl h m root e :
  cache_reach ttl h m -> m !! root = Some e -> backed h root e.
Proof.
  intros Hr. revert root e. induction Hr as [|h m Hr IH|h m wp rs now d caps r dir skip force Hr IH];
    intros root e He; [done..|].
  assert (Hmono : forall p, backed h root p ->
    backed (probes_run ttl wp rs now d caps r dir skip force m ++ h) root p).
  { intros p (q & Hq & Hrest). exists q. split; [set_solver|done]. }
  pose proof (verdict_cached_cases ttl wp rs now d caps r dir skip force m) as H.
  destruct (verdict_cached _ _ _ _ _ _ _ _ _ _ _) as [v m']. cbn in He |- *.
  destruct H as [(-> & _)|[(_ & _ & -> & _)|[(r' & _ & _ & -> & _)|(r' & Hc & -> & Hrun & -> & ->)]]];
    [auto..|].
  unfold store in He. apply lookup_insert_Some in He as [[<- <-]|[Hne He]].
  - rewrite Hrun. eexists. split; [left|]. cbn. split_and!; try done. by apply (run_probe_verdict wp rs d r').
  - apply Hmono, IH. by apply map_lookup_filter_Some in He as [? _].
Qed.

(** C30: a verdict that says "capable" is never older than its lifetime and never
    about another file system: after any sequence of lookups and reloads, the
    answer was proved by a write probe that stored and read back an ACL entry
    on this very mount, with this file system type and these mount options,
    run either now or less than the configured lifetime ago.  An inconclusive
    answer is at most 30 s old and, on a mount that can be keyed, about the
    very directory asked for. *)
Theorem cached_verdict_fresh ttl h m wp rs now done_at caps root dir skip force :
  cache_reach ttl h m ->
  let v := fst (verdict_cached ttl wp rs now done_at caps root dir skip force m) in
  (v = Capable ->
     acl_capable caps = true
     /\ (wp dir = Some true
         \/ exists p, p ∈ h /\ root = Some (pb_root p) /\ pb_write p = Some true
              /\ pb_fstype p = fstype caps /\ pb_options p = mount_options caps
              /\ elapsed now (pb_at p) < ttl /\ force = false))
  /\ (v = Inconclusive -> acl_capable caps = true -> skip = false -> seqb (fstype caps) "unknown" = false ->
        run_probe wp rs caps dir = Inconclusive
        \/ exists p, p ∈ h /\ root = Some (pb_root p) /\ pb_verdict p = Inconclusive
             /\ components (pb_dir p) = components dir /\ elapsed now (pb_at p) < INCONCLUSIVE_TTL).
Proof.
  intros Hr. pose proof (verdict_cached_cases ttl wp rs now done_at caps root dir skip force m) as H.
  assert (Hcap : forall c w s, acl_probe_verdict c w s = Capable -> w = Some true).
  { intros c w s. unfold acl_probe_verdict. by repeat case_match. }
  cbn zeta. split.
  - intros Hv. destruct (verdict_cached _ _ _ _ _ _ _ _ _ _ _) as [v m']. cbn in Hv. subst v.
    destruct H as [(_ & _ & ? & _)|[(Hc & _ & _ & _ & Hp)|[(r & Hc & -> & _ & _ & Hf & Hh)|(r & Hc & _ & _ & Hp & _)]]].
    + done.
    + split; [done|]. left. symmetry in Hp. by apply Hcap in Hp.
    + split; [done|]. right. unfold cached_hit in Hh. apply bind_Some in Hh as (e & He & Hh).
      destruct (negb (seqb _ _) || _) eqn:E1; [done|]. destruct (_ && _) eqn:E2; [done|].
      destruct (_ <? _) eqn:E3; [|done]. injection Hh as Hv. rewrite Hv in *. cbn in E3.
      destruct (cache_backed _ _ _ _ _ Hr He) as (p & Hp & Hr1 & Hf1 & Ho1 & Hd1 & Ha1 & Hv1).
      exists p. apply orb_false_iff in E1 as [E1 E1'].
      apply negb_false_iff, seqb_eq in E1. apply negb_false_iff, bool_decide_eq_true in E1'.
      rewrite Hr1, Hf1, Ho1, Ha1, Hv in *. split_and!; try done; [by apply Hcap in Hv1|lia].
    + split; [done|]. left. symmetry in Hp. by apply Hcap in Hp.
  - intros Hv Hc Hs Hu. subst skip. unfold verdict_cached in Hv. rewrite Hu, Hc in Hv. cbn in Hv.
    destruct root as [r|]; [|by left].
    destruct (if force then None else cached_hit ttl now r caps dir m) as [v|] eqn:Eh; [|by left].
    cbn in Hv. subst v. right. destruct force; [done|].
    unfold cached_hit in Eh. apply bind_Some in Eh as (e & He & Hh).
    destruct (negb (seqb _ _) || _) eqn:E1; [done|]. destruct (_ && _) eqn:E2; [done|].
    destruct (_ <? _) eqn:E3; [|done]. injection Hh as Hv. rewrite Hv in *. cbn in E3.
    destruct (cache_backed _ _ _ _ _ Hr He) as (p & Hp & Hr1 & Hf1 & Ho1 & Hd1 & Ha1 & Hv1).
    exists p. rewrite Hr1, Ha1, Hd1, Hv1. split_and!; try done; [|lia].
    apply andb_false_iff in E2 as [E2|E2]; [by apply bool_decide_eq_false in E2|].
    by apply negb_false_iff, bool_decide_eq_true in E2.
Qed.

(** ** The editor and the generator decide alike *)
Section Agree.
Context (unicode_alnum : string -> bool).
Context (ttl : Z) (wp rs : string -> option bool).

(** C31: on a mount that mountinfo names, and with nothing cached, the editor is
    open for a share exactly when the generator, given the same tools and the same
    mountinfo, takes the share's ACLs for on and does not refuse its export: it
    emits the export, except that a share with the retired umask, which validation
    accepts and the editor does not look at, is refused for the umask and for
    nothing else. *)
Theorem editor_agrees_with_generate content fb now done_at cfg i s host m :
  let w := {| mountinfo_once := Some content; probe_fallback := fb; Generate.write_probe := wp;
              Generate.read_sniff := rs |} in
  let caps := share_caps w (serve_path_for s) in
  let eff := compute_effective_flags_probed s caps (share_verdict w s caps (serve_path_for s)) in
  best_share_for cfg host = Some s -> fstype caps <> "unknown" -> m = ∅ ->
  editable (fst (share_acl_gate ttl wp rs (Some content) cfg now done_at host m)) = true <->
  enable_acl eff = true
  /\ match stage_share unicode_alnum w cfg i s with
     | Ok _ => sh_umask s = None
     | Err e => sh_umask s <> None /\ e = UmaskRetired (sh_name s)
     end.
Proof.
  cbv zeta. intros Hs Hk ->. unfold share_acl_gate. rewrite Hs.
  unfold share_acl_status, verdict_for_snapshot, stage_a, stage_share, share_verdict. cbv zeta.
  assert (Hc : exists root, default (unknown_caps, None) (probe_with_root (Some content) (serve_path_for s))
               = (share_caps {| mountinfo_once := Some content; probe_fallback := fb;
                    Generate.write_probe := wp; Generate.read_sniff := rs |} (serve_path_for s), root)).
  { eexists. apply surjective_pairing. }
  destruct Hc as [root ->].
  generalize dependent (share_caps {| mountinfo_once := Some content; probe_fallback := fb;
      Generate.write_probe := wp; Generate.read_sniff := rs |} (serve_path_for s)).
  intros caps Hk. unfold verdict_cached. rewrite (proj2 (seqb_neq _ _) Hk).
  unfold explicit_off, verdict_from_caps, run_probe, cached_hit, acl_probe_verdict.
  rewrite ?lookup_empty. clear Hs Hk.
  destruct (acl_capable caps) eqn:Ec, (sh_enable_acl s) as [[]|] eqn:Ea, root as [r|];
    cbn; rewrite ?lookup_empty; cbn; rewrite ?Ec; cbn; rewrite ?Ea; cbn;
    try (destruct (wp (serve_path_for s)) as [[]|], (rs (serve_path_for s)) as [[]|]; cbn; rewrite ?Ea; cbn);
    destruct (sh_umask s) eqn:Eu; cbn; clear; naive_solver.
Qed.
End Agree.

(** Without mountinfo for the serve path the two part ways: the editor takes an
    insisted-on share for "on (unverified)" and stays open, while the generator
    takes the unknown mount for incapable and refuses every export. *)
Definition acl_on_share : Share :=
  {| sh_name := "movies"; sh_host_path := "/media/movies"; sh_pseudo_path := None;
     sh_security := None; sh_rw := None; sh_squash := None; sh_cache_profile := None;
     sh_pref_read := None; sh_pref_write := None; sh_enable_acl := Some true;
     sh_manage_gids := None; sh_read_access_policy := None; sh_manage_gids_expiration := None;
     sh_container_path := "/export/movies"; sh_source_path := None;
     sh_attr_expiration_secs := None; sh_navahi_insecure := None; sh_umask := None |}.
Theorem unknown_mount_gate_open wp rs is_dir ua :
  editable (fst (share_acl_gate 300 wp rs (Some "") (config_of [acl_on_share]) 0 0 "/media/movies" ∅)) = true
  /\ editable (fst (acl_apply_gate 300 wp rs is_dir (Some "") (config_of [acl_on_share])
                      (config_of [acl_on_share]) 0 0 0 0 "/media/movies" ∅)) = true
  /\ stage_share ua {| mountinfo_once := Some ""; probe_fallback := fun _ => None;
       Generate.write_probe := wp; Generate.read_sniff := rs |} (config_of [acl_on_share]) 0 acl_on_share
     = Err (AclRefused "movies" "/export/movies" "unknown").
Proof. split_and!; reflexivity. Qed.

(** ** The share the gate asks about is the share that is written *)
(** With host paths in canonical spelling and no two shares on the same host
    path, the gate of a path consults exactly the share into whose tree the
    permission manager maps the path. *)
Theorem gate_asks_mapped_share cfg p c :
  (forall s, s ∈ shares cfg ->
     normalize_path (sh_host_path s) = sh_host_path s /\ clean_path (sh_host_path s)) ->
  (forall s s', s ∈ shares cfg -> s' ∈ shares cfg ->
     components (sh_host_path s) = components (sh_host_path s') -> s = s') ->
  p <> "" -> host_path_to_container_path cfg p = Ok c ->
  exists s rel, best_share_for cfg p = Some s /\ s ∈ shares cfg
    /\ components p = components (sh_host_path s) ++ rel
    /\ c = components (serve_path_for s) ++ rel.
Proof.
  intros Hclean Hinj Hp (_ & s & rel & Hin & Hm & -> & Hmax)%host_path_ok.
  unfold matches, normalize_for_matching in Hm. rewrite components_normalize in Hm by done.
  rewrite (proj1 (Hclean s Hin)) in Hm.
  assert (Hcov : forall s', s' ∈ List.filter (fun s => path_starts_with p (sh_host_path s)
      || bool_decide (components p = components (sh_host_path s))) (shares cfg)
    <-> s' ∈ shares cfg /\ exists rel', components p = components (sh_host_path s') ++ rel').
  { intros s'. rewrite elem_of_filter_In. split; intros [? H]; (split; [done|]).
    - apply orb_true_iff in H as [H|H]; [by apply path_starts_with_spec|].
      apply bool_decide_eq_true in H. exists []. by rewrite app_nil_r.
    - apply orb_true_iff. left. by apply path_starts_with_spec. }
  unfold best_share_for.
  pose proof (max_by_key_spec (fun s => len (sh_host_path s))
    (List.filter (fun s => path_starts_with p (sh_host_path s)
      || bool_decide (components p = components (sh_host_path s))) (shares cfg))) as Hb.
  destruct (max_by_key _ _) as [b|].
  - destruct Hb as (Hbin & Hbmax & _). apply Hcov in Hbin as [Hbin [rel' Hr]].
    assert (len (sh_host_path s) <= len (sh_host_path b))%nat as H1 by (apply Hbmax, Hcov; eauto).
    assert (len (sh_host_path b) <= len (sh_host_path s))%nat as H2.
    { pose proof (Hmax b rel' Hbin) as H. unfold spec_of, matches, normalize_for_matching in H.
      rewrite components_normalize, (proj1 (Hclean b Hbin)), (proj1 (Hclean s Hin)) in H by done.
      auto. }
    destruct (clean_prefix_deeper (sh_host_path b) (sh_host_path s) _ _ _ (proj2 (Hclean b Hbin)) (proj2 (Hclean s Hin)) Hr Hm H1)
      as [x Hx].
    destruct (clean_prefix_deeper (sh_host_path s) (sh_host_path b) _ _ _ (proj2 (Hclean s Hin)) (proj2 (Hclean b Hbin)) Hm Hr H2)
      as [y Hy].
    assert (components (sh_host_path b) = components (sh_host_path s)) as Hc.
    { apply (f_equal length) in Hx as Hx', Hy. rewrite !length_app in *.
      assert (x = []) as -> by (destruct x; [done|cbn in *; lia]). by rewrite app_nil_r in Hx. }
    rewrite (Hinj b s Hbin Hin Hc). exists s, rel. auto.
  - exfalso. assert (Hs : s ∈ @nil Share); [|by apply elem_of_nil in Hs].
    rewrite <- Hb. apply Hcov. eauto.
Qed.
Lemma gate_asks_mapped_share_witness :
  exists s rel, best_share_for nested_config "/srv/data/media/x" = Some s
    /\ s ∈ shares nested_config
    /\ components "/srv/data/media/x" = components (sh_host_path s) ++ rel
    /\ [RootDir; Normal "export"; Normal "m"; Normal "x"] = components (serve_path_for s) ++ rel.
Proof.
  apply gate_asks_mapped_share; [| |done|vm_compute; reflexivity].
  - intros s. cbn. rewrite !elem_of_cons. intros [->|[->|H]]; [..|by apply elem_of_nil in H];
      (split; [reflexivity|]).
    + exists ["srv"; "data"; "media"]. split; [|reflexivity]. by repeat constructor.
    + exists ["srv"; "data"]. split; [|reflexivity]. by repeat constructor.
  - intros s s'. cbn. rewrite !elem_of_cons.
    intros [->|[->|H]] [->|[->|H']]; try (by apply elem_of_nil in H); try (by apply elem_of_nil in H');
      done.
Defined.

(** Two shares on one host path: the gate asks the last one, the write goes to
    the tree of the first. *)
Theorem gate_asks_shadowed_share :
  let cfg := config_of [share_at "a" "/srv/data" "/export/a"; share_at "b" "/srv/data" "/export/b"] in
  (sh_name <$> best_share_for cfg "/srv/data/f") = Some "b"
  /\ host_path_to_container_path cfg "/srv/data/f" = Ok (components "/export/a/f").
Proof. vm_compute. split; reflexivity. Qed.

(** ** The watcher *)
Record FlipState := { fl_baseline : bool; fl_last : bool; fl_streak : Z }.
Record FlipTracker := {
  tr_auto : gmap string FlipState;
  tr_incap : gmap string Z;
  last_auto_hup : option Z;
}.
Definition new_tracker : FlipTracker := {| tr_auto := ∅; tr_incap := ∅; last_auto_hup := None |}.
Definition AUTO_HUP_MIN_INTERVAL : Z := 600 * SECS.
Definition FLIP_STREAK : Z := 2.
Definition saturating_add_u8 (n : Z) : Z := Z.min 255 (n + 1).

Definition track_auto_flip (st : FlipState) (current : bool) : bool * FlipState :=
  let st' := if Bool.eqb current (fl_last st)
             then {| fl_baseline := fl_baseline st; fl_last := fl_last st;
                     fl_streak := saturating_add_u8 (fl_streak st) |}
             else {| fl_baseline := fl_baseline st; fl_last := current; fl_streak := 1 |} in
  (negb (Bool.eqb current (fl_baseline st')) && (FLIP_STREAK <=? fl_streak st'), st').
Definition build_alert (failing : list string) : option string :=
  match failing with
  | [] => None
  | _ => Some ("enable_acl = true on " +:+ join ", " (map (fun n => "'" +:+ n +:+ "'") failing)
      +:+ " but the backing filesystem no longer stores POSIX ACLs — the next config reload will refuse to generate exports. Use the staging pattern (source_path) or set enable_acl = false.")
  end.

(** What a tick builds up while it goes over the shares. *)
Record TickState := {
  ts_tracker : FlipTracker;
  ts_cache : Entries;
  auto_flip_share : option string;
  failing : list string;
}.
Record TickOutcome := { hup_scheduled : bool; alert : option string }.
(** The parts of the application state the watcher shares with the handlers. *)
Record Watch := {
  wa_tracker : FlipTracker; wa_cache : Entries; wa_latch : LatchState; acl_alert : option string }.

Section Tick.
Context (ttl : Z) (write_probe read_sniff : string -> option bool) (snap : MountinfoSnapshot).
(** The clock before and after the probe of each share. *)
Context (clock : string -> Z * Z).

Definition set_auto (n : string) (f : FlipState) (t : FlipTracker) : FlipTracker :=
  {| tr_auto := <[ n := f ]> (tr_auto t); tr_incap := tr_incap t; last_auto_hup := last_auto_hup t |}.
Definition set_incap (n : string) (k : Z) (t : FlipTracker) : FlipTracker :=
  {| tr_auto := tr_auto t; tr_incap := <[ n := k ]> (tr_incap t); last_auto_hup := last_auto_hup t |}.

Definition tick_share (st : TickState) (s : Share) : TickState :=
  let name := sh_name s in
  let serve := serve_path_for s in
  let '(o, m) := verdict_for_snapshot ttl write_probe read_sniff (fst (clock name)) (snd (clock name))
                   snap serve serve (explicit_off s) true (ts_cache st) in
  let t := ts_tracker st in
  match sh_enable_acl s with
  | None =>
      let capable := bool_decide (po_verdict o = Capable) in
      let f := default {| fl_baseline := capable; fl_last := capable; fl_streak := 0 |}
                 (tr_auto t !! name) in
      let '(fires, f') := track_auto_flip f capable in
      {| ts_tracker := set_auto name f' t; ts_cache := m;
         auto_flip_share := match auto_flip_share st with
                            | Some n => Some n
                            | None => if fires then Some name else None
                            end;
         failing := failing st |}
  | Some true =>
      let incapable := bool_decide (po_verdict o = Incapable) in
      let streak := if incapable then saturating_add_u8 (default 0 (tr_incap t !! name)) else 0 in
      {| ts_tracker := set_incap name streak t; ts_cache := m;
         auto_flip_share := auto_flip_share st;
         failing := if FLIP_STREAK <=? streak then failing st ++ [name] else failing st |}
  | Some false =>
      {| ts_tracker := t; ts_cache := m; auto_flip_share := auto_flip_share st;
         failing := failing st |}
  end.

(** After a scheduled recycle every auto share takes its reading as baseline. *)
Definition adopt_baselines (later : Z) (t : FlipTracker) : FlipTracker :=
  {| tr_auto := (fun f => {| fl_baseline := fl_last f; fl_last := fl_last f; fl_streak := 0 |}) <$> tr_auto t;
     tr_incap := tr_incap t; last_auto_hup := Some later |}.
Definition rate_ok (now : Z) (t : FlipTracker) : bool :=
  match last_auto_hup t with
  | Some last => AUTO_HUP_MIN_INTERVAL <=? elapsed now last
  | None => true
  end.

(** [meanwhile]: what other requests and tasks do to the latch between the
    first check and the request; [now] and [later] are the clock readings of
    the rate limit and of the recorded recycle. *)
Definition acl_reprobe_tick (cfg : NfsKlldapConfig) (meanwhile : LatchState -> LatchState)
    (removed : bool) (now later : Z) (w : Watch) : TickOutcome * Watch :=
  if is_some (restart_requested (wa_latch w)) then ({| hup_scheduled := false; alert := None |}, w)
  else
    let st := foldl tick_share
                {| ts_tracker := wa_tracker w; ts_cache := wa_cache w; auto_flip_share := None;
                   failing := [] |} (shares cfg) in
    let a := build_alert (failing st) in
    let t := ts_tracker st in
    let latch := meanwhile (wa_latch w) in
    let '(sched, latch) :=
      if is_some (auto_flip_share st) && rate_ok now t
      then try_schedule_service_recycle removed now SharesApply latch else (false, latch) in
    ({| hup_scheduled := sched; alert := a |},
     {| wa_tracker := if sched then adopt_baselines later t else t;
        wa_cache := ts_cache st; wa_latch := latch; acl_alert := a |}).

(** The reading of a share: forced, so independent of the cache. *)
Definition reading (s : Share) : AclProbeVerdict :=
  po_verdict (fst (verdict_for_snapshot ttl write_probe read_sniff 0 0 snap (serve_path_for s)
                     (serve_path_for s) (explicit_off s) true ∅)).
Lemma reading_forced now d s m :
  po_verdict (fst (verdict_for_snapshot ttl write_probe read_sniff now d snap (serve_path_for s)
                     (serve_path_for s) (explicit_off s) true m)) = reading s.
Proof.
  unfold reading, verdict_for_snapshot. destruct (stage_a _ _) as [caps root].
  unfold verdict_cached.
  by destruct (seqb _ _), (acl_capable caps), (explicit_off s), root.
Qed.
Definition capable_now (s : Share) : bool := bool_decide (reading s = Capable).

(** One share of a tick, in terms of its reading. *)
Lemma tick_share_spec st s :
  let t := ts_tracker st in let t' := ts_tracker (tick_share st s) in let n := sh_name s in
  last_auto_hup t' = last_auto_hup t
  /\ (forall n', n' <> n -> tr_auto t' !! n' = tr_auto t !! n' /\ tr_incap t' !! n' = tr_incap t !! n')
  /\ match sh_enable_acl s with
     | None =>
         let f := default {| fl_baseline := capable_now s; fl_last := capable_now s; fl_streak := 0 |}
                    (tr_auto t !! n) in
         tr_auto t' !! n = Some (snd (track_auto_flip f (capable_now s)))
         /\ tr_incap t' = tr_incap t /\ failing (tick_share st s) = failing st
         /\ auto_flip_share (tick_share st s)
            = match auto_flip_share st with
              | Some x => Some x
              | None => if fst (track_auto_flip f (capable_now s)) then Some n else None end
     | Some true =>
         let k := if bool_decide (reading s = Incapable)
                  then saturating_add_u8 (default 0 (tr_incap t !! n)) else 0 in
         tr_auto t' = tr_auto t /\ tr_incap t' !! n = Some k
         /\ auto_flip_share (tick_share st s) = auto_flip_share st
         /\ failing (tick_share st s) = if FLIP_STREAK <=? k then failing st ++ [n] else failing st
     | Some false =>
         t' = t /\ auto_flip_share (tick_share st s) = auto_flip_share st
         /\ failing (tick_share st s) = failing st
     end.
Proof.
  cbn zeta. unfold tick_share.
  pose proof (reading_forced (fst (clock (sh_name s))) (snd (clock (sh_name s))) s (ts_cache st)) as H.
  destruct (verdict_for_snapshot _ _ _ _ _ _ _ _ _ _ _) as [o m]. cbn [fst] in H.
  destruct (sh_enable_acl s) as [[]|]; cbn -[saturating_add_u8 track_auto_flip]; rewrite ?H; fold (capable_now s).
  - split_and!; [done| |done|by rewrite lookup_insert_eq|done|done].
    intros n' Hn. split; [done|]. by rewrite lookup_insert_ne.
  - split_and!; done.
  - destruct (track_auto_flip _ _) as [fires f'] eqn:E. cbn.
    split_and!; [done| |by rewrite lookup_insert_eq|done..].
    intros n' Hn. split; [|done]. by rewrite lookup_insert_ne.
Qed.
End Tick.

(** ** When the watcher recycles *)
Section Watching.
Context (ttl : Z) (wp rs : string -> option bool) (snap : MountinfoSnapshot) (clock : string -> Z * Z).
Local Abbreviation tick_share := (tick_share ttl wp rs snap clock).
Local Abbreviation capable_now := (capable_now ttl wp rs snap).
Local Abbreviation reading := (reading ttl wp rs snap).

(** The flip state a share enters the tick with. *)
Definition flip_of (t : FlipTracker) (s : Share) : FlipState :=
  default {| fl_baseline := capable_now s; fl_last := capable_now s; fl_streak := 0 |}
    (tr_auto t !! sh_name s).
Definition fires (t : FlipTracker) (s : Share) : bool :=
  match sh_enable_acl s with None => fst (track_auto_flip (flip_of t s) (capable_now s)) | _ => false end.

Lemma tick_fold st l :
  NoDup (map sh_name l) -> auto_flip_share st = None ->
  let st' := foldl tick_share st l in
  let t := ts_tracker st in let t' := ts_tracker st' in
  last_auto_hup t' = last_auto_hup t
  /\ (forall n, n ∉ map sh_name l -> tr_auto t' !! n = tr_auto t !! n /\ tr_incap t' !! n = tr_incap t !! n)
  /\ (forall s, s ∈ l -> sh_enable_acl s = None ->
        tr_auto t' !! sh_name s = Some (snd (track_auto_flip (flip_of t s) (capable_now s))))
  /\ (forall n, auto_flip_share st' = Some n -> exists s, s ∈ l /\ sh_name s = n /\ fires t s = true)
  /\ (forall s, s ∈ l -> fires t s = true -> is_some (auto_flip_share st') = true).
Proof.
  intros Hnd Hnone. cbv zeta. induction l as [|s l IH] using rev_ind.
  { cbn. rewrite Hnone. split_and!; try done; set_solver. }
  rewrite map_app in Hnd. apply NoDup_app in Hnd as (Hnd & Hnew & _). specialize (IH Hnd).
  rewrite foldl_snoc. set (st1 := foldl tick_share st l) in *.
  destruct IH as (I1 & I2 & I3 & I4 & I5).
  assert (Hs : sh_name s ∉ map sh_name l) by (intros H; by apply (Hnew _ H); left).
  assert (Hf : default {| fl_baseline := capable_now s; fl_last := capable_now s; fl_streak := 0 |}
      (tr_auto (ts_tracker st1) !! sh_name s) = flip_of (ts_tracker st) s).
  { unfold flip_of. by rewrite (proj1 (I2 _ Hs)). }
  destruct (tick_share_spec ttl wp rs snap clock st1 s) as (S1 & S2 & S3). cbv zeta in S3.
  rewrite Hf in S3. rewrite map_app. cbn [map].
  split_and!.
  - by rewrite S1.
  - intros n Hn. rewrite elem_of_app, list_elem_of_singleton in Hn.
    destruct (S2 n) as [-> ->]; [tauto|]. apply I2. tauto.
  - intros x [Hx|Hx%list_elem_of_singleton]%elem_of_app Ha.
    + assert (Hne : sh_name x <> sh_name s).
      { intros E. apply Hs. rewrite <- E. by apply list_elem_of_fmap_2. }
      rewrite (proj1 (S2 _ Hne)). by apply I3.
    + subst x. rewrite Ha in S3. apply S3.
  - intros n Hn.
    assert (auto_flip_share st1 = Some n \/ (sh_name s = n /\ fires (ts_tracker st) s = true)) as [H|[H1 H2]].
    { unfold fires. destruct (sh_enable_acl s) as [[]|].
      - left. destruct S3 as (_ & _ & <- & _). done.
      - left. destruct S3 as (_ & <- & _). done.
      - destruct S3 as (_ & _ & _ & S3). rewrite Hn in S3.
        destruct (auto_flip_share st1); [by left|]. destruct (fst _); [|done]. right. by simplify_eq. }
    + destruct (I4 n H) as (x & Hx & ? & ?). exists x. split; [set_solver|done].
    + exists s. split; [set_solver|done].
  - intros x [Hx|Hx%list_elem_of_singleton]%elem_of_app Ha.
    + specialize (I5 x Hx Ha). destruct (auto_flip_share st1) as [n|] eqn:E; [|done].
      destruct (sh_enable_acl s) as [[]|].
      * destruct S3 as (_ & _ & -> & _). done.
      * destruct S3 as (_ & -> & _). done.
      * destruct S3 as (_ & _ & _ & ->). done.
    + subst x. unfold fires in Ha. destruct (sh_enable_acl s) as [[]|]; [done..|].
      destruct S3 as (_ & _ & _ & ->). rewrite Ha. by destruct (auto_flip_share st1).
Qed.

(** A firing share: known before, twice the same new reading. *)
Lemma fires_spec t s :
  fires t s = true <->
  sh_enable_acl s = None
  /\ exists f, tr_auto t !! sh_name s = Some f /\ fl_last f = capable_now s
       /\ fl_baseline f <> capable_now s /\ FLIP_STREAK <= saturating_add_u8 (fl_streak f).
Proof.
  unfold fires, flip_of. destruct (sh_enable_acl s); [naive_solver|].
  destruct (tr_auto t !! sh_name s) as [f|]; cbn.
  - unfold track_auto_flip. destruct (Bool.eqb (capable_now s) (fl_last f)) eqn:E; cbn.
    + apply eqb_prop in E. rewrite andb_true_iff, negb_true_iff, Bool.eqb_false_iff, Z.leb_le. naive_solver.
    + apply Bool.eqb_false_iff in E. rewrite andb_false_r. naive_solver.
  - unfold track_auto_flip. rewrite Bool.eqb_reflx. cbn. rewrite Bool.eqb_reflx. naive_solver.
Qed.

(** C32: a tick schedules a recycle exactly when no recycle is in flight (at the
    check and at the request), the last one of its own is at least ten minutes
    old, and some share in auto mode has now read the same capability at least
    twice in a row, different from its baseline.  It then asks for the graceful
    apply, and makes the readings the new baselines, so that an unchanged
    system is not recycled again. *)
Theorem tick_schedules_iff cfg meanwhile removed now later w :
  NoDup (map sh_name (shares cfg)) ->
  let '(out, w') := acl_reprobe_tick ttl wp rs snap clock cfg meanwhile removed now later w in
  (hup_scheduled out = true <->
     restart_requested (wa_latch w) = None /\ restart_requested (meanwhile (wa_latch w)) = None
     /\ rate_ok now (wa_tracker w) = true
     /\ exists s f, s ∈ shares cfg /\ sh_enable_acl s = None
          /\ tr_auto (wa_tracker w) !! sh_name s = Some f
          /\ fl_last f = capable_now s /\ fl_baseline f <> capable_now s
          /\ FLIP_STREAK <= saturating_add_u8 (fl_streak f))
  /\ (hup_scheduled out = true ->
        restart_requested (wa_latch w') = Some SharesApply
        /\ last_auto_hup (wa_tracker w') = Some later
        /\ forall s, s ∈ shares cfg -> sh_enable_acl s = None ->
             tr_auto (wa_tracker w') !! sh_name s
             = Some {| fl_baseline := capable_now s; fl_last := capable_now s; fl_streak := 0 |})
  /\ (hup_scheduled out = false -> last_auto_hup (wa_tracker w') = last_auto_hup (wa_tracker w)).
Proof.
  intros Hnd. unfold acl_reprobe_tick.
  destruct (restart_requested (wa_latch w)) eqn:Ebusy; cbn; [naive_solver|].
  pose proof (tick_fold {| ts_tracker := wa_tracker w; ts_cache := wa_cache w; auto_flip_share := None;
    failing := [] |} (shares cfg) Hnd eq_refl) as (I1 & _ & I3 & I4 & I5).
  set (st := foldl _ _ _) in *. cbn in I1, I3, I4, I5.
  assert (Hrate : rate_ok now (ts_tracker st) = rate_ok now (wa_tracker w)) by (unfold rate_ok; by rewrite I1).
  assert (Hflip : is_some (auto_flip_share st) = true <->
    exists s f, s ∈ shares cfg /\ sh_enable_acl s = None
          /\ tr_auto (wa_tracker w) !! sh_name s = Some f
          /\ fl_last f = capable_now s /\ fl_baseline f <> capable_now s
          /\ FLIP_STREAK <= saturating_add_u8 (fl_streak f)).
  { split.
    - destruct (auto_flip_share st) as [n|]; [|done]. intros _.
      destruct (I4 n eq_refl) as (s & Hs & _ & Hf). apply fires_spec in Hf as (Ha & f & Hf).
      by exists s, f.
    - intros (s & f & Hs & Ha & Hf). apply (I5 s Hs). apply fires_spec. eauto. }
  rewrite Hrate. destruct (is_some (auto_flip_share st)) eqn:Ef; cbn.
  2:{ split; [|done]. split; [done|]. intros (_ & _ & _ & H). by apply Hflip in H. }
  destruct (rate_ok now (wa_tracker w)); cbn; [|naive_solver].
  unfold try_schedule_service_recycle.
  destruct (restart_requested (meanwhile (wa_latch w))) as [[]|]; cbn; [naive_solver..|].
  split; [naive_solver|]. split; [|done]. intros _. split; [done|]. split; [done|].
  intros s Hs Ha. rewrite lookup_fmap, (I3 s Hs Ha). cbn. unfold track_auto_flip.
  destruct (Bool.eqb _ _) eqn:E; cbn; [apply eqb_prop in E; by rewrite <- E|done].
Qed.
End Watching.

(** Runs of the watcher: ticks at non-decreasing times, under configurations
    with distinct share names; between ticks the handlers change the latch and
    the cache.  The list holds the times of the recycles scheduled, newest
    first. *)
Inductive watch_run (ttl : Z) : list Z -> Z -> Watch -> Prop :=
| wr_start t cache latch a :
    watch_run ttl [] t {| wa_tracker := new_tracker; wa_cache := cache; wa_latch := latch; acl_alert := a |}
| wr_env h t w cache latch :
    watch_run ttl h t w ->
    watch_run ttl h t {| wa_tracker := wa_tracker w; wa_cache := cache; wa_latch := latch;
                         acl_alert := acl_alert w |}
| wr_tick h t w wp rs snap clock cfg meanwhile removed now later :
    watch_run ttl h t w -> t <= now -> now <= later -> NoDup (map sh_name (shares cfg)) ->
    let r := acl_reprobe_tick ttl wp rs snap clock cfg meanwhile removed now later w in
    watch_run ttl (if hup_scheduled (fst r) then later :: h else h) later (snd r).

Lemma watch_run_spaced ttl h t w :
  watch_run ttl h t w ->
  last_auto_hup (wa_tracker w) = head h /\ (forall x, head h = Some x -> x <= t)
  /\ StronglySorted (fun newer older => older + AUTO_HUP_MIN_INTERVAL <= newer) h.
Proof.
  induction 1 as [|h t w cache latch _ IH|h t w wp rs snap clock cfg mw removed now later _ IH Ht Hl Hnd r];
    [split_and!; [done|done|constructor]|exact IH|]. subst r.
  destruct IH as (IL & IT & IS).
  pose proof (tick_schedules_iff ttl wp rs snap clock cfg mw removed now later w Hnd) as H.
  destruct (acl_reprobe_tick _ _ _ _ _ _ _ _ _ _ _) as [out w']. cbn [fst snd].
  destruct H as (Hiff & Hyes & Hno). destruct (hup_scheduled out).
  - destruct (Hyes eq_refl) as (_ & HL & _). cbn. split; [done|]. split; [by intros x [= ->]|].
    destruct (proj1 Hiff eq_refl) as (_ & _ & Hrate & _). unfold rate_ok in Hrate. rewrite IL in Hrate.
    constructor; [done|]. destruct h as [|x h]; [constructor|]. cbn in Hrate, IT. specialize (IT x eq_refl).
    apply Z.leb_le in Hrate. unfold elapsed in Hrate.
    assert (x + AUTO_HUP_MIN_INTERVAL <= later) by (unfold AUTO_HUP_MIN_INTERVAL, SECS in *; lia).
    constructor; [done|]. inversion IS as [|? ? _ Hall]; subst.
    eapply Forall_impl; [exact Hall|]. cbn. intros y Hy.
    unfold AUTO_HUP_MIN_INTERVAL, SECS in *. lia.
  - rewrite (Hno eq_refl). split; [done|]. split; [|done]. intros x Hx. specialize (IT x Hx). lia.
Qed.

(** The recycles the watcher asks for are at least ten minutes apart, whatever
    the mounts do and whatever else recycles the services in between. *)
Theorem auto_recycles_spaced ttl h t w i j ti tj :
  watch_run ttl h t w -> (i < j)%nat -> h !! i = Some ti -> h !! j = Some tj ->
  tj + AUTO_HUP_MIN_INTERVAL <= ti.
Proof.
  intros (_ & _ & Hs)%watch_run_spaced Hij Hi Hj. revert i j Hij Hi Hj.
  induction Hs as [|x l Hs IH Hall]; intros i j Hij Hi Hj; [done|].
  destruct i as [|i], j as [|j]; try lia.
  - cbn in Hi, Hj. injection Hi as ->. rewrite Forall_forall in Hall.
    apply Hall. by eapply list_elem_of_lookup_2.
  - eapply IH; [|exact Hi|exact Hj]. lia.
Qed.

(** [n] ticks that all see the same file systems. *)
Fixpoint steady_ticks (ttl : Z) (wp rs : string -> option bool) (snap : MountinfoSnapshot)
    (cfg : NfsKlldapConfig) (n : nat) (w : Watch) : list bool * Watch :=
  match n with
  | O => ([], w)
  | S n =>
      let '(out, w) := acl_reprobe_tick ttl wp rs snap (fun _ => (0, 0)) cfg id true 0 0 w in
      let '(l, w) := steady_ticks ttl wp rs snap cfg n w in
      (hup_scheduled out :: l, w)
  end.
Definition settled ttl wp rs snap (cfg : NfsKlldapConfig) (t : FlipTracker) : Prop :=
  forall s f, s ∈ shares cfg -> sh_enable_acl s = None -> tr_auto t !! sh_name s = Some f ->
    fl_baseline f = capable_now ttl wp rs snap s /\ fl_last f = capable_now ttl wp rs snap s.
Lemma settled_tick ttl wp rs snap cfg w :
  NoDup (map sh_name (shares cfg)) -> settled ttl wp rs snap cfg (wa_tracker w) ->
  let r := acl_reprobe_tick ttl wp rs snap (fun _ => (0, 0)) cfg id true 0 0 w in
  hup_scheduled (fst r) = false /\ settled ttl wp rs snap cfg (wa_tracker (snd r)).
Proof.
  intros Hnd Hset. cbv zeta.
  pose proof (tick_schedules_iff ttl wp rs snap (fun _ => (0, 0)) cfg id true 0 0 w Hnd) as H.
  assert (Hno : hup_scheduled (fst (acl_reprobe_tick ttl wp rs snap (fun _ => (0, 0)) cfg id true 0 0 w)) = false).
  { destruct (acl_reprobe_tick _ _ _ _ _ _ _ _ _ _ _) as [out w']. destruct H as [Hiff _].
    cbn. destruct (hup_scheduled out); [|done].
    destruct (proj1 Hiff eq_refl) as (_ & _ & _ & s & f & Hs & Ha & Hf & _ & Hb & _).
    by destruct (Hset s f Hs Ha Hf). }
  split; [done|]. revert Hno. unfold acl_reprobe_tick.
  destruct (is_some (restart_requested (wa_latch w))); [done|].
  pose proof (tick_fold ttl wp rs snap (fun _ => (0, 0)) {| ts_tracker := wa_tracker w;
    ts_cache := wa_cache w; auto_flip_share := None; failing := [] |} (shares cfg) Hnd eq_refl)
    as (_ & _ & I3 & _). set (st := foldl _ _ _) in *. cbn in I3.
  destruct (if _ && _ then _ else _) as [sched latch]. cbn. intros ->.
  intros s f Hs Ha Hf. rewrite (I3 s Hs Ha) in Hf. injection Hf as <-.
  unfold flip_of, track_auto_flip. destruct (tr_auto (wa_tracker w) !! sh_name s) as [f|] eqn:E; cbn.
  - destruct (Hset s f Hs Ha E) as [Hb Hl]. rewrite Hl, Bool.eqb_reflx. cbn. auto.
  - by rewrite Bool.eqb_reflx.
Qed.

(** A watcher that starts (or restarts after a crash) takes its first reading
    for what the exports serve.  If the capability changed before that, it
    never notices: under unchanged file systems no number of ticks ever
    schedules a recycle, whatever the generator last emitted. *)
Theorem fresh_watcher_never_corrects ttl wp rs snap cfg cache latch a n :
  NoDup (map sh_name (shares cfg)) ->
  Forall (fun b => b = false)
    (fst (steady_ticks ttl wp rs snap cfg n
            {| wa_tracker := new_tracker; wa_cache := cache; wa_latch := latch; acl_alert := a |})).
Proof.
  intros Hnd. set (w := {| wa_tracker := _ |}).
  assert (Hs : settled ttl wp rs snap cfg (wa_tracker w)) by (intros s f _ _; cbn; by rewrite lookup_empty).
  clearbody w. revert w Hs. induction n as [|n IH]; intros w Hs; [constructor|]. cbn.
  pose proof (settled_tick ttl wp rs snap cfg w Hnd Hs) as [H1 H2].
  destruct (acl_reprobe_tick _ _ _ _ _ _ _ _ _ _ _) as [out w']. cbn in H1, H2.
  specialize (IH w' H2). destruct (steady_ticks _ _ _ _ _ _ _) as [l w'']. cbn in *. by constructor.
Qed.

(** ** A run *)
Definition ext4_info : string := "36 35 8:1 / /export rw,relatime - ext4 /dev/sda1 rw".
Definition tools (ok : option bool) : string -> option bool := fun _ => ok.
Definition demo_config : NfsKlldapConfig := config_of [share_at "movies" "/media/movies" "/export/movies"].
Definition ext4_caps : FsCapabilities :=
  {| fstype := "ext4"; mount_options := ["rw"]; acl_capable := true |}.
Lemma demo_nodup : NoDup (map sh_name (shares demo_config)).
Proof. apply (bool_decide_unpack _). vm_compute. exact I. Qed.

Lemma cached_verdict_fresh_witness :
  let h := probes_run (300 * SECS) (tools (Some true)) (tools None) 0 SECS ext4_caps (Some "/export")
             "/export/movies" false false ∅ ++ [] in
  let m := snd (verdict_cached (300 * SECS) (tools (Some true)) (tools None) 0 SECS ext4_caps
                  (Some "/export") "/export/movies" false false ∅) in
  fst (verdict_cached (300 * SECS) (tools (Some false)) (tools None) (9 * SECS) (9 * SECS) ext4_caps
         (Some "/export") "/export/movies" false false m) = Capable
  /\ exists p, p ∈ h /\ Some "/export" = Some (pb_root p) /\ pb_write p = Some true.
Proof.
  cbv zeta. split; [vm_compute; reflexivity|].
  pose proof (cr_lookup (300 * SECS) [] ∅ (tools (Some true)) (tools None) 0 SECS ext4_caps (Some "/export")
    "/export/movies" false false (cr_new _)) as Hr.
  destruct (proj1 (cached_verdict_fresh _ _ _ (tools (Some false)) (tools None) (9 * SECS) (9 * SECS)
    ext4_caps (Some "/export") "/export/movies" false false Hr)) as [_ [H|(p & Hp & Hroot & Hw & _)]].
  - vm_compute. reflexivity.
  - discriminate H.
  - exists p. split; [exact Hp|]. split; [exact Hroot|exact Hw].
Defined.

Lemma editor_agrees_with_generate_witness :
  editable (fst (share_acl_gate (300 * SECS) (tools (Some true)) (tools None) (Some ext4_info)
                   demo_config 0 0 "/media/movies/a" ∅)) = true.
Proof.
  apply (editor_agrees_with_generate (fun _ => true) (300 * SECS) (tools (Some true)) (tools None)
           ext4_info (fun _ => None) 0 0 demo_config 0
           (share_at "movies" "/media/movies" "/export/movies") "/media/movies/a" ∅);
    [vm_compute; reflexivity|intros H; vm_compute in H; discriminate H|reflexivity|].
  split; vm_compute; reflexivity.
Defined.

Definition tick_at (ok : bool) (now : Z) (w : Watch) : TickOutcome * Watch :=
  acl_reprobe_tick (300 * SECS) (tools (Some ok)) (tools None) (Some ext4_info) (fun _ => (now, now))
    demo_config (fun _ => idle) true now now w.
Definition started : Watch :=
  {| wa_tracker := new_tracker; wa_cache := ∅; wa_latch := idle; acl_alert := None |}.
Definition freed (w : Watch) : Watch :=
  {| wa_tracker := wa_tracker w; wa_cache := wa_cache w; wa_latch := idle; acl_alert := acl_alert w |}.
Lemma tick_schedules_iff_witness :
  let w := snd (tick_at false (360 * SECS) (snd (tick_at true (180 * SECS) started))) in
  hup_scheduled (fst (tick_at false (540 * SECS) w)) = true.
Proof.
  cbv zeta. set (w := snd (tick_at false _ _)).
  pose proof (tick_schedules_iff (300 * SECS) (tools (Some false)) (tools None) (Some ext4_info)
    (fun _ => (540 * SECS, 540 * SECS)) demo_config (fun _ => idle) true (540 * SECS) (540 * SECS) w
    demo_nodup) as H.
  unfold tick_at. destruct (acl_reprobe_tick _ _ _ _ _ _ _ _ _ _ _) as [out w'].
  apply (proj1 H). split; [vm_compute; reflexivity|]. split; [reflexivity|].
  split; [vm_compute; reflexivity|].
  exists (share_at "movies" "/media/movies" "/export/movies"),
    {| fl_baseline := true; fl_last := false; fl_streak := 1 |}.
  split; [left|]. repeat split; try (vm_compute; reflexivity); vm_compute; discriminate.
Defined.

Lemma demo_tick h t w ok now :
  watch_run (300 * SECS) h t w -> t <= now ->
  watch_run (300 * SECS) (if hup_scheduled (fst (tick_at ok now w)) then now :: h else h) now
    (freed (snd (tick_at ok now w))).
Proof.
  intros H Ht. apply wr_env. eapply wr_tick; [exact H|exact Ht|lia|apply demo_nodup].
Qed.
Definition demo_history : list Z := [1260 * SECS; 540 * SECS].
Lemma demo_run : exists w, watch_run (300 * SECS) demo_history (1260 * SECS) w.
Proof.
  pose proof (wr_start (300 * SECS) 0 ∅ idle None) as H.
  apply (demo_tick _ _ _ true (180 * SECS)) in H; [|done].
  apply (demo_tick _ _ _ false (360 * SECS)) in H; [|done].
  apply (demo_tick _ _ _ false (540 * SECS)) in H; [|done].
  apply (demo_tick _ _ _ true (720 * SECS)) in H; [|done].
  apply (demo_tick _ _ _ true (900 * SECS)) in H; [|done].
  apply (demo_tick _ _ _ true (1080 * SECS)) in H; [|done].
  apply (demo_tick _ _ _ true (1260 * SECS)) in H; [|done].
  match type of H with watch_run _ ?h _ ?w =>
    exists w; replace demo_history with h; [exact H|vm_compute; reflexivity] end.
Qed.
(** The capability is lost at 360 s (recycle at 540 s) and back at 720 s: the
    second recycle waits for 1260 s. *)
Lemma auto_recycles_spaced_witness :
  540 * SECS + AUTO_HUP_MIN_INTERVAL <= 1260 * SECS.
Proof.
  destruct demo_run as [w H].
  apply (auto_recycles_spaced (300 * SECS) demo_history (1260 * SECS) w 0 1 (1260 * SECS) (540 * SECS) H);
    [lia|reflexivity|reflexivity].
Defined.
