(* ===== verification/PermPlan.v ===== *)
(** * What a permission request asks for

    Models the front half of the permission handlers of
    [web/permission_tree.rs]: how [apply_permissions] and [acl_apply] turn a
    form into a plan (who owns, which modes, which ACL entries, how far), and
    every way they refuse before anything is touched.  The handlers run on the
    directory client (LdapClient.v), so a plan is a computation of that client.
    [stat] is [fs::metadata] of a mapped path, [gate] the answer of
    [acl_apply_gate] (AclGate.v), [parse_ops] the [serde_json] parser and
    [to_lowercase] Rust's Unicode lower-casing. *)

From S2P Require Import Prelude RustStr State Identity Config FsProbe Acl FsManager Resolver LdapClient AclGate.
Local Open Scope Z_scope.

(** ** Octal numbers *)
Definition is_octal_digit : Ascii.ascii -> bool := in_range 48 55.
Fixpoint octal_val (acc : Z) (s : string) : Z :=
  match s with
  | "" => acc
  | String c r => octal_val (acc * 8 + digit_val c) r
  end.
(** [u32::from_str_radix(s, 8)] *)
Definition parse_octal (s : string) : option Z :=
  let d := match s with String c r => if ceqb "+" c then r else s | "" => s end in
  if is_empty d || negb (sall is_octal_digit d) then None
  else let v := octal_val 0 d in if v <=? u32_max then Some v else None.
(** [{:o}]; eleven digits hold 32 bits. *)
Definition octal_digit (n : Z) : Ascii.ascii := Ascii.ascii_of_N (Z.to_N (48 + n mod 8)).
Fixpoint oct_go (fuel : nat) (n : Z) (acc : string) : string :=
  match fuel with
  | O => acc
  | S f => let acc := String (octal_digit n) acc in if n <? 8 then acc else oct_go f (n / 8) acc
  end.
Definition oct (n : Z) : string := oct_go 11 n "".

(** ** Nodes *)
Record NodeMeta := { nm_uid : Z; nm_gid : Z; nm_mode : Z; nm_is_dir : bool }.
(** [0o7777], [0o666] *)
Definition MODE_BITS : Z := 4095.
Definition RW_BITS : Z := 438.

Section Nodes.
Context (stat : Path -> option NodeMeta) (cfg : NfsKlldapConfig).
Definition get_node_meta (path : string) : option NodeMeta :=
  let normalized := normalize_for_matching path in
  if negb (is_allowed cfg normalized) then None
  else match host_path_to_container_path cfg normalized with
       | Err _ => None
       | Ok real =>
           (fun m => {| nm_uid := nm_uid m; nm_gid := nm_gid m;
                        nm_mode := Z.land (nm_mode m) MODE_BITS; nm_is_dir := nm_is_dir m |})
             <$> stat real
       end.
Definition get_dir_meta (path : string) : option (Z * Z * Z) :=
  (fun m => (nm_uid m, nm_gid m, nm_mode m)) <$> get_node_meta path.
End Nodes.

(** ** Forms *)
Record ApplyForm := {
  f_path : string;
  f_owner_user : string;
  f_owner_group : string;
  f_mode : string;
  f_recursive_scope : string;
  f_file_mode : string;
  f_owner_user_uid : string;
  f_owner_group_gid : string;
  f_acl_ops : string;
}.
Record AclOpSpec := {
  os_op : string; os_typ : string; os_id : string; os_name : string; os_perms : string;
  os_layer : string;
}.
Record AclApplyForm := {
  a_path : string;
  a_op : string; a_typ : string; a_id : string; a_name : string; a_perms : string;
  a_selected : string; a_layer : string; a_scope : string;
}.

(** ** One ACL edit *)
Record AclOpInput := {
  in_op : string;
  in_is_user : bool;
  in_id : Z;
  in_delete_kinds : list AclEntryKind;
  in_perms : string;
  in_default_layer : bool;
}.
(** The directory spec, the file spec and the log line. *)
Definition build_acl_modification (i : AclOpInput) (node_is_dir : bool) (path : string)
  : option (AclModification * AclModification * string) :=
  let d := in_default_layer i in
  let dflag := if d then "-d " else "" in
  let fuse_dir p := if node_is_dir then dir_r_implies_x p else p in
  let kind := if in_is_user i then KUser (in_id i) else KGroup (in_id i) in
  let pstr := if is_empty (trim (in_perms i)) then "r--" else trim (in_perms i) in
  let lit := from_str pstr in
  let fused := fuse_dir lit in
  let op := in_op i in
  if seqb op "mask" then
    Some (AclSetMask fused d, AclSetMask lit d,
          "setfacl " +:+ dflag +:+ "-m m::" +:+ to_str fused +:+ " " +:+ path)
  else if seqb op "add" || seqb op "edit" || seqb op "set" then
    Some (AclSet kind fused d, AclSet kind lit d,
          "setfacl " +:+ dflag +:+ "-m " +:+ (if in_is_user i then "u" else "g") +:+ ":"
          +:+ dec (in_id i) +:+ ":" +:+ to_str fused +:+ " " +:+ path)
  else if seqb op "delete" || seqb op "del" then
    let kinds := match in_delete_kinds i with
                 | [] => if 0 <? in_id i then [kind] else []
                 | l => l
                 end in
    Some (AclRemove kinds d, AclRemove kinds d,
          match kinds with
          | [] => "setfacl " +:+ dflag +:+ "-x (no-op) " +:+ path
          | _ => "setfacl " +:+ dflag +:+ "-x " +:+ join "," (map kind_spec kinds) +:+ " " +:+ path
          end)
  else None.

(** ** Refusals *)
Inductive Refusal :=
| Busy
| NotFound (is_user : bool) (name : string)
| NoCurrentOwner
| FileModeSpecial
| AclUnparsed
| AclUnavailable (short : string)
| DefaultOnFile
| UnknownPrincipal (name : string)
| UnknownOp.

(** A step that may refuse. *)
Definition bind_ok {S A B E} (m : M S (result A E)) (k : A -> M S (result B E)) : M S (result B E) :=
  bind m (fun r => match r with Ok a => k a | Err e => ret (Err e) end).
Notation "'try*' x ':=' m 'in' k" := (bind_ok m (fun x => k))
  (at level 10, x name, m at level 100, k at level 200) : state_scope.
Lemma bind_ok_inv {S A B E} (m : M S (result A E)) (k : A -> M S (result B E)) s b :
  fst (bind_ok m k s) = Ok b ->
  exists a, fst (m s) = Ok a /\ fst (k a (snd (m s))) = Ok b.
Proof.
  unfold bind_ok. rewrite bind_run. destruct (fst (m s)) as [a|e]; [|done]. by exists a.
Qed.

(** ** Who owns *)
Definition name_is_zero (s : string) : bool :=
  eq_ignore_ascii_case s "nobody" || eq_ignore_ascii_case s "root".
Inductive IdChoice := Known (n : Z) | Untouched | AskDirectory.
Definition choose_id (id_field : string) (typed : option string) : IdChoice :=
  match parse_uint u32_max (trim id_field) with
  | Some n => Known n
  | None =>
      match typed with
      | None => Untouched
      | Some t =>
          match parse_uint u32_max t with
          | Some n => Known n
          | None => if name_is_zero t then Known 0 else AskDirectory
          end
      end
  end.
(** [x as u32] of an [i32] *)
Definition as_u32 (n : Z) : Z := wrap 32 n.
Definition scope_of (s : string) : ApplyScope :=
  if seqb s "all" then All else if seqb s "single" then ImmediateFiles else DirOnly.
Definition is_dir_only (s : ApplyScope) : bool := match s with DirOnly => true | _ => false end.
Definition is_user_typ (t : string) : bool := seqb t "user" || seqb t "u".

(** An ACL edit ready to run. *)
Record AclOp := {
  ao_dir : AclModification; ao_file : AclModification; ao_cmd : string; ao_label : string }.
Record Plan := {
  pl_path : string;
  pl_uid : Z;
  pl_gid : Z;
  pl_spec : ApplySpec;
  pl_target_is_file : bool;
  pl_acl : list AclOp;
}.

Section Plans.
Context (to_lowercase : string -> string).
Context (server : nat -> Query -> Attempt) (op_timeout_secs : Z).
Context (user_base group_base : string) (pa : PosixAttributeMapping).
Context (stat : Path -> option NodeMeta) (cfg : NfsKlldapConfig).
Context (gate : string -> AclGateView).
Context (parse_ops : string -> option (list AclOpSpec)).

Definition resolve_named (is_user : bool) (name : string) : L (option (Z * string)) :=
  if is_user then LdapClient.resolve_user server op_timeout_secs user_base pa name
  else LdapClient.resolve_group server op_timeout_secs group_base pa name.
(** The directory is asked with the text of the field, not with the
    normalized one. *)
Definition resolve_owner (is_user : bool) (choice : IdChoice) (raw : string)
  : L (result (option Z) Refusal) :=
  match choice with
  | Known n => ret (Ok (Some n))
  | Untouched => ret (Ok None)
  | AskDirectory =>
      let* r := resolve_named is_user raw in
      ret (match r with Some (n, _) => Ok (Some (as_u32 n)) | None => Err (NotFound is_user raw) end)
  end.
Definition current_owner (path : string) (owner group : option Z) : result (Z * Z) Refusal :=
  match owner, group with
  | Some u, Some g => Ok (u, g)
  | _, _ =>
      match get_dir_meta stat cfg path with
      | Some (cu, cg, _) => Ok (default cu owner, default cg group)
      | None => Err NoCurrentOwner
      end
  end.
(** The id of an ACL principal: the number given, else the name resolved. *)
Definition principal_id (exempt is_user : bool) (id_text name : string) : L Z :=
  let id := default 0 (parse_uint u32_max id_text) in
  if (id =? 0) && negb exempt && negb (is_empty (trim name)) then
    match normalize_editor_search_query (Some name) with
    | None => ret id
    | Some stripped =>
        match parse_uint u32_max stripped with
        | Some n => ret n
        | None =>
            let* r := resolve_named is_user stripped in
            ret (match r with Some (n, _) => as_u32 n | None => id end)
        end
    end
  else ret id.
Definition prepare_op (target_is_file : bool) (path : string) (spec : AclOpSpec)
  : L (result AclOp Refusal) :=
  let op := to_lowercase (trim (os_op spec)) in
  let is_user := is_user_typ (to_lowercase (trim (os_typ spec))) in
  let default_layer := eq_ignore_ascii_case (trim (os_layer spec)) "default" in
  if default_layer && target_is_file then ret (Err DefaultOnFile)
  else
    let* id := principal_id (seqb op "mask") is_user (trim (os_id spec)) (os_name spec) in
    if (id =? 0) && negb (seqb op "mask") then ret (Err (UnknownPrincipal (os_name spec)))
    else
      ret (match build_acl_modification
                   {| in_op := op; in_is_user := is_user; in_id := id; in_delete_kinds := [];
                      in_perms := os_perms spec; in_default_layer := default_layer |}
                   (negb target_is_file) path with
           | Some (dm, fm, cmd) => Ok {| ao_dir := dm; ao_file := fm; ao_cmd := cmd; ao_label := op |}
           | None => Err UnknownOp
           end).
Fixpoint prepare_ops (target_is_file : bool) (path : string) (specs : list AclOpSpec)
  : L (result (list AclOp) Refusal) :=
  match specs with
  | [] => ret (Ok [])
  | spec :: rest =>
      try* op := prepare_op target_is_file path spec in
      try* ops := prepare_ops target_is_file path rest in
      ret (Ok (op :: ops))
  end.
Definition staged_batch (target_is_file : bool) (path acl_ops : string)
  : L (result (list AclOp) Refusal) :=
  if is_empty (trim acl_ops) then ret (Ok [])
  else match parse_ops (trim acl_ops) with
       | None => ret (Err AclUnparsed)
       | Some [] => ret (Ok [])
       | Some specs =>
           if editable (gate path) then prepare_ops target_is_file path specs
           else ret (Err (AclUnavailable (gv_short (gate path))))
       end.
Definition apply_mode (form : ApplyForm) : Z := default 504 (parse_octal (f_mode form)).
(** The mode of files in scope; [None] for the node alone. *)
Definition files_mode (scope : ApplyScope) (form : ApplyForm) : result (option Z) Refusal :=
  if is_dir_only scope then Ok None
  else
    let fm := default (Z.land (apply_mode form) RW_BITS) (parse_octal (f_file_mode form)) in
    if Z.ldiff fm RWX_BITS =? 0 then Ok (Some fm) else Err FileModeSpecial.
Definition target_is_file (path : string) : bool :=
  match get_node_meta stat cfg path with Some m => negb (nm_is_dir m) | None => false end.

(** [apply_permissions] up to the claim of the slot. *)
Definition plan_apply (form : ApplyForm) : L (result Plan Refusal) :=
  let typed_user := normalize_editor_search_query (Some (f_owner_user form)) in
  let typed_group := normalize_editor_search_query (Some (f_owner_group form)) in
  try* owner := resolve_owner true (choose_id (f_owner_user_uid form) typed_user) (f_owner_user form) in
  try* group := resolve_owner false (choose_id (f_owner_group_gid form) typed_group) (f_owner_group form) in
  try* ids := ret (current_owner (f_path form) owner group) in
  let is_file := target_is_file (f_path form) in
  let scope := if is_file then DirOnly else scope_of (f_recursive_scope form) in
  try* fm := ret (files_mode scope form) in
  try* ops := staged_batch is_file (f_path form) (f_acl_ops form) in
  ret (Ok {| pl_path := f_path form; pl_uid := fst ids; pl_gid := snd ids;
             pl_spec := {| spec_mode := apply_mode form; spec_scope := scope; spec_file_mode := fm |};
             pl_target_is_file := is_file; pl_acl := ops |}).

(** ** [acl_apply] up to the claim of the slot *)
(** [.or_else]: the number after the last colon of the first selected entry. *)
Definition acl_form_id (form : AclApplyForm) : Z :=
  match parse_uint u32_max (trim (a_id form)) with
  | Some n => n
  | None =>
      let first := before "," (a_selected form) in
      default 0 (parse_uint u32_max (trim (after_last ":" first)))
  end.
Definition selected_kind (tok : string) : option AclEntryKind :=
  let t := trim tok in
  if is_empty t then None
  else
    let num := default 0 (parse_uint u32_max (trim (after_last ":" t))) in
    if 0 <? num then Some (if starts_with "g" t then KGroup num else KUser num) else None.
Record AclPlan := { ap_path : string; ap_scope : ApplyScope; ap_op : AclOp }.
Definition plan_acl (form : AclApplyForm) : L (result AclPlan Refusal) :=
  let op := to_lowercase (trim (a_op form)) in
  let is_user := is_user_typ (to_lowercase (trim (a_typ form))) in
  if negb (editable (gate (a_path form))) then ret (Err (AclUnavailable (gv_short (gate (a_path form)))))
  else
    let default_layer := eq_ignore_ascii_case (trim (a_layer form)) "default" in
    let node_is_dir := match get_node_meta stat cfg (a_path form) with
                       | Some m => nm_is_dir m | None => false end in
    if default_layer && negb node_is_dir then ret (Err DefaultOnFile)
    else
      let scope := if node_is_dir then scope_of (trim (a_scope form)) else DirOnly in
      let exempt := seqb op "delete" || seqb op "mask" in
      let id0 := acl_form_id form in
      let* id := (if id0 =? 0 then principal_id exempt is_user "" (a_name form) else ret id0) in
      if (id =? 0) && negb exempt then ret (Err (UnknownPrincipal (a_name form)))
      else
        let kinds := if seqb op "delete" || seqb op "del" then omap selected_kind (split "," (a_selected form))
                     else [] in
        ret (match build_acl_modification
                     {| in_op := op; in_is_user := is_user; in_id := id; in_delete_kinds := kinds;
                        in_perms := a_perms form; in_default_layer := default_layer |}
                     node_is_dir (a_path form) with
             | Some (dm, fm, cmd) =>
                 Ok {| ap_path := a_path form; ap_scope := scope;
                       ap_op := {| ao_dir := dm; ao_file := fm; ao_cmd := cmd; ao_label := op |} |}
             | None => Err UnknownOp
             end).
End Plans.

(** ** What an accepted plan may contain *)
Section PlanProps.
Context (to_lowercase : string -> string).
Context (server : nat -> Query -> Attempt) (op_timeout_secs : Z).
Context (user_base group_base : string) (pa : PosixAttributeMapping).
Context (stat : Path -> option NodeMeta) (cfg : NfsKlldapConfig).
Context (gate : string -> AclGateView).
Context (parse_ops : string -> option (list AclOpSpec)).
Local Abbreviation resolve_n := (resolve_named server op_timeout_secs user_base group_base pa).
Local Abbreviation prep_op := (prepare_op to_lowercase server op_timeout_secs user_base group_base pa).
Local Abbreviation prep_ops := (prepare_ops to_lowercase server op_timeout_secs user_base group_base pa).

(** Where the owner (or group) id of a plan comes from. *)
Definition id_source (is_user : bool) (field raw path : string) (n : Z) : Prop :=
  match parse_uint u32_max (trim field), normalize_editor_search_query (Some raw) with
  | Some k, _ => n = k
  | None, None =>
      exists m, get_node_meta stat cfg path = Some m /\ n = if is_user then nm_uid m else nm_gid m
  | None, Some t =>
      match parse_uint u32_max t with
      | Some k => n = k
      | None => if name_is_zero t then n = 0
                else exists c v d, fst (resolve_n is_user raw c) = Some (v, d) /\ n = as_u32 v
      end
  end.
Definition kind_id (k : AclEntryKind) : Z := match k with KUser n | KGroup n => n end.
(** An edit: the directory spec is the file spec with read implying execute
    (on a file target the same), never on principal 0, and on the default
    layer only for a directory. *)
Definition op_safe (is_file : bool) (o : AclOp) : Prop :=
  let fuse p := if is_file then p else dir_r_implies_x p in
  match ao_dir o, ao_file o with
  | AclSet k p d, AclSet k' p' d' =>
      k = k' /\ d = d' /\ p = fuse p' /\ kind_id k <> 0 /\ (d = true -> is_file = false)
  | AclSetMask p d, AclSetMask p' d' => d = d' /\ p = fuse p' /\ (d = true -> is_file = false)
  | AclRemove ks d, AclRemove ks' d' =>
      ks = ks' /\ d = d' /\ Forall (fun k => kind_id k <> 0) ks /\ (d = true -> is_file = false)
  | _, _ => False
  end.

(** The principal of a submitted edit: the number given, or else what its name
    stands for, a number or what the directory answered ([0] for none). *)
Definition principal_source (is_user : bool) (id_text name : string) (n : Z) : Prop :=
  let k := default 0 (parse_uint u32_max id_text) in
  if k =? 0 then
    match normalize_editor_search_query (Some name) with
    | None => n = 0
    | Some t =>
        match parse_uint u32_max t with
        | Some k => n = k
        | None => n = 0 \/ exists c v d, fst (resolve_n is_user t c) = Some (v, d) /\ n = as_u32 v
        end
    end
  else n = k.
(** What a submitted edit asks for, as the edit of a file. *)
Definition requested (spec : AclOpSpec) (o : AclOp) : Prop :=
  let op := to_lowercase (trim (os_op spec)) in
  let is_user := is_user_typ (to_lowercase (trim (os_typ spec))) in
  let layer := eq_ignore_ascii_case (trim (os_layer spec)) "default" in
  let perms := from_str (if is_empty (trim (os_perms spec)) then "r--" else trim (os_perms spec)) in
  ao_label o = op
  /\ if decide (op = "mask") then ao_file o = AclSetMask perms layer
     else exists id, principal_source is_user (trim (os_id spec)) (os_name spec) id /\ id <> 0
       /\ let kind := if is_user then KUser id else KGroup id in
          if decide (op = "delete" \/ op = "del") then ao_file o = AclRemove [kind] layer
          else (op = "add" \/ op = "edit" \/ op = "set") /\ ao_file o = AclSet kind perms layer.

Lemma principal_id_source is_user id_text name s :
  let id := fst (principal_id server op_timeout_secs user_base group_base pa false is_user id_text name s) in
  principal_source is_user id_text name id /\ 0 <= id.
Proof.
  unfold principal_id, principal_source. set (k := default 0 (parse_uint u32_max id_text)).
  assert (Hk : 0 <= k).
  { unfold k. destruct (parse_uint u32_max id_text) as [n|] eqn:E; cbn; [|done]. apply parse_uint_range in E. lia. }
  destruct (k =? 0) eqn:Ek; [|by cbn]. apply Z.eqb_eq in Ek. cbn [andb negb].
  destruct (is_empty (trim name)) eqn:En; cbn [negb].
  { unfold normalize_editor_search_query. cbn. by rewrite En. }
  destruct (normalize_editor_search_query (Some name)) as [t|]; [|by cbn].
  destruct (parse_uint u32_max t) as [n|] eqn:E; [cbn; split; [done|apply parse_uint_range in E; lia]|].
  rewrite bind_run. destruct (fst (resolve_n is_user t s)) as [[v d]|] eqn:Er; cbn.
  - split; [right; by exists s, v, d|]. by apply (wrap_range 32).
  - split; [left|]; lia.
Qed.
Lemma owner_source is_user field raw path o s cur :
  fst (resolve_owner server op_timeout_secs user_base group_base pa is_user
         (choose_id field (normalize_editor_search_query (Some raw))) raw s) = Ok o ->
  (o = None -> exists m, get_node_meta stat cfg path = Some m
                 /\ cur = if is_user then nm_uid m else nm_gid m) ->
  id_source is_user field raw path (default cur o).
Proof.
  unfold id_source, choose_id. destruct (parse_uint u32_max (trim field)) as [k|].
  { cbn. by intros [= <-] _. }
  destruct (normalize_editor_search_query (Some raw)) as [t|]; cbn; [|by intros [= <-] H; apply H].
  destruct (parse_uint u32_max t) as [k|]; [by cbn; intros [= <-] _|].
  destruct (name_is_zero t); [by cbn; intros [= <-] _|].
  cbn. rewrite bind_run. destruct (fst (resolve_n is_user raw s)) as [[v d]|] eqn:E; cbn; [|done].
  intros [= <-] _. by exists s, v, d.
Qed.

Lemma build_safe is_file op is_user id perms d path dm fm cmd :
  build_acl_modification {| in_op := op; in_is_user := is_user; in_id := id; in_delete_kinds := [];
    in_perms := perms; in_default_layer := d |} (negb is_file) path = Some (dm, fm, cmd) ->
  (id <> 0 \/ op = "mask") -> (d = true -> is_file = false) ->
  op_safe is_file {| ao_dir := dm; ao_file := fm; ao_cmd := cmd; ao_label := op |}.
Proof.
  unfold build_acl_modification. cbn. intros H Hid Hd.
  destruct (seqb op "mask") eqn:Em.
  { injection H as <- <- <-. cbn. by destruct is_file. }
  apply seqb_neq in Em. destruct Hid as [Hid|Hid]; [|done].
  destruct (seqb op "add" || _ || _).
  { injection H as <- <- <-. cbn. split_and!; try done; [by destruct is_file|]. by destruct is_user. }
  destruct (seqb op "delete" || _); [|done]. injection H as <- <- <-. cbn.
  split_and!; try done. destruct (0 <? id); constructor; [by destruct is_user|constructor].
Qed.

Lemma prepare_op_safe is_file path spec s o :
  fst (prep_op is_file path spec s) = Ok o -> op_safe is_file o /\ requested spec o.
Proof.
  unfold prepare_op, requested. destruct (_ && is_file) eqn:Ed; [done|]. rewrite bind_run.
  set (op := to_lowercase (trim (os_op spec))) in *. set (is_user := is_user_typ _) in *.
  set (id := fst (principal_id _ _ _ _ _ _ _ _ _ _)).
  destruct ((id =? 0) && _) eqn:Ei; [done|]. cbn [ret fst].
  destruct (build_acl_modification _ _ _) as [[[dm fm] cmd]|] eqn:Eb; [|done]. intros [= <-].
  apply andb_false_iff in Ei. split.
  { eapply build_safe; [exact Eb| |].
    - destruct Ei as [Ei|Ei]; [left; lia|right]. by apply negb_false_iff, seqb_eq in Ei.
    - intros Hd. rewrite Hd in Ed. by destruct is_file. }
  cbn [ao_label ao_file]. split; [done|]. revert Eb. unfold build_acl_modification. cbn.
  case_decide as Em; [rewrite Em; by intros [= _ <- _]|]. apply seqb_neq in Em as Em'. rewrite Em'.
  assert (Hid : id <> 0) by (destruct Ei as [Ei|Ei]; [lia|by rewrite Em' in Ei]).
  unfold id in Hid |- *. clear id Ei. rewrite Em' in Hid |- *.
  pose proof (principal_id_source is_user (trim (os_id spec)) (os_name spec) s) as [Hsrc Hpos].
  set (id := fst (principal_id _ _ _ _ _ _ _ _ _ _)) in *. intros Eb. exists id. split; [done|]. split; [done|].
  destruct (seqb op "add" || seqb op "edit" || seqb op "set") eqn:Es.
  - injection Eb as _ <- _. rewrite !orb_true_iff, !seqb_eq in Es.
    case_decide as Edel; [|by split; [tauto|]]. destruct Edel as [E|E]; rewrite E in Es; naive_solver.
  - destruct (seqb op "delete" || seqb op "del") eqn:Edel; [|done]. injection Eb as _ <- _.
    rewrite orb_true_iff, !seqb_eq in Edel. rewrite decide_True by done.
    replace (0 <? id) with true by lia. by destruct is_user.
Qed.
Lemma prepare_ops_safe is_file path specs s ops :
  fst (prep_ops is_file path specs s) = Ok ops ->
  Forall2 requested specs ops /\ Forall (op_safe is_file) ops.
Proof.
  revert s ops. induction specs as [|spec specs IH]; intros s ops.
  { cbn. by intros [= <-]. }
  cbn. intros (o & Ho & (rest & Hr & H)%bind_ok_inv)%bind_ok_inv. cbn in H. injection H as <-.
  apply prepare_op_safe in Ho as [Hs Hq]. apply IH in Hr as [Hl Hf]. by split; constructor.
Qed.

End PlanProps.

(** ** [acl_apply] *)
Section AclPlanProps.
Context (to_lowercase : string -> string).
Context (server : nat -> Query -> Attempt) (op_timeout_secs : Z).
Context (user_base group_base : string) (pa : PosixAttributeMapping).
Context (stat : Path -> option NodeMeta) (cfg : NfsKlldapConfig).
Context (gate : string -> AclGateView).

Lemma selected_nonzero tok k : selected_kind tok = Some k -> kind_id k <> 0.
Proof.
  unfold selected_kind. destruct (is_empty _); [done|].
  destruct (0 <? _) eqn:E; [|done]. intros [= <-]. destruct (starts_with _ _); cbn; lia.
Qed.

(** The ACL endpoint plans an edit only where the gate is open: the scope never
    reaches beyond a file, inheritance is for directories, principal 0 is never
    written or removed, and the directory spec is the file spec with read
    implying execute exactly on a directory. *)
Theorem plan_acl_safe form s p :
  fst (plan_acl to_lowercase server op_timeout_secs user_base group_base pa stat cfg gate form s) = Ok p ->
  let is_file := negb (match get_node_meta stat cfg (a_path form) with
                       | Some m => nm_is_dir m | None => false end) in
  ap_path p = a_path form /\ editable (gate (a_path form)) = true
  /\ (is_file = true -> ap_scope p = DirOnly)
  /\ op_safe is_file (ap_op p).
Proof.
  unfold plan_acl. destruct (editable (gate (a_path form))); [|done]. cbn [negb].
  set (nd := match get_node_meta _ _ _ with Some _ => _ | None => _ end).
  destruct (_ && negb nd) eqn:Ed; [done|]. rewrite bind_run.
  generalize (fst ((if acl_form_id form =? 0
      then principal_id server op_timeout_secs user_base group_base pa
             (seqb (to_lowercase (trim (a_op form))) "delete" || seqb (to_lowercase (trim (a_op form))) "mask")
             (is_user_typ (to_lowercase (trim (a_typ form)))) "" (a_name form)
      else ret (acl_form_id form)) s)) as id.
  intros id.
  set (exempt := seqb _ "delete" || _).
  destruct ((id =? 0) && negb exempt) eqn:Ei; [done|]. cbn.
  destruct (build_acl_modification _ _ _) as [[[dm fm] cmd]|] eqn:Eb; [|done]. intros [= <-]. cbn.
  split; [done|]. split; [done|]. split; [by destruct nd|].
  assert (Hd : eq_ignore_ascii_case (trim (a_layer form)) "default" = true -> negb nd = false).
  { intros H. rewrite H in Ed. by destruct nd. }
  revert Eb. unfold build_acl_modification. cbn. set (op := to_lowercase (trim (a_op form))) in *.
  destruct (seqb op "mask") eqn:Em; [intros [= <- <- <-]; cbn; by destruct nd|].
  destruct (seqb op "add" || seqb op "edit" || seqb op "set") eqn:Es.
  { intros [= <- <- <-]. cbn. split_and!; try done; [by destruct nd|].
    assert (seqb op "delete" = false) as Hdel.
    { apply seqb_neq. intros E. rewrite E in Es. discriminate Es. }
    subst exempt. rewrite Hdel, andb_true_r in Ei. destruct (is_user_typ _); cbn; lia. }
  destruct (seqb op "delete" || seqb op "del") eqn:Edel; [|done]. intros [= <- <- <-]. cbn.
  split_and!; try done.
  set (kinds := omap selected_kind _).
  assert (Hk : Forall (fun k => kind_id k <> 0) kinds).
  { apply Forall_forall. intros k (tok & _ & Ht)%list_elem_of_omap. by apply selected_nonzero in Ht. }
  destruct kinds; [|done]. destruct (0 <? id) eqn:E0; constructor; [|constructor].
  destruct (is_user_typ _); cbn; lia.
Qed.
End AclPlanProps.

(** ** Concrete requests *)
Definition open_gate : AclGateView :=
  {| editable := true; pill := "on"; pill_class := "on"; gv_short := ""; gv_long := "" |}.
Definition movies_dir : Path -> option NodeMeta :=
  fun _ => Some {| nm_uid := 1000; nm_gid := 1001; nm_mode := 1517; nm_is_dir := true |}.
Definition one_op : string -> option (list AclOpSpec) :=
  fun _ => Some [{| os_op := "set"; os_typ := "user"; os_id := "1002"; os_name := ""; os_perms := "r";
                    os_layer := "" |}].
Definition demo_form : ApplyForm :=
  {| f_path := "/media/movies/a"; f_owner_user := "nobody"; f_owner_group := ""; f_mode := "2750";
     f_recursive_scope := "all"; f_file_mode := ""; f_owner_user_uid := ""; f_owner_group_gid := "";
     f_acl_ops := "[...]" |}.
Definition demo_plan_of (form : ApplyForm) : L (result Plan Refusal) :=
  plan_apply (fun s => s) demo_server 15 "ou=people,dc=ex" "ou=groups,dc=ex" demo_mapping movies_dir
    demo_config (fun _ => open_gate) one_op form.
Definition demo_plan : Plan :=
  {| pl_path := "/media/movies/a"; pl_uid := 0; pl_gid := 1001;
     pl_spec := {| spec_mode := 1512; spec_scope := All; spec_file_mode := Some 416 |};
     pl_target_is_file := false;
     pl_acl := [{| ao_dir := AclSet (KUser 1002) {| p_r := true; p_w := false; p_x := true |} false;
                   ao_file := AclSet (KUser 1002) {| p_r := true; p_w := false; p_x := false |} false;
                   ao_cmd := "setfacl -m u:1002:r-x /media/movies/a"; ao_label := "set" |}] |}.
Lemma demo_planned : fst (demo_plan_of demo_form (new_client 0)) = Ok demo_plan.
Proof. vm_compute. reflexivity. Qed.

(** The name typed for an owner is normalized to decide whether it is one, but
    the directory is asked with the field as typed: a trailing space is enough
    for a known user not to be found. *)
Definition named_form (owner : string) : ApplyForm :=
  {| f_path := "/media/movies/a"; f_owner_user := owner; f_owner_group := ""; f_mode := "0750";
     f_recursive_scope := "none"; f_file_mode := ""; f_owner_user_uid := ""; f_owner_group_gid := "";
     f_acl_ops := "" |}.
(** A [uidNumber] of -1 in the directory becomes 4294967295, which [chown]
    takes for "leave the owner as it is". *)
Theorem negative_uid_wraps : as_u32 (-1) = 4294967295.
Proof. reflexivity. Qed.
(** A mode that is no octal number is not refused but replaced by 0770. *)
Theorem malformed_mode_is_0770 form :
  f_mode form = "75x" -> apply_mode form = 504 /\ oct (apply_mode form) = "770".
Proof. unfold apply_mode. intros ->. split; reflexivity. Qed.

(** A directory that knows one user by one name. *)
Definition ann_only (n : nat) (q : Query) : Attempt := {|
  a_connect := None; a_bind := None;
  a_search := fun _ =>
    Ok (if seqb (q_filter q) (user_filter_by_name demo_mapping "ann")
        then [{| e_dn := "uid=ann,ou=people,dc=ex";
                 e_attrs := {["uid" := ["ann"]; "uidNumber" := ["1234"]]} |}] else []);
  a_stalls := false; a_elapsed := 1 |}.
Definition ann_plan (form : ApplyForm) : result Plan Refusal :=
  fst (plan_apply (fun s => s) ann_only 15 "ou=people,dc=ex" "ou=groups,dc=ex" demo_mapping movies_dir
         demo_config (fun _ => open_gate) one_op form demo_client).

(** "ann (x)" is normalized to "ann", which the ACL fields resolve; the owner
    fields ask for "ann (x)" and report an unknown user. *)
Theorem owner_asked_as_typed :
  (pl_uid <$> (match ann_plan (named_form "ann") with Ok p => Some p | Err _ => None end)) = Some 1234
  /\ normalize_editor_search_query (Some "ann (x)") = Some "ann"
  /\ ann_plan (named_form "ann (x)") = Err (NotFound true "ann (x)")
  /\ ann_plan (named_form "ann ") = Err (NotFound true "ann ")
  /\ fst (principal_id ann_only 15 "ou=people,dc=ex" "ou=groups,dc=ex" demo_mapping false true "" "ann (x)"
            demo_client) = 1234.
Proof. vm_compute. split_and!; reflexivity. Qed.
