(* ===== verification/ApplyTask.v ===== *)
(** * Running a permission apply

    Models the back half of the permission handlers of
    [web/permission_tree.rs]: the single apply slot that requests claim, the
    task that walks the tree and then runs the staged ACL batch, the text of
    its log, the poll of [/apply-progress] and the cancel request.  The walks
    are those of FsManager.v, the plan that of PermPlan.v.  The cancel flag may
    be raised at any moment: what each read of it answers is an argument. *)

From S2P Require Import Prelude RustStr State Identity Config FsProbe Generate Acl FsManager Resolver LdapClient AclGate PermPlan.
Local Open Scope Z_scope.

(** ** The apply slot *)
(** Progress records are shared between the slot, the task and the poller; they
    live in a store, named by a number. *)
Record Prog := { finished : bool; cancel_flag : bool }.
Record Slots := {
  slot : option nat;        (* [AppState::apply_progress] *)
  progs : gmap nat Prog;
  tasks : gset nat;         (* spawned tasks that have not ended *)
  next : nat;
}.
Definition no_apply : Slots := {| slot := None; progs := ∅; tasks := ∅; next := 0 |}.
Definition live (s : Slots) (p : nat) : bool :=
  match progs s !! p with Some g => negb (finished g) | None => false end.
(** The courtesy check at the top of both handlers. *)
Definition apply_in_progress (s : Slots) : bool :=
  match slot s with Some p => live s p | None => false end.
(** One lock scope: check and set. *)
Definition try_claim_apply_slot (p : nat) (s : Slots) : bool * Slots :=
  if apply_in_progress s then (false, s)
  else (true, {| slot := Some p; progs := progs s; tasks := tasks s; next := next s |}).
(** [Arc::new(ApplyProgress::default())], the claim, and the spawn; a refused
    request drops its record. *)
Definition start_apply (s : Slots) : bool * Slots :=
  let p := next s in
  let '(claimed, s') := try_claim_apply_slot p s in
  if claimed
  then (true, {| slot := slot s'; progs := <[ p := {| finished := false; cancel_flag := false |} ]> (progs s');
                 tasks := {[ p ]} ∪ tasks s'; next := S p |})
  else (false, s).
Definition update_prog (p : nat) (f : Prog -> Prog) (s : Slots) : Slots :=
  {| slot := slot s; progs := alter f p (progs s); tasks := tasks s; next := next s |}.
(** The task stores [finished] and then ends; [FinishOnDrop] does the same when
    it panics before. *)
Definition mark_finished (p : nat) : Slots -> Slots :=
  update_prog p (fun g => {| finished := true; cancel_flag := cancel_flag g |}).
Definition end_task (p : nat) (s : Slots) : Slots :=
  let s := mark_finished p s in
  {| slot := slot s; progs := progs s; tasks := tasks s ∖ {[ p ]}; next := next s |}.
Definition cancel_apply (s : Slots) : Slots :=
  match slot s with
  | Some p => update_prog p (fun g => {| finished := finished g; cancel_flag := true |}) s
  | None => s
  end.
(** The status code of a poll: htmx stops on 286. *)
Definition poll_code (s : Slots) : Z := if apply_in_progress s then 200 else 286.

Inductive slot_step : Slots -> Slots -> Prop :=
| ss_start s : slot_step s (snd (start_apply s))
| ss_finished s p : p ∈ tasks s -> slot_step s (mark_finished p s)
| ss_end s p : p ∈ tasks s -> slot_step s (end_task p s)
| ss_cancel s : slot_step s (cancel_apply s).
Definition slot_reachable (s : Slots) : Prop := rtc slot_step no_apply s.

(** ** The task *)
(** What the reads of the cancel flag answer: during the scan and the walk,
    after the walk, before each ACL edit and during its scan and walk. *)
Record CancelReads := {
  in_scan : nat -> bool; in_walk : nat -> bool; after_walk : bool;
  before_op : nat -> bool; in_op_scan : nat -> nat -> bool; in_op_walk : nat -> nat -> bool;
}.
Definition map_error_text (e : MapError) : string :=
  match e with
  | ParentTraversal p => "Path " +:+ p +:+ " contains a parent-directory traversal"
  | NotUnderShare p => "Path " +:+ p +:+ " is not under any configured share host_path"
  end.
Definition error_text (e : ApplyError) : string :=
  match e with
  | OutsideRoots => "Path is outside allowed managed roots"
  | SetuidRefused => "Refusing setuid bit on a share path"
  | SpecialBitsRefused => "Refusing special bits (setuid/setgid/sticky) in the file mode"
  | Unmapped m => map_error_text m
  | FsManager.Failed m => m
  end.
Definition nat_text (n : nat) : string := dec (Z.of_nat n).
Definition nls2 : string := nls +:+ nls.

Definition posix_errors_text (errors : list (Path * string)) : string :=
  match errors with
  | [] => ""
  | _ =>
      nls2 +:+ "Errors:" +:+ nls
      +:+ join "" (map (fun '(p, msg) => "  " +:+ path_text p +:+ " — " +:+ msg +:+ nls) (take 5 errors))
      +:+ (if (5 <? length errors)%nat
           then "  ... and " +:+ nat_text (length errors - 5) +:+ " more" +:+ nls else "")
  end.
Definition fused_text (r : ApplyResult) (dir_mode : Z) : string :=
  if (r_fused_dir_count r =? 0)%nat then ""
  else nls +:+ join "" (map (fun p => nls +:+ "Directory " +:+ path_text p +:+ " set with "
             +:+ oct (Z.land dir_mode MODE_BITS)
             +:+ " to allow traversal (read implies execute on directories).") (r_fused_dirs r))
       +:+ (let more := (r_fused_dir_count r - length (r_fused_dirs r))%nat in
            if (0 <? more)%nat then nls +:+ "… and " +:+ nat_text more +:+ " more directories." else "").
Definition result_text (r : ApplyResult) (cancelled : option string) (dir_mode : Z) : string :=
  let base := "Result: " +:+ nat_text (r_changed r) +:+ " changed, " +:+ nat_text (r_skipped r)
              +:+ " skipped, " +:+ nat_text (length (r_errors r)) +:+ " errors" in
  (match cancelled with Some last => "CANCELLED after " +:+ last +:+ nls +:+ base | None => base end)
  +:+ posix_errors_text (r_errors r)
  +:+ (if (0 <? r_skipped r)%nat
       then nls +:+ "(skipped entries were typically symlinks — never followed for safety)" else "")
  +:+ fused_text r dir_mode.

Definition AclCalls := list (list Path * AclModification).
(** The scan of an ACL edit is over before its walk starts; [rtext] and the
    number of failed edits are what the batch adds to the log. *)
Record BatchEnd := { be_text : string; be_failed : nat; be_runs : list AclCalls }.

Section Task.
Context (walk : Path -> Z -> list WalkItem).
Context (setfacl : list Path -> AclModification -> option string).
Context (cfg : NfsKlldapConfig).

Definition fusion_note (o : AclOp) : string :=
  match ao_dir o, ao_file o with
  | AclSet _ d _, AclSet _ f _ =>
      if seqb (to_str d) (to_str f) then ""
      else " — directories fused to " +:+ to_str d +:+ " for traversal"
  | AclSetMask d _, AclSetMask f _ =>
      if seqb (to_str d) (to_str f) then ""
      else " — directory mask fused to " +:+ to_str d +:+ " for traversal"
  | _, _ => ""
  end.
(** The setfacl run of [apply_acl_mod], when the path may be managed. *)
Definition mod_calls (path : string) (m : AclModification) : AclCalls :=
  let normalized := normalize_for_matching path in
  if negb (is_allowed cfg normalized) then []
  else match host_path_to_container_path cfg normalized with Ok real => [([real], m)] | Err _ => [] end.
(** One ACL edit of the batch: whether it succeeded, its note, its runs. *)
Definition run_acl_op (c : CancelReads) (path : string) (sc : ApplyScope) (i : nat) (o : AclOp)
  : bool * string * AclCalls :=
  if is_dir_only sc then
    match apply_acl_mod setfacl cfg path (ao_dir o) with
    | Ok m => (true, m, mod_calls path (ao_dir o))
    | Err e => (false, error_text e, mod_calls path (ao_dir o))
    end
  else
    match count_acl_applicable_with_live walk (in_op_scan c i) cfg path (ao_dir o) sc with
    | Err e => (false, "scan failed: " +:+ error_text e, [])
    | Ok _ =>
        match apply_acl_with_progress walk setfacl (in_op_walk c i) cfg path (ao_dir o) (ao_file o) sc with
        | Err e => (false, error_text e, [])
        | Ok st =>
            (match a_errors st with [] => true | _ => false end,
             nat_text (a_changed st) +:+ " changed, " +:+ nat_text (a_skipped st) +:+ " skipped"
             +:+ match a_errors st with
                 | [] => ""
                 | e :: _ => ", " +:+ nat_text (length (a_errors st)) +:+ " errors (first: " +:+ snd e +:+ ")"
                 end,
             acl_calls st)
        end
    end.
Definition op_line (o : AclOp) (i total : nat) : string :=
  nls +:+ "ACL " +:+ ao_label o +:+ " (" +:+ nat_text (S i) +:+ "/" +:+ nat_text total +:+ ") ".
Fixpoint run_batch (c : CancelReads) (path : string) (sc : ApplyScope) (total i : nat) (ops : list AclOp)
  : BatchEnd :=
  match ops with
  | [] => {| be_text := ""; be_failed := 0; be_runs := [] |}
  | o :: rest =>
      if before_op c i then
        {| be_text := nls +:+ "ACL batch CANCELLED — " +:+ nat_text (total - i) +:+ " of "
                      +:+ nat_text total +:+ " ops not applied.";
           be_failed := 0; be_runs := [] |}
      else
        let '(ok, note, runs) := run_acl_op c path sc i o in
        if ok then
          let e := run_batch c path sc total (S i) rest in
          {| be_text := op_line o i total +:+ "OK: " +:+ note +:+ fusion_note o +:+ be_text e;
             be_failed := be_failed e; be_runs := runs :: be_runs e |}
        else
          {| be_text := op_line o i total +:+ "FAILED: " +:+ note +:+ " — remaining staged ACL edits skipped.";
             be_failed := 1; be_runs := [runs] |}
  end.
(** Everything the task does after the slot was claimed. *)
Record TaskEnd := {
  te_text : string;          (* [final_result_text] *)
  te_total : nat;            (* the scan's count *)
  te_posix : list PrivCall;  (* chown and chmod, in order *)
  te_acl : list AclCalls;    (* then the runs of each ACL edit *)
}.
Definition staged_text (c : CancelReads) (p : Plan) : BatchEnd :=
  match pl_acl p with
  | [] => {| be_text := ""; be_failed := 0; be_runs := [] |}
  | ops =>
      if after_walk c
      then {| be_text := nls2 +:+ "Staged ACL edits skipped (apply cancelled)."; be_failed := 0; be_runs := [] |}
      else run_batch c (pl_path p) (spec_scope (pl_spec p)) (length ops) 0 ops
  end.
Definition fresh_progress : ApplyProgress :=
  {| g_processed := 0; g_changed := 0; g_skipped := 0; g_error_count := 0; g_recent_errors := [];
     g_last_path := None |}.
Definition apply_task (k : Kernel) (c : CancelReads) (p : Plan) : TaskEnd :=
  let total := match count_applicable_with_live walk (in_scan c) cfg (pl_path p) (spec_scope (pl_spec p)) with
               | Ok n => n | Err _ => 0%nat end in
  let '(r, st) := apply_permissions_with_progress walk k (in_walk c) cfg (pl_path p) (pl_uid p) (pl_gid p)
                    (pl_spec p) fresh_progress in
  match r with
  | Err e =>
      {| te_text := "Apply error during walk: " +:+ error_text e; te_total := total;
         te_posix := calls st; te_acl := [] |}
  | Ok r =>
      let last := default (pl_path p) (path_text <$> g_last_path (prog st)) in
      let b := staged_text c p in
      {| te_text := result_text r (if after_walk c then Some last else None)
                      (dir_mode_r_implies_x (spec_mode (pl_spec p))) +:+ be_text b;
         te_total := total; te_posix := calls st; te_acl := be_runs b |}
  end.

(** The task of [/acl-apply]: the final text and the runs. *)
Definition acl_task (c : CancelReads) (p : AclPlan) : string * AclCalls :=
  let o := ap_op p in
  let head := "ACL " +:+ ao_label o +:+ " " in
  if is_dir_only (ap_scope p) then
    match apply_acl_mod setfacl cfg (ap_path p) (ao_dir o) with
    | Ok m => (head +:+ "OK: " +:+ m, mod_calls (ap_path p) (ao_dir o))
    | Err e => (head +:+ "failed: " +:+ error_text e, mod_calls (ap_path p) (ao_dir o))
    end
  else
    match count_acl_applicable_with_live walk (in_scan c) cfg (ap_path p) (ao_dir o) (ap_scope p) with
    | Err e => (head +:+ "failed during scan: " +:+ error_text e, [])
    | Ok _ =>
        match apply_acl_with_progress walk setfacl (in_walk c) cfg (ap_path p) (ao_dir o) (ao_file o) (ap_scope p) with
        | Err e => (head +:+ "failed: " +:+ error_text e, [])
        | Ok st =>
            (head +:+ (if after_walk c then "CANCELLED (partial)"
                       else match a_errors st with [] => "OK" | _ => "finished with errors" end)
             +:+ ": " +:+ nat_text (a_changed st) +:+ " changed, " +:+ nat_text (a_skipped st) +:+ " skipped"
             +:+ match a_errors st with
                 | [] => ""
                 | e :: _ => ", " +:+ nat_text (length (a_errors st)) +:+ " errors (first: " +:+ snd e +:+ ")"
                 end,
             acl_calls st)
        end
    end.
End Task.

(** ** The log *)
Definition q (s : string) : string := dq +:+ s +:+ dq.
Definition apply_log_shell (inner_html : string) (active_cancel finished oob : bool) : string :=
  "<div id=" +:+ q "apply-status" +:+ (if oob then " hx-swap-oob=" +:+ q "true" else "")
  +:+ " class=" +:+ q "apply-status" +:+ (if finished then " data-apply-finished=" +:+ q "true" else "")
  +:+ ">" +:+ nls +:+ "    <div class=" +:+ q "apply-status-hd" +:+ ">" +:+ nls
  +:+ "      <span>Apply Log</span>" +:+ nls +:+ "      "
  +:+ (if active_cancel
       then "<button type=" +:+ q "button" +:+ " onclick="
            +:+ q "if (window.PermUI) window.PermUI.cancelCurrentApply();"
            +:+ " class=" +:+ q "btn apply-cancel" +:+ ">Cancel Apply</button>"
       else "<button type=" +:+ q "button" +:+ " disabled class=" +:+ q "btn apply-cancel"
            +:+ ">Cancel Apply</button>")
  +:+ nls +:+ "    </div>" +:+ nls +:+ "    <div id=" +:+ q "apply-status-content" +:+ " class="
  +:+ q "apply-status-content apply-log-content" +:+ ">" +:+ nls +:+ inner_html +:+ nls
  +:+ "    </div>" +:+ nls +:+ "</div>".
Definition render_apply_status_oob (cmd result_or_live : string) (active_cancel : bool) : string :=
  apply_log_shell ("<strong>Command</strong>" +:+ nls +:+ cmd +:+ nls2 +:+ "<strong>Status</strong>" +:+ nls
                   +:+ result_or_live) active_cancel (negb active_cancel) true.
(** What the poller reads of a progress record. *)
Record Reading := {
  rd_total : nat; rd_proc : nat; rd_changed : nat; rd_skipped : nat; rd_errors : nat;
  rd_phase : string; rd_finished : bool; rd_cmd : option string; rd_final : option string;
}.
Definition spin (n : nat) : string :=
  match (n mod 4)%nat with 0%nat => "|" | 1%nat => "/" | 2%nat => "-" | _ => "\" end.
(** [((proc as f64 * 100.0) / total as f64) as u32]; the division of two
    [f64] is an argument. *)
Definition live_text (percent : nat -> nat -> Z) (r : Reading) : string :=
  if rd_finished r then default "Finished." (rd_final r)
  else if (rd_total r =? 0)%nat then
    "Stand-by, estimating total... scanned " +:+ nat_text (rd_proc r) +:+ " so far " +:+ spin (rd_proc r)
  else "Phase: " +:+ rd_phase r +:+ nls +:+ "Processed: " +:+ nat_text (rd_proc r) +:+ "/"
       +:+ nat_text (rd_total r) +:+ " (" +:+ dec (percent (rd_proc r) (rd_total r)) +:+ "%)" +:+ nls
       +:+ "changed: " +:+ nat_text (rd_changed r) +:+ "  skipped: " +:+ nat_text (rd_skipped r)
       +:+ "  errors: " +:+ nat_text (rd_errors r).
Definition apply_progress (percent : nat -> nat -> Z) (slot : option Reading) : Z * string :=
  match slot with
  | Some r =>
      (if rd_finished r then 286 else 200,
       render_apply_status_oob (default "" (rd_cmd r)) (live_text percent r) (negb (rd_finished r)))
  | None =>
      (286, apply_log_shell ("<em class=" +:+ q "placeholder-note" +:+ ">No permission apply in progress.</em>")
              false false true)
  end.

(** The command lines shown for a plan. *)
Definition scope_name (s : ApplyScope) : string :=
  match s with All => "all" | ImmediateFiles => "single" | DirOnly => "none" end.
Definition posix_cmd (p : Plan) : string :=
  let ids := dec (pl_uid p) +:+ ":" +:+ dec (pl_gid p) in
  let path := pl_path p in
  let mode := spec_mode (pl_spec p) in
  let fm := oct (default (Z.land mode RW_BITS) (spec_file_mode (pl_spec p))) in
  if pl_target_is_file p then "chown " +:+ ids +:+ " " +:+ path +:+ nls +:+ "chmod " +:+ oct mode +:+ " " +:+ path
  else match spec_scope (pl_spec p) with
       | All => "chown " +:+ ids +:+ " -R " +:+ path +:+ nls +:+ "chmod -R dirs=" +:+ oct mode +:+ " files="
                +:+ fm +:+ " " +:+ path
       | ImmediateFiles =>
           "chown " +:+ ids +:+ " " +:+ path +:+ " (+ files directly inside)" +:+ nls +:+ "chmod dirs="
           +:+ oct mode +:+ " files=" +:+ fm +:+ " " +:+ path +:+ " (single directory)"
       | DirOnly => "chown " +:+ ids +:+ " " +:+ path +:+ nls +:+ "chmod " +:+ oct mode +:+ " " +:+ path
                    +:+ " (directory only)"
       end.
Definition mode_warning (p : Plan) : string :=
  let mode := spec_mode (pl_spec p) in
  let dir_mode := dir_mode_r_implies_x mode in
  if negb (pl_target_is_file p) && negb (dir_mode =? mode)
  then nls +:+ "note: the directory mode applies as " +:+ oct dir_mode
       +:+ " — read implies execute on directories (r-without-x lists as empty over NFS)"
  else "".
Definition staged_line (sc : ApplyScope) (name : string) (o : AclOp) : string :=
  if is_dir_only sc then ao_cmd o
  else match ao_file o with
       | AclSet _ p _ => ao_cmd o +:+ " [scope: " +:+ name +:+ ", files: " +:+ to_str p +:+ "]"
       | _ => ao_cmd o +:+ " [scope: " +:+ name +:+ "]"
       end.
Definition plan_cmd (p : Plan) : string :=
  let sc := spec_scope (pl_spec p) in
  posix_cmd p +:+ mode_warning p
  +:+ match pl_acl p with
      | [] => ""
      | ops => nls +:+ join nls (map (staged_line sc (scope_name sc)) ops)
      end.

(** ** One apply at a time *)
Definition slot_inv (s : Slots) : Prop :=
  (forall p, live s p = true -> slot s = Some p /\ p ∈ tasks s)
  /\ (forall p, is_Some (progs s !! p) -> (p < next s)%nat).
Lemma slot_in_progress s :
  slot_inv s -> (apply_in_progress s = false <-> forall p, live s p = false).
Proof.
  intros [H _]. unfold apply_in_progress. split.
  - intros E p. destruct (live s p) eqn:Ep; [|done]. destruct (H p Ep) as [Hs _].
    rewrite Hs in E. congruence.
  - intros E. by destruct (slot s).
Qed.
Lemma live_update s p f x :
  live (update_prog p f s) x =
  match progs s !! x with
  | Some g => negb (finished (if decide (x = p) then f g else g)) | None => false end.
Proof.
  unfold live, update_prog. cbn. case_decide as E.
  - subst. rewrite lookup_alter_eq. by destruct (progs s !! p).
  - by rewrite lookup_alter_ne.
Qed.
Lemma inv_update s p f :
  (forall g, finished g = true -> finished (f g) = true) -> slot_inv s -> slot_inv (update_prog p f s).
Proof.
  intros Hf [H1 H2]. split.
  - intros x. rewrite live_update. intros Hx. apply H1. unfold live.
    destruct (progs s !! x) as [g|]; [|done]. destruct (decide _); [|done].
    destruct (finished g) eqn:E; [by rewrite (Hf g E) in Hx|done].
  - intros x Hx. apply H2. cbn in Hx. destruct (decide (x = p)) as [->|].
    + rewrite lookup_alter_eq in Hx. by apply fmap_is_Some in Hx.
    + by rewrite lookup_alter_ne in Hx.
Qed.
Lemma slot_inv_step s s' : slot_inv s -> slot_step s s' -> slot_inv s'.
Proof.
  intros Hi Hs. destruct Hs as [s|s p Hp|s p Hp|s].
  - unfold start_apply, try_claim_apply_slot. destruct (apply_in_progress s) eqn:E; [done|]. cbn.
    destruct Hi as [H1 H2]. pose proof (proj1 (slot_in_progress s (conj H1 H2)) E) as Hnone. split.
    + intros x. unfold live. cbn. destruct (decide (x = next s)) as [->|Hne].
      { rewrite lookup_insert_eq. intros _. split; [done|set_solver]. }
      rewrite lookup_insert_ne by done. intros Hx. specialize (Hnone x). unfold live in Hnone.
      congruence.
    + intros x Hx. cbn in Hx |- *. destruct (decide (x = next s)) as [->|Hne]; [lia|].
      rewrite lookup_insert_ne in Hx by done. apply H2 in Hx. lia.
  - apply inv_update; [by intros g|done].
  - unfold end_task, mark_finished.
    assert (Hu : slot_inv (update_prog p (fun g => {| finished := true; cancel_flag := cancel_flag g |}) s))
      by (apply inv_update; [by intros g|done]).
    destruct Hu as [H1 H2]. split; [|exact H2]. intros x Hx.
    destruct (H1 x Hx) as [Hsl Hin]. split; [exact Hsl|]. cbn.
    assert (x <> p); [|set_solver]. intros ->. revert Hx. unfold live. cbn.
    rewrite lookup_alter_eq. by destruct (progs s !! p).
  - unfold cancel_apply. destruct (slot s); [|done]. apply inv_update; [by intros g|done].
Qed.
Lemma slot_reachable_inv s : slot_reachable s -> slot_inv s.
Proof.
  intros H. cut (slot_inv no_apply).
  - induction H as [|a b c Hab _ IH]; [done|]. intros Ha. apply IH. by eapply slot_inv_step.
  - split; [by intros p|]. intros p [g Hg]. cbn in Hg. by rewrite lookup_empty in Hg.
Qed.

(** C28: there is at most one unfinished apply, the one in the slot, and its task is
    still running: a request starts an apply exactly when none is unfinished,
    the poller is told to stop exactly then, a cancel reaches the unfinished
    apply and nothing else, and the end of its task (also by a panic) frees the
    slot. *)
Theorem one_apply_at_a_time s :
  slot_reachable s ->
  (forall p p', live s p = true -> live s p' = true -> p = p')
  /\ (forall p, live s p = true -> slot s = Some p /\ p ∈ tasks s)
  /\ (fst (start_apply s) = true <-> forall p, live s p = false)
  /\ (poll_code s = 286 <-> forall p, live s p = false)
  /\ (fst (start_apply s) = true -> live (snd (start_apply s)) (next s) = true)
  /\ (forall p g, live s p = true -> progs s !! p = Some g ->
        progs (cancel_apply s) !! p = Some {| finished := false; cancel_flag := true |}
        /\ forall p', p' <> p -> progs (cancel_apply s) !! p' = progs s !! p')
  /\ (forall p, live s p = true -> fst (start_apply (end_task p s)) = true).
Proof.
  intros Hr. pose proof (slot_reachable_inv s Hr) as Hi. pose proof Hi as [H1 H2].
  assert (Hst : forall x, fst (start_apply x) = negb (apply_in_progress x)).
  { intros x. unfold start_apply, try_claim_apply_slot. by destruct (apply_in_progress x). }
  split_and!.
  - intros p p' Hp Hp'. destruct (H1 p Hp) as [E _]. destruct (H1 p' Hp') as [E' _]. congruence.
  - exact H1.
  - rewrite Hst, <- (slot_in_progress s Hi). by destruct (apply_in_progress s).
  - rewrite <- (slot_in_progress s Hi). unfold poll_code. by destruct (apply_in_progress s).
  - unfold start_apply, try_claim_apply_slot. destruct (apply_in_progress s); [done|]. intros _.
    unfold live. cbn. by rewrite lookup_insert_eq.
  - intros p g Hl Hg. destruct (H1 p Hl) as [E _]. unfold cancel_apply. rewrite E. cbn.
    rewrite lookup_alter_eq, Hg. cbn. unfold live in Hl. rewrite Hg in Hl.
    split; [by destruct (finished g)|]. intros p' Hp'. by rewrite lookup_alter_ne.
  - intros p Hl. rewrite Hst. destruct (H1 p Hl) as [E _]. unfold apply_in_progress. cbn. rewrite E.
    unfold live. cbn. rewrite lookup_alter_eq. by destruct (progs s !! p).
Qed.
Lemma one_apply_at_a_time_witness :
  let s := snd (start_apply no_apply) in
  poll_code s = 200 /\ fst (start_apply s) = false /\ fst (start_apply (end_task 0 s)) = true.
Proof.
  cbv zeta. set (s := snd (start_apply no_apply)).
  assert (Hr : slot_reachable s) by (apply rtc_once, ss_start).
  split; [reflexivity|]. split; [reflexivity|].
  destruct (one_apply_at_a_time s Hr) as (_ & _ & _ & _ & _ & _ & H). apply H. reflexivity.
Defined.

(** ** The order of an apply *)
Section TaskProps.
Context (walk : Path -> Z -> list WalkItem).
Context (setfacl : list Path -> AclModification -> option string).
Context (cfg : NfsKlldapConfig).
Local Abbreviation run_op := (run_acl_op walk setfacl cfg).
Local Abbreviation run_b := (run_batch walk setfacl cfg).
Definition op_ok (r : bool * string * AclCalls) : bool := fst (fst r).

(** The batch runs the edits in order, up to the first that fails or the first
    cancel seen before one. *)
Lemma run_batch_spec c path sc total i ops :
  exists k, (k <= length ops)%nat
    /\ be_runs (run_b c path sc total i ops) = imap (fun j o => snd (run_op c path sc (i + j) o)) (take k ops)
    /\ (forall j o, (S j < k)%nat -> ops !! j = Some o ->
          op_ok (run_op c path sc (i + j) o) = true)
    /\ (forall j, (j < k)%nat -> before_op c (i + j) = false)
    /\ ((k < length ops)%nat -> before_op c (i + k) = true
        \/ exists j o, k = S j /\ ops !! j = Some o /\ op_ok (run_op c path sc (i + j) o) = false).
Proof.
  revert i. induction ops as [|o ops IH]; intros i.
  { exists 0%nat. cbn. split_and!; [done|done|lia|lia|lia]. }
  cbn [run_batch]. destruct (before_op c i) eqn:Eb.
  { exists 0%nat. cbn. split_and!; [lia|done|lia|lia|]. intros _. left. by rewrite Nat.add_0_r. }
  destruct (run_op c path sc i o) as [[ok note] runs] eqn:Er.
  destruct ok.
  - destruct (IH (S i)) as (k & Hk & Hruns & Hok & Hb & Hend). exists (S k). cbn.
    rewrite Nat.add_0_r, Er. split_and!.
    + lia.
    + f_equal. rewrite Hruns. apply imap_ext. intros j x _. cbn. by rewrite Nat.add_succ_r.
    + intros [|j] x Hj Hx.
      * cbn in Hx. injection Hx as <-. by rewrite Nat.add_0_r, Er.
      * rewrite Nat.add_succ_r. apply (Hok j x); [lia|exact Hx].
    + intros [|j] Hj; [by rewrite Nat.add_0_r|]. rewrite Nat.add_succ_r. apply (Hb j). lia.
    + intros Hl. rewrite Nat.add_succ_r. destruct (Hend ltac:(lia)) as [H|(j & x & -> & Hx & Hf)]; [by left|].
      right. exists (S j), x. rewrite Nat.add_succ_r. done.
  - exists 1%nat. cbn. rewrite take_0, Nat.add_0_r, Er. cbn. split_and!; [lia|done|lia| |].
    + intros j Hj. assert (j = 0)%nat as -> by lia. by rewrite Nat.add_0_r.
    + intros _. right. exists 0%nat, o. rewrite Nat.add_0_r, Er. done.
Qed.

(** The runs of one edit: its own two specs, on the node or on entries of the
    walk from the mapped path. *)
Lemma run_op_calls c path sc i o paths m :
  (paths, m) ∈ snd (run_op c path sc i o) ->
  (m = ao_dir o \/ m = ao_file o)
  /\ exists target, host_path_to_container_path cfg (normalize_path path) = Ok target
       /\ forall p, p ∈ paths -> p = target \/ exists e, WEntry e ∈ walk target (max_depth sc) /\ e_path e = p.
Proof.
  unfold run_acl_op. destruct (is_dir_only sc).
  { assert (H : (paths, m) ∈ mod_calls cfg path (ao_dir o) ->
      (m = ao_dir o \/ m = ao_file o)
      /\ exists target, host_path_to_container_path cfg (normalize_path path) = Ok target
       /\ forall p, p ∈ paths -> p = target \/ exists e, WEntry e ∈ walk target (max_depth sc) /\ e_path e = p).
    { unfold mod_calls. destruct (negb _); [by intros ?%elem_of_nil|].
      fold (normalize_for_matching path).
      destruct (host_path_to_container_path cfg _) as [real|]; [|by intros ?%elem_of_nil].
      intros [= -> ->]%list_elem_of_singleton. split; [by left|]. exists real. split; [done|].
      intros p ->%list_elem_of_singleton. by left. }
    by destruct (apply_acl_mod setfacl cfg path (ao_dir o)). }
  destruct (count_acl_applicable_with_live _ _ _ _ _ _); [|by intros ?%elem_of_nil].
  destruct (apply_acl_with_progress walk setfacl (in_op_walk c i) cfg path (ao_dir o) (ao_file o) sc)
    as [st|] eqn:Ea; [|by intros ?%elem_of_nil].
  apply acl_runs_partition in Ea as (target & runs & Ht & Hc & Hd & Hf & _). cbn [snd].
  rewrite Hc. intros ([d l] & Heq & Hin)%list_elem_of_fmap. injection Heq as -> ->.
  split; [cbn; destruct d; auto|]. exists target. split; [exact Ht|]. cbn [snd]. intros p Hp.
  right. assert (Hmem : p ∈ concat (chunks d runs)).
  { apply list_elem_of_In, in_concat. exists l. split; [|by apply list_elem_of_In].
    apply in_map_iff. exists (d, l). split; [done|]. apply filter_In. cbn.
    split; [by apply list_elem_of_In|apply eqb_reflx]. }
  assert (Happ : exists e, e ∈ acl_applied {| scope := sc; file_mode := None; continue_on_error := true |}
      (is_default (ao_dir o)) (visited (in_op_walk c i) 0 (walk target (max_depth sc))) /\ e_path e = p).
  { destruct d; [rewrite Hd in Hmem|rewrite Hf in Hmem];
      apply list_elem_of_fmap in Hmem as (e & -> & He);
      apply elem_of_filter_In in He; exists e; naive_solver. }
  destruct Happ as (e & He & <-). exists e. split; [|done].
  apply list_elem_of_omap in He as (it & Hit & He). apply visited_incl in Hit.
  unfold applied_entry in He. destruct it as [e'|]; [|done]. destruct (acl_entry_applies _ _ _); by simplify_eq.
Qed.

Lemma staged_spec c p :
  exists j, (j <= length (pl_acl p))%nat
    /\ be_runs (staged_text walk setfacl cfg c p)
       = imap (fun i o => snd (run_op c (pl_path p) (spec_scope (pl_spec p)) i o)) (take j (pl_acl p))
    /\ (forall i o, (S i < j)%nat -> pl_acl p !! i = Some o ->
          op_ok (run_op c (pl_path p) (spec_scope (pl_spec p)) i o) = true)
    /\ ((0 < j)%nat -> after_walk c = false)
    /\ ((j < length (pl_acl p))%nat ->
          after_walk c = true \/ before_op c j = true
          \/ exists i o, j = S i /\ pl_acl p !! i = Some o
               /\ op_ok (run_op c (pl_path p) (spec_scope (pl_spec p)) i o) = false).
Proof.
  unfold staged_text. destruct (pl_acl p) as [|o ops] eqn:Ea.
  { exists 0%nat. cbn. split_and!; [done|done|lia|lia|lia]. }
  destruct (after_walk c).
  { exists 0%nat. cbn. split_and!; [lia|done|lia|lia|auto]. }
  destruct (run_batch_spec c (pl_path p) (spec_scope (pl_spec p)) (length (o :: ops)) 0 (o :: ops))
    as (j & Hj & Hruns & Hok & _ & Hend).
  exists j. split_and!; [exact Hj|exact Hruns|exact Hok|done|exact (fun H => or_intror (Hend H))].
Qed.

(** C20: an apply is the POSIX pass first and then the staged ACL edits in their
    order, up to the first one that fails or the first cancel that is seen: an
    edit is only reached when the walk ended without a hard error, nobody had
    cancelled by then, and every edit before it succeeded completely.  Each
    [setfacl] run carries one of the two specs of its own edit, on paths of the
    requested tree. *)
Theorem apply_runs_in_order k c p :
  let e := apply_task walk setfacl cfg k c p in
  let w := apply_permissions_with_progress walk k (in_walk c) cfg (pl_path p) (pl_uid p) (pl_gid p)
             (pl_spec p) fresh_progress in
  te_posix e = calls (snd w)
  /\ exists j, (j <= length (pl_acl p))%nat
    /\ te_acl e = imap (fun i o => snd (run_op c (pl_path p) (spec_scope (pl_spec p)) i o)) (take j (pl_acl p))
    /\ (forall i o, (S i < j)%nat -> pl_acl p !! i = Some o ->
          op_ok (run_op c (pl_path p) (spec_scope (pl_spec p)) i o) = true)
    /\ ((0 < j)%nat -> is_ok (fst w) = true /\ after_walk c = false)
    /\ ((j < length (pl_acl p))%nat ->
          is_ok (fst w) = false \/ after_walk c = true \/ before_op c j = true
          \/ exists i o, j = S i /\ pl_acl p !! i = Some o
               /\ op_ok (run_op c (pl_path p) (spec_scope (pl_spec p)) i o) = false)
    /\ (forall runs paths m, runs ∈ te_acl e -> (paths, m) ∈ runs ->
          exists o, o ∈ pl_acl p /\ (m = ao_dir o \/ m = ao_file o)
          /\ exists target, host_path_to_container_path cfg (normalize_path (pl_path p)) = Ok target
             /\ forall x, x ∈ paths -> x = target
                  \/ exists d, WEntry d ∈ walk target (max_depth (spec_scope (pl_spec p))) /\ e_path d = x).
Proof.
  cbv zeta. unfold apply_task.
  destruct (apply_permissions_with_progress _ _ _ _ _ _ _ _ _) as [r st]. cbn [fst snd].
  destruct r as [r|err].
  2:{ cbn. split; [done|]. exists 0%nat. cbn. split_and!; [lia|done|lia|lia|auto|set_solver]. }
  cbn [te_posix te_acl is_ok]. split; [done|].
  destruct (staged_spec c p) as (j & Hj & Hruns & Hok & Hc & Hend). exists j.
  split_and!; [exact Hj|exact Hruns|exact Hok|auto|intros H; right; auto|].
  intros runs paths m Hin Hm. rewrite Hruns in Hin.
  apply list_elem_of_lookup in Hin as (i & Hi). rewrite list_lookup_imap in Hi.
  apply fmap_Some in Hi as (o & Ho & ->). apply run_op_calls in Hm as [Hm Ht].
  exists o. split; [|by split]. apply lookup_take_Some in Ho as [Ho _]. by eapply list_elem_of_lookup_2.
Qed.
End TaskProps.

(** ** Two weak spots *)
Definition never : CancelReads :=
  {| in_scan := fun _ => false; in_walk := fun _ => false; after_walk := false;
     before_op := fun _ => false; in_op_scan := fun _ _ => false; in_op_walk := fun _ _ => false |}.
Definition kernel_ok : Kernel := {| chown_err := fun _ => None; chmod_err := fun _ => None |}.
Definition run_demo (c : CancelReads) : TaskEnd :=
  apply_task demo_walk (fun _ _ => None) demo_config kernel_ok c demo_plan.

(** A cancel seen inside the last ACL edit stops its walk, but the log calls
    the edit OK and does not mention the cancel (the ACL endpoint says
    "CANCELLED (partial)"). *)
Definition cancel_in_edit : CancelReads :=
  {| in_scan := fun _ => false; in_walk := fun _ => false; after_walk := false;
     before_op := fun _ => false; in_op_scan := fun _ _ => false; in_op_walk := fun _ _ => true |}.
Theorem cancelled_edit_reported_ok :
  te_acl (run_demo cancel_in_edit) = [[]]
  /\ length (concat (te_acl (run_demo never))) = 2%nat
  /\ contains_str "ACL set (1/1) OK: 0 changed" (te_text (run_demo cancel_in_edit)) = true
  /\ contains_str "CANCELLED" (te_text (run_demo cancel_in_edit)) = false.
Proof. vm_compute. split_and!; reflexivity. Qed.

(** File names reach the log page unescaped: a name written by an NFS user is
    markup in the browser of the administrator who applies permissions. *)
Definition evil_name : string := "<img src=x onerror=alert(1)>".
Definition evil_walk (root : Path) (d : Z) : list WalkItem :=
  [WEntry {| e_path := root ++ [Normal evil_name]; e_kind := KFile; e_depth := 1 |}].
Definition read_only : Kernel :=
  {| chown_err := fun _ => Some "Read-only file system"; chmod_err := fun _ => None |}.
Definition evil_log : string :=
  let e := apply_task evil_walk (fun _ _ => None) demo_config read_only never demo_plan in
  snd (apply_progress (fun _ _ => 100)
         (Some {| rd_total := 1; rd_proc := 1; rd_changed := 0; rd_skipped := 0; rd_errors := 1;
                  rd_phase := "applying"; rd_finished := true; rd_cmd := Some (plan_cmd demo_plan);
                  rd_final := Some (te_text e) |})).
Theorem log_page_unescaped : contains_str evil_name evil_log = true.
Proof. vm_compute. reflexivity. Qed.
