(* ===== verification/PermViews.v ===== *)
(** * The permission pages

    Models what [web/permission_tree.rs] and [fs.rs] show: the listing of a
    directory, the category of a file, the friendly owner names, the panel of a
    node with its ACL rows, the owner and group searches, and the share cards.
    What a page shows is a record; the HTML around it (the [askama] templates)
    is not modelled.  [read_dir], [stat] and the getfacl runs answer for the
    file system, [to_lowercase] is Rust's Unicode lower-casing and [fmt_mtime]
    the [time] crate's rendering of a date. *)

From S2P Require Import Prelude RustStr State Identity Config FsProbe Generate Acl FsManager Resolver LdapClient FsWarnings AclGate PermPlan ApplyTask.
Local Open Scope Z_scope.

(** ** Categories of files *)
Inductive FileKindLabel :=
| KText | KCode | KImage | KAudio | KVideo | KDisc | KSoft | KWin | KDos | KFont | KData | KUnknown.
#[export] Instance file_kind_label_eq_dec : EqDecision FileKindLabel.
Proof. solve_decision. Defined.
Definition kind_label (k : FileKindLabel) : string * string :=
  match k with
  | KText => ("📄", "text / document") | KCode => ("📜", "script / code")
  | KImage => ("🖼️", "image") | KAudio => ("🎵", "audio") | KVideo => ("🎬", "video")
  | KDisc => ("💿", "disk image") | KSoft => ("📦", "software / binary")
  | KWin => ("🪟", "Windows / WINE") | KDos => ("💾", "DOS") | KFont => ("🔤", "font")
  | KData => ("🗄️", "data / archive") | KUnknown => ("❔", "unknown type")
  end.
(** Names that decide by themselves, and extensions. *)
Definition name_pins : list (FileKindLabel * list string) := [
  (KText,
    ["readme"; "license"; "licence"; "copying"; "changelog"; "changes"; "install"; "authors";
     "contributors"; "news"; "todo"; "notice"; "version"; ".gitignore"; ".gitattributes";
     ".gitconfig"; ".gitmodules"; ".editorconfig"; ".dockerignore"; ".env"; ".npmrc"]);
  (KCode,
    ["makefile"; "gnumakefile"; "dockerfile"; "containerfile"; "vagrantfile"; "jenkinsfile";
     "justfile"; "rakefile"; "gemfile"; "kconfig"; ".bashrc"; ".zshrc"; ".profile";
     ".bash_profile"; ".bash_aliases"; ".vimrc"; "go.mod"; "go.sum"]);
  (KDos,
    ["config.sys"])
].
Definition ext_kinds : list (FileKindLabel * list string) := [
  (KText,
    ["txt"; "text"; "md"; "markdown"; "mdown"; "rst"; "adoc"; "asciidoc"; "org"; "tex"; "log";
     "rtf"; "pdf"; "doc"; "docx"; "odt"; "odp"; "ods"; "xls"; "xlsx"; "ppt"; "pptx"; "epub";
     "mobi"; "csv"; "tsv"; "conf"; "cfg"; "cnf"; "ini"; "toml"; "yaml"; "yml"; "json"; "json5";
     "jsonl"; "ndjson"; "xml"; "xsl"; "xslt"; "man"; "po"; "pot"; "ics"; "vcf"; "srt"; "sub";
     "vtt"; "ass"; "ssa"; "idx"; "nfo"; "pem"; "crt"; "cer"; "csr"; "key"; "pub"; "asc";
     "desktop"; "service"; "timer"; "socket"; "mount"; "automount"; "target"; "path"; "netdev";
     "network"; "link"; "swap"; "rules"; "repo"; "list"; "spec"; "properties"; "env"]);
  (KCode,
    ["sh"; "bash"; "zsh"; "ksh"; "csh"; "tcsh"; "fish"; "ps1"; "psm1"; "py"; "pyw"; "pyi";
     "ipynb"; "rb"; "erb"; "pl"; "pm"; "php"; "phtml"; "lua"; "tcl"; "awk"; "c"; "h"; "i";
     "cpp"; "cxx"; "cc"; "hpp"; "hxx"; "hh"; "m"; "mm"; "cs"; "java"; "jsp"; "kt"; "kts";
     "scala"; "groovy"; "go"; "rs"; "swift"; "dart"; "zig"; "nim"; "vala"; "d"; "jl"; "r";
     "rmd"; "hs"; "lhs"; "ml"; "mli"; "erl"; "hrl"; "ex"; "exs"; "clj"; "cljs"; "edn"; "lisp";
     "el"; "scm"; "rkt"; "f"; "f77"; "f90"; "f95"; "for"; "asm"; "s"; "pas"; "ada"; "adb";
     "ads"; "cob"; "cbl"; "js"; "mjs"; "cjs"; "jsx"; "tsx"; "vue"; "svelte"; "html"; "htm";
     "xhtml"; "css"; "scss"; "sass"; "less"; "sql"; "psql"; "cmake"; "mk"; "mak"; "m4";
     "gradle"; "sbt"; "bzl"; "nix"; "tf"; "tfvars"; "proto"; "thrift"; "graphql"; "gql";
     "patch"; "diff"; "vim"]);
  (KImage,
    ["jpg"; "jpeg"; "jpe"; "jfif"; "png"; "apng"; "gif"; "webp"; "svg"; "svgz"; "bmp"; "dib";
     "tif"; "tiff"; "heic"; "heif"; "avif"; "jxl"; "ico"; "icns"; "eps"; "psd"; "xcf"; "tga";
     "exr"; "hdr"; "qoi"; "jp2"; "j2k"; "xpm"; "xbm"; "pbm"; "pgm"; "ppm"; "pnm"; "emf"; "wmf";
     "cr2"; "cr3"; "nef"; "arw"; "orf"; "rw2"; "raf"; "dng"; "pef"]);
  (KAudio,
    ["mp3"; "flac"; "ogg"; "oga"; "opus"; "wav"; "aac"; "m4a"; "m4b"; "aiff"; "aif"; "aifc";
     "ape"; "wv"; "wma"; "mid"; "midi"; "kar"; "mka"; "amr"; "ra"; "ram"; "au"; "snd"; "dsf";
     "dff"; "spx"; "caf"; "ac3"; "dts"; "mpa"; "gsm"; "mpc"; "tta"; "mod"; "xm"; "it"; "s3m";
     "sid"; "m3u"; "m3u8"; "pls"]);
  (KVideo,
    ["mp4"; "mkv"; "avi"; "mov"; "webm"; "wmv"; "m4v"; "mpg"; "mpeg"; "mpe"; "m1v"; "m2v";
     "ts"; "m2ts"; "mts"; "vob"; "ogv"; "ogm"; "3gp"; "3g2"; "asf"; "rm"; "rmvb"; "divx";
     "f4v"; "flv"; "mxf"; "dv"; "y4m"]);
  (KDisc,
    ["iso"; "img"; "raw"; "qcow"; "qcow2"; "qed"; "vdi"; "vhd"; "vhdx"; "vmdk"; "dmg"; "wim";
     "nrg"; "mdf"; "mds"; "cue"; "ccd"; "toast"; "squashfs"; "sqsh"; "sfs"; "erofs"; "sif";
     "ova"; "ovf"; "box"; "ima"; "vfd"]);
  (KSoft,
    ["deb"; "rpm"; "appimage"; "flatpak"; "flatpakref"; "snap"; "apk"; "ipa"; "pkg"; "so";
     "ko"; "o"; "a"; "run"; "efi"; "rom"; "fw"; "jar"; "war"; "ear"; "whl"; "egg"; "gem";
     "class"; "pyc"; "crx"; "xpi"; "vsix"]);
  (KWin,
    ["exe"; "dll"; "msi"; "msix"; "msp"; "msu"; "lnk"; "reg"; "cpl"; "ocx"; "scr"; "sys";
     "drv"; "inf"; "cat"; "chm"; "hlp"; "cur"; "ani"; "theme"; "appx"; "cab"; "cmd"; "vbs";
     "wsf"]);
  (KDos,
    ["com"; "bat"; "pif"]);
  (KFont,
    ["ttf"; "otf"; "ttc"; "woff"; "woff2"; "eot"; "pfb"; "pfa"; "fnt"]);
  (KData,
    ["zip"; "zipx"; "tar"; "gz"; "tgz"; "bz2"; "tbz"; "tbz2"; "xz"; "txz"; "lz"; "lzma"; "lzo";
     "lz4"; "zst"; "tzst"; "br"; "7z"; "rar"; "cpio"; "lha"; "lzh"; "pak"; "db"; "db3";
     "sqlite"; "sqlite3"; "mdb"; "accdb"; "dbf"; "bak"; "dump"; "dat"; "bin"; "parquet"; "orc";
     "avro"; "arrow"; "feather"; "h5"; "hdf5"; "nc"; "npy"; "npz"; "pkl"; "pickle"; "rds";
     "rdata"; "gguf"; "safetensors"; "onnx"; "pt"; "pth"; "ckpt"; "torrent"])
].
Definition find_kind (table : list (FileKindLabel * list string)) (s : string) : option FileKindLabel :=
  fst <$> List.find (fun row => mem s (snd row)) table.
(** The extension of a lower-cased name: none for a leading dot. *)
Definition kind_ext (lower : string) : option string :=
  match rsplit_once "." lower with
  | Some (stem, e) => if is_empty stem then None else Some e
  | None => None
  end.
Definition file_kind_of (name : string) : FileKindLabel :=
  let lower := to_ascii_lowercase name in
  match find_kind name_pins lower with
  | Some k => k
  | None => default KUnknown (e ← kind_ext lower; find_kind ext_kinds e)
  end.
Definition file_kind (name : string) : string * string := kind_label (file_kind_of name).

(** ** Listing a directory *)
Inductive FsEntryKind := EDir | EFile.
#[export] Instance fs_entry_kind_eq_dec : EqDecision FsEntryKind.
Proof. solve_decision. Defined.
Record FsEntry := { fe_path : string; fe_name : string; fe_kind : FsEntryKind; fe_mtime : option Z }.
(** One item of [read_dir]: its type, when it can be read, and its date. *)
Record DirItem := { di_name : string; di_kind : option FileKind; di_mtime : option Z }.
Record EntryView := {
  ev_path : string; ev_name : string; ev_is_dir : bool; ev_emoji : string; ev_kind_label : string;
  ev_mtime : string; ev_acl_plus : bool;
}.
(** [Path::join] with a plain file name. *)
Definition path_join (dir name : string) : string :=
  if ends_with "/" dir then dir +:+ name else dir +:+ "/" +:+ name.
Definition fs_entry (dir : string) (d : DirItem) : option FsEntry :=
  match di_kind d with
  | Some KDir => Some {| fe_path := path_join dir (di_name d); fe_name := di_name d; fe_kind := EDir; fe_mtime := None |}
  | Some KFile =>
      Some {| fe_path := path_join dir (di_name d); fe_name := di_name d; fe_kind := EFile; fe_mtime := di_mtime d |}
  | _ => None
  end.
Definition entry_leb (a b : bool * string) : bool :=
  if Bool.eqb (fst a) (fst b) then sleb (snd a) (snd b) else negb (fst a).

Section Tree.
Context (to_lowercase : string -> string) (fmt_mtime : Z -> string).
Context (read_dir : Path -> option (list DirItem)) (cfg : NfsKlldapConfig).
(** The batched getfacl run over some paths. *)
Context (getfacl_batch : list string -> result string string).

Definition entry_key (e : FsEntry) : bool * string :=
  (bool_decide (fe_kind e = EFile), to_lowercase (fe_name e)).
Definition list_dir (root : string) : option (list FsEntry) :=
  let normalized := normalize_for_matching root in
  if negb (is_allowed cfg normalized) then None
  else match host_path_to_container_path cfg normalized with
       | Err _ => None
       | Ok real => (fun items => sort_key entry_key entry_leb (omap (fs_entry normalized) items)) <$> read_dir real
       end.
Definition from_fs_entry (e : FsEntry) : EntryView :=
  let is_dir := bool_decide (fe_kind e = EDir) in
  let '(emoji, label) := if is_dir then ("📁", "directory") else file_kind (fe_name e) in
  {| ev_path := fe_path e; ev_name := fe_name e; ev_is_dir := is_dir; ev_emoji := emoji;
     ev_kind_label := label; ev_mtime := default "" (fmt_mtime <$> fe_mtime e); ev_acl_plus := false |}.
Definition file_name_of (p : string) : option string :=
  match last (components p) with Some (Normal s) => Some s | _ => None end.
Fixpoint chunks_of {A} (fuel n : nat) (l : list A) : list (list A) :=
  match fuel, l with
  | S f, _ :: _ => take n l :: chunks_of f n (drop n l)
  | _, _ => []
  end.
Definition MARK_CHUNK : nat := 128.
Definition extended_acl_names (dir : string) (names : list string) : gset string :=
  let normalized := normalize_for_matching dir in
  if negb (is_allowed cfg normalized) then ∅
  else match host_path_to_container_path cfg normalized with
       | Err _ => ∅
       | Ok real =>
           list_to_set (flat_map (fun chunk =>
             let paths := map (path_join (path_text real)) chunk in
             match extended_acl_paths paths (getfacl_batch paths) with
             | Ok marked => omap file_name_of marked
             | Err _ => []
             end) (chunks_of (length names) MARK_CHUNK names))
       end.
Inductive TreeView :=
| TreeFragment (children : list EntryView)
| TreeRoot (path name : string) (children : list EntryView)
| TreeAlert (hint : string).
Definition tree_hint (d : PathDiagnostic) : string :=
  if negb (pd_allowed d) then "Path is outside configured share <code>host_path</code> roots."
  else match pd_container_path d with
       | None => "Could not map this <code>host_path</code> to a container serve path."
       | Some p =>
           if negb (pd_container_exists d) then
             "Mapped container path <code>" +:+ replace ">" "&gt;" (replace "<" "&lt;" (replace "&" "&amp;" (path_text p)))
             +:+ "</code> does not exist (configured serve path <code>" +:+ replace "<" "&lt;" (pd_serve_path d)
             +:+ "</code>). Set <code>container_path</code> to the real directory under <code>storage.container_root</code> and ensure the volume is mounted."
           else "Directory exists but could not be read (permissions?)."
       end.
(** [acl_live]: [share_acl_gate] is open for the path. *)
Definition tree_fragment_html (dir_exists : Path -> bool) (acl_live : bool) (path : string) (root_request : bool)
  : TreeView :=
  match list_dir path with
  | Some entries =>
      let children := map from_fs_entry entries in
      let extended := if acl_live then extended_acl_names path (map ev_name children) else ∅ in
      let mark c := {| ev_path := ev_path c; ev_name := ev_name c; ev_is_dir := ev_is_dir c;
                       ev_emoji := ev_emoji c; ev_kind_label := ev_kind_label c; ev_mtime := ev_mtime c;
                       ev_acl_plus := bool_decide (ev_name c ∈ extended) |} in
      let children := if acl_live then map mark children else children in
      if root_request then
        let normalized := normalize_path path in
        TreeRoot normalized (default normalized (file_name_of normalized)) children
      else TreeFragment children
  | None => TreeAlert (tree_hint (diagnose_path dir_exists cfg path))
  end.
End Tree.

(** ** Friendly names *)
(** [x as i32] of a [u32] *)
Definition as_i32 (n : Z) : Z := if n <? 2147483648 then n else n - 4294967296.
Definition shown_name (id display : string) : string :=
  if negb (is_empty display) && negb (seqb display id) then display else id.

Section Names.
Context (to_lowercase : string -> string).
Context (server : nat -> Query -> Attempt) (op_timeout_secs : Z).
Context (user_base group_base : string) (pa : PosixAttributeMapping).

Definition resolve_number (is_user : bool) (n : Z) : L (option (string * string)) :=
  if is_user then LdapClient.resolve_user_by_uid server op_timeout_secs user_base pa (as_i32 n)
  else LdapClient.resolve_group_by_gid server op_timeout_secs group_base pa (as_i32 n).
(** [friendly_user_label], [friendly_group_label] *)
Definition friendly_label (is_user : bool) (n : Z) : L string :=
  if n =? 0 then ret "nobody (0)"
  else
    let* r := resolve_number is_user n in
    ret (match r with
         | Some (id, display) => shown_name id display +:+ " (" +:+ dec n +:+ ")"
         | None => dec n
         end).
(** [friendly_user_name], [friendly_group_name]: the name, and whether the id is
    unknown. *)
Definition friendly_name (is_user : bool) (n : Z) : L (string * bool) :=
  if n =? 0 then ret (dec n, false)
  else
    let* r := resolve_number is_user n in
    ret (match r with
         | Some (id, display) => (shown_name id display, false)
         | None => (dec n, true)
         end).

(** ** The panel of a node *)
Record AclEntryView := {
  av_name : string; av_id : Z; av_perms : AclPerms; av_eff : AclPerms; av_capped : bool; av_unknown : bool;
}.
(** The named rows of a table, in order, with their layer and kind. *)
Definition named_lines (t : AclTable) : list (bool * AclLine) :=
  map (pair false) (access t) ++ map (pair true) (dflt t).
Definition same_perms (a b : AclPerms) : bool :=
  Bool.eqb (p_r a) (p_r b) && Bool.eqb (p_w a) (p_w b) && Bool.eqb (p_x a) (p_x b).
Definition acl_row (t : AclTable) (default : bool) (l : AclLine) (is_user : bool) (id : Z)
  : L AclEntryView :=
  let eff := effective_perms t l default in
  let* n := friendly_name is_user id in
  ret {| av_name := fst n; av_id := id; av_perms := perms l; av_eff := eff;
         av_capped := negb (same_perms eff (perms l)); av_unknown := snd n |}.
(** The rows with their layer ([true]: default) and kind ([true]: user). *)
Fixpoint acl_rows (t : AclTable) (lines : list (bool * AclLine)) : L (list (bool * bool * AclEntryView)) :=
  match lines with
  | [] => ret []
  | (d, l) :: rest =>
      match tag l with
      | NamedUser u => let* v := acl_row t d l true u in
                       let* vs := acl_rows t rest in ret ((d, true, v) :: vs)
      | NamedGroup g => let* v := acl_row t d l false g in
                        let* vs := acl_rows t rest in ret ((d, false, v) :: vs)
      | _ => acl_rows t rest
      end
  end.
Definition rows_of (layer is_user : bool) (rows : list (bool * bool * AclEntryView)) : list AclEntryView :=
  map snd (List.filter (fun r => Bool.eqb (fst (fst r)) layer && Bool.eqb (snd (fst r)) is_user) rows).

Record DirPerms := {
  dp_owner_display : string; dp_group_display : string;
  dp_owner_uid : string; dp_owner_gid : string;
  dp_mode_octal : string;
  dp_u : AclPerms; dp_g : AclPerms; dp_o : AclPerms; dp_setgid : bool; dp_sticky : bool;
  dp_is_dir : bool; dp_meta_available : bool; dp_meta_hint : string; dp_serve_path : string;
  dp_gate : AclGateView;
  dp_users : list AclEntryView; dp_groups : list AclEntryView; dp_mask : option AclPerms;
  dp_default_users : list AclEntryView; dp_default_groups : list AclEntryView;
  dp_default_mask : option AclPerms;
  dp_acl_extended : bool; dp_acl_disk_note : bool;
}.
Definition no_perms : AclPerms := {| p_r := false; p_w := false; p_x := false |}.
Definition triad (mode shift : Z) : AclPerms :=
  {| p_r := Z.testbit mode (shift + 2); p_w := Z.testbit mode (shift + 1); p_x := Z.testbit mode shift |}.
(** [{:04o}] *)
Fixpoint pad_zeros (n : nat) (s : string) : string :=
  match n with O => s | S n => if (4 <=? len s)%nat then s else pad_zeros n ("0" +:+ s) end.
Definition oct04 (n : Z) : string := pad_zeros 4 (oct n).
Definition meta_hint (d : PathDiagnostic) : string :=
  if negb (pd_allowed d) then "This directory is outside the managed share roots, so its permissions can't be read here."
  else if negb (is_some (pd_container_path d)) then
    "This host path couldn't be mapped to a serve path. Check the share's host_path and container_path in System Settings."
  else if negb (pd_container_exists d) then
    "The serve path below doesn't exist. Create it, or set the share's container_path to the directory where this share is bind-mounted."
  else "The serve path below exists, but its ownership and mode couldn't be read — the WebUI may lack permission to stat it.".
Definition dir_perms (meta : option NodeMeta) (diag : PathDiagnostic) (gate : AclGateView) (t : AclTable)
  : L DirPerms :=
  let* names := (match meta with
                 | Some m => let* o := friendly_label true (nm_uid m) in
                             let* g := friendly_label false (nm_gid m) in ret (o, g)
                 | None => ret ("(unavailable)", "(unavailable)")
                 end) in
  let* rows := acl_rows t (named_lines t) in
  let mode := match meta with Some m => nm_mode m | None => 0 end in
  let part (f : NodeMeta -> string) := match meta with Some m => f m | None => "" end in
  ret {| dp_owner_display := fst names; dp_group_display := snd names;
         dp_owner_uid := part (fun m => dec (nm_uid m)); dp_owner_gid := part (fun m => dec (nm_gid m));
         dp_mode_octal := match meta with Some m => oct04 (Z.land (nm_mode m) MODE_BITS) | None => "0755" end;
         dp_u := triad mode 6; dp_g := triad mode 3; dp_o := triad mode 0;
         dp_setgid := Z.testbit mode 10; dp_sticky := Z.testbit mode 9;
         dp_is_dir := match meta with Some m => nm_is_dir m | None => true end;
         dp_meta_available := is_some meta;
         dp_meta_hint := if is_some meta then "" else meta_hint diag;
         dp_serve_path := match pd_container_path diag with Some p => path_text p | None => pd_serve_path diag end;
         dp_gate := gate;
         dp_users := rows_of false true rows; dp_groups := rows_of false false rows;
         dp_mask := mask_of t false;
         dp_default_users := rows_of true true rows; dp_default_groups := rows_of true false rows;
         dp_default_mask := mask_of t true;
         dp_acl_extended := is_extended t;
         dp_acl_disk_note := negb (editable gate) && is_extended t |}.

(** ** Searching owners *)
Definition query_raw (field : option string) : option string :=
  t ← trim <$> field; if is_empty t then None else Some t.
Definition nobody_suggestion_matches (raw : option string) : bool :=
  let s := to_lowercase (default "" (normalize_editor_search_query raw)) in
  is_empty s || contains_str s "nobody" || contains_str s "root" || seqb s "0".
Definition escape_html (s : string) : string := replace ">" "&gt;" (replace "<" "&lt;" (replace "&" "&amp;" s)).
Definition escape_attr (s : string) : string := replace dq "&quot;" (escape_html s).
Definition suggestion (id_attr num_attr num_label : string) (id : string) (num : Z) (name : string) : string :=
  "<div class=" +:+ q "suggestion" +:+ " " +:+ id_attr +:+ "=" +:+ q (escape_attr id) +:+ " " +:+ num_attr +:+ "="
  +:+ q (dec_i32 num) +:+ ">" +:+ escape_html name +:+ " (" +:+ num_label +:+ " " +:+ dec_i32 num +:+ ")</div>".
Definition nobody_suggestion (id_attr num_attr num_label : string) : string :=
  "<div class=" +:+ q "suggestion" +:+ " " +:+ id_attr +:+ "=" +:+ q "nobody" +:+ " " +:+ num_attr +:+ "=" +:+ q "0"
  +:+ ">nobody (" +:+ num_label +:+ " 0)</div>".
Definition sugg_note (text : string) : string :=
  "<div class=" +:+ q "suggestion sugg-note" +:+ ">" +:+ text +:+ "</div>".
Definition search_page (id_attr num_attr num_label : string) (raw : option string)
    (rows : option (list (string * string * option Z))) : string :=
  let html := if nobody_suggestion_matches raw then nobody_suggestion id_attr num_attr num_label else "" in
  match rows with
  | None => html +:+ sugg_note "LLDAP search unavailable (server unreachable or service credentials not configured)"
  | Some rows =>
      let html := html +:+ join "" (omap (fun '(id, name, num) =>
                    (fun n => suggestion id_attr num_attr num_label id n name) <$> num) rows) in
      if is_empty html then sugg_note "No matches found in LLDAP" else html
  end.
Definition search_users (owner_user : option string) : L string :=
  let raw := query_raw owner_user in
  let* users := list_users to_lowercase server op_timeout_secs user_base group_base pa raw in
  ret (search_page "data-user-id" "data-uid" "UID" raw
         (map (fun u => (us_id u, default (us_id u) (us_display_name u), us_uid_number u)) <$> users)).
Definition search_groups (owner_group : option string) : L string :=
  let raw := query_raw owner_group in
  let* groups := list_groups to_lowercase server op_timeout_secs user_base group_base pa raw in
  ret (search_page "data-group-id" "data-gid" "GID" raw
         (map (fun g => (gr_id g, default (gr_id g) (gr_display_name g), gr_gid_number g)) <$> groups)).
End Names.

(** ** The share cards *)
Record ShareInfo := {
  si_name : string; si_nfs_path : string; si_host_path : string; si_access : string;
  si_squash_label : string; si_cache_profile : string; si_warning : option ShareFieldWarning;
  si_security_chip : option string; si_navahi : bool; si_acl_capable : bool; si_acl_probed : string;
}.
Section Cards.
Context (to_lowercase : string -> string) (server_name : string) (cfg : NfsKlldapConfig).
Definition share_info (idx : nat) (s : Share) (status : ShareAclStatus) : ShareInfo :=
  let default_security := let d := trim (ga_default_security (ganesha cfg)) in
                          if is_empty d then GANESHA_DEFAULT_SECTYPE else d in
  {| si_name := sh_name s;
     si_nfs_path := server_name +:+ ":" +:+ derive_share_pseudo s;
     si_host_path := sh_host_path s;
     si_access := if default true (sh_rw s) then "RW" else "RO";
     si_squash_label := default GANESHA_DEFAULT_SQUASH (sh_squash s);
     si_cache_profile := to_lowercase (match sh_cache_profile s with
                                       | Some v => if is_empty (trim v) then "Default" else v
                                       | None => "Default" end);
     si_warning := for_share (share_warnings cfg) idx (sh_name s);
     si_security_chip := (v ← trim <$> sh_security s;
                          if is_empty v || seqb v default_security then None else Some v);
     si_navahi := share_navahi_effective cfg s;
     si_acl_capable := effective_acl_capable status;
     si_acl_probed := st_probed status |}.
(** [index_html]: one card per share, each asking the shared cache. *)
Context (ttl : Z) (wp rs : string -> option bool) (snap : MountinfoSnapshot) (clock : nat -> Z * Z).
Fixpoint share_cards (idx : nat) (l : list Share) (m : Entries) : list ShareInfo * Entries :=
  match l with
  | [] => ([], m)
  | s :: rest =>
      let '(status, m) := share_acl_status ttl wp rs (fst (clock idx)) (snd (clock idx)) snap s m in
      let '(cards, m) := share_cards (S idx) rest m in
      (share_info idx s status :: cards, m)
  end.
Definition index_shares (m : Entries) : list ShareInfo * Entries := share_cards 0 (shares cfg) m.
End Cards.

(** ** The panel shows what the kernel enforces *)
Section PanelProps.
Context (server : nat -> Query -> Attempt) (op_timeout_secs : Z).
Context (user_base group_base : string) (pa : PosixAttributeMapping).
Local Abbreviation rows := (acl_rows server op_timeout_secs user_base group_base pa).

Definition row_data (v : AclEntryView) : Z * AclPerms * AclPerms * bool :=
  (av_id v, av_perms v, av_eff v, av_capped v).
(** The named entries of one layer and kind, with what the mask leaves of them. *)
Definition entry_data (t : AclTable) (layer is_user : bool) (d : bool) (l : AclLine)
  : option (Z * AclPerms * AclPerms * bool) :=
  let eff := effective_perms t l d in
  if Bool.eqb d layer then
    match tag l, is_user with
    | NamedUser n, true | NamedGroup n, false =>
        Some (n, perms l, eff, negb (same_perms eff (perms l)))
    | _, _ => None
    end
  else None.
Lemma rows_data t lines layer is_user s :
  map row_data (rows_of layer is_user (fst (rows t lines s)))
  = omap (fun dl => entry_data t layer is_user (fst dl) (snd dl)) lines.
Proof.
  revert s. induction lines as [|[d l] lines IH]; intros s; [done|].
  match goal with |- _ = omap ?f (?x :: ?r) =>
    change (omap f (x :: r)) with (match f x with Some y => y :: omap f r | None => omap f r end) end.
  unfold entry_data at 1. cbn [fst snd acl_rows].
  destruct (tag l) as [|u| |g| |] eqn:Et.
  1, 3, 5, 6: rewrite IH; by destruct (Bool.eqb d layer).
  all: rewrite bind_run; unfold acl_row; rewrite !bind_run; cbn [fst snd ret];
    destruct (Bool.eqb d layer) eqn:El, is_user; unfold rows_of in *; cbn [List.filter fst snd map Bool.eqb andb]; rewrite ?El; cbn [andb Bool.eqb map]; rewrite IH; done.
Qed.
End PanelProps.

Section PanelExact.
Context (server : nat -> Query -> Attempt) (op_timeout_secs : Z).
Context (user_base group_base : string) (pa : PosixAttributeMapping).

Definition named_user (t : AclTable) (d : bool) (l : AclLine) : option (Z * AclPerms * AclPerms * bool) :=
  entry_data t d true d l.
Definition named_group (t : AclTable) (d : bool) (l : AclLine) : option (Z * AclPerms * AclPerms * bool) :=
  entry_data t d false d l.

Lemma named_rows t layer is_user s :
  map row_data (rows_of layer is_user
    (fst (acl_rows server op_timeout_secs user_base group_base pa t (named_lines t) s)))
  = omap (entry_data t layer is_user layer) (Acl.layer t layer).
Proof.
  rewrite rows_data. unfold named_lines. rewrite omap_app.
  assert (H : forall d l, d <> layer ->
    omap (fun dl => entry_data t layer is_user (fst dl) (snd dl)) (map (pair d) l) = []).
  { intros d l Hd. induction l as [|x l IH]; [done|]. cbn. unfold entry_data at 1.
    rewrite (proj2 (Bool.eqb_false_iff d layer) Hd). exact IH. }
  assert (H' : forall l, omap (fun dl => entry_data t layer is_user (fst dl) (snd dl)) (map (pair layer) l)
    = omap (entry_data t layer is_user layer) l).
  { intros l. induction l as [|x l IH]; [done|]. cbn. by rewrite IH. }
  destruct layer; [rewrite (H false) by done; apply H'|rewrite (H true) by done; rewrite app_nil_r; apply H'].
Qed.

(** The panel lists exactly the named entries of the node's ACL, each layer and
    kind in the order of the table, with the permissions granted and those the
    mask leaves in force, and marks a row exactly when the two differ; owner and
    group ids, mode and special bits are those of the node; and the disk note
    appears exactly when the gate is closed on a node with an extended ACL. *)
Theorem panel_shows_acl meta diag gate t s :
  let p := fst (dir_perms server op_timeout_secs user_base group_base pa meta diag gate t s) in
  map row_data (dp_users p) = omap (named_user t false) (access t)
  /\ map row_data (dp_groups p) = omap (named_group t false) (access t)
  /\ map row_data (dp_default_users p) = omap (named_user t true) (dflt t)
  /\ map row_data (dp_default_groups p) = omap (named_group t true) (dflt t)
  /\ (dp_mask p = mask_of t false /\ dp_default_mask p = mask_of t true)
  /\ (forall m, meta = Some m ->
        dp_owner_uid p = dec (nm_uid m) /\ dp_owner_gid p = dec (nm_gid m)
        /\ dp_u p = triad (nm_mode m) 6 /\ dp_setgid p = Z.testbit (nm_mode m) 10 /\ dp_meta_hint p = "")
  /\ (dp_acl_disk_note p = true <-> editable gate = false /\ is_extended t = true).
Proof.
  unfold dir_perms. rewrite !bind_run. cbn [fst snd ret].
  cbn [dp_users dp_groups dp_default_users dp_default_groups dp_mask dp_default_mask dp_owner_uid
       dp_owner_gid dp_u dp_setgid dp_meta_hint dp_acl_disk_note].
  rewrite !named_rows. split_and!; try done.
  - by intros m ->.
  - rewrite andb_true_iff, negb_true_iff. done.
Qed.
End PanelExact.

(** A named row under a mask: what is in force is what entry and mask both
    grant. *)
Lemma effective_under_mask t l d m :
  group_class (tag l) = true -> mask_of t d = Some m ->
  effective_perms t l d = {| p_r := p_r (perms l) && p_r m; p_w := p_w (perms l) && p_w m;
                             p_x := p_x (perms l) && p_x m |}.
Proof. unfold effective_perms. by intros -> ->. Qed.

(** ** The listing *)
#[export] Instance entry_leb_order : TotalLeb entry_leb.
Proof.
  split.
  - intros [[] a] [[] b]; cbn; auto; apply leb_total.
  - intros [[] a] [[] b] [[] c]; cbn; try done; apply leb_trans.
  - intros [[] a] [[] b]; cbn; try done; intros H1 H2; f_equal; by apply (leb_antisym (leb := sleb)).
Qed.
(** A directory listing holds exactly the subdirectories and regular files that
    were read, no links, sockets or entries of unknown type, each under the
    path of the directory joined with its name, the subdirectories first; and
    nothing is listed outside the managed roots. *)
Theorem list_dir_exact to_lowercase read_dir cfg root es :
  list_dir to_lowercase read_dir cfg root = Some es ->
  exists real items, host_path_to_container_path cfg (normalize_path root) = Ok real
    /\ is_allowed cfg (normalize_path root) = true /\ read_dir real = Some items
    /\ (forall e, e ∈ es <-> exists d, d ∈ items /\ fs_entry (normalize_path root) d = Some e)
    /\ length es = length (omap (fs_entry (normalize_path root)) items)
    /\ (forall i j a b, (i < j)%nat -> es !! i = Some a -> es !! j = Some b ->
          fe_kind a = EFile -> fe_kind b = EFile).
Proof.
  unfold list_dir, normalize_for_matching. destruct (is_allowed cfg (normalize_path root)) eqn:Ea; [|done].
  cbn [negb]. destruct (host_path_to_container_path cfg _) as [real|] eqn:Er; [|done].
  destruct (read_dir real) as [items|] eqn:Ed; [|done]. intros [= <-].
  exists real, items. split_and!; try done.
  - intros e. rewrite elem_of_sort_key. apply list_elem_of_omap.
  - by rewrite sort_key_perm.
  - pose proof (sort_key_sorted (entry_key to_lowercase) entry_leb
      (omap (fs_entry (normalize_path root)) items)) as Hs.
    set (l := sort_key _ _ _) in *. clearbody l. induction Hs as [|x l Hs IH Hx]; [done|].
    intros i j a b Hij Hi Hj Ha. destruct i as [|i], j as [|j]; try lia.
    + cbn in Hi, Hj. injection Hi as ->. rewrite Forall_forall in Hx.
      apply list_elem_of_lookup_2, Hx in Hj. unfold entry_key, entry_leb in Hj. rewrite Ha in Hj.
      cbn in Hj. by destruct (fe_kind b).
    + eapply (IH i j); [lia|exact Hi|exact Hj|exact Ha].
Qed.

(** ** Escaping *)
Lemma replace_one c t s :
  replace (String c "") t s
  = of_bytes (flat_map (fun x => if ceqb c x then bytes t else [x]) (bytes s)).
Proof.
  unfold replace. induction s as [|x s IH]; [done|]. cbn [replace_go bytes String.list_ascii_of_string flat_map].
  rewrite of_bytes_app, <- IH. rewrite starts_with_one.
  destruct (ceqb c x); cbn; [by rewrite of_bytes_bytes|done].
Qed.
Lemma contains_bytes c s : contains_char c s = existsb (ceqb c) (bytes s).
Proof. induction s as [|x s IH]; [done|]. cbn. by rewrite <- IH. Qed.
(** Replacing a character by a text without it leaves none of it, and brings in
    no other character than those of the text. *)
Lemma replace_removes c t s : contains_char c t = false -> contains_char c (replace (String c "") t s) = false.
Proof.
  intros Ht. rewrite replace_one, contains_bytes, bytes_of_bytes. induction (bytes s) as [|x l IH]; [done|].
  cbn. rewrite existsb_app, IH, orb_false_r. destruct (ceqb c x) eqn:E.
  - by rewrite <- contains_bytes.
  - cbn. by rewrite E.
Qed.
Lemma replace_keeps_out c d t s :
  contains_char d t = false -> contains_char d s = false -> contains_char d (replace (String c "") t s) = false.
Proof.
  intros Ht. rewrite replace_one, !contains_bytes, bytes_of_bytes. induction (bytes s) as [|x l IH]; [done|].
  cbn. intros [Hx Hl]%orb_false_iff. rewrite existsb_app, IH, orb_false_r by done.
  destruct (ceqb c x); [by rewrite <- contains_bytes|]. cbn. by rewrite Hx.
Qed.

(** A directory entry cannot inject markup into the search results: its escaped
    name holds no angle bracket, and its escaped id, in addition, no quote that
    would end the attribute. *)
Theorem search_row_escaped s :
  contains_char "<" (escape_html s) = false /\ contains_char ">" (escape_html s) = false
  /\ contains_char "<" (escape_attr s) = false /\ contains_char ">" (escape_attr s) = false
  /\ contains_char "034" (escape_attr s) = false.
Proof.
  assert (Hlt : contains_char "<" (escape_html s) = false).
  { apply replace_keeps_out; [reflexivity|]. by apply replace_removes. }
  assert (Hgt : contains_char ">" (escape_html s) = false) by (by apply replace_removes).
  split_and!; [exact Hlt|exact Hgt| | |].
  - by apply replace_keeps_out.
  - by apply replace_keeps_out.
  - by apply replace_removes.
Qed.

Lemma lower_upper c : lower_char (upper_char c) = lower_char c.
Proof. apply ceqb_eq. revert c. by_bytes. Qed.
(** The category of a file does not depend on the case of its name, and each
    extension belongs to one category. *)
Theorem file_kind_case_insensitive name :
  file_kind (to_ascii_uppercase name) = file_kind name
  /\ NoDup (concat (map snd ext_kinds)) /\ NoDup (concat (map snd name_pins)).
Proof.
  split.
  - unfold file_kind, file_kind_of, to_ascii_lowercase, to_ascii_uppercase.
    rewrite smap_smap. by rewrite (smap_ext _ _ _ lower_upper).
  - split; apply (bool_decide_unpack _); vm_compute; exact I.
Qed.
