(* ===== verification/PermHandlers.v ===== *)
(** * The permission handlers

    The handlers of [web/permission_tree.rs] as requests see them: the session
    check of WebLogin.v, the courtesy check of the slot, the plan of PermPlan.v
    under the gate of AclGate.v, the claim of the slot and the spawn of the
    task of ApplyTask.v.  [web/mod.rs]'s reload of configuration, permission
    manager and ACL cache closes the file. *)

From S2P Require Import Prelude RustStr State Identity Config FsProbe Acl FsManager Startup Auth Resolver LdapClient WebLogin AclGate PermPlan ApplyTask.
Local Open Scope Z_scope.

Inductive Job := PosixJob (p : Plan) | AclJob (p : AclPlan).
Record App := {
  app_web : Web;
  app_slots : Slots;
  app_jobs : list (nat * Job);  (* the tasks spawned so far, with their slot *)
}.
Inductive Reply :=
| ToLogin (target : string)
| Rejected (status : Z) (r : Refusal)
| Accepted (n : nat).

Section Handlers.
Context (sha256 : Bytes -> Bytes) (to_json : gmap string PersistedSession -> string) (disk_ok : nat -> bool).
Context (to_lowercase : string -> string).
Context (server : nat -> Query -> Attempt) (op_timeout_secs : Z).
Context (user_base group_base : string) (pa : PosixAttributeMapping).
Context (stat : Path -> option NodeMeta) (cfg fs_cfg : NfsKlldapConfig).
Context (parse_ops : string -> option (list AclOpSpec)).
(** The gate: the cache as the request finds it, and the clock. *)
Context (ttl : Z) (wp rs : string -> option bool) (is_dir : string -> bool) (snap : MountinfoSnapshot).
Context (t1 t2 t3 t4 : Z) (cache : Entries).
Definition gate_now (path : string) : AclGateView :=
  fst (acl_apply_gate ttl wp rs is_dir snap cfg fs_cfg t1 t2 t3 t4 path cache).

Definition on_web (a : App) (w : Web) : App :=
  {| app_web := w; app_slots := app_slots a; app_jobs := app_jobs a |}.
Definition on_slots (f : Slots -> Slots) (a : App) : App :=
  {| app_web := app_web a; app_slots := f (app_slots a); app_jobs := app_jobs a |}.
Definition client_run {A} (m : L A) (w : Web) : A * Web := with_client m w.
(** The claim, and the spawn of the task when it succeeds. *)
Definition claim_and_spawn (busy_status : Z) (job : Job) (a : App) : Reply * App :=
  let n := next (app_slots a) in
  let '(claimed, s) := start_apply (app_slots a) in
  if claimed
  then (Accepted n, {| app_web := app_web a; app_slots := s; app_jobs := app_jobs a ++ [(n, job)] |})
  else (Rejected busy_status Busy, a).
(** Both handlers, given their plan; [meanwhile] is what other requests and
    tasks do to the slot while the plan is made. *)
Definition handle {P} (busy_status other_status : Z) (plan : L (result P Refusal)) (job : P -> Job)
    (now : Z) (h : Headers) (meanwhile : Slots -> Slots) (a : App) : Reply * App :=
  let '(user, w) := require_auth sha256 to_json disk_ok now h (app_web a) in
  let a := on_web a w in
  match user with
  | Err target => (ToLogin target, a)
  | Ok _ =>
      if apply_in_progress (app_slots a) then (Rejected busy_status Busy, a)
      else
        let '(r, w) := client_run plan (app_web a) in
        let a := on_slots meanwhile (on_web a w) in
        match r with
        | Err e => (Rejected other_status e, a)
        | Ok p => claim_and_spawn busy_status (job p) a
        end
  end.
Definition apply_permissions (form : ApplyForm) : Z -> Headers -> (Slots -> Slots) -> App -> Reply * App :=
  handle 200 200 (plan_apply to_lowercase server op_timeout_secs user_base group_base pa stat fs_cfg
                    gate_now parse_ops form) PosixJob.
Definition acl_apply (form : AclApplyForm) : Z -> Headers -> (Slots -> Slots) -> App -> Reply * App :=
  handle 409 422 (plan_acl to_lowercase server op_timeout_secs user_base group_base pa stat fs_cfg
                    gate_now form) AclJob.
Definition cancel_request (now : Z) (h : Headers) (a : App) : Reply * App :=
  let '(user, w) := require_auth sha256 to_json disk_ok now h (app_web a) in
  match user with
  | Err target => (ToLogin target, on_web a w)
  | Ok _ => (Accepted 0, on_slots cancel_apply (on_web a w))
  end.

(** Whether a job edits ACLs, and where. *)
Definition acl_edits (j : Job) : option string :=
  match j with
  | PosixJob p => match pl_acl p with [] => None | _ => Some (pl_path p) end
  | AclJob p => Some (ap_path p)
  end.

Lemma client_run_rest {A} (m : L A) w : w_auth (snd (client_run m w)) = w_auth w /\ w_files (snd (client_run m w)) = w_files w.
Proof. unfold client_run, with_client. by destruct (m (w_client w)). Qed.

(** An ACL edit at [path] that the gate let through: a share covers the path and
    does not switch ACLs off, its mount was not found incapable, and unless the
    share switches ACLs on itself, the mount was found capable. *)
Definition acl_allowed (path : string) : Prop :=
  exists s, best_share_for cfg path = Some s /\ sh_enable_acl s <> Some false
    /\ let v := po_verdict (fst (verdict_for_snapshot ttl wp rs t1 t2 snap (serve_path_for s)
                                   (serve_path_for s) (explicit_off s) false cache)) in
       v <> Incapable /\ (sh_enable_acl s = None -> v = Capable).
(** What a request for [req] may do: [plan] is its plan, [job] its task. *)
Definition guarded {P} (req : string) (plan : L (result P Refusal)) (job : P -> Job) (now t : Z) (h : Headers)
    (meanwhile : Slots -> Slots) (a : App) (r : Reply * App) : Prop :=
  let '(reply, a') := r in
  alive t (app_web a') = alive t (app_web a)
  /\ match reply with
     | Accepted n =>
         is_Some (newest_user sha256 now h (app_web a))
         /\ apply_in_progress (app_slots a) = false
         /\ start_apply (meanwhile (app_slots a)) = (true, app_slots a') /\ n = next (meanwhile (app_slots a))
         /\ exists p, fst (plan (w_client (app_web a))) = Ok p
              /\ app_jobs a' = app_jobs a ++ [(n, job p)]
              /\ forall path, acl_edits (job p) = Some path -> path = req /\ acl_allowed path
     | _ => app_jobs a' = app_jobs a
            /\ (app_slots a' = app_slots a \/ app_slots a' = meanwhile (app_slots a))
     end.

Lemma handle_guarded {P} req busy other (plan : L (result P Refusal)) job now t h meanwhile a :
  now <= t ->
  (forall s p path, fst (plan s) = Ok p -> acl_edits (job p) = Some path -> path = req /\ acl_allowed path) ->
  guarded req plan job now t h meanwhile a (handle busy other plan job now h meanwhile a).
Proof.
  intros Ht Hacl. unfold handle, guarded.
  destruct (require_auth_run sha256 to_json disk_ok now t h (app_web a) Ht) as (E & Ea & Hrest).
  destruct (require_auth _ _ _ now h (app_web a)) as [user w]. cbn in E, Ea, Hrest. subst user.
  destruct (newest_user sha256 now h (app_web a)) as [u|]; [|cbn; auto].
  cbn [on_web app_slots app_web]. destruct (apply_in_progress (app_slots a)) eqn:Ep; [cbn; auto|].
  pose proof (client_run_rest plan w) as [Hauth _].
  destruct (client_run plan w) as [r w2] eqn:Ec. cbn in Hauth.
  assert (Ha2 : alive t w2 = alive t (app_web a)) by (unfold alive in *; by rewrite Hauth).
  destruct r as [p|e]; [|cbn; auto].
  unfold claim_and_spawn. cbn [on_slots on_web app_slots app_web app_jobs].
  destruct (start_apply (meanwhile (app_slots a))) as [claimed s] eqn:Es.
  destruct claimed; cbn; [|auto].
  split; [done|]. split; [done|]. split; [done|]. split; [done|]. split; [done|]. exists p.
  assert (Hp : fst (plan (w_client (app_web a))) = Ok p).
  { rewrite <- (proj1 Hrest). unfold client_run, with_client in Ec. destruct (plan (w_client w)) as [x c].
    by injection Ec as -> _. }
  split; [done|]. split; [done|]. intros path. by apply (Hacl _ _ _ Hp).
Qed.

Lemma plan_gate form s p :
  fst (plan_apply to_lowercase server op_timeout_secs user_base group_base pa stat fs_cfg gate_now parse_ops form s)
  = Ok p ->
  pl_path p = f_path form /\ (pl_acl p <> [] -> editable (gate_now (f_path form)) = true).
Proof.
  unfold plan_apply.
  intros (owner & _ & (group & _ & (ids & _ & (fm & _ & (ops & Hops & H)%bind_ok_inv)%bind_ok_inv)%bind_ok_inv)%bind_ok_inv)%bind_ok_inv.
  cbn in H. injection H as <-. split; [done|]. cbn [pl_acl]. intros Hne.
  unfold staged_batch in Hops.
  destruct (is_empty (trim (f_acl_ops form))); [cbn in Hops; by injection Hops as <-|].
  destruct (parse_ops (trim (f_acl_ops form))) as [[|spec specs]|]; [cbn in Hops; by injection Hops as <-| |done].
  by destruct (editable (gate_now (f_path form))).
Qed.
Lemma plan_acl_gate form s p :
  fst (plan_acl to_lowercase server op_timeout_secs user_base group_base pa stat fs_cfg gate_now form s) = Ok p ->
  ap_path p = a_path form /\ editable (gate_now (a_path form)) = true.
Proof.
  unfold plan_acl. destruct (editable (gate_now (a_path form))); [|done]. cbn [negb].
  destruct (_ && negb _); [done|]. rewrite bind_run. destruct (_ && negb _); [done|]. cbn.
  destruct (build_acl_modification _ _ _) as [[[dm fm] cmd]|]; [|done]. by intros [= <-].
Qed.
(** An open gate: a share in ACL mode around the path, in auto mode with its
    mount found capable. *)
Lemma open_gate_share path : editable (gate_now path) = true -> acl_allowed path.
Proof.
  unfold gate_now, acl_apply_gate, acl_allowed. destruct (best_share_for cfg path) as [s|]; [|done].
  destruct (verdict_for_snapshot _ _ _ t1 _ _ _ _ _ _ _) as [root m1] eqn:Eroot.
  destruct (verdict_for_snapshot _ _ _ t3 _ _ _ _ _ _ _) as [node m2]. cbn [fst].
  rewrite decision_editable. intros [Hd _]. exists s. split; [done|]. cbn zeta. rewrite Eroot. cbn [fst].
  destruct Hd as [[Hne Hv]|[He Hv]]; rewrite Hv.
  - done.
  - rewrite He. split; [done|]. split; done.
Qed.

(** C8: a task is spawned exactly when the reply is an acceptance, and then the
    browser has a live session, no apply was in progress when the request came,
    the claim of the slot succeeded, and the task is the one of the plan that the
    form, the directory and the metadata of the node led to.  If the task edits
    ACLs, it does so at the path of the form, a share covers that path and does
    not switch ACLs off, its mount was not found incapable, and unless the share
    switches ACLs on itself, its mount was found capable (where it does, an
    inconclusive or unavailable probe is enough).  Every other reply spawns
    nothing and claims no slot, and no reply changes a live session. *)
Theorem apply_request_guarded now t h meanwhile a form aform :
  now <= t ->
  guarded (f_path form) (plan_apply to_lowercase server op_timeout_secs user_base group_base pa stat fs_cfg
      gate_now parse_ops form) PosixJob now t h meanwhile a (apply_permissions form now h meanwhile a)
  /\ guarded (a_path aform) (plan_acl to_lowercase server op_timeout_secs user_base group_base pa stat fs_cfg
      gate_now aform) AclJob now t h meanwhile a (acl_apply aform now h meanwhile a).
Proof.
  intros Ht. split; apply handle_guarded; try done.
  - intros s p path [Hpath Hg]%plan_gate. cbn. destruct (pl_acl p); [done|]. intros [= <-]. split; [done|].
    rewrite Hpath. apply open_gate_share. by apply Hg.
  - intros s p path [Hpath Hg]%plan_acl_gate. cbn. intros [= <-]. split; [done|]. rewrite Hpath. by apply open_gate_share.
Qed.
End Handlers.

(** ** A request of a logged-in administrator *)
Definition demo_app : App :=
  {| app_web := snd (demo_web_login "right"); app_slots := no_apply; app_jobs := [] |}.
Definition demo_request (cookie : string) : Reply * App :=
  apply_permissions demo_hash demo_json (fun _ => true) (fun s => s) demo_server 15 "ou=people,dc=ex"
    "ou=groups,dc=ex" demo_mapping movies_dir demo_config demo_config one_op (300 * SECS) (tools (Some true))
    (tools None) (fun _ => true) (Some ext4_info) 0 0 0 0 ∅ demo_form (11 * NANOS) (demo_headers cookie)
    (fun s => s) demo_app.
Lemma apply_request_guarded_witness :
  fst (demo_request "session=tok2") = Accepted 0
  /\ fst (demo_request "session=forged") <> Accepted 0
  /\ is_Some (newest_user demo_hash (11 * NANOS) (demo_headers "session=tok2") (app_web demo_app)).
Proof.
  assert (E : fst (demo_request "session=tok2") = Accepted 0) by (vm_compute; reflexivity).
  split; [exact E|]. split; [intros H; vm_compute in H; discriminate H|].
  pose proof (apply_request_guarded demo_hash demo_json (fun _ => true) (fun s => s) demo_server 15
    "ou=people,dc=ex" "ou=groups,dc=ex" demo_mapping movies_dir demo_config demo_config one_op (300 * SECS)
    (tools (Some true)) (tools None) (fun _ => true) (Some ext4_info) 0 0 0 0 ∅ (11 * NANOS) (20 * NANOS)
    (demo_headers "session=tok2") (fun s => s) demo_app demo_form
    {| a_path := ""; a_op := ""; a_typ := ""; a_id := ""; a_name := ""; a_perms := ""; a_selected := "";
       a_layer := ""; a_scope := "" |} ltac:(discriminate)) as [H _].
  change (apply_permissions demo_hash _ _ _ _ _ _ _ _ _ _ _ _ _ _ _ _ _ _ _ _ _ _ _ _ _ _ _)
    with (demo_request "session=tok2") in H.
  destruct (demo_request "session=tok2") as [reply a']. cbn [fst] in E. subst reply. apply H.
Defined.

(** ** Reloading the configuration *)
(** The three shared parts a saved configuration replaces.  [loaded]: what
    [load_config_from] gives. *)
Record Shared := { sh_config : NfsKlldapConfig; sh_fs : NfsKlldapConfig; sh_caps : Entries }.
Definition reload_config_and_fs (loaded : result NfsKlldapConfig string) (s : Shared) : result unit string * Shared :=
  match loaded with
  | Err e => (Err e, s)
  | Ok cfg => (Ok tt, {| sh_config := cfg; sh_fs := cfg; sh_caps := ∅ |})
  end.
(** After a reload the handlers and the permission manager share one
    configuration and no verdict of before is left; a configuration that cannot
    be loaded changes nothing. *)
Theorem reload_consistent loaded s :
  let '(r, s') := reload_config_and_fs loaded s in
  (is_ok r = true -> sh_config s' = sh_fs s' /\ sh_caps s' = ∅ /\ loaded = Ok (sh_config s'))
  /\ (is_ok r = false -> s' = s).
Proof. unfold reload_config_and_fs. destruct loaded; cbn; naive_solver. Qed.
