(* ===== verification/LogLines.v ===== *)
(** * Reading ganesha.log

    The text functions of [bin/idhelper/observer.rs] (host names and principals
    found in a log line, the numbers and users of failure lines), the address
    helpers of [network.rs], and the classification of [NFS4ERR_NOTSUPP] of
    [ganesha_log_contract.rs].  A log line is UTF-8; [char::is_alphanumeric]
    outside ASCII is an argument.  A slice that does not fall on a character
    boundary panics. *)

From S2P Require Import Prelude RustStr Identity Config FsProbe Generate.

(** ** Searching by characters *)
Definition text : list string -> string := foldr String.append "".
Definition is_whitespace (ch : string) : bool := is_empty (trim ch).
Definition one_of (l : list string) (ch : string) : bool := existsb (seqb ch) l.
Fixpoint take_while (p : string -> bool) (l : list string) : list string :=
  match l with [] => [] | c :: r => if p c then c :: take_while p r else [] end.
Fixpoint drop_while (p : string -> bool) (l : list string) : list string :=
  match l with [] => [] | c :: r => if p c then drop_while p r else l end.
Fixpoint split_list (p : string -> bool) (l : list string) : list (list string) :=
  match l with
  | [] => [[]]
  | c :: r =>
      if p c then [] :: split_list p r
      else match split_list p r with h :: t => (c :: h) :: t | [] => [[c]] end
  end.
(** [s.split(p)], [s.trim_matches(p)], the prefix up to the first [p]. *)
Definition split_c (p : string -> bool) (s : string) : list string :=
  map text (split_list p (utf8_chars s)).
Definition trim_matches_c (p : string -> bool) (s : string) : string :=
  text (reverse (drop_while p (reverse (drop_while p (utf8_chars s))))).
Definition until_c (p : string -> bool) (s : string) : string :=
  text (take_while (fun c => negb (p c)) (utf8_chars s)).
(** [s.split_whitespace()] *)
Definition words (s : string) : list string :=
  List.filter (fun w => negb (is_empty w)) (split_c is_whitespace s).
Fixpoint sdrop (n : nat) (s : string) : string :=
  match n, s with S n, String _ r => sdrop n r | _, _ => s end.
(** [&s[s.find(p)? + p.len()..]] *)
Definition after_str (p s : string) : option string := snd <$> split_once_str p s.
(** The same with the position found in the lower-case text. *)
Definition after_ci (p s : string) : option string :=
  (fun '(a, _) => sdrop (len a + len p) s) <$> split_once_str p (to_ascii_lowercase s).
Definition contains_ci (p s : string) : bool := contains_str p (to_ascii_lowercase s).
(** The part between the first bracket of [opens] and the next one of [closes]. *)
Definition inside (open : string) (closes : Ascii.ascii -> bool) (s : string) : option string :=
  rest ← after_str open s; fst <$> split_once_p closes rest.
(** [s.trim_start_matches(p)] for a string; [len s] steps are enough. *)
Fixpoint strip_all (fuel : nat) (p s : string) : string :=
  match fuel with
  | O => s
  | S f => match strip_prefix p s with Some r => strip_all f p r | None => s end
  end.
Definition trim_start_str (p s : string) : string := strip_all (len s) p s.

(** ** Host names *)
Definition LOG_NOISE_TOKENS : list string :=
  ["nil"; "null"; "clientid"; "unique"; "counter"; "created"; "client"; "id"; "name"; "addr";
   "refcount"; "cr"; "conf"; "unconf"; "debug"; "info"; "warning"; "error"; "ffff"; "linux"; "nfsv4"].
Definition is_noise_hostname (t : string) : bool :=
  let s := to_ascii_lowercase (trim t) in
  starts_with "0x" s || existsb (seqb s) LOG_NOISE_TOKENS
  || starts_with "nfsv" s || starts_with "nfs" s
  || (sany is_ascii_digit s && contains_char "." s).
Definition hostname_byte (c : Ascii.ascii) : bool := is_ascii_alphanumeric c || ceqb c "-" || ceqb c ".".
Definition looks_like_client_hostname (t : string) : bool :=
  let s := trim t in
  if (len s <? 2) || (253 <? len s) then false
  else if (3 <=? len s) && starts_with "0x" s && negb (is_empty (sdrop 2 s)) && sall is_ascii_hexdigit (sdrop 2 s)
  then false
  else if negb (sany is_ascii_alphabetic s) then false
  else if is_noise_hostname s then false
  else if existsb (seqb (to_ascii_lowercase s)) LOG_NOISE_TOKENS then false
  else if negb (sall hostname_byte s) then false
  else if negb (sany is_ascii_lowercase s) && negb (contains_char "." s) then false
  else true.

(** ** Levels and addresses *)
Inductive ManagedGidsLogLevel := Verbose | DebugOnly.
Definition managed_gids_log_level (line : string) (manage_gids_on : bool) : option ManagedGidsLogLevel :=
  if existsb (fun m => contains_ci m line)
       ["managed_gids"; "uid2grp_allocate"; "getpwuid_r for uid:"; "getgrouplist for uname:";
        "attempt to fetch managed groups"; "attempt to fetch managed_gids"]
  then Some (if manage_gids_on then Verbose else DebugOnly) else None.

(** [Ipv4Addr]: four numbers without leading zeros. *)
Definition parse_octet (s : string) : option Z :=
  if (3 <? len s) || ((1 <? len s) && starts_with "0" s) || starts_with "+" s then None
  else parse_uint 255 s.
Definition parse_ipv4 (s : string) : option (Z * Z * Z * Z) :=
  match map parse_octet (split "." s) with
  | [Some a; Some b; Some c; Some d] => Some (a, b, c, d)
  | _ => None
  end.
Definition is_docker_bridge_ipv4 (addr : string) : bool :=
  match parse_ipv4 (trim addr) with
  | Some (a, b, _, _) => ((a =? 172) && (b =? 17))%Z
  | None => false
  end.
Definition extract_server_addr_from_ganesha_line (line : string) : option string :=
  rest ← after_ci "server_addr" line;
  rest ← strip_prefix "=" (trim_start rest);
  let ip := trim (until_c (fun c => is_whitespace c || one_of ["}"; ")"] c) (trim_start rest)) in
  if is_empty ip then None else Some ip.

(** ** Failure lines *)
(** The first run of digits after a position. *)
Definition first_number (rest : string) : option Z :=
  List.find (fun s => negb (is_empty s)) (split_p (fun c => negb (is_ascii_digit c)) rest) ≫= parse_uint u32_max.
Definition extract_uid_from_managed_gids_failure (line : string) : option Z :=
  let low := to_ascii_lowercase line in
  if negb (contains_str "attempt to fetch managed_gids" low) || negb (contains_str "failed" low) then None
  else match after_str "uid: " low with
       | Some rest => first_number rest
       | None => rest ← after_str "uid=" low; first_number rest
       end.
Definition extract_errno (line : string) : option Z := rest ← after_str "errno:" line; first_number rest.
Definition extract_ngroups (line : string) : option Z := rest ← after_str "ngroups:" line; first_number rest.
Definition getgrouplist_failed (line : string) : bool :=
  contains_ci "my_getgrouplist_alloc" line && (contains_ci "failed" line || contains_ci "warn" line).
Definition failure_line (line : string) : bool :=
  contains_str "Could not map principal " line || getgrouplist_failed line.
(** [ln.split(':').nth(2)] *)
Definition nss_passwd_has_uid (content : option string) (uid : Z) : bool :=
  match content with
  | Some c => existsb (fun ln => bool_decide (split ":" ln !! 2%nat = Some (dec uid))) (lines c)
  | None => false
  end.

Section Extract.
Context (unicode_alnum : string -> bool).
(** [char::is_alphanumeric], and a character that is neither alphanumeric nor
    one of [extra]. *)
Definition is_alnum (ch : string) : bool :=
  match ch with
  | String c "" => if is_ascii c then is_ascii_alphanumeric c else unicode_alnum ch
  | _ => unicode_alnum ch
  end.
Definition outside (extra : list string) (ch : string) : bool := negb (is_alnum ch) && negb (one_of extra ch).

Definition extract_user_from_getgrouplist_line (line : string) : option string :=
  head (omap (fun pat =>
    rest ← after_str pat line;
    let tok := until_c (outside ["@"; "/"; "."; "-"]) rest in
    if is_empty tok then None else Some tok) ["user:"; "user "; "for user "]).

(** ** The host of an NFS client record *)
(** The texts between an opening parenthesis and the next closing one. *)
Fixpoint groups_in (open : option string) (s : string) : list string :=
  match s with
  | "" => []
  | String c r =>
      match open with
      | None => groups_in (if ceqb "(" c then Some "" else None) r
      | Some acc => if ceqb ")" c then acc :: groups_in None r else groups_in (Some (acc +:+ String c "")) r
      end
  end.
Definition host_token (w : string) : string := trim_matches_c (outside ["-"; "."]) w.
Definition good_host (t : string) : bool := looks_like_client_hostname t && negb (is_noise_hostname t).
Definition group_host (inside : string) : option string :=
  if contains_ci "linux" inside || contains_ci "nfsv4" inside || contains_str "Linux NFS" inside
  then List.find (fun t => looks_like_client_hostname t && negb (eq_ignore_ascii_case t "linux")
                           && negb (is_noise_hostname t))
         (map host_token (reverse (words inside)))
  else None.
Definition internal_blob (line : string) : bool :=
  existsb (fun m => contains_ci m line) ["conf = (nil)"; "clientid="; "unique="; "counter="; "cr_refcount"].
Definition CLIENT_RECORD_WORDS : list string :=
  ["linux"; "nfsv4"; "created"; "client"; "name"; "nil"; "null"; "conf"; "unconf"; "clientid"; "unique"; "counter";
   "stuff"; "token"; "other"; "value"; "key"; "loc"; "ref"; "addr"; "server"].
Definition fallback_host (suffix : string) : option string :=
  List.find (fun t => negb (is_empty t) && negb (existsb (seqb (to_ascii_lowercase t)) CLIENT_RECORD_WORDS)
                      && negb (is_noise_hostname t) && looks_like_client_hostname t)
    (map host_token (tail (split_c (fun c => is_whitespace c || one_of ["("; ")"; "["; "]"; ":"; "."] c) suffix))).
Definition extract_linux_nfs_hostname (line : string) : option string :=
  suffix ← after_ci "nfsv4" line;
  match last (omap group_host (groups_in None suffix)) with
  | Some h => Some h
  | None => if internal_blob line then None else fallback_host suffix
  end.

(** ** The principal of a line *)
Section Realm.
Context (realm : string).
(** The test of the source for "our realm". *)
Definition in_realm (s : string) : bool :=
  contains_char "@" s && contains_str (to_ascii_lowercase realm) (to_ascii_lowercase s).
Definition host_principal (h : string) : string := "host/" +:+ h +:+ "@" +:+ realm.
Definition when {A} (b : bool) (a : A) : option A := if b then Some a else None.
(** Alternatives in order. *)
Definition or_else {A} (o : option A) (k : option A) : option A := match o with Some _ => o | None => k end.

Definition MARKERS : list string :=
  ["getpwnam"; "getpwuid_r for uid:"; "getgrouplist for uname:"; "getgrouplist"; "getgrnam"; "idmapper"].
Definition unsupported_path (line : string) : option string :=
  rest ← after_str "Unsupported code path for principal " line;
  let cand := trim (default rest (head (words rest))) in
  when (contains_char "@" cand) cand.
Definition realm_token (line : string) : option string :=
  head (omap (fun w =>
    let t := trim w in
    let cand := trim_matches_c (outside ["@"; "/"; "."; "-"; "_"]) t in
    when (in_realm t && in_realm cand) cand)
    (split_c (fun c => is_whitespace c
                       || one_of ["("; ")"; dq; "'"; "["; "]"; ","; ":"; "="; "<"; ">"] c) line)).
Definition host_after (tl : string) : option string :=
  rest ← after_str "host/" tl;
  let short := until_c (outside ["-"; "."]) rest in
  when (good_host short) (host_principal short).
Definition bracketed_host (tl : string) : option string :=
  head (omap (fun open =>
    ins ← inside open (fun c => ceqb ")" c || ceqb "034" c || ceqb "'" c || ceqb "]" c || ceqb ">" c) tl;
    host_principal <$> List.find (fun t => negb (is_empty t) && negb (is_noise_hostname t)
                                           && looks_like_client_hostname t)
                         (map trim (split_c (outside ["-"; "."]) ins)))
    ["("; dq; "'"; "["; "<"]).
Definition BARE_STOP : list string :=
  ["failed"; "trying"; "returned"; "no"; "entry"; "missing"; "not"; "found"; "for"; "client"; "user"; "getpwnam";
   "getgrouplist"].
Definition bare_token (w : string) : option string :=
  let t := trim_matches_c (outside ["-"; "."; "/"]) w in
  let tl := to_ascii_lowercase t in
  if is_empty t || is_noise_hostname t || existsb (seqb tl) BARE_STOP then None
  else
    let short := trim_start_str "host/" tl in
    or_else (when (starts_with "host/" tl && looks_like_client_hostname short) (host_principal short))
      (when (contains_char "." t && looks_like_client_hostname t) (host_principal t)).
Definition bare_host (tl : string) : option string :=
  head (omap bare_token (split_c (fun c => is_whitespace c || one_of ["="; ":"; ","] c) tl)).
Definition marker_host (line m : string) : option string :=
  tl ← after_ci m line;
  or_else (host_after tl) (or_else (bracketed_host tl) (bare_host tl)).
Definition marker_candidate (line : string) : option string :=
  if existsb (fun m => contains_ci m line) MARKERS
  then or_else (realm_token line) (head (omap (marker_host line) MARKERS))
  else None.
Definition get_uid_for (line : string) : option string :=
  rest ← after_str "Get uid for " line;
  let cand := trim (until_c (outside ["@"; "."; "-"; "_"; "/"]) rest) in
  when (in_realm cand) cand.
Definition could_not_map (line : string) : option string :=
  rest ← after_str "Could not map principal " line;
  let stop := outside ["@"; "."; "-"; "_"] in
  let whole := until_c stop rest in
  or_else (if existsb stop (utf8_chars rest) then when (in_realm whole) whole else None)
    ('(a, b) ← split_once "@" rest;
     let cand := a +:+ "@" +:+ until_c (outside ["."; "-"]) b in
     let cand := default cand (head (words cand)) in
     when (in_realm cand) cand).
(** The explicit principal around the first [@]; [None]: the slice panics.  The
    start is one byte after the last character outside the class, the end the
    first one outside the other class, counted from the [@] itself. *)
Definition explicit_principal (line : string) : option (option string) :=
  match split_once "@" line with
  | None => Some None
  | Some (a, b) =>
      let bad := outside ["/"; "."; "-"; "_"; ":"] in
      let start := reverse (take_while (fun c => negb (bad c)) (reverse (utf8_chars a))) in
      match last (List.filter bad (utf8_chars a)) with
      | Some c => if 1 <? len c then None
                  else let cand := text start +:+ until_c (outside ["."; "-"; "_"; ":"]) ("@" +:+ b) in
                       Some (when (in_realm cand) cand)
      | None => let cand := text start +:+ until_c (outside ["."; "-"; "_"; ":"]) ("@" +:+ b) in
                Some (when (in_realm cand) cand)
      end
  end.
Definition client_record (line : string) : option string :=
  h ← extract_linux_nfs_hostname line;
  when (negb (eq_ignore_ascii_case h "linux") && negb (eq_ignore_ascii_case h "nfs") && good_host h) (host_principal h).
Definition name_field (line : string) : option string :=
  rest ← after_str "name=(" line;
  '(ins, _) ← split_once ")" rest;
  w ← last (words ins);
  when (good_host (host_token w)) (host_principal (host_token w)).
Definition client_markers (line : string) : option string :=
  head (omap (fun m =>
    tl ← after_str m line;
    host_principal <$> List.find good_host (map host_token
      (split_c (fun c => is_whitespace c || one_of ["="; "("; ")"; ":"; ","; "["; "]"] c) tl)))
    ["fs_create_clid_name"; "client addr="]).
Definition any_principal (line : string) : option string :=
  if contains_str (to_ascii_lowercase realm) (to_ascii_lowercase line) then
    List.find (fun w => in_realm w && good_host (principal_local_part w))
      (map trim (split_c (fun c => is_whitespace c || one_of ["="; "("; ")"; ":"; ","; "["; "]"; dq] c) line))
  else None.

(** [None]: the observer thread panics. *)
Definition extract_candidate_principal (line : string) : option (option string) :=
  match or_else (unsupported_path line) (or_else (marker_candidate line)
          (or_else (get_uid_for line) (could_not_map line))) with
  | Some c => Some (Some c)
  | None =>
      o ← explicit_principal line;
      Some (or_else o (or_else (client_record line) (or_else (name_field line)
              (or_else (client_markers line) (any_principal line)))))
  end.
End Realm.
End Extract.

(** ** What is extracted *)
Lemma head_omap {A B} (f : A -> option B) l b : head (omap f l) = Some b -> exists a, a ∈ l /\ f a = Some b.
Proof.
  induction l as [|a l IH]; cbn; [done|]. destruct (f a) eqn:E; cbn.
  - intros [= <-]. exists a. split; [left|done].
  - intros (x & Hx & H)%IH. exists x. split; [by right|done].
Qed.
Lemma find_sound {A} (p : A -> bool) l a : List.find p l = Some a -> p a = true.
Proof. by intros [_ H]%List.find_some. Qed.
Lemma when_some {A} b (a c : A) : when b a = Some c <-> b = true /\ a = c.
Proof. destruct b; cbn; naive_solver. Qed.
Lemma or_else_some {A} (o k : option A) c : or_else o k = Some c -> o = Some c \/ k = Some c.
Proof. destruct o; cbn; naive_solver. Qed.

Section ExtractProps.
Context (ua : string -> bool) (realm : string).
(** A principal of the realm as the source tests for it, or a machine principal
    made of a host name. *)
Definition found (c : string) : Prop :=
  in_realm realm c = true \/ exists h, c = host_principal realm h /\ looks_like_client_hostname h = true.

Lemma good_looks t : good_host t = true -> looks_like_client_hostname t = true.
Proof. unfold good_host. by intros [? _]%andb_true_iff. Qed.
Lemma found_host h : looks_like_client_hostname h = true -> found (host_principal realm h).
Proof. intros H. right. by exists h. Qed.
Lemma realm_token_found line c : realm_token ua realm line = Some c -> found c.
Proof. intros (w & _ & H)%head_omap. apply when_some in H as [H <-]. left. by apply andb_true_iff in H as [_ H]. Qed.
Lemma marker_host_found line m c : marker_host ua realm line m = Some c -> found c.
Proof.
  unfold marker_host. destruct (after_ci m line) as [tl|]; [|done]. cbn.
  intros [H|[H|H]%or_else_some]%or_else_some.
  - unfold host_after in H. destruct (after_str "host/" tl); [|done]. cbn in H.
    apply when_some in H as [H <-]. by apply found_host, good_looks.
  - apply head_omap in H as (o & _ & H). destruct (inside _ _ _); [|done]. cbn in H.
    destruct (List.find _ _) as [t|] eqn:E; [|done]. injection H as <-. apply find_sound in E.
    apply found_host. by apply andb_true_iff in E as [_ E].
  - apply head_omap in H as (w & _ & H). unfold bare_token in H. destruct (_ || _); [done|].
    apply or_else_some in H as [H|H]; apply when_some in H as [H <-]; apply andb_true_iff in H as [_ H]; by apply found_host.
Qed.
Lemma marker_candidate_found line c : marker_candidate ua realm line = Some c -> found c.
Proof.
  unfold marker_candidate. destruct (existsb _ MARKERS); [|done].
  intros [H|H]%or_else_some; [by eapply realm_token_found|].
  apply head_omap in H as (m & _ & H). by eapply marker_host_found.
Qed.
Lemma could_not_map_found line c : could_not_map ua realm line = Some c -> found c.
Proof.
  unfold could_not_map. destruct (after_str _ line) as [rest|]; [|done]. cbn.
  intros [H|H]%or_else_some; left.
  - destruct (existsb _ _); [|done]. by apply when_some in H as [H <-].
  - destruct (split_once "@" rest) as [[a b]|]; [|done]. cbn in H. by apply when_some in H as [H <-].
Qed.
(** The class of the end excludes the [@] the search starts at, so the
    candidate never holds one. *)
Lemma split_once_p_before p s a b : split_once_p p s = Some (a, b) -> sany p a = false.
Proof.
  revert a b. induction s as [|c s IH]; intros a b; [done|]. cbn. destruct (p c) eqn:E; [by intros [= <- <-]|].
  destruct (split_once_p p s) as [[x y]|]; [|done]. intros [= <- <-]. cbn. rewrite E. by eapply IH.
Qed.
Lemma text_utf8 s : text (utf8_chars s) = s.
Proof.
  induction s as [|c s IH]; [done|]. cbn [utf8_chars]. rewrite <- IH at 2.
  destruct (utf8_chars s) as [|[|d t] rest]; [done..|]. by destruct (is_cont d && negb (is_ascii c)).
Qed.
Lemma sany_text p l : sany p (text l) = existsb (sany p) l.
Proof.
  induction l as [|c l IH]; [done|]. change (text (c :: l)) with (c +:+ text l).
  rewrite sany_app, IH. done.
Qed.
Lemma take_while_sub p l : exists r, l = take_while p l ++ r.
Proof.
  induction l as [|c l [r IH]]; [by exists []|]. cbn. destruct (p c); [|by eexists].
  exists r. cbn. by f_equal.
Qed.
Lemma explicit_never line c : explicit_principal ua realm line <> Some (Some c).
Proof.
  unfold explicit_principal. destruct (split_once "@" line) as [[a b]|] eqn:E; [|done].
  apply split_once_p_before in E. cbv zeta.
  assert (Hend : until_c (outside ua ["."; "-"; "_"; ":"]) ("@" +:+ b) = "").
  { unfold until_c. destruct (utf8_chars ("@" +:+ b)) as [|h t] eqn:Eu; [done|].
    assert (h = "@") as ->; [|done]. change ("@" +:+ b) with (String "@" b) in Eu. cbn [utf8_chars] in Eu.
    change (negb (is_ascii "@"%char)) with false in Eu.
    destruct (utf8_chars b) as [|[|d u] rest]; [congruence..|]. rewrite andb_false_r in Eu. congruence. }
  rewrite Hend.
  set (start := reverse (take_while _ _)).
  assert (Hs : contains_char "@" (text start +:+ "") = false).
  { unfold contains_char. rewrite sany_app, sany_text, orb_false_r.
    rewrite <- (text_utf8 a), sany_text in E. apply not_true_iff_false. apply not_true_iff_false in E.
    rewrite existsb_exists in *. intros (x & Hx & Hp). apply E. exists x. split; [|done].
    apply list_elem_of_In. apply list_elem_of_In in Hx. unfold start in Hx. rewrite elem_of_reverse in Hx.
    match type of Hx with x ∈ take_while ?p ?l => destruct (take_while_sub p l) as [r Hr] end.
    apply elem_of_reverse. rewrite Hr. apply elem_of_app. by left. }
  destruct (last _) as [ch|]; [destruct (1 <? len ch); [done|]|];
    unfold in_realm; rewrite Hs; done.
Qed.
Lemma later_found line c :
  or_else (client_record ua realm line) (or_else (name_field ua realm line)
    (or_else (client_markers ua realm line) (any_principal realm line))) = Some c -> found c.
Proof.
  intros [H|[H|[H|H]%or_else_some]%or_else_some]%or_else_some.
  - unfold client_record in H. destruct (extract_linux_nfs_hostname ua line) as [h|]; [|done]. cbn in H.
    apply when_some in H as [H <-]. apply andb_true_iff in H as [_ H]. by apply found_host, good_looks.
  - unfold name_field in H. destruct (after_str _ line) as [r|]; [|done]. cbn in H.
    destruct (split_once ")" r) as [[i ?]|]; [|done]. cbn in H. destruct (last (words i)) as [w|]; [|done]. cbn in H.
    apply when_some in H as [H <-]. by apply found_host, good_looks.
  - apply head_omap in H as (m & _ & H). destruct (after_str m line) as [r|]; [|done]. cbn in H.
    destruct (List.find _ _) as [t|] eqn:E; [|done]. injection H as <-. apply find_sound in E.
    by apply found_host, good_looks.
  - unfold any_principal in H. destruct (contains_str _ _); [|done]. apply find_sound in H. left.
    by apply andb_true_iff in H as [H _].
Qed.
(** Every principal taken from a line is one the legacy message names outright,
    one that mentions the realm, or the machine principal of a well-formed host
    name in the realm; in each case it has an [@]. *)
Theorem candidate_shape line c :
  extract_candidate_principal ua realm line = Some (Some c) ->
  contains_char "@" c = true
  /\ (unsupported_path line = Some c \/ in_realm realm c = true
      \/ exists h, c = host_principal realm h /\ looks_like_client_hostname h = true).
Proof.
  intros H. assert (Hc : unsupported_path line = Some c \/ found c).
  { unfold extract_candidate_principal in H.
    destruct (or_else (unsupported_path line) _) as [d|] eqn:E.
    - injection H as ->. apply or_else_some in E as [E|[E|[E|E]%or_else_some]%or_else_some]; [by left|right..].
      + by eapply marker_candidate_found.
      + unfold get_uid_for in E. destruct (after_str _ line); [|done]. cbn in E. apply when_some in E as [E <-]. by left.
      + by eapply could_not_map_found.
    - right. destruct (explicit_principal ua realm line) as [o|] eqn:Ex; [|done].
      destruct o as [x|]; [by apply explicit_never in Ex|]. injection H as H. by eapply later_found. }
  split; [|unfold found in Hc; tauto].
  destruct Hc as [H1|[H1|(h & -> & _)]].
  - unfold unsupported_path in H1. destruct (after_str _ line); [|done]. cbn in H1. apply when_some in H1 as [H1 <-]. done.
  - by apply andb_true_iff in H1 as [H1 _].
  - unfold contains_char, host_principal. by rewrite !sany_app, orb_true_r.
Qed.
End ExtractProps.

(** ** Host names *)
Lemma looks_sound t :
  looks_like_client_hostname t = true ->
  let s := trim t in
  (2 <= len s <= 253)%nat /\ sall hostname_byte s = true /\ sany is_ascii_alphabetic s = true
  /\ is_noise_hostname s = false.
Proof.
  unfold looks_like_client_hostname. cbv zeta. set (s := trim t). clearbody s.
  destruct ((len s <? 2) || (253 <? len s)) eqn:E1; [done|].
  destruct (_ && _ && _ && _); [done|]. destruct (sany is_ascii_alphabetic s) eqn:E2; [|done]. cbn [negb].
  destruct (is_noise_hostname s) eqn:E3; [done|]. destruct (existsb _ _); [done|].
  destruct (sall hostname_byte s) eqn:E4; [|done]. intros _.
  apply orb_false_iff in E1 as [H1%Nat.ltb_ge H2%Nat.ltb_ge]. repeat split; done.
Qed.
(** The check for version-like tokens also rejects every qualified host name
    with a digit in it. *)
Theorem fqdn_with_digit_rejected t :
  sany is_ascii_digit (to_ascii_lowercase (trim t)) = true ->
  contains_char "." (to_ascii_lowercase (trim t)) = true -> is_noise_hostname t = true.
Proof. intros H1 H2. unfold is_noise_hostname. by rewrite H1, H2, orb_true_r. Qed.
Lemma strip_all_done p s fuel : p <> "" -> (len s <= fuel)%nat -> starts_with p (strip_all fuel p s) = false.
Proof.
  intros Hp. revert s. induction fuel as [|f IH]; intros s Hl.
  - destruct s; [|cbn in Hl; lia]. by destruct p.
  - cbn. destruct (strip_prefix p s) as [r|] eqn:E; [|unfold starts_with; by rewrite E].
    apply IH. apply strip_prefix_spec in E as ->. rewrite len_app in Hl. destruct p; [done|]. cbn in Hl. lia.
Qed.

(** ** Lines of the tests, and lines that go wrong *)
Definition ascii_only (ch : string) : bool := false.
Example test_lines :
  map (extract_candidate_principal ascii_only "EXAMPLE.COM")
    ["uid2grp_allocate_by_principal :ID MAPPER :WARN :Unsupported code path for principal host/client-a@TESTLAB.LOCAL";
     "getgrouplist host/client-a@EXAMPLE.COM"; "getgrouplist(client-a) for client cred";
     "getpwnam host/server42@EXAMPLE.COM returned no entry"; "Get uid for host/worker3@EXAMPLE.COM";
     "Could not map principal bob@EXAMPLE.COM to a uid";
     "clid {name=(22:Linux NFSv4.2 client-a) server_addr = 10.0.0.1}"; "nfs4_op ok"]
  = [Some (Some "host/client-a@TESTLAB.LOCAL"); Some (Some "host/client-a@EXAMPLE.COM");
     Some (Some "host/client-a@EXAMPLE.COM"); Some (Some "host/server42@EXAMPLE.COM");
     Some (Some "host/worker3@EXAMPLE.COM"); Some (Some "bob@EXAMPLE.COM");
     Some (Some "host/client-a@EXAMPLE.COM"); Some None].
Proof. vm_compute. reflexivity. Qed.
(** The user of the line in the source's own comment is not found, because of
    the blank before it. *)
Theorem documented_user_not_found :
  extract_user_from_getgrouplist_line ascii_only "getgrouplist for user: root failed, ngroups: 1, errno: 1" = None.
Proof. vm_compute. reflexivity. Qed.
(** A multi-byte punctuation mark before the first [@] of a line stops the
    observer: the slice starts inside the character. *)
Theorem observer_panics_on_dash :
  extract_candidate_principal ascii_only "EXAMPLE.COM" "client “x”—a@b" = None.
Proof. vm_compute. reflexivity. Qed.
(** The test for the realm is a substring test, so principals of other realms
    pass it. *)
Theorem foreign_realm_accepted :
  extract_candidate_principal ascii_only "EX.COM" "getpwnam(root@EX.COM.EVIL.ORG) failed"
  = Some (Some "root@EX.COM.EVIL.ORG").
Proof. vm_compute. reflexivity. Qed.

(** ** The cause of NFS4ERR_NOTSUPP *)
Inductive NotsuppFailurePath := AclPath | IdentityPath | UnknownPath.
Section Notsupp.
Context (to_lowercase : string -> string).
Definition line_is_identity_failure (line : string) : bool :=
  contains_str "unsupported code path for principal" (to_lowercase line)
  || contains_str "Could not map" line
  || (contains_str "uid2grp_allocate_by_principal" line && contains_str "unsupported" (to_lowercase line)).
Definition log_shows_identity_failure (content : string) : bool :=
  existsb line_is_identity_failure (lines content).
Definition op_notsupp (op : string) (window : list string) : bool :=
  existsb (fun l => contains_str ("Status of " +:+ op) l && contains_str "NFS4ERR_NOTSUPP" l) window.
Definition window_has_op_access_notsupp : list string -> bool := op_notsupp "OP_ACCESS".
Definition window_has_getattr_notsupp : list string -> bool := op_notsupp "OP_GETATTR".
(** Some line satisfies [p] and the [n] lines from it on satisfy [q]. *)
Fixpoint some_window (n : nat) (p : string -> bool) (q : list string -> bool) (ls : list string) : bool :=
  match ls with
  | [] => false
  | l :: r => (p l && q (take n ls)) || some_window n p q r
  end.
Definition log_shows_acl_path_op_access_notsupp (content : string) : bool :=
  negb (log_shows_identity_failure content)
  && some_window 6 (fun l => contains_str "access_mask = mode" l && contains_str "ACL(" l)
       window_has_op_access_notsupp (lines content).
Definition log_shows_acl_path_getattr_notsupp (content : string) : bool :=
  negb (log_shows_identity_failure content)
  && some_window 8 (fun l => contains_str "Permission check for ACL" l && negb (contains_str "No permission check" l))
       (fun w => existsb (contains_str "failed with Operation not supported") w && window_has_getattr_notsupp w)
       (lines content).
Definition log_shows_identity_path_notsupp (content : string) : bool :=
  some_window 10 line_is_identity_failure
    (fun w => window_has_op_access_notsupp w || window_has_getattr_notsupp w) (lines content).
Definition classify_notsupp_failure_path (content : string) : NotsuppFailurePath :=
  if log_shows_acl_path_op_access_notsupp content || log_shows_acl_path_getattr_notsupp content then AclPath
  else if log_shows_identity_path_notsupp content then IdentityPath
  else UnknownPath.

Lemma some_window_iff n p q ls :
  some_window n p q ls = true <->
  exists i l, ls !! i = Some l /\ p l = true /\ q (take n (drop i ls)) = true.
Proof.
  induction ls as [|x ls IH]; cbn; [split; [done|by intros (i & l & H & _)]|].
  rewrite orb_true_iff, andb_true_iff, IH. split.
  - intros [[Hp Hq]|(i & l & H)]; [by exists 0%nat, x|by exists (S i), l].
  - intros ([|i] & l & Hl & Hp & Hq); [injection Hl as ->; by left|right; by exists i, l].
Qed.
(** One identity failure anywhere in the excerpt rules the ACL diagnosis out,
    and the identity diagnosis needs such a line followed within ten lines by an
    [OP_ACCESS] or [OP_GETATTR] that was not supported. *)
Theorem notsupp_diagnosis content :
  (classify_notsupp_failure_path content = AclPath -> log_shows_identity_failure content = false)
  /\ (classify_notsupp_failure_path content = IdentityPath ->
        exists i j l, (i <= j < i + 10)%nat
          /\ (exists f, lines content !! i = Some f /\ line_is_identity_failure f = true)
          /\ lines content !! j = Some l /\ contains_str "NFS4ERR_NOTSUPP" l = true
          /\ (contains_str "Status of OP_ACCESS" l = true \/ contains_str "Status of OP_GETATTR" l = true)).
Proof.
  unfold classify_notsupp_failure_path. split.
  - unfold log_shows_acl_path_op_access_notsupp, log_shows_acl_path_getattr_notsupp.
    destruct (log_shows_identity_failure content); [|done]. cbn. by destruct (log_shows_identity_path_notsupp content).
  - destruct (_ || _); [done|]. unfold log_shows_identity_path_notsupp.
    destruct (some_window 10 _ _ _) eqn:E; [|done]. intros _.
    apply some_window_iff in E as (i & f & Hf & Hid & Hw).
    assert (Hop : forall op, op_notsupp op (take 10 (drop i (lines content))) = true ->
      exists j l, (i <= j < i + 10)%nat /\ lines content !! j = Some l
        /\ contains_str ("Status of " +:+ op) l = true /\ contains_str "NFS4ERR_NOTSUPP" l = true).
    { intros op (l & Hl%list_elem_of_In & [H1 H2]%andb_true_iff)%existsb_exists.
      apply list_elem_of_lookup in Hl as (k & Hk). apply lookup_take_Some in Hk as [Hk Hlt].
      rewrite lookup_drop in Hk. exists (i + k)%nat, l. split; [lia|done]. }
    apply orb_true_iff in Hw as [H%Hop|H%Hop]; destruct H as (j & l & Hij & Hl & Hs & Hn); exists i, j, l;
      eauto 10.
Qed.
End Notsupp.
