(* ===== verification/Observer.v ===== *)
(** * The log observer of the idhelper

    Models the main loop of [bin/idhelper/observer.rs]: what one line of
    ganesha.log makes the observer do to the shared cache and stores (through
    the resolution of [Idhelper]), which signals and requests it sends, and the
    rate limits between them.  Times are in nanoseconds; each of the four
    detectors reads the clock once per line.  Tailing and rotation of the file
    are not modelled: the lines are the input. *)

From S2P Require Import Prelude RustStr State Identity Resolver Config FsProbe Generate Acl IdCache Nss Idhelper LogLines.
Local Open Scope Z_scope.

(** ** Rate limits *)
Definition SECOND : Z := 1000000000.
Definition since (now t : Z) : Z := Z.max 0 (now - t).
Section Limits.
Context `{Countable K}.
(** Whether [k] was stamped less than [window] ago. *)
Definition recent (window now : Z) (k : K) (m : gmap K Z) : bool :=
  match m !! k with Some last => since now last <? window | None => false end.
(** The stamp, and the pruning of a map that has grown. *)
Definition stamp (window now : Z) (k : K) (m : gmap K Z) : gmap K Z :=
  let m := <[ k := now ]> m in
  if (2048 <? size m)%nat then filter (fun kv => since now kv.2 < window) m else m.
End Limits.
Definition dedup_window : Z := 30 * SECOND.
Definition failure_dedup_window : Z := 2 * SECOND.
Definition heal_window : Z := 30 * SECOND.
Definition heal_floor : Z := 5 * SECOND.

(** What the observer does outside the cache and the stores. *)
Inductive Event :=
| GroupHeal (user : string) (ngroups errno : Z)
| UidHeal (uid : Z) (row_present : bool) (principal : option string)
| FastHeal (principal : string)
| Observed (principal : string)
| LeftAlone (principal : string)
| BridgeWarning (addr : string)
| SentRebulk
| SentSighup (pid : Z)
| AskedGroups (principal : string).
Record Observer := {
  ob_helper : Helper;
  ob_recently : gmap string Z;
  ob_bridge_warned : gmap string Z;
  ob_healed_uids : gmap Z Z;
  ob_healed_getgrouplist : gmap string Z;
  ob_last_heal : option Z;
  ob_events : list (Z * Event);   (* with the time of the detector *)
}.
Definition on_helper {A} (m : M Helper A) : M Observer A := fun o =>
  let '(a, h) := m (ob_helper o) in
  (a, {| ob_helper := h; ob_recently := ob_recently o; ob_bridge_warned := ob_bridge_warned o;
         ob_healed_uids := ob_healed_uids o; ob_healed_getgrouplist := ob_healed_getgrouplist o;
         ob_last_heal := ob_last_heal o; ob_events := ob_events o |}).
Definition emit (t : Z) (e : Event) : M Observer unit := modify (fun o =>
  {| ob_helper := ob_helper o; ob_recently := ob_recently o; ob_bridge_warned := ob_bridge_warned o;
     ob_healed_uids := ob_healed_uids o; ob_healed_getgrouplist := ob_healed_getgrouplist o;
     ob_last_heal := ob_last_heal o; ob_events := ob_events o ++ [(t, e)] |}).
Definition set_recently (f : gmap string Z -> gmap string Z) : M Observer unit := modify (fun o =>
  {| ob_helper := ob_helper o; ob_recently := f (ob_recently o); ob_bridge_warned := ob_bridge_warned o;
     ob_healed_uids := ob_healed_uids o; ob_healed_getgrouplist := ob_healed_getgrouplist o;
     ob_last_heal := ob_last_heal o; ob_events := ob_events o |}).
Definition set_bridge_warned (f : gmap string Z -> gmap string Z) : M Observer unit := modify (fun o =>
  {| ob_helper := ob_helper o; ob_recently := ob_recently o; ob_bridge_warned := f (ob_bridge_warned o);
     ob_healed_uids := ob_healed_uids o; ob_healed_getgrouplist := ob_healed_getgrouplist o;
     ob_last_heal := ob_last_heal o; ob_events := ob_events o |}).
Definition set_healed_uids (f : gmap Z Z -> gmap Z Z) : M Observer unit := modify (fun o =>
  {| ob_helper := ob_helper o; ob_recently := ob_recently o; ob_bridge_warned := ob_bridge_warned o;
     ob_healed_uids := f (ob_healed_uids o); ob_healed_getgrouplist := ob_healed_getgrouplist o;
     ob_last_heal := ob_last_heal o; ob_events := ob_events o |}).
Definition set_group_heals (f : gmap string Z -> gmap string Z) (last : Z) : M Observer unit := modify (fun o =>
  {| ob_helper := ob_helper o; ob_recently := ob_recently o; ob_bridge_warned := ob_bridge_warned o;
     ob_healed_uids := ob_healed_uids o; ob_healed_getgrouplist := f (ob_healed_getgrouplist o);
     ob_last_heal := Some last; ob_events := ob_events o |}).

(** ** The daemon that is signalled *)
(** [NFS_KLLDAP_GANESHA_PID], the names of processes, and the numeric entries
    of /proc in their order. *)
Definition proc_comm_is_ganesha (comm : Z -> option string) (pid : Z) : bool :=
  match comm pid with Some c => seqb (trim c) "ganesha.nfsd" | None => false end.
Definition resolve_live_ganesha_pid (env : option string) (comm : Z -> option string) (procs : option (list string))
  : option Z :=
  let scan := names ← procs;
              head (omap (fun n => pid ← parse_uint u32_max n;
                                   if proc_comm_is_ganesha comm pid then Some pid else None) names) in
  match parse_uint u32_max ∘ trim <$> env with
  | Some (Some pid) =>
      if pid =? 0 then None else if proc_comm_is_ganesha comm pid then Some pid else scan
  | _ => scan
  end.
(** [NFS_KLLDAP_SIGHUP_ON_IDMAP_HEAL]; the signal itself is not checked. *)
Definition signal_ganesha_reload_idmap (env : option string) (pid : Z) : bool :=
  negb (match env with Some v => seqb v "0" || eq_ignore_ascii_case v "false" | None => false end) && negb (pid =? 0).

Definition unmapped_principal_needs_heal (candidate realm : string) (variants : list string) : bool :=
  if negb (fst (classify_principal candidate realm variants)) then true
  else match split_once "/" (principal_local_part candidate) with
       | Some (_, service_host) => existsb (fun v => eq_ignore_ascii_case v (trim service_host)) variants
       | None => false
       end.

Section Observe.
Context `{!HashIter string, !HashIter Z}.
Context (server : nat -> Query -> Attempt) (op_timeout_secs : Z).
Context (commands : nat -> list string -> option string).
Context (config : nat -> option HelperConfig) (env_force : option string).
Context (ws : nat -> string -> WriteWorld) (read_fails : nat -> string -> bool).
Context (paths : NssMaterializePaths) (cache_path realm : string) (variants : list string).
Context (unicode_alnum : string -> bool).
(** The world when a line is handled: the pid a scan would find, the switch of
    the signals, and whether the socket can be connected to. *)
Context (live_pid : Z -> option Z) (env_sighup : option string) (socket_up : Z -> bool).

Definition resolve_principal (p : string) : M Observer unit :=
  on_helper (ignored (Idhelper.resolve_principal server op_timeout_secs commands config env_force ws read_fails
                        paths cache_path realm variants p)).
Definition resolve_gids (p : string) (force : bool) : M Observer unit :=
  on_helper (ignored (resolve_gids_and_materialize server op_timeout_secs commands config env_force ws read_fails
                        paths cache_path realm variants p force)).
Definition rematerialize : M Observer unit :=
  on_helper (let* gs := snapshot_groups config in ignored (materialize ws paths gs)).
Definition send_sighup (t : Z) : M Observer unit :=
  match live_pid t with
  | Some pid => if signal_ganesha_reload_idmap env_sighup pid then emit t (SentSighup pid) else ret tt
  | None => ret tt
  end.
(** The request is written and the answer is not waited for. *)
Definition send_rebulk (t : Z) : M Observer unit := if socket_up t then emit t SentRebulk else ret tt.

Definition heal_principal_immediately (t : Z) (candidate : string) (sighup : bool) : M Observer unit :=
  do* emit t (FastHeal candidate) in
  do* resolve_principal candidate in
  do* resolve_gids candidate true in
  do* rematerialize in
  if sighup then send_sighup t else ret tt.

Definition maybe_warn_bridge_server_addr (t : Z) (line : string) : M Observer unit :=
  match extract_server_addr_from_ganesha_line line with
  | Some addr =>
      if negb (is_docker_bridge_ipv4 addr) then ret tt
      else match extract_linux_nfs_hostname unicode_alnum line with
           | None => ret tt
           | Some _ =>
               let* warned := get ob_bridge_warned in
               if recent dedup_window t addr warned then ret tt
               else do* set_bridge_warned (<[ addr := t ]>) in emit t (BridgeWarning addr)
           end
  | None => ret tt
  end.

Definition detect_my_getgrouplist_failure_and_heal (t : Z) (line : string) : M Observer unit :=
  if negb (getgrouplist_failed line) then ret tt
  else
    let user := default "unknown" (extract_user_from_getgrouplist_line unicode_alnum line) in
    let* healed := get ob_healed_getgrouplist in
    let* last := get ob_last_heal in
    if recent heal_window t user healed then ret tt
    else if (match last with Some l => since t l <? heal_floor | None => false end) then ret tt
    else
      do* set_group_heals (stamp heal_window t user) t in
      do* emit t (GroupHeal user (default 0 (extract_ngroups line)) (default 0 (extract_errno line))) in
      do* send_rebulk t in
      let principal := if contains_char "@" user then user else user +:+ "@" +:+ realm in
      do* resolve_principal "root" in
      do* resolve_principal principal in
      do* resolve_gids "root" true in
      do* resolve_gids principal true in
      do* rematerialize in
      do* send_sighup t in
      do* emit t (AskedGroups "root") in
      do* emit t (AskedGroups principal) in
      if seqb user principal then ret tt else emit t (AskedGroups user).

Definition detect_managed_gids_uid_failure_and_heal (t : Z) (line : string) : M Observer unit :=
  match extract_uid_from_managed_gids_failure line with
  | None => ret tt
  | Some uid =>
      let* healed := get ob_healed_uids in
      if recent heal_window t uid healed then ret tt
      else
        do* set_healed_uids (<[ uid := t ]>) in
        let* passwd := get (fun o => h_disk (ob_helper o) !! nss_passwd paths) in
        let* cached := get (fun o => r_principal <$>
          List.find (fun r => r_uid r =? uid) (hvalues (h_cache (ob_helper o)))) in
        do* emit t (UidHeal uid (nss_passwd_has_uid passwd uid) cached) in
        match cached with
        | Some principal => heal_principal_immediately t principal true
        | None => do* send_rebulk t in do* rematerialize in send_sighup t
        end
  end.

(** The candidate of a line. *)
Definition observe_candidate (t : Z) (line candidate : string) : M Observer unit :=
  let window := if failure_line line then failure_dedup_window else dedup_window in
  let* seen := get ob_recently in
  if recent window t candidate seen then ret tt
  else
    do* set_recently (stamp dedup_window t candidate) in
    if negb (unmapped_principal_needs_heal candidate realm variants) then emit t (LeftAlone candidate)
    else
      do* (if failure_line line
           then heal_principal_immediately t candidate (contains_str "Could not map principal " line)
           else ret tt) in
      do* emit t (Observed candidate) in
      do* resolve_principal candidate in
      resolve_gids candidate false.

(** One line with the four readings of the clock; [false]: the thread panicked. *)
Record Clock := { t_bridge : Z; t_groups : Z; t_uid : Z; t_candidate : Z }.
Definition observe_line (c : Clock) (raw : string) : M Observer bool :=
  let line := trim raw in
  do* maybe_warn_bridge_server_addr (t_bridge c) line in
  do* detect_my_getgrouplist_failure_and_heal (t_groups c) line in
  do* detect_managed_gids_uid_failure_and_heal (t_uid c) line in
  match extract_candidate_principal unicode_alnum realm line with
  | None => ret false
  | Some None => ret true
  | Some (Some candidate) => do* observe_candidate (t_candidate c) line candidate in ret true
  end.
(** The loop, until the log ends or the thread panics. *)
Fixpoint observe_lines (l : list (Clock * string)) : M Observer bool :=
  match l with
  | [] => ret true
  | (c, line) :: rest =>
      let* alive := observe_line c line in
      if alive : bool then observe_lines rest else ret false
  end.
End Observe.
Definition observer_start (h : Helper) : Observer :=
  {| ob_helper := h; ob_recently := ∅; ob_bridge_warned := ∅; ob_healed_uids := ∅; ob_healed_getgrouplist := ∅;
     ob_last_heal := None; ob_events := [] |}.
