(* ===== verification/ObserverProps.v ===== *)
(** * What the log observer may do

    Rate limits of the heals, the clients it leaves alone, and the cache it
    shares with the daemon. *)

From S2P Require Import Prelude RustStr State Identity Resolver Config FsProbe Generate Acl IdCache Nss Idhelper IdhelperProps LogLines Observer.
Local Open Scope Z_scope.

(** ** One rate limit *)
(** Entries of a log for one key are at least [w] apart. *)
Definition spaced {K} (w : Z) (l : list (Z * K)) : Prop :=
  forall i j t1 t2 k, (i < j)%nat -> l !! i = Some (t1, k) -> l !! j = Some (t2, k) -> w <= t2 - t1.
Section Limit.
Context `{Countable K}.
(** The map remembers every entry of the log that may still matter at [hi]. *)
Definition tracked (w : Z) (m : gmap K Z) (l : list (Z * K)) (hi : Z) : Prop :=
  spaced w l
  /\ forall t k, (t, k) ∈ l -> (exists last, m !! k = Some last /\ t <= last) \/ w <= hi - t.
Lemma tracked_later w m l hi hi' : hi <= hi' -> tracked w m l hi -> tracked w m l hi'.
Proof. intros Hh [Hs Ht]. split; [done|]. intros t k Hk. destruct (Ht t k Hk) as [?|?]; [by left|right; lia]. Qed.
Lemma tracked_nil w hi : tracked w (∅ : gmap K Z) [] hi.
Proof. split; [intros i j ?????; by rewrite lookup_nil|]. intros t k Hk. by apply elem_of_nil in Hk. Qed.
Lemma stamp_lookup w now k (m : gmap K Z) k' :
  0 < w ->
  stamp w now k m !! k = Some now
  /\ (k' <> k -> stamp w now k m !! k' = m !! k' \/ exists last, m !! k' = Some last /\ w <= now - last).
Proof.
  intros Hw. unfold stamp. destruct (2048 <? _)%nat.
  - split.
    + apply map_lookup_filter_Some. split; [apply lookup_insert_eq|]. cbn. unfold since. lia.
    + intros Hne. destruct (filter _ _ !! k') as [v|] eqn:E.
      * apply map_lookup_filter_Some in E as [E _]. rewrite lookup_insert_ne in E by done. by left.
      * destruct (m !! k') as [last|] eqn:Em; [right|by left]. exists last. split; [done|].
        apply map_lookup_filter_None in E as [E|E]; [rewrite lookup_insert_ne in E by done; congruence|].
        specialize (E last). rewrite lookup_insert_ne in E by done. cbn in E. unfold since in E.
        destruct (Z_lt_ge_dec (now - last) w); [|lia]. exfalso. apply E; [done|]. lia.
  - split; [apply lookup_insert_eq|]. intros Hne. left. by rewrite lookup_insert_ne.
Qed.
(** A permitted action, stamped, keeps the log spaced.  [w0] is the limit of
    the action, [w] the one the log is checked against. *)
Lemma tracked_fire w w0 wp now k m m' l hi :
  hi <= now -> 0 < w -> w <= w0 -> w <= wp ->
  (m' = stamp wp now k m \/ m' = <[ k := now ]> m) ->
  recent w0 now k m = false -> tracked w m l hi -> tracked w m' (l ++ [(now, k)]) now.
Proof.
  intros Hhi Hw Hw0 Hwp Hm' Hr [Hs Ht].
  assert (Hk : m' !! k = Some now).
  { destruct Hm' as [->| ->]; [|apply lookup_insert_eq]. by apply (stamp_lookup wp now k m k); lia. }
  assert (Hne : forall k', k' <> k -> m' !! k' = m !! k' \/ exists last, m !! k' = Some last /\ wp <= now - last).
  { intros k' Hne. destruct Hm' as [->| ->]; [by apply (stamp_lookup wp now k m k'); [lia|]|].
    left. by rewrite lookup_insert_ne. }
  split.
  - intros i j t1 t2 k' Hij Hi Hj. apply lookup_app_Some in Hj as [Hj|[Hlen Hj]].
    { apply (Hs i j t1 t2 k' Hij); [|done]. rewrite lookup_app_l in Hi; [done|]. apply lookup_lt_Some in Hj. lia. }
    apply list_lookup_singleton_Some in Hj as [Hj [= <- <-]].
    rewrite lookup_app_l in Hi by lia. apply list_elem_of_lookup_2 in Hi.
    destruct (Ht t1 k Hi) as [(last & Hlast & Hle)|?]; [|lia].
    unfold recent in Hr. rewrite Hlast in Hr. apply Z.ltb_ge in Hr. unfold since in Hr. lia.
  - intros t k' Hin. apply elem_of_app in Hin as [Hin|Hin].
    + destruct (decide (k' = k)) as [->|Hkk].
      * destruct (Ht t k Hin) as [(last & Hlast & Hle)|?]; [|right; lia].
        unfold recent in Hr. rewrite Hlast in Hr. apply Z.ltb_ge in Hr. unfold since in Hr. right. lia.
      * destruct (Ht t k' Hin) as [(last & Hlast & Hle)|?]; [|right; lia].
        destruct (Hne k' Hkk) as [->|(last' & Hlast' & Hold)]; [left; eauto|].
        rewrite Hlast in Hlast'. injection Hlast' as ->. right. lia.
    + apply list_elem_of_singleton in Hin. injection Hin as -> ->. left. exists now. split; [done|lia].
Qed.
End Limit.

(** ** What a line changes *)
Definition with_helper (h : Helper) (o : Observer) : Observer :=
  {| ob_helper := h; ob_recently := ob_recently o; ob_bridge_warned := ob_bridge_warned o;
     ob_healed_uids := ob_healed_uids o; ob_healed_getgrouplist := ob_healed_getgrouplist o;
     ob_last_heal := ob_last_heal o; ob_events := ob_events o |}.
(** Events that no limit is about. *)
Definition plain (e : Event) : bool :=
  match e with FastHeal _ | BridgeWarning _ | SentRebulk | SentSighup _ | AskedGroups _ => true | _ => false end.
Definition group_sel (p : Z * Event) : option (Z * string) :=
  match p.2 with GroupHeal u _ _ => Some (p.1, u) | _ => None end.
Definition uid_sel (p : Z * Event) : option (Z * Z) :=
  match p.2 with UidHeal u _ _ => Some (p.1, u) | _ => None end.
Definition candidate_sel (p : Z * Event) : option (Z * string) :=
  match p.2 with Observed c | LeftAlone c => Some (p.1, c) | _ => None end.
Definition group_view (o : Observer) := (ob_healed_getgrouplist o, ob_last_heal o, omap group_sel (ob_events o)).
Definition uid_view (o : Observer) := (ob_healed_uids o, omap uid_sel (ob_events o)).
Definition candidate_view (o : Observer) := (ob_recently o, omap candidate_sel (ob_events o)).
(** A computation that leaves a view as it is. *)
Definition calm {V A} (view : Observer -> V) (m : M Observer A) : Prop := forall o, view (snd (m o)) = view o.

Section Calm.
Context {V : Type} (view : Observer -> V).
Lemma calm_ret {A} (a : A) : calm view (ret a).
Proof. by intros o. Qed.
Lemma calm_get {A} (f : Observer -> A) : calm view (get f).
Proof. by intros o. Qed.
Lemma calm_bind {A B} (m : M Observer A) (k : A -> M Observer B) :
  calm view m -> (forall a, calm view (k a)) -> calm view (bind m k).
Proof. intros Hm Hk o. rewrite bind_run, Hk. apply Hm. Qed.
End Calm.
Ltac calm_step :=
  match goal with
  | |- calm _ (bind _ _) => apply calm_bind; [|intros ?]
  | |- calm _ (ret _) => apply calm_ret
  | |- calm _ (get _) => apply calm_get
  | |- calm _ (let _ := _ in _) => cbv zeta
  | |- calm _ (match ?x with _ => _ end) => destruct x
  end.
Ltac calm_all := repeat (first [solve [auto with calm typeclass_instances nocore] | calm_step]).
Create HintDb calm discriminated.

(** The views that only care about the events that are not plain. *)
Class View {V} (view : Observer -> V) : Prop := {
  view_helper o h : view (with_helper h o) = view o;
  view_emit o t e : plain e = true -> view (snd (emit t e o)) = view o;
}.
Lemma omap_plain {A} (sel : Z * Event -> option A) l x : sel x = None -> omap sel (l ++ [x]) = omap sel l.
Proof. intros H. rewrite omap_app. cbn. rewrite H. apply app_nil_r. Qed.
#[export] Instance group_view_view : View group_view.
Proof. split; [done|]. intros o t e He. unfold group_view. cbn. rewrite omap_plain; [done|]. by destruct e. Qed.
#[export] Instance uid_view_view : View uid_view.
Proof. split; [done|]. intros o t e He. unfold uid_view. cbn. rewrite omap_plain; [done|]. by destruct e. Qed.
#[export] Instance candidate_view_view : View candidate_view.
Proof. split; [done|]. intros o t e He. unfold candidate_view. cbn. rewrite omap_plain; [done|]. by destruct e. Qed.

Section Lines.
Context `{!HashIter string, !HashIter Z}.
Context (server : nat -> Query -> Attempt) (op_timeout_secs : Z).
Context (commands : nat -> list string -> option string).
Context (config : nat -> option HelperConfig) (env_force : option string).
Context (ws : nat -> string -> WriteWorld) (read_fails : nat -> string -> bool).
Context (paths : NssMaterializePaths) (cache_path realm : string) (variants : list string).
Context (ua : string -> bool).
Context (live_pid : Z -> option Z) (env_sighup : option string) (socket_up : Z -> bool).
Local Abbreviation resolve :=
  (Observer.resolve_principal server op_timeout_secs commands config env_force ws read_fails paths cache_path realm variants).
Local Abbreviation gids :=
  (resolve_gids server op_timeout_secs commands config env_force ws read_fails paths cache_path realm variants).
Local Abbreviation heal :=
  (heal_principal_immediately server op_timeout_secs commands config env_force ws read_fails paths cache_path realm
     variants live_pid env_sighup).
Local Abbreviation detect_groups :=
  (detect_my_getgrouplist_failure_and_heal server op_timeout_secs commands config env_force ws read_fails paths
     cache_path realm variants ua live_pid env_sighup socket_up).
Local Abbreviation detect_uid :=
  (detect_managed_gids_uid_failure_and_heal server op_timeout_secs commands config env_force ws read_fails paths
     cache_path realm variants live_pid env_sighup socket_up).
Local Abbreviation candidate :=
  (observe_candidate server op_timeout_secs commands config env_force ws read_fails paths cache_path realm
     variants live_pid env_sighup).
Local Abbreviation line_step :=
  (observe_line server op_timeout_secs commands config env_force ws read_fails paths cache_path realm variants ua
     live_pid env_sighup socket_up).

Section Common.
Context {V : Type} (view : Observer -> V) `{!View view}.
Lemma calm_on_helper {A} (m : M Helper A) : calm view (on_helper m).
Proof. intros o. unfold on_helper. destruct (m (ob_helper o)) as [a h]. apply (view_helper o h). Qed.
Lemma calm_emit t e : plain e = true -> calm view (emit t e).
Proof. intros He o. by apply view_emit. Qed.
Lemma calm_resolve p : calm view (resolve p).
Proof. apply calm_on_helper. Qed.
Lemma calm_gids p force : calm view (gids p force).
Proof. apply calm_on_helper. Qed.
Lemma calm_rematerialize : calm view (rematerialize config ws paths).
Proof. apply calm_on_helper. Qed.
Lemma calm_sighup t : calm view (send_sighup live_pid env_sighup t).
Proof. unfold send_sighup. calm_all. by apply calm_emit. Qed.
Lemma calm_rebulk t : calm view (send_rebulk socket_up t).
Proof. unfold send_rebulk. calm_all. by apply calm_emit. Qed.
Local Hint Resolve calm_resolve calm_gids calm_rematerialize calm_sighup calm_rebulk : calm.
Lemma calm_heal t p sighup : calm view (heal t p sighup).
Proof. unfold heal_principal_immediately. calm_all. by apply calm_emit. Qed.
End Common.

Local Hint Resolve calm_resolve calm_gids calm_rematerialize calm_sighup calm_rebulk calm_heal : calm.
Local Ltac calm_leaf :=
  calm_all; try (match goal with |- calm ?v (emit _ _) => apply (calm_emit v); reflexivity end);
  try (intros o; unfold group_view, uid_view, candidate_view; cbn; rewrite ?omap_plain by done; done).
Lemma calm_bridge {V} (view : Observer -> V) `{!View view} t line :
  (forall f, calm view (set_bridge_warned f)) -> calm view (maybe_warn_bridge_server_addr ua t line).
Proof. intros Hs. unfold maybe_warn_bridge_server_addr. calm_all; first [apply Hs|by apply calm_emit]. Qed.

(** The getgrouplist detector. *)
Definition group_step (t : Z) (line : string) (v : gmap string Z * option Z * list (Z * string)) :=
  let '(m, last, l) := v in
  let user := default "unknown" (extract_user_from_getgrouplist_line ua line) in
  if negb (getgrouplist_failed line) || recent heal_window t user m
     || (match last with Some x => since t x <? heal_floor | None => false end)
  then v else (stamp heal_window t user m, Some t, l ++ [(t, user)]).
Lemma group_detector t line o : group_view (snd (detect_groups t line o)) = group_step t line (group_view o).
Proof.
  unfold detect_my_getgrouplist_failure_and_heal, group_step. cbn [group_view].
  destruct (getgrouplist_failed line); [|done]. cbn [negb orb]. rewrite !bind_run. cbn [get fst snd].
  destruct (recent heal_window t _ _); [done|]. cbn [orb].
  destruct (match ob_last_heal o with Some l => since t l <? heal_floor | None => false end); [done|].
  rewrite bind_run. cbn [set_group_heals modify fst snd]. rewrite bind_run.
  match goal with |- group_view (snd (?m ?s)) = _ => assert (Hc : calm group_view m) by calm_leaf; rewrite (Hc s) end.
  unfold group_view. cbn. rewrite omap_app. done.
Qed.
Lemma uid_calm_group t line : calm group_view (detect_uid t line).
Proof. unfold detect_managed_gids_uid_failure_and_heal. calm_leaf. Qed.
Lemma candidate_calm_group t line c : calm group_view (candidate t line c).
Proof. unfold observe_candidate. calm_leaf. Qed.
Lemma line_group c raw o : group_view (snd (line_step c raw o)) = group_step (t_groups c) (trim raw) (group_view o).
Proof.
  unfold observe_line. cbv zeta. rewrite bind_run.
  assert (Hb : calm group_view (maybe_warn_bridge_server_addr ua (t_bridge c) (trim raw)))
    by (apply calm_bridge; [apply _|by intros f o']).
  rewrite <- (Hb o), <- group_detector, bind_run. set (s := snd (_ : unit * Observer)).
  match goal with |- group_view (snd (?m s)) = _ => assert (Hc : calm group_view m); [|apply (Hc s)] end.
  apply calm_bind; [apply uid_calm_group|]. intros _.
  destruct (extract_candidate_principal ua realm (trim raw)) as [[p|]|]; calm_all. apply candidate_calm_group.
Qed.

(** The uid detector. *)
Definition uid_step (t : Z) (line : string) (v : gmap Z Z * list (Z * Z)) :=
  match extract_uid_from_managed_gids_failure line with
  | Some uid => if recent heal_window t uid v.1 then v else (<[ uid := t ]> v.1, v.2 ++ [(t, uid)])
  | None => v
  end.
Lemma uid_detector t line o : uid_view (snd (detect_uid t line o)) = uid_step t line (uid_view o).
Proof.
  unfold detect_managed_gids_uid_failure_and_heal, uid_step.
  destruct (extract_uid_from_managed_gids_failure line) as [uid|]; [|done].
  rewrite bind_run. cbn [get fst snd uid_view]. destruct (recent heal_window t uid _); [done|].
  rewrite bind_run. cbn [set_healed_uids modify fst snd]. rewrite bind_run. cbn [get fst snd].
  rewrite bind_run. cbn [get fst snd]. rewrite bind_run. cbn [emit modify fst snd].
  match goal with |- uid_view (snd (?m ?s)) = _ => assert (Hc : calm uid_view m) by calm_leaf; rewrite (Hc s) end.
  unfold uid_view. cbn. rewrite omap_app. done.
Qed.
Lemma group_calm_uid t line : calm uid_view (detect_groups t line).
Proof. unfold detect_my_getgrouplist_failure_and_heal. calm_leaf. Qed.
Lemma candidate_calm_uid t line c : calm uid_view (candidate t line c).
Proof. unfold observe_candidate. calm_leaf. Qed.
Lemma line_uid c raw o : uid_view (snd (line_step c raw o)) = uid_step (t_uid c) (trim raw) (uid_view o).
Proof.
  unfold observe_line. cbv zeta. rewrite bind_run.
  assert (Hb : calm uid_view (maybe_warn_bridge_server_addr ua (t_bridge c) (trim raw)))
    by (apply calm_bridge; [apply _|by intros f o']).
  rewrite bind_run, bind_run. set (s0 := snd (maybe_warn_bridge_server_addr _ _ _ _)).
  set (s1 := snd (detect_groups (t_groups c) (trim raw) s0)).
  assert (E : uid_view s1 = uid_view o) by (unfold s1; rewrite group_calm_uid; apply Hb).
  rewrite <- E, <- uid_detector. set (s := snd (detect_uid _ _ _)).
  match goal with |- uid_view (snd (?m s)) = _ => assert (Hc : calm uid_view m); [|apply (Hc s)] end.
  destruct (extract_candidate_principal ua realm (trim raw)) as [[p|]|]; calm_all. apply candidate_calm_uid.
Qed.

(** The candidate. *)
Definition candidate_step (t : Z) (line : string) (v : gmap string Z * list (Z * string)) :=
  match extract_candidate_principal ua realm line with
  | Some (Some c) =>
      if recent (if failure_line line then failure_dedup_window else dedup_window) t c v.1 then v
      else (stamp dedup_window t c v.1, v.2 ++ [(t, c)])
  | _ => v
  end.
Lemma candidate_handler t line c o :
  extract_candidate_principal ua realm line = Some (Some c) ->
  candidate_view (snd (candidate t line c o)) = candidate_step t line (candidate_view o).
Proof.
  intros E. unfold observe_candidate, candidate_step. rewrite E. cbv zeta. rewrite bind_run.
  cbn [get fst snd candidate_view]. destruct (recent _ t c _); [done|].
  rewrite bind_run. cbn [set_recently modify fst snd].
  destruct (negb (unmapped_principal_needs_heal c realm variants)).
  - unfold candidate_view. cbn. rewrite omap_app. done.
  - rewrite bind_run. set (s := Build_Observer _ _ _ _ _ _ _).
    match goal with |- context [snd (?m s)] => assert (Hh : calm candidate_view m) by calm_leaf;
      specialize (Hh s); set (s1 := snd (m s)) in * end.
    rewrite bind_run. cbn [emit modify fst snd].
    match goal with |- candidate_view (snd (?m ?x)) = _ => assert (Hc : calm candidate_view m) by calm_leaf;
      rewrite (Hc x) end.
    unfold candidate_view in *. cbn in *. injection Hh as H1 H2. rewrite omap_app, H1, H2. done.
Qed.
Lemma group_calm_candidate t line : calm candidate_view (detect_groups t line).
Proof. unfold detect_my_getgrouplist_failure_and_heal. calm_leaf. Qed.
Lemma uid_calm_candidate t line : calm candidate_view (detect_uid t line).
Proof. unfold detect_managed_gids_uid_failure_and_heal. calm_leaf. Qed.
Lemma line_candidate c raw o :
  candidate_view (snd (line_step c raw o)) = candidate_step (t_candidate c) (trim raw) (candidate_view o).
Proof.
  unfold observe_line. cbv zeta. rewrite bind_run.
  assert (Hb : calm candidate_view (maybe_warn_bridge_server_addr ua (t_bridge c) (trim raw)))
    by (apply calm_bridge; [apply _|by intros f o']).
  rewrite bind_run, bind_run. set (s0 := snd (maybe_warn_bridge_server_addr _ _ _ _)).
  set (s := snd (detect_uid _ _ _)).
  assert (E : candidate_view s = candidate_view o)
    by (unfold s; rewrite uid_calm_candidate, group_calm_candidate; apply Hb).
  rewrite <- E. destruct (extract_candidate_principal ua realm (trim raw)) as [[p|]|] eqn:Ep.
  - rewrite bind_run. cbn [ret snd]. by apply candidate_handler.
  - unfold candidate_step. by rewrite Ep.
  - unfold candidate_step. by rewrite Ep.
Qed.

(** ** Rate limits over a run *)
Definition floor_map (last : option Z) : gmap unit Z := match last with Some x => {[ tt := x ]} | None => ∅ end.
Definition times {K} (l : list (Z * K)) : list (Z * unit) := map (fun x => (x.1, tt)) l.
Definition limits_hold (c : Clock) (o : Observer) : Prop :=
  let '(m, last, l) := group_view o in
  tracked heal_window m l (t_groups c) /\ tracked heal_floor (floor_map last) (times l) (t_groups c)
  /\ tracked heal_window (uid_view o).1 (uid_view o).2 (t_uid c)
  /\ tracked failure_dedup_window (candidate_view o).1 (candidate_view o).2 (t_candidate c).
(** The clock of each detector does not go back. *)
Fixpoint ticking (c : Clock) (l : list (Clock * string)) : Prop :=
  match l with
  | [] => True
  | (c', _) :: r =>
      t_groups c <= t_groups c' /\ t_uid c <= t_uid c' /\ t_candidate c <= t_candidate c' /\ ticking c' r
  end.
Lemma recent_floor t last : recent heal_floor t tt (floor_map last)
  = match last with Some x => since t x <? heal_floor | None => false end.
Proof. unfold recent, floor_map. destruct last; [|by rewrite lookup_empty]. by rewrite lookup_singleton_eq. Qed.
Lemma group_step_limits t hi line m last l :
  hi <= t -> tracked heal_window m l hi -> tracked heal_floor (floor_map last) (times l) hi ->
  let '(m', last', l') := group_step t line (m, last, l) in
  tracked heal_window m' l' t /\ tracked heal_floor (floor_map last') (times l') t.
Proof.
  intros Hh H1 H2. unfold group_step.
  set (user := default "unknown" _). set (fires := negb _ || _ || _). destruct fires eqn:Ef; subst fires.
  { split; by eapply tracked_later. }
  apply orb_false_iff in Ef as [[_ Hr]%orb_false_iff Hl]. split.
  - eapply tracked_fire; [exact Hh|done|done|done|by left|exact Hr|exact H1].
  - unfold times. rewrite map_app. cbn [map fst].
    eapply (tracked_fire heal_floor heal_floor heal_floor t tt (floor_map last)); [exact Hh|done|done|done| | |exact H2].
    + right. unfold floor_map. destruct last; [by rewrite insert_singleton_eq|by rewrite insert_empty].
    + by rewrite recent_floor.
Qed.
Lemma line_limits hi c raw o :
  t_groups hi <= t_groups c -> t_uid hi <= t_uid c -> t_candidate hi <= t_candidate c ->
  limits_hold hi o -> limits_hold c (snd (line_step c raw o)).
Proof.
  unfold limits_hold. intros Hg Hu Hc. rewrite line_uid, line_candidate, line_group.
  destruct (group_view o) as [[m last] l]. intros (H1 & H2 & H3 & H4).
  pose proof (group_step_limits (t_groups c) _ (trim raw) m last l Hg H1 H2) as H.
  destruct (group_step _ _ _) as [[m' last'] l']. destruct H as [H1' H2']. split; [done|]. split; [done|]. split.
  - unfold uid_step. destruct (extract_uid_from_managed_gids_failure _) as [u|]; [|by eapply tracked_later].
    destruct (recent heal_window (t_uid c) u _) eqn:Er; [by eapply tracked_later|].
    eapply tracked_fire; [exact Hu|done|done|done|by right|exact Er|exact H3].
  - unfold candidate_step. destruct (extract_candidate_principal _ _ _) as [[p|]|]; [|by eapply tracked_later..].
    destruct (recent _ (t_candidate c) p _) eqn:Er; [by eapply tracked_later|].
    eapply (tracked_fire failure_dedup_window _ dedup_window); [exact Hc|done| |done|by left|exact Er|exact H4].
    by destruct (failure_line (trim raw)).
Qed.
(** ** Bursts *)
(** What one detector does for one line it acts on, with the SIGHUP that was
    sent, if any. *)
Inductive Burst :=
| GroupBurst (t : Z) (user : string) (ngroups errno : Z) (rebulk : bool) (sighup : option Z)
| UidBurst (t uid : Z) (row_present : bool) (principal : option string) (rebulk : bool) (sighup : option Z)
| CandidateBurst (t : Z) (principal : string) (healed : bool) (sighup : option Z)
| LeftBurst (t : Z) (principal : string)
| WarningBurst (t : Z) (addr : string).
Definition sighup_events (t : Z) (pid : option Z) : list (Z * Event) :=
  match pid with Some pid => [(t, SentSighup pid)] | None => [] end.
Definition rebulk_events (t : Z) (sent : bool) : list (Z * Event) := if sent then [(t, SentRebulk)] else [].
Definition full_name (user : string) : string := if contains_char "@" user then user else user +:+ "@" +:+ realm.
Definition burst_events (b : Burst) : list (Z * Event) :=
  match b with
  | GroupBurst t user n e rebulk sighup =>
      [(t, GroupHeal user n e)] ++ rebulk_events t rebulk ++ sighup_events t sighup
        ++ [(t, AskedGroups "root"); (t, AskedGroups (full_name user))]
        ++ (if seqb user (full_name user) then [] else [(t, AskedGroups user)])
  | UidBurst t uid row (Some p) _ sighup =>
      [(t, UidHeal uid row (Some p)); (t, FastHeal p)] ++ sighup_events t sighup
  | UidBurst t uid row None rebulk sighup =>
      [(t, UidHeal uid row None)] ++ rebulk_events t rebulk ++ sighup_events t sighup
  | CandidateBurst t p healed sighup =>
      (if healed then [(t, FastHeal p)] ++ sighup_events t sighup else []) ++ [(t, Observed p)]
  | LeftBurst t p => [(t, LeftAlone p)]
  | WarningBurst t addr => [(t, BridgeWarning addr)]
  end.
(** The bursts that touch the cache, the stores or another process. *)
Definition acting (b : Burst) : bool := match b with LeftBurst _ _ | WarningBurst _ _ => false | _ => true end.
Definition group_burst (b : Burst) : option (Z * string) :=
  match b with GroupBurst t u _ _ _ _ => Some (t, u) | _ => None end.
Definition uid_burst (b : Burst) : option (Z * Z) := match b with UidBurst t u _ _ _ _ => Some (t, u) | _ => None end.
Definition candidate_burst (b : Burst) : option (Z * string) :=
  match b with CandidateBurst t p _ _ | LeftBurst t p => Some (t, p) | _ => None end.

(** A computation whose events are known, and one that works in bursts. *)
Definition emits {A} (m : M Observer A) (es : list (Z * Event)) : Prop :=
  forall o, ob_events (snd (m o)) = ob_events o ++ es.
Definition bursting {A} (m : M Observer A) : Prop := forall o, exists bs,
  ob_events (snd (m o)) = ob_events o ++ flat_map burst_events bs
  /\ (existsb acting bs = false -> ob_helper (snd (m o)) = ob_helper o).
Lemma emits_nil {A} (m : M Observer A) : calm ob_events m -> emits m [].
Proof. intros Hm o. rewrite app_nil_r. apply Hm. Qed.
Lemma emits_bind {A B} (m : M Observer A) (k : A -> M Observer B) es fs :
  emits m es -> (forall a, emits (k a) fs) -> emits (bind m k) (es ++ fs).
Proof. intros Hm Hk o. rewrite bind_run, Hk, Hm. by rewrite app_assoc. Qed.
Lemma emits_emit t e : emits (emit t e) [(t, e)].
Proof. by intros o. Qed.
Lemma emits_on_helper {A} (m : M Helper A) : emits (on_helper m) [].
Proof. intros o. unfold on_helper. destruct (m (ob_helper o)). cbn. by rewrite app_nil_r. Qed.
Definition sighup_sent (t : Z) : option Z :=
  pid ← live_pid t; if signal_ganesha_reload_idmap env_sighup pid then Some pid else None.
Lemma emits_sighup t : emits (send_sighup live_pid env_sighup t) (sighup_events t (sighup_sent t)).
Proof.
  intros o. unfold send_sighup, sighup_sent. destruct (live_pid t) as [pid|]; [cbn|by rewrite app_nil_r].
  destruct (signal_ganesha_reload_idmap env_sighup pid); cbn; [done|by rewrite app_nil_r].
Qed.
Lemma emits_rebulk t : emits (send_rebulk socket_up t) (rebulk_events t (socket_up t)).
Proof. intros o. unfold send_rebulk. destruct (socket_up t); cbn; [done|by rewrite app_nil_r]. Qed.
Lemma emits_skip {A B} (m : M Observer A) (k : A -> M Observer B) fs :
  emits m [] -> (forall a, emits (k a) fs) -> emits (bind m k) fs.
Proof. intros Hm Hk. apply (emits_bind m k [] fs); done. Qed.
Lemma emits_heal t p sighup :
  emits (heal t p sighup) ([(t, FastHeal p)] ++ sighup_events t (if sighup then sighup_sent t else None)).
Proof.
  unfold heal_principal_immediately. apply emits_bind; [apply emits_emit|intros _].
  do 3 (apply emits_skip; [apply emits_on_helper|intros _]).
  destruct sighup; [apply emits_sighup|]. apply emits_nil, calm_ret.
Qed.
Lemma bursting_bind {A B} (m : M Observer A) (k : A -> M Observer B) :
  bursting m -> (forall a, bursting (k a)) -> bursting (bind m k).
Proof.
  intros Hm Hk o. destruct (Hm o) as (b1 & E1 & H1). rewrite bind_run.
  destruct (Hk (fst (m o)) (snd (m o))) as (b2 & E2 & H2). exists (b1 ++ b2).
  rewrite E2, E1, flat_map_app, app_assoc. split; [done|].
  rewrite existsb_app. intros [Ha Hb]%orb_false_iff. by rewrite (H2 Hb), (H1 Ha).
Qed.
Lemma no_burst o o' : ob_events o' = ob_events o -> ob_helper o' = ob_helper o -> exists bs,
  ob_events o' = ob_events o ++ flat_map burst_events bs
  /\ (existsb acting bs = false -> ob_helper o' = ob_helper o).
Proof. intros -> ->. exists []. by rewrite app_nil_r. Qed.
Lemma acting_burst b o o' : acting b = true -> ob_events o' = ob_events o ++ burst_events b -> exists bs,
  ob_events o' = ob_events o ++ flat_map burst_events bs
  /\ (existsb acting bs = false -> ob_helper o' = ob_helper o).
Proof. intros Hb ->. exists [b]. cbn. rewrite app_nil_r, Hb. done. Qed.
Lemma quiet_burst b o o' :
  ob_events o' = ob_events o ++ burst_events b -> ob_helper o' = ob_helper o -> exists bs,
  ob_events o' = ob_events o ++ flat_map burst_events bs
  /\ (existsb acting bs = false -> ob_helper o' = ob_helper o).
Proof. intros -> ->. exists [b]. cbn. by rewrite app_nil_r. Qed.
Lemma bursting_ret {A} (a : A) : bursting (ret a).
Proof. intros o. by apply no_burst. Qed.
Lemma bridge_bursts t line : bursting (maybe_warn_bridge_server_addr ua t line).
Proof.
  intros o. unfold maybe_warn_bridge_server_addr.
  destruct (extract_server_addr_from_ganesha_line _); [|by apply no_burst].
  destruct (negb _); [by apply no_burst|].
  destruct (extract_linux_nfs_hostname ua _); [|by apply no_burst].
  rewrite bind_run. cbn [get fst snd]. destruct (recent _ _ _ _); [by apply no_burst|].
  by apply (quiet_burst (WarningBurst t s)).
Qed.
Lemma group_bursts t line : bursting (detect_groups t line).
Proof.
  intros o. unfold detect_my_getgrouplist_failure_and_heal. destruct (negb _); [by apply no_burst|].
  rewrite !bind_run. cbn [get fst snd]. destruct (recent _ _ _ _); [by apply no_burst|].
  destruct (match ob_last_heal o with Some l => _ | None => _ end); [by apply no_burst|].
  rewrite bind_run. cbn [set_group_heals modify fst snd]. set (o1 := Build_Observer _ _ _ _ _ _ _).
  set (user := default "unknown" _).
  apply (acting_burst (GroupBurst t user (default 0 (extract_ngroups line)) (default 0 (extract_errno line))
                         (socket_up t) (sighup_sent t))); [done|].
  change (ob_events o) with (ob_events o1). generalize o1. clear o1.
  match goal with |- forall o1, ob_events (snd (?m o1)) = _ => change (emits m (burst_events
    (GroupBurst t user (default 0 (extract_ngroups line)) (default 0 (extract_errno line)) (socket_up t) (sighup_sent t)))) end.
  cbn [burst_events]. apply emits_bind; [apply emits_emit|intros _]. apply emits_bind; [apply emits_rebulk|intros _].
  fold (full_name user). cbv zeta. do 5 (apply emits_skip; [apply emits_on_helper|intros _]).
  apply emits_bind; [apply emits_sighup|intros _]. cbn [app].
  apply (emits_bind _ _ [_]); [apply emits_emit|intros _]. apply (emits_bind _ _ [_]); [apply emits_emit|intros _].
  destruct (seqb user (full_name user)); [apply emits_nil, calm_ret|apply emits_emit].
Qed.
Lemma uid_bursts t line : bursting (detect_uid t line).
Proof.
  intros o. unfold detect_managed_gids_uid_failure_and_heal.
  destruct (extract_uid_from_managed_gids_failure line) as [uid|]; [|by apply no_burst].
  rewrite bind_run. cbn [get fst snd]. destruct (recent _ _ _ _); [by apply no_burst|].
  rewrite bind_run. cbn [set_healed_uids modify fst snd]. rewrite bind_run. cbn [get fst snd].
  rewrite bind_run. cbn [get fst snd ob_helper].
  set (cached := r_principal <$> _). set (row := nss_passwd_has_uid _ _). set (o1 := Build_Observer _ _ _ _ _ _ _).
  apply (acting_burst (UidBurst t uid row cached (socket_up t) (sighup_sent t))); [done|].
  change (ob_events o) with (ob_events o1). clearbody cached row. generalize o1. clear o1.
  match goal with |- forall o1, ob_events (snd (?m o1)) = _ => change (emits m (burst_events
    (UidBurst t uid row cached (socket_up t) (sighup_sent t)))) end.
  destruct cached as [p|]; cbn [burst_events].
  - apply (emits_bind _ _ [_] (_ :: _)); [apply emits_emit|intros _]. apply (emits_heal t p true).
  - apply (emits_bind _ _ [_]); [apply emits_emit|intros _]. apply emits_bind; [apply emits_rebulk|intros _].
    apply emits_skip; [apply emits_on_helper|intros _]. apply emits_sighup.
Qed.
Lemma candidate_bursts t line c : bursting (candidate t line c).
Proof.
  intros o. unfold observe_candidate. cbv zeta. rewrite bind_run. cbn [get fst snd].
  destruct (recent _ t c _); [by apply no_burst|]. rewrite bind_run. cbn [set_recently modify fst snd].
  set (o1 := Build_Observer _ _ _ _ _ _ _).
  destruct (negb _); [by apply (quiet_burst (LeftBurst t c))|].
  set (hup := if contains_str "Could not map principal " line then sighup_sent t else None).
  apply (acting_burst (CandidateBurst t c (failure_line line) hup)); [done|].
  change (ob_events o) with (ob_events o1). generalize o1. clear o1.
  match goal with |- forall o1, ob_events (snd (?m o1)) = _ =>
    change (emits m (burst_events (CandidateBurst t c (failure_line line) hup))) end.
  cbn [burst_events]. apply emits_bind.
  - destruct (failure_line line); [apply emits_heal|apply emits_nil, calm_ret].
  - intros _. apply (emits_bind _ _ [_] []); [apply emits_emit|intros _].
    apply emits_skip; [apply emits_on_helper|intros _]. apply emits_on_helper.
Qed.
Lemma line_bursts c raw : bursting (line_step c raw).
Proof.
  unfold observe_line. cbv zeta. apply bursting_bind; [apply bridge_bursts|intros _].
  apply bursting_bind; [apply group_bursts|intros _]. apply bursting_bind; [apply uid_bursts|intros _].
  destruct (extract_candidate_principal ua realm (trim raw)) as [[p|]|]; [|apply bursting_ret..].
  apply bursting_bind; [apply candidate_bursts|intros _; apply bursting_ret].
Qed.
(** The bursts are found again from the events that open or close them. *)
Lemma sel_bursts {K} (sel : Z * Event -> option (Z * K)) (pick : Burst -> option (Z * K)) :
  (forall b, omap sel (burst_events b) = option_list (pick b)) ->
  forall bs, omap sel (flat_map burst_events bs) = omap pick bs.
Proof.
  intros H bs. induction bs as [|b bs IH]; [done|]. cbn. rewrite omap_app, H, IH. by destruct (pick b).
Qed.
Lemma burst_sels b :
  omap group_sel (burst_events b) = option_list (group_burst b)
  /\ omap uid_sel (burst_events b) = option_list (uid_burst b)
  /\ omap candidate_sel (burst_events b) = option_list (candidate_burst b).
Proof.
  destruct b as [t u n e rb hup|t u row p rb hup|t p healed hup|t p|t a]; cbn; [| | |done..].
  - destruct rb, hup, (seqb u (full_name u)); done.
  - destruct p, rb, hup; done.
  - destruct healed, hup; done.
Qed.
Lemma run_limits c0 l o :
  ticking c0 l -> limits_hold c0 o -> exists c1, limits_hold c1 (snd (observe_lines server op_timeout_secs commands
    config env_force ws read_fails paths cache_path realm variants ua live_pid env_sighup socket_up l o)).
Proof.
  revert c0 o. induction l as [|[c raw] l IH]; intros c0 o Ht Hi; [by exists c0|].
  destruct Ht as (Hg & Hu & Hc & Ht). cbn [observe_lines]. rewrite bind_run.
  pose proof (line_limits c0 c raw o Hg Hu Hc Hi) as Hl.
  destruct (line_step c raw o) as [alive o']. cbn [fst snd] in *.
  destruct alive; [by apply (IH c)|by exists c].
Qed.
Lemma run_bursts l : bursting (observe_lines server op_timeout_secs commands config env_force ws read_fails paths
  cache_path realm variants ua live_pid env_sighup socket_up l).
Proof.
  induction l as [|[c raw] l IH]; [apply bursting_ret|]. cbn [observe_lines].
  apply bursting_bind; [apply line_bursts|]. intros []; [apply IH|apply bursting_ret].
Qed.
(** C39: the observer acts under its limits.  A line that starts no burst leaves the
    cache and every store alone, and everything the observer does over a log
    (heals, SIGHUPs to Ganesha, rebulk requests, group queries) falls into bursts,
    each with at most one heal, one SIGHUP and one rebulk request.  While the
    clocks of the detectors do not go back: bursts over failing group lists are
    at least 5 s apart and, for the same user, 30 s; bursts over the same failing
    uid are at least 30 s apart; and bursts over the same principal named by a
    line, its heal and its SIGHUP included, at least 2 s.  The three limits are
    separate: one principal may be healed by a uid burst and by its own in the
    same 2 s.  A map that is pruned does not forget a limit. *)
Theorem heals_rate_limited c0 l h :
  (forall c raw, bursting (line_step c raw))
  /\ exists bs,
    let o := snd (observe_lines server op_timeout_secs commands config env_force ws read_fails paths cache_path realm
                    variants ua live_pid env_sighup socket_up l (observer_start h)) in
    ob_events o = flat_map burst_events bs
    /\ (existsb acting bs = false -> ob_helper o = h)
    /\ (ticking c0 l ->
        spaced heal_floor (times (omap group_burst bs)) /\ spaced heal_window (omap group_burst bs)
        /\ spaced heal_window (omap uid_burst bs)
        /\ spaced failure_dedup_window (omap candidate_burst bs)).
Proof.
  split; [intros c raw; apply line_bursts|]. destruct (run_bursts l (observer_start h)) as (bs & E & Hq).
  exists bs. split; [exact E|]. split; [exact Hq|]. intros Ht.
  destruct (run_limits c0 l (observer_start h) Ht) as [c1 H1].
  { split; [apply tracked_nil|]. split; [apply tracked_nil|]. split; apply tracked_nil. }
  unfold limits_hold, group_view, uid_view, candidate_view in H1. rewrite E in H1. cbn [observer_start ob_events app] in H1.
  rewrite (sel_bursts group_sel group_burst) in H1 by (intros b; apply burst_sels).
  rewrite (sel_bursts uid_sel uid_burst) in H1 by (intros b; apply burst_sels).
  rewrite (sel_bursts candidate_sel candidate_burst) in H1 by (intros b; apply burst_sels).
  destruct H1 as ([? _] & [? _] & [? _] & [? _]). done.
Qed.

(** ** Clients are left alone *)
Definition quiet_event (e : Event) : bool := match e with BridgeWarning _ | LeftAlone _ => true | _ => false end.
Lemma hostname_solid h : sall hostname_byte h = true -> sall solid h = true.
Proof. apply sall_impl. intros c. destruct c as [[] [] [] [] [] [] [] []]; by vm_compute. Qed.
(** The machine principal of a client is not worth a heal. *)
Lemma client_host_left h :
  trim_end realm = realm -> sall hostname_byte h = true ->
  (forall v, v ∈ variants -> eq_ignore_ascii_case v h = false) ->
  unmapped_principal_needs_heal (host_principal realm h) realm variants = false.
Proof.
  intros Hr Hh Hv. unfold unmapped_principal_needs_heal. rewrite classify_fst. unfold machine_prefix.
  change (host_principal realm h) with (("host/" +:+ h) +:+ String "@" realm).
  assert (Hno : contains_char "@" ("host/" +:+ h) = false).
  { rewrite contains_char_app. cbn [orb contains_char sany]. by rewrite (sall_no_char hostname_byte "@" h eq_refl Hh). }
  assert (Hts : trim_start ("host/" +:+ h) = "host/" +:+ h).
  { unfold trim_start. rewrite <- (of_bytes_bytes ("host/" +:+ h)) at 2. reflexivity. }
  rewrite (local_part_at _ _ Hts Hr Hno). cbn [to_ascii_lowercase smap String.append].
  change (split_once "/" ("host/" +:+ h)) with (Some ("host", h)). cbn -[eq_ignore_ascii_case trim].
  rewrite (trim_all_solid h) by by apply hostname_solid.
  apply not_true_iff_false. intros (v & Hin%list_elem_of_In & He)%existsb_exists. by rewrite Hv in He.
Qed.
(** A line that only names the machine principal of a client changes neither the
    cache nor any store and signals nobody. *)
Theorem client_machines_left_alone c raw o cand :
  getgrouplist_failed (trim raw) = false -> extract_uid_from_managed_gids_failure (trim raw) = None ->
  extract_candidate_principal ua realm (trim raw) = Some (Some cand) ->
  (unmapped_principal_needs_heal cand realm variants = false
   \/ trim_end realm = realm /\ exists h, cand = host_principal realm h /\ sall hostname_byte h = true
        /\ forall v, v ∈ variants -> eq_ignore_ascii_case v h = false) ->
  let o' := snd (line_step c raw o) in
  ob_helper o' = ob_helper o
  /\ exists evs, ob_events o' = ob_events o ++ evs /\ forallb (fun x => quiet_event x.2) evs = true.
Proof.
  intros Hg Hu Hc Hn.
  assert (Hn' : unmapped_principal_needs_heal cand realm variants = false)
    by (destruct Hn as [Hn|(Hr & h & -> & Hh & Hv)]; [done|by apply client_host_left]).
  cbv zeta. unfold observe_line, detect_my_getgrouplist_failure_and_heal, detect_managed_gids_uid_failure_and_heal.
  rewrite Hg, Hu, Hc. cbn [negb]. rewrite !bind_run. cbn [ret fst snd].
  set (o1 := snd (maybe_warn_bridge_server_addr _ _ _ _)).
  assert (H1 : ob_helper o1 = ob_helper o
    /\ exists evs, ob_events o1 = ob_events o ++ evs /\ forallb (fun x => quiet_event x.2) evs = true).
  { unfold o1, maybe_warn_bridge_server_addr.
    destruct (extract_server_addr_from_ganesha_line _); [|cbn; split; [done|exists []; by rewrite app_nil_r]].
    destruct (negb _); [cbn; split; [done|exists []; by rewrite app_nil_r]|].
    destruct (extract_linux_nfs_hostname ua _); [|cbn; split; [done|exists []; by rewrite app_nil_r]].
    rewrite bind_run. cbn [get fst snd].
    destruct (recent _ _ _ _); cbn; (split; [done|]); [exists []; by rewrite app_nil_r|by eexists]. }
  destruct H1 as [Hh (evs & He & Hq)]. rewrite <- Hh.
  unfold observe_candidate. rewrite bind_run. cbn [get fst snd].
  destruct (recent _ (t_candidate c) cand _); [cbn; split; [done|by exists evs]|].
  rewrite bind_run, Hn'. cbn. split; [done|]. exists (evs ++ [(t_candidate c, LeftAlone cand)]).
  rewrite He, app_assoc, forallb_app, Hq. done.
Qed.

(** ** The shared cache stays well formed *)
Definition observer_ok (o : Observer) : Prop := helper_ok (ob_helper o).
Lemma on_helper_ok {A} (m : M Helper A) : keeps helper_ok m -> keeps observer_ok (on_helper m).
Proof. intros Hm o Ho. unfold on_helper. specialize (Hm _ Ho). by destruct (m (ob_helper o)). Qed.
Lemma ignored_ok {A} (m : M Helper A) : keeps helper_ok m -> keeps helper_ok (ignored m).
Proof. intros Hm. apply keeps_bind; [done|]. intros _. apply keeps_ret. Qed.
Lemma observe_resolve_ok p : keeps observer_ok (resolve p).
Proof. apply on_helper_ok, ignored_ok, resolve_ok. Qed.
Lemma observe_gids_ok p force : keeps observer_ok (gids p force).
Proof. apply on_helper_ok, ignored_ok, groups_ok. Qed.
Lemma observe_rematerialize_ok : keeps observer_ok (rematerialize config ws paths).
Proof.
  apply on_helper_ok, keeps_bind; [apply snapshot_groups_ok|]. intros gs. apply ignored_ok, materialize_ok.
Qed.
Lemma modify_ok f : (forall o, ob_helper (f o) = ob_helper o) -> keeps observer_ok (modify f).
Proof. intros Hf o Ho. unfold observer_ok. cbn. by rewrite Hf. Qed.
Local Hint Resolve observe_resolve_ok observe_gids_ok observe_rematerialize_ok : keep.
Lemma line_ok c raw : keeps observer_ok (line_step c raw).
Proof.
  unfold observe_line, maybe_warn_bridge_server_addr, detect_my_getgrouplist_failure_and_heal,
    detect_managed_gids_uid_failure_and_heal, observe_candidate, heal_principal_immediately, send_sighup, send_rebulk.
  keep_all; by apply modify_ok.
Qed.
(** The idhelper as a whole: its daemon, and the observer reading a line. *)
Inductive idhelper_step : Observer -> Observer -> Prop :=
| by_daemon o h :
    daemon_step server op_timeout_secs commands config env_force ws read_fails paths cache_path realm variants
      (ob_helper o) h ->
    idhelper_step o (with_helper h o)
| by_observer c raw o : idhelper_step o (snd (line_step c raw o)).
(** C17: the cache of the idhelper is well formed.  Whatever the cache file held at
    the start, whatever clients ask, the log says and the outside world answers,
    every row is filed under the normal form of its principal, has a realm, and
    is not a number unless it is a machine's. *)
Theorem idhelper_cache_well_formed preresolve h0 o :
  rtc idhelper_step
    (observer_start (snd (daemon_start server op_timeout_secs commands config env_force ws read_fails paths
       cache_path realm variants preresolve h0))) o ->
  cache_ok (h_cache (ob_helper o)).
Proof.
  intros H. change (observer_ok o).
  assert (H0 : observer_ok (observer_start (snd (daemon_start server op_timeout_secs commands config env_force ws
    read_fails paths cache_path realm variants preresolve h0)))) by apply daemon_start_ok.
  induction H as [o|o1 o2 o3 Hs _ IH]; [done|]. apply IH.
  destruct Hs as [o h Hd|c raw o]; [|by apply line_ok].
  unfold observer_ok in *. by eapply daemon_step_ok.
Qed.
End Lines.

(** ** A log of a failing server *)
#[local] Instance iter_s : HashIter string := iter_forward.
#[local] Instance iter_z : HashIter Z := iter_forward.
Definition at_second (n : Z) : Clock :=
  {| t_bridge := n * SECOND; t_groups := n * SECOND; t_uid := n * SECOND; t_candidate := n * SECOND |}.
Definition demo_log : list (Clock * string) := [
  (at_second 0, "my_getgrouplist_alloc :ID MAPPER :WARN :getgrouplist for user:ann failed, ngroups: 3, errno: 3");
  (at_second 3, "my_getgrouplist_alloc :ID MAPPER :WARN :getgrouplist for user:bob failed, ngroups: 3, errno: 3");
  (at_second 6, "my_getgrouplist_alloc :ID MAPPER :WARN :getgrouplist for user:bob failed, ngroups: 3, errno: 3");
  (at_second 12, "my_getgrouplist_alloc :ID MAPPER :WARN :getgrouplist for user:ann failed, ngroups: 3, errno: 3");
  (at_second 13, "Could not map principal ann@EX.COM to a uid");
  (at_second 14, "Could not map principal ann@EX.COM to a uid");
  (at_second 15, "clid {name=(22:Linux NFSv4.2 laptop) server_addr = 172.17.0.2}")].
Abbreviation demo_run := (fun l => observe_lines (answering [demo_entry]) 15 (fun _ _ => None) (fun _ => Some demo_config) None
  (fun _ _ => all_well) (fun _ _ => false) demo_paths "/n/cache" "EX.COM" ["nas"] ascii_only (fun _ => Some 77) None
  (fun _ => true) l (observer_start start)).
Definition demo_events : list (Z * Event) :=
  map (fun x => (x.1 / SECOND, x.2)) (ob_events (snd (demo_run demo_log))).
Definition heal_burst (user : string) (t : Z) : list (Z * Event) :=
  [(t, GroupHeal user 3 3); (t, SentRebulk); (t, SentSighup 77); (t, AskedGroups "root");
   (t, AskedGroups (user +:+ "@EX.COM")); (t, AskedGroups user)].
Lemma heals_rate_limited_witness :
  demo_events =
    heal_burst "ann" 0 ++ heal_burst "bob" 6
    ++ [(13, FastHeal "ann@EX.COM"); (13, SentSighup 77); (13, Observed "ann@EX.COM");
        (15, BridgeWarning "172.17.0.2"); (15, LeftAlone "host/laptop@EX.COM")]
  /\ exists bs, ob_events (snd (demo_run demo_log)) = flat_map (burst_events "EX.COM") bs
       /\ spaced failure_dedup_window (omap candidate_burst bs).
Proof.
  split; [vm_compute; reflexivity|].
  destruct (heals_rate_limited (answering [demo_entry]) 15 (fun _ _ => None) (fun _ => Some demo_config) None
    (fun _ _ => all_well) (fun _ _ => false) demo_paths "/n/cache" "EX.COM" ["nas"] ascii_only (fun _ => Some 77) None
    (fun _ => true) (at_second 0) demo_log start) as [_ (bs & E & _ & H)].
  exists bs. split; [exact E|]. apply H. vm_compute. repeat split; discriminate.
Defined.
Abbreviation demo_line := (observe_line (answering [demo_entry]) 15 (fun _ _ => None) (fun _ => Some demo_config) None
  (fun _ _ => all_well) (fun _ _ => false) demo_paths "/n/cache" "EX.COM" ["nas"] ascii_only (fun _ => Some 77) None
  (fun _ => true)).
Definition unmapped_client : string := "Could not map principal host/laptop@EX.COM to a uid".
Lemma client_machines_left_alone_witness :
  map snd (ob_events (snd (demo_line (at_second 1) unmapped_client (observer_start start))))
    = [LeftAlone "host/laptop@EX.COM"]
  /\ ob_helper (snd (demo_line (at_second 1) unmapped_client (observer_start start))) = start.
Proof.
  split; [vm_compute; reflexivity|].
  apply (client_machines_left_alone (answering [demo_entry]) 15 (fun _ _ => None) (fun _ => Some demo_config) None
    (fun _ _ => all_well) (fun _ _ => false) demo_paths "/n/cache" "EX.COM" ["nas"] ascii_only (fun _ => Some 77) None
    (fun _ => true) (at_second 1) unmapped_client (observer_start start) "host/laptop@EX.COM").
  - vm_compute. reflexivity.
  - vm_compute. reflexivity.
  - vm_compute. reflexivity.
  - right. split; [reflexivity|]. exists "laptop". split; [reflexivity|]. split; [reflexivity|].
    intros v Hv. apply list_elem_of_singleton in Hv. subst v. reflexivity.
Defined.
Lemma idhelper_cache_well_formed_witness :
  let o := snd (demo_line (at_second 1) "Could not map principal ann@EX.COM to a uid"
    (observer_start (snd (daemon_start (answering [demo_entry]) 15 (fun _ _ => None) (fun _ => Some demo_config) None
       (fun _ _ => all_well) (fun _ _ => false) demo_paths "/n/cache" "EX.COM" ["nas"] None start)))) in
  map fst (map_to_list (h_cache (ob_helper o))) = ["ann@EX.COM"; "nfs/nas@EX.COM"; "host/nas@EX.COM"]
  /\ cache_ok (h_cache (ob_helper o)).
Proof.
  split; [vm_compute; reflexivity|].
  eapply (idhelper_cache_well_formed (answering [demo_entry]) 15 (fun _ _ => None) (fun _ => Some demo_config) None
    (fun _ _ => all_well) (fun _ _ => false) demo_paths "/n/cache" "EX.COM" ["nas"] ascii_only (fun _ => Some 77) None
    (fun _ => true) None start).
  apply rtc_once, by_observer.
Defined.
(** All machines share uid 0, so the heal of a failing uid 0 picks any of them:
    here a client, which the candidate path would have left alone, is resolved
    and the daemon signalled. *)
Definition client_cached : Observer :=
  observer_start (snd (handle_client (answering [demo_entry]) 15 (fun _ _ => None) (fun _ => Some demo_config) None
    (fun _ _ => all_well) (fun _ _ => false) demo_paths "/n/cache" "EX.COM" ["nas"] "RESOLVE host/laptop@EX.COM" start)).
Theorem uid_zero_heals_client :
  map snd (ob_events (snd (demo_line (at_second 1)
    "Attempt to fetch managed_gids for uid: 0 failed" client_cached)))
  = [UidHeal 0 true (Some "host/laptop@EX.COM"); FastHeal "host/laptop@EX.COM"; SentSighup 77].
Proof. vm_compute. reflexivity. Qed.
