(* ===== verification/ConfigLoad.v ===== *)
(** * Loading nfs-klldap.conf

    The part of a TOML document that the program looks at, the reading of a
    configuration from it (what [#[derive(Deserialize)]] makes of the records
    of [config.rs]) and the ways to load one of [validate.rs].  The syntax of
    TOML belongs to the crates [toml] and [toml_edit]: it is the interface
    [TomlDoc], whose laws are the documented behaviour of its operations. *)

From S2P Require Import Prelude RustStr Identity Config.
Local Open Scope Z_scope.

(** ** Documents *)
Inductive TVal := VStr (s : string) | VBool (b : bool) | VInt (z : Z) | VStrs (l : list string) | VOther.
Abbreviation Table := (gmap string TVal).
(** A [[[shares]]] table: the comments above it and its keys. *)
Record ShareTable := { st_prefix : option string; st_keys : Table }.
(** What a top-level key holds: a value, a [[table]], an inline table, an array
    of tables, an inline array of tables. *)
Inductive Item := IValue (v : TVal) | ITable (t : Table) | IInline (t : Table)
  | ITables (l : list ShareTable) | IArray (l : list Table) | IOther.

#[global] Instance tval_eq_dec : EqDecision TVal.
Proof. solve_decision. Defined.
#[global] Instance share_table_eq_dec : EqDecision ShareTable.
Proof. solve_decision. Defined.
#[global] Instance item_eq_dec : EqDecision Item.
Proof. solve_decision. Defined.

(** [toml_edit::DocumentMut]: [trailing] is the text after the last item.
    [comments] tells the texts made of comments and blank lines, the only ones
    that may stand around the items. *)
Class TomlDoc (D : Type) := {
  parse_doc : string -> option D;
  doc_text : D -> string;
  empty_doc : D;
  item : string -> D -> option Item;
  set_item : string -> Item -> D -> D;
  remove_item : string -> D -> D;
  trailing : D -> string;
  set_trailing : string -> D -> D;
  comments : string -> bool;
}.
(** What reading sees of an item: not its comments. *)
Definition meaning (i : option Item) : option Item :=
  match i with
  | Some (ITables l) => Some (IArray (map st_keys l))
  | _ => i
  end.
Definition prefix_ok `{!TomlDoc D} (t : ShareTable) : Prop :=
  match st_prefix t with Some p => comments p = true | None => True end.
(** A document as it is parsed: no array of tables is empty. *)
Definition doc_ok `{!TomlDoc D} (d : D) : Prop :=
  comments (trailing d) = true /\ forall k l, item k d = Some (ITables l) -> l <> [] /\ Forall prefix_ok l.
Class TomlLaws D {T : TomlDoc D} : Prop := {
  item_empty : forall k, item k empty_doc = None;
  item_set : forall k k' i d, item k' (set_item k i d) = if decide (k = k') then Some i else item k' d;
  item_remove : forall k k' d, item k' (remove_item k d) = if decide (k = k') then None else item k' d;
  item_trailing : forall k t d, item k (set_trailing t d) = item k d;
  trailing_set : forall k i d, trailing (set_item k i d) = trailing d;
  trailing_remove : forall k d, trailing (remove_item k d) = trailing d;
  trailing_trailing : forall t d, trailing (set_trailing t d) = t;
  comments_empty : comments "" = true;
  comments_newline : comments (String nl "") = true;
  comments_app : forall a b, comments a = true -> comments b = true -> comments (a +:+ b) = true;
  parse_ok : forall s d, parse_doc s = Some d -> doc_ok d;
  empty_ok : doc_ok empty_doc;
  text_parses : forall d, doc_ok d -> exists d', parse_doc (doc_text d) = Some d' /\ forall k, meaning (item k d') = meaning (item k d);
}.

(** ** Reading records *)
Inductive FieldType := TStr | TBool | TInt (lo hi : Z) | TStrs.
Definition has_type (ty : FieldType) (v : TVal) : bool :=
  match ty, v with
  | TStr, VStr _ | TBool, VBool _ | TStrs, VStrs _ => true
  | TInt lo hi, VInt z => (lo <=? z) && (z <=? hi)
  | _, _ => false
  end.
Definition i64_max : Z := 9223372036854775807.
Definition U16 : FieldType := TInt 0 u16_max.
Definition U32 : FieldType := TInt 0 u32_max.
(** A TOML integer is an [i64]. *)
Definition U64 : FieldType := TInt 0 i64_max.
Definition I32 : FieldType := TInt (-2147483648) 2147483647.
(** Every key of the record that is present has its type; other keys are
    ignored. *)
Definition typed (fields : list (string * FieldType)) (t : Table) : bool :=
  forallb (fun '(k, ty) => match t !! k with Some v => has_type ty v | None => true end) fields.
Definition get_str (t : Table) (k : string) : option string :=
  match t !! k with Some (VStr s) => Some s | _ => None end.
Definition get_bool (t : Table) (k : string) : option bool :=
  match t !! k with Some (VBool b) => Some b | _ => None end.
Definition get_int (t : Table) (k : string) : option Z :=
  match t !! k with Some (VInt z) => Some z | _ => None end.
Definition get_strs (t : Table) (k : string) : option (list string) :=
  match t !! k with Some (VStrs l) => Some l | _ => None end.

Definition of_type (ty : FieldType) (keys : list string) : list (string * FieldType) := map (fun k => (k, ty)) keys.
Definition SHARE_FIELDS : list (string * FieldType) :=
  of_type TStr ["name"; "host_path"; "pseudo_path"; "export_path"; "security"; "squash"; "cache_profile";
                "read_access_policy"; "container_path"; "source_path"; "umask"]
  ++ of_type TBool ["rw"; "enable_acl"; "manage_gids"; "navahi_insecure"]
  ++ of_type U64 ["pref_read"; "pref_write"; "manage_gids_expiration"] ++ of_type I32 ["attr_expiration_secs"].
(** [export_path] is another name of [pseudo_path]; both at once is an error. *)
Definition share_of_table (t : Table) : option Share :=
  if typed SHARE_FIELDS t && negb (is_some (t !! "pseudo_path") && is_some (t !! "export_path")) then
    name ← get_str t "name"; host ← get_str t "host_path"; cp ← get_str t "container_path";
    Some {|
      sh_name := name; sh_host_path := host;
      sh_pseudo_path := match get_str t "pseudo_path" with Some p => Some p | None => get_str t "export_path" end;
      sh_security := get_str t "security"; sh_rw := get_bool t "rw"; sh_squash := get_str t "squash";
      sh_cache_profile := get_str t "cache_profile"; sh_pref_read := get_int t "pref_read";
      sh_pref_write := get_int t "pref_write"; sh_enable_acl := get_bool t "enable_acl";
      sh_manage_gids := get_bool t "manage_gids"; sh_read_access_policy := get_str t "read_access_policy";
      sh_manage_gids_expiration := get_int t "manage_gids_expiration"; sh_container_path := cp;
      sh_source_path := get_str t "source_path"; sh_attr_expiration_secs := get_int t "attr_expiration_secs";
      sh_navahi_insecure := get_bool t "navahi_insecure"; sh_umask := get_str t "umask" |}
  else None.
Definition SSSD_FIELDS : list (string * FieldType) :=
  of_type TStr ["ldap_default_bind_dn"; "ldap_default_authtok"; "ldap_user_search_base"; "ldap_group_search_base";
                "ldap_search_base"; "ldap_tls_reqcert"; "ldap_tls_cacert"; "ldap_user_object_class";
                "ldap_group_object_class"; "ldap_user_name"; "ldap_user_uid_number"; "ldap_user_gid_number";
                "ldap_user_home_directory"; "ldap_user_shell"; "ldap_user_fullname"; "ldap_group_name";
                "ldap_group_gid_number"; "ldap_group_member"; "domain"; "auth_provider"; "chpass_provider";
                "ldap_schema"; "access_provider"; "krb5_server"; "krb5_kpasswd"; "ldap_user_principal_name"]
  ++ of_type TBool ["ldap_id_use_start_tls"; "enumerate"; "kllldap_ignored_attributes"; "ldap_id_mapping";
                    "ldap_auth_disable_tls_never_use_in_production"; "use_fully_qualified_names"; "krb5_validate";
                    "krb5_store_password_if_offline"]
  ++ of_type U16 ["port"] ++ of_type U32 ["entry_cache_timeout"; "entry_negative_timeout"].
Definition sssd_of_table (t : Table) : SssdSection := {|
  ss_ldap_default_bind_dn := default "" (get_str t "ldap_default_bind_dn");
  ss_ldap_default_authtok := default "" (get_str t "ldap_default_authtok");
  ss_port := get_int t "port";
  ss_ldap_user_search_base := get_str t "ldap_user_search_base";
  ss_ldap_group_search_base := get_str t "ldap_group_search_base";
  ss_ldap_search_base := get_str t "ldap_search_base";
  ss_ldap_tls_reqcert := get_str t "ldap_tls_reqcert";
  ss_ldap_tls_cacert := get_str t "ldap_tls_cacert";
  ss_ldap_id_use_start_tls := get_bool t "ldap_id_use_start_tls";
  ss_enumerate := get_bool t "enumerate";
  ss_ldap_user_object_class := get_str t "ldap_user_object_class";
  ss_ldap_group_object_class := get_str t "ldap_group_object_class";
  ss_ldap_user_name := get_str t "ldap_user_name";
  ss_ldap_user_uid_number := get_str t "ldap_user_uid_number";
  ss_ldap_user_gid_number := get_str t "ldap_user_gid_number";
  ss_ldap_user_home_directory := get_str t "ldap_user_home_directory";
  ss_ldap_user_shell := get_str t "ldap_user_shell";
  ss_ldap_user_fullname := get_str t "ldap_user_fullname";
  ss_ldap_group_name := get_str t "ldap_group_name";
  ss_ldap_group_gid_number := get_str t "ldap_group_gid_number";
  ss_ldap_group_member := get_str t "ldap_group_member";
  ss_domain := get_str t "domain";
  ss_kllldap_ignored_attributes := get_bool t "kllldap_ignored_attributes";
  ss_auth_provider := get_str t "auth_provider";
  ss_chpass_provider := get_str t "chpass_provider";
  ss_ldap_schema := get_str t "ldap_schema";
  ss_ldap_id_mapping := get_bool t "ldap_id_mapping";
  ss_ldap_auth_disable_tls := get_bool t "ldap_auth_disable_tls_never_use_in_production";
  ss_access_provider := get_str t "access_provider";
  ss_use_fully_qualified_names := get_bool t "use_fully_qualified_names";
  ss_krb5_server := get_str t "krb5_server";
  ss_krb5_kpasswd := get_str t "krb5_kpasswd";
  ss_krb5_validate := get_bool t "krb5_validate";
  ss_krb5_store_password_if_offline := get_bool t "krb5_store_password_if_offline";
  ss_ldap_user_principal_name := get_str t "ldap_user_principal_name";
  ss_entry_cache_timeout := get_int t "entry_cache_timeout";
  ss_entry_negative_timeout := get_int t "entry_negative_timeout" |}.
Definition GANESHA_FIELDS : list (string * FieldType) :=
  of_type TStr ["default_security"; "post_generate_hook"; "root_kerberos_principals"]
  ++ of_type TStrs ["warm_principals"]
  ++ of_type TBool ["enable_rpc_cred_fallback"; "getattrs_in_complete_read"; "malloc_trim"]
  ++ of_type U32 ["idmapped_validity_secs"; "negative_cache_validity_secs"; "max_uid_to_group_reqs";
                  "readdir_res_size"; "readdir_max_count"; "malloc_trim_min_threshold_mb"]
  ++ of_type U64 ["manage_gids_expiration_secs"] ++ of_type I32 ["attr_expiration_secs"].
Definition ganesha_of_table (t : Table) : GaneshaSection := {|
  ga_default_security := default "krb5p" (get_str t "default_security");
  ga_post_generate_hook := get_str t "post_generate_hook";
  ga_warm_principals := default [] (get_strs t "warm_principals");
  ga_enable_rpc_cred_fallback := get_bool t "enable_rpc_cred_fallback";
  ga_idmapped_validity_secs := get_int t "idmapped_validity_secs";
  ga_root_kerberos_principals := get_str t "root_kerberos_principals";
  ga_manage_gids_expiration_secs := get_int t "manage_gids_expiration_secs";
  ga_negative_cache_validity_secs := get_int t "negative_cache_validity_secs";
  ga_max_uid_to_group_reqs := get_int t "max_uid_to_group_reqs";
  ga_readdir_res_size := get_int t "readdir_res_size";
  ga_readdir_max_count := get_int t "readdir_max_count";
  ga_getattrs_in_complete_read := get_bool t "getattrs_in_complete_read";
  ga_malloc_trim := get_bool t "malloc_trim";
  ga_malloc_trim_min_threshold_mb := get_int t "malloc_trim_min_threshold_mb";
  ga_attr_expiration_secs := get_int t "attr_expiration_secs" |}.
(** [GaneshaSection::default()], used when there is no such section. *)
Definition default_ganesha : GaneshaSection :=
  {| ga_default_security := ""; ga_post_generate_hook := None; ga_warm_principals := [];
     ga_enable_rpc_cred_fallback := None; ga_idmapped_validity_secs := None; ga_root_kerberos_principals := None;
     ga_manage_gids_expiration_secs := None; ga_negative_cache_validity_secs := None;
     ga_max_uid_to_group_reqs := None; ga_readdir_res_size := None; ga_readdir_max_count := None;
     ga_getattrs_in_complete_read := None; ga_malloc_trim := None; ga_malloc_trim_min_threshold_mb := None;
     ga_attr_expiration_secs := None |}.
Definition WEBUI_FIELDS : list (string * FieldType) :=
  of_type TBool ["tls"] ++ of_type TStr ["tls_cert"; "tls_key"] ++ of_type U16 ["session_timeout_minutes"].
Definition webui_of_table (t : Table) : WebuiSection := {|
  wu_tls := get_bool t "tls"; wu_tls_cert := get_str t "tls_cert"; wu_tls_key := get_str t "tls_key";
  wu_session_timeout_minutes := get_int t "session_timeout_minutes" |}.
Definition PROBE_FIELDS : list (string * FieldType) := of_type TStr ["user_principal"; "client_host"].
Definition probe_of_table (t : Table) : ProbeSection := {|
  pb_user_principal := get_str t "user_principal"; pb_client_host := get_str t "client_host" |}.

(** ** Reading a configuration *)
(** A section with its typed fields: absent, or a table of either form. *)
Definition section (fields : list (string * FieldType)) (i : option Item) : option (option Table) :=
  match i with
  | None => Some None
  | Some (ITable t) | Some (IInline t) => if typed fields t then Some (Some t) else None
  | Some _ => None
  end.
Definition share_tables (i : option Item) : option (list Table) :=
  match i with
  | None | Some (IValue (VStrs [])) => Some []
  | Some (ITables l) => Some (map st_keys l)
  | Some (IArray l) => Some l
  | Some _ => None
  end.
Definition top_value (ty : FieldType) (i : option Item) : option (option TVal) :=
  match i with
  | None => Some None
  | Some (IValue v) => if has_type ty v then Some (Some v) else None
  | Some _ => None
  end.
Fixpoint all_some {A B} (f : A -> option B) (l : list A) : option (list B) :=
  match l with
  | [] => Some []
  | x :: r => y ← f x; ys ← all_some f r; Some (y :: ys)
  end.
Definition str_in (t : option Table) (k : string) : option string := t ≫= fun t => get_str t k.
Definition with_warnings (c : NfsKlldapConfig) (w : list ShareFieldWarning) : NfsKlldapConfig := {|
  ldap_uri := ldap_uri c; navahi_discovery := navahi_discovery c; storage_container_root := storage_container_root c;
  server_hostname := server_hostname c; sssd := sssd c; kerberos_realm := kerberos_realm c; ganesha := ganesha c;
  webui_admin_group := webui_admin_group c; probe := probe c; host_nfs := host_nfs c; webui := webui c;
  shares := shares c; share_warnings := w |}.
Definition replace_shares (c : NfsKlldapConfig) (l : list Share) : NfsKlldapConfig := {|
  ldap_uri := ldap_uri c; navahi_discovery := navahi_discovery c; storage_container_root := storage_container_root c;
  server_hostname := server_hostname c; sssd := sssd c; kerberos_realm := kerberos_realm c; ganesha := ganesha c;
  webui_admin_group := webui_admin_group c; probe := probe c; host_nfs := host_nfs c; webui := webui c;
  shares := l; share_warnings := share_warnings c |}.
(** [NfsKlldapConfig::default()] *)
Definition default_config : NfsKlldapConfig := {|
  ldap_uri := ""; navahi_discovery := false; storage_container_root := ""; server_hostname := None;
  sssd := sssd_of_table ∅; kerberos_realm := None; ganesha := default_ganesha; webui_admin_group := None;
  probe := probe_of_table ∅; host_nfs := None; webui := webui_of_table ∅; shares := []; share_warnings := [] |}.
(** The record of the parts: values, and the tables of the sections there are. *)
Definition build_config (uri nav : option TVal) (storage server sss kerberos gan management prb host web : option Table)
    (shs : list Share) : NfsKlldapConfig := {|
  ldap_uri := match uri with Some (VStr s) => s | _ => "" end;
  navahi_discovery := match nav with Some (VBool b) => b | _ => false end;
  storage_container_root :=
    match storage with Some t => default "/export" (get_str t "container_root") | None => "" end;
  server_hostname := str_in server "hostname";
  sssd := sssd_of_table (default ∅ sss);
  kerberos_realm := str_in kerberos "realm";
  ganesha := match gan with Some t => ganesha_of_table t | None => default_ganesha end;
  webui_admin_group := str_in management "webui_admin_group";
  probe := probe_of_table (default ∅ prb);
  host_nfs := host ≫= fun t => get_bool t "host_nfs";
  webui := webui_of_table (default ∅ web);
  shares := shs; share_warnings := [] |}.
(** The configuration of the top-level items; [None] when a value has the wrong
    type or a share lacks a required key. *)
Definition config_of_items (it : string -> option Item) : option NfsKlldapConfig :=
  uri ← top_value TStr (it "ldap_uri");
  nav ← top_value TBool (it "navahi_discovery");
  storage ← section (of_type TStr ["container_root"]) (it "storage");
  server ← section (of_type TStr ["hostname"]) (it "server");
  sss ← section SSSD_FIELDS (it "sssd");
  kerberos ← section (of_type TStr ["realm"]) (it "kerberos");
  gan ← section GANESHA_FIELDS (it "ganesha");
  management ← section (of_type TStr ["webui_admin_group"]) (it "management");
  prb ← section PROBE_FIELDS (it "probe");
  host ← section (of_type TBool ["host_nfs"]) (it "host");
  web ← section WEBUI_FIELDS (it "webui");
  tables ← share_tables (it "shares");
  shs ← all_some share_of_table tables;
  Some (build_config uri nav storage server sss kerberos gan management prb host web shs).
Lemma config_of_items_some it c :
  config_of_items it = Some c <->
  exists uri nav storage server sss kerberos gan management prb host web tables shs,
    top_value TStr (it "ldap_uri") = Some uri /\ top_value TBool (it "navahi_discovery") = Some nav
    /\ section (of_type TStr ["container_root"]) (it "storage") = Some storage
    /\ section (of_type TStr ["hostname"]) (it "server") = Some server
    /\ section SSSD_FIELDS (it "sssd") = Some sss
    /\ section (of_type TStr ["realm"]) (it "kerberos") = Some kerberos
    /\ section GANESHA_FIELDS (it "ganesha") = Some gan
    /\ section (of_type TStr ["webui_admin_group"]) (it "management") = Some management
    /\ section PROBE_FIELDS (it "probe") = Some prb
    /\ section (of_type TBool ["host_nfs"]) (it "host") = Some host
    /\ section WEBUI_FIELDS (it "webui") = Some web
    /\ share_tables (it "shares") = Some tables /\ all_some share_of_table tables = Some shs
    /\ c = build_config uri nav storage server sss kerberos gan management prb host web shs.
Proof.
  unfold config_of_items. split.
  - intros (uri & ? & (nav & ? & (storage & ? & (server & ? & (sss & ? & (kerberos & ? & (gan & ? &
      (management & ? & (prb & ? & (host & ? & (web & ? & (tables & ? & (shs & ? & [= <-])%bind_Some)%bind_Some)
      %bind_Some)%bind_Some)%bind_Some)%bind_Some)%bind_Some)%bind_Some)%bind_Some)%bind_Some)%bind_Some)%bind_Some)%bind_Some.
    exists uri, nav, storage, server, sss, kerberos, gan, management, prb, host, web, tables, shs. tauto.
  - intros (? & ? & ? & ? & ? & ? & ? & ? & ? & ? & ? & ? & ? & Hu & Hn & Hst & Hse & Hss & Hk & Hg & Hm & Hp & Hh & Hw & Ht & Hs & ->).
    rewrite Hu; cbn [mbind option_bind]. rewrite Hn; cbn [mbind option_bind]. rewrite Hst; cbn [mbind option_bind].
    rewrite Hse; cbn [mbind option_bind]. rewrite Hss; cbn [mbind option_bind]. rewrite Hk; cbn [mbind option_bind].
    rewrite Hg; cbn [mbind option_bind]. rewrite Hm; cbn [mbind option_bind]. rewrite Hp; cbn [mbind option_bind].
    rewrite Hh; cbn [mbind option_bind]. rewrite Hw; cbn [mbind option_bind]. rewrite Ht; cbn [mbind option_bind].
    by rewrite Hs.
Qed.

(** The tree the unknown-key scan runs over: tables in key order. *)
Definition tree_value (v : TVal) : toml :=
  match v with VStr s => TString s | VStrs l => TArray (map TString l) | _ => TScalar end.
Definition tree_table (t : Table) : toml :=
  TTable (map (fun kv => (kv.1, tree_value kv.2)) (sort_key fst String.leb (map_to_list t))).
Definition tree_of (tables : list Table) : toml := TTable [("shares", TArray (map tree_table tables))].

Section Load.
Context {D : Type} `{!TomlDoc D}.
Definition config_of_doc (d : D) : option NfsKlldapConfig :=
  c ← config_of_items (fun k => item k d);
  Some (with_warnings c (detect_share_unknown_keys_value (tree_of (default [] (share_tables (item "shares" d)))))).
Definition parse_str (contents : string) : option NfsKlldapConfig := parse_doc contents ≫= config_of_doc.

Inductive LoadError := LoadIo | LoadParse | LoadInvalid (e : ConfigError).
(** [contents]: what [read_to_string] gives. *)
Definition load_unchecked (contents : option string) : result NfsKlldapConfig LoadError :=
  match contents with
  | None => Err LoadIo
  | Some t => match parse_str t with Some c => Ok c | None => Err LoadParse end
  end.
Definition validated (env : Env) (c : NfsKlldapConfig) : result NfsKlldapConfig LoadError :=
  match validate_and_derive env c with Ok c' => Ok c' | Err e => Err (LoadInvalid e) end.
Definition load (env : Env) (contents : option string) : result NfsKlldapConfig LoadError :=
  c <-? load_unchecked contents ;; validated env c.
Definition load_lenient (env : Env) (contents : option string) : result NfsKlldapConfig LoadError :=
  c <-? load_unchecked contents ;; Ok (apply_core_env_overrides env c).
End Load.

(** ** The configuration of the WebUI *)
Definition minimal_default_config : NfsKlldapConfig :=
  let s := <[ "ldap_default_authtok" := VStr "SET_ME" ]>
             {[ "ldap_default_bind_dn" := VStr "uid=admin,ou=people,dc=example,dc=com" ]} in
  {| ldap_uri := "ldaps://klldap.example.com:6360"; navahi_discovery := false; storage_container_root := "";
     server_hostname := None; sssd := sssd_of_table s; kerberos_realm := None; ganesha := default_ganesha;
     webui_admin_group := None; probe := probe_of_table ∅; host_nfs := None; webui := webui_of_table ∅;
     shares := []; share_warnings := [] |}.
(** [file]: [None] when there is none; otherwise what reading it gives.  A
    configuration that does not validate is taken as it is, without the
    environment. *)
Definition load_config_from `{!TomlDoc D} (env : Env) (file : option (option string)) : result NfsKlldapConfig LoadError :=
  match file with
  | None => Ok minimal_default_config
  | Some contents =>
      match load env contents with
      | Err (LoadInvalid _) => load_unchecked contents
      | r => r
      end
  end.
Definition ldap_service_creds (env : Env) (cfg : NfsKlldapConfig) : string * string :=
  match env "NFS_KLLDAP_LLDAP_USER", env "NFS_KLLDAP_LLDAP_PW" with
  | Some user, Some pass =>
      if negb (is_empty (trim user)) && negb (is_empty (trim pass)) then (trim user, pass)
      else (ss_ldap_default_bind_dn (sssd cfg), ss_ldap_default_authtok (sssd cfg))
  | _, _ => (ss_ldap_default_bind_dn (sssd cfg), ss_ldap_default_authtok (sssd cfg))
  end.

(** ** A document for examples *)
(** Its text: lists of strings as one string (each character after a 1, a 0 at
    the end of each string), nested. *)
Fixpoint bits (p : positive) : string :=
  match p with xH => "" | xO p => String "0"%char (bits p) | xI p => String "1"%char (bits p) end.
Fixpoint unbits (s : string) : positive :=
  match s with
  | "" => xH
  | String c r => if Ascii.eqb c "1"%char then xI (unbits r) else xO (unbits r)
  end.
Lemma unbits_bits p : unbits (bits p) = p.
Proof. induction p as [p IH|p IH|]; cbn; by rewrite ?IH. Qed.
Fixpoint mark (s rest : string) : string :=
  match s with "" => String "0"%char rest | String c r => String "1"%char (String c (mark r rest)) end.
Definition enc (l : list string) : string := foldr mark "" l.
Fixpoint dec_list (s : string) : list string :=
  match s with
  | String k (String c r as t) =>
      if Ascii.eqb k "1"%char then
        match dec_list r with w :: l => String c w :: l | [] => [String c ""] end
      else "" :: dec_list t
  | String _ "" => [""]
  | "" => []
  end.
Lemma dec_mark s rest : dec_list (mark s rest) = s :: dec_list rest.
Proof. induction s as [|c s IH]; cbn; [by destruct rest|]. by rewrite IH. Qed.
Lemma dec_enc l : dec_list (enc l) = l.
Proof. induction l as [|s l IH]; [done|]. change (enc (s :: l)) with (mark s (enc l)). by rewrite dec_mark, IH. Qed.

Definition val_text (v : TVal) : string :=
  enc match v with VStr s => ["s"; s] | VBool b => ["b"; if b then "t" else ""] | VInt z => ["i"; bits (encode z)]
      | VStrs l => "l" :: l | VOther => [] end.
Definition text_val (s : string) : TVal :=
  match dec_list s with
  | "s" :: [x] => VStr x
  | "b" :: [x] => VBool (negb (is_empty x))
  | "i" :: [x] => VInt (default 0 (decode (unbits x)))
  | "l" :: l => VStrs l
  | _ => VOther
  end.
Lemma text_val_text v : text_val (val_text v) = v.
Proof. unfold text_val, val_text. rewrite dec_enc. destruct v as [s|[]|z|l|]; try done. by rewrite unbits_bits, decode_encode. Qed.
Section Pairs.
Context {A : Type} (to : A -> string) (from : string -> A) (Hto : forall a, from (to a) = a).
Definition map_text (m : gmap string A) : string := enc (concat (map (fun kv => [kv.1; to kv.2]) (map_to_list m))).
Fixpoint pairs_of (l : list string) : list (string * A) :=
  match l with k :: v :: r => (k, from v) :: pairs_of r | _ => [] end.
Definition text_map (s : string) : gmap string A := list_to_map (pairs_of (dec_list s)).
Lemma text_map_text m : text_map (map_text m) = m.
Proof.
  unfold text_map, map_text. rewrite dec_enc. rewrite <- (list_to_map_to_list m) at 2. f_equal.
  induction (map_to_list m) as [|[k a] l IH]; [done|]. cbn. by rewrite Hto, IH.
Qed.
End Pairs.
Definition table_text : Table -> string := map_text val_text.
Definition text_table : string -> Table := text_map text_val.
Definition share_text (t : ShareTable) : string :=
  enc (table_text (st_keys t) :: match st_prefix t with Some p => [p] | None => [] end).
Definition text_share (s : string) : ShareTable :=
  match dec_list s with k :: r => {| st_prefix := head r; st_keys := text_table k |} | [] => {| st_prefix := None; st_keys := ∅ |} end.
Lemma text_table_text t : text_table (table_text t) = t.
Proof. apply text_map_text, text_val_text. Qed.
Lemma text_share_text t : text_share (share_text t) = t.
Proof. unfold text_share, share_text. rewrite dec_enc, text_table_text. by destruct t as [[]]. Qed.
Definition item_text (i : Item) : string :=
  enc match i with IValue v => ["v"; val_text v] | ITable t => ["t"; table_text t] | IInline t => ["i"; table_text t]
      | ITables l => "a" :: map share_text l | IArray l => "b" :: map table_text l | IOther => [] end.
Definition text_item (s : string) : Item :=
  match dec_list s with
  | "v" :: [x] => IValue (text_val x) | "t" :: [x] => ITable (text_table x) | "i" :: [x] => IInline (text_table x)
  | "a" :: l => ITables (map text_share l) | "b" :: l => IArray (map text_table l) | _ => IOther
  end.
Lemma text_item_text i : text_item (item_text i) = i.
Proof.
  unfold text_item, item_text. rewrite dec_enc.
  assert (Hmap : forall A (to : A -> string) from l, (forall a, from (to a) = a) -> map from (map to l) = l).
  { intros A to from l H. induction l as [|x l IH]; cbn; by rewrite ?H, ?IH. }
  destruct i as [v|t|t|l|l|]; by rewrite ?text_val_text, ?text_table_text, ?Hmap by auto using text_share_text, text_table_text.
Qed.
#[global] Arguments enc : simpl never.
#[global] Arguments dec_list : simpl never.
Record ModelDoc := { md_items : gmap string Item; md_trailing : string }.
#[global] Instance model_doc : TomlDoc ModelDoc := {
  parse_doc s := match dec_list s with
                 | [m; t] => Some {| md_items := filter (fun kv => kv.2 <> ITables []) (text_map text_item m); md_trailing := t |}
                 | _ => None
                 end;
  doc_text d := enc [map_text item_text (md_items d); md_trailing d];
  empty_doc := {| md_items := ∅; md_trailing := "" |};
  item k d := md_items d !! k;
  set_item k i d := {| md_items := <[ k := i ]> (md_items d); md_trailing := md_trailing d |};
  remove_item k d := {| md_items := delete k (md_items d); md_trailing := md_trailing d |};
  trailing := md_trailing;
  set_trailing t d := {| md_items := md_items d; md_trailing := t |};
  comments _ := true;
}.
#[global] Instance model_laws : TomlLaws ModelDoc.
Proof.
  split; cbn; try done.
  - intros k k' i d. destruct (decide (k = k')) as [->|]; [by simplify_map_eq|by rewrite lookup_insert_ne].
  - intros k k' d. destruct (decide (k = k')) as [->|]; [by simplify_map_eq|by rewrite lookup_delete_ne].
  - intros s d. destruct (dec_list s) as [|m [|tl []]]; try done. intros [= <-]. split; [done|]. cbn. intros k l [Hk Hne]%map_lookup_filter_Some. cbn in Hne. split.
    + intros ->. done.
    + apply Forall_forall. intros t _. unfold prefix_ok. by destruct (st_prefix t).
  - intros d [_ Hd]. cbn in Hd. unfold doc_text. rewrite dec_enc, (text_map_text _ _ text_item_text).
    eexists. split; [done|]. intros k. cbn. rewrite map_filter_id; [done|]. intros k' i Hi Hne. cbn in Hne. subst i. by destruct (Hd _ _ Hi).
Qed.
