(* ===== verification/SettingsForm.v ===== *)
(** * The settings form

    Models [web/settings/spec.rs] and the readers of explicit keys of
    [web/settings_form.rs]: one row per setting drives both sides of a save,
    the configuration that is validated and the document that is written.  A
    submitted form is a map from input names to values. *)

From S2P Require Import Prelude RustStr Identity Config ConfigLoad.
Local Open Scope Z_scope.

Abbreviation Form := (gmap string string).

(** ** Rows *)
Inductive FieldValue := FStr (o : option string) | FBool (o : option bool) | FU16 (o : option Z).
Inductive FieldKind :=
| Text | Password | Port | U16OrClear | BoolAlways
| OverrideText (remove_when_blank : bool) | OverrideBool | OverrideSelect (default : string).
Record FieldSpec := {
  fs_name : string;
  fs_section : string;
  fs_key : string;
  fs_kind : FieldKind;
  fs_set : FieldValue -> NfsKlldapConfig -> NfsKlldapConfig;
}.

(** The fields of a configuration that the form reaches. *)
Definition with_form (c : NfsKlldapConfig) (uri : string) (nav : bool) (root : string) (host : option string)
    (s : SssdSection) (realm : option string) (g : GaneshaSection) (p : ProbeSection) (w : WebuiSection)
    : NfsKlldapConfig := {|
  ldap_uri := uri; navahi_discovery := nav; storage_container_root := root; server_hostname := host;
  sssd := s; kerberos_realm := realm; ganesha := g; webui_admin_group := webui_admin_group c; probe := p;
  host_nfs := host_nfs c; webui := w; shares := shares c; share_warnings := share_warnings c |}.
Definition set_uri s c := with_form c s (navahi_discovery c) (storage_container_root c) (server_hostname c)
  (sssd c) (kerberos_realm c) (ganesha c) (probe c) (webui c).
Definition set_nav b c := with_form c (ldap_uri c) b (storage_container_root c) (server_hostname c)
  (sssd c) (kerberos_realm c) (ganesha c) (probe c) (webui c).
Definition set_root s c := with_form c (ldap_uri c) (navahi_discovery c) s (server_hostname c)
  (sssd c) (kerberos_realm c) (ganesha c) (probe c) (webui c).
Definition set_host o c := with_form c (ldap_uri c) (navahi_discovery c) (storage_container_root c) o
  (sssd c) (kerberos_realm c) (ganesha c) (probe c) (webui c).
Definition set_sssd s c := with_form c (ldap_uri c) (navahi_discovery c) (storage_container_root c) (server_hostname c)
  s (kerberos_realm c) (ganesha c) (probe c) (webui c).
Definition set_realm o c := with_form c (ldap_uri c) (navahi_discovery c) (storage_container_root c) (server_hostname c)
  (sssd c) o (ganesha c) (probe c) (webui c).
Definition set_ganesha g c := with_form c (ldap_uri c) (navahi_discovery c) (storage_container_root c)
  (server_hostname c) (sssd c) (kerberos_realm c) g (probe c) (webui c).
Definition set_probe p c := with_form c (ldap_uri c) (navahi_discovery c) (storage_container_root c)
  (server_hostname c) (sssd c) (kerberos_realm c) (ganesha c) p (webui c).
Definition set_webui w c := with_form c (ldap_uri c) (navahi_discovery c) (storage_container_root c)
  (server_hostname c) (sssd c) (kerberos_realm c) (ganesha c) (probe c) w.

(** The same for the section [sssd]. *)
Record SssdForm := {
  sf_dn : string; sf_pw : string; sf_port : option Z; sf_user_base : option string; sf_group_base : option string;
  sf_base : option string; sf_reqcert : option string; sf_cacert : option string; sf_tls : option bool;
  sf_enumerate : option bool; sf_ignored : option bool;
}.
Definition sssd_form (s : SssdSection) : SssdForm := {|
  sf_dn := ss_ldap_default_bind_dn s; sf_pw := ss_ldap_default_authtok s; sf_port := ss_port s;
  sf_user_base := ss_ldap_user_search_base s; sf_group_base := ss_ldap_group_search_base s;
  sf_base := ss_ldap_search_base s; sf_reqcert := ss_ldap_tls_reqcert s; sf_cacert := ss_ldap_tls_cacert s;
  sf_tls := ss_ldap_id_use_start_tls s; sf_enumerate := ss_enumerate s;
  sf_ignored := ss_kllldap_ignored_attributes s |}.
Definition with_sssd_form (s : SssdSection) (f : SssdForm) : SssdSection := {|
  ss_ldap_default_bind_dn := sf_dn f; ss_ldap_default_authtok := sf_pw f; ss_port := sf_port f;
  ss_ldap_user_search_base := sf_user_base f; ss_ldap_group_search_base := sf_group_base f;
  ss_ldap_search_base := sf_base f; ss_ldap_tls_reqcert := sf_reqcert f; ss_ldap_tls_cacert := sf_cacert f;
  ss_ldap_id_use_start_tls := sf_tls f; ss_enumerate := sf_enumerate f;
  ss_ldap_user_object_class := ss_ldap_user_object_class s;
  ss_ldap_group_object_class := ss_ldap_group_object_class s; ss_ldap_user_name := ss_ldap_user_name s;
  ss_ldap_user_uid_number := ss_ldap_user_uid_number s; ss_ldap_user_gid_number := ss_ldap_user_gid_number s;
  ss_ldap_user_home_directory := ss_ldap_user_home_directory s; ss_ldap_user_shell := ss_ldap_user_shell s;
  ss_ldap_user_fullname := ss_ldap_user_fullname s; ss_ldap_group_name := ss_ldap_group_name s;
  ss_ldap_group_gid_number := ss_ldap_group_gid_number s; ss_ldap_group_member := ss_ldap_group_member s;
  ss_domain := ss_domain s; ss_kllldap_ignored_attributes := sf_ignored f; ss_auth_provider := ss_auth_provider s;
  ss_chpass_provider := ss_chpass_provider s; ss_ldap_schema := ss_ldap_schema s;
  ss_ldap_id_mapping := ss_ldap_id_mapping s; ss_ldap_auth_disable_tls := ss_ldap_auth_disable_tls s;
  ss_access_provider := ss_access_provider s; ss_use_fully_qualified_names := ss_use_fully_qualified_names s;
  ss_krb5_server := ss_krb5_server s; ss_krb5_kpasswd := ss_krb5_kpasswd s; ss_krb5_validate := ss_krb5_validate s;
  ss_krb5_store_password_if_offline := ss_krb5_store_password_if_offline s;
  ss_ldap_user_principal_name := ss_ldap_user_principal_name s; ss_entry_cache_timeout := ss_entry_cache_timeout s;
  ss_entry_negative_timeout := ss_entry_negative_timeout s |}.
Definition on_sssd (f : SssdForm -> SssdForm) (c : NfsKlldapConfig) : NfsKlldapConfig :=
  set_sssd (with_sssd_form (sssd c) (f (sssd_form (sssd c)))) c.
Definition sf_set dn pw port ub gb base req ca tls en ign : SssdForm :=
  {| sf_dn := dn; sf_pw := pw; sf_port := port; sf_user_base := ub; sf_group_base := gb; sf_base := base;
     sf_reqcert := req; sf_cacert := ca; sf_tls := tls; sf_enumerate := en; sf_ignored := ign |}.
Definition sssd_dn s := on_sssd (fun f => sf_set s (sf_pw f) (sf_port f) (sf_user_base f) (sf_group_base f)
  (sf_base f) (sf_reqcert f) (sf_cacert f) (sf_tls f) (sf_enumerate f) (sf_ignored f)).
Definition sssd_pw s := on_sssd (fun f => sf_set (sf_dn f) s (sf_port f) (sf_user_base f) (sf_group_base f)
  (sf_base f) (sf_reqcert f) (sf_cacert f) (sf_tls f) (sf_enumerate f) (sf_ignored f)).
Definition sssd_port p := on_sssd (fun f => sf_set (sf_dn f) (sf_pw f) p (sf_user_base f) (sf_group_base f)
  (sf_base f) (sf_reqcert f) (sf_cacert f) (sf_tls f) (sf_enumerate f) (sf_ignored f)).
Definition sssd_user_base o := on_sssd (fun f => sf_set (sf_dn f) (sf_pw f) (sf_port f) o (sf_group_base f)
  (sf_base f) (sf_reqcert f) (sf_cacert f) (sf_tls f) (sf_enumerate f) (sf_ignored f)).
Definition sssd_group_base o := on_sssd (fun f => sf_set (sf_dn f) (sf_pw f) (sf_port f) (sf_user_base f) o
  (sf_base f) (sf_reqcert f) (sf_cacert f) (sf_tls f) (sf_enumerate f) (sf_ignored f)).
Definition sssd_base o := on_sssd (fun f => sf_set (sf_dn f) (sf_pw f) (sf_port f) (sf_user_base f) (sf_group_base f)
  o (sf_reqcert f) (sf_cacert f) (sf_tls f) (sf_enumerate f) (sf_ignored f)).
Definition sssd_reqcert o := on_sssd (fun f => sf_set (sf_dn f) (sf_pw f) (sf_port f) (sf_user_base f)
  (sf_group_base f) (sf_base f) o (sf_cacert f) (sf_tls f) (sf_enumerate f) (sf_ignored f)).
Definition sssd_cacert o := on_sssd (fun f => sf_set (sf_dn f) (sf_pw f) (sf_port f) (sf_user_base f)
  (sf_group_base f) (sf_base f) (sf_reqcert f) o (sf_tls f) (sf_enumerate f) (sf_ignored f)).
Definition sssd_tls o := on_sssd (fun f => sf_set (sf_dn f) (sf_pw f) (sf_port f) (sf_user_base f)
  (sf_group_base f) (sf_base f) (sf_reqcert f) (sf_cacert f) o (sf_enumerate f) (sf_ignored f)).
Definition sssd_enumerate o := on_sssd (fun f => sf_set (sf_dn f) (sf_pw f) (sf_port f) (sf_user_base f)
  (sf_group_base f) (sf_base f) (sf_reqcert f) (sf_cacert f) (sf_tls f) o (sf_ignored f)).
Definition sssd_ignored o := on_sssd (fun f => sf_set (sf_dn f) (sf_pw f) (sf_port f) (sf_user_base f)
  (sf_group_base f) (sf_base f) (sf_reqcert f) (sf_cacert f) (sf_tls f) (sf_enumerate f) o).

(** The shapes of the closures of the rows: a plain string, an optional one. *)
Definition str_field (f : string -> NfsKlldapConfig -> NfsKlldapConfig) (v : FieldValue) : NfsKlldapConfig -> NfsKlldapConfig :=
  match v with FStr (Some s) => f s | _ => id end.
Definition opt_field (f : option string -> NfsKlldapConfig -> NfsKlldapConfig) (v : FieldValue) : NfsKlldapConfig -> NfsKlldapConfig :=
  match v with FStr o => f o | _ => id end.
Definition bool_field (f : option bool -> NfsKlldapConfig -> NfsKlldapConfig) (v : FieldValue) : NfsKlldapConfig -> NfsKlldapConfig :=
  match v with FBool o => f o | _ => id end.
Definition row (name section key : string) (kind : FieldKind) (set : FieldValue -> NfsKlldapConfig -> NfsKlldapConfig) : FieldSpec :=
  {| fs_name := name; fs_section := section; fs_key := key; fs_kind := kind; fs_set := set |}.
Definition FIELDS : list FieldSpec := [
  row "ldap_uri" "" "ldap_uri" Text (str_field set_uri);
  row "storage_container_root" "storage" "container_root" Text (str_field set_root);
  row "server_hostname" "server" "hostname" (OverrideText false) (opt_field set_host);
  row "sssd_bind_dn" "sssd" "ldap_default_bind_dn" Text (str_field sssd_dn);
  row "sssd_bind_pw" "sssd" "ldap_default_authtok" Password (str_field sssd_pw);
  row "sssd_port" "sssd" "port" Port (fun v => match v with FU16 (Some p) => sssd_port (Some p) | _ => id end);
  row "sssd_search_base" "sssd" "ldap_search_base" (OverrideText true) (opt_field sssd_base);
  row "sssd_user_base" "sssd" "ldap_user_search_base" (OverrideText false) (opt_field sssd_user_base);
  row "sssd_group_base" "sssd" "ldap_group_search_base" (OverrideText false) (opt_field sssd_group_base);
  row "sssd_ldap_tls_reqcert" "sssd" "ldap_tls_reqcert" (OverrideText true) (opt_field sssd_reqcert);
  row "sssd_ldap_tls_cacert" "sssd" "ldap_tls_cacert" (OverrideText true) (opt_field sssd_cacert);
  row "sssd_ldap_id_use_start_tls" "sssd" "ldap_id_use_start_tls" OverrideBool (bool_field sssd_tls);
  row "sssd_enumerate" "sssd" "enumerate" OverrideBool (bool_field sssd_enumerate);
  row "kllldap_ignored_attributes" "sssd" "kllldap_ignored_attributes" BoolAlways
    (bool_field (fun b => sssd_ignored (Some (default false b))));
  row "navahi_discovery" "" "navahi_discovery" BoolAlways (bool_field (fun b => set_nav (default false b)));
  row "kerberos_realm" "kerberos" "realm" (OverrideText false) (opt_field set_realm);
  row "ganesha_default_security" "ganesha" "default_security" (OverrideSelect "krb5p")
    (str_field (fun s c => set_ganesha (with_ganesha_core (ganesha c) s (ga_post_generate_hook (ganesha c))
                                          (ga_root_kerberos_principals (ganesha c))) c));
  row "webui_session_timeout_minutes" "webui" "session_timeout_minutes" U16OrClear
    (fun v => match v with
      | FU16 p => fun c => set_webui {| wu_tls := wu_tls (webui c); wu_tls_cert := wu_tls_cert (webui c);
                                        wu_tls_key := wu_tls_key (webui c); wu_session_timeout_minutes := p |} c
      | _ => id end)
].

(** ** Reading the form *)
Definition form_str (form : Form) (name : string) : option string := form !! name.
Definition on_value (v : string) : bool := seqb v "true" || seqb v "on".
Definition form_flag (form : Form) (name : string) : bool :=
  match form_str form name with Some v => on_value v | None => false end.
Definition form_bool (form : Form) (name : string) : option bool := on_value <$> form_str form name.
Definition parse_u16 (v : string) : option Z := parse_uint u16_max (trim v).
Definition blank (v : string) : bool := is_empty (trim v).
Definition overrides (form : Form) (spec : FieldSpec) : bool := form_flag form ("override_" +:+ fs_name spec).

(** ** The configuration side *)
Definition apply_field_to_config (form : Form) (spec : FieldSpec) (cfg : NfsKlldapConfig) : NfsKlldapConfig :=
  let set := fs_set spec in
  let sent := form_str form (fs_name spec) in
  match fs_kind spec with
  | Text => match sent with Some v => set (FStr (Some v)) cfg | None => cfg end
  | Password =>
      match sent with Some v => if negb (blank v) then set (FStr (Some v)) cfg else cfg | None => cfg end
  | Port => match sent ≫= parse_u16 with Some p => set (FU16 (Some p)) cfg | None => cfg end
  | U16OrClear =>
      match sent with
      | Some v => if blank v then set (FU16 None) cfg
                  else match parse_u16 v with Some p => set (FU16 (Some p)) cfg | None => cfg end
      | None => cfg
      end
  | OverrideText _ =>
      if overrides form spec then
        match sent with Some v => set (FStr (if blank v then None else Some v)) cfg | None => cfg end
      else cfg
  | OverrideBool => if overrides form spec then set (FBool (form_bool form (fs_name spec))) cfg else cfg
  | BoolAlways => set (FBool (Some (form_flag form (fs_name spec)))) cfg
  | OverrideSelect dflt =>
      if overrides form spec then
        match sent with Some v => set (FStr (Some (if blank v then dflt else v))) cfg | None => cfg end
      else set (FStr (Some dflt)) cfg
  end.
Definition nonblank (v : string) : option string := if blank v then None else Some v.
Definition apply_probe_form_to_config (form : Form) (cfg : NfsKlldapConfig) : NfsKlldapConfig :=
  if form_flag form "auto_probe_ldap" then set_probe {| pb_user_principal := None; pb_client_host := None |} cfg
  else
    let pick name cur := match form_str form name with Some v => nonblank v | None => cur end in
    set_probe {| pb_user_principal := pick "probe_user_principal" (pb_user_principal (probe cfg));
                 pb_client_host := pick "probe_client_host" (pb_client_host (probe cfg)) |} cfg.
Definition apply_structured_form_to_config (form : Form) (cfg : NfsKlldapConfig) : NfsKlldapConfig :=
  apply_probe_form_to_config form (foldl (fun c spec => apply_field_to_config form spec c) cfg FIELDS).

(** ** The document side *)
Section Doc.
Context {D : Type} `{!TomlDoc D}.
(** [doc.get(section).and_then(as_table)]: inline tables are not tables. *)
Definition section_table (section : string) (d : D) : option Table :=
  match item section d with Some (ITable t) => Some t | _ => None end.
Definition set_key (section key : string) (v : TVal) (d : D) : D :=
  if is_empty section then set_item key (IValue v) d
  else
    match item section d with
    | None => set_item section (ITable {[ key := v ]}) d
    | Some (ITable t) => set_item section (ITable (<[ key := v ]> t)) d
    | Some _ => d
    end.
Definition remove_key (section key : string) (d : D) : D :=
  if is_empty section then remove_item key d
  else match section_table section d with Some t => set_item section (ITable (delete key t)) d | None => d end.
Definition apply_field_to_doc (form : Form) (spec : FieldSpec) (d : D) : D :=
  let set v := set_key (fs_section spec) (fs_key spec) v d in
  let remove := remove_key (fs_section spec) (fs_key spec) d in
  let sent := form_str form (fs_name spec) in
  match fs_kind spec with
  | Text => match sent with Some v => set (VStr v) | None => d end
  | Password => match sent with Some v => if negb (blank v) then set (VStr v) else d | None => d end
  | Port => match sent ≫= parse_u16 with Some p => set (VInt p) | None => d end
  | U16OrClear =>
      match sent with
      | Some v => if blank v then remove else match parse_u16 v with Some p => set (VInt p) | None => d end
      | None => d
      end
  | OverrideText remove_when_blank =>
      if overrides form spec then
        match sent with Some v => if blank v && remove_when_blank then remove else set (VStr v) | None => d end
      else remove
  | OverrideBool =>
      if overrides form spec then set (VBool (default false (form_bool form (fs_name spec)))) else remove
  | BoolAlways => set (VBool (form_flag form (fs_name spec)))
  | OverrideSelect dflt =>
      if overrides form spec then
        set (VStr match sent with Some v => if negb (blank v) then v else dflt | None => dflt end)
      else set (VStr dflt)
  end.
(** One of the two inputs of the probe section. *)
Definition apply_probe_key (form : Form) (key name : string) (d : D) : D :=
  match form_str form name with
  | None => d
  | Some v =>
      let d := match item "probe" d with None => set_item "probe" (ITable ∅) d | Some _ => d end in
      match section_table "probe" d with
      | Some t => set_item "probe" (ITable (if blank v then delete key t else <[ key := VStr v ]> t)) d
      | None => d
      end
  end.
Definition apply_probe_form_to_doc (form : Form) (d : D) : D :=
  if form_flag form "auto_probe_ldap" then remove_item "probe" d
  else
    let d := apply_probe_key form "client_host" "probe_client_host"
               (apply_probe_key form "user_principal" "probe_user_principal" d) in
    match section_table "probe" d with
    | Some t => if bool_decide (t = ∅) then remove_item "probe" d else d
    | None => d
    end.
Definition apply_structured_form_to_doc (form : Form) (d : D) : D :=
  apply_probe_form_to_doc form (foldl (fun d spec => apply_field_to_doc form spec d) d FIELDS).

(** ** Explicit keys *)
Definition key_item (section key : string) (d : D) : option TVal :=
  if is_empty section then match item key d with Some (IValue v) => Some v | Some _ => Some VOther | None => None end
  else t ← section_table section d; t !! key.
Definition has_explicit (d : D) (section key : string) : bool := is_some (key_item section key d).
Definition get_explicit_str (d : D) (section key : string) : option string :=
  match key_item section key d with Some (VStr s) => Some s | _ => None end.
Definition share_table_at (d : D) (idx : nat) : option Table :=
  match item "shares" d with Some (ITables l) => st_keys <$> l !! idx | _ => None end.
Definition share_pseudo_path_explicit_in_raw (d : D) (idx : nat) : bool :=
  match share_table_at d idx with
  | Some t => is_some (t !! "pseudo_path") || is_some (t !! "export_path")
  | None => false
  end.
Definition share_pseudo_path_from_raw (d : D) (idx : nat) : string :=
  match share_table_at d idx with
  | None => ""
  | Some t =>
      let key := if is_some (t !! "pseudo_path") then "pseudo_path" else "export_path" in
      let raw := trim (default "" (get_str t key)) in
      if is_empty raw then "" else if starts_with "/" raw then raw else "/" +:+ raw
  end.
End Doc.

(** ** The panes' Auto/Custom fields *)
Section Views.
Context {D : Type} `{!TomlDoc D}.
Record AcTextView := {
  at_name : string; at_label : string; at_tooltip : string; at_placeholder : string; at_value : string; at_overridden : bool }.
Record AcBoolView := {
  ab_name : string; ab_label : string; ab_tooltip : string; ab_checked : bool; ab_overridden : bool }.
(** The row is found for every name used; the source panics otherwise. *)
Definition overridden (d : D) (name : string) : bool :=
  match List.find (fun s => seqb (fs_name s) name) FIELDS with
  | Some spec => has_explicit d (fs_section spec) (fs_key spec)
  | None => false
  end.
Definition text_view (d : D) (name label tooltip placeholder : string) (value : option string) : AcTextView :=
  {| at_name := name; at_label := label; at_tooltip := tooltip; at_placeholder := placeholder;
     at_value := default "" value; at_overridden := overridden d name |}.
Definition bool_view (d : D) (name label tooltip : string) (value : option bool) : AcBoolView :=
  {| ab_name := name; ab_label := label; ab_tooltip := tooltip; ab_checked := default false value;
     ab_overridden := overridden d name |}.
Definition line2 (a b : string) : string := a +:+ String nl b.
Definition sssd_ac_text_views (cfg : NfsKlldapConfig) (d : D) : list AcTextView := [
  text_view d "sssd_search_base" "sssd.ldap_search_base"
    (line2 "Base DN for searches. Auto = derived from the realm." "→ sssd.ldap_search_base") "dc=…,dc=…"
    (ss_ldap_search_base (sssd cfg));
  text_view d "sssd_user_base" "sssd.ldap_user_search_base"
    (line2 "Where user entries live." "→ sssd.ldap_user_search_base") "" (ss_ldap_user_search_base (sssd cfg));
  text_view d "sssd_group_base" "sssd.ldap_group_search_base"
    (line2 "Where group entries live." "→ sssd.ldap_group_search_base") "" (ss_ldap_group_search_base (sssd cfg))].
Definition tls_ac_text_views (cfg : NfsKlldapConfig) (d : D) : list AcTextView := [
  text_view d "sssd_ldap_tls_reqcert" "sssd.ldap_tls_reqcert"
    (line2 "TLS certificate validation (never / demand)." "→ sssd.ldap_tls_reqcert") "never"
    (ss_ldap_tls_reqcert (sssd cfg));
  text_view d "sssd_ldap_tls_cacert" "sssd.ldap_tls_cacert"
    (line2 "Path to a CA certificate." "→ sssd.ldap_tls_cacert") "/etc/pki/…" (ss_ldap_tls_cacert (sssd cfg))].
Definition tls_ac_bool_views (cfg : NfsKlldapConfig) (d : D) : list AcBoolView := [
  bool_view d "sssd_ldap_id_use_start_tls" "sssd.ldap_id_use_start_tls"
    (line2 "STARTTLS on plain ldap:// only." "→ sssd.ldap_id_use_start_tls") (ss_ldap_id_use_start_tls (sssd cfg));
  bool_view d "sssd_enumerate" "sssd.enumerate"
    (line2 "Enumerate all users/groups — heavy; avoid on KLLDAP." "→ sssd.enumerate") (ss_enumerate (sssd cfg))].
End Views.

(** ** Reading after a write *)
Definition upd (k : string) (o : option TVal) (t : Table) : Table :=
  match o with Some v => <[ k := v ]> t | None => delete k t end.
Lemma lookup_upd k o t k' : upd k o t !! k' = if seqb k k' then o else t !! k'.
Proof.
  unfold upd. destruct (seqb k k') eqn:E.
  - apply seqb_eq in E as ->. destruct o; by simplify_map_eq.
  - apply seqb_neq in E. destruct o; by simplify_map_eq.
Qed.
(** Whether a value may stand at a key. *)
Definition fits (fields : list (string * FieldType)) (k : string) (v : TVal) : bool :=
  forallb (fun f => negb (seqb k f.1) || has_type f.2 v) fields.
Lemma typed_upd fields k o t :
  typed fields t = true -> (forall v, o = Some v -> fits fields k v = true) -> typed fields (upd k o t) = true.
Proof.
  unfold typed, fits. rewrite !forallb_forall. intros Ht Hv [k' ty] Hin. rewrite lookup_upd.
  destruct (seqb k k') eqn:E; [|by apply (Ht (k', ty))]. destruct o as [v|]; [|done].
  specialize (Hv v eq_refl). rewrite forallb_forall in Hv. specialize (Hv _ Hin). cbn in Hv. by rewrite E in Hv.
Qed.
(** Section by section: what the configuration becomes when one top-level item
    changes. *)
Definition swap (it : string -> option Item) (k : string) (i : option Item) (k' : string) : option Item :=
  if seqb k k' then i else it k'.
Lemma swap_same it k i : swap it k i k = i.
Proof. unfold swap. by rewrite seqb_refl. Qed.
Lemma swap_other it k i k' : seqb k k' = false -> swap it k i k' = it k'.
Proof. unfold swap. by intros ->. Qed.
(** Rebuild the configuration with one part replaced; [solve_section k] is left
    with the section [k] and the change of the record. *)
Ltac solve_section H :=
  apply config_of_items_some in H as (uri & nav & storage & server & sss & kerberos & gan & management & prb & host &
    web & tables & shs & Huri & Hnav & Hstorage & Hserver & Hsss & Hkerberos & Hgan & Hmanagement & Hprb & Hhost &
    Hweb & Htables & Hshs & ->);
  apply config_of_items_some;
  rewrite ?swap_same.
Ltac rebuild :=
  repeat lazymatch goal with |- exists _, _ => eexists end;
  repeat match goal with |- _ /\ _ => split end; try eassumption; try reflexivity.
Lemma read_uri it c s :
  config_of_items it = Some c -> config_of_items (swap it "ldap_uri" (Some (IValue (VStr s)))) = Some (set_uri s c).
Proof. intros H. solve_section H. rebuild. Qed.
Lemma read_nav it c b :
  config_of_items it = Some c -> config_of_items (swap it "navahi_discovery" (Some (IValue (VBool b)))) = Some (set_nav b c).
Proof. intros H. solve_section H. rebuild. Qed.
(** The table of a section, empty when it is absent. *)
Definition table_of (i : option Item) : Table := match i with Some (ITable t) => t | _ => ∅ end.
Definition plain (i : option Item) : Prop := match i with None | Some (ITable _) => True | _ => False end.
Lemma section_plain fields i o : plain i -> section fields i = Some o -> typed fields (table_of i) = true /\ table_of i = default ∅ o.
Proof.
  destruct i as [[]|]; cbn; try done; [|intros _ [= <-]; split; [|done]; apply forallb_forall; by intros []].
  intros _. destruct (typed fields t); [|done]. by intros [= <-].
Qed.
Lemma section_table_typed fields t : typed fields t = true -> section fields (Some (ITable t)) = Some (Some t).
Proof. cbn. by intros ->. Qed.
Lemma read_sssd it c t :
  config_of_items it = Some c -> typed SSSD_FIELDS t = true ->
  config_of_items (swap it "sssd" (Some (ITable t))) = Some (set_sssd (sssd_of_table t) c).
Proof. intros H Ht%section_table_typed. solve_section H. rebuild. Qed.
Lemma read_storage it c t :
  config_of_items it = Some c -> typed (of_type TStr ["container_root"]) t = true ->
  config_of_items (swap it "storage" (Some (ITable t))) = Some (set_root (default "/export" (get_str t "container_root")) c).
Proof. intros H Ht%section_table_typed. solve_section H. rebuild. Qed.
Lemma read_server it c t :
  config_of_items it = Some c -> typed (of_type TStr ["hostname"]) t = true ->
  config_of_items (swap it "server" (Some (ITable t))) = Some (set_host (get_str t "hostname") c).
Proof. intros H Ht%section_table_typed. solve_section H. rebuild. Qed.
Lemma read_kerberos it c t :
  config_of_items it = Some c -> typed (of_type TStr ["realm"]) t = true ->
  config_of_items (swap it "kerberos" (Some (ITable t))) = Some (set_realm (get_str t "realm") c).
Proof. intros H Ht%section_table_typed. solve_section H. rebuild. Qed.
Lemma read_ganesha it c t :
  config_of_items it = Some c -> typed GANESHA_FIELDS t = true ->
  config_of_items (swap it "ganesha" (Some (ITable t))) = Some (set_ganesha (ganesha_of_table t) c).
Proof. intros H Ht%section_table_typed. solve_section H. rebuild. Qed.
Lemma read_webui it c t :
  config_of_items it = Some c -> typed WEBUI_FIELDS t = true ->
  config_of_items (swap it "webui" (Some (ITable t))) = Some (set_webui (webui_of_table t) c).
Proof. intros H Ht%section_table_typed. solve_section H. rebuild. Qed.
Lemma read_probe it c o t :
  config_of_items it = Some c -> section PROBE_FIELDS o = Some t ->
  config_of_items (swap it "probe" o) = Some (set_probe (probe_of_table (default ∅ t)) c).
Proof. intros H Ht. solve_section H. rebuild. Qed.
(** What the configuration says of a section it was read from. *)
Lemma read_parts it c :
  config_of_items it = Some c ->
  (forall o, section SSSD_FIELDS (it "sssd") = Some o -> sssd c = sssd_of_table (default ∅ o)) /\
  (it "server" = None -> server_hostname c = None) /\ (it "kerberos" = None -> kerberos_realm c = None) /\
  (forall o, section GANESHA_FIELDS (it "ganesha") = Some o -> ganesha c = from_option ganesha_of_table default_ganesha o) /\
  (forall o, section WEBUI_FIELDS (it "webui") = Some o -> webui c = webui_of_table (default ∅ o)) /\
  (forall o, section PROBE_FIELDS (it "probe") = Some o -> probe c = probe_of_table (default ∅ o)) /\
  is_Some (section SSSD_FIELDS (it "sssd")) /\ is_Some (section GANESHA_FIELDS (it "ganesha")) /\
  is_Some (section WEBUI_FIELDS (it "webui")) /\ is_Some (section PROBE_FIELDS (it "probe")) /\
  is_Some (section (of_type TStr ["container_root"]) (it "storage")) /\
  is_Some (section (of_type TStr ["hostname"]) (it "server")) /\ is_Some (section (of_type TStr ["realm"]) (it "kerberos")).
Proof.
  intros H. apply config_of_items_some in H as (uri & nav & storage & server & sss & kerberos & gan & management & prb & host &
    web & tables & shs & Huri & Hnav & Hstorage & Hserver & Hsss & Hkerberos & Hgan & Hmanagement & Hprb & Hhost &
    Hweb & Htables & Hshs & ->).
  rewrite Hstorage, Hserver, Hsss, Hkerberos, Hgan, Hprb, Hweb. split_and!; try (intros o [= <-]; done); try done.
  - intros E. rewrite E in Hserver. cbn in Hserver. by injection Hserver as <-.
  - intros E. rewrite E in Hkerberos. cbn in Hkerberos. by injection Hkerberos as <-.
Qed.

(** ** One row at a time *)
Definition value_of (v : FieldValue) : option TVal :=
  match v with FStr o => VStr <$> o | FBool o => VBool <$> o | FU16 o => VInt <$> o end.
(** The values a row of a kind sets. *)
Definition admissible (k : FieldKind) (v : FieldValue) : Prop :=
  match k, v with
  | Text, FStr (Some _) | Password, FStr (Some _) | OverrideSelect _, FStr (Some _) => True
  | OverrideText _, FStr _ | OverrideBool, FBool _ | BoolAlways, FBool (Some _) => True
  | Port, FU16 (Some p) => 0 <= p <= u16_max
  | U16OrClear, FU16 o => match o with Some p => 0 <= p <= u16_max | None => True end
  | _, _ => False
  end.
Lemma lookup_upd_ne k o t k' : seqb k k' = false -> upd k o t !! k' = t !! k'.
Proof. rewrite lookup_upd. by intros ->. Qed.
Lemma lookup_upd_eq k o t : upd k o t !! k = o.
Proof. by rewrite lookup_upd, seqb_refl. Qed.
Ltac upd_fields := unfold get_str, get_bool, get_int, get_strs; rewrite ?lookup_upd_eq; rewrite ?lookup_upd_ne by reflexivity.
Lemma sssd_upd :
  let writes k o f := forall t c, set_sssd (sssd_of_table (upd k o t)) c = f (set_sssd (sssd_of_table t) c) in
  (forall s, writes "ldap_default_bind_dn" (Some (VStr s)) (sssd_dn s))
  /\ (forall s, writes "ldap_default_authtok" (Some (VStr s)) (sssd_pw s))
  /\ (forall o, writes "port" (VInt <$> o) (sssd_port o))
  /\ (forall o, writes "ldap_user_search_base" (VStr <$> o) (sssd_user_base o))
  /\ (forall o, writes "ldap_group_search_base" (VStr <$> o) (sssd_group_base o))
  /\ (forall o, writes "ldap_search_base" (VStr <$> o) (sssd_base o))
  /\ (forall o, writes "ldap_tls_reqcert" (VStr <$> o) (sssd_reqcert o))
  /\ (forall o, writes "ldap_tls_cacert" (VStr <$> o) (sssd_cacert o))
  /\ (forall o, writes "ldap_id_use_start_tls" (VBool <$> o) (sssd_tls o))
  /\ (forall o, writes "enumerate" (VBool <$> o) (sssd_enumerate o))
  /\ (forall o, writes "kllldap_ignored_attributes" (VBool <$> o) (sssd_ignored o)).
Proof. cbv zeta. split_and!; intros o t c; unfold sssd_of_table; upd_fields; [done..| | | | | | | | |]; by destruct o. Qed.

Lemma set_form_same c :
  set_uri (ldap_uri c) c = c /\ set_sssd (sssd c) c = c /\ set_host (server_hostname c) c = c
  /\ set_realm (kerberos_realm c) c = c /\ set_webui (webui c) c = c /\ set_probe (probe c) c = c
  /\ set_ganesha (ganesha c) c = c.
Proof. by destruct c. Qed.
Lemma config_of_items_ext it it' : (forall k, it k = it' k) -> config_of_items it = config_of_items it'.
Proof. intros H. unfold config_of_items. by rewrite !H. Qed.
Lemma seqb_dec {A} a b (x y : A) : (if decide (a = b) then x else y) = if seqb a b then x else y.
Proof.
  destruct (decide (a = b)) as [->|Hn]; [by rewrite seqb_refl|]. apply seqb_neq in Hn. by rewrite Hn.
Qed.

Section Assign.
Context {D : Type} `{!TomlDoc D} `{!TomlLaws D}.
Definition assign (section key : string) (o : option TVal) (d : D) : D :=
  match o with Some v => set_key section key v d | None => remove_key section key d end.
(** [plain] for the sections the form writes. *)
Definition plain_doc (d : D) : Prop := forall spec, spec ∈ FIELDS -> fs_section spec <> "" -> plain (item (fs_section spec) d).
Definition read_items (d : D) : option NfsKlldapConfig := config_of_items (fun k => item k d).

Lemma item_set_swap k i d k' : item k' (set_item k i d) = swap (fun k => item k d) k (Some i) k'.
Proof. rewrite item_set. apply seqb_dec. Qed.
Lemma item_assign_top key o d k :
  item k (assign "" key o d) = swap (fun k => item k d) key (IValue <$> o) k.
Proof. unfold assign, set_key, remove_key. destruct o; cbn [is_empty]; [apply item_set_swap|]. rewrite item_remove. apply seqb_dec. Qed.
Lemma item_assign section key o d k :
  section <> "" -> plain (item section d) ->
  item k (assign section key o d) =
    (if bool_decide (o = None) && bool_decide (item section d = None) then item k d
     else swap (fun k => item k d) section (Some (ITable (upd key o (table_of (item section d))))) k).
Proof.
  intros Hs Hp. unfold assign, set_key, remove_key, section_table.
  assert (is_empty section = false) as -> by (by destruct section).
  destruct o as [v|]; cbn [bool_decide].
  - rewrite bool_decide_false by done. cbn [andb]. destruct (item section d) as [[]|]; try done; apply item_set_swap.
  - rewrite bool_decide_true by done. cbn [andb]. destruct (item section d) as [[]|] eqn:E; try done; cbn.
    apply item_set_swap.
Qed.
Lemma assign_plain section key o d spec :
  section <> "" -> plain (item section d) -> plain (item (fs_section spec) d) ->
  plain (item (fs_section spec) (assign section key o d)).
Proof.
  intros Hs Hp Hq. rewrite item_assign by done. destruct (_ && _); [done|]. unfold swap. by destruct (seqb _ _).
Qed.
Lemma read_assign section key o d c c' :
  section <> "" -> plain (item section d) -> read_items d = Some c ->
  (item section d = None -> o = None -> c' = c) ->
  (forall t, t = table_of (item section d) ->
     config_of_items (swap (fun k => item k d) section (Some (ITable (upd key o t)))) = Some c') ->
  read_items (assign section key o d) = Some c'.
Proof.
  intros Hs Hp Hc Hno Ht. unfold read_items.
  rewrite (config_of_items_ext _ _ (fun k => item_assign section key o d k Hs Hp)).
  destruct (bool_decide (o = None) && bool_decide (item section d = None)) eqn:E.
  - apply andb_true_iff in E as [->%bool_decide_eq_true E%bool_decide_eq_true]. by rewrite (Hno E eq_refl).
  - by apply Ht.
Qed.
End Assign.
Section Rows.
Context {D : Type} `{!TomlDoc D} `{!TomlLaws D}.
Definition field_reads (spec : FieldSpec) : Prop := forall (d : D) c v,
  admissible (fs_kind spec) v -> read_items d = Some c -> plain_doc d ->
  read_items (assign (fs_section spec) (fs_key spec) (value_of v) d) = Some (fs_set spec v c).

(** A row of [sssd]: its key, its setter on the record. *)
Lemma sssd_reads (d : D) c k o f :
  read_items d = Some c -> plain (item "sssd" d) ->
  (forall v, o = Some v -> fits SSSD_FIELDS k v = true) ->
  (forall t c, set_sssd (sssd_of_table (upd k o t)) c = f (set_sssd (sssd_of_table t) c)) ->
  read_items (assign "sssd" k o d) = Some (f c).
Proof.
  intros Hc Hp Hfit Hf. pose proof (read_parts _ _ Hc) as (Hs & _ & _ & _ & _ & _ & [s Hsome] & _).
  destruct (section_plain _ _ _ Hp Hsome) as [Ht He]. specialize (Hs _ Hsome). cbn in Hs. rewrite <- He in Hs.
  pose proof (set_form_same c) as (_ & Hsame & _). rewrite Hs in Hsame.
  apply read_assign with (c := c); [done..| |].
  - intros E ->. specialize (Hf ∅ c). change (upd k None ∅) with (delete k (∅ : Table)) in Hf. rewrite delete_empty in Hf.
    rewrite E in Hsame. cbn [table_of] in Hsame. by rewrite Hsame in Hf.
  - intros t ->. rewrite (read_sssd _ c) by first [done | by apply typed_upd]. by rewrite Hf, Hsame.
Qed.
(** A section with one optional text. *)
Lemma text_reads (d : D) c section k o f :
  section <> "" -> read_items d = Some c -> plain (item section d) ->
  (forall it c t, config_of_items it = Some c -> typed (of_type TStr [k]) t = true ->
     config_of_items (swap it section (Some (ITable t))) = Some (f (get_str t k) c)) ->
  typed (of_type TStr [k]) (table_of (item section d)) = true ->
  (item section d = None -> f None c = c) ->
  read_items (assign section k (VStr <$> o) d) = Some (f o c).
Proof.
  intros Hs Hc Hp Hread Ht Hnone. apply read_assign with (c := c); [done..| |].
  - intros E Ho. destruct o; [done|]. by apply Hnone.
  - intros t ->. rewrite (Hread _ c); [|done|].
    + unfold get_str. rewrite lookup_upd_eq. by destruct o.
    + apply typed_upd; [done|]. intros v Hv. destruct o; [|done]. injection Hv as <-. unfold fits. cbn. by rewrite orb_true_r.
Qed.
Definition is_u16 (ty : FieldType) : bool := match ty with TInt lo hi => (lo =? 0) && (hi =? u16_max) | _ => false end.
Lemma u16_fits p fields k :
  forallb (fun f => negb (seqb k f.1) || is_u16 f.2) fields = true -> 0 <= p <= u16_max -> fits fields k (VInt p) = true.
Proof.
  intros Hall Hp. unfold fits. rewrite forallb_forall in Hall. apply forallb_forall. intros f Hf. specialize (Hall f Hf).
  destruct (seqb k f.1); [|done]. destruct f as [k' [| |lo hi|]]; try done. cbn in *.
  apply andb_true_iff in Hall as [->%Z.eqb_eq ->%Z.eqb_eq]. apply andb_true_iff. split; apply Z.leb_le; lia.
Qed.
Lemma plain_section d s : plain_doc d -> existsb (fun spec => seqb (fs_section spec) s && negb (is_empty s)) FIELDS = true ->
  plain (item s d).
Proof.
  intros Hp (spec & Hin & [E%seqb_eq Hn]%andb_true_iff)%existsb_exists. rewrite <- E. apply Hp.
  - by apply list_elem_of_In.
  - rewrite E. intros ->. done.
Qed.
Definition sssd_rows : list FieldSpec := List.filter (fun s => seqb (fs_section s) "sssd") FIELDS.
(** A row of [sssd], given its line of [sssd_upd]. *)
Ltac sssd_row d c Hc Hp f Hf :=
  cbn [fs_kind row fs_section fs_key fs_set value_of str_field opt_field bool_field];
  apply (sssd_reads d c _ _ f); [exact Hc | by apply plain_section | | apply Hf].
Ltac fits_opt o := let v := fresh in intros v; destruct o; [intros [= <-]; reflexivity | discriminate].
Lemma sssd_rows_read : Forall field_reads sssd_rows.
Proof.
  destruct sssd_upd as (H1 & H2 & H3 & H4 & H5 & H6 & H7 & H8 & H9 & H10 & H11).
  unfold sssd_rows. cbn.
  repeat apply Forall_cons_2; try apply Forall_nil_2; intros d c v Ha Hc Hp.
  - destruct v as [[s|]| |]; try done. sssd_row d c Hc Hp (sssd_dn s) H1. by intros v [= <-].
  - destruct v as [[s|]| |]; try done. sssd_row d c Hc Hp (sssd_pw s) H2. by intros v [= <-].
  - destruct v as [| |[p|]]; try done. sssd_row d c Hc Hp (sssd_port (Some p)) H3. intros v [= <-]. by apply u16_fits.
  - destruct v as [o| |]; try done. sssd_row d c Hc Hp (sssd_base o) H6. fits_opt o.
  - destruct v as [o| |]; try done. sssd_row d c Hc Hp (sssd_user_base o) H4. fits_opt o.
  - destruct v as [o| |]; try done. sssd_row d c Hc Hp (sssd_group_base o) H5. fits_opt o.
  - destruct v as [o| |]; try done. sssd_row d c Hc Hp (sssd_reqcert o) H7. fits_opt o.
  - destruct v as [o| |]; try done. sssd_row d c Hc Hp (sssd_cacert o) H8. fits_opt o.
  - destruct v as [|o|]; try done. sssd_row d c Hc Hp (sssd_tls o) H9. fits_opt o.
  - destruct v as [|o|]; try done. sssd_row d c Hc Hp (sssd_enumerate o) H10. fits_opt o.
  - destruct v as [|[b|]|]; try done. sssd_row d c Hc Hp (sssd_ignored (Some b)) H11. by intros v [= <-].
Qed.
Lemma top_reads (d : D) c key v f :
  read_items d = Some c ->
  (forall it c, config_of_items it = Some c -> config_of_items (swap it key (Some (IValue v))) = Some (f c)) ->
  read_items (assign "" key (Some v) d) = Some (f c).
Proof.
  intros Hc Hf. unfold read_items. rewrite (config_of_items_ext _ _ (fun k => item_assign_top key (Some v) d k)).
  by apply (Hf (fun k => item k d)).
Qed.
Lemma ganesha_upd t s c :
  set_ganesha (ganesha_of_table (upd "default_security" (Some (VStr s)) t)) c
  = set_ganesha (with_ganesha_core (ganesha_of_table t) s (ga_post_generate_hook (ganesha_of_table t))
                   (ga_root_kerberos_principals (ganesha_of_table t))) c.
Proof. unfold ganesha_of_table. upd_fields. done. Qed.
Lemma webui_upd t o :
  webui_of_table (upd "session_timeout_minutes" (VInt <$> o) t)
  = {| wu_tls := wu_tls (webui_of_table t); wu_tls_cert := wu_tls_cert (webui_of_table t);
       wu_tls_key := wu_tls_key (webui_of_table t); wu_session_timeout_minutes := o |}.
Proof. unfold webui_of_table. upd_fields. by destruct o. Qed.
Lemma ganesha_reads (d : D) c s :
  read_items d = Some c -> plain (item "ganesha" d) ->
  read_items (assign "ganesha" "default_security" (Some (VStr s)) d)
  = Some (set_ganesha (with_ganesha_core (ganesha c) s (ga_post_generate_hook (ganesha c))
                         (ga_root_kerberos_principals (ganesha c))) c).
Proof.
  intros Hc Hp. pose proof (read_parts _ _ Hc) as (_ & _ & _ & Hg & _ & _ & _ & [o Ho] & _).
  destruct (section_plain _ _ _ Hp Ho) as [Ht He]. specialize (Hg _ Ho). cbn in Hg.
  apply read_assign with (c := c); [done..|]. intros t ->.
  rewrite (read_ganesha _ c); [|done|apply typed_upd; [done|by intros v [= <-]]].
  rewrite ganesha_upd, Hg, He. by destruct o.
Qed.
Lemma webui_reads (d : D) c o :
  read_items d = Some c -> plain (item "webui" d) -> (forall p, o = Some p -> 0 <= p <= u16_max) ->
  read_items (assign "webui" "session_timeout_minutes" (VInt <$> o) d)
  = Some (set_webui {| wu_tls := wu_tls (webui c); wu_tls_cert := wu_tls_cert (webui c);
                       wu_tls_key := wu_tls_key (webui c); wu_session_timeout_minutes := o |} c).
Proof.
  intros Hc Hp Hr. pose proof (read_parts _ _ Hc) as (_ & _ & _ & _ & Hw & _ & _ & _ & [x Hx] & _).
  destruct (section_plain _ _ _ Hp Hx) as [Ht He]. specialize (Hw _ Hx). cbn in Hw. rewrite <- He in Hw.
  pose proof (set_form_same c) as (_ & _ & _ & _ & Hsame & _). rewrite Hw in Hsame.
  apply read_assign with (c := c); [done..| |].
  - intros E Ho. destruct o; [done|]. rewrite E in Hsame, Hw. rewrite Hw. exact Hsame.
  - intros t ->. rewrite (read_webui _ c); [|done|].
    + by rewrite webui_upd, Hw.
    + apply typed_upd; [done|]. intros v Hv. destruct o as [p|]; [|done]. injection Hv as <-. apply u16_fits; [done|]. by apply Hr.
Qed.
(** Every row reads back what it writes. *)
Lemma rows_read : Forall field_reads FIELDS.
Proof.
  pose proof sssd_rows_read as Hs. unfold sssd_rows in Hs. cbn in Hs. rewrite !Forall_cons in Hs.
  destruct Hs as (Hs1 & Hs2 & Hs3 & Hs4 & Hs5 & Hs6 & Hs7 & Hs8 & Hs9 & Hs10 & Hs11 & _).
  unfold FIELDS.
  apply Forall_cons_2; [|apply Forall_cons_2; [|apply Forall_cons_2; [|]]].
  - intros d c [[s|]| |] Ha Hc Hp; try done. by apply (top_reads d c "ldap_uri" _ (set_uri s)); [|intros; apply read_uri].
  - intros d c [[s|]| |] Ha Hc Hp; try done. cbn [fs_section fs_key row value_of fs_set str_field fmap option_fmap option_map].
    pose proof (read_parts _ _ Hc) as (_ & _ & _ & _ & _ & _ & _ & _ & _ & _ & [o Ho] & _).
    apply (plain_section d "storage") in Hp; [|done]. destruct (section_plain _ _ _ Hp Ho) as [Ht _].
    apply read_assign with (c := c); [done..|]. intros t ->.
    rewrite (read_storage _ c); [|done|apply typed_upd; [done|by intros v [= <-]]]. unfold get_str. by rewrite lookup_upd_eq.
  - intros d c [o| |] Ha Hc Hp; try done. pose proof (read_parts _ _ Hc) as (_ & Hh & _ & _ & _ & _ & _ & _ & _ & _ & _ & [x Hx] & _).
    apply (plain_section d "server") in Hp; [|done]. destruct (section_plain _ _ _ Hp Hx) as [Ht _].
    apply (text_reads d c "server" "hostname" o set_host); [done..|intros; by apply read_server|done|].
    intros E. rewrite <- (Hh E). apply set_form_same.
  - repeat (apply Forall_cons_2; [assumption|]). repeat apply Forall_cons_2; try apply Forall_nil_2.
    + intros d c [|[b|]|] Ha Hc Hp; try done. by apply (top_reads d c "navahi_discovery" _ (set_nav b)); [|intros; apply read_nav].
    + intros d c [o| |] Ha Hc Hp; try done. pose proof (read_parts _ _ Hc) as (_ & _ & Hk & _ & _ & _ & _ & _ & _ & _ & _ & _ & [x Hx]).
      apply (plain_section d "kerberos") in Hp; [|done]. destruct (section_plain _ _ _ Hp Hx) as [Ht _].
      apply (text_reads d c "kerberos" "realm" o set_realm); [done..|intros; by apply read_kerberos|done|].
      intros E. rewrite <- (Hk E). apply set_form_same.
    + intros d c [[s|]| |] Ha Hc Hp; try done. apply ganesha_reads; [done|]. by apply plain_section.
    + intros d c [| |o] Ha Hc Hp; try done. apply webui_reads; [done|by apply plain_section|]. by intros p ->.
Qed.
End Rows.

(** ** What the form asks of each side *)
(** The value a row sets in the configuration; [None]: it leaves it. *)
Definition config_action (form : Form) (spec : FieldSpec) : option FieldValue :=
  let sent := form_str form (fs_name spec) in
  match fs_kind spec with
  | Text => (fun v => FStr (Some v)) <$> sent
  | Password => v ← sent; if blank v then None else Some (FStr (Some v))
  | Port => (fun p => FU16 (Some p)) <$> (sent ≫= parse_u16)
  | U16OrClear => v ← sent; if blank v then Some (FU16 None) else (fun p => FU16 (Some p)) <$> parse_u16 v
  | OverrideText _ => if overrides form spec then (fun v => FStr (nonblank v)) <$> sent else None
  | OverrideBool => if overrides form spec then Some (FBool (form_bool form (fs_name spec))) else None
  | BoolAlways => Some (FBool (Some (form_flag form (fs_name spec))))
  | OverrideSelect dflt =>
      if overrides form spec then (fun v => FStr (Some (if blank v then dflt else v))) <$> sent
      else Some (FStr (Some dflt))
  end.
(** What it does to its key: [Some None] removes it. *)
Definition doc_action (form : Form) (spec : FieldSpec) : option (option TVal) :=
  let sent := form_str form (fs_name spec) in
  match fs_kind spec with
  | OverrideText remove_when_blank =>
      if overrides form spec then
        (fun v => if blank v && remove_when_blank then None else Some (VStr v)) <$> sent
      else Some None
  | OverrideBool =>
      if overrides form spec then Some (Some (VBool (default false (form_bool form (fs_name spec))))) else Some None
  | OverrideSelect dflt =>
      Some (Some (VStr (if overrides form spec then match sent with Some v => if blank v then dflt else v | None => dflt end else dflt)))
  | _ => value_of <$> config_action form spec
  end.
Lemma config_action_spec form spec c :
  apply_field_to_config form spec c = match config_action form spec with Some v => fs_set spec v c | None => c end.
Proof.
  unfold apply_field_to_config, config_action, nonblank. destruct (fs_kind spec), (form_str form (fs_name spec)) as [v|];
    cbn; try done; try (destruct (overrides form spec); done); try (destruct (blank v); try done; by destruct (parse_u16 v)).
Qed.
Lemma parse_u16_range v p : parse_u16 v = Some p -> 0 <= p <= u16_max.
Proof. apply parse_uint_range. Qed.
Lemma config_action_admissible form spec v : config_action form spec = Some v -> admissible (fs_kind spec) v.
Proof.
  unfold config_action. destruct (fs_kind spec), (form_str form (fs_name spec)) as [s|]; cbn;
    try (destruct (overrides form spec)); try (destruct (blank s)); cbn; intros; simplify_eq/=; try done;
    destruct (parse_u16 s) eqn:E; cbn in *; simplify_eq/=; by apply parse_u16_range in E.
Qed.

(** The value that a save leaves in the document for a row; [None]: the row leaves
    its key as it is. *)
Definition saved_value (form : Form) (spec : FieldSpec) : option FieldValue :=
  let sent := form_str form (fs_name spec) in
  match fs_kind spec with
  | OverrideText remove_when_blank =>
      if overrides form spec
      then (fun v => FStr (if blank v && remove_when_blank then None else Some v)) <$> sent
      else Some (FStr None)
  | OverrideBool => Some (FBool (if overrides form spec then Some (default false (form_bool form (fs_name spec))) else None))
  | OverrideSelect dflt =>
      Some (FStr (Some (if overrides form spec
                        then match sent with Some v => if blank v then dflt else v | None => dflt end else dflt)))
  | _ => config_action form spec
  end.
Definition save_row (form : Form) (spec : FieldSpec) (c : NfsKlldapConfig) : NfsKlldapConfig :=
  match saved_value form spec with Some v => fs_set spec v c | None => c end.
Lemma saved_value_doc form spec : doc_action form spec = value_of <$> saved_value form spec.
Proof.
  unfold doc_action, saved_value. destruct (fs_kind spec); try done; destruct (overrides form spec); try done.
  destruct (form_str form (fs_name spec)) as [v|]; [|done]. cbn. by destruct (blank v && remove_when_blank).
Qed.
Lemma saved_value_admissible form spec v : saved_value form spec = Some v -> admissible (fs_kind spec) v.
Proof.
  unfold saved_value. pose proof (config_action_admissible form spec v) as H.
  destruct (fs_kind spec) eqn:Ek; try exact H; cbn; destruct (overrides form spec), (form_str form (fs_name spec));
    cbn; intros; simplify_eq/=; done.
Qed.

(** When both sides get the same: a row set to Auto had no key, a blank custom
    text is one that is removed, and the inputs of an override are sent. *)
Definition agrees `{!TomlDoc D} (form : Form) (spec : FieldSpec) (d : D) : Prop :=
  match fs_kind spec with
  | OverrideText remove_when_blank =>
      if overrides form spec then
        forall v, form_str form (fs_name spec) = Some v -> blank v = true -> remove_when_blank = true
      else key_item (fs_section spec) (fs_key spec) d = None
  | OverrideBool =>
      if overrides form spec then is_Some (form_str form (fs_name spec))
      else key_item (fs_section spec) (fs_key spec) d = None
  | OverrideSelect _ => overrides form spec = true -> is_Some (form_str form (fs_name spec))
  | _ => True
  end.
Section Commute.
Context {D : Type} `{!TomlDoc D} `{!TomlLaws D}.
Lemma doc_action_spec form spec (d : D) :
  apply_field_to_doc form spec d
  = match doc_action form spec with Some o => assign (fs_section spec) (fs_key spec) o d | None => d end.
Proof.
  unfold apply_field_to_doc, doc_action, config_action, assign. destruct (fs_kind spec), (form_str form (fs_name spec)) as [v|];
    cbn; try done; try (destruct (overrides form spec); cbn; try done); try (destruct (blank v); cbn; try done; by destruct (parse_u16 v));
    try (by destruct (parse_u16 v)); try (by destruct (blank v)). by destruct (blank v), remove_when_blank.
Qed.
Lemma agrees_actions form spec (d : D) :
  agrees form spec d ->
  doc_action form spec = value_of <$> config_action form spec
  \/ doc_action form spec = Some None /\ config_action form spec = None
     /\ key_item (fs_section spec) (fs_key spec) d = None.
Proof.
  unfold agrees, doc_action, config_action, nonblank.
  destruct (fs_kind spec); try (by left); destruct (overrides form spec); cbn; try (by right).
  - intros Hb. left. destruct (form_str form (fs_name spec)) as [v|]; [|done]. cbn. f_equal.
    destruct (blank v) eqn:E; [|done]. by rewrite (Hb v eq_refl E).
  - intros [v Hv]. left. unfold form_bool. by rewrite Hv.
  - intros H. left. destruct (H eq_refl) as [v ->]. done.
  - by left.
Qed.
Lemma item_remove_absent section key (d : D) k :
  plain (item section d) \/ section = "" -> key_item section key d = None -> item k (remove_key section key d) = item k d.
Proof.
  unfold key_item, remove_key, section_table. destruct (is_empty section) eqn:E.
  - intros _ Hk. rewrite item_remove. destruct (decide (key = k)) as [->|]; [|done].
    by destruct (item k d) as [[]|].
  - intros Hp Hk. destruct (item section d) as [[]|] eqn:Es; try done. cbn in Hk. rewrite delete_id by done.
    rewrite item_set. by destruct (decide (section = k)) as [<-|].
Qed.
Lemma row_commutes form spec (d : D) c :
  spec ∈ FIELDS -> plain_doc d -> agrees form spec d -> read_items d = Some c ->
  read_items (apply_field_to_doc form spec d) = Some (apply_field_to_config form spec c).
Proof.
  intros Hin Hp Ha Hc. rewrite doc_action_spec, config_action_spec.
  destruct (agrees_actions form spec d Ha) as [->|(-> & -> & Hk)].
  - destruct (config_action form spec) as [v|] eqn:E; [|done]. cbn.
    pose proof rows_read as Hr. rewrite Forall_forall in Hr. apply (Hr spec Hin); [|done..].
    by apply config_action_admissible in E.
  - unfold read_items. rewrite (config_of_items_ext _ (fun k => item k d)); [done|].
    intros k. apply item_remove_absent; [|done]. destruct (decide (fs_section spec = "")); [by right|left]. by apply Hp.
Qed.
End Commute.

(** ** All rows *)
Definition home (spec : FieldSpec) : string := if is_empty (fs_section spec) then fs_key spec else fs_section spec.
Definition place (spec : FieldSpec) : string * string := (fs_section spec, fs_key spec).
Definition homes : list string := map home FIELDS.
(** No two rows share a key, and no top-level key is a section. *)
Lemma places_distinct : NoDup (map place FIELDS).
Proof. refine (bool_decide_eq_true_1 _ _). vm_compute. reflexivity. Qed.
Lemma top_is_no_section :
  Forall (fun s => fs_section s = "" -> Forall (fun s' => fs_section s' <> fs_key s) FIELDS) FIELDS.
Proof. refine (bool_decide_eq_true_1 _ _). vm_compute. reflexivity. Qed.

Section Fold.
Context {D : Type} `{!TomlDoc D} `{!TomlLaws D}.
Implicit Types (d : D) (form : Form).
Lemma is_empty_spec s : is_empty s = bool_decide (s = "").
Proof. by destruct s. Qed.
Lemma assign_other section key o d k :
  k <> (if is_empty section then key else section) -> item k (assign section key o d) = item k d.
Proof.
  intros Hk. unfold assign, set_key, remove_key, section_table. destruct (is_empty section).
  - destruct o; [by rewrite item_set, decide_False|by rewrite item_remove, decide_False].
  - destruct o, (item section d) as [[]|]; try done; by rewrite item_set, decide_False.
Qed.
Lemma item_other form spec d k : k <> home spec -> item k (apply_field_to_doc form spec d) = item k d.
Proof. intros Hk. rewrite doc_action_spec. destruct (doc_action form spec); [by apply assign_other|done]. Qed.
Lemma plain_step form spec d : spec ∈ FIELDS -> plain_doc d -> plain_doc (apply_field_to_doc form spec d).
Proof.
  intros Hin Hp spec' Hin' Hs'. destruct (decide (fs_section spec' = home spec)) as [E|E];
    [|rewrite item_other; [by apply Hp|done]].
  unfold home in E. rewrite doc_action_spec. destruct (doc_action form spec) as [o|]; [|by apply Hp].
  destruct (decide (fs_section spec = "")) as [Et|Et].
  - rewrite Et in E. cbn in E. pose proof top_is_no_section as Ht. rewrite Forall_forall in Ht. specialize (Ht spec Hin Et).
    rewrite Forall_forall in Ht. by destruct (Ht spec' Hin').
  - apply assign_plain; [done|by apply Hp..].
Qed.
(** A row leaves the keys of the others. *)
Lemma key_other form spec d section key :
  section <> "" \/ key <> home spec -> section = "" \/ section <> home spec \/ fs_section spec <> "" ->
  (section, key) <> place spec ->
  key_item section key (apply_field_to_doc form spec d) = key_item section key d.
Proof.
  intros H1 H2 Hne. unfold key_item, section_table. destruct section as [|a r] eqn:Es; cbn [is_empty].
  - rewrite item_other; [done|]. naive_solver.
  - rewrite <- Es in *. destruct (decide (section = home spec)) as [E|E]; [|by rewrite item_other].
    assert (fs_section spec <> "") as Ht by naive_solver. unfold home in E. rewrite is_empty_spec, bool_decide_false in E by done.
    rewrite doc_action_spec. destruct (doc_action form spec) as [o|]; [|done]. clear Es. subst section.
    assert (fs_key spec <> key) as Hk by (intros Hk; apply Hne; unfold place; by rewrite Hk).
    unfold assign, set_key, remove_key, section_table. rewrite is_empty_spec, bool_decide_false by done.
    destruct o, (item (fs_section spec) d) as [[]|] eqn:Ei; try (by rewrite Ei); rewrite item_set, decide_True by done;
      cbn; by simplify_map_eq.
Qed.
Lemma agrees_step form spec spec' d :
  spec ∈ FIELDS -> spec' ∈ FIELDS -> place spec <> place spec' -> plain_doc d ->
  agrees form spec d -> agrees form spec (apply_field_to_doc form spec' d).
Proof.
  intros Hin Hin' Hne Hp. unfold agrees.
  assert (key_item (fs_section spec) (fs_key spec) (apply_field_to_doc form spec' d) = key_item (fs_section spec) (fs_key spec) d) as ->;
    [|done].
  pose proof top_is_no_section as Ht. rewrite Forall_forall in Ht.
  assert (Hts : forall s s', s ∈ FIELDS -> s' ∈ FIELDS -> fs_section s = "" -> fs_section s' <> fs_key s).
  { intros s s' Hs Hs' E. specialize (Ht s Hs E). rewrite Forall_forall in Ht. by apply Ht. }
  apply key_other; [| |done]; unfold home; rewrite is_empty_spec.
  - destruct (decide (fs_section spec = "")) as [E|]; [right|by left]. case_bool_decide as E'.
    + intros Ek. apply Hne. unfold place. by rewrite E, E', Ek.
    + intros Ek. by apply (Hts spec spec' Hin Hin' E).
  - destruct (decide (fs_section spec = "")) as [E|E]; [by left|right]. case_bool_decide as E'; [left|by right].
    by apply Hts.
Qed.
Lemma rows_spec form l d c :
  (forall spec, spec ∈ l -> spec ∈ FIELDS /\ agrees form spec d) -> NoDup (map place l) -> plain_doc d ->
  read_items d = Some c ->
  let d' := foldl (fun d spec => apply_field_to_doc form spec d) d l in
  read_items d' = Some (foldl (fun c spec => apply_field_to_config form spec c) c l).
Proof.
  revert d c. induction l as [|spec l IH]; intros d c Hl Hn Hp Hc; [done|]. cbn.
  apply NoDup_cons in Hn as [Hnot Hn]. destruct (Hl spec ltac:(left)) as [Hin Ha].
  apply IH; [|done|by apply plain_step|by apply row_commutes].
  intros spec' Hs'. destruct (Hl spec' ltac:(by right)) as [Hin' Ha']. split; [done|].
  apply agrees_step; [done..| |done|done]. intros E. apply Hnot. rewrite <- E. by apply list_elem_of_fmap_2.
Qed.
Lemma rows_saved form l d c :
  (forall spec, spec ∈ l -> spec ∈ FIELDS) -> plain_doc d -> read_items d = Some c ->
  read_items (foldl (fun d spec => apply_field_to_doc form spec d) d l) = Some (foldl (fun c spec => save_row form spec c) c l).
Proof.
  revert d c. induction l as [|spec l IH]; intros d c Hl Hp Hc; [done|]. cbn.
  assert (Hin : spec ∈ FIELDS) by (apply Hl; by left).
  apply IH; [by intros; apply Hl; right|by apply plain_step|].
  rewrite doc_action_spec, saved_value_doc. unfold save_row. destruct (saved_value form spec) as [v|] eqn:E; [|done].
  pose proof rows_read as Hr. rewrite Forall_forall in Hr. apply (Hr spec Hin); [|done..]. by apply saved_value_admissible in E.
Qed.
Lemma rows_plain form l d :
  (forall spec, spec ∈ l -> spec ∈ FIELDS) -> plain_doc d -> plain_doc (foldl (fun d spec => apply_field_to_doc form spec d) d l).
Proof.
  revert d. induction l as [|spec l IH]; intros d Hl Hp; [done|]. cbn. apply IH; [by intros; apply Hl; right|].
  apply plain_step; [apply Hl; left|done].
Qed.
Lemma rows_frame form l d k : k ∉ map home l -> item k (foldl (fun d spec => apply_field_to_doc form spec d) d l) = item k d.
Proof.
  revert d. induction l as [|spec l IH]; intros d Hk; [done|]. cbn in *. apply not_elem_of_cons in Hk as [Hk Hks].
  rewrite IH by done. by apply item_other.
Qed.
Lemma rows_key_frame form l d section key :
  section <> "" -> (forall spec, spec ∈ l -> fs_section spec = "" -> section <> fs_key spec) -> (section, key) ∉ map place l ->
  key_item section key (foldl (fun d spec => apply_field_to_doc form spec d) d l) = key_item section key d.
Proof.
  intros Hs. revert d. induction l as [|spec l IH]; intros d Ht Hk; [done|]. cbn in *. apply not_elem_of_cons in Hk as [Hk Hks].
  rewrite IH; [|intros; by apply Ht; [right|]|done]. apply key_other; [by left| |done]. right.
  destruct (decide (fs_section spec = "")) as [E|]; [left|by right]. unfold home. rewrite E. apply Ht; [left|done].
Qed.
End Fold.

(** ** The probe section *)
Section Probe.
Context {D : Type} `{!TomlDoc D} `{!TomlLaws D}.
Implicit Types (d : D) (form : Form).
Lemma read_swap d d' k o c :
  (forall k', item k' d' = swap (fun k => item k d) k o k') ->
  config_of_items (swap (fun k => item k d) k o) = Some c -> read_items d' = Some c.
Proof. intros H <-. unfold read_items. by apply config_of_items_ext. Qed.
Lemma probe_key_item form key name d v k :
  form_str form name = Some v -> plain (item "probe" d) ->
  item k (apply_probe_key form key name d)
  = swap (fun k => item k d) "probe" (Some (ITable (upd key (VStr <$> nonblank v) (table_of (item "probe" d))))) k.
Proof.
  intros Hv Hp. unfold apply_probe_key, nonblank. rewrite Hv.
  assert (Hu : forall t : Table, (if blank v then delete key t else <[ key := VStr v ]> t)
                = upd key (VStr <$> (if blank v then None else Some v)) t) by (intros; by destruct (blank v)).
  destruct (item "probe" d) as [[| t| | | |]|] eqn:E; try done; unfold section_table.
  - rewrite E, Hu. apply item_set_swap.
  - rewrite item_set, decide_True by done. rewrite Hu, item_set_swap. unfold swap.
    destruct (seqb "probe" k) eqn:Ek; [done|]. rewrite item_set, decide_False; [done|]. intros <-. by rewrite seqb_refl in Ek.
Qed.
Definition pick form name (cur : option string) : option string :=
  match form_str form name with Some v => nonblank v | None => cur end.
Lemma probe_key_reads form key name d c f :
  plain (item "probe" d) -> read_items d = Some c ->
  (key = "user_principal" /\ f = (fun o => {| pb_user_principal := o; pb_client_host := pb_client_host (probe c) |})
   \/ key = "client_host" /\ f = (fun o => {| pb_user_principal := pb_user_principal (probe c); pb_client_host := o |})) ->
  let cur := if seqb key "user_principal" then pb_user_principal (probe c) else pb_client_host (probe c) in
  let d' := apply_probe_key form key name d in
  read_items d' = Some (set_probe (f (pick form name cur)) c) /\ plain (item "probe" d').
Proof.
  intros Hp Hc Hf. cbn zeta. unfold pick. destruct (form_str form name) as [v|] eqn:Ev.
  - pose proof (read_parts _ _ Hc) as (_ & _ & _ & _ & _ & Hpr & _ & _ & _ & [o Ho] & _).
    destruct (section_plain _ _ _ Hp Ho) as [Ht He]. specialize (Hpr _ Ho). cbn in Hpr. rewrite <- He in Hpr.
    assert (Hn : forall x : TVal, (VStr <$> nonblank v) = Some x -> exists s, x = VStr s).
    { intros x. destruct (nonblank v); [|done]. intros [= <-]. by eexists. }
    split; [|rewrite (probe_key_item _ _ _ _ v), swap_same by done; done].
    eapply read_swap; [intros; by apply probe_key_item|].
    erewrite read_probe; [|exact Hc|apply section_table_typed, typed_upd; [exact Ht|]].
    + destruct Hf as [[-> ->]|[-> ->]]; rewrite Hpr; cbn [default option_map from_option id]; unfold probe_of_table;
        cbn [pb_user_principal pb_client_host]; upd_fields; by destruct (nonblank v).
    + intros x Hx. destruct (Hn _ Hx) as [s ->]. by destruct Hf as [[-> _]|[-> _]].
  - unfold apply_probe_key. rewrite Ev. split; [|done]. rewrite Hc. f_equal.
    destruct Hf as [[-> ->]|[-> ->]]; cbn; destruct c as [? ? ? ? ? ? ? ? [] ? ? ? ?]; done.
Qed.
Lemma probe_removed d c : read_items d = Some c ->
  read_items (remove_item "probe" d) = Some (set_probe {| pb_user_principal := None; pb_client_host := None |} c).
Proof.
  intros Hc. eapply read_swap; [intros k; rewrite item_remove; apply seqb_dec|].
  by erewrite read_probe by done.
Qed.
Lemma probe_form_reads form d c :
  plain (item "probe" d) -> read_items d = Some c ->
  read_items (apply_probe_form_to_doc form d) = Some (apply_probe_form_to_config form c).
Proof.
  intros Hp Hc. unfold apply_probe_form_to_doc, apply_probe_form_to_config.
  destruct (form_flag form "auto_probe_ldap"); [by apply probe_removed|].
  destruct (probe_key_reads form "user_principal" "probe_user_principal" d c _ Hp Hc (or_introl (conj eq_refl eq_refl)))
    as [H1 Hp1].
  destruct (probe_key_reads form "client_host" "probe_client_host" _ _ _ Hp1 H1 (or_intror (conj eq_refl eq_refl)))
    as [H2 Hp2].
  set (d2 := apply_probe_key _ _ _ (apply_probe_key _ _ _ d)) in *. cbn [seqb] in *.
  match type of H2 with _ = Some ?c2 => set (c2' := c2) in H2 end.
  assert (Hgoal : c2' = set_probe {| pb_user_principal := pick form "probe_user_principal" (pb_user_principal (probe c));
                                    pb_client_host := pick form "probe_client_host" (pb_client_host (probe c)) |} c) by done.
  fold (pick form "probe_user_principal" (pb_user_principal (probe c))) (pick form "probe_client_host" (pb_client_host (probe c))).
  rewrite <- Hgoal. unfold section_table. destruct (item "probe" d2) as [[| t| | | |]|] eqn:E; try done.
  case_bool_decide as Et; [|done]. rewrite (probe_removed _ _ H2). f_equal.
  pose proof (read_parts _ _ H2) as (_ & _ & _ & _ & _ & Hpr & _ & _ & _ & [o Ho] & _). specialize (Hpr _ Ho). cbn in Ho.
  rewrite E in Ho. subst t. cbn in Ho. injection Ho as <-. pose proof (set_form_same c2') as (_ & _ & _ & _ & _ & Hs & _).
  rewrite Hpr in Hs. exact Hs.
Qed.
Lemma probe_frame form d k : k <> "probe" -> item k (apply_probe_form_to_doc form d) = item k d.
Proof.
  intros Hk. unfold apply_probe_form_to_doc.
  assert (Hrem : forall d, item k (remove_item "probe" d) = item k d) by (intros; by rewrite item_remove, decide_False).
  assert (Hkey : forall key name d, item k (apply_probe_key form key name d) = item k d).
  { intros key name d0. unfold apply_probe_key. destruct (form_str form name); [|done].
    destruct (item "probe" d0) as [i|] eqn:E; unfold section_table.
    - rewrite E. destruct i; try done. by rewrite item_set, decide_False.
    - rewrite item_set, decide_True by done. by rewrite !item_set, !decide_False. }
  destruct (form_flag form "auto_probe_ldap"); [apply Hrem|].
  destruct (section_table "probe" _); [case_bool_decide|]; by rewrite ?Hrem, !Hkey.
Qed.
End Probe.
Ltac by_not_elem := let H := fresh in intros H; apply list_elem_of_In in H; vm_compute in H; intuition discriminate.

(** ** Saving the form *)
Lemma sets_warnings spec v c w :
  spec ∈ FIELDS -> admissible (fs_kind spec) v -> fs_set spec v (with_warnings c w) = with_warnings (fs_set spec v c) w.
Proof.
  intros Hin. apply list_elem_of_In in Hin. cbn in Hin.
  repeat (destruct Hin as [<-|Hin]; [destruct v as [[]|[]|[]]; cbn; intros; first [contradiction | reflexivity]|]). done.
Qed.
Lemma form_warnings form c w :
  apply_structured_form_to_config form (with_warnings c w) = with_warnings (apply_structured_form_to_config form c) w.
Proof.
  unfold apply_structured_form_to_config.
  assert (Hrows : forall l c, (forall spec, spec ∈ l -> spec ∈ FIELDS) ->
    foldl (fun c spec => apply_field_to_config form spec c) (with_warnings c w) l
    = with_warnings (foldl (fun c spec => apply_field_to_config form spec c) c l) w).
  { induction l as [|spec l IH]; intros c0 Hl; [done|]. cbn. rewrite <- IH by (intros; apply Hl; by right). f_equal.
    rewrite !config_action_spec. destruct (config_action form spec) as [v|] eqn:E; [|done].
    apply sets_warnings; [apply Hl; left|by apply config_action_admissible in E]. }
  rewrite Hrows by done. unfold apply_probe_form_to_config. by destruct (form_flag form "auto_probe_ldap").
Qed.
(** The same for the values that a save leaves in the document. *)
Lemma saved_warnings form c w :
  apply_probe_form_to_config form (foldl (fun c spec => save_row form spec c) (with_warnings c w) FIELDS)
  = with_warnings (apply_probe_form_to_config form (foldl (fun c spec => save_row form spec c) c FIELDS)) w.
Proof.
  assert (Hrows : forall l c, (forall spec, spec ∈ l -> spec ∈ FIELDS) ->
    foldl (fun c spec => save_row form spec c) (with_warnings c w) l = with_warnings (foldl (fun c spec => save_row form spec c) c l) w).
  { induction l as [|spec l IH]; intros c0 Hl; [done|]. cbn. rewrite <- IH by (intros; apply Hl; by right). f_equal.
    unfold save_row. destruct (saved_value form spec) as [v|] eqn:E; [|done].
    apply sets_warnings; [apply Hl; left|by apply saved_value_admissible in E]. }
  rewrite Hrows by done. unfold apply_probe_form_to_config. by destruct (form_flag form "auto_probe_ldap").
Qed.
Section Save.
Context {D : Type} `{!TomlDoc D} `{!TomlLaws D}.
Implicit Types (d : D) (form : Form).
(** C12: a save of the settings touches the keys of its rows and the probe section
    and nothing else: other top-level items, the shares among them, and the
    other keys of its sections stay as they are. *)
Theorem settings_save_frame form d :
  let d' := apply_structured_form_to_doc form d in
  (forall k, k ∉ "probe" :: homes -> item k d' = item k d)
  /\ item "shares" d' = item "shares" d
  /\ (forall section key, section <> "" -> section <> "probe" -> (section, key) ∉ map place FIELDS ->
        section ∉ ["ldap_uri"; "navahi_discovery"] -> key_item section key d' = key_item section key d).
Proof.
  cbn zeta. assert (H : forall k, k ∉ "probe" :: homes -> item k (apply_structured_form_to_doc form d) = item k d).
  { intros k [Hk Hh]%not_elem_of_cons. unfold apply_structured_form_to_doc. rewrite probe_frame by done. by apply rows_frame. }
  split; [done|]. split; [apply H; by_not_elem|]. intros section key Hs Hpr Hk Htop.
  unfold apply_structured_form_to_doc. rewrite <- (rows_key_frame form FIELDS d section key Hs); [|..|done].
  - unfold key_item, section_table. destruct section as [|a r]; [done|]. cbn [is_empty]. by rewrite probe_frame.
  - intros spec Hin E Ek. apply Htop. rewrite Ek. revert E. apply list_elem_of_In in Hin. cbn in Hin.
    repeat (destruct Hin as [<-|Hin]; [try discriminate; intros _; by_elem|]). done.
Qed.
End Save.

(** ** A form and a document *)
Definition form_of (l : list (string * string)) : Form := list_to_map l.
Definition demo_doc : ModelDoc := {|
  md_items := list_to_map [
    ("ldap_uri", IValue (VStr "ldaps://klldap.example.org:6360"));
    ("sssd", ITable (list_to_map [("ldap_default_bind_dn", VStr "uid=admin,dc=x"); ("ldap_default_authtok", VStr "secret");
                                  ("domain", VStr "corp")]));
    ("shares", ITables [{| st_prefix := None; st_keys := list_to_map [
       ("name", VStr "movies"); ("host_path", VStr "/media/movies"); ("container_path", VStr "/export/movies")] |}])];
  md_trailing := "" |}.
Definition demo_form : Form := form_of [
  ("ldap_uri", "ldaps://new.example.org"); ("sssd_port", " 6360 "); ("sssd_bind_pw", ""); ("override_kerberos_realm", "on");
  ("kerberos_realm", "EXAMPLE.ORG"); ("override_sssd_search_base", "true"); ("sssd_search_base", " ");
  ("navahi_discovery", "on"); ("webui_session_timeout_minutes", "90"); ("probe_client_host", "lt-a")].
Lemma demo_agrees spec : spec ∈ FIELDS -> agrees demo_form spec demo_doc.
Proof.
  intros Hin. apply list_elem_of_In in Hin. cbn in Hin.
  repeat (destruct Hin as [<-|Hin]; [first [exact I | by (vm_compute; discriminate) | vm_compute; reflexivity
    | vm_compute; intros v [= <-]; discriminate | vm_compute; intros v [= <-]; reflexivity]|]). done.
Qed.
Lemma demo_plain : plain_doc demo_doc.
Proof.
  intros spec Hin _. apply list_elem_of_In in Hin. cbn in Hin. repeat (destruct Hin as [<-|Hin]; [vm_compute; exact I|]). done.
Qed.
(** ** Where the two sides part *)
(** A blank custom host name is none for the validation and an empty text in
    the file. *)
Theorem blank_override_differs :
  let form := form_of [("override_server_hostname", "on"); ("server_hostname", "")] in
  server_hostname (apply_structured_form_to_config form default_config) = None
  /\ server_hostname <$> config_of_doc (apply_structured_form_to_doc form demo_doc) = Some (Some "").
Proof. split; vm_compute; reflexivity. Qed.
(** An override set back to Auto is dropped from the file, but the configuration
    that is validated still has it. *)
Theorem auto_override_differs :
  let form := form_of [("override_server_hostname", "off")] in
  let d : ModelDoc := set_key "server" "hostname" (VStr "nas") demo_doc in
  option_map (fun c => server_hostname (apply_structured_form_to_config form c)) (config_of_doc d) = Some (Some "nas")
  /\ server_hostname <$> config_of_doc (apply_structured_form_to_doc form d) = Some None.
Proof. split; vm_compute; reflexivity. Qed.
(** A section written as an inline table keeps its old values, whatever the
    form says. *)
Theorem inline_section_ignored `{!TomlDoc D} `{!TomlLaws D} form section t (d : D) :
  section <> "" -> section <> "probe" -> section ∉ ["ldap_uri"; "navahi_discovery"] -> item section d = Some (IInline t) ->
  item section (apply_structured_form_to_doc form d) = Some (IInline t).
Proof.
  intros Hs Hpr Htop Hi. unfold apply_structured_form_to_doc. rewrite probe_frame by done.
  assert (Hl : forall spec, spec ∈ FIELDS -> fs_section spec = "" -> section <> fs_key spec).
  { intros spec Hin E ->. apply Htop. revert E. apply list_elem_of_In in Hin. cbn in Hin.
    repeat (destruct Hin as [<-|Hin]; [try discriminate; intros _; by_elem|]). done. }
  revert d Hi Hl. generalize FIELDS. induction l as [|spec l IH]; intros d Hi Hl; [done|]. cbn. apply IH.
  - destruct (decide (section = home spec)) as [E|E]; [|by rewrite item_other].
    destruct (decide (fs_section spec = "")) as [Et|Et].
    + exfalso. apply (Hl spec); [left|done|]. unfold home in E. by rewrite Et in E.
    + unfold home in E. rewrite is_empty_spec, bool_decide_false in E by done. subst section. rewrite doc_action_spec.
      destruct (doc_action form spec) as [o|]; [|done].
      unfold assign, set_key, remove_key, section_table. rewrite is_empty_spec, bool_decide_false, Hi by done. by destruct o.
  - intros spec' Hin. apply Hl. by right.
Qed.
Lemma settings_save_frame_witness :
  item "shares" (apply_structured_form_to_doc demo_form demo_doc) = item "shares" demo_doc
  /\ key_item "sssd" "domain" (apply_structured_form_to_doc demo_form demo_doc) = Some (VStr "corp").
Proof.
  destruct (settings_save_frame demo_form demo_doc) as (_ & Hs & Hk). split; [exact Hs|].
  rewrite (Hk "sssd" "domain"); [vm_compute; reflexivity|discriminate|discriminate|..]; by_not_elem.
Defined.
