(* ===== verification/ShareForm.v ===== *)
(** * The shares editor

    Models the share rows of [web/settings_form.rs] and the rewriting of
    [[[shares]]] of [web/settings/apply.rs]: the rows of a submitted form become
    shares, the shares become tables, and only the shares of the document
    change. *)

From S2P Require Import Prelude RustStr Identity Config ConfigLoad SettingsForm.
Local Open Scope Z_scope.

(** ** The rows of the form *)
Record ShareFormRow := {
  fr_idx : Z;
  fr_name : string;
  fr_host : string;
  fr_pseudo_path : option string;
  fr_security : option string;
  fr_rw : bool;
  fr_root_squash : bool;
  fr_cache_profile : option string;
  fr_pref_read : option string;
  fr_pref_write : option string;
  fr_enable_acl : option bool;
  fr_manage_gids : option bool;
  fr_read_access_policy : option string;
  fr_manage_gids_expiration : option Z;
  fr_container_path : string;
  fr_source_path : option string;
  fr_navahi_insecure : option bool;
}.
Definition infer_profile_from_prefs (pr pw : option Z) : string :=
  match pr, pw with
  | Some r, Some w =>
      if (r =? 1048576) && (w =? 1048576) then "Default"
      else if (r =? 4194304) && (w =? 4194304) then "Read - Basic"
      else if (r =? 16777216) && (w =? 8388608) then "Read - Heavy"
      else if (r =? 2097152) && (w =? 16777216) then "Write - Heavy"
      else "Default"
  | _, _ => "Default"
  end.
Definition parse_tri_bool (v : string) : option bool :=
  if seqb (trim v) "true" then Some true else if seqb (trim v) "false" then Some false else None.
Definition share_field (extra : Form) (name : string) (idx : Z) : option string :=
  extra !! ("share_" +:+ name +:+ "_" +:+ dec idx).
Definition share_field_nonblank (extra : Form) (name : string) (idx : Z) : option string :=
  share_field extra name idx ≫= nonblank.
Definition parse_u64 (s : string) : option Z := parse_uint u64_max s.
Definition trimmed_field (extra : Form) (name : string) (idx : Z) : string :=
  trim (default "" (share_field extra name idx)).
(** The row of an input [share_name_<idx>]; none when a required input is
    blank. *)
Definition share_row (extra : Form) (k v : string) : option ShareFormRow :=
  suf ← strip_prefix "share_name_" k;
  idx ← parse_u64 suf;
  let nm := trim v in
  let ht := trimmed_field extra "host" idx in
  let cp := trimmed_field extra "container_path" idx in
  if is_empty nm || is_empty ht || is_empty cp then None
  else Some {|
    fr_idx := idx; fr_name := nm; fr_host := ht;
    fr_pseudo_path := share_field_nonblank extra "pseudo" idx;
    fr_security := share_field_nonblank extra "security" idx;
    fr_rw := match share_field extra "rw" idx with Some w => seqb (trim w) "true" | None => true end;
    fr_root_squash := is_some (share_field extra "root_squash" idx);
    fr_cache_profile := share_field_nonblank extra "cache_profile" idx;
    fr_pref_read := share_field_nonblank extra "pref_read" idx;
    fr_pref_write := share_field_nonblank extra "pref_write" idx;
    fr_enable_acl := share_field extra "enable_acl" idx ≫= parse_tri_bool;
    fr_manage_gids := share_field extra "manage_gids" idx ≫= parse_tri_bool;
    fr_read_access_policy :=
      p ← share_field extra "read_access_policy" idx;
      if seqb (trim p) "pre" then Some "pre" else if seqb (trim p) "post" then Some "post" else None;
    fr_manage_gids_expiration := share_field extra "manage_gids_expiration" idx ≫= (fun s => parse_u64 (trim s));
    fr_container_path := cp;
    fr_source_path := share_field_nonblank extra "source_path" idx;
    fr_navahi_insecure := if is_some (share_field extra "navahi_insecure" idx) then Some true else None |}.
Definition row_share (r : ShareFormRow) : Share := {|
  sh_name := fr_name r; sh_host_path := fr_host r; sh_pseudo_path := fr_pseudo_path r; sh_security := fr_security r;
  sh_rw := Some (fr_rw r); sh_cache_profile := Some (default "Default" (fr_cache_profile r));
  sh_pref_read := fr_pref_read r ≫= parse_u64; sh_pref_write := fr_pref_write r ≫= parse_u64;
  sh_enable_acl := fr_enable_acl r; sh_manage_gids := fr_manage_gids r;
  sh_read_access_policy := fr_read_access_policy r; sh_manage_gids_expiration := fr_manage_gids_expiration r;
  sh_container_path := fr_container_path r; sh_source_path := fr_source_path r; sh_umask := None;
  sh_attr_expiration_secs := None; sh_navahi_insecure := fr_navahi_insecure r;
  sh_squash := Some (if fr_root_squash r then "root_squash" else "no_root_squash") |}.
Section Collect.
Context {h : HashIter string}.
Definition form_rows (extra : Form) : list ShareFormRow :=
  sort_key fr_idx Z.leb (omap (fun kv => share_row extra kv.1 kv.2) (hiter extra)).
Definition collect_shares_from_structured_form (extra : Form) : list Share := map row_share (form_rows extra).
End Collect.

(** ** The tables of the document *)
(** [v as i64] of a [u64]. *)
Definition as_i64 (v : Z) : Z := if v <=? i64_max then v else v - 2 ^ 64.
Definition put (k : string) (o : option TVal) (t : Table) : Table :=
  match o with Some v => <[ k := v ]> t | None => t end.
Definition share_table (s : Share) : Table :=
  let t := put "container_path" (Some (VStr (sh_container_path s))) (put "host_path" (Some (VStr (sh_host_path s)))
             (put "name" (Some (VStr (sh_name s))) ∅)) in
  let t := put "pseudo_path" (VStr <$> sh_pseudo_path s) t in
  let t := put "security" (VStr <$> sh_security s) t in
  let t := put "rw" (if default true (sh_rw s) then None else Some (VBool false)) t in
  let t := put "squash" (VStr <$> sh_squash s) t in
  let t := match sh_cache_profile s with
           | Some cp => put "cache_profile" (VStr <$> nonblank cp) t
           | None => put "pref_write" (VInt <$> (as_i64 <$> sh_pref_write s))
                       (put "pref_read" (VInt <$> (as_i64 <$> sh_pref_read s)) t)
           end in
  let t := put "enable_acl" (VBool <$> sh_enable_acl s) t in
  let t := put "manage_gids" (VBool <$> sh_manage_gids s) t in
  let t := put "read_access_policy" (VStr <$> (sh_read_access_policy s ≫= nonblank)) t in
  let t := put "manage_gids_expiration" (VInt <$> (as_i64 <$> sh_manage_gids_expiration s)) t in
  let t := put "attr_expiration_secs" (VInt <$> sh_attr_expiration_secs s) t in
  let t := put "navahi_insecure" (if bool_decide (sh_navahi_insecure s = Some true) then Some (VBool true) else None) t in
  put "source_path" (VStr <$> (sh_source_path s ≫= nonblank)) t.
Section ApplyShares.
Context {D : Type} `{!TomlDoc D}.
(** The comments above the shares, and the document without them. *)
Definition take_banner (d : D) : option string * D :=
  let above := match item "shares" d with
               | Some (ITables (t :: _)) => st_prefix t ≫= nonblank
               | _ => None
               end in
  match above with
  | Some b => (Some b, d)
  | None => if blank (trailing d) then (None, d) else (Some (trailing d), set_trailing "" d)
  end.
Definition put_banner (banner : option string) (tables : list ShareTable) : list ShareTable :=
  match banner, tables with
  | Some b, t :: r =>
      let prefix := if ends_with (String nl "") b then b else b +:+ String nl "" in
      {| st_prefix := Some prefix; st_keys := st_keys t |} :: r
  | _, _ => tables
  end.
Definition apply_shares_to_doc (new_shares : list Share) (d : D) : D :=
  let '(banner, d) := take_banner d in
  let d := remove_item "shares" d in
  match map (fun s => {| st_prefix := None; st_keys := share_table s |}) new_shares with
  | [] => match banner with Some b => set_trailing (b +:+ trailing d) d | None => d end
  | tables => set_item "shares" (ITables (put_banner banner tables)) d
  end.
End ApplyShares.

(** ** What a written share reads as *)
(** The share without what a save drops: a false or true that is the default,
    blank texts, preferred sizes beside a profile, the retired mask. *)
Definition persisted (s : Share) : Share := {|
  sh_name := sh_name s; sh_host_path := sh_host_path s; sh_pseudo_path := sh_pseudo_path s;
  sh_security := sh_security s; sh_rw := if default true (sh_rw s) then None else Some false; sh_squash := sh_squash s;
  sh_cache_profile := sh_cache_profile s ≫= nonblank;
  sh_pref_read := if is_some (sh_cache_profile s) then None else sh_pref_read s;
  sh_pref_write := if is_some (sh_cache_profile s) then None else sh_pref_write s;
  sh_enable_acl := sh_enable_acl s; sh_manage_gids := sh_manage_gids s;
  sh_read_access_policy := sh_read_access_policy s ≫= nonblank;
  sh_manage_gids_expiration := sh_manage_gids_expiration s; sh_container_path := sh_container_path s;
  sh_source_path := sh_source_path s ≫= nonblank; sh_attr_expiration_secs := sh_attr_expiration_secs s;
  sh_navahi_insecure := if bool_decide (sh_navahi_insecure s = Some true) then Some true else None; sh_umask := None |}.
(** The numbers fit a TOML integer and an [i32]. *)
Definition numbers_fit (s : Share) : Prop :=
  let fits o := match o with Some v => 0 <= v <= i64_max | None => True end in
  fits (sh_pref_read s) /\ fits (sh_pref_write s) /\ fits (sh_manage_gids_expiration s)
  /\ match sh_attr_expiration_secs s with Some v => -2147483648 <= v <= 2147483647 | None => True end.
Lemma lookup_put k o t k' : put k o t !! k' = if seqb k k' then (match o with Some v => Some v | None => t !! k' end) else t !! k'.
Proof.
  unfold put. destruct (seqb k k') eqn:E.
  - apply seqb_eq in E as ->. destruct o; by simplify_map_eq.
  - apply seqb_neq in E. destruct o; by simplify_map_eq.
Qed.
Lemma as_i64_fits v : 0 <= v <= i64_max -> as_i64 v = v.
Proof. intros [_ H%Z.leb_le]. unfold as_i64. by rewrite H. Qed.
Definition share_get (s : Share) (k : string) : option TVal :=
  if seqb k "name" then Some (VStr (sh_name s))
  else if seqb k "host_path" then Some (VStr (sh_host_path s))
  else if seqb k "container_path" then Some (VStr (sh_container_path s))
  else if seqb k "pseudo_path" then VStr <$> sh_pseudo_path s
  else if seqb k "security" then VStr <$> sh_security s
  else if seqb k "rw" then (if default true (sh_rw s) then None else Some (VBool false))
  else if seqb k "squash" then VStr <$> sh_squash s
  else if seqb k "cache_profile" then VStr <$> (sh_cache_profile s ≫= nonblank)
  else if seqb k "pref_read" then (if is_some (sh_cache_profile s) then None else VInt <$> (as_i64 <$> sh_pref_read s))
  else if seqb k "pref_write" then (if is_some (sh_cache_profile s) then None else VInt <$> (as_i64 <$> sh_pref_write s))
  else if seqb k "enable_acl" then VBool <$> sh_enable_acl s
  else if seqb k "manage_gids" then VBool <$> sh_manage_gids s
  else if seqb k "read_access_policy" then VStr <$> (sh_read_access_policy s ≫= nonblank)
  else if seqb k "manage_gids_expiration" then VInt <$> (as_i64 <$> sh_manage_gids_expiration s)
  else if seqb k "attr_expiration_secs" then VInt <$> sh_attr_expiration_secs s
  else if seqb k "navahi_insecure" then (if bool_decide (sh_navahi_insecure s = Some true) then Some (VBool true) else None)
  else if seqb k "source_path" then VStr <$> (sh_source_path s ≫= nonblank)
  else None.
Lemma lookup_put_ne k o t k' : seqb k k' = false -> put k o t !! k' = t !! k'.
Proof. rewrite lookup_put. by intros ->. Qed.
Lemma lookup_put_eq k o t : put k o t !! k = match o with Some v => Some v | None => t !! k end.
Proof. by rewrite lookup_put, seqb_refl. Qed.
Lemma share_table_get s : Forall (fun f => share_table s !! f.1 = share_get s f.1) SHARE_FIELDS.
Proof.
  unfold share_table, share_get. destruct (sh_cache_profile s) as [cp|];
    repeat (apply Forall_cons_2; [|]); try apply Forall_nil_2; cbn [fst].
  all: rewrite ?lookup_put_ne by reflexivity; rewrite ?lookup_put_eq; rewrite ?lookup_put_ne by reflexivity; rewrite ?lookup_empty.
  all: repeat match goal with |- context [seqb ?a ?b] => let r := eval vm_compute in (seqb a b) in change (seqb a b) with r end.
  all: cbv iota; cbn [is_some mbind option_bind].
  all: try reflexivity.
  all: match goal with |- match ?o with _ => _ end = _ => by destruct o end.
Qed.
Definition well_typed (ty : FieldType) (o : option TVal) : bool := match o with Some v => has_type ty v | None => true end.
Lemma well_typed_u64 o : match o with Some v => 0 <= v <= i64_max | None => True end -> well_typed U64 (VInt <$> (as_i64 <$> o)) = true.
Proof.
  destruct o as [v|]; [|done]. intros Hv. cbn [fmap option_fmap option_map well_typed]. rewrite as_i64_fits by done.
  cbn. apply andb_true_iff. rewrite !Z.leb_le. exact Hv.
Qed.
Lemma share_typed s : numbers_fit s -> typed SHARE_FIELDS (share_table s) = true.
Proof.
  intros (H1%well_typed_u64 & H2%well_typed_u64 & H3%well_typed_u64 & H4). unfold typed. apply forallb_forall. intros [k ty] Hin.
  pose proof (share_table_get s) as Hg. rewrite Forall_forall in Hg. apply list_elem_of_In in Hin as Hin'.
  specialize (Hg _ Hin'). cbn [fst] in Hg. rewrite Hg. fold (well_typed ty (share_get s k)). clear Hg Hin'.
  assert (Hs : forall o, well_typed TStr (VStr <$> o) = true) by (by intros []).
  assert (Hb : forall o, well_typed TBool (VBool <$> o) = true) by (by intros []).
  assert (H4' : well_typed I32 (VInt <$> sh_attr_expiration_secs s) = true).
  { destruct (sh_attr_expiration_secs s); [|done]. cbn. apply andb_true_iff. by rewrite !Z.leb_le. }
  cbn in Hin.
  repeat (destruct Hin as [[= <- <-]|Hin];
    [unfold share_get; repeat match goal with |- context [seqb ?a ?b] => let r := eval vm_compute in (seqb a b) in change (seqb a b) with r end;
     cbv iota; first [reflexivity | apply Hs | apply Hb | assumption | by destruct (is_some (sh_cache_profile s))
       | by destruct (default true (sh_rw s)) | by case_bool_decide]|]). done.
Qed.
(** A share written by the editor reads back as the share without what a save
    drops, as long as its numbers fit the types of the file. *)
Theorem share_table_roundtrip s : numbers_fit s -> share_of_table (share_table s) = Some (persisted s).
Proof.
  intros Hn. unfold share_of_table. rewrite share_typed by done. pose proof (share_table_get s) as Hg.
  cbn in Hg. rewrite !Forall_cons in Hg.
  destruct Hg as (E1 & E2 & E3 & E4 & E5 & E6 & E7 & E8 & E9 & E10 & E11 & E12 & E13 & E14 & E15 & E16 & E17 & E18 & E19 & _).
  cbn [fst share_get] in *. unfold get_str, get_bool, get_int.
  rewrite E1, E2, E3, E4, E5, E6, E7, E8, E9, E10, E11, E12, E13, E14, E15, E16, E17, E18, E19.
  unfold share_get. repeat match goal with |- context [seqb ?a ?b] => let r := eval vm_compute in (seqb a b) in change (seqb a b) with r end.
  cbv iota. cbn [is_some negb andb mbind option_bind]. rewrite andb_false_r. cbn [negb andb].
  assert (Hi : forall o, match o with Some v => 0 <= v <= i64_max | None => True end ->
    match VInt <$> (as_i64 <$> o) with Some (VInt z) => Some z | _ => None end = o).
  { intros [v|] Hv; [|done]. cbn. by rewrite as_i64_fits. }
  assert (Hs : forall o, match VStr <$> o with Some (VStr x) => Some x | _ => None end = o) by (by intros []).
  assert (Hb : forall o, match VBool <$> o with Some (VBool x) => Some x | _ => None end = o) by (by intros []).
  destruct Hn as (H1%Hi & H2%Hi & H3%Hi & H4). unfold persisted. rewrite !Hs, !Hb, H3.
  f_equal. f_equal.
  all: first [by destruct (is_some (sh_cache_profile s)) | by destruct (default true (sh_rw s)) | by case_bool_decide
    | by destruct (sh_pseudo_path s) | by destruct (sh_attr_expiration_secs s)].
Qed.
Lemma typed_at fields t k ty : typed fields t = true -> (k, ty) ∈ fields -> well_typed ty (t !! k) = true.
Proof. unfold typed. rewrite forallb_forall. intros H Hin%list_elem_of_In. apply (H (k, ty) Hin). Qed.
Lemma share_get_expiration s : share_get s "manage_gids_expiration" = VInt <$> (as_i64 <$> sh_manage_gids_expiration s).
Proof. reflexivity. Qed.
(** A number above [i64::MAX] is written negative, and then no share can be
    read. *)
Theorem huge_expiration_unreadable s v :
  sh_manage_gids_expiration s = Some v -> i64_max < v <= u64_max -> share_of_table (share_table s) = None.
Proof.
  intros Hv Hr. unfold share_of_table. destruct (typed SHARE_FIELDS (share_table s)) eqn:Ht; [|done]. exfalso.
  assert (Hin : ("manage_gids_expiration", U64) ∈ SHARE_FIELDS) by (do 17 right; left).
  apply (typed_at _ _ _ _ Ht) in Hin as Hw. pose proof (share_table_get s) as Hg. rewrite Forall_forall in Hg.
  specialize (Hg _ Hin). cbn [fst] in Hg. rewrite Hg in Hw. rewrite share_get_expiration, Hv in Hw.
  assert (Hneg : as_i64 v < 0).
  { unfold as_i64. destruct (Z.leb_spec v i64_max) as [|_]; [lia|]. unfold u64_max in Hr. lia. }
  revert Hneg Hw. cbn [fmap option_fmap option_map]. generalize (as_i64 v). intros z Hz Hw. cbn in Hw.
  apply andb_true_iff in Hw as [Hw%Z.leb_le _]. lia.
Qed.

(** ** Rows in the order of their numbers *)
Lemma StronglySorted_weaken {A} (R R' : A -> A -> Prop) l :
  (forall x y, R x y -> R' x y) -> StronglySorted R l -> StronglySorted R' l.
Proof. intros H. induction 1 as [|x l Hl IH Hx]; constructor; [done|]. eapply Forall_impl; [exact Hx|]. apply H. Qed.
#[global] Instance zleb_total : TotalLeb Z.leb.
Proof. split; intros; rewrite ?Z.leb_le in *; lia. Qed.
Lemma hiter_unique {K} `{Countable K} (h : HashIter K) {A} (m : gmap K A) : NoDup (hiter m).
Proof. rewrite hiter_perm. apply NoDup_map_to_list. Qed.
Section Rows.
Context (extra : Form).
Definition row_indices (h : HashIter string) : list Z :=
  map fr_idx (omap (fun kv => share_row extra kv.1 kv.2) (hiter extra)).
Lemma form_rows_elem (h : HashIter string) r :
  r ∈ form_rows (h := h) extra <-> exists k v, extra !! k = Some v /\ share_row extra k v = Some r.
Proof.
  unfold form_rows. rewrite elem_of_sort_key, list_elem_of_omap. split.
  - intros ([k v] & Hin%elem_of_hiter & Hr). by exists k, v.
  - intros (k & v & Hk & Hr). exists (k, v). split; [by apply elem_of_hiter|done].
Qed.
Lemma share_row_fields k v r :
  share_row extra k v = Some r ->
  is_empty (fr_name r) = false /\ is_empty (fr_host r) = false /\ is_empty (fr_container_path r) = false
  /\ fr_name r = trim v /\ exists suf, k = "share_name_" +:+ suf /\ parse_u64 suf = Some (fr_idx r).
Proof.
  unfold share_row. intros (suf & Hs & (idx & Hi & H)%bind_Some)%bind_Some. cbn zeta in H.
  destruct (is_empty (trim v)) eqn:E1; [done|]. destruct (is_empty (trimmed_field extra "host" idx)) eqn:E2; [done|].
  destruct (is_empty (trimmed_field extra "container_path" idx)) eqn:E3; [done|]. injection H as <-. cbn.
  split_and!; try done. exists suf. by apply strip_prefix_spec in Hs.
Qed.
(** The shares of a form are its complete rows, in the order of their
    numbers; when no number comes twice, the result does not depend on the
    order in which the hash map yields the inputs. *)
Theorem collected_in_order (h h' : HashIter string) :
  NoDup (row_indices h) ->
  StronglySorted (fun a b => fr_idx a <= fr_idx b) (form_rows (h := h) extra)
  /\ (forall r, r ∈ form_rows (h := h) extra <-> exists k v, extra !! k = Some v /\ share_row extra k v = Some r)
  /\ Forall (fun s => is_empty (sh_name s) = false /\ is_empty (sh_host_path s) = false
       /\ is_empty (sh_container_path s) = false) (collect_shares_from_structured_form (h := h) extra)
  /\ collect_shares_from_structured_form (h := h') extra = collect_shares_from_structured_form (h := h) extra.
Proof.
  intros Hn. split; [|split; [apply form_rows_elem|split]].
  - apply StronglySorted_weaken with (2 := sort_key_sorted fr_idx Z.leb _). intros x y. apply Z.leb_le.
  - apply Forall_forall. unfold collect_shares_from_structured_form. intros s (r & -> & Hr)%list_elem_of_fmap.
    apply form_rows_elem in Hr as (k & v & _ & Hr). by apply share_row_fields in Hr as (? & ? & ? & _).
  - unfold collect_shares_from_structured_form, form_rows. f_equal. symmetry.
    apply sort_key_canonical; first [exact Hn | by rewrite !hiter_perm | exact zleb_total].
Qed.
End Rows.

(** ** The document after a save of the shares *)
Section ApplySpec.
Context {D : Type} `{!TomlDoc D} `{!TomlLaws D}.
Implicit Types (d : D).
Lemma take_banner_items d k : item k (snd (take_banner d)) = item k d.
Proof.
  unfold take_banner. destruct (match item "shares" d with Some (ITables (t :: _)) => _ | _ => _ end); [done|].
  destruct (blank (trailing d)); [done|]. apply item_trailing.
Qed.
Lemma take_banner_ok d : doc_ok d ->
  comments (trailing (snd (take_banner d))) = true
  /\ match fst (take_banner d) with Some b => comments b = true | None => True end.
Proof.
  intros [Ht Hp]. unfold take_banner. destruct (match item "shares" d with Some (ITables (t :: _)) => _ | _ => _ end) as [b|] eqn:E.
  - split; [done|]. cbn. destruct (item "shares" d) as [[| | |[|t l]| |]|] eqn:Es; try done. specialize (Hp _ _ Es).
    destruct Hp as [_ [Hp _]%Forall_cons]. unfold prefix_ok in Hp. destruct (st_prefix t) as [p|]; [|done]. cbn in E.
    unfold nonblank in E. destruct (blank p); [done|]. by injection E as <-.
  - destruct (blank (trailing d)); cbn; [done|]. rewrite trailing_trailing. split; [apply comments_empty|done].
Qed.
Lemma put_banner_keys b l : map st_keys (put_banner b l) = map st_keys l.
Proof. by destruct b, l. Qed.
Lemma meaning_tables i l : meaning i = meaning (Some (ITables l)) -> share_tables i = Some (map st_keys l).
Proof. destruct l; cbn; destruct i as [[| | |[]| |]|]; cbn; intros H; try discriminate; congruence. Qed.
(** A save of the shares changes only the shares: every other top-level item
    is as before, and the shares read as those that were saved; the comments
    around the items stay comments. *)
Theorem shares_save_frame new_shares d :
  doc_ok d -> Forall numbers_fit new_shares ->
  let d' := apply_shares_to_doc new_shares d in
  (forall k, k <> "shares" -> item k d' = item k d)
  /\ (share_tables (item "shares" d') ≫= all_some share_of_table) = Some (map persisted new_shares)
  /\ doc_ok d'.
Proof.
  intros Hok Hn. cbn zeta. unfold apply_shares_to_doc.
  pose proof (take_banner_items d) as Hi. pose proof (take_banner_ok d Hok) as [Htr Hb].
  destruct (take_banner d) as [banner d1]. cbn [fst snd] in *.
  assert (Hall : all_some share_of_table (map share_table new_shares) = Some (map persisted new_shares)).
  { clear -Hn. induction Hn as [|s l Hs Hl IH]; [done|]. cbn. by rewrite share_table_roundtrip, IH by done. }
  assert (Hrem : forall k, k <> "shares" -> item k (remove_item "shares" d1) = item k d) by
    (intros; rewrite item_remove, decide_False by done; apply Hi).
  assert (Hnone : item "shares" (remove_item "shares" d1) = None) by by rewrite item_remove, decide_True.
  assert (Hprefix : forall d2 l, (forall k, k <> "shares" -> item k d2 = item k d) ->
    Forall prefix_ok l -> item "shares" d2 = None \/ item "shares" d2 = Some (ITables l) /\ l <> [] ->
    forall k l', item k d2 = Some (ITables l') -> l' <> [] /\ Forall prefix_ok l').
  { intros d2 l Hk Hl Hs k l' E. destruct (decide (k = "shares")) as [->|Hne].
    - destruct Hs as [Hs|[Hs Hne]]; rewrite Hs in E; [done|]. by injection E as <-.
    - rewrite Hk in E by done. by apply (proj2 Hok k). }
  destruct new_shares as [|s l]; cbn [map].
  - set (d2 := match banner with Some b => _ | None => _ end).
    assert (Hd2 : forall k, item k d2 = item k (remove_item "shares" d1)) by (intros; subst d2; destruct banner; [apply item_trailing|done]).
    assert (Htr2 : comments (trailing d2) = true).
    { subst d2. destruct banner; [rewrite trailing_trailing; apply comments_app; [done|]|]; by rewrite trailing_remove. }
    split; [intros; by rewrite Hd2, Hrem|]. rewrite Hd2, Hnone. split; [done|]. split; [done|].
    apply (Hprefix d2 []); [intros; by rewrite Hd2, Hrem|done|left; by rewrite Hd2].
  - set (tables := {| st_prefix := None; st_keys := share_table s |} :: map (fun s => {| st_prefix := None; st_keys := share_table s |}) l).
    split; [intros; rewrite item_set, decide_False by done; by apply Hrem|]. rewrite item_set, decide_True by done. split.
    + cbn [share_tables mbind option_bind]. rewrite put_banner_keys. subst tables. cbn [map st_keys]. rewrite map_map. exact Hall.
    + split; [by rewrite trailing_set, trailing_remove|].
      apply (Hprefix _ (put_banner banner tables)); [intros; rewrite item_set, decide_False by done; by apply Hrem| |right; rewrite item_set, decide_True by done; split; [done|by destruct banner]].
      assert (Hplain : Forall prefix_ok tables) by (subst tables; constructor; [done|]; apply Forall_forall; by intros t (? & -> & _)%list_elem_of_fmap).
      destruct banner as [b|]; [|done]. subst tables. cbn. constructor; [|by apply Forall_cons in Hplain as [_ ?]]. unfold prefix_ok. cbn.
      destruct (ends_with _ b); [done|]. apply comments_app; [done|apply comments_newline].
Qed.
End ApplySpec.
Section Comments.
Context {D : Type} `{!TomlDoc D} `{!TomlLaws D}.
(** The comments above the shares stay above them, or go to the end of the file
    when no share is left. *)
Theorem banner_kept new_shares (d : D) b :
  fst (take_banner d) = Some b ->
  match item "shares" (apply_shares_to_doc new_shares d) with
  | Some (ITables (t :: _)) => exists e, st_prefix t = Some (b +:+ e)
  | _ => exists e, trailing (apply_shares_to_doc new_shares d) = b +:+ e
  end.
Proof.
  unfold apply_shares_to_doc. destruct (take_banner d) as [banner d1]. cbn [fst]. intros ->. destruct new_shares as [|s l]; cbn [map].
  - rewrite item_trailing, item_remove, decide_True by done. rewrite trailing_trailing. by eexists.
  - rewrite item_set, decide_True by done. cbn. destruct (ends_with _ b); [exists ""; by rewrite sapp_nil_r|by eexists].
Qed.
(** Those above the later shares do not. *)
Theorem inner_comments_lost new_shares (d : D) t r :
  item "shares" (apply_shares_to_doc new_shares d) = Some (ITables (t :: r)) -> Forall (fun t => st_prefix t = None) r.
Proof.
  unfold apply_shares_to_doc. destruct (take_banner d) as [banner d1]. destruct new_shares as [|s l]; cbn [map].
  - destruct banner; rewrite ?item_trailing, item_remove, decide_True by done; done.
  - rewrite item_set, decide_True by done. intros [= E].
    assert (Hr : r = map (fun s => {| st_prefix := None; st_keys := share_table s |}) l) by (destruct banner; cbn in E; congruence).
    rewrite Hr. apply Forall_forall. by intros x (? & -> & _)%list_elem_of_fmap.
Qed.
End Comments.

(** ** A form and its shares *)
Definition two_shares : Form := form_of [
  ("share_name_1", "music"); ("share_host_1", "/media/music"); ("share_container_path_1", "/export/music");
  ("share_name_0", " movies "); ("share_host_0", "/media/movies"); ("share_container_path_0", "/export/movies");
  ("share_rw_0", "false"); ("share_root_squash_0", "on"); ("share_name_2", "empty row"); ("share_enable_acl_1", "true")].
Lemma collected_in_order_witness :
  map sh_name (collect_shares_from_structured_form (h := iter_forward) two_shares) = ["movies"; "music"]
  /\ collect_shares_from_structured_form (h := iter_backward) two_shares
     = collect_shares_from_structured_form (h := iter_forward) two_shares.
Proof.
  split; [vm_compute; reflexivity|].
  exact (proj2 (proj2 (proj2 (collected_in_order two_shares iter_forward iter_backward
    ltac:(refine (bool_decide_eq_true_1 _ _); vm_compute; reflexivity))))).
Defined.
(** Two spellings of a number are one row twice: both names get the paths of
    the plain spelling, in the order of the hash map. *)
Theorem respelled_number_follows_hash_order :
  let form := form_of [("share_name_1", "a"); ("share_name_01", "b"); ("share_host_1", "/m"); ("share_container_path_1", "/export/m")] in
  collect_shares_from_structured_form (h := iter_forward) form <> collect_shares_from_structured_form (h := iter_backward) form.
Proof. vm_compute. discriminate. Qed.
Definition demo_shares : list Share := collect_shares_from_structured_form (h := iter_forward) two_shares.
Lemma demo_shares_fit : Forall numbers_fit demo_shares.
Proof. repeat (apply Forall_cons_2; [vm_compute; intuition discriminate|]). apply Forall_nil_2. Qed.
Lemma share_table_roundtrip_witness :
  map (fun s => share_of_table (share_table s)) demo_shares = map (fun s => Some (persisted s)) demo_shares
  /\ map sh_rw (map persisted demo_shares) = [Some false; None].
Proof.
  split; [|vm_compute; reflexivity]. pose proof demo_shares_fit as H. induction H as [|s l Hs Hl IH]; [reflexivity|].
  cbn [map]. rewrite IH. f_equal. exact (share_table_roundtrip s Hs).
Defined.
Lemma model_ok (d : ModelDoc) : map_Forall (fun _ i => i <> ITables []) (md_items d) -> doc_ok d.
Proof.
  intros Hne. split; [done|]. intros k l Hl. split; [intros ->; by apply (Hne k (ITables []))|].
  apply Forall_forall. intros t _. unfold prefix_ok. by destruct (st_prefix t).
Qed.
Lemma demo_doc_ok : doc_ok demo_doc.
Proof. apply model_ok. refine (bool_decide_eq_true_1 _ _). vm_compute. reflexivity. Qed.
Lemma shares_save_frame_witness :
  (share_tables (item "shares" (apply_shares_to_doc demo_shares demo_doc)) ≫= all_some share_of_table)
    = Some (map persisted demo_shares)
  /\ item "sssd" (apply_shares_to_doc demo_shares demo_doc) = item "sssd" demo_doc.
Proof.
  destruct (shares_save_frame demo_shares demo_doc demo_doc_ok demo_shares_fit) as (H1 & H2 & _).
  split; [exact H2|apply H1; discriminate].
Defined.
