(* ===== verification/SharesValid.v ===== *)
(** * Validation of the shares alone

    [validate_and_derive] checks the shares independently of the rest: the part
    of it that concerns them, and what follows for a configuration whose shares
    are replaced by ones that were validated and written to the file. *)

From S2P Require Import Prelude RustStr Identity Config ConfigLoad SettingsForm ShareForm.
Local Open Scope Z_scope.

Definition container_root_of (c : NfsKlldapConfig) : string := trim_end_matches "/" (storage_container_root c).
Definition validate_shares (root : string) (l : list Share) : result (list Share) ConfigError :=
  p <-? loop validate_share_fields ∅ l ;;
  sh <-? traverse (validate_share_paths root) (snd p) ;;
  fold_res validate_share_unique (∅, ∅) sh ?;;
  traverse validate_share_policy sh ?;;
  Ok sh.
Lemma validate_shares_part env c c' :
  validate_and_derive env c = Ok c' -> validate_shares (container_root_of c') (shares c) = Ok (shares c').
Proof.
  intros H. apply validate_inv in H as (_ & _ & _ & _ & _ & _ & _ & _ & _ & _ & _ & _ & (seen & mid & Hl & Ht) & (sn & Hu) & (pl & Hpol)).
  change (shares (apply_core_env_overrides env c)) with (shares c) in Hl. unfold validate_shares. rewrite Hl. cbn [rbind snd].
  unfold container_root_of. rewrite Ht. cbn [rbind]. rewrite Hu. cbn [rbind]. by rewrite Hpol.
Qed.
Lemma validate_with_shares env c c' l sh :
  validate_and_derive env c = Ok c' -> validate_shares (container_root_of c') l = Ok sh ->
  validate_and_derive env (replace_shares c l) = Ok (replace_shares c' sh).
Proof.
  intros H Hs. unfold validate_shares in Hs. apply rbind_ok in Hs as (p & Hl & Hs). apply rbind_ok in Hs as (sh' & Ht & Hs).
  apply rbind_ok in Hs as (sn & Hu & Hs). apply rbind_ok in Hs as (pl & Hpol & [= ->]).
  revert H. unfold validate_and_derive.
  change (apply_core_env_overrides env (replace_shares c l)) with (replace_shares (apply_core_env_overrides env c) l).
  generalize (apply_core_env_overrides env c). intros k H. do 5 peel H.
  apply rbind_ok in H as (? & _ & H). apply rbind_ok in H as (? & _ & H). apply rbind_ok in H as (? & _ & H).
  apply rbind_ok in H as (? & _ & H). do 2 peel H. apply rbind_ok in H as (g & Hg & [= <-]).
  unfold container_root_of in Ht. cbn [storage_container_root] in Ht.
  cbn [replace_shares ldap_uri webui sssd kerberos_realm ganesha storage_container_root shares].
  rewrite Hc. cbn [bail_if rbind]. rewrite (proj2 (check_opt_ok _ _ _) Hc0). cbn [rbind]. rewrite Hc1. cbn [bail_if rbind].
  change (derive_realm env (replace_shares k l)) with (derive_realm env k). rewrite Hc2. cbn [bail_if rbind].
  rewrite Hc3. cbn [bail_if rbind]. rewrite Hl. cbn [rbind]. rewrite Ht. cbn [rbind]. rewrite Hu. cbn [rbind]. rewrite Hpol. cbn [rbind].
  rewrite Hc4, Hc5. cbn [bail_if rbind]. rewrite Hg. reflexivity.
Qed.
Lemma validate_with_warnings env c c' w :
  validate_and_derive env c = Ok c' -> validate_and_derive env (with_warnings c w) = Ok (with_warnings c' w).
Proof.
  unfold validate_and_derive. change (apply_core_env_overrides env (with_warnings c w)) with (with_warnings (apply_core_env_overrides env c) w).
  generalize (apply_core_env_overrides env c). intros k H. do 5 peel H.
  apply rbind_ok in H as (p & Hl & H). apply rbind_ok in H as (sh & Ht & H). apply rbind_ok in H as (sn & Hu & H).
  apply rbind_ok in H as (pl & Hpol & H). do 2 peel H. apply rbind_ok in H as (g & Hg & [= <-]).
  cbn [with_warnings ldap_uri webui sssd kerberos_realm ganesha storage_container_root shares].
  rewrite Hc. cbn [bail_if rbind]. rewrite (proj2 (check_opt_ok _ _ _) Hc0). cbn [rbind]. rewrite Hc1. cbn [bail_if rbind].
  change (derive_realm env (with_warnings k w)) with (derive_realm env k). rewrite Hc2. cbn [bail_if rbind].
  rewrite Hc3. cbn [bail_if rbind]. rewrite Hl. cbn [rbind]. rewrite Ht. cbn [rbind]. rewrite Hu. cbn [rbind]. rewrite Hpol. cbn [rbind].
  rewrite Hc4, Hc5. cbn [bail_if rbind]. rewrite Hg. reflexivity.
Qed.

(** ** What is written validates as it was *)
(** A save only drops what the checks do not need. *)
Lemma persisted_fields seen seen' s :
  validate_share_fields seen s = Ok (seen', s) -> validate_share_fields seen (persisted s) = Ok (seen', persisted s).
Proof.
  unfold validate_share_fields. intros H. do 9 peel H. injection H as <- Hs.
  cbn [persisted sh_name sh_host_path sh_security sh_squash sh_pref_read sh_pref_write sh_cache_profile sh_attr_expiration_secs
       sh_container_path sh_source_path].
  rewrite Hc, Hc0, Hc1. cbn [bail_if rbind]. rewrite (proj2 (check_opt_ok _ _ _) Hc2). cbn [rbind].
  rewrite (proj2 (check_opt_ok _ _ _) Hc3). cbn [rbind].
  rewrite (proj2 (check_opt_ok _ _ _)); [cbn [rbind]|intros v Hv; apply Hc4; by destruct (is_some _)].
  rewrite (proj2 (check_opt_ok _ _ _)); [cbn [rbind]|intros v Hv; apply Hc5; by destruct (is_some _)].
  rewrite (proj2 (check_opt_ok _ _ _)); [cbn [rbind]|].
  2:{ intros v (p & Hp & Hv)%bind_Some. unfold nonblank in Hv. destruct (blank p); [done|]. injection Hv as <-. by apply Hc6. }
  rewrite (proj2 (check_opt_ok _ _ _) Hc7). cbn [rbind]. f_equal. f_equal.
  assert (Hcp : trim (sh_container_path s) = sh_container_path s) by (rewrite <- Hs at 2; done).
  assert (Hps : Some (normalize_pseudo s) = sh_pseudo_path s) by (rewrite <- Hs at 2; done).
  change (normalize_pseudo (persisted s)) with (normalize_pseudo s). rewrite Hcp, Hps.
  exact (with_share_paths_id (persisted s)).
Qed.
Lemma persisted_paths root s :
  validate_share_paths root s = Ok s -> validate_share_paths root (persisted s) = Ok (persisted s).
Proof.
  unfold validate_share_paths. intros H. do 3 peel H. apply rbind_ok in H as (src & Hsrc & [= Hs]).
  change (sh_container_path (persisted s)) with (sh_container_path s). rewrite Hc, Hc0, Hc1. cbn [bail_if rbind].
  assert (Hsr : sh_source_path s = src) by (by rewrite <- Hs). rewrite Hsr in Hsrc.
  change (sh_name (persisted s)) with (sh_name s). change (sh_source_path (persisted s)) with (sh_source_path s ≫= nonblank). rewrite Hsr.
  assert (src ≫= nonblank = src) as Hsame.
  { destruct src as [v|]; [|done]. cbn. unfold nonblank, blank. unfold validate_source_path in Hsrc.
    destruct (is_empty (trim v)) eqn:E; [discriminate|done]. }
  rewrite Hsame, Hsrc. cbn [rbind]. f_equal. rewrite <- Hsame, <- Hsr.
  exact (with_share_paths_id (persisted s)).
Qed.
Lemma persisted_unique l : forall seen, fold_res validate_share_unique seen (map persisted l) = fold_res validate_share_unique seen l.
Proof. induction l as [|s l IH]; intros seen; [done|]. cbn. change (validate_share_unique seen (persisted s)) with (validate_share_unique seen s).
  destruct (validate_share_unique seen s); [apply IH|done]. Qed.
Lemma persisted_policy s : validate_share_policy s = Ok tt -> validate_share_policy (persisted s) = Ok tt.
Proof.
  unfold validate_share_policy. rewrite !check_opt_ok. intros H v (p & Hp & Hv)%bind_Some. unfold nonblank in Hv.
  destruct (blank p); [done|]. injection Hv as <-. by apply H.
Qed.
Lemma persisted_loop l : forall seen seen',
  loop validate_share_fields seen l = Ok (seen', l) ->
  loop validate_share_fields seen (map persisted l) = Ok (seen', map persisted l).
Proof.
  induction l as [|s l IH]; intros seen seen' H; [cbn in *; congruence|]. cbn in *.
  apply rbind_ok in H as ([seen1 s1] & Hs & H). cbn in H. apply rbind_ok in H as ([seen2 l2] & Hl & H). cbn in H.
  injection H as -> -> ->. rewrite (persisted_fields _ _ _ Hs). cbn. by rewrite (IH _ _ Hl).
Qed.
Lemma persisted_traverse root l :
  traverse (validate_share_paths root) l = Ok l -> traverse (validate_share_paths root) (map persisted l) = Ok (map persisted l).
Proof.
  rewrite !traverse_ok. intros H. apply Forall2_fmap_l. rewrite (Forall2_fmap_r _ _ l).
  induction l as [|s l IH]; [constructor|]. apply Forall2_cons in H as [Hs Hl]. constructor; [by apply persisted_paths|by apply IH].
Qed.
Lemma policy_persisted l pl :
  traverse validate_share_policy l = Ok pl -> traverse validate_share_policy (map persisted l) = Ok pl.
Proof.
  revert pl. induction l as [|s l IH]; intros pl H; [done|]. cbn in *. apply rbind_ok in H as ([] & Hs & H).
  apply rbind_ok in H as (ys & Hl & [= <-]). rewrite persisted_policy by done. cbn. by rewrite (IH _ Hl).
Qed.
Lemma validated_persisted root l sh :
  validate_shares root l = Ok sh -> Forall (fun s => trim (sh_name s) = sh_name s) l ->
  validate_shares root (map persisted sh) = Ok (map persisted sh).
Proof.
  intros H Hn. unfold validate_shares in H. apply rbind_ok in H as ([seen mid] & Hl & H). cbn [snd] in H.
  apply rbind_ok in H as (sh' & Ht & H). apply rbind_ok in H as (sn & Hu & H). apply rbind_ok in H as (pl & Hpol & [= ->]).
  destruct (shares_built _ _ _ _ _ _ Hl Ht) as [Hb Hnd].
  assert (Hn' : Forall (fun s => trim (sh_name s) = sh_name s) sh).
  { clear -Hb Hn. induction Hb as [|s s' l sh (a & b & m & Hf & Hp) Hb IH]; [constructor|].
    apply Forall_cons in Hn as [Hs Hn]. constructor; [|by apply IH].
    apply share_fields_ok in Hf as (_ & _ & -> & _). by apply share_paths_ok in Hp as ((src & ->) & _). }
  destruct (shares_refixed _ _ _ Hb Hnd Hn' ∅) as [(seen2 & Hl2) Ht2]; [set_solver|].
  unfold validate_shares. rewrite (persisted_loop _ _ _ Hl2). cbn [rbind snd]. rewrite (persisted_traverse _ _ Ht2). cbn [rbind].
  rewrite persisted_unique, Hu. cbn [rbind]. by rewrite (policy_persisted _ _ Hpol).
Qed.
(** The numbers of validated shares fit, if those validation does not bound
    did. *)
Definition unbounded_fit (s : Share) : Prop :=
  match sh_manage_gids_expiration s with Some v => 0 <= v <= i64_max | None => True end
  /\ match sh_attr_expiration_secs s with Some v => v <= 2147483647 | None => True end.
Lemma validated_fit root l sh : validate_shares root l = Ok sh -> Forall unbounded_fit l -> Forall numbers_fit sh.
Proof.
  intros H Hn. unfold validate_shares in H. apply rbind_ok in H as ([seen mid] & Hl & H). cbn [snd] in H.
  apply rbind_ok in H as (sh' & Ht & H). apply rbind_ok in H as (sn & Hu & H). apply rbind_ok in H as (pl & Hpol & [= ->]).
  destruct (shares_built _ _ _ _ _ _ Hl Ht) as [Hb _]. clear -Hb Hn.
  induction Hb as [|s s' l sh (a & b & m & Hf & Hp) Hb IH]; [constructor|].
  apply Forall_cons in Hn as [[He Ha] Hn]. constructor; [|by apply IH].
  apply share_fields_ok in Hf as (_ & _ & -> & _ & _ & _ & _ & Hr & Hw & _ & Hat).
  apply share_paths_ok in Hp as ((src & ->) & _). unfold numbers_fit. cbn. split_and!; [| |done|].
  - destruct (sh_pref_read s) as [v|]; [|done]. specialize (Hr v eq_refl). unfold i64_max. lia.
  - destruct (sh_pref_write s) as [v|]; [|done]. specialize (Hw v eq_refl). unfold i64_max. lia.
  - destruct (sh_attr_expiration_secs s) as [v|]; [|done]. specialize (Hat v eq_refl). lia.
Qed.
Lemma validated_unbounded root l sh : validate_shares root l = Ok sh -> Forall unbounded_fit l -> Forall unbounded_fit sh.
Proof.
  intros H Hn. unfold validate_shares in H. apply rbind_ok in H as ([seen mid] & Hl & H). cbn [snd] in H.
  apply rbind_ok in H as (sh' & Ht & H). apply rbind_ok in H as (sn & Hu & H). apply rbind_ok in H as (pl & Hpol & [= ->]).
  destruct (shares_built _ _ _ _ _ _ Hl Ht) as [Hb _]. clear -Hb Hn.
  induction Hb as [|s s' l sh (a & b & m & Hf & Hp) Hb IH]; [constructor|].
  apply Forall_cons in Hn as [Hs Hn]. constructor; [|by apply IH].
  apply share_fields_ok in Hf as (_ & _ & -> & _). by apply share_paths_ok in Hp as ((src & ->) & _).
Qed.
(** So are those of the shares that were read. *)
Lemma read_share_fit t s : share_of_table t = Some s -> unbounded_fit s.
Proof.
  unfold share_of_table. destruct (typed SHARE_FIELDS t) eqn:Ht; [|done]. cbn [andb]. destruct (negb _); [|done].
  destruct (get_str t "name"), (get_str t "host_path"), (get_str t "container_path"); try done. cbn. intros [= <-].
  split; cbn.
  - unfold get_int. assert (well_typed U64 (t !! "manage_gids_expiration") = true) as Hw.
    { apply (typed_at _ _ _ _ Ht). do 17 right. left. }
    destruct (t !! "manage_gids_expiration") as [[]|]; try done. cbn in Hw. apply andb_true_iff in Hw. by rewrite !Z.leb_le in Hw.
  - unfold get_int. assert (well_typed I32 (t !! "attr_expiration_secs") = true) as Hw.
    { apply (typed_at _ _ _ _ Ht). do 18 right. left. }
    destruct (t !! "attr_expiration_secs") as [[]|]; try done. cbn in Hw. apply andb_true_iff in Hw as [_ Hw]. by apply Z.leb_le in Hw.
Qed.

(** ** Reading the written file *)
Lemma meaning_section fields i i' :
  meaning i = meaning i' -> section fields i = section fields i'.
Proof. destruct i as [[]|], i' as [[]|]; cbn; intros H; first [discriminate H | reflexivity | congruence | by simplify_eq]. Qed.
Lemma meaning_top ty i i' : meaning i = meaning i' -> top_value ty i = top_value ty i'.
Proof. destruct i as [[]|], i' as [[]|]; cbn; intros H; first [discriminate H | reflexivity | congruence | by simplify_eq]. Qed.
Lemma meaning_shares i i' : meaning i = meaning i' -> share_tables i = share_tables i'.
Proof. destruct i as [[]|], i' as [[]|]; cbn; intros H; first [discriminate H | reflexivity | congruence | by simplify_eq]. Qed.
Lemma config_replace_shares it it' c l :
  config_of_items it = Some c -> (forall k, k <> "shares" -> meaning (it' k) = meaning (it k)) ->
  (share_tables (it' "shares") ≫= all_some share_of_table) = Some l ->
  config_of_items it' = Some (replace_shares c l).
Proof.
  intros H Hm Hs. apply bind_Some in Hs as (tables' & Ht' & Hs').
  apply config_of_items_some in H as (uri & nav & storage & server & sss & kerberos & gan & management & prb & host &
    web & tables & shs & Huri & Hnav & Hstorage & Hserver & Hsss & Hkerberos & Hgan & Hmanagement & Hprb & Hhost &
    Hweb & Htables & Hshs & ->).
  apply config_of_items_some.
  exists uri, nav, storage, server, sss, kerberos, gan, management, prb, host, web, tables', l.
  split_and!; try done; first [erewrite meaning_top by (by apply Hm); eassumption | erewrite meaning_section by (by apply Hm); eassumption].
Qed.
