(* ===== verification/SettingsPage.v ===== *)
(** * The settings page

    Models [ShareTemplateRow] of [web/settings_form.rs] and
    [build_settings_template] of [web/settings/mod.rs]: what the page shows of
    the file on disk, with the ACL status of every share, which goes through
    the verdict cache. *)

From S2P Require Import Prelude RustStr Identity Config ConfigLoad SettingsForm ShareForm FsProbe Generate FsWarnings Acl AclGate.
Local Open Scope Z_scope.

Record ShareTemplateRow := {
  tr_idx : Z; tr_name : string; tr_host_path : string; tr_pseudo_path : string; tr_pseudo_editable : bool;
  tr_effective_pseudo : string; tr_container_path : string; tr_security : string; tr_security_chip : option string;
  tr_rw : bool; tr_root_squash : bool; tr_cache_profile : string; tr_enable_acl : string;
  tr_effective_acl_capable : bool; tr_acl_probed : string; tr_acl_state_label : string; tr_manage_gids : string;
  tr_read_access_policy : string; tr_manage_gids_expiration : option Z; tr_navahi_insecure : bool;
  tr_navahi_global : bool; tr_warning : option ShareFieldWarning; tr_fs_warning : option string;
}.
(** [ShareTemplateRow::blank], with the global toggle that the blank card gets. *)
Definition blank_row (idx : Z) (navahi_global : bool) : ShareTemplateRow := {|
  tr_idx := idx; tr_name := ""; tr_host_path := ""; tr_pseudo_path := ""; tr_pseudo_editable := true;
  tr_effective_pseudo := ""; tr_container_path := ""; tr_security := ""; tr_security_chip := None; tr_rw := true;
  tr_root_squash := true; tr_cache_profile := "Default"; tr_enable_acl := "auto"; tr_effective_acl_capable := false;
  tr_acl_probed := "unverified"; tr_acl_state_label := "auto (off)"; tr_manage_gids := "auto";
  tr_read_access_policy := "auto"; tr_manage_gids_expiration := None; tr_navahi_insecure := false;
  tr_navahi_global := navahi_global; tr_warning := None; tr_fs_warning := None |}.
Definition tri_bool_text (o : option bool) : string :=
  match o with Some true => "true" | Some false => "false" | None => "auto" end.
(** A security shown because it is not the default one. *)
Definition security_chip (cfg : NfsKlldapConfig) (s : Share) : option string :=
  let default_security := let t := trim (ga_default_security (ganesha cfg)) in if is_empty t then GANESHA_DEFAULT_SECTYPE else t in
  v ← trim <$> sh_security s;
  if negb (is_empty v) && negb (seqb v default_security) then Some v else None.

Record SettingsTemplate := {
  tp_current_user : option string; tp_raw_toml : string; tp_message : option string; tp_message_is_error : bool;
  tp_ldap_uri : string; tp_storage_container_root : string; tp_server_hostname : string; tp_sssd_bind_dn : string;
  tp_sssd_ac_fields : list AcTextView; tp_tls_ac_fields : list AcTextView; tp_tls_ac_bools : list AcBoolView;
  tp_kerberos_realm : string; tp_ganesha_default_security : string; tp_kllldap_ignored_attributes : bool;
  tp_probe_user_principal : string; tp_probe_client_host : string; tp_auto_probe_ldap : bool;
  tp_override_server_hostname : bool; tp_override_kerberos_realm : bool; tp_override_ganesha_default_security : bool;
  tp_current_shares : list ShareTemplateRow; tp_next_share_idx : nat; tp_is_localhost_user : bool;
  tp_session_timeout : string; tp_navahi_discovery : bool; tp_navahi_advertised_count : nat;
}.

Section Page.
Context {D : Type} `{!TomlDoc D}.
Context (env : Env) (ttl : Z) (wp rs : string -> option bool) (snap : MountinfoSnapshot) (clock : nat -> Z * Z).
(** [parse_str(..).and_then(validate).unwrap_or_default()] *)
Definition validated_or_default (text : string) : NfsKlldapConfig :=
  match parse_str (D := D) text with
  | Some c => match validate_and_derive env c with Ok c' => c' | Err _ => default_config end
  | None => default_config
  end.
Definition parse_or_empty (text : string) : D := default empty_doc (parse_doc text).

Definition share_template_row (cfg : NfsKlldapConfig) (d : D) (idx : nat) (s : Share) (st : ShareAclStatus) : ShareTemplateRow := {|
  tr_idx := Z.of_nat idx; tr_name := sh_name s; tr_host_path := sh_host_path s;
  tr_pseudo_path := if share_pseudo_path_explicit_in_raw d idx then share_pseudo_path_from_raw d idx else derive_share_pseudo s;
  tr_pseudo_editable := effective_enable_acl st; tr_effective_pseudo := derive_share_pseudo s;
  tr_container_path := sh_container_path s; tr_security := default "" (sh_security s);
  tr_security_chip := security_chip cfg s; tr_rw := default true (sh_rw s);
  tr_root_squash := match sh_squash s with Some q => seqb q "root_squash" | None => false end;
  tr_cache_profile := match sh_cache_profile s ≫= nonblank with
                      | Some p => p | None => infer_profile_from_prefs (sh_pref_read s) (sh_pref_write s) end;
  tr_enable_acl := tri_bool_text (sh_enable_acl s); tr_effective_acl_capable := effective_acl_capable st;
  tr_acl_probed := st_probed st; tr_acl_state_label := state_label st; tr_manage_gids := tri_bool_text (sh_manage_gids s);
  tr_read_access_policy := match sh_read_access_policy s with
                           | Some p => if seqb p "pre" then "pre" else if seqb p "post" then "post" else "auto"
                           | None => "auto" end;
  tr_manage_gids_expiration := sh_manage_gids_expiration s;
  tr_navahi_insecure := bool_decide (sh_navahi_insecure s = Some true); tr_navahi_global := navahi_discovery cfg;
  tr_warning := for_share (share_warnings cfg) idx (sh_name s);
  tr_fs_warning := match share_fs_warning_message_snapshot s snap with
                   | Some w => Some w
                   | None => share_divergent_submount_warning_snapshot s snap (effective_enable_acl st) end |}.
(** The rows, each probing through the cache. *)
Fixpoint share_rows (cfg : NfsKlldapConfig) (d : D) (idx : nat) (l : list Share) (m : Entries) : list ShareTemplateRow * Entries :=
  match l with
  | [] => ([], m)
  | s :: r =>
      let '(st, m) := share_acl_status ttl wp rs (clock idx).1 (clock idx).2 snap s m in
      let '(rows, m) := share_rows cfg d (S idx) r m in
      (share_template_row cfg d idx s st :: rows, m)
  end.
(** [file]: the text of the file, [None] when it cannot be read. *)
Definition build_settings_template (file : option string) (user message : option string) (is_error : bool) (m : Entries)
    : SettingsTemplate * Entries :=
  let raw := default "# Could not read config file" file in
  let d := parse_or_empty raw in
  let cfg := validated_or_default raw in
  let '(rows, m) := share_rows cfg d 0 (shares cfg) m in
  ({| tp_current_user := user; tp_raw_toml := raw; tp_message := message; tp_message_is_error := is_error;
      tp_ldap_uri := ldap_uri cfg; tp_storage_container_root := storage_container_root cfg;
      tp_server_hostname := default "" (server_hostname cfg); tp_sssd_bind_dn := ss_ldap_default_bind_dn (sssd cfg);
      tp_sssd_ac_fields := sssd_ac_text_views cfg d; tp_tls_ac_fields := tls_ac_text_views cfg d;
      tp_tls_ac_bools := tls_ac_bool_views cfg d; tp_kerberos_realm := default "" (kerberos_realm cfg);
      tp_ganesha_default_security := ga_default_security (ganesha cfg);
      tp_kllldap_ignored_attributes := default true (ss_kllldap_ignored_attributes (sssd cfg));
      tp_probe_user_principal := default "" (pb_user_principal (probe cfg));
      tp_probe_client_host := default "" (pb_client_host (probe cfg));
      tp_auto_probe_ldap := negb (has_explicit d "probe" "user_principal" || has_explicit d "probe" "client_host");
      tp_override_server_hostname := has_explicit d "server" "hostname";
      tp_override_kerberos_realm := has_explicit d "kerberos" "realm";
      tp_override_ganesha_default_security :=
        match get_explicit_str d "ganesha" "default_security" with Some v => negb (seqb v "krb5p") | None => false end;
      tp_current_shares := rows; tp_next_share_idx := length rows;
      tp_is_localhost_user := match user with Some u => seqb u "localhost" | None => false end;
      tp_session_timeout := default "" (dec <$> wu_session_timeout_minutes (webui cfg));
      tp_navahi_discovery := navahi_discovery cfg;
      tp_navahi_advertised_count := length (List.filter (share_navahi_effective cfg) (shares cfg)) |}, m).
End Page.

(** The page never asks to leave a row: every share of the file has one, in
    order, numbered from zero. *)
Section Rows.
Context {D : Type} `{!TomlDoc D}.
Context (env : Env) (ttl : Z) (wp rs : string -> option bool) (snap : MountinfoSnapshot) (clock : nat -> Z * Z).
Lemma share_rows_spec cfg (d : D) idx l m :
  map tr_name (fst (share_rows ttl wp rs snap clock cfg d idx l m)) = map sh_name l
  /\ map tr_idx (fst (share_rows ttl wp rs snap clock cfg d idx l m)) = map Z.of_nat (seq idx (length l)).
Proof.
  revert idx m. induction l as [|s l IH]; intros idx m; [done|]. cbn.
  destruct (share_acl_status _ _ _ _ _ _ _ _) as [st m1]. specialize (IH (S idx) m1).
  destruct (share_rows _ _ _ _ _ _ _ _ _ _) as [rows m2]. cbn in *. destruct IH as [-> ->]. done.
Qed.
End Rows.
