(* ===== verification/SettingsSave.v ===== *)
(** * Saving the settings

    Models the save handlers of [web/settings/mod.rs], whole: the session
    check, the configuration read from disk, the form of SettingsForm.v and the
    shares of ShareForm.v, the fresh probe of the shares that ask for ACLs, the
    validation of Config.v, the replacement of the file
    ([atomic_write_config]), the reload of PermHandlers.v and the request of a
    recycle; and the re-probe, the restart and the reload of the LDAP client
    from the settings pages. *)

From S2P Require Import Prelude RustStr State Identity Config ConfigLoad SettingsForm ShareForm SharesValid FsProbe Generate FsWarnings Acl FsManager Startup Auth Resolver LdapClient WebLogin AclGate SettingsPage PermPlan ApplyTask PermHandlers RecycleLatch.
Local Open Scope Z_scope.

(** ** The configuration file *)
(** Content and permission bits of the file and of its temporary. *)
Record ConfDisk := { cd_conf : option (string * Z); cd_tmp : option (string * Z) }.
Inductive TmpWrite := CannotOpen | Partial (written : string) | Written.
Record SaveIo := {
  io_write : TmpWrite;
  io_rename : bool;
  io_chmod : bool;
  io_new_mode : Z;  (* the mode a new file gets from the umask *)
}.
Inductive SaveError := WriteFailed | RenameFailed.
Definition write_tmp (io : SaveIo) (content : string) (d : ConfDisk) : option string * ConfDisk :=
  let mode := match cd_tmp d with Some (_, m) => m | None => io_new_mode io end in
  match io_write io with
  | CannotOpen => (None, d)
  | Partial s => (None, {| cd_conf := cd_conf d; cd_tmp := Some (s, mode) |})
  | Written => (Some content, {| cd_conf := cd_conf d; cd_tmp := Some (content, mode) |})
  end.
(** The result, and the states of the disk on the way, the last one first. *)
Definition atomic_write_config (io : SaveIo) (content : string) (d : ConfDisk) : result unit SaveError * list ConfDisk :=
  let '(ok, d1) := write_tmp io content d in
  if is_some ok then
    if io_rename io then
      let d2 := {| cd_conf := cd_tmp d1; cd_tmp := None |} in
      let d3 := if io_chmod io then {| cd_conf := (fun '(t, _) => (t, 384)) <$> cd_conf d2; cd_tmp := None |} else d2 in
      (Ok tt, [d3; d2; d1; d])
    else (Err RenameFailed, [d1; d])
  else (Err WriteFailed, [d1; d]).
Definition conf_text (d : ConfDisk) : option string := fst <$> cd_conf d.
(** A save leaves the old file or the new one, at every moment, and the new one
    whole when it succeeds. *)
Lemma atomic_write_states io content d :
  let '(r, states) := atomic_write_config io content d in
  Forall (fun d' => conf_text d' = conf_text d \/ conf_text d' = Some content) states
  /\ (is_ok r = true -> conf_text <$> head states = Some (Some content))
  /\ (is_ok r = false -> Forall (fun d' => cd_conf d' = cd_conf d) states).
Proof.
  unfold atomic_write_config, write_tmp, conf_text.
  destruct (io_write io), (io_rename io), (io_chmod io); cbn; repeat constructor; auto; done.
Qed.

(** ** The shares that are saved *)
Definition with_pseudo (o : option string) (s : Share) : Share :=
  with_share_paths s (sh_container_path s) o (sh_source_path s).
(** A submitted path equal to the derived one is not explicit. *)
Definition strip_auto_pseudo (s : Share) : Share :=
  match sh_pseudo_path s with
  | Some p => if seqb (if starts_with "/" p then p else "/" +:+ p) ("/" +:+ sh_name s) then with_pseudo None s else s
  | None => s
  end.
Definition with_kept (s : Share) (pseudo src : option string) (attr : option Z) (navahi : option bool) : Share := {|
  sh_name := sh_name s; sh_host_path := sh_host_path s; sh_pseudo_path := pseudo; sh_security := sh_security s;
  sh_rw := sh_rw s; sh_squash := sh_squash s; sh_cache_profile := sh_cache_profile s; sh_pref_read := sh_pref_read s;
  sh_pref_write := sh_pref_write s; sh_enable_acl := sh_enable_acl s; sh_manage_gids := sh_manage_gids s;
  sh_read_access_policy := sh_read_access_policy s; sh_manage_gids_expiration := sh_manage_gids_expiration s;
  sh_container_path := sh_container_path s; sh_source_path := src; sh_attr_expiration_secs := attr;
  sh_navahi_insecure := navahi; sh_umask := sh_umask s |}.
(** The share of before that a row is matched with: by place, then by name. *)
Definition old_share (old_cfg : NfsKlldapConfig) (idx : nat) (s : Share) : option Share :=
  match shares old_cfg !! idx with
  | Some o => Some o
  | None => List.find (fun o => seqb (sh_name o) (sh_name s)) (shares old_cfg)
  end.
Definition keep {A} (new old : option A) : option A := match new with Some _ => new | None => old end.
Section Doc.
Context {D : Type} `{!TomlDoc D}.
Definition keep_raw_fields (old_cfg : NfsKlldapConfig) (d : D) (idx : nat) (s : Share) : Share :=
  match old_share old_cfg idx s with
  | None => s
  | Some old =>
      with_kept s
        (if negb (is_some (sh_pseudo_path s)) && share_pseudo_path_explicit_in_raw d idx then sh_pseudo_path old else sh_pseudo_path s)
        (keep (sh_source_path s) (sh_source_path old))
        (keep (sh_attr_expiration_secs s) (sh_attr_expiration_secs old))
        (if negb (navahi_discovery old_cfg) && negb (is_some (sh_navahi_insecure s)) then sh_navahi_insecure old
         else sh_navahi_insecure s)
  end.
Definition submitted_shares `{!HashIter string} (old_cfg : NfsKlldapConfig) (d : D) (form : Form) : list Share :=
  imap (keep_raw_fields old_cfg d) (map strip_auto_pseudo (collect_shares_from_structured_form form)).
End Doc.

(** ** The fresh probe *)
Section Probe.
Context (ttl : Z) (wp rs : string -> option bool) (snap : MountinfoSnapshot) (clock : nat -> Z * Z).
(** The first share that asks for ACLs on a known mount without them. *)
Fixpoint acl_refused (i : nat) (l : list Share) (m : Entries) : option Share * Entries :=
  match l with
  | [] => (None, m)
  | s :: r =>
      if bool_decide (sh_enable_acl s = Some true) then
        let serve := serve_path_for s in
        let '(o, m) := verdict_for_snapshot ttl wp rs (clock i).1 (clock i).2 snap serve serve false true m in
        if negb (seqb (fstype (po_caps o)) "unknown") && bool_decide (po_verdict o = Incapable) then (Some s, m)
        else acl_refused (S i) r m
      else acl_refused (S i) r m
  end.
End Probe.

(** ** The handlers *)
Record Site := { st_web : Web; st_shared : Shared; st_latch : LatchState; st_disk : ConfDisk }.
Inductive SaveMsg :=
| FileError (e : SaveError) | NotValid (e : LoadError) | AclRefused (share fstype_of : string)
| SavedRaw | SavedStructured | SavedShares (reload_error : bool).
Inductive SaveReply :=
| SessionMissing (target : string)
| Alert (m : SaveMsg)
| SettingsPage (m : SaveMsg) (page : SettingsTemplate).
Definition wrote (r : SaveReply) : bool :=
  match r with SettingsPage (SavedRaw | SavedStructured | SavedShares _) _ => true | _ => false end.

Section Handlers.
Context {D : Type} `{!TomlDoc D} `{!HashIter string}.
Context (sha256 : Bytes -> Bytes) (to_json : gmap string PersistedSession -> string) (disk_ok : nat -> bool).
Context (env : Env) (io : SaveIo) (tmp_validate : bool).
(** The text of a message; the ACL probe, the mounts and the clocks of the
    handler and of the page; the marker and the time of the recycle request. *)
Context (msg_text : SaveMsg -> string).
Context (ttl : Z) (wp rs : string -> option bool) (snap : MountinfoSnapshot) (clock page_clock : nat -> Z * Z).
Context (marker_removed : bool) (recycle_at : Z).
Definition on_disk (d : list ConfDisk) (s : Site) : Site :=
  {| st_web := st_web s; st_shared := st_shared s; st_latch := st_latch s; st_disk := default (st_disk s) (head d) |}.
Definition on_caps (m : Entries) (s : Site) : Site :=
  {| st_web := st_web s;
     st_shared := {| sh_config := sh_config (st_shared s); sh_fs := sh_fs (st_shared s); sh_caps := m |};
     st_latch := st_latch s; st_disk := st_disk s |}.
Definition site_text (s : Site) : string := default "" (conf_text (st_disk s)).
(** The page after a save, whose rows probe through the cache. *)
Definition render (user : string) (m : SaveMsg) (is_error : bool) (s : Site) : SaveReply * Site :=
  let '(page, caps) := build_settings_template (D := D) env ttl wp rs snap page_clock (conf_text (st_disk s)) (Some user)
                         (Some (msg_text m)) is_error (sh_caps (st_shared s)) in
  (SettingsPage m page, on_caps caps s).
(** A page handler: the session, or the login page. *)
Definition with_session {A} (missing : string -> A) (now : Z) (h : Headers) (body : string -> Site -> A * Site) (s : Site) : A * Site :=
  let '(user, w) := require_auth sha256 to_json disk_ok now h (st_web s) in
  let s := {| st_web := w; st_shared := st_shared s; st_latch := st_latch s; st_disk := st_disk s |} in
  match user with
  | Err target => (missing target, s)
  | Ok u => body u s
  end.
Definition settings_save_raw (raw : string) (now : Z) (h : Headers) : Site -> SaveReply * Site :=
  with_session SessionMissing now h (fun user s =>
    if tmp_validate then
      match load (D := D) env (Some raw) with
      | Err e => (Alert (NotValid e), s)
      | Ok _ =>
          let '(r, disk) := atomic_write_config io raw (st_disk s) in
          match r with
          | Err e => (Alert (FileError e), on_disk disk s)
          | Ok _ => render user SavedRaw false (on_disk disk s)
          end
      end
    else (Alert (FileError WriteFailed), s)).
Definition settings_save_structured (form : Form) (now : Z) (h : Headers) : Site -> SaveReply * Site :=
  with_session SessionMissing now h (fun user s =>
    let text := site_text s in
    let cfg := apply_structured_form_to_config form (validated_or_default (D := D) env text) in
    match validate_and_derive env cfg with
    | Err e => render user (NotValid (LoadInvalid e)) true s
    | Ok _ =>
        let doc := apply_structured_form_to_doc form (parse_or_empty (D := D) text) in
        let '(r, disk) := atomic_write_config io (doc_text doc) (st_disk s) in
        match r with
        | Err e => render user (FileError e) false (on_disk disk s)
        | Ok _ => render user SavedStructured false (on_disk disk s)
        end
    end).
Definition apply_saved_shares (s : Site) : bool * Site :=
  let file := Some <$> conf_text (st_disk s) in
  let loaded := match load_config_from (D := D) env file with Ok c => Ok c | Err _ => Err "Failed to load" end in
  let '(r, shared) := reload_config_and_fs loaded (st_shared s) in
  (negb (is_ok r),
   {| st_web := st_web s; st_shared := shared;
      st_latch := snd (try_schedule_service_recycle marker_removed recycle_at SharesApply (st_latch s));
      st_disk := st_disk s |}).
Definition settings_save_shares (form : Form) (now : Z) (h : Headers) : Site -> SaveReply * Site :=
  with_session SessionMissing now h (fun user s =>
    let doc := parse_or_empty (D := D) (site_text s) in
    let old_cfg := match load (D := D) env (conf_text (st_disk s)) with Ok c => c | Err _ => default_config end in
    let new_shares := submitted_shares old_cfg doc form in
    let '(refused, m) := acl_refused ttl wp rs snap clock 0 new_shares (sh_caps (st_shared s)) in
    let s := on_caps m s in
    match refused with
    | Some r => render user (AclRefused (sh_name r) (fstype (fst (stage_a snap (serve_path_for r))))) false s
    | None =>
        match validate_and_derive env (replace_shares old_cfg new_shares) with
        | Err e => render user (NotValid (LoadInvalid e)) false s
        | Ok cfg =>
            let '(r, disk) := atomic_write_config io (doc_text (apply_shares_to_doc (shares cfg) doc)) (st_disk s) in
            let s := on_disk disk s in
            match r with
            | Err e => render user (FileError e) false s
            | Ok _ => let '(failed, s) := apply_saved_shares s in render user (SavedShares failed) false s
            end
        end
    end).
Definition system_restart (now : Z) (h : Headers) : Site -> option string * Site :=
  with_session Some now h (fun _ s =>
    (None, {| st_web := st_web s; st_shared := st_shared s;
              st_latch := snd (try_schedule_service_recycle marker_removed recycle_at FullRestart (st_latch s));
              st_disk := st_disk s |})).
(** The re-probe: all verdicts dropped, one line per share; [None]: no
    session. *)
Definition html_escape (s : string) : string := replace ">" "&gt;" (replace "<" "&lt;" (replace "&" "&amp;" s)).
Definition settings_page (now : Z) (h : Headers) : Site -> option SettingsTemplate * Site :=
  with_session (fun _ => None) now h (fun user s =>
    let '(page, caps) := build_settings_template (D := D) env ttl wp rs snap page_clock (conf_text (st_disk s)) (Some user) None false
                           (sh_caps (st_shared s)) in
    (Some page, on_caps caps s)).
Definition share_card_blank (idx now : Z) (h : Headers) : Site -> option ShareTemplateRow * Site :=
  with_session (fun _ => None) now h (fun _ s =>
    let navahi := match load (D := D) env (conf_text (st_disk s)) with Ok c => navahi_discovery c | Err _ => false end in
    (Some (blank_row idx navahi), s)).
Fixpoint probe_lines (i : nat) (l : list Share) (m : Entries) : list string * Entries :=
  match l with
  | [] => ([], m)
  | sh :: r =>
      let '(st, m) := share_acl_status ttl wp rs (clock i).1 (clock i).2 snap sh m in
      let '(ls, m) := probe_lines (S i) r m in
      (("share '" +:+ html_escape (sh_name sh) +:+ "': " +:+ state_label st +:+ " (probe: " +:+ st_probed st +:+ ")") :: ls, m)
  end.
Definition settings_reprobe_filesystems (now : Z) (h : Headers) : Site -> option string * Site :=
  with_session (fun _ => None) now h (fun _ s =>
    let '(lines, m) := probe_lines 0 (shares (validated_or_default (D := D) env (site_text s))) ∅ in
    (Some (match lines with [] => "No shares configured." | _ => join (String nl "") lines end), on_caps m s)).
End Handlers.

(** ** What a save may do *)
Section Spec.
Context {D : Type} `{!TomlDoc D} `{!HashIter string}.
Context (sha256 : Bytes -> Bytes) (to_json : gmap string PersistedSession -> string) (disk_ok : nat -> bool).
Context (env : Env) (io : SaveIo) (tmp_validate : bool) (msg_text : SaveMsg -> string).
Context (ttl : Z) (wp rs : string -> option bool) (snap : MountinfoSnapshot) (clock page_clock : nat -> Z * Z).
Context (marker_removed : bool) (recycle_at : Z).
Local Abbreviation user_of now h s := (newest_user sha256 now h (st_web s)).
Local Abbreviation session := (with_session sha256 to_json disk_ok).
Local Abbreviation page := (render (D := D) env msg_text ttl wp rs snap page_clock).

(** Everything a request may change but the verdict cache and the sessions'
    bookkeeping. *)
Definition core (s : Site) : option (string * Z) * NfsKlldapConfig * NfsKlldapConfig * LatchState :=
  (cd_conf (st_disk s), sh_config (st_shared s), sh_fs (st_shared s), st_latch s).
Lemma session_spec {A} (missing : string -> A) now t h body s :
  now <= t ->
  let r := session missing now h body s in
  match user_of now h s with
  | None => (exists target, fst r = missing target) /\ core (snd r) = core s /\ alive t (st_web (snd r)) = alive t (st_web s)
  | Some u => exists s1, r = body u s1 /\ core s1 = core s /\ st_disk s1 = st_disk s /\ st_shared s1 = st_shared s
                /\ alive t (st_web s1) = alive t (st_web s)
  end.
Proof.
  intros Ht. cbn zeta. unfold with_session. destruct (require_auth_run sha256 to_json disk_ok now t h (st_web s) Ht) as (E & Ea & _).
  destruct (require_auth _ _ _ now h (st_web s)) as [r w]. cbn in E, Ea. subst r.
  destruct (user_of now h s) as [u|]; [|by split; [eexists|]]. eexists. by split_and!.
Qed.
Lemma page_spec user m e s : exists p s', page user m e s = (SettingsPage m p, s') /\ core s' = core s /\ st_web s' = st_web s.
Proof. unfold render. destruct (build_settings_template _ _ _ _ _ _ _ _ _ _ _) as [p caps]. by eexists _, _. Qed.
Lemma write_spec content s :
  let '(r, states) := atomic_write_config io content (st_disk s) in
  match r with
  | Ok _ => conf_text (st_disk (on_disk states s)) = Some content
  | Err _ => core (on_disk states s) = core s
  end.
Proof.
  unfold atomic_write_config, write_tmp, conf_text. by destruct (io_write io), (io_rename io), (io_chmod io).
Qed.
(** What a page leaves for the reply. *)
Lemma page_keeps user m e s1 s w (acc : string -> LatchState -> Prop) :
  st_web s1 = w ->
  (if wrote (SettingsPage m (fst (build_settings_template (D := D) env ttl wp rs snap page_clock None None None e ∅)))
   then exists text, conf_text (st_disk s1) = Some text /\ acc text (st_latch s1) else core s1 = core s) ->
  let '(reply, s') := page user m e s1 in
  st_web s' = w /\ if wrote reply then exists text, conf_text (st_disk s') = Some text /\ acc text (st_latch s') else core s' = core s.
Proof.
  intros <- H. destruct (page_spec user m e s1) as (p & s' & -> & Hc & Hw). split; [done|].
  injection Hc as E1 E2 E3 E4. cbn in *. unfold conf_text in *. rewrite E1, E4.
  destruct m; cbn in *; try done; unfold core; by rewrite E1, E2, E3, E4.
Qed.

(** The shares asking for ACLs passed a fresh probe, or lie on no known mount. *)
Lemma acl_refused_none l : forall i m m',
  acl_refused ttl wp rs snap clock i l m = (None, m') ->
  Forall (fun s => sh_enable_acl s = Some true ->
    exists j m0, let o := fst (verdict_for_snapshot ttl wp rs (clock j).1 (clock j).2 snap (serve_path_for s) (serve_path_for s) false true m0) in
      fstype (po_caps o) = "unknown" \/ po_verdict o <> Incapable) l.
Proof.
  induction l as [|s l IH]; intros i m m' H; [constructor|]. cbn in H. case_bool_decide as Ee.
  - destruct (verdict_for_snapshot _ _ _ _ _ _ _ _ _ _ m) as [o m1] eqn:Ev.
    destruct (negb _ && bool_decide _) eqn:Er; [done|]. constructor; [|by eapply IH]. intros _.
    exists i, m. cbv zeta. rewrite Ev. cbn [fst]. apply andb_false_iff in Er as [Hu|Hv].
    + left. apply negb_false_iff in Hu. by apply seqb_eq.
    + right. by apply bool_decide_eq_false in Hv.
  - constructor; [done|]. by eapply IH.
Qed.

Local Abbreviation raw_save := (settings_save_raw (D := D) sha256 to_json disk_ok env io tmp_validate msg_text ttl wp rs snap page_clock).
Local Abbreviation structured_save := (settings_save_structured (D := D) sha256 to_json disk_ok env io msg_text ttl wp rs snap page_clock).
Local Abbreviation shares_save := (settings_save_shares (D := D) sha256 to_json disk_ok env io msg_text ttl wp rs snap clock page_clock
                                     marker_removed recycle_at).
(** The share's mount is unknown, or a fresh probe did not find it unable to
    hold ACLs. *)
Definition acl_passed (s : Share) : Prop :=
  sh_enable_acl s = Some true ->
  exists j m0, let o := fst (verdict_for_snapshot ttl wp rs (clock j).1 (clock j).2 snap (serve_path_for s) (serve_path_for s) false true m0) in
    fstype (po_caps o) = "unknown" \/ po_verdict o <> Incapable.
Definition loaded_or_default (s : Site) : NfsKlldapConfig :=
  match load (D := D) env (conf_text (st_disk s)) with Ok c => c | Err _ => default_config end.
Definition raw_accepted (raw : string) (s : Site) (text : string) (l : LatchState) : Prop :=
  text = raw /\ is_ok (load (D := D) env (Some raw)) = true /\ l = st_latch s.
Definition form_accepted (form : Form) (s : Site) (text : string) (l : LatchState) : Prop :=
  is_ok (validate_and_derive env (apply_structured_form_to_config form (validated_or_default (D := D) env (site_text s)))) = true
  /\ text = doc_text (apply_structured_form_to_doc form (parse_or_empty (D := D) (site_text s))) /\ l = st_latch s.
Definition shares_accepted (form : Form) (s : Site) (text : string) (l : LatchState) : Prop :=
  let doc := parse_or_empty (D := D) (site_text s) in
  let new := submitted_shares (loaded_or_default s) doc form in
  exists cfg, validate_and_derive env (replace_shares (loaded_or_default s) new) = Ok cfg
    /\ text = doc_text (apply_shares_to_doc (shares cfg) doc) /\ Forall acl_passed new
    /\ l = snd (try_schedule_service_recycle marker_removed recycle_at SharesApply (st_latch s)).
(** C9: a save replaces the file only for a live session, and by one text.  A raw
    save writes the submitted text, and only if that text loads.  A structured
    save writes the document of the file with the form applied, and only if the
    configuration of the file with the form applied validates; the written text
    itself is not loaded, and neither of these two probes for ACLs.  A save of the
    shares writes the shares as validation left them into the document, and only
    if the configuration with them validates and a fresh probe found none of those
    that switch ACLs on to lie on a known mount that cannot hold them (an unknown
    mount or an inconclusive probe is let through); it alone asks for a recycle.
    Every other reply leaves the file, the configurations in memory and the latch
    as they were, and no save changes a live session. *)
Theorem save_guarded now t h s raw form sform :
  now <= t ->
  let check (accepted : string -> LatchState -> Prop) (r : SaveReply * Site) :=
    let '(reply, s') := r in
    alive t (st_web s') = alive t (st_web s)
    /\ if wrote reply
       then is_Some (user_of now h s) /\ exists text, conf_text (st_disk s') = Some text /\ accepted text (st_latch s')
       else core s' = core s in
  check (raw_accepted raw s) (raw_save raw now h s) /\ check (form_accepted form s) (structured_save form now h s)
  /\ check (shares_accepted sform s) (shares_save sform now h s).
Proof.
  intros Ht check.
  assert (Hcheck : forall acc body, 
    (forall u s1, core s1 = core s -> st_disk s1 = st_disk s -> st_shared s1 = st_shared s ->
       let '(reply, s') := body u s1 in
       st_web s' = st_web s1 /\ if wrote reply then exists text, conf_text (st_disk s') = Some text /\ acc text (st_latch s') else core s' = core s) ->
    check acc (session SessionMissing now h body s)).
  { intros acc body Hb. pose proof (session_spec SessionMissing now t h body s Ht) as Hs. cbv zeta in Hs. unfold check.
    destruct (session SessionMissing now h body s) as [reply s'].
    destruct (user_of now h s) as [u|].
    - destruct Hs as (s1 & E & Hc & Hd & Hsh & Ha). specialize (Hb u s1 Hc Hd Hsh). rewrite <- E in Hb. destruct Hb as [Hw Hb].
      split; [by rewrite Hw|]. destruct (wrote reply); [|done]. split; [by eexists|done].
    - destruct Hs as ((target & E) & Hc & Ha). cbn in E, Hc, Ha. subst reply. by split. }
  assert (Hlatch : forall a b : Site, core a = core b -> st_latch a = st_latch b) by (intros a b E; by injection E).
  split; [|split].
  - apply Hcheck. intros u s1 Hc Hd Hsh. destruct tmp_validate; [|by split].
    destruct (load env (Some raw)) as [c|e] eqn:El; [|by split].
    pose proof (write_spec raw s1) as Hw. destruct (atomic_write_config io raw (st_disk s1)) as [[[]|e] states].
    + apply page_keeps; [done|]. exists raw. unfold raw_accepted. rewrite El. split_and!; [done..|]. exact (Hlatch _ _ Hc).
    + split; [done|]. cbn. by rewrite Hw.
  - apply Hcheck. intros u s1 Hc Hd Hsh. unfold site_text. rewrite Hd. fold (site_text s).
    destruct (validate_and_derive env _) as [c|e] eqn:El; [|by apply page_keeps].
    set (text := doc_text _). pose proof (write_spec text s1) as Hw. rewrite Hd in Hw.
    destruct (atomic_write_config io text (st_disk s)) as [[[]|e] states]; (apply page_keeps; [done|]); [|by rewrite <- Hc].
    exists text. unfold form_accepted. rewrite El. split_and!; [done..|]. exact (Hlatch _ _ Hc).
  - apply Hcheck. intros u s1 Hc Hd Hsh. unfold site_text. rewrite Hd. fold (site_text s) (loaded_or_default s).
    set (new := submitted_shares _ _ _). rewrite Hsh. destruct (acl_refused _ _ _ _ _ _ new _) as [refused m] eqn:Er.
    assert (Hcaps : core (on_caps m s1) = core s) by (rewrite <- Hc; done).
    destruct refused as [r|]; [by apply page_keeps|].
    destruct (validate_and_derive env (replace_shares _ new)) as [cfg|e] eqn:Ev; [|by apply page_keeps].
    set (text := doc_text _). pose proof (write_spec text (on_caps m s1)) as Hw. change (st_disk (on_caps m s1)) with (st_disk s1) in *. rewrite Hd in Hw |- *.
    destruct (atomic_write_config io text (st_disk s)) as [[[]|e] states]; [|apply page_keeps; [done|]; by rewrite <- Hcaps].
    unfold apply_saved_shares. destruct (reload_config_and_fs _ _) as [r shared].
    apply page_keeps; [done|]. exists text. split; [exact Hw|]. exists cfg. split_and!; try done.
    + by eapply acl_refused_none.
    + cbn. by rewrite <- (Hlatch _ _ Hc).
Qed.
End Spec.

(** ** The saved shares are what the next start loads *)
Section Reload.
Context {D : Type} `{!TomlDoc D} `{!TomlLaws D} `{!HashIter string}.
Context (sha256 : Bytes -> Bytes) (to_json : gmap string PersistedSession -> string) (disk_ok : nat -> bool).
Context (env : Env) (io : SaveIo) (msg_text : SaveMsg -> string).
Context (ttl : Z) (wp rs : string -> option bool) (snap : MountinfoSnapshot) (clock page_clock : nat -> Z * Z).
Context (marker_removed : bool) (recycle_at : Z).

Lemma load_inv text old :
  load (D := D) env (Some text) = Ok old ->
  exists d c, parse_doc text = Some d /\ config_of_items (fun k => item k d) = Some c
    /\ validate_and_derive env c = Ok (with_warnings old []).
Proof.
  unfold load, load_unchecked, validated. intros H. apply rbind_ok in H as (c0 & Hc & Hv).
  destruct (parse_str text) as [c|] eqn:Ep; [|done]. injection Hc as ->.
  unfold parse_str in Ep. apply bind_Some in Ep as (d & Hd & Ec). unfold config_of_doc in Ec.
  apply bind_Some in Ec as (c & Hc & [= <-]). exists d, c. split_and!; [done..|].
  destruct (validate_and_derive env _) as [c'|] eqn:Ev; [|done]. injection Hv as ->.
  apply (validate_with_warnings _ _ _ []) in Ev.
  assert (Hw : share_warnings c = []) by (by apply config_of_items_some in Hc as (? & ? & ? & ? & ? & ? & ? & ? & ? & ? & ? & ? & ? & Hc); deexs; subst c).
  replace c with (with_warnings (with_warnings c (detect_share_unknown_keys_value (tree_of (default [] (share_tables (item "shares" d)))))) []); [exact Ev|].
  destruct c. cbn in Hw. by rewrite Hw.
Qed.
Lemma read_shares_fit (it : string -> option Item) c : config_of_items it = Some c -> Forall unbounded_fit (shares c).
Proof.
  intros H. apply config_of_items_some in H as (? & ? & ? & ? & ? & ? & ? & ? & ? & ? & ? & tables & shs & H).
  destruct H as (_ & _ & _ & _ & _ & _ & _ & _ & _ & _ & _ & _ & Hs & ->). cbn. revert shs Hs.
  induction tables as [|t l IH]; intros shs Hs; cbn in Hs; [by injection Hs as <-|].
  apply bind_Some in Hs as (s & Hs & (r & Hr & [= <-])%bind_Some). constructor; [by eapply read_share_fit|by apply IH].
Qed.
Definition expirations_fit (form : Form) : Prop :=
  Forall (fun s => match sh_manage_gids_expiration s with Some v => v <= i64_max | None => True end)
    (collect_shares_from_structured_form form).
Lemma strip_fields s : sh_name (strip_auto_pseudo s) = sh_name s /\ sh_manage_gids_expiration (strip_auto_pseudo s) = sh_manage_gids_expiration s
  /\ sh_attr_expiration_secs (strip_auto_pseudo s) = sh_attr_expiration_secs s.
Proof. unfold strip_auto_pseudo. destruct (sh_pseudo_path s); [|done]. by destruct (seqb _ _). Qed.
Lemma submitted_ok old (d : D) form :
  Forall unbounded_fit (shares old) -> expirations_fit form ->
  Forall (fun s => trim (sh_name s) = sh_name s /\ unbounded_fit s) (submitted_shares old d form).
Proof.
  intros Hold Hexp. unfold submitted_shares. apply Forall_forall.
  intros s (i & x & -> & Hx%list_elem_of_lookup_2)%elem_of_lookup_imap_1.
  apply list_elem_of_fmap in Hx as (y & -> & Hy). unfold expirations_fit in Hexp. rewrite Forall_forall in Hexp. specialize (Hexp y Hy).
  unfold collect_shares_from_structured_form in Hy. apply list_elem_of_fmap in Hy as (r & -> & Hr).
  apply form_rows_elem in Hr as (k & v & _ & Hr). pose proof (share_row_fields _ _ _ _ Hr) as (_ & _ & _ & Hn & _).
  destruct (strip_fields (row_share r)) as (En & Ee & Ea). cbn in En, Ee, Ea, Hexp.
  assert (Hrow : match fr_manage_gids_expiration r with Some v => 0 <= v <= i64_max | None => True end).
  { destruct (fr_manage_gids_expiration r) as [z|] eqn:Ez; [|done]. split; [|done].
    unfold share_row in Hr. apply bind_Some in Hr as (suf & _ & (idx & _ & Hr)%bind_Some). cbv zeta in Hr.
    destruct (_ || _); [done|]. injection Hr as <-. cbn in Ez. apply bind_Some in Ez as (q & _ & Hq). by apply parse_uint_range in Hq as [Hq _]. }
  unfold keep_raw_fields. set (s0 := strip_auto_pseudo (row_share r)) in *.
  assert (Hold' : forall o, old_share old i s0 = Some o -> unbounded_fit o).
  { unfold old_share. intros o Ho. rewrite Forall_forall in Hold. destruct (shares old !! i) eqn:E.
    - injection Ho as <-. apply Hold. by apply list_elem_of_lookup_2 in E.
    - apply Hold. apply find_some in Ho as [Ho _]. by apply list_elem_of_In. }
  destruct (old_share old i s0) as [o|]; cbn.
  - specialize (Hold' o eq_refl) as [_ Ho]. unfold unbounded_fit. cbn. rewrite En, Ee, Ea. cbn. split; [rewrite Hn; apply trim_idem|done].
  - unfold unbounded_fit. rewrite En, Ee, Ea. split; [rewrite Hn; apply trim_idem|done].
Qed.
(** The validated shares do not move the container root. *)
Lemma replaced_root c c0 old l cfg :
  validate_and_derive env c0 = Ok old -> c = replace_shares old l -> validate_and_derive env c = Ok cfg ->
  container_root_of cfg = container_root_of old.
Proof.
  intros H0 -> H. pose proof (env_fixed _ _ _ H0) as Henv.
  apply validate_inv in H0 as (_ & _ & _ & _ & _ & _ & _ & _ & Hr0 & _).
  apply validate_inv in H as (_ & _ & _ & _ & _ & _ & _ & _ & Hr & _).
  change (apply_core_env_overrides env (replace_shares old l)) with (replace_shares (apply_core_env_overrides env old) l) in Hr.
  rewrite Henv in Hr. cbn in Hr. unfold container_root_of. rewrite Hr. do 2 f_equal.
  rewrite Hr0. destruct (is_empty (trim (storage_container_root _))) eqn:E; [done|]. by rewrite E.
Qed.
(** The file written for validated shares reads as the configuration of before
    with these shares. *)
Lemma written_shares_load text old cfg form d :
  load (D := D) env (Some text) = Ok old -> parse_doc text = Some d -> expirations_fit form ->
  validate_and_derive env (replace_shares old (submitted_shares old d form)) = Ok cfg ->
  exists w, load (D := D) env (Some (doc_text (apply_shares_to_doc (shares cfg) d)))
            = Ok (with_warnings (replace_shares old (map persisted (shares cfg))) w).
Proof.
  intros Hl Hd Hexp Hv. destruct (load_inv _ _ Hl) as (d0 & c & Hd0 & Hc & Hv0). rewrite Hd in Hd0. injection Hd0 as <-.
  pose proof (validate_shares_part _ _ _ Hv0) as Hsh0. cbn [shares with_warnings] in Hsh0.
  assert (Hfit0 : Forall unbounded_fit (shares old)) by (eapply validated_unbounded; [exact Hsh0|]; by apply (read_shares_fit (fun k => item k d))).
  pose proof (submitted_ok old d form Hfit0 Hexp) as Hsub. rewrite Forall_and in Hsub. destruct Hsub as [Hnames Hunb].
  pose proof (validate_shares_part _ _ _ Hv) as Hsh. cbn [shares replace_shares] in Hsh.
  pose proof (replaced_root (replace_shares (with_warnings old []) (submitted_shares old d form)) _ _ (submitted_shares old d form)
    (with_warnings cfg []) Hv0 eq_refl) as Hroot.
  assert (Hvw : validate_and_derive env (replace_shares (with_warnings old []) (submitted_shares old d form)) = Ok (with_warnings cfg [])).
  { exact (validate_with_warnings env _ _ [] Hv). }
  specialize (Hroot Hvw). change (container_root_of (with_warnings cfg [])) with (container_root_of cfg) in Hroot.
  rewrite Hroot in Hsh. pose proof (validated_fit _ _ _ Hsh Hunb) as Hfit. pose proof (validated_persisted _ _ _ Hsh Hnames) as Hpers.
  pose proof (validate_with_shares _ _ _ _ _ Hv0 Hpers) as Hfinal.
  destruct (shares_save_frame (shares cfg) d (parse_ok _ _ Hd) Hfit) as (Hframe & Hread & Hok).
  destruct (text_parses _ Hok) as (d' & Hd' & Hm).
  assert (Hc' : config_of_items (fun k => item k d') = Some (replace_shares c (map persisted (shares cfg)))).
  { apply (config_replace_shares (fun k => item k d)); [done| |].
    - intros k Hk. by rewrite Hm, Hframe.
    - by rewrite (meaning_shares _ _ (Hm "shares")). }
  eexists. unfold load, load_unchecked, validated, parse_str. rewrite Hd'. cbn [mbind option_bind]. unfold config_of_doc. rewrite Hc'.
  cbn [mbind option_bind rbind]. by rewrite (validate_with_warnings _ _ _ _ Hfinal).
Qed.

Local Abbreviation shares_save := (settings_save_shares (D := D) sha256 to_json disk_ok env io msg_text ttl wp rs snap clock page_clock
                                     marker_removed recycle_at).
(** C10: let the file load, and let every submitted expiration of managed groups be
    at most 2^63 - 1, the largest integer of TOML (a larger one is accepted, and
    the file that is written cannot be read).  After a save of the shares that
    writes the file, the next start loads the configuration of before with
    exactly the shares that validation accepted, in order, each as the file keeps
    it ([persisted]); the handlers and the permission manager work with that same
    configuration already, and a recycle is pending. *)
Theorem saved_shares_load now h s form old failed page s' :
  load (D := D) env (conf_text (st_disk s)) = Ok old -> expirations_fit form ->
  shares_save form now h s = (SettingsPage (SavedShares failed) page, s') ->
  exists cfg w,
    validate_and_derive env (replace_shares old (submitted_shares old (parse_or_empty (D := D) (site_text s)) form)) = Ok cfg
    /\ let c := with_warnings (replace_shares old (map persisted (shares cfg))) w in
       load (D := D) env (conf_text (st_disk s')) = Ok c /\ failed = false
       /\ sh_config (st_shared s') = c /\ sh_fs (st_shared s') = c /\ restart_requested (st_latch s') <> None.
Proof.
  intros Hold Hexp H.
  unfold settings_save_shares in H.
  match type of H with with_session _ _ _ _ _ _ ?b _ = _ =>
    pose proof (session_spec sha256 to_json disk_ok SessionMissing now now h b s (Z.le_refl _)) as Hs' end.
  cbv zeta in Hs'. rewrite H in Hs'. destruct (newest_user sha256 now h (st_web s)) as [u|];
    [|by destruct Hs' as ((target & E) & _)].
  destruct Hs' as (s1 & E & Hc & Hd & Hsh & _). cbv beta in E. unfold site_text in E. rewrite Hd in E. fold (site_text s) in E.
  rewrite Hold, Hsh in E. set (new := submitted_shares _ _ _) in *.
  destruct (acl_refused _ _ _ _ _ _ new _) as [refused m]. unfold render in E.
  destruct refused as [r|]; [by destruct (build_settings_template _ _ _ _ _ _ _ _ _ _ _)|].
  destruct (validate_and_derive env (replace_shares old new)) as [cfg|e] eqn:Ev; [|by destruct (build_settings_template _ _ _ _ _ _ _ _ _ _ _)].
  change (st_disk (on_caps m s1)) with (st_disk s1) in E. rewrite Hd in E.
  set (text := doc_text _) in *. pose proof (write_spec io text (on_caps m s1)) as Hw. change (st_disk (on_caps m s1)) with (st_disk s1) in Hw.
  rewrite Hd in Hw. destruct (atomic_write_config io text (st_disk s)) as [[[]|e] states];
    [|by destruct (build_settings_template _ _ _ _ _ _ _ _ _ _ _)].
  destruct (conf_text (st_disk s)) as [old_text|] eqn:Et; [|done].
  assert (Hst : site_text s = old_text) by (unfold site_text; by rewrite Et).
  destruct (load_inv _ _ Hold) as (d & c0 & Hp & _).
  assert (Hpe : parse_or_empty (D := D) (site_text s) = d) by (unfold parse_or_empty; by rewrite Hst, Hp).
  subst new. rewrite Hpe in Ev. destruct (written_shares_load _ _ _ _ _ Hold Hp Hexp Ev) as (w & Hload).
  exists cfg, w. split; [done|]. unfold apply_saved_shares in E. rewrite Hw in E. cbn [fmap option_fmap option_map] in E.
  unfold load_config_from in E. subst text. rewrite Hpe in Hw, E. rewrite Hload in E. cbn [reload_config_and_fs is_ok negb] in E.
  destruct (build_settings_template _ _ _ _ _ _ _ _ _ _ _) as [p caps]. injection E as -> -> ->. cbv zeta.
  cbn [on_caps st_shared sh_config sh_fs st_latch st_disk]. unfold conf_text in *. split_and!; try done.
  - exact (eq_trans (f_equal (load env) Hw) Hload).
  - unfold try_schedule_service_recycle. destruct (restart_requested (st_latch s1)) as [[]|] eqn:Er; cbn; by rewrite ?Er.
Qed.
End Reload.

(** ** A save *)
Definition demo_site (doc : ModelDoc) : Site := {|
  st_web := snd (demo_web_login "right");
  st_shared := {| sh_config := default_config; sh_fs := default_config; sh_caps := ∅ |};
  st_latch := idle; st_disk := {| cd_conf := Some (doc_text doc, 384); cd_tmp := None |} |}.
Definition all_written : SaveIo := {| io_write := Written; io_rename := true; io_chmod := true; io_new_mode := 420 |}.
Definition no_text (m : SaveMsg) : string := "".
Definition demo_save (doc : ModelDoc) (form : Form) : SaveReply * Site :=
  settings_save_shares (D := ModelDoc) (HashIter0 := iter_forward) demo_hash demo_json (fun _ => true) no_env all_written no_text (300 * SECS)
    (tools (Some true)) (tools None) (Some ext4_info) (fun _ => (0, 0)) (fun _ => (0, 0)) true 5 form (11 * NANOS)
    (demo_headers "session=tok2") (demo_site doc).
Definition saved_of (r : SaveReply * Site) : list Share := shares (sh_config (st_shared (snd r))).
Lemma save_guarded_witness :
  let '(reply, s') := demo_save demo_doc two_shares in
  wrote reply = true /\ alive (20 * NANOS) (st_web s') = alive (20 * NANOS) (st_web (demo_site demo_doc))
  /\ exists text, conf_text (st_disk s') = Some text
     /\ shares_accepted (D := ModelDoc) (HashIter0 := iter_forward) no_env (300 * SECS) (tools (Some true)) (tools None) (Some ext4_info)
          (fun _ => (0, 0)) true 5 two_shares (demo_site demo_doc) text (st_latch s').
Proof.
  pose proof (save_guarded (D := ModelDoc) (HashIter0 := iter_forward) demo_hash demo_json (fun _ => true) no_env all_written true no_text
    (300 * SECS) (tools (Some true)) (tools None) (Some ext4_info) (fun _ => (0, 0)) (fun _ => (0, 0)) true 5 (11 * NANOS) (20 * NANOS)
    (demo_headers "session=tok2") (demo_site demo_doc) "" ∅ two_shares ltac:(discriminate)) as H.
  cbv zeta in H. destruct H as (_ & _ & H).
  change (settings_save_shares _ _ _ _ _ _ _ _ _ _ _ _ _ _ _ _ _ (demo_site demo_doc)) with (demo_save demo_doc two_shares) in H.
  assert (Hw : wrote (fst (demo_save demo_doc two_shares)) = true) by (vm_compute; reflexivity).
  destruct (demo_save demo_doc two_shares) as [reply s']. cbn [fst] in Hw. rewrite Hw in H. destruct H as (Ha & _ & H).
  exact (conj Hw (conj Ha H)).
Defined.
Lemma demo_expirations_fit : expirations_fit (HashIter0 := iter_forward) two_shares.
Proof.
  unfold expirations_fit. apply (Forall_impl _ _ _ demo_shares_fit). unfold numbers_fit. intros s Hs.
  destruct (sh_manage_gids_expiration s); [lia|done].
Qed.
Lemma saved_shares_load_witness :
  exists old c, load (D := ModelDoc) no_env (conf_text (st_disk (demo_site demo_doc))) = Ok old
    /\ map sh_name (shares old) = ["movies"]
    /\ load (D := ModelDoc) no_env (conf_text (st_disk (snd (demo_save demo_doc two_shares)))) = Ok c
    /\ sh_fs (st_shared (snd (demo_save demo_doc two_shares))) = c
    /\ map sh_name (saved_of (demo_save demo_doc two_shares)) = ["movies"; "music"].
Proof.
  destruct (load (D := ModelDoc) no_env (conf_text (st_disk (demo_site demo_doc)))) as [old|e] eqn:El; [|vm_compute in El; discriminate].
  assert (Hreply : exists page, fst (demo_save demo_doc two_shares) = SettingsPage (SavedShares false) page)
    by (eexists; vm_compute; reflexivity).
  destruct Hreply as (page & Hreply).
  assert (Hexp : expirations_fit (HashIter0 := iter_forward) two_shares) by exact demo_expirations_fit.
  destruct (saved_shares_load (D := ModelDoc) (HashIter0 := iter_forward) demo_hash demo_json (fun _ => true) no_env all_written no_text
    (300 * SECS) (tools (Some true)) (tools None) (Some ext4_info) (fun _ => (0, 0)) (fun _ => (0, 0)) true 5 (11 * NANOS)
    (demo_headers "session=tok2") (demo_site demo_doc) two_shares old false page (snd (demo_save demo_doc two_shares)) El Hexp)
    as (cfg & w & _ & Hc & _ & _ & Hfs & _).
  { fold (demo_save demo_doc two_shares). rewrite <- Hreply. apply surjective_pairing. }
  eexists _, _. split; [reflexivity|]. split; [|split; [exact Hc|split; [exact Hfs|]]].
  - apply (f_equal (fun r => match r with Ok c => map sh_name (shares c) | Err _ => [] end)) in El. vm_compute in El |- *. done.
  - vm_compute. reflexivity.
Defined.
(** The first of two shares is removed: the second one, now the first row, takes
    the [source_path] of the removed share. *)
Definition staged_doc : ModelDoc := {|
  md_items := list_to_map [
    ("ldap_uri", IValue (VStr "ldaps://klldap.example.org:6360"));
    ("sssd", ITable (list_to_map [("ldap_default_bind_dn", VStr "uid=admin,dc=x"); ("ldap_default_authtok", VStr "secret")]));
    ("shares", ITables [
       {| st_prefix := None; st_keys := list_to_map [("name", VStr "movies"); ("host_path", VStr "/media/movies");
            ("container_path", VStr "/export/movies"); ("source_path", VStr "/export/staging/movies")] |};
       {| st_prefix := None; st_keys := list_to_map [("name", VStr "music"); ("host_path", VStr "/media/music");
            ("container_path", VStr "/export/music")] |}])];
  md_trailing := "" |}.
Definition second_only : Form := form_of [
  ("share_name_1", "music"); ("share_host_1", "/media/music"); ("share_container_path_1", "/export/music")].
Theorem removed_share_lends_its_source :
  map (fun s => (sh_name s, sh_source_path s)) (saved_of (demo_save staged_doc second_only)) = [("music", Some "/export/staging/movies")].
Proof. vm_compute. reflexivity. Qed.
(** A row without a pseudo path is saved with the derived one written out, and
    from then on the path is explicit in the file. *)
Theorem auto_pseudo_written :
  let s' := snd (demo_save demo_doc two_shares) in
  share_pseudo_path_explicit_in_raw (parse_or_empty (D := ModelDoc) (site_text (demo_site demo_doc))) 0 = false
  /\ share_pseudo_path_explicit_in_raw (parse_or_empty (D := ModelDoc) (site_text s')) 0 = true.
Proof. vm_compute. auto. Qed.
(** A file that does not parse is not kept: what a save of the settings writes
    is a document with the form's keys alone. *)
Theorem unparsable_file_replaced {D} `{!TomlDoc D} form text :
  parse_doc (D := D) text = None ->
  apply_structured_form_to_doc form (parse_or_empty (D := D) text) = apply_structured_form_to_doc form empty_doc.
Proof. intros H. unfold parse_or_empty. by rewrite H. Qed.
(** Between the write and the rename the new text, the bind password included,
    lies in the temporary with the mode the process gives a new file. *)
Theorem temporary_is_not_private io content d :
  cd_tmp d = None -> io_write io = Written -> io_rename io = true ->
  Exists (fun d' => cd_tmp d' = Some (content, io_new_mode io)) (snd (atomic_write_config io content d)).
Proof.
  intros Ht Hw Hr. unfold atomic_write_config, write_tmp. rewrite Hw, Hr, Ht. cbn. apply Exists_cons_tl, Exists_cons_tl, Exists_cons_hd. done.
Qed.
