(* ===== verification/Host.v ===== *)
(** * The name and the realm of the host at run time

    Models [hostname.rs] of nfs-klldap-config: the two sources of the hostname
    that must agree, the hostname, realm and keytab variants that the daemon
    and the identity helper work with, the HOST_NFS mode; the fallback hostname
    of [validate.rs]; and [persist.rs]: the atomic replacement of a file and the
    test for a bind mount.  What the commands, the kernel, the environment and
    the files say is passed in. *)

From S2P Require Import Prelude RustStr Identity Config ConfigLoad.
Local Open Scope Z_scope.

(** A command that was run: not executed, or its exit code ([None] when a signal
    ended it) and what it printed. *)
Inductive CommandRun := NotExecuted (e : string) | Ran (code : option Z) (stdout stderr : string).
Definition succeeded (code : option Z) : bool := bool_decide (code = Some 0).

(** ** Two sources that must agree *)
Inductive HostnameSource := Command | ProcSysKernel.
Record HostnameObservation := { ho_value : string; ho_source : HostnameSource }.
Record ConsistentHostname := {
  ch_hostname : string; ch_primary : HostnameObservation; ch_secondary : HostnameObservation }.
Record HostnameInconsistency := {
  hi_primary : option HostnameObservation;
  hi_secondary : option HostnameObservation;
  hi_reason : string;
  hi_remediation : string;
  hi_detected_docker_default : bool;
}.
Definition observed (source : HostnameSource) (value : string) : HostnameObservation :=
  {| ho_value := value; ho_source := source |}.
Definition normalize_for_comparison (h : string) : string := trim_matches "." (trim h).
Definition STABLE_HOSTNAME_HELP : string :=
  join (String nl "")
    ["Use one of the two supported ways to give the container a stable hostname:"; "";
     "1. Recommended: Add --uts=host (or uts: host in compose)";
     "   The container will then see the real hostname of the Docker host."; "";
     "2. Explicit override: Add --hostname your-chosen-name when starting the";
     "   container AND set [server] hostname = " +:+ String "034" ("your-chosen-name" +:+ String "034" " in");
     "   nfs-klldap.conf (the override takes precedence for keytab reminders)"; "";
     "After fixing the container invocation, restart and verify that both sources";
     "now report the identical name in the setup wizard and WebUI logs."].
Definition confirm_consistent_hostname (primary_raw secondary_raw : string) : result string HostnameInconsistency :=
  let primary := normalize_for_comparison primary_raw in
  let secondary := normalize_for_comparison secondary_raw in
  let refuse reason remediation detected := Err {|
    hi_primary := Some (observed Command (trim primary_raw));
    hi_secondary := Some (observed ProcSysKernel (trim secondary_raw));
    hi_reason := reason; hi_remediation := remediation; hi_detected_docker_default := detected |} in
  if is_empty primary && is_empty secondary then
    refuse "Both hostname sources returned empty values."
      "This container has no usable hostname. Pass --hostname or use --uts=host." false
  else if negb (seqb primary secondary) then
    let detected := looks_like_docker_default_hostname primary || looks_like_docker_default_hostname secondary in
    refuse (if detected
            then "The two hostname sources disagree. One or both returned a Docker auto-generated container ID instead of your real host name."
            else "The two hostname sources disagree after normalization. The container's UTS namespace view is inconsistent.")
      STABLE_HOSTNAME_HELP detected
  else Ok primary.
Definition code_text (code : option Z) : string :=
  match code with Some n => "Some(" +:+ (if n <? 0 then "-" +:+ dec (- n) else dec n) +:+ ")" | None => "None" end.
(** The output of the [hostname] command. *)
Definition primary_hostname (run : CommandRun) : result string HostnameInconsistency :=
  let refuse reason remediation := Err {| hi_primary := None; hi_secondary := None; hi_reason := reason;
                                          hi_remediation := remediation; hi_detected_docker_default := false |} in
  match run with
  | Ran code out _ =>
      let s := trim out in
      if succeeded code || negb (is_empty s) then Ok s
      else refuse ("`hostname` command failed with status " +:+ code_text code)
             "Ensure the `hostname` package is installed inside the container image."
  | NotExecuted e =>
      refuse ("Failed to execute `hostname` command: " +:+ e)
        "The container image must contain the `hostname` binary (provided by the runtime image packages; see Dockerfile)."
  end.
Definition read_kernel_hostname (proc : result string string) : result string string :=
  match proc with Ok s => Ok (trim s) | Err e => Err e end.
Definition get_consistent_hostname (run : CommandRun) (proc : result string string) : result ConsistentHostname HostnameInconsistency :=
  primary <-? primary_hostname run ;;
  match read_kernel_hostname proc with
  | Err e => Err {| hi_primary := Some (observed Command primary); hi_secondary := None;
                    hi_reason := "Failed to read /proc/sys/kernel/hostname: " +:+ e;
                    hi_remediation := "This is unexpected on any modern Linux kernel. Check that /proc is mounted (it almost always is in containers).";
                    hi_detected_docker_default := false |}
  | Ok secondary =>
      confirmed <-? confirm_consistent_hostname primary secondary ;;
      Ok {| ch_hostname := confirmed; ch_primary := observed Command primary; ch_secondary := observed ProcSysKernel secondary |}
  end.

(** ** Names at run time *)
(** [internal::get] and [effective_hostname]. *)
Definition best_effort_hostname (env : Env) (proc : result string string) : option string :=
  match env "HOSTNAME" with
  | Some h => Some h
  | None => match read_kernel_hostname proc with Ok s => Some s | Err _ => None end
  end.
Definition effective_hostname (env : Env) (proc : result string string) (cfg : NfsKlldapConfig) : string :=
  match server_hostname cfg with
  | Some h => h
  | None => default "nfs-host" (best_effort_hostname env proc)
  end.
Definition effective_nfs_host_identity (env : Env) (proc : result string string) (cfg : NfsKlldapConfig) : NfsHostIdentity :=
  resolve_nfs_host_identity (effective_hostname env proc cfg) (effective_realm cfg).
Definition host_nfs_active (env : Env) (cfg : NfsKlldapConfig) : bool :=
  match host_nfs_from_env env with Some b => b | None => is_host_nfs cfg end.
Definition runtime_hostname (env : Env) (proc : result string string) (cfg : option NfsKlldapConfig) : string :=
  let configured := h ← cfg ≫= server_hostname; if is_empty (trim h) then None else Some (trim h) in
  match configured with
  | Some h => h
  | None =>
      match env_nonblank env "NFS_KLLDAP_SERVER_HOSTNAME" with
      | Some h => h
      | None =>
          match read_kernel_hostname proc with
          | Ok h => if is_empty h then "localhost" else h
          | Err _ => "localhost"
          end
      end
  end.
Section Realm.
Context (to_uppercase : string -> string).
(** [default_realm] of krb5.conf: the first line that sets it to something. *)
Definition krb5_realm_of_line (line : string) : option string :=
  '(key, v) ← split_once "=" (trim line);
  if seqb (trim key) "default_realm" && negb (is_empty (trim v)) then Some (trim v) else None.
Definition runtime_realm (env : Env) (krb5_conf : option string) (cfg : option NfsKlldapConfig) : string :=
  let configured := c ← cfg; let r := effective_realm c in
                    if is_empty (trim r) || eq_ignore_ascii_case (trim r) "example.com" then None else Some r in
  match configured with
  | Some r => to_uppercase r
  | None =>
      match env_nonblank env "NFS_KLLDAP_KERBEROS_REALM" with
      | Some r => to_uppercase r
      | None =>
          match krb5_conf ≫= (fun t => head (omap krb5_realm_of_line (lines t))) with
          | Some r => to_uppercase r
          | None => "EXAMPLE.COM"
          end
      end
  end.
Definition runtime_server_variants (env : Env) (proc : result string string) (krb5_conf : option string)
    (cfg : option NfsKlldapConfig) : list string :=
  match nfs_keytab_host_variants (runtime_hostname env proc cfg) (runtime_realm env krb5_conf cfg) with
  | [] => ["localhost"]
  | l => l
  end.
Definition runtime_host_identity (env : Env) (proc : result string string) (krb5_conf : option string)
    (cfg : option NfsKlldapConfig) : NfsHostIdentity :=
  resolve_nfs_host_identity (runtime_hostname env proc cfg) (runtime_realm env krb5_conf cfg).
(** Over the configuration on disk, or none when it does not load. *)
Section Disk.
Context {D : Type} `{!TomlDoc D}.
Definition load_runtime_config (env : Env) (contents : option string) : option NfsKlldapConfig :=
  match load (D := D) env contents with Ok c => Some c | Err _ => None end.
Definition runtime_realm_from_disk (env : Env) (krb5_conf contents : option string) : string :=
  runtime_realm env krb5_conf (load_runtime_config env contents).
Definition runtime_server_variants_from_disk (env : Env) (proc : result string string) (krb5_conf contents : option string) : list string :=
  runtime_server_variants env proc krb5_conf (load_runtime_config env contents).
Definition resolve_host_nfs_mode (env : Env) (contents : option string) : bool :=
  match host_nfs_from_env env with
  | Some b => b
  | None => match load (D := D) env contents with Ok c => is_host_nfs c | Err _ => false end
  end.
End Disk.
End Realm.

(** ** Files *)
(** The device numbers [metadata] reports, [None] when it fails. *)
Definition is_persistent_config (exists_ : bool) (dev root_dev : option Z) : bool :=
  exists_ && match dev, root_dev with Some d, Some r => negb (d =? r) | _, _ => false end.
Record WriteIo := { wi_open : bool; wi_written : option string (* what a failed write left *); wi_rename : bool; wi_remove : bool }.
Record FilePair := { fp_file : option string; fp_tmp : option string }.
(** The result, and the states on the way, the last one first. *)
Definition atomic_write (io : WriteIo) (content : string) (d : FilePair) : bool * list FilePair :=
  if negb (wi_open io) then (false, [d])
  else
    let opened := {| fp_file := fp_file d; fp_tmp := Some "" |} in
    match wi_written io with
    | Some part => (false, [{| fp_file := fp_file d; fp_tmp := Some part |}; opened; d])
    | None =>
        let filled := {| fp_file := fp_file d; fp_tmp := Some content |} in
        if wi_rename io then (true, [{| fp_file := Some content; fp_tmp := None |}; filled; opened; d])
        else (false, [{| fp_file := fp_file d; fp_tmp := if wi_remove io then None else Some content |}; filled; opened; d])
    end.

(** ** Properties *)
(** The hostname is accepted exactly when both sources give the same one. *)
Lemma confirm_spec p s h :
  confirm_consistent_hostname p s = Ok h <-> normalize_for_comparison p = h /\ normalize_for_comparison s = h /\ h <> "".
Proof.
  unfold confirm_consistent_hostname. split.
  - destruct (is_empty _ && _) eqn:E; [done|]. destruct (seqb _ _) eqn:Es; [|done]. intros [= <-].
    apply seqb_eq in Es. rewrite <- Es in E |- *. split_and!; [done..|]. rewrite andb_diag in E. by apply is_empty_false.
  - intros (-> & -> & Hh%is_empty_false). by rewrite Hh, seqb_refl.
Qed.
Lemma consistent_hostname_agrees run proc c :
  get_consistent_hostname run proc = Ok c ->
  exists s, read_kernel_hostname proc = Ok s /\ normalize_for_comparison (ho_value (ch_primary c)) = ch_hostname c
    /\ normalize_for_comparison s = ch_hostname c /\ ch_hostname c <> "".
Proof.
  unfold get_consistent_hostname. intros (p & _ & H)%rbind_ok. destruct (read_kernel_hostname proc) as [s|]; [|done].
  apply rbind_ok in H as (h & (Hp & Hs & Hh)%confirm_spec & [= <-]). by exists s.
Qed.
Lemma runtime_hostname_nonblank env proc cfg :
  let h := runtime_hostname env proc cfg in trim h = h /\ h <> "".
Proof.
  cbn. unfold runtime_hostname. destruct (cfg ≫= server_hostname) as [h|]; cbn;
    [destruct (is_empty (trim h)) eqn:E; cbn; [|rewrite trim_idem; split; [done|by apply is_empty_false]]|];
    (destruct (env_nonblank env _) as [e|] eqn:Ee;
      [apply env_nonblank_trim in Ee as [? ?%is_empty_false]; done|]);
    unfold read_kernel_hostname; (destruct proc as [s|]; [|done]); destruct (is_empty (trim s)) eqn:E'; try done;
    rewrite trim_idem; (split; [done|by apply is_empty_false]).
Qed.
Lemma runtime_variants_some up env proc krb5 cfg : runtime_server_variants up env proc krb5 cfg <> [].
Proof. unfold runtime_server_variants. by destruct (nfs_keytab_host_variants _ _). Qed.
(** The file is the old one or the new one at every moment, the new one exactly
    when the write succeeds. *)
Lemma atomic_write_spec io content d :
  let '(ok, states) := atomic_write io content d in
  Forall (fun s => fp_file s = fp_file d \/ fp_file s = Some content) states
  /\ fp_file <$> head states = Some (if ok then Some content else fp_file d).
Proof.
  unfold atomic_write. destruct (wi_open io), (wi_written io), (wi_rename io); cbn; rewrite !Forall_cons;
    split_and!; auto using Forall_nil_2.
Qed.
Example host_demo :
  confirm_consistent_hostname "aurora." "aurora" = Ok "aurora"
  /\ (match confirm_consistent_hostname "aurora" "d81b4e782f65" with Err e => hi_detected_docker_default e | Ok _ => false end) = true
  /\ runtime_realm to_ascii_uppercase no_env (Some (String nl "  default_realm = ex.org")) None = "EX.ORG".
Proof. vm_compute. auto. Qed.
