(* ===== verification/Probes.v ===== *)
(** * The LDAP probes of the setup and of the diagnostics

    Models the probes of [startup.rs] that the wizard, the settings page and the
    startup check share: the test of the configuration volume, the reachability
    of the LDAP server and the bind, with the command lines they run and the
    reports they show.  What the commands answer is passed in. *)

From S2P Require Import Prelude RustStr Identity Config Resolver LdapClient Host.
Local Open Scope Z_scope.

Definition quoted (s : string) : string := String "034" (s +:+ String "034" "").
Definition nls (l : list string) : string := join (String nl "") l.

(** ** The configuration volume *)
(** [bind_mounted] is [is_persistent_config]; the file is created in the
    directory of the configuration. *)
Definition check_persistent_writable (env : Env) (bind_mounted can_create : bool) : bool :=
  if bool_decide (env "NFS_KLLDAP_TEST_PERSISTENT" = Some "1") then can_create
  else if negb bind_mounted then false
  else can_create.
Definition format_volume_probe (parent : string) (ok : bool) : string :=
  nls ["<strong>Command</strong>"; "check persistent writable config at " +:+ parent; ""; "<strong>Status</strong>";
       if ok then "✓ Persistent volume detected and writable."
       else nls ["❌ Persistent volume not detected or not writable."; ""; "→ Common fixes:";
                 "  - Bind-mount a host directory at /config (e.g. -v /path/on/host:/config)";
                 "  - Ephemeral overlay storage loses changes on restart";
                 "  - Ensure the mount is writable by root inside the container"]].

(** ** Reachability *)
Inductive LdapReachability := Reachable | DnsFailure (detail : string) | Unreachable (detail : string).
Definition is_reachable (r : LdapReachability) : bool := match r with Reachable => true | _ => false end.
Definition user_message (r : LdapReachability) : string :=
  match r with
  | Reachable => "LDAP server is reachable (DNS + TCP port open)."
  | DnsFailure detail => "DNS lookup failed: " +:+ detail
  | Unreachable detail => "Port unreachable: " +:+ detail
  end.
Fixpoint drop_nondigits (s : string) : string :=
  match s with String c r => if is_ascii_digit c then s else drop_nondigits r | "" => "" end.
Definition ldap_uri_port (uri : string) : Z :=
  default 636 (parse_uint u16_max (srev (drop_nondigits (srev (after_last ":" uri))))).
Definition format_reachability_probe (host uri : string) (r : LdapReachability) : string :=
  let port := dec (ldap_uri_port uri) in
  nls ["<strong>Command</strong>"; "getent hosts " +:+ host; "timeout 4 nc -w 3 -zv " +:+ host +:+ " " +:+ port; "";
       "<strong>Status</strong>";
       match r with
       | Reachable => "✓ Basic TCP reachability OK (DNS + port open)"
       | DnsFailure detail =>
           nls ["❌ DNS FAILURE"; "Could not resolve hostname '" +:+ host +:+ "'"; "Detail: " +:+ detail; "";
                "→ Common fixes:"; "  - Check spelling / DNS records on the Docker host";
                "  - Container may need --network=host or --dns=..."; "  - Test from host: getent hosts " +:+ host]
       | Unreachable detail =>
           nls ["❌ PORT UNREACHABLE (resolved successfully)"; "Detail: " +:+ detail; ""; "→ Common fixes:";
                "  - Is the port correct? (ldaps usually 636, ldap usually 389)";
                "  - Firewall / SELinux blocking from Docker host?";
                "  - Try from the Docker host: nc -zv " +:+ host +:+ " " +:+ port]
       end].
(** [getent] runs under a time limit; when it cannot be executed the port is
    tried all the same. *)
Definition or_text (s dflt : string) : string := if is_empty s then dflt else s.
Definition check_ldap_reachability (getent : string -> CommandRun) (nc : string -> Z -> CommandRun) (host uri : string)
  : LdapReachability :=
  let port :=
    match nc host (ldap_uri_port uri) with
    | Ran code out err =>
        if succeeded code then Reachable
        else Unreachable (or_text (trim (out +:+ err)) "Connection failed with no specific error from nc")
    | NotExecuted e => Unreachable ("Failed to execute timeout/nc: " +:+ e)
    end in
  match getent host with
  | Ran code _ err => if succeeded code then port else DnsFailure (or_text (trim err) "Host not found in DNS")
  | NotExecuted _ => port
  end.

(** ** The bind *)
(** The values of a list, each at its first place. *)
Definition first_seen (l : list string) : list string :=
  foldl (fun seen a => if bool_decide (a ∈ seen) then seen else seen ++ [a]) [] l.
Definition mapping_of (cfg : NfsKlldapConfig) : PosixAttributeMapping :=
  resolve_posix_attribute_mapping (ri_posix_mapping (sssd_resolver_inputs (ldap_uri cfg) (sssd cfg) (display_realm cfg))).
Definition bind_attrs (cfg : NfsKlldapConfig) : list string :=
  let m := mapping_of cfg in
  let attrs := [user_name m; user_uid_number m; user_gid_number m; user_home_directory m; user_shell m; "objectClass"] in
  first_seen
    match ss_ldap_user_fullname (sssd cfg) with
    | Some f =>
        let f := trim f in
        if negb (is_empty f) && negb (existsb (fun a => eq_ignore_ascii_case a f) attrs) then attrs ++ [f] else attrs
    | None => attrs
    end.
(** The arguments after [timeout], and whether LDAPTLS_REQCERT is set to never. *)
Definition bind_command (cfg : NfsKlldapConfig) : bool * list string :=
  let uri := ldap_uri cfg in
  let dn := ss_ldap_default_bind_dn (sssd cfg) in
  let pw := ss_ldap_default_authtok (sssd cfg) in
  (starts_with "ldaps://" uri,
   ["10"; "ldapsearch"; "-H"; uri; "-D"; dn; "-w"; pw; "-s"; "base"; "-b"; dn; "-o"; "nettimeout=5"] ++ bind_attrs cfg).
Definition bind_error (raw : string) : string :=
  if contains_str "Invalid credentials" raw || contains_str "(49)" raw then
    "BIND FAILED: Invalid credentials (error 49). Check ldap_default_bind_dn and ldap_default_authtok. Raw: " +:+ raw
  else if contains_str "Can't contact LDAP server" raw || contains_str "(-1)" raw || contains_str "TLS" raw
          || contains_str "certificate" raw then
    "BIND FAILED: Cannot contact LDAP server or TLS issue. Raw: " +:+ raw
  else "BIND FAILED: " +:+ raw.
Definition check_ldap_bind (ldapsearch : bool * list string -> CommandRun) (cfg : NfsKlldapConfig) : result unit string :=
  match ldapsearch (bind_command cfg) with
  | NotExecuted e => Err ("Could not execute ldapsearch: " +:+ e)
  | Ran code out err => if succeeded code then Ok tt else Err (bind_error (or_text (trim err) (trim out)))
  end.
Definition format_bind_probe (cfg : NfsKlldapConfig) (r : result unit string) : string :=
  let dn := trim (ss_ldap_default_bind_dn (sssd cfg)) in
  let uri := trim (ldap_uri cfg) in
  let m := mapping_of cfg in
  nls (["<strong>Command</strong>";
        "ldapsearch -H " +:+ uri +:+ " -D " +:+ quoted dn +:+ " -w ******** -s base -b " +:+ quoted dn +:+ " ..."; "";
        "<strong>Status</strong>"]
       ++ match r with
          | Ok _ => ["✓ Bind successful!"]
          | Err err =>
              [err; ""; "→ Verify the DN exactly matches what is in your LDAP server.";
               "→ Make sure the password has no extra spaces or newlines."]
              ++ (if contains_str "Invalid credentials" err || contains_str "(49)" err
                  then ["→ Double-check ldap_default_bind_dn and ldap_default_authtok."] else [])
              ++ (if contains_str "TLS" err || contains_str "certificate" err || contains_str "contact" err
                  then ["→ Common causes: wrong port, self-signed cert, or firewall."] else [])
          end
       ++ [""; "<strong>SSSD</strong>"; "Defaults: ldap_schema=rfc2307bis, enumerate=false, ldap_id_mapping=false";
           "POSIX attrs: uid=" +:+ user_name m +:+ ", uidNumber=" +:+ user_uid_number m +:+ ", gidNumber="
             +:+ user_gid_number m +:+ ", member=" +:+ group_member m]
       ++ (if starts_with "ldaps://" uri && negb (is_some (ss_ldap_tls_reqcert (sssd cfg)))
           then ["For self-signed LLDAP/KLLDAP certs add to [sssd]:"; "  ldap_tls_reqcert = " +:+ quoted "never"] else [])
       ++ (if bool_decide (ss_enumerate (sssd cfg) = Some true)
           then ["WARNING: enumerate=true can overload KLLDAP — default is false."] else [])).

(** ** Properties *)
Lemma first_seen_spec l : NoDup (first_seen l) /\ forall x, x ∈ first_seen l <-> x ∈ l.
Proof.
  induction l as [|a l [Hn Hr]] using rev_ind; [split; [constructor|done]|].
  unfold first_seen in *. rewrite foldl_app. cbn. case_bool_decide as E.
  - split; [done|]. intros x. rewrite Hr, elem_of_app, list_elem_of_singleton. split; [auto|]. intros [H| ->]; [done|by apply Hr].
  - split; [|intros x; rewrite !elem_of_app, Hr; done].
    apply NoDup_app. split_and!; [done| |apply NoDup_singleton]. intros x Hx ->%list_elem_of_singleton. done.
Qed.
(** The probe asks for each attribute once, and for the ones SSSD reads. *)
Lemma bind_attrs_spec cfg :
  NoDup (bind_attrs cfg) /\ [user_name (mapping_of cfg); user_uid_number (mapping_of cfg); user_gid_number (mapping_of cfg)] ⊆ bind_attrs cfg.
Proof.
  unfold bind_attrs. cbv zeta. match goal with |- NoDup (first_seen ?l) /\ _ => destruct (first_seen_spec l) as [Hn He] end.
  split; [exact Hn|]. intros x Hx. apply He. clear Hn He.
  destruct (ss_ldap_user_fullname (sssd cfg)); [destruct (_ && _)|]; set_solver.
Qed.
(** A bind succeeds exactly when the command exits with 0. *)
Lemma check_ldap_bind_ok ls cfg : is_ok (check_ldap_bind ls cfg) = true <-> exists o e, ls (bind_command cfg) = Ran (Some 0) o e.
Proof.
  unfold check_ldap_bind. destruct (ls (bind_command cfg)) as [e|code o e]; cbn; [by split; [|intros (? & ? & ?)]|].
  unfold succeeded. case_bool_decide as E; cbn; subst; split; try done; [by eexists _, _|]. by intros (? & ? & [= -> _ _]).
Qed.
(** Anybody who can list processes sees the bind password while a probe runs. *)
Theorem bind_password_on_command_line cfg : ss_ldap_default_authtok (sssd cfg) ∈ snd (bind_command cfg).
Proof. unfold bind_command. cbn [snd]. set_solver. Qed.
(** The probe does not look at the certificate, also when the configuration
    demands that services do. *)
Theorem bind_probe_never_verifies cfg : starts_with "ldaps://" (ldap_uri cfg) = true -> fst (bind_command cfg) = true.
Proof. done. Qed.
Example port_demo :
  map ldap_uri_port ["ldaps://kl:6360"; "ldap://kl"; "ldaps://kl:70000"; "ldap://kl:389/"] = [6360; 636; 636; 389].
Proof. vm_compute. reflexivity. Qed.
