(* ===== verification/SetupWizard.v ===== *)
(** * The first-run wizard

    Models [web/setup.rs], whole: the steps and their redirects, the tests of
    the LDAP server and of the bind credentials that write nothing, the two
    saves that ask for a matching test, the end of the wizard, and the status
    of the saved credentials.  A request is handled at once; what it sees of
    the system is a [World]. *)

From S2P Require Import Prelude RustStr Identity Config ConfigLoad SettingsForm SettingsPage SettingsSave SharesValid FsProbe Startup Auth WebLogin RecycleLatch Host Probes.
Local Open Scope Z_scope.

Record SetupTestState := { step2_uri : option string; step3_dn : option string; step3_pw : option string }.
Definition no_tests : SetupTestState := {| step2_uri := None; step3_dn := None; step3_pw := None |}.
Record Wizard := { wz_test : SetupTestState; wz_disk : ConfDisk; wz_marker : bool; wz_latch : LatchState }.
(** The environment, the volume and the keytab, the two sources of the hostname,
    the commands, whether a probe task is lost, and the fate of the writes. *)
Record World := {
  wo_env : Env; wo_bind_mounted : bool; wo_can_create : bool; wo_keytab : bool; wo_config_dir : string;
  wo_hostname : CommandRun; wo_proc : result string string;
  wo_getent : string -> CommandRun; wo_nc : string -> Z -> CommandRun; wo_ldapsearch : bool * list string -> CommandRun;
  wo_reach_lost : bool; wo_bind_lost : bool;
  wo_io : SaveIo; wo_marker_written : bool; wo_removed : bool; wo_now : Z;
}.
Inductive WizardError :=
| NotLdapUri | IpAddress | Untested | DnRequired | PasswordRequired | NotSaved (e : SaveError).
Definition wizard_error_text (e : WizardError) (save_text : SaveError -> string) : string :=
  match e with
  | NotLdapUri => "ldap_uri must start with ldap:// or ldaps://"
  | IpAddress => "ldap_uri must use a DNS hostname, not an IP address."
  | Untested => "Test settings before continuing."
  | DnRequired => "Bind DN is required."
  | PasswordRequired => "Bind password is required."
  | NotSaved e => save_text e
  end.
Record Banner := { bn_hostname : string; bn_principals : string }.
Inductive WizardReply :=
| GoTo (target : string)
| Step1Page (status : Z) (error : bool) (verified : bool) (log : string) (b : Banner) (realm : string)
| Step2Page (status : Z) (error : option WizardError) (uri : string) (step1_done : bool) (b : Banner)
| Step3Page (status : Z) (error : option WizardError) (dn : string) (step1_done step2_done : bool) (b : Banner)
| Tested (passed : bool) (message error : option string) (log : string)
| Restarting.
Inductive SetupRequest :=
| GetSetup | GetStep1 | VerifyStep1 | GetStep2 | TestStep2 (uri : string) | ContinueStep2 (uri : string)
| GetStep3 | TestStep3 (dn pw : string) | ContinueStep3 (dn pw : string) | StatusStep3.

Definition validate_ldap_uri (uri : string) : result string WizardError :=
  let uri := trim uri in
  if is_empty uri || (negb (starts_with "ldap://" uri) && negb (starts_with "ldaps://" uri)) then Err NotLdapUri
  else if host_is_ip (extract_host_from_uri uri) then Err IpAddress
  else Ok uri.
Definition step2_test_matches (cached : option string) (submitted : string) : bool :=
  match cached with Some c => seqb c (trim submitted) | None => false end.
Definition step3_test_matches (cached_dn cached_pw : option string) (dn pw : string) : bool :=
  match cached_dn with Some c => seqb c (trim dn) | None => false end
  && match cached_pw with Some c => seqb c pw | None => false end.
Definition store_step2_test (uri : string) (t : SetupTestState) : SetupTestState :=
  {| step2_uri := Some (trim uri); step3_dn := step3_dn t; step3_pw := step3_pw t |}.
Definition clear_step2_test (t : SetupTestState) : SetupTestState :=
  {| step2_uri := None; step3_dn := step3_dn t; step3_pw := step3_pw t |}.
Definition store_step3_test (dn pw : string) (t : SetupTestState) : SetupTestState :=
  {| step2_uri := step2_uri t; step3_dn := Some (trim dn); step3_pw := Some pw |}.
Definition clear_step3_test (t : SetupTestState) : SetupTestState :=
  {| step2_uri := step2_uri t; step3_dn := None; step3_pw := None |}.
Definition on_test (f : SetupTestState -> SetupTestState) (s : Wizard) : Wizard :=
  {| wz_test := f (wz_test s); wz_disk := wz_disk s; wz_marker := wz_marker s; wz_latch := wz_latch s |}.
Definition validation_log (e : string) : string :=
  nls ["<strong>Command</strong>"; "(validation)"; ""; "<strong>Status</strong>"; e].

Section Wizard.
Context {D : Type} `{!TomlDoc D}.
Context (save_text : SaveError -> string) (load_text : LoadError -> string).
Section Reads.
Context (w : World) (s : Wizard).
Definition contents : option string := conf_text (wz_disk s).
Definition check_volume : bool := check_persistent_writable (wo_env w) (wo_bind_mounted w) (wo_can_create w).
Definition ok_value {A E} (r : result A E) : option A := match r with Ok a => Some a | Err _ => None end.
Definition current_step : StartupStep :=
  compute_wizard_step check_volume (wz_marker s) (ok_value (load_lenient (D := D) (wo_env w) contents)).
(** What the setup gate sees. *)
Definition setup_of : Setup := {|
  preconfigured := is_preconfigured_deployment (wo_keytab w) check_volume (ok_value (load (D := D) (wo_env w) contents));
  wizard_marker := wz_marker s;
  wizard_step := current_step |}.
Definition banner_context : Banner :=
  let hostname := match get_consistent_hostname (wo_hostname w) (wo_proc w) with
                  | Ok c => ch_hostname c | Err _ => "your-container-hostname" end in
  let realm := match attempt_realm_from_config contents with
               | Some r => r
               | None => match load (D := D) (wo_env w) contents with Ok c => display_realm c | Err _ => "YOUR.REALM" end
               end in
  {| bn_hostname := hostname; bn_principals := format_nfs_principal_list hostname realm |}.
Definition read_doc : option D := contents ≫= parse_doc.
Definition read_ldap_uri_from_disk : string :=
  default "" (d ← read_doc; match item "ldap_uri" d with Some (IValue (VStr v)) => Some v | _ => None end).
Definition read_bind_dn_from_disk : string :=
  default "" (d ← read_doc;
    match item "sssd" d with
    | Some (ITable t) | Some (IInline t) => get_str t "ldap_default_bind_dn"
    | _ => None
    end).
(** The document a save starts from, and what the two saves make of it. *)
Definition base_doc : D := parse_or_empty (default "" contents).
Definition with_uri (uri : string) (d : D) : D := set_key "" "ldap_uri" (VStr (trim uri)) d.
Definition with_creds (dn pw : string) (d : D) : D :=
  set_key "sssd" "ldap_default_authtok" (VStr pw) (set_key "sssd" "ldap_default_bind_dn" (VStr (trim dn)) d).
Definition save_doc (d : D) : result unit SaveError * Wizard :=
  let '(r, states) := atomic_write_config (wo_io w) (doc_text d) (wz_disk s) in
  (r, {| wz_test := wz_test s; wz_disk := default (wz_disk s) (head states); wz_marker := wz_marker s; wz_latch := wz_latch s |}).
Definition write_ldap_uri (uri : string) : result unit SaveError * Wizard := save_doc (with_uri uri base_doc).
Definition write_bind_creds (dn pw : string) : result unit SaveError * Wizard := save_doc (with_creds dn pw base_doc).

(** ** The probes *)
Definition reach (uri : string) : LdapReachability :=
  if wo_reach_lost w then Unreachable "Reachability probe task failed"
  else check_ldap_reachability (wo_getent w) (wo_nc w) (extract_host_from_uri uri) uri.
Definition bind_probe (cfg : NfsKlldapConfig) : result unit string * string :=
  let r := check_ldap_bind (wo_ldapsearch w) cfg in (r, format_bind_probe cfg r).
Definition with_bind (dn pw : string) (c : NfsKlldapConfig) : NfsKlldapConfig :=
  let c := sssd_dn (trim dn) c in if is_empty pw then c else sssd_pw pw c.
Definition run_bind_probe_blocking (dn pw : string) : result unit string * string :=
  match load_lenient (D := D) (wo_env w) contents with
  | Err e => (Err (load_text e),
              nls ["<strong>Command</strong>"; "(load config failed)"; ""; "<strong>Status</strong>"; load_text e])
  | Ok cfg =>
      if is_empty (trim (ldap_uri cfg)) then
        let msg := "ldap_uri is not set. Complete the LDAP server step first." in (Err msg, validation_log msg)
      else bind_probe (with_bind dn pw cfg)
  end.
Definition bind_test (dn pw : string) : result unit string * string :=
  if wo_bind_lost w then (Err "Bind probe task failed", nls ["<strong>Status</strong>"; "Bind probe task failed"])
  else run_bind_probe_blocking dn pw.
Definition run_bind_probe_from_disk : option (result unit string * string) :=
  cfg ← ok_value (load_lenient (D := D) (wo_env w) contents);
  if is_empty (trim (ldap_uri cfg)) || bind_fields_missing cfg then None else Some (bind_probe cfg).

(** ** The handlers *)
Definition setup_redirect : WizardReply := GoTo (setup_redirect_for_step setup_of).
Definition step1_page (status : Z) (error verified : bool) : WizardReply :=
  Step1Page status error verified (format_volume_probe (wo_config_dir w) verified) banner_context (default "YOUR.REALM" (attempt_realm_from_config contents)).
Definition setup_step1 : WizardReply :=
  if wz_marker s then GoTo "/login"
  else if negb (bool_decide (current_step = WaitForPersistentVolume)) then GoTo (setup_redirect_for_step setup_of)
  else step1_page 200 false check_volume.
Definition setup_step1_verify : WizardReply :=
  if check_volume then GoTo "/setup/2" else step1_page 400 true false.
Definition render_step2_page (error : option WizardError) (uri : option string) : WizardReply :=
  Step2Page (if is_some error then 400 else 200) error (default read_ldap_uri_from_disk uri)
    (is_step_complete WaitForPersistentVolume current_step) banner_context.
Definition render_step3_page (error : option WizardError) (dn : option string) : WizardReply :=
  Step3Page (if is_some error then 400 else 200) error (default read_bind_dn_from_disk dn)
    (is_step_complete WaitForPersistentVolume current_step) (is_step_complete SetLdapUri current_step) banner_context.
Definition setup_step2 : WizardReply :=
  if wz_marker s then GoTo "/login"
  else match current_step with
       | WaitForPersistentVolume => GoTo "/setup/1"
       | AddBindCredentials => GoTo "/setup/3"
       | _ => render_step2_page None None
       end.
Definition setup_step3 : WizardReply :=
  if wz_marker s then GoTo "/login"
  else match current_step with
       | WaitForPersistentVolume => GoTo "/setup/1"
       | SetLdapUri => GoTo "/setup/2"
       | _ => render_step3_page None None
       end.
Definition setup_step2_test (form : string) : WizardReply * Wizard :=
  match validate_ldap_uri form with
  | Err e => (Tested false None (Some (wizard_error_text e save_text)) (validation_log (wizard_error_text e save_text)),
              on_test clear_step2_test s)
  | Ok uri =>
      let r := reach uri in
      let log := format_reachability_probe (extract_host_from_uri uri) uri r in
      match r with
      | Reachable => (Tested true (Some "Reachability test passed.") None log, on_test (store_step2_test uri) s)
      | other => (Tested false None (Some (user_message other)) log, on_test clear_step2_test s)
      end
  end.
Definition setup_step2_continue (form : string) : WizardReply * Wizard :=
  match validate_ldap_uri form with
  | Err e => (render_step2_page (Some e) (Some form), s)
  | Ok uri =>
      if negb (step2_test_matches (step2_uri (wz_test s)) uri) then (render_step2_page (Some Untested) (Some uri), s)
      else
        let '(r, s') := write_ldap_uri uri in
        match r with
        | Err e => (render_step2_page (Some (NotSaved e)) (Some uri), s')
        | Ok _ => (GoTo "/setup/3", on_test clear_step2_test s')
        end
  end.
Definition setup_step3_test (dn pw : string) : WizardReply * Wizard :=
  let refuse e := (Tested false None (Some (wizard_error_text e save_text)) (validation_log (wizard_error_text e save_text)),
                   on_test clear_step3_test s) in
  if is_empty (trim dn) then refuse DnRequired
  else if is_empty (trim pw) then refuse PasswordRequired
  else
    let '(r, log) := bind_test dn pw in
    match r with
    | Ok _ => (Tested true (Some "Bind test passed.") None log, on_test (store_step3_test dn pw) s)
    | Err e => (Tested false None (Some e) log, on_test clear_step3_test s)
    end.
Definition finish (s : Wizard) : Wizard := {|
  wz_test := clear_step3_test (wz_test s); wz_disk := wz_disk s; wz_marker := wz_marker s || wo_marker_written w;
  wz_latch := snd (try_schedule_service_recycle (wo_removed w) (wo_now w) FullRestart (wz_latch s)) |}.
Definition setup_step3_continue (dn pw : string) : WizardReply * Wizard :=
  if is_empty (trim dn) then (render_step3_page (Some DnRequired) (Some dn), s)
  else if is_empty (trim pw) then (render_step3_page (Some PasswordRequired) (Some dn), s)
  else if negb (step3_test_matches (step3_dn (wz_test s)) (step3_pw (wz_test s)) dn pw) then
    (render_step3_page (Some Untested) (Some dn), s)
  else
    let '(r, s') := write_bind_creds dn pw in
    match r with
    | Err e => (render_step3_page (Some (NotSaved e)) (Some dn), s')
    | Ok _ => (Restarting, finish s')
    end.
Definition setup_step3_status : WizardReply :=
  match run_bind_probe_from_disk with
  | None => Tested false None (Some "Bind credentials not yet saved on disk.")
              (nls ["<strong>Status</strong>"; "Enter bind credentials and click Test Settings."])
  | Some (Ok _, log) => Tested true (Some "Bind test passed.") None log
  | Some (Err e, log) => Tested false None (Some e) log
  end.
End Reads.
Definition serve (w : World) (r : SetupRequest) (s : Wizard) : WizardReply * Wizard :=
  match r with
  | GetSetup => (setup_redirect w s, s)
  | GetStep1 => (setup_step1 w s, s)
  | VerifyStep1 => (setup_step1_verify w s, s)
  | GetStep2 => (setup_step2 w s, s)
  | TestStep2 uri => setup_step2_test w s uri
  | ContinueStep2 uri => setup_step2_continue w s uri
  | GetStep3 => (setup_step3 w s, s)
  | TestStep3 dn pw => setup_step3_test w s dn pw
  | ContinueStep3 dn pw => setup_step3_continue w s dn pw
  | StatusStep3 => (setup_step3_status w s, s)
  end.
Definition run (es : list (World * SetupRequest)) (s : Wizard) : Wizard :=
  foldl (fun s e => snd (serve e.1 e.2 s)) s es.
End Wizard.

(** ** Only what was tested is saved *)
Section Tested.
Context {D : Type} `{!TomlDoc D}.
Context (save_text : SaveError -> string) (load_text : LoadError -> string).
Local Abbreviation answer := (serve (D := D) save_text load_text).
Local Abbreviation go := (run (D := D) save_text load_text).
Definition tests_uri (r : SetupRequest) : bool := match r with TestStep2 _ => true | _ => false end.
Definition tests_bind (r : SetupRequest) : bool := match r with TestStep3 _ _ => true | _ => false end.
(** The last test of the server in the requests so far found this address
    reachable. *)
Definition uri_tested (es : list (World * SetupRequest)) (uri : string) : Prop :=
  exists before w form after, es = before ++ (w, TestStep2 form) :: after
    /\ Forall (fun e => tests_uri e.2 = false) after /\ validate_ldap_uri form = Ok uri /\ reach w uri = Reachable.
(** The last test of the credentials bound with these, to the server that was on
    disk then. *)
Definition bind_tested (s0 : Wizard) (es : list (World * SetupRequest)) (dn pw : string) : Prop :=
  exists before w form after, es = before ++ (w, TestStep3 form pw) :: after
    /\ Forall (fun e => tests_bind e.2 = false) after /\ trim form = dn
    /\ fst (bind_test (D := D) load_text w (go before s0) form pw) = Ok tt.
Definition tests_recorded (s0 : Wizard) (es : list (World * SetupRequest)) (t : SetupTestState) : Prop :=
  (forall uri, step2_uri t = Some uri -> uri_tested es uri)
  /\ (forall dn pw, step3_dn t = Some dn -> step3_pw t = Some pw -> bind_tested s0 es dn pw).

Lemma uri_tested_snoc es e uri : tests_uri e.2 = false -> uri_tested es uri -> uri_tested (es ++ [e]) uri.
Proof.
  intros He (b & w & f & a & -> & Ha & Hv & Hr). exists b, w, f, (a ++ [e]). rewrite <- app_assoc. split_and!; try done.
  rewrite Forall_app, Forall_singleton. done.
Qed.
Lemma bind_tested_snoc s0 es e dn pw : tests_bind e.2 = false -> bind_tested s0 es dn pw -> bind_tested s0 (es ++ [e]) dn pw.
Proof.
  intros He (b & w & f & a & -> & Ha & Hv & Hr). exists b, w, f, (a ++ [e]). rewrite <- app_assoc. split_and!; try done.
  rewrite Forall_app, Forall_singleton. done.
Qed.
Lemma validate_trimmed form uri : validate_ldap_uri form = Ok uri -> uri = trim form.
Proof. unfold validate_ldap_uri. destruct (_ || _); [done|]. destruct (host_is_ip _); [done|]. by intros [= <-]. Qed.
Lemma save_doc_test w s d : wz_test (snd (save_doc w s d)) = wz_test s /\ wz_marker (snd (save_doc w s d)) = wz_marker s
  /\ wz_latch (snd (save_doc w s d)) = wz_latch s.
Proof. unfold save_doc. by destruct (atomic_write_config _ _ _). Qed.
(** What one request does to the remembered tests. *)
Lemma handle_tests w r s :
  let t := wz_test s in let t' := wz_test (snd (answer w r s)) in
  (step2_uri t' = None \/ step2_uri t' = step2_uri t /\ tests_uri r = false
   \/ exists form uri, r = TestStep2 form /\ validate_ldap_uri form = Ok uri /\ reach w uri = Reachable /\ step2_uri t' = Some uri)
  /\ (step3_dn t' = None \/ step3_dn t' = step3_dn t /\ step3_pw t' = step3_pw t /\ tests_bind r = false
      \/ exists dn pw, r = TestStep3 dn pw /\ fst (bind_test (D := D) load_text w s dn pw) = Ok tt
           /\ step3_dn t' = Some (trim dn) /\ step3_pw t' = Some pw).
Proof.
  cbv zeta. destruct r as [| | | |form|form| |dn pw|dn pw|]; cbn [serve snd]; try (split; right; left; by split_and?).
  - unfold setup_step2_test. destruct (validate_ldap_uri form) as [uri|e] eqn:Ev.
    + destruct (reach w uri) eqn:Er; cbn; (split; [|right; left; by split_and?]); [|by left..].
      right; right. exists form, uri. split_and!; try done. f_equal. rewrite (validate_trimmed _ _ Ev). apply trim_idem.
    + cbn. split; [by left|right; left; by split_and?].
  - unfold setup_step2_continue. destruct (validate_ldap_uri form) as [uri|e]; [|split; right; left; by split_and?].
    destruct (negb _); [split; right; left; by split_and?|]. destruct (save_doc_test w s (with_uri uri (base_doc s))) as (Ht & _).
    unfold write_ldap_uri. destruct (save_doc w s _) as [[[]|e] s']; cbn in *.
    + split; [by left|]. rewrite Ht. right; left; by split_and?.
    + rewrite Ht. split; right; left; by split_and?.
  - unfold setup_step3_test. destruct (is_empty (trim dn)); [cbn; split; [right; left; by split_and?|by left]|].
    destruct (is_empty (trim pw)); [cbn; split; [right; left; by split_and?|by left]|].
    destruct (bind_test load_text w s dn pw) as [[[]|e] log] eqn:Eb; cbn; (split; [right; left; by split_and?|]).
    + right; right. exists dn, pw. by rewrite Eb.
    + by left.
  - unfold setup_step3_continue. destruct (is_empty (trim dn)); [split; right; left; by split_and?|].
    destruct (is_empty (trim pw)); [split; right; left; by split_and?|].
    destruct (negb _); [split; right; left; by split_and?|]. destruct (save_doc_test w s (with_creds dn pw (base_doc s))) as (Ht & _).
    unfold write_bind_creds. destruct (save_doc w s _) as [[[]|e] s']; cbn in *; rewrite Ht.
    + split; [right; left; by split_and?|by left].
    + split; right; left; by split_and?.
Qed.
Lemma run_snoc es e s : go (es ++ [e]) s = snd (answer e.1 e.2 (go es s)).
Proof. unfold run. by rewrite foldl_app. Qed.
Lemma run_tests_recorded s0 es : wz_test s0 = no_tests -> tests_recorded s0 es (wz_test (go es s0)).
Proof.
  intros H0. induction es as [|[w r] es [IH2 IH3]] using rev_ind.
  { cbn. rewrite H0. by split. }
  rewrite run_snoc. cbn [fst snd]. destruct (handle_tests w r (go es s0)) as [H2 H3]. split.
  - intros uri Hu. destruct H2 as [E|[[E Hn]|(form & u & -> & Hv & Hr & E)]]; [congruence|..].
    + rewrite E in Hu. apply uri_tested_snoc; [done|]. by apply IH2.
    + assert (u = uri) as -> by congruence. exists es, w, form, []. by split_and!; [| |..].
  - intros dn pw Hd Hp. destruct H3 as [E|[(Ed & Ep & Hn)|(d & p & -> & Hb & Ed & Ep)]]; [congruence|..].
    + rewrite Ed in Hd. rewrite Ep in Hp. apply bind_tested_snoc; [done|]. by apply IH3.
    + assert (p = pw) as -> by congruence. exists es, w, d, []. split_and!; [done|constructor| |done]. congruence.
Qed.
(** What the two saves need before they write. *)
Lemma continue2_spec w form s reply s' :
  setup_step2_continue w s form = (reply, s') ->
  cd_conf (wz_disk s') = cd_conf (wz_disk s) /\ wz_marker s' = wz_marker s /\ wz_latch s' = wz_latch s
  \/ exists uri, validate_ldap_uri form = Ok uri /\ step2_uri (wz_test s) = Some uri
     /\ conf_text (wz_disk s') = Some (doc_text (with_uri uri (base_doc s))) /\ wz_marker s' = wz_marker s /\ wz_latch s' = wz_latch s
     /\ reply = GoTo "/setup/3".
Proof.
  unfold setup_step2_continue. destruct (validate_ldap_uri form) as [uri|e] eqn:Ev; [|intros [= _ <-]; by left].
  destruct (step2_test_matches _ _) eqn:Em; cbn [negb]; [|intros [= _ <-]; by left].
  assert (step2_uri (wz_test s) = Some uri) as Hu.
  { unfold step2_test_matches in Em. destruct (step2_uri _); [|done]. apply seqb_eq in Em as ->.
    by rewrite (validate_trimmed _ _ Ev), trim_idem. }
  unfold write_ldap_uri, save_doc. pose proof (atomic_write_states (wo_io w) (doc_text (with_uri uri (base_doc s))) (wz_disk s)) as Hw.
  destruct (atomic_write_config _ _ _) as [[[]|e] states]; cbn; destruct Hw as (_ & Hok & Herr).
  - intros [= <- <-]. right. exists uri. split_and!; try done. cbn. specialize (Hok eq_refl). by destruct states as [|d ?]; cbn in *; simplify_eq.
  - intros [= _ <-]. left. cbn. specialize (Herr eq_refl). destruct states; cbn; [done|]. by apply Forall_inv in Herr.
Qed.
Lemma continue3_spec w dn pw s reply s' :
  setup_step3_continue w s dn pw = (reply, s') ->
  cd_conf (wz_disk s') = cd_conf (wz_disk s) /\ wz_marker s' = wz_marker s /\ wz_latch s' = wz_latch s
  \/ is_empty (trim dn) = false /\ is_empty (trim pw) = false
     /\ step3_dn (wz_test s) = Some (trim dn) /\ step3_pw (wz_test s) = Some pw
     /\ conf_text (wz_disk s') = Some (doc_text (with_creds dn pw (base_doc s)))
     /\ wz_marker s' = wz_marker s || wo_marker_written w
     /\ wz_latch s' = snd (try_schedule_service_recycle (wo_removed w) (wo_now w) FullRestart (wz_latch s)) /\ reply = Restarting.
Proof.
  unfold setup_step3_continue. destruct (is_empty (trim dn)); [intros [= _ <-]; by left|].
  destruct (is_empty (trim pw)); [intros [= _ <-]; by left|].
  destruct (step3_test_matches _ _ _ _) eqn:Em; cbn [negb]; [|intros [= _ <-]; by left].
  unfold step3_test_matches in Em. destruct (step3_dn _) as [d|], (step3_pw _) as [p|]; cbn in Em; try (by rewrite ?andb_false_r in Em).
  apply andb_true_iff in Em as [->%seqb_eq ->%seqb_eq].
  unfold write_bind_creds, save_doc. pose proof (atomic_write_states (wo_io w) (doc_text (with_creds dn pw (base_doc s))) (wz_disk s)) as Hw.
  destruct (atomic_write_config _ _ _) as [[[]|e] states]; cbn; destruct Hw as (_ & Hok & Herr).
  - intros [= <- <-]. right. split_and!; try done. cbn. specialize (Hok eq_refl). by destruct states as [|? ?]; cbn in *; simplify_eq.
  - intros [= _ <-]. left. cbn. specialize (Herr eq_refl). destruct states; cbn; [done|]. by apply Forall_inv in Herr.
Qed.
Lemma tests_write_nothing w r s :
  match r with ContinueStep2 _ | ContinueStep3 _ _ => False | _ => True end ->
  let s' := snd (answer w r s) in wz_disk s' = wz_disk s /\ wz_marker s' = wz_marker s /\ wz_latch s' = wz_latch s.
Proof.
  destruct r as [| | | |form| | |dn pw| |]; cbn; try done; intros _.
  - unfold setup_step2_test. destruct (validate_ldap_uri form) as [uri|]; [destruct (reach w uri)|]; done.
  - unfold setup_step3_test. destruct (is_empty (trim dn)); [done|]. destruct (is_empty (trim pw)); [done|].
    by destruct (bind_test load_text w s dn pw) as [[[]|] ?].
Qed.
(** C7: in any course of the wizard the configuration changes only by the two
    continue requests, and only to what was tested: the address whose last test
    reached the server, the DN and password whose last test bound; the marker
    and a full restart come only with the saved credentials. *)
Theorem wizard_saves_tested w r es s0 :
  wz_test s0 = no_tests ->
  let s := go es s0 in
  let '(reply, s') := answer w r s in
  cd_conf (wz_disk s') = cd_conf (wz_disk s) /\ wz_marker s' = wz_marker s /\ wz_latch s' = wz_latch s
  \/ (exists form uri, r = ContinueStep2 form /\ validate_ldap_uri form = Ok uri /\ uri_tested es uri
        /\ conf_text (wz_disk s') = Some (doc_text (with_uri uri (base_doc s)))
        /\ wz_marker s' = wz_marker s /\ wz_latch s' = wz_latch s)
  \/ (exists dn pw, r = ContinueStep3 dn pw /\ bind_tested s0 es (trim dn) pw
        /\ conf_text (wz_disk s') = Some (doc_text (with_creds dn pw (base_doc s)))
        /\ wz_marker s' = wz_marker s || wo_marker_written w /\ restart_requested (wz_latch s') <> None /\ reply = Restarting).
Proof.
  intros H0. cbv zeta. destruct (run_tests_recorded s0 es H0) as [H2 H3]. destruct (answer w r (go es s0)) as [reply s'] eqn:E.
  assert (Hother : match r with ContinueStep2 _ | ContinueStep3 _ _ => False | _ => True end ->
    cd_conf (wz_disk s') = cd_conf (wz_disk (go es s0)) /\ wz_marker s' = wz_marker (go es s0) /\ wz_latch s' = wz_latch (go es s0)).
  { intros Hr. destruct (tests_write_nothing w r (go es s0) Hr) as (Hd & Hm & Hl). rewrite E in Hd, Hm, Hl. cbn in *. by rewrite Hd. }
  destruct r as [| | | | |form| | |dn pw|]; try (left; by apply Hother).
  - apply continue2_spec in E as [E|(uri & Hv & Hu & Ht & Hm & Hl & _)]; [by left|]. right. left. exists form, uri. split_and!; auto.
  - apply continue3_spec in E as [E|(_ & _ & Hd & Hp & Ht & Hm & Hl & Hr)]; [by left|]. right. right. exists dn, pw.
    split_and!; auto. rewrite Hl. unfold try_schedule_service_recycle. by destruct (restart_requested (wz_latch (go es s0))) as [[]|] eqn:Er; cbn; rewrite ?Er.
Qed.
End Tested.

(** ** The redirects end *)
Section Redirects.
Context {D : Type} `{!TomlDoc D}.
Context (save_text : SaveError -> string) (load_text : LoadError -> string) (w : World) (s : Wizard).
Definition target_of (r : WizardReply) : option string := match r with GoTo t => Some t | _ => None end.
(** Where a page sends a visitor who is not logged in; the login page as in
    WebLogin.v. *)
Definition page_target (path : string) : option string :=
  if seqb path "/login" then
    let su := setup_of (D := D) w s in if setup_wizard_required su then Some (setup_redirect_for_step su) else None
  else if seqb path "/setup" then target_of (fst (serve (D := D) save_text load_text w GetSetup s))
  else if seqb path "/setup/1" then target_of (fst (serve (D := D) save_text load_text w GetStep1 s))
  else if seqb path "/setup/2" then target_of (fst (serve (D := D) save_text load_text w GetStep2 s))
  else if seqb path "/setup/3" then target_of (fst (serve (D := D) save_text load_text w GetStep3 s))
  else None.
Lemma step_ready : current_step (D := D) w s = Ready -> wz_marker s = true.
Proof.
  unfold current_step, compute_wizard_step. destruct (check_volume w); [|done]. destruct (ok_value _) as [c|]; [|done]. cbn [negb].
  destruct (ldap_uri_is_structurally_valid _); [|done]. destruct (bind_fields_missing c); [done|]. by destruct (wz_marker s).
Qed.
(** The same over what the files say. *)
Definition next_page (su : Setup) (path : string) : option string :=
  let current := setup_redirect_for_step su in
  let marker := wizard_marker su in
  if seqb path "/login" then if setup_wizard_required su then Some current else None
  else if seqb path "/setup" then Some current
  else if seqb path "/setup/1" then
    if marker then Some "/login" else if bool_decide (wizard_step su = WaitForPersistentVolume) then None else Some current
  else if seqb path "/setup/2" then
    if marker then Some "/login"
    else match wizard_step su with WaitForPersistentVolume => Some "/setup/1" | AddBindCredentials => Some "/setup/3" | _ => None end
  else if seqb path "/setup/3" then
    if marker then Some "/login"
    else match wizard_step su with WaitForPersistentVolume => Some "/setup/1" | SetLdapUri => Some "/setup/2" | _ => None end
  else None.
Lemma page_target_next path : page_target path = next_page (setup_of (D := D) w s) path.
Proof.
  unfold page_target, next_page. destruct (seqb path "/login"); [done|]. destruct (seqb path "/setup"); [done|].
  destruct (seqb path "/setup/1"); [|destruct (seqb path "/setup/2"); [|destruct (seqb path "/setup/3"); [|done]]];
    cbn [serve fst wizard_marker wizard_step setup_of]; unfold setup_step1, setup_step2, setup_step3.
  - destruct (wz_marker s); [done|]. by destruct (bool_decide _).
  - destruct (wz_marker s); [done|]. by destruct (current_step w s).
  - destruct (wz_marker s); [done|]. by destruct (current_step w s).
Qed.
Definition step_target (step : StartupStep) : option string := (fun n => "/setup/" +:+ dec (Z.of_nat n)) <$> wizard_index step.
(** The end of the redirects, by at most two steps. *)
Definition redirects_end (su : Setup) (path : string) : bool :=
  let stops last := bool_decide (next_page su last = None)
                    && (negb (setup_wizard_required su) || bool_decide (Some last = step_target (wizard_step su))) in
  match next_page su path with
  | None => stops path
  | Some q => match next_page su q with None => stops q | Some r => stops r end
  end.
(** C37: whatever the state of the setup, a visitor of the wizard or of the login
    page is on a page that answers after at most two redirects; while the wizard
    is required that is the page of its current step. *)
Theorem setup_redirects_end path :
  path ∈ ["/setup"; "/setup/1"; "/setup/2"; "/setup/3"; "/login"] ->
  exists last, page_target last = None
    /\ (last = path \/ page_target path = Some last \/ exists mid, page_target path = Some mid /\ page_target mid = Some last)
    /\ (setup_wizard_required (setup_of (D := D) w s) = true ->
        Some last = step_target (current_step (D := D) w s)).
Proof.
  intros Hp. pose proof step_ready as Hr.
  assert (He : redirects_end (setup_of (D := D) w s) path = true).
  { unfold setup_of. destruct (current_step w s); try (rewrite (Hr eq_refl)); try destruct (wz_marker s);
      destruct (is_preconfigured_deployment _ _ _); apply list_elem_of_In in Hp; cbn in Hp;
      repeat (destruct Hp as [<-|Hp]; [vm_compute; reflexivity|]); done. }
  unfold redirects_end in He.
  destruct (next_page _ path) as [q|] eqn:E1; [destruct (next_page _ q) as [r|] eqn:E2|];
    apply andb_true_iff in He as [Hn%bool_decide_eq_true Hl]; [exists r|exists q|exists path]; rewrite !page_target_next;
    (split; [congruence|split; [|intros Hreq; rewrite Hreq in Hl; by apply bool_decide_eq_true in Hl]]).
  - right; right. exists q. by rewrite page_target_next.
  - right; left. done.
  - by left.
Qed.
End Redirects.

(** ** The wizard reaches the login page *)
Section Progress.
Context {D : Type} `{!TomlDoc D} `{!TomlLaws D}.
Context (save_text : SaveError -> string) (load_text : LoadError -> string).
Local Abbreviation answer := (serve (D := D) save_text load_text).
Local Abbreviation go := (run (D := D) save_text load_text).
Lemma base_doc_ok s : doc_ok (base_doc (D := D) s).
Proof.
  unfold base_doc, parse_or_empty. destruct (parse_doc _) as [d|] eqn:E; [by apply parse_ok in E|apply empty_ok].
Qed.
Lemma set_item_ok k i (d : D) : doc_ok d -> (forall l, i <> ITables l) -> doc_ok (set_item k i d).
Proof.
  intros [Hc Hi] Hn. split; [by rewrite trailing_set|]. intros k' l. rewrite item_set. destruct (decide (k = k')); [|apply Hi].
  intros [= ->]. by destruct (Hn l).
Qed.
Lemma set_key_ok section key v (d : D) : doc_ok d -> doc_ok (set_key section key v d).
Proof.
  intros Hd. unfold set_key. destruct (is_empty section); [by apply set_item_ok|].
  destruct (item section d) as [[]|]; try done; by apply set_item_ok.
Qed.
Lemma config_of_doc_meaning (d d' : D) : (forall k, meaning (item k d') = meaning (item k d)) -> config_of_doc d' = config_of_doc d.
Proof.
  intros H. unfold config_of_doc, config_of_items.
  rewrite !(meaning_top _ _ _ (H _)), !(meaning_section _ _ _ (H _)), !(meaning_shares _ _ (H _)). done.
Qed.
(** What a written document loads as. *)
Lemma written_parses (d : D) c : doc_ok d -> config_of_doc d = Some c ->
  exists d', parse_doc (doc_text d) = Some d' /\ config_of_doc d' = Some c /\ forall k, meaning (item k d') = meaning (item k d).
Proof.
  intros Hok Hc. destruct (text_parses d Hok) as (d' & Hp & Hm). exists d'. split_and!; try done. by rewrite (config_of_doc_meaning d d' Hm).
Qed.
Lemma config_of_doc_reads (d d' : D) c f :
  config_of_doc d = Some c -> item "shares" d' = item "shares" d -> (forall c w, f (with_warnings c w) = with_warnings (f c) w) ->
  (forall c0, read_items d = Some c0 -> read_items d' = Some (f c0)) -> config_of_doc d' = Some (f c).
Proof.
  unfold config_of_doc. intros (c0 & Hc & [= <-])%bind_Some Hs Hf Hr. fold (read_items d'). by rewrite (Hr c0 Hc), Hs, Hf.
Qed.
Lemma set_key_other section key v (d : D) k : section <> k -> key <> k -> item k (set_key section key v d) = item k d.
Proof.
  intros Hs Hk. unfold set_key. destruct (is_empty section); [by rewrite item_set, decide_False|].
  destruct (item section d) as [[]|]; try done; by rewrite item_set, decide_False.
Qed.
Lemma set_key_plain section key v (d : D) : section <> "" -> plain (item section d) -> plain (item section (set_key section key v d)).
Proof.
  intros Hs Hp. unfold set_key. destruct section; [done|]. cbn [is_empty].
  destruct (item _ d) as [[]|]; try done; by rewrite item_set, decide_True.
Qed.
Lemma with_uri_reads uri (d : D) c : config_of_doc d = Some c -> config_of_doc (with_uri uri d) = Some (set_uri (trim uri) c).
Proof.
  intros H. apply (config_of_doc_reads _ _ _ _ H); [by apply set_key_other|done|]. intros c0 Hc.
  apply (top_reads d c0 "ldap_uri" (VStr (trim uri)) (set_uri (trim uri)) Hc). intros; by apply read_uri.
Qed.
Lemma with_creds_reads dn pw (d : D) c :
  plain (item "sssd" d) -> config_of_doc d = Some c -> config_of_doc (with_creds dn pw d) = Some (sssd_pw pw (sssd_dn (trim dn) c)).
Proof.
  intros Hp H. destruct sssd_upd as (H1 & H2 & _).
  apply (config_of_doc_reads _ _ _ (fun c => sssd_pw pw (sssd_dn (trim dn) c)) H); [unfold with_creds; by rewrite !set_key_other|done|].
  intros c0 Hc.
  assert (Hr : read_items (assign "sssd" "ldap_default_bind_dn" (Some (VStr (trim dn))) d) = Some (sssd_dn (trim dn) c0))
    by (eapply sssd_reads; [exact Hc|exact Hp|by intros v [= <-]|apply H1]).
  unfold with_creds. change (set_key "sssd" "ldap_default_authtok" (VStr pw) ?d') with (assign "sssd" "ldap_default_authtok" (Some (VStr pw)) d').
  eapply sssd_reads; [exact Hr| |by intros v [= <-]|apply H2].
  by apply set_key_plain.
Qed.
Lemma plain_meaning i j : meaning i = meaning j -> plain i -> plain j.
Proof. by destruct i as [[]|], j as [[]|]. Qed.
Lemma lenient_written env (d : D) c :
  (forall c, apply_core_env_overrides env c = c) -> doc_ok d -> config_of_doc d = Some c ->
  load_lenient (D := D) env (Some (doc_text d)) = Ok c.
Proof.
  intros He Hok Hc. destruct (written_parses d c Hok Hc) as (d' & Hp & Hc' & _).
  unfold load_lenient, load_unchecked, parse_str. rewrite Hp. cbn [mbind option_bind]. rewrite Hc'. cbn. by rewrite He.
Qed.
Lemma written_base s (d : D) c : contents s = Some (doc_text d) -> doc_ok d -> config_of_doc d = Some c ->
  config_of_doc (base_doc (D := D) s) = Some c /\ forall k, meaning (item k (base_doc (D := D) s)) = meaning (item k d).
Proof.
  intros Hs Hok Hc. destruct (written_parses d c Hok Hc) as (d' & Hp & Hc' & Hm).
  unfold base_doc, parse_or_empty. rewrite Hs. cbn [from_option]. unfold id. by rewrite Hp.
Qed.
Lemma saved w s (d : D) : io_write (wo_io w) = Written -> io_rename (wo_io w) = true ->
  exists s', save_doc w s d = (Ok tt, s') /\ contents s' = Some (doc_text d) /\ wz_test s' = wz_test s
    /\ wz_marker s' = wz_marker s /\ wz_latch s' = wz_latch s.
Proof.
  intros Hw Hr. unfold save_doc, atomic_write_config, write_tmp. rewrite Hw, Hr. eexists. split; [done|].
  unfold contents, conf_text. by destruct (io_chmod _).
Qed.
Lemma structural_validates form : ldap_uri_is_structurally_valid form = true -> validate_ldap_uri form = Ok (trim form).
Proof.
  unfold ldap_uri_is_structurally_valid, validate_ldap_uri. destruct (_ || _); [done|]. intros [_ H%negb_true_iff]%andb_true_iff. by rewrite H.
Qed.
Lemma step2_tested w s form : validate_ldap_uri form = Ok (trim form) -> reach w (trim form) = Reachable ->
  snd (answer w (TestStep2 form) s) = on_test (store_step2_test (trim form)) s.
Proof. intros Hv Hr. cbn. unfold setup_step2_test. by rewrite Hv, Hr. Qed.
Lemma step2_saved w s form : validate_ldap_uri form = Ok (trim form) -> step2_uri (wz_test s) = Some (trim form) ->
  io_write (wo_io w) = Written -> io_rename (wo_io w) = true ->
  let s' := snd (answer w (ContinueStep2 form) s) in
  contents s' = Some (doc_text (with_uri (trim form) (base_doc (D := D) s))) /\ wz_marker s' = wz_marker s /\ wz_latch s' = wz_latch s
  /\ fst (answer w (ContinueStep2 form) s) = GoTo "/setup/3".
Proof.
  intros Hv Hu Hw Hr. cbv zeta. cbn [serve]. unfold setup_step2_continue. rewrite Hv, Hu. cbn [step2_test_matches]. rewrite trim_idem, seqb_refl.
  cbn [negb]. unfold write_ldap_uri. destruct (saved w s (with_uri (trim form) (base_doc s)) Hw Hr) as (s' & -> & Hc & _ & Hm & Hl). done.
Qed.
Lemma step3_tested w s dn pw c : is_empty (trim dn) = false -> is_empty (trim pw) = false -> wo_bind_lost w = false ->
  load_lenient (D := D) (wo_env w) (contents s) = Ok c -> is_empty (trim (ldap_uri c)) = false ->
  check_ldap_bind (wo_ldapsearch w) (sssd_pw pw (sssd_dn (trim dn) c)) = Ok tt ->
  snd (answer w (TestStep3 dn pw) s) = on_test (store_step3_test dn pw) s.
Proof.
  intros Hdn Hpw Hlost Hl Hu Hb. cbn [serve]. unfold setup_step3_test. rewrite Hdn, Hpw. unfold bind_test, run_bind_probe_blocking, bind_probe, with_bind.
  assert (is_empty pw = false) as -> by (by destruct pw). by rewrite Hlost, Hl, Hu, Hb.
Qed.
Lemma step3_saved w s dn pw : is_empty (trim dn) = false -> is_empty (trim pw) = false ->
  step3_dn (wz_test s) = Some (trim dn) -> step3_pw (wz_test s) = Some pw -> io_write (wo_io w) = Written -> io_rename (wo_io w) = true ->
  let s' := snd (answer w (ContinueStep3 dn pw) s) in
  contents s' = Some (doc_text (with_creds dn pw (base_doc (D := D) s))) /\ wz_marker s' = wz_marker s || wo_marker_written w
  /\ fst (answer w (ContinueStep3 dn pw) s) = Restarting /\ restart_requested (wz_latch s') <> None.
Proof.
  intros Hdn Hpw Hd Hp Hw Hr. cbv zeta. cbn [serve]. unfold setup_step3_continue. rewrite Hdn, Hpw, Hd, Hp. unfold step3_test_matches.
  rewrite !seqb_refl. cbn [andb negb]. unfold write_bind_creds.
  destruct (saved w s (with_creds dn pw (base_doc s)) Hw Hr) as (s' & -> & Hc & _ & Hm & Hl).
  split_and!; try done; cbn; [by rewrite Hm|].
  unfold try_schedule_service_recycle. by destruct (restart_requested (wz_latch s')) as [[]|] eqn:E; cbn; rewrite ?E.
Qed.
(** C23: the wizard gets there.  From any configuration that can be read and whose
    [sssd] is a table (or absent), where no variable of the environment overrides
    the core settings, over a writable volume, with a server that is
    reached, a well-formed address and non-blank credentials that bind, the two tests and
    the two saves lead to a configuration with these values and otherwise as it was, with the
    marker set, a restart requested, the wizard at Ready and its visitors at the
    login page.  (Over an inline [sssd] the credentials are not written.) *)
Theorem setup_finishes w s form dn pw c :
  (forall c, apply_core_env_overrides (wo_env w) c = c) -> check_volume w = true ->
  io_write (wo_io w) = Written -> io_rename (wo_io w) = true -> wo_marker_written w = true -> wo_bind_lost w = false ->
  config_of_doc (base_doc (D := D) s) = Some c -> plain (item "sssd" (base_doc (D := D) s)) ->
  ldap_uri_is_structurally_valid form = true -> is_empty (trim dn) = false -> is_empty (trim pw) = false ->
  reach w (trim form) = Reachable ->
  let c' := sssd_pw pw (sssd_dn (trim dn) (set_uri (trim form) c)) in
  check_ldap_bind (wo_ldapsearch w) c' = Ok tt ->
  let s' := go [(w, TestStep2 form); (w, ContinueStep2 form); (w, TestStep3 dn pw); (w, ContinueStep3 dn pw)] s in
  load_lenient (D := D) (wo_env w) (contents s') = Ok c'
  /\ wz_marker s' = true /\ restart_requested (wz_latch s') <> None
  /\ current_step (D := D) w s' = Ready /\ setup_wizard_required (setup_of (D := D) w s') = false
  /\ fst (answer w GetSetup s') = GoTo "/login".
Proof.
  intros Henv Hvol Hw Hr Hmk Hlost Hc Hp Hform Hdn Hpw Hreach c' Hb s'.
  pose proof (structural_validates form Hform) as Hv.
  set (s1 := on_test (store_step2_test (trim form)) s).
  assert (E1 : snd (answer w (TestStep2 form) s) = s1) by (by apply step2_tested).
  set (s2 := snd (answer w (ContinueStep2 form) s1)).
  destruct (step2_saved w s1 form Hv ltac:(cbn; by rewrite trim_idem) Hw Hr) as (Hc2 & Hm2 & _).
  fold s2 in Hc2, Hm2. change (base_doc s1) with (base_doc (D := D) s) in Hc2.
  pose proof (with_uri_reads (trim form) _ _ Hc) as Hr2. rewrite trim_idem in Hr2.
  assert (Hok2 : doc_ok (with_uri (trim form) (base_doc (D := D) s))) by (apply set_key_ok, base_doc_ok).
  assert (Hl2 : load_lenient (D := D) (wo_env w) (contents s2) = Ok (set_uri (trim form) c)) by (rewrite Hc2; by apply lenient_written).
  destruct (written_base s2 _ _ Hc2 Hok2 Hr2) as (Hb2 & Hm).
  set (s3 := on_test (store_step3_test dn pw) s2).
  assert (E3 : snd (answer w (TestStep3 dn pw) s2) = s3).
  { apply (step3_tested w s2 dn pw _ Hdn Hpw Hlost Hl2); [|exact Hb]. cbn. rewrite trim_idem.
    unfold ldap_uri_is_structurally_valid in Hform. by destruct (is_empty (trim form)). }
  destruct (step3_saved w s3 dn pw Hdn Hpw eq_refl eq_refl Hw Hr) as (Hc4 & Hm4 & _ & Hl4).
  assert (Es : s' = snd (answer w (ContinueStep3 dn pw) s3)) by (subst s'; unfold run; cbn [foldl fst snd]; rewrite E1; fold s2; by rewrite E3).
  change (base_doc s3) with (base_doc (D := D) s2) in Hc4. rewrite <- Es in Hc4, Hm4, Hl4.
  assert (Hp2 : plain (item "sssd" (base_doc (D := D) s2))).
  { apply (plain_meaning (item "sssd" (base_doc (D := D) s))); [|done]. rewrite Hm. unfold with_uri. by rewrite set_key_other. }
  pose proof (with_creds_reads dn pw _ _ Hp2 Hb2) as Hr4.
  assert (Hl : load_lenient (D := D) (wo_env w) (contents s') = Ok c').
  { rewrite Hc4. apply lenient_written; [done| |exact Hr4]. unfold with_creds. apply set_key_ok, set_key_ok, base_doc_ok. }
  assert (Hmark : wz_marker s' = true) by (rewrite Hm4, Hmk; apply orb_true_r).
  clear Es. clearbody s'. split_and!; [done..| | |].
  - unfold current_step, compute_wizard_step. rewrite Hvol, Hl, Hmark. cbn [negb ok_value].
    assert (ldap_uri_is_structurally_valid (ldap_uri c') = true) as ->.
    { change (ldap_uri c') with (trim form). revert Hform. unfold ldap_uri_is_structurally_valid. by rewrite trim_idem. }
    unfold bind_fields_missing. change (ss_ldap_default_bind_dn (sssd c')) with (trim dn). change (ss_ldap_default_authtok (sssd c')) with pw.
    by rewrite trim_idem, Hdn, Hpw.
  - unfold setup_wizard_required. cbn. rewrite Hmark. by destruct (is_preconfigured_deployment _ _ _).
  - cbn. unfold setup_redirect, setup_redirect_for_step. cbn. rewrite Hmark. by destruct (is_preconfigured_deployment _ _ _).
Qed.
End Progress.

(** ** A setup *)
Section Open.
Context {D : Type} `{!TomlDoc D} `{!TomlLaws D}.
Context (save_text : SaveError -> string) (load_text : LoadError -> string).
(** The requests of the wizard ask for no session and do not look at the marker:
    when the setup is long finished, two requests of anybody move the server to
    an address of their choice, and a third makes the host send the stored
    password there. *)
Theorem wizard_open_after_setup w s form c :
  wz_marker s = true -> (forall c, apply_core_env_overrides (wo_env w) c = c) ->
  io_write (wo_io w) = Written -> io_rename (wo_io w) = true ->
  config_of_doc (base_doc (D := D) s) = Some c -> bind_fields_missing c = false ->
  ldap_uri_is_structurally_valid form = true -> reach w (trim form) = Reachable ->
  let s' := run (D := D) save_text load_text [(w, TestStep2 form); (w, ContinueStep2 form)] s in
  require_setup_complete (setup_of (D := D) w s) "/setup/2/continue" = None
  /\ load_lenient (D := D) (wo_env w) (contents s') = Ok (set_uri (trim form) c)
  /\ run_bind_probe_from_disk (D := D) w s' = Some (bind_probe w (set_uri (trim form) c))
  /\ ss_ldap_default_authtok (sssd c) ∈ snd (bind_command (set_uri (trim form) c)).
Proof.
  intros Hm Henv Hw Hr Hc Hb Hform Hreach s'. split; [done|].
  pose proof (structural_validates form Hform) as Hv.
  destruct (step2_saved (D := D) save_text load_text w (on_test (store_step2_test (trim form)) s) form Hv
    ltac:(cbn; by rewrite trim_idem) Hw Hr) as (Hc2 & _).
  assert (Es : s' = snd (serve save_text load_text w (ContinueStep2 form) (on_test (store_step2_test (trim form)) s))).
  { subst s'. unfold run. cbn [foldl fst snd]. by rewrite step2_tested. }
  rewrite <- Es in Hc2. clear Es. clearbody s'. change (base_doc (on_test _ s)) with (base_doc (D := D) s) in Hc2.
  assert (Hl : load_lenient (D := D) (wo_env w) (contents s') = Ok (set_uri (trim form) c)).
  { rewrite Hc2. apply lenient_written; [done|apply set_key_ok, base_doc_ok|].
    pose proof (with_uri_reads (trim form) _ _ Hc) as H. by rewrite trim_idem in H. }
  split; [done|]. split; [|exact (bind_password_on_command_line (set_uri (trim form) c))].
  unfold run_bind_probe_from_disk. rewrite Hl. cbn [ok_value mbind option_bind].
  assert (is_empty (trim (ldap_uri (set_uri (trim form) c))) = false) as ->.
  { cbn. rewrite trim_idem. unfold ldap_uri_is_structurally_valid in Hform. by destruct (is_empty (trim form)). }
  change (bind_fields_missing (set_uri (trim form) c)) with (bind_fields_missing c). by rewrite Hb.
Qed.
End Open.

(** A world in which every server is reached and only one accepts binds. *)
Definition demo_server_uri : string := "ldaps://kl.example.org:6360".
Definition demo_world : World := {|
  wo_env := no_env; wo_bind_mounted := true; wo_can_create := true; wo_keytab := true; wo_config_dir := "/config";
  wo_hostname := Ran (Some 0) "aurora" ""; wo_proc := Ok "aurora";
  wo_getent := fun _ => Ran (Some 0) "" ""; wo_nc := fun _ _ => Ran (Some 0) "" "";
  wo_ldapsearch := fun c => Ran (if bool_decide (demo_server_uri ∈ snd c) then Some 0 else Some 49) "" "Invalid credentials (49)";
  wo_reach_lost := false; wo_bind_lost := false; wo_io := all_written; wo_marker_written := true; wo_removed := true; wo_now := 5 |}.
Definition fresh_wizard : Wizard := {|
  wz_test := no_tests; wz_disk := {| cd_conf := None; cd_tmp := None |}; wz_marker := false; wz_latch := idle |}.
Definition demo_dn : string := " uid=admin,dc=example,dc=org ".
Definition no_save_text (e : SaveError) : string := "".
Definition no_load_text (e : LoadError) : string := "".
Definition demo_requests (l : list SetupRequest) : list (World * SetupRequest) := map (pair demo_world) l.
Lemma no_env_overrides c : apply_core_env_overrides no_env c = c.
Proof. destruct c as [? ? ? ? [] ? [] ? [] ? [] ? ?]. reflexivity. Qed.
Lemma setup_finishes_witness :
  let s' := run (D := ModelDoc) no_save_text no_load_text
              (demo_requests [TestStep2 demo_server_uri; ContinueStep2 demo_server_uri; TestStep3 demo_dn "pw"; ContinueStep3 demo_dn "pw"]) fresh_wizard in
  wz_marker s' = true /\ current_step (D := ModelDoc) demo_world s' = Ready.
Proof.
  destruct (config_of_doc (base_doc (D := ModelDoc) fresh_wizard)) as [c|] eqn:Ec; [|vm_compute in Ec; discriminate].
  assert (Hb : is_ok (check_ldap_bind (wo_ldapsearch demo_world) (sssd_pw "pw" (sssd_dn (trim demo_dn) (set_uri (trim demo_server_uri) c)))) = true).
  { vm_compute in Ec. injection Ec as <-. vm_compute. reflexivity. }
  destruct (setup_finishes (D := ModelDoc) no_save_text no_load_text demo_world fresh_wizard demo_server_uri demo_dn "pw" c no_env_overrides
    eq_refl eq_refl eq_refl eq_refl eq_refl Ec ltac:(vm_compute; exact I) eq_refl eq_refl eq_refl ltac:(vm_compute; reflexivity))
    as (_ & Hm & _ & Hs & _); [by destruct (check_ldap_bind _ _) as [[]|]|].
  exact (conj Hm Hs).
Defined.
Lemma wizard_saves_tested_witness :
  let es := demo_requests [TestStep2 (" " +:+ demo_server_uri); GetStep2] in
  uri_tested es demo_server_uri
  /\ conf_text (wz_disk (snd (serve (D := ModelDoc) no_save_text no_load_text demo_world (ContinueStep2 demo_server_uri)
       (run (D := ModelDoc) no_save_text no_load_text es fresh_wizard))))
     = Some (doc_text (with_uri demo_server_uri (empty_doc : ModelDoc))).
Proof.
  pose proof (wizard_saves_tested (D := ModelDoc) no_save_text no_load_text demo_world (ContinueStep2 demo_server_uri)
    (demo_requests [TestStep2 (" " +:+ demo_server_uri); GetStep2]) fresh_wizard eq_refl) as H.
  cbv zeta in H |- *. destruct (serve _ _ _ _ _) as [reply s'] eqn:E.
  assert (Hs : conf_text (wz_disk s') = Some (doc_text (with_uri demo_server_uri (empty_doc : ModelDoc)))).
  { apply (f_equal (fun r => conf_text (wz_disk (snd r)))) in E. cbn [snd] in E. rewrite <- E. vm_compute. reflexivity. }
  destruct H as [(Hc & _)|[(form & uri & [= <-] & Hv & Ht & _)|(dn & pw & Hx & _)]]; [|split; [|exact Hs]|discriminate Hx].
  - exfalso. unfold conf_text in Hs. rewrite Hc in Hs. vm_compute in Hs. discriminate.
  - assert (E2 : uri = demo_server_uri)
      by (apply (f_equal (fun r => match r with Ok u => u | Err _ => "" end)) in Hv; vm_compute in Hv; by rewrite <- Hv).
    rewrite E2 in Ht. exact Ht.
Defined.
Lemma setup_redirects_end_witness :
  exists last, page_target (D := ModelDoc) no_save_text no_load_text demo_world fresh_wizard last = None
    /\ setup_wizard_required (setup_of (D := ModelDoc) demo_world fresh_wizard) = true /\ last = "/setup/2".
Proof.
  destruct (setup_redirects_end (D := ModelDoc) no_save_text no_load_text demo_world fresh_wizard "/login" ltac:(by_elem)) as (last & H & _ & Hl).
  assert (Hreq : setup_wizard_required (setup_of (D := ModelDoc) demo_world fresh_wizard) = true) by (vm_compute; reflexivity).
  exists last. split; [exact H|]. split; [exact Hreq|]. specialize (Hl Hreq). vm_compute in Hl. by injection Hl.
Defined.
(** A test of the credentials is not forgotten when the address changes: they
    are saved for a server that they were never tried on. *)
Theorem bind_test_survives_new_address :
  let s' := run (D := ModelDoc) no_save_text no_load_text
              (demo_requests [TestStep2 demo_server_uri; ContinueStep2 demo_server_uri; TestStep3 demo_dn "pw";
                              TestStep2 "ldaps://other.example.org"; ContinueStep2 "ldaps://other.example.org"; ContinueStep3 demo_dn "pw"])
              fresh_wizard in
  wz_marker s' = true /\ read_ldap_uri_from_disk (D := ModelDoc) s' = "ldaps://other.example.org"
  /\ is_some (run_bind_probe_from_disk (D := ModelDoc) demo_world s') = true
  /\ match setup_step3_status (D := ModelDoc) demo_world s' with Tested ok _ _ _ => ok | _ => true end = false.
Proof. vm_compute. auto. Qed.
