(* ===== verification/SettingsTools.v ===== *)
(** * The diagnostics of the settings page

    Models the rest of the handlers of [web/settings/mod.rs]: the card of the
    LDAP client, its reload with the credentials on disk, the clearing and the
    refresh of its caches, and the tests of the LDAP server and of the bind,
    which use the probes of Probes.v and SetupWizard.v. *)

From S2P Require Import Prelude RustStr State Identity Config ConfigLoad SettingsForm SettingsPage SettingsSave FsProbe Startup Auth Resolver LdapClient WebLogin PermHandlers RecycleLatch Host Probes SetupWizard.
Local Open Scope Z_scope.

Inductive ToolReply :=
| Unauthorized
| LoginFirst (target : string)
| StatusCard (auth_as last_auth : string) (on_disk : option string) (stats : LdapCacheStats) (hit_rate : Z)
| ReloadUnreadable (e : LoadError)
| ReloadNoPassword (user : string)
| Reloaded (user : string) (settings : ResolverConfig)
| ReloadRefused (e : LdapError)
| CacheCleared
| Outcome (passed : bool) (message error : option string) (log : option string).
Definition ago_text (now : Z) (t : Z) : string :=
  let secs := (now - t) / SECS in
  if secs <? 60 then dec secs +:+ "s ago" else dec (secs / 60) +:+ "m ago".
(** The percentage, rounded down. *)
Definition hit_rate (hits misses : Z) : Z := if 0 <? hits + misses then hits * 100 / (hits + misses) else 0.
Definition no_password (pass : string) : bool :=
  is_empty (trim pass) || seqb pass "SET_ME" || seqb pass "CHANGE_THIS_TO_A_STRONG_SECRET".

Section Tools.
Context {D : Type} `{!TomlDoc D}.
Context (sha256 : Bytes -> Bytes) (to_json : gmap string PersistedSession -> string) (disk_ok : nat -> bool).
Context (to_lowercase : string -> string) (server : nat -> Query -> Attempt) (op_timeout_secs : Z).
Context (user_base group_base : string) (pa : PosixAttributeMapping).
Context (load_text : LoadError -> string) (w : World).
(** Whether the configuration file is there at all. *)
Context (file_exists : bool).
Definition file_of (s : Site) : option (option string) := if file_exists then Some (conf_text (st_disk s)) else None.
Definition on_web {A} (m : W A) (s : Site) : A * Site :=
  let '(a, w) := m (st_web s) in
  (a, {| st_web := w; st_shared := st_shared s; st_latch := st_latch s; st_disk := st_disk s |}).
Local Abbreviation session := (with_session sha256 to_json disk_ok).
Definition lldap_status (now : Z) (h : Headers) : Site -> ToolReply * Site :=
  session (fun _ => Unauthorized) now h (fun _ s =>
    let client := w_client (st_web s) in
    let auth_as := default "(none)" (lc_username client) in
    let last := match lc_last_auth_time client with
                | Some t => ago_text (LdapClient.clock client) t
                | None => "never (startup failed?)"
                end in
    let disk_user := match load_config_from (D := D) (wo_env w) (file_of s) with
                     | Ok c => fst (ldap_service_creds (wo_env w) c)
                     | Err _ => "(unknown)"
                     end in
    let '(stats, s) := on_web (with_client cache_stats_summary) s in
    (StatusCard auth_as last (if seqb disk_user auth_as then None else Some disk_user) stats
       (hit_rate (st_hits stats) (st_misses stats)), s)).
(** The new client takes over only when it accepted the credentials. *)
Definition reload_nfs_client (now : Z) (h : Headers) : Site -> ToolReply * Site :=
  session (fun _ => Unauthorized) now h (fun _ s =>
    match load_config_from (D := D) (wo_env w) (file_of s) with
    | Err e => (ReloadUnreadable e, s)
    | Ok fresh =>
        let '(user, pass) := ldap_service_creds (wo_env w) fresh in
        if no_password pass then (ReloadNoPassword user, s)
        else
          let '(settings, client, _) := from_config fresh (LdapClient.clock (w_client (st_web s))) in
          match authenticate user pass client with
          | (Ok _, client) => (Reloaded user settings, snd (on_web (with_client (fun _ => (tt, client))) s))
          | (Err e, _) => (ReloadRefused e, s)
          end
    end).
Definition clear_ldap_cache (now : Z) (h : Headers) : Site -> ToolReply * Site :=
  session (fun _ => Unauthorized) now h (fun _ s =>
    let '(_, s) := on_web (with_client clear_cache) s in (CacheCleared, s)).
Definition settings_refresh_identity (now : Z) (h : Headers) : Site -> ToolReply * Site :=
  session LoginFirst now h (fun _ s =>
    let '(n, s) := on_web (with_client (refresh_identity_data to_lowercase server op_timeout_secs user_base group_base pa)) s in
    (match n with
     | Some n => Outcome true (Some "Identity refresh complete.") None
         (Some ("Bulk reload complete: " +:+ dec (Z.of_nat n) +:+ " identities (0 can mean an empty directory or an unreachable LDAP server). Autocomplete lists repopulated."))
     | None => Outcome false None (Some "LDAP service credentials are not configured (or the refresh task failed).")
         (Some (nls ["<strong>Status</strong>"; "No service bind available — nothing refreshed."]))
     end, s)).
Definition settings_test_ldap (form : string) (now : Z) (h : Headers) : Site -> ToolReply * Site :=
  session LoginFirst now h (fun _ s =>
    match validate_ldap_uri form with
    | Err e => let e := wizard_error_text e (fun _ => "") in (Outcome false None (Some e) (Some (validation_log e)), s)
    | Ok uri =>
        let r := reach w uri in
        (Outcome (is_reachable r) (if is_reachable r then Some "Reachability test passed." else None)
           (if is_reachable r then None else Some (user_message r))
           (Some (format_reachability_probe (extract_host_from_uri uri) uri r)), s)
    end).
(** A blank password stands for the stored one. *)
Definition on_disk_only (d : ConfDisk) : Wizard := {| wz_test := no_tests; wz_disk := d; wz_marker := true; wz_latch := idle |}.
Definition settings_test_bind (dn pw : string) (now : Z) (h : Headers) : Site -> ToolReply * Site :=
  session LoginFirst now h (fun _ s =>
    if is_empty (trim dn) then (Outcome false None (Some "Bind DN is required.") (Some (validation_log "Bind DN is required.")), s)
    else
      let '(r, log) := bind_test (D := D) load_text w (on_disk_only (st_disk s)) dn pw in
      (match r with
       | Ok _ => Outcome true (Some "Bind test passed.") None (Some log)
       | Err e => Outcome false None (Some e) (Some log)
       end, s)).
End Tools.

(** ** Properties *)
Section Spec.
Context {D : Type} `{!TomlDoc D}.
Context (sha256 : Bytes -> Bytes) (to_json : gmap string PersistedSession -> string) (disk_ok : nat -> bool).
Context (to_lowercase : string -> string) (server : nat -> Query -> Attempt) (op_timeout_secs : Z) (user_base group_base : string) (pa : PosixAttributeMapping).
Context (load_text : LoadError -> string) (w : World) (file_exists : bool).
Local Abbreviation user_of now h s := (newest_user sha256 now h (st_web s)).
Local Abbreviation reload := (reload_nfs_client (D := D) sha256 to_json disk_ok w file_exists).
Inductive Tool := Status | Reload | Clear | Refresh | TestLdap (uri : string) | TestBind (dn pw : string).
Definition tool (t : Tool) (now : Z) (h : Headers) : Site -> ToolReply * Site :=
  match t with
  | Status => lldap_status (D := D) sha256 to_json disk_ok w file_exists now h
  | Reload => reload now h
  | Clear => clear_ldap_cache sha256 to_json disk_ok now h
  | Refresh => settings_refresh_identity sha256 to_json disk_ok to_lowercase server op_timeout_secs user_base group_base pa now h
  | TestLdap uri => settings_test_ldap sha256 to_json disk_ok w uri now h
  | TestBind dn pw => settings_test_bind (D := D) sha256 to_json disk_ok load_text w dn pw now h
  end.
Definition refused (r : ToolReply) : bool := match r with Unauthorized | LoginFirst _ => true | _ => false end.
Lemma on_web_core {A} (m : W A) s : core (snd (on_web m s)) = core s /\ st_disk (snd (on_web m s)) = st_disk s.
Proof. unfold on_web. by destruct (m (st_web s)). Qed.
Ltac keeps_core s :=
  match goal with |- context [on_web ?m s] =>
    let H := fresh in pose proof (on_web_core m s) as [H _]; let x := fresh "x" in destruct (on_web m s) as [x ?] end.
(** The tools answer a live session only and change neither the file nor the
    configurations in memory nor the latch. *)
Theorem tools_guarded t now h s :
  let r := tool t now h s in
  core (snd r) = core s /\ (refused (fst r) = false -> is_Some (user_of now h s)).
Proof.
  cbv zeta. assert (Hs : forall (missing : string -> ToolReply) body,
    (forall target, refused (missing target) = true) -> (forall u s1, core (snd (body u s1)) = core s1) ->
    let r := with_session sha256 to_json disk_ok missing now h body s in
    core (snd r) = core s /\ (refused (fst r) = false -> is_Some (user_of now h s))).
  { intros missing body Hm Hb. pose proof (session_spec sha256 to_json disk_ok missing now now h body s (Z.le_refl _)) as H. cbv zeta in *.
    destruct (user_of now h s) as [u|].
    - destruct H as (s1 & -> & Hc & _). by rewrite Hb.
    - destruct H as ((target & Ht) & Hc & _). split; [done|]. by rewrite Ht, Hm. }
  destruct t; cbn [tool]; (apply Hs; [done|]); intros u s1; cbn -[on_web from_config authenticate].
  - by keeps_core s1.
  - destruct (load_config_from _ _) as [c|e]; [|done]. destruct (ldap_service_creds _ c) as [u' p]. destruct (no_password p); [done|].
    match goal with |- context [from_config c ?x] => destruct (from_config c x) as [[settings client] ?] end. destruct (authenticate u' p client) as [[[]|e] client']; [|done].
    apply on_web_core.
  - by keeps_core s1.
  - keeps_core s1. by destruct x.
  - by destruct (validate_ldap_uri uri).
  - destruct (is_empty _); [done|]. by destruct (bind_test _ _ _ _ _) as [[]].
Qed.
(** The client is replaced exactly when the reply says so, by a fresh one with
    the credentials of the configuration on disk. *)
Lemma reload_spec now h s :
  let '(r, s') := reload now h s in
  match r with
  | Reloaded user settings =>
      exists c pass, load_config_from (D := D) (wo_env w) (file_of file_exists s) = Ok c
        /\ ldap_service_creds (wo_env w) c = (user, pass) /\ no_password pass = false
        /\ settings = fst (fst (from_config c (LdapClient.clock (w_client (st_web s)))))
        /\ service_bind_creds (w_client (st_web s')) = Some (user, pass) /\ bind_log (w_client (st_web s')) = []
        /\ fst (bind_stats (identity_resolver (w_client (st_web s')))) = 0
  | _ => w_client (st_web s') = w_client (st_web s)
  end.
Proof.
  unfold reload_nfs_client, with_session. destruct (require_auth_run sha256 to_json disk_ok now now h (st_web s) (Z.le_refl _)) as (_ & _ & Hr).
  destruct (require_auth _ _ _ now h (st_web s)) as [[u|target] w1]; cbn in Hr; destruct Hr as (Hcl & _); [|exact Hcl].
  unfold file_of. cbn [st_disk st_web]. fold (file_of file_exists s).
  destruct (load_config_from _ _) as [c|e] eqn:El; [|exact Hcl]. destruct (ldap_service_creds _ c) as [user pass] eqn:Ec.
  destruct (no_password pass) eqn:Ep; [exact Hcl|]. rewrite Hcl.
  set (t := LdapClient.clock (w_client (st_web s))).
  assert (Ef : exists settings nv, from_config c t = (settings, new_client t, nv)).
  { unfold from_config. destruct (ldap_tls_policy _ _ _ _) as [no_verify start_tls]. by eexists _, _. }
  destruct Ef as (settings & nv & Ef). rewrite Ef. cbn -[from_config]. exists c, pass. fold t. rewrite Ef. by split_and!.
Qed.
(** A reload asks no server: whatever the password, the client that it calls
    authenticated has bound nowhere. *)
Theorem reload_asks_nobody now h s user settings s' :
  reload now h s = (Reloaded user settings, s') ->
  bind_log (w_client (st_web s')) = [] /\ fst (bind_stats (identity_resolver (w_client (st_web s')))) = 0.
Proof.
  intros H. pose proof (reload_spec now h s) as Hs. rewrite H in Hs. destruct Hs as (c & pass & _ & _ & _ & _ & _ & Hb & Hn). done.
Qed.
End Spec.
