(* ===== verification/NssContract.v ===== *)
(** * What Ganesha sees of a principal through the NSS wrapper

    Models [ganesha_nss_contract.rs]: the environment that Ganesha is given, the
    names it may look up, the probes of the passwd rows and the group lists, and
    the two contracts evaluated over them.  The record [Sys] is the system the
    probes look at; a command runs in a child environment, the own one with
    additions or a given one.  Text read from the system is UTF-8. *)

From S2P Require Import Prelude RustStr Identity Config Host.
Local Open Scope Z_scope.

(** [cmd.env] on top of the own environment, or [env_clear] and [envs]. *)
Inductive ChildEnv := Inherit (extra : list (string * string)) | Exactly (envp : list (string * string)).
(** The process environment, [is_file] and [exists], [read_to_string], the
    commands, the first line a Unix socket answers to a request, the bytes of
    [/proc/<pid>/environ], and the architecture the program is built for. *)
Record Sys := {
  sy_vars : gmap string string;
  sy_is_file : string -> bool;
  sy_exists : string -> bool;
  sy_read : string -> option string;
  sy_run : ChildEnv -> list string -> CommandRun;
  sy_socket : string -> string -> option string;
  sy_environ : Z -> option string;
  sy_arch : string;
}.
Definition env_of (s : Sys) : Env := fun k => sy_vars s !! k.
Definition find_first {A B} (f : A -> option B) (l : list A) : option B := head (omap f l).
(** [{:?}] of a [Vec<u32>]. *)
Definition debug_gids (l : list Z) : string := "[" +:+ join ", " (map dec l) +:+ "]".
Definition switched_on (v : string) : bool := negb (seqb v "0") && negb (eq_ignore_ascii_case v "false").

Section Sys.
Context (s : Sys).
Definition env_path (key dflt : string) : string := default dflt (env_of s key).
Definition first_file (l : list string) : option string := find_first (fun p => if sy_is_file s p then Some p else None) l.

(** ** The wrapper library and the preload chain *)
Definition wrapper_candidates : list string :=
  ["/usr/lib/" +:+ sy_arch s +:+ "-linux-gnu/libnss_wrapper.so"; "/usr/lib/" +:+ sy_arch s +:+ "/libnss_wrapper.so";
   "/usr/lib64/libnss_wrapper.so"; "/usr/lib/x86_64-linux-gnu/libnss_wrapper.so";
   "/usr/lib/aarch64-linux-gnu/libnss_wrapper.so"; "/usr/lib/libnss_wrapper.so"].
Definition find_nss_wrapper_so : option string :=
  match first_file wrapper_candidates with
  | Some p => Some p
  | None =>
      match sy_run s (Inherit []) ["dpkg-architecture"; "-qDEB_HOST_MULTIARCH"] with
      | NotExecuted _ => None
      | Ran _ out _ => if is_empty (trim out) then None else first_file ["/usr/lib/" +:+ trim out +:+ "/libnss_wrapper.so"]
      end
  end.
Definition resolve_nss_wrapper_so : option string :=
  match env_of s "NSS_WRAPPER_SO" with
  | Some p => if sy_is_file s p then Some p else find_nss_wrapper_so
  | None => find_nss_wrapper_so
  end.
Definition push_preload (parts : list string) (p : string) : list string :=
  let p := trim p in
  if negb (is_empty p) && negb (existsb (seqb p) parts) && sy_exists s p then parts ++ [p] else parts.
Definition preload_parts (nss_wrapper_so : string) : list string :=
  let parts := if sy_is_file s nss_wrapper_so then [nss_wrapper_so] else [] in
  match env_of s "LD_PRELOAD" with
  | Some cur => foldl push_preload parts (split ":" cur)
  | None => parts
  end.
Definition ld_preload_for_ganesha (nss_wrapper_so : string) : string := join ":" (preload_parts nss_wrapper_so).
Definition ld_preload_for_ganesha_nss : string := ld_preload_for_ganesha (default "" resolve_nss_wrapper_so).
Definition SSS_CANDIDATES : list string :=
  ["/usr/lib64/libnss_sss.so.2"; "/usr/lib/x86_64-linux-gnu/libnss_sss.so.2"; "/lib/x86_64-linux-gnu/libnss_sss.so.2";
   "/usr/lib/aarch64-linux-gnu/libnss_sss.so.2"; "/run/host/usr/lib64/libnss_sss.so.2";
   "/run/host/usr/lib/x86_64-linux-gnu/libnss_sss.so.2"].
Definition sss_from_env : option string :=
  p ← env_of s "NSS_SSS_MODULE_SO"; if is_empty p then None else first_file [p].
Definition sss_from_find : option string :=
  match sy_run s (Inherit []) ["find"; "/usr"; "/lib"; "-name"; "libnss_sss.so.2"; "-type"; "f"] with
  | Ran code out _ =>
      if succeeded code then first ← head (lines out); if is_empty first then None else first_file [trim first] else None
  | NotExecuted _ => None
  end.
Definition resolve_nss_sss_so : option string :=
  match sss_from_env with
  | Some p => Some p
  | None => match first_file SSS_CANDIDATES with Some p => Some p | None => sss_from_find end
  end.

(** ** The environment of Ganesha *)
Record GaneshaNssEnv := {
  ne_passwd : string; ne_group : string; ne_ld_preload : option string;
  ne_extrausers_passwd : option string; ne_extrausers_group : option string;
}.
Definition from_runtime_defaults : GaneshaNssEnv :=
  let use_nss := match env_of s "USE_NSS_WRAPPER" with Some v => switched_on v | None => true end in
  {| ne_passwd := env_path "NSS_PASSWD" "/var/lib/nfs-klldap/nss_passwd";
     ne_group := env_path "NSS_GROUP" "/var/lib/nfs-klldap/nss_group";
     ne_ld_preload := if use_nss && negb (is_empty ld_preload_for_ganesha_nss) then Some ld_preload_for_ganesha_nss else None;
     ne_extrausers_passwd := Some (env_path "NSS_EXTRAUSERS_PASSWD" "/var/lib/extrausers/passwd");
     ne_extrausers_group := Some (env_path "NSS_EXTRAUSERS_GROUP" "/var/lib/extrausers/group") |}.
Definition from_paths (nss_passwd nss_group : string) : GaneshaNssEnv :=
  {| ne_passwd := nss_passwd; ne_group := nss_group; ne_ld_preload := Some ld_preload_for_ganesha_nss;
     ne_extrausers_passwd := None; ne_extrausers_group := None |}.
Definition wrapper_available (e : GaneshaNssEnv) : bool :=
  match ne_ld_preload e with Some p => negb (is_empty p) | None => false end
  && is_some resolve_nss_wrapper_so && sy_is_file s (ne_passwd e) && sy_is_file s (ne_group e).
Definition opt_var (k : string) (v : option string) : list (string * string) := match v with Some v => [(k, v)] | None => [] end.
Definition apply_to_cmd (e : GaneshaNssEnv) : ChildEnv :=
  Inherit ([("NSS_WRAPPER_PASSWD", ne_passwd e); ("NSS_WRAPPER_GROUP", ne_group e)]
    ++ opt_var "NSS_EXTRAUSERS_PASSWD" (ne_extrausers_passwd e) ++ opt_var "NSS_EXTRAUSERS_GROUP" (ne_extrausers_group e)
    ++ opt_var "LD_PRELOAD" (ne_ld_preload e)
    ++ match resolve_nss_sss_so with
       | Some sss => [("NSS_WRAPPER_MODULE_SO_PATH", sss); ("NSS_WRAPPER_MODULE_FN_PREFIX", "_nss_sss_")]
       | None => []
       end).

(** ** Probes *)
Definition nss_lookup_names (principal : string) : list string :=
  let short := principal_local_part principal in
  let host_seg := machine_short_name principal in
  sort_dedup_s ([principal] ++ (if seqb short principal then [] else [short])
    ++ (if negb (seqb host_seg short) && negb (seqb host_seg principal) then [host_seg] else [])).
Definition stdout_of (r : CommandRun) : option string :=
  match r with Ran code out _ => if succeeded code then Some out else None | NotExecuted _ => None end.
Definition getent_passwd (name : string) (e : GaneshaNssEnv) : option (Z * Z) :=
  out ← stdout_of (sy_run s (apply_to_cmd e) ["getent"; "passwd"; name]);
  find_first parse_getent_passwd (lines out).
(** The row of a login in the file, if there is one, and what it parses to. *)
Fixpoint row_of (login : string) (ls : list string) : option (option (Z * Z)) :=
  match ls with
  | [] => None
  | l :: r =>
      if starts_with "#" l || is_empty (trim l) then row_of login r
      else if seqb (before ":" l) login then Some (parse_getent_passwd l)
      else row_of login r
  end.
Definition probe_nss_passwd_from_file (name : string) (e : GaneshaNssEnv) : option (Z * Z) :=
  content ← sy_read s (ne_passwd e);
  mjoin (find_first (fun candidate => row_of candidate (lines content)) (nss_lookup_names name)).
Definition probe_nss_passwd_from_file_exact (name : string) (e : GaneshaNssEnv) : option (Z * Z) :=
  content ← sy_read s (ne_passwd e); mjoin (row_of name (lines content)).
Definition probe_nss_passwd (name : string) (e : GaneshaNssEnv) : option (Z * Z) :=
  let live := if wrapper_available e then find_first (fun c => getent_passwd c e) (nss_lookup_names name) else None in
  match live with Some ids => Some ids | None => probe_nss_passwd_from_file name e end.
Definition probe_nss_passwd_exact (name : string) (e : GaneshaNssEnv) : option (Z * Z) :=
  let live := if wrapper_available e then
                out ← stdout_of (sy_run s (apply_to_cmd e) ["getent"; "passwd"; name]);
                l ← head (lines out); parse_getent_passwd l
              else None in
  match live with Some ids => Some ids | None => probe_nss_passwd_from_file_exact name e end.
Definition nonempty_gids (l : list Z) : option (list Z) := match l with [] => None | _ => Some l end.
Definition gids_of_stdout (out : string) : list Z := omap (parse_uint u32_max) (split_whitespace out).
Definition probe_nss_groups_exact (name : string) (e : GaneshaNssEnv) : option (list Z) :=
  if negb (wrapper_available e) then None
  else out ← stdout_of (sy_run s (apply_to_cmd e) ["id"; "-G"; name]); nonempty_gids (gids_of_stdout out).
Definition probe_nss_groups (name : string) (e : GaneshaNssEnv) : list Z :=
  if negb (wrapper_available e) then []
  else default [] (find_first (fun c => probe_nss_groups_exact c e) (nss_lookup_names name)).
Definition short_pw_name_for_principal (principal : string) : string := principal_local_part principal.

(** ** Contracts *)
Definition has_gid (g : Z) (l : list Z) : bool := existsb (Z.eqb g) l.
Definition fallback_ids (uid gid : Z) : bool := (uid =? FALLBACK_NOBODY_UID) || (gid =? FALLBACK_NOBODY_GID).
Definition fallback_only (gids : list Z) : bool := forallb (fun g => (g =? FALLBACK_NOBODY_GID) || (g =? 0)) gids.
Definition ids_text (uid gid : Z) : string := "uid=" +:+ dec uid +:+ " gid=" +:+ dec gid.
Definition evaluate_short_name_getgrouplist_contract (principal : string) (e : GaneshaNssEnv) (min_total_gids : Z) : bool * string :=
  let short := short_pw_name_for_principal principal in
  let found := match probe_nss_passwd_exact short e with Some ids => Some ids | None => probe_nss_passwd_from_file_exact short e end in
  match found with
  | None => (false, "short-getgrouplist:passwd-miss:" +:+ short)
  | Some (uid, gid) =>
      let live := wrapper_available e in
      let gids := if live then default [] (probe_nss_groups_exact short e) else [gid] in
      let n := Z.of_nat (length gids) in
      let min_want := Z.max min_total_gids 1 in
      if bool_decide (gids = []) && live then (false, "short-getgrouplist:no-groups:" +:+ short +:+ ":uid=" +:+ dec uid)
      else if fallback_ids uid gid then (false, "short-getgrouplist:fallback " +:+ ids_text uid gid)
      else if negb (has_gid gid gids) && live then
        (false, "short-getgrouplist:missing-primary:" +:+ short +:+ ":gid=" +:+ dec gid +:+ ":gids=" +:+ debug_gids gids)
      else if (n <? min_want) && live then
        (false, "short-getgrouplist:insufficient:" +:+ short +:+ ":" +:+ dec n +:+ "gids want>=" +:+ dec min_want
                +:+ " have=" +:+ debug_gids gids)
      else (true, "short-getgrouplist:ok:" +:+ short +:+ ":" +:+ dec uid +:+ ":" +:+ dec gid +:+ ":" +:+ dec n +:+ "gids:" +:+ debug_gids gids)
  end.
Definition evaluate_nss_contract (principal : string) (e : GaneshaNssEnv) (expect_machine : bool) : bool * string :=
  if negb (sy_is_file s (ne_passwd e)) then (false, "nss-contract:nss-passwd-missing")
  else
    let live := wrapper_available e in
    match probe_nss_passwd principal e with
    | None => (false, "nss-contract:passwd-miss:" +:+ principal)
    | Some (uid, gid) =>
        let gids := if live then probe_nss_groups principal e else [gid] in
        let none := bool_decide (gids = []) in
        let prefix := if live then "nss-contract:ok" else "nss-contract:file-ok" in
        if expect_machine then
          if negb (uid =? MACHINE_UID) || negb (gid =? MACHINE_GID) then (false, "nss-contract:machine-uid-gid " +:+ ids_text uid gid)
          else if negb none && negb (bool_decide (gids = [MACHINE_GID])) && negb (has_gid MACHINE_GID gids) then
            (false, "nss-contract:machine-groups " +:+ debug_gids gids)
          else (true, prefix)
        else if fallback_ids uid gid then (false, "nss-contract:user-fallback " +:+ ids_text uid gid +:+ " gids=" +:+ debug_gids gids)
        else if negb none && fallback_only gids then
          (false, "nss-contract:user-fallback-gids " +:+ debug_gids gids +:+ " " +:+ ids_text uid gid)
        else if none && live then (false, "nss-contract:user-no-groups " +:+ ids_text uid gid)
        else (true, prefix +:+ ":" +:+ dec uid +:+ ":" +:+ dec gid +:+ ":" +:+ dec (Z.of_nat (length gids)) +:+ "gids")
    end.
End Sys.

(** ** What the contracts say *)
Section Specs.
Context (s : Sys).
Lemma elem_of_nss_lookup_names n p :
  n ∈ nss_lookup_names p <-> n = p \/ n = principal_local_part p \/ n = machine_short_name p.
Proof.
  unfold nss_lookup_names. rewrite elem_of_sort_dedup_s, !elem_of_app, list_elem_of_singleton.
  destruct (seqb (principal_local_part p) p) eqn:E1; [apply seqb_eq in E1|apply seqb_neq in E1];
    (destruct (seqb (machine_short_name p) (principal_local_part p)) eqn:E2; [apply seqb_eq in E2|apply seqb_neq in E2]);
    (destruct (seqb (machine_short_name p) p) eqn:E3; [apply seqb_eq in E3|apply seqb_neq in E3]);
    cbn [negb andb]; rewrite ?list_elem_of_singleton, ?elem_of_nil; intuition congruence.
Qed.
Lemma find_first_Some {A B} (f : A -> option B) l b : find_first f l = Some b -> exists a, a ∈ l /\ f a = Some b.
Proof.
  unfold find_first. intros H. destruct (omap f l) as [|x r] eqn:E; [done|]. injection H as ->.
  apply list_elem_of_omap. rewrite E. by left.
Qed.
Lemma row_of_Some login ls o : row_of login ls = Some o ->
  exists l, l ∈ ls /\ before ":" l = login /\ o = parse_getent_passwd l.
Proof.
  induction ls as [|l ls IH]; [done|]. cbn [row_of].
  destruct (_ || _); [intros H; destruct (IH H) as (l' & ? & ?); exists l'; by split; [right|]|].
  destruct (seqb (before ":" l) login) eqn:E.
  - intros [= <-]. exists l. split_and!; [by left|by apply seqb_eq|done].
  - intros H; destruct (IH H) as (l' & ? & ?); exists l'; by split; [right|].
Qed.
(** The ids of a probe stand in a line that getent printed for one of the names,
    or in the row of one of the names in the passwd store. *)
Lemma probe_nss_passwd_source p e ids : probe_nss_passwd s p e = Some ids ->
  exists n l, (n = p \/ n = principal_local_part p \/ n = machine_short_name p) /\ parse_getent_passwd l = Some ids
    /\ ((exists out, wrapper_available s e = true
           /\ stdout_of (sy_run s (apply_to_cmd s e) ["getent"; "passwd"; n]) = Some out /\ l ∈ lines out)
        \/ (exists content, sy_read s (ne_passwd e) = Some content /\ l ∈ lines content /\ before ":" l = n)).
Proof.
  unfold probe_nss_passwd. destruct (if wrapper_available s e then _ else _) as [i|] eqn:E.
  - intros [= ->]. destruct (wrapper_available s e) eqn:Ew; [|done].
    apply find_first_Some in E as (n & Hn & (out & Ho & (l & Hl & Hp)%find_first_Some)%bind_Some).
    apply elem_of_nss_lookup_names in Hn. exists n, l. split_and!; try done. left. by exists out.
  - unfold probe_nss_passwd_from_file. intros (content & Hc & H)%bind_Some.
    clear E. destruct (find_first _ _) as [o|] eqn:Ef; [|discriminate H]. change (o = Some ids) in H. subst o.
    apply find_first_Some in Ef as (n & Hn & (l & Hl & Hb & Hp)%row_of_Some).
    apply elem_of_nss_lookup_names in Hn. exists n, l. split_and!; try done. right. by exists content.
Qed.
Definition groups_seen (p : string) (e : GaneshaNssEnv) (gid : Z) : list Z :=
  if wrapper_available s e then probe_nss_groups s p e else [gid].
Lemma has_gid_spec g l : has_gid g l = true <-> g ∈ l.
Proof.
  unfold has_gid. rewrite existsb_exists. split.
  - intros (x & Hx%list_elem_of_In & ->%Z.eqb_eq). done.
  - intros H%list_elem_of_In. exists g. by rewrite Z.eqb_refl.
Qed.
Lemma fallback_only_false l : fallback_only l = false <-> exists g, g ∈ l /\ g <> FALLBACK_NOBODY_GID /\ g <> 0.
Proof.
  unfold fallback_only. induction l as [|g l IH]; cbn [forallb]; [split; [done|intros (g & H & _); by apply elem_of_nil in H]|].
  rewrite andb_false_iff, orb_false_iff, !Z.eqb_neq, IH. setoid_rewrite elem_of_cons. naive_solver.
Qed.
(** A principal passes exactly when it has a row: a machine the row of root with
    group 0 if any; a user ids other than those of nobody and a group other than
    those of nobody and root. *)
Lemma nss_contract_exact p e machine :
  fst (evaluate_nss_contract s p e machine) = true <->
  sy_is_file s (ne_passwd e) = true /\ exists uid gid, probe_nss_passwd s p e = Some (uid, gid) /\
    let gids := groups_seen p e gid in
    if machine then uid = MACHINE_UID /\ gid = MACHINE_GID /\ (gids = [] \/ MACHINE_GID ∈ gids)
    else uid <> FALLBACK_NOBODY_UID /\ gid <> FALLBACK_NOBODY_GID
         /\ exists g, g ∈ gids /\ g <> FALLBACK_NOBODY_GID /\ g <> 0.
Proof.
  unfold evaluate_nss_contract. destruct (sy_is_file s (ne_passwd e)); cbn [negb]; [|split; [done|by intros [? _]]].
  destruct (probe_nss_passwd s p e) as [[uid gid]|]; [|split; [done|by intros (_ & ? & ? & ? & _)]].
  fold (groups_seen p e gid). set (gids := groups_seen p e gid).
  assert (Hlive : wrapper_available s e = false -> gids = [gid]) by (intros H; unfold gids, groups_seen; by rewrite H).
  split.
  - intros H. split; [done|]. exists uid, gid. split; [done|]. cbv zeta. fold (groups_seen p e gid). fold gids.
    destruct machine.
    + destruct (negb (uid =? _) || _) eqn:E1; [done|]. apply orb_false_iff in E1 as [H1%negb_false_iff%Z.eqb_eq H2%negb_false_iff%Z.eqb_eq].
      split_and!; try done. destruct (bool_decide_reflect (gids = [])); [by left|right].
      apply has_gid_spec.
      destruct (bool_decide_reflect (gids = [MACHINE_GID])) as [E|]; [by rewrite E|]. by destruct (has_gid MACHINE_GID gids).
    + unfold fallback_ids in H. destruct (_ || _) eqn:E1 in H; [done|]. apply orb_false_iff in E1 as [H1%Z.eqb_neq H2%Z.eqb_neq].
      split_and!; try done. apply fallback_only_false.
      destruct (bool_decide_reflect (gids = [])) as [E|]; cbn [negb andb] in H; [|by destruct (fallback_only gids)].
      destruct (wrapper_available s e); [done|]. by rewrite Hlive in E.
  - intros (_ & u & g & [= <- <-] & H). cbv zeta in H. fold (groups_seen p e gid) in H. fold gids in H.
    destruct machine.
    + destruct H as (-> & -> & H). rewrite !Z.eqb_refl. cbn [negb orb].
      destruct H as [->|H%has_gid_spec]; [by rewrite bool_decide_true|]. rewrite H. by rewrite !andb_false_r.
    + destruct H as (H1%Z.eqb_neq & H2%Z.eqb_neq & H3%fallback_only_false). unfold fallback_ids. rewrite H1, H2, H3. cbn [orb]. rewrite andb_false_r.
      destruct (bool_decide_reflect (gids = [])) as [E|]; [|done]. rewrite E in H3. done.
Qed.

(** The preload chain starts with the wrapper, names only what is there, and
    nothing twice. *)
Lemma push_preload_ok parts p : NoDup parts -> NoDup (push_preload s parts p) /\ parts `prefix_of` push_preload s parts p
  /\ forall q, q ∈ push_preload s parts p -> q ∈ parts \/ sy_exists s q = true.
Proof.
  intros Hn. unfold push_preload. destruct (negb (is_empty (trim p)) && _ && _) eqn:E; [|by split_and!; auto].
  apply andb_true_iff in E as [[_ E%negb_true_iff]%andb_true_iff Hx]. split_and!.
  - apply NoDup_app. split_and!; [done| |apply NoDup_singleton]. intros x Hx' ->%list_elem_of_singleton.
    apply not_true_iff_false in E. apply E, existsb_exists. exists (trim p). split; [by apply list_elem_of_In|apply seqb_refl].
  - by exists [trim p].
  - intros q [Hq|Hq%list_elem_of_singleton]%elem_of_app; [by left|right; by rewrite Hq].
Qed.
Lemma preload_parts_ok so :
  NoDup (preload_parts s so) /\ (sy_is_file s so = true -> head (preload_parts s so) = Some so)
  /\ forall q, q ∈ preload_parts s so -> q = so /\ sy_is_file s so = true \/ sy_exists s q = true.
Proof.
  unfold preload_parts. set (p0 := if sy_is_file s so then [so] else []).
  assert (H : forall l parts, NoDup parts -> let r := foldl (push_preload s) parts l in
    NoDup r /\ parts `prefix_of` r /\ forall q, q ∈ r -> q ∈ parts \/ sy_exists s q = true).
  { induction l as [|p l IH]; intros parts Hn; [by split_and!; auto|]. cbn [foldl].
    destruct (push_preload_ok parts p Hn) as (H1 & H2 & H3). destruct (IH _ H1) as (H4 & H5 & H6).
    split_and!; [done|by etrans|]. intros q [Hq|Hq]%H6; auto. }
  assert (H0 : NoDup p0 /\ forall q, q ∈ p0 -> q = so /\ sy_is_file s so = true).
  { unfold p0. destruct (sy_is_file s so); (split; [|intros q Hq]).
    - apply NoDup_singleton.
    - by apply list_elem_of_singleton in Hq as ->.
    - constructor.
    - by apply elem_of_nil in Hq. }
  destruct H0 as [Hn H0]. destruct (env_of s "LD_PRELOAD") as [cur|].
  - destruct (H (split ":" cur) p0 Hn) as (H1 & [r Hr] & H3). split_and!; [exact H1| |].
    + intros E. rewrite Hr. unfold p0. by rewrite E.
    + intros q [Hq|Hq]%H3; auto.
  - split_and!; [done| |auto]. intros E. unfold p0. by rewrite E.
Qed.
End Specs.
(** The store has a nobody row for the principal that Ganesha asks for, and the
    contract passes over the row of the short name, which sorts first. *)
Definition masked_sys : Sys := {|
  sy_vars := ∅; sy_is_file := fun p => seqb p "/nss_passwd"; sy_exists := fun _ => false;
  sy_read := fun _ => Some (unlines ["alice@OTHER.ORG:x:65534:65534::/:/bin/false"; "alice:x:1001:1001::/:/bin/false"]);
  sy_run := fun _ _ => NotExecuted ""; sy_socket := fun _ _ => None; sy_environ := fun _ => None; sy_arch := "x86_64" |}.
Theorem short_row_masks_fallback :
  let e := from_paths masked_sys "/nss_passwd" "/nss_group" in
  fst (evaluate_nss_contract masked_sys "alice@OTHER.ORG" e false) = true
  /\ probe_nss_passwd_exact masked_sys "alice@OTHER.ORG" e = Some (FALLBACK_NOBODY_UID, FALLBACK_NOBODY_GID).
Proof. vm_compute. auto. Qed.
