(* ===== verification/Readiness.v ===== *)
(** * Ganesha readiness: environment, liveness, log and group probes

    Models [ganesha_readiness.rs] and [ganesha_liveness.rs]: the environment that
    Ganesha is started with, what is read of it back from [/proc], liveness of a
    process, the scans of ganesha.log, the probes through [id -G] and through the
    socket of the idhelper, and the one-shot readiness report.  A slice of a
    string that does not start at a character panics, which is [None]. *)

From S2P Require Import Prelude RustStr Identity Config Host NssContract.
Local Open Scope Z_scope.

Record GaneshaSpawnEnv := {
  se_nss_passwd : string; se_nss_group : string; se_extrausers_passwd : string; se_extrausers_group : string;
  se_idhelper_bin : string; se_idhelper_socket : string; se_nss_wrapper_so : string; se_use_nss_wrapper : bool;
}.
Record GaneshaReadinessReport := {
  root_ok : bool; sample_ok : bool; short_root_ok : bool; short_sample_ok : bool; socket_ok : bool;
  ganesha_process_ok : bool; ganesha_uid2grp_clean : bool; synthetic_clean : bool;
}.
Definition is_ready (r : GaneshaReadinessReport) : bool :=
  root_ok r && sample_ok r && short_root_ok r && short_sample_ok r && socket_ok r
  && ganesha_process_ok r && ganesha_uid2grp_clean r && synthetic_clean r.

(** ** Environments *)
(** [str::from_utf8] succeeds: the well-formed byte sequences of Unicode. *)
Definition byte_in (lo hi : N) (l : list Ascii.ascii) : bool :=
  match l with c :: _ => in_range lo hi c | [] => false end.
Fixpoint valid_utf8 (l : list Ascii.ascii) : bool :=
  match l with
  | [] => true
  | a :: r =>
      if is_ascii a then valid_utf8 r
      else
        match r with
        | b :: r2 =>
            if in_range 194 223 a then in_range 128 191 b && valid_utf8 r2
            else
              match r2 with
              | c :: r3 =>
                  if in_range 224 239 a then
                    in_range (if (byte a =? 224)%N then 160 else 128) (if (byte a =? 237)%N then 159 else 191) b
                    && in_range 128 191 c && valid_utf8 r3
                  else
                    match r3 with
                    | d :: r4 =>
                        in_range 240 244 a
                        && in_range (if (byte a =? 240)%N then 144 else 128) (if (byte a =? 244)%N then 143 else 191) b
                        && in_range 128 191 c && in_range 128 191 d && valid_utf8 r4
                    | [] => false
                    end
              | [] => false
              end
        | [] => false
        end
  end.
Definition environ_chunks (raw : string) : list string :=
  List.filter (fun c => valid_utf8 (bytes c)) (split "000" raw).
Definition ganesha_key (k : string) : bool :=
  starts_with "NSS_WRAPPER" k || starts_with "IDHELPER" k || starts_with "NFS_KLLDAP_IDHELPER" k || starts_with "NSS_" k.
Definition filter_proc_environ_keys (raw : string) : list string :=
  List.filter (fun c => starts_with "LD_PRELOAD=" c || ganesha_key c) (environ_chunks raw).
Definition environ_pairs (raw : string) : list (string * string) := omap (split_once "=") (environ_chunks raw).
Definition proc_environ_map (s : Sys) (pid : Z) : option (gmap string string) :=
  (fun raw => foldl (fun m kv => <[ kv.1 := kv.2 ]> m) ∅ (environ_pairs raw)) <$> sy_environ s pid.
Definition proc_pid_environ (s : Sys) (pid : Z) : option (list (string * string)) :=
  raw ← sy_environ s pid; match environ_pairs raw with [] => None | l => Some l end.
Definition kept_key (k : string) : bool := seqb k "LD_PRELOAD" || ganesha_key k || seqb k "PATH".
Definition ganesha_env_map (s : Sys) (cfg : GaneshaSpawnEnv) : gmap string string :=
  let map := filter (fun kv => kept_key kv.1 = true) (sy_vars s) in
  let map := <[ "PATH" := "/usr/local/bin:" +:+ default "" (env_of s "PATH") ]> map in
  let map := <[ "NSS_EXTRAUSERS_PASSWD" := se_extrausers_passwd cfg ]> map in
  let map := <[ "NSS_EXTRAUSERS_GROUP" := se_extrausers_group cfg ]> map in
  let map := <[ "IDHELPER_BIN" := se_idhelper_bin cfg ]> map in
  let map := <[ "NFS_KLLDAP_IDHELPER_SOCKET" := se_idhelper_socket cfg ]> map in
  if se_use_nss_wrapper cfg then
    let map := <[ "NSS_WRAPPER_PASSWD" := se_nss_passwd cfg ]> map in
    let map := <[ "NSS_WRAPPER_GROUP" := se_nss_group cfg ]> map in
    let map := match resolve_nss_sss_so s with
               | Some sss => <[ "NSS_WRAPPER_MODULE_FN_PREFIX" := "_nss_sss_" ]> (<[ "NSS_WRAPPER_MODULE_SO_PATH" := sss ]> map)
               | None => map
               end in
    <[ "LD_PRELOAD" := ld_preload_for_ganesha s (se_nss_wrapper_so cfg) ]> map
  else map.
Definition build_ganesha_envp `{!HashIter string} (s : Sys) (cfg : GaneshaSpawnEnv) : list (string * string) :=
  hiter (ganesha_env_map s cfg).

(** ** Liveness *)
Definition state_of_status (status : string) : option string :=
  find_first (fun l => (fun rest => default "" (head (split_whitespace rest))) <$> strip_prefix "State:" l) (lines status).
Definition process_is_live (s : Sys) (pid : Z) : bool :=
  if negb (sy_exists s ("/proc/" +:+ dec pid)) then false
  else match sy_read s ("/proc/" +:+ dec pid +:+ "/status") ≫= state_of_status with
       | Some state => negb (seqb state "Z")
       | None => true
       end.
Definition PROC_COMM_NAME_MAX : nat := 15.
Definition name_match (exact : list string) (name : string) : list string :=
  if (PROC_COMM_NAME_MAX <? len name)%nat then ["-f"; "--"; name] else exact ++ [name].
Definition pgrep_pids (s : Sys) (name : string) : list Z :=
  match stdout_of (sy_run s (Inherit []) ("pgrep" :: name_match ["-x"] name)) with
  | Some out => omap (fun l => parse_uint u32_max (trim l)) (lines out)
  | None => []
  end.
Definition pgrep_running (s : Sys) (name : string) : bool := negb (bool_decide (pgrep_pids s name = [])).
Definition pkill_process (signal ident : string) : list string := "pkill" :: signal :: name_match [] ident.
Definition pkill_binary (signal bin : string) : list string := pkill_process signal bin.
Definition pgrep_live_pids (s : Sys) (name : string) : list Z := List.filter (process_is_live s) (pgrep_pids s name).
Definition discover_ganesha_daemon_pid (s : Sys) : option Z := head (pgrep_live_pids s "ganesha.nfsd").

(** ** The log of Ganesha *)
Fixpoint slice_from (n : nat) (s : string) : option string :=
  match n, s with
  | O, EmptyString => Some s
  | O, String c _ => if in_range 128 191 c then None else Some s
  | S n, String _ r => slice_from n r
  | S _, EmptyString => None
  end.
Definition log_tail (content : string) (from_offset : nat) : option string :=
  if (0 <? from_offset)%nat && (from_offset <=? len content)%nat then slice_from from_offset content else Some content.
Definition scan_log (s : Sys) (path : string) (from_offset : nat) (bad : string -> bool) : option bool :=
  match sy_read s path with
  | None => Some false
  | Some content => existsb (fun ln => bad (to_ascii_lowercase ln)) ∘ lines <$> log_tail content from_offset
  end.
Definition getgrouplist_warning (low : string) : bool :=
  contains_str "my_getgrouplist_alloc" low && (contains_str "warn" low || contains_str "failed, errno" low).
Definition managed_gids_failure (low : string) : bool := contains_str "attempt to fetch managed" low && contains_str "failed" low.
Definition ganesha_log_has_getgrouplist_warn (s : Sys) (path : string) (from_offset : nat) : option bool :=
  scan_log s path from_offset getgrouplist_warning.
Definition ganesha_log_has_managed_gids_failure (s : Sys) (path : string) (from_offset : nat) : option bool :=
  scan_log s path from_offset managed_gids_failure.
Definition check_synthetic_krb_log_clean (s : Sys) (path : string) : option bool :=
  negb <$> ganesha_log_has_getgrouplist_warn s path 0.

(** ** Group probes *)
(** [command_with_timeout] of network.rs. *)
Definition command_with_timeout (s : Sys) (secs : Z) (program : string) : list string :=
  if sy_exists s "/usr/bin/timeout" then ["/usr/bin/timeout"; dec secs; program] else [program].
Definition id_g (s : Sys) (who : string) : list string := command_with_timeout s 8 "id" ++ ["-G"; who].
Definition probe_id_g_under_env (s : Sys) (who : string) (envp : list (string * string)) : option (list Z) :=
  out ← stdout_of (sy_run s (Exactly envp) (id_g s who)); nonempty_gids (gids_of_stdout out).
Definition probe_ganesha_process_groups (s : Sys) (pid : Z) (who : string) : option (list Z) :=
  envp ← proc_pid_environ s pid; probe_id_g_under_env s who envp.
Definition resolve_ganesha_ctl_bin (s : Sys) : option string :=
  let from_env := p ← env_of s "GANESHA_CTL_BIN"; if negb (is_empty (trim p)) && sy_exists s (trim p) then Some (trim p) else None in
  match from_env with
  | Some p => Some p
  | None => find_first (fun p => if sy_exists s p then Some p else None) ["/usr/local/bin/ganesha-ctl"; "/container/scripts/ganesha-ctl"]
  end.
(** The commands that exercise the group path of Ganesha, and the verdict over
    the log afterwards, [s'], from its length before. *)
Definition uid2grp_commands (s : Sys) (envp : list (string * string)) (principals : list string) : list (ChildEnv * list string) :=
  match resolve_ganesha_ctl_bin s with
  | Some ctl => map (fun p => (Exactly envp, [ctl; "id-resolve"; p])) principals
  | None =>
      concat (map (fun p =>
        (Exactly envp, id_g s p)
        :: (if seqb (principal_local_part p) p then []
            else [(Exactly envp, id_g s (principal_local_part p))])) principals)
  end.
Definition exercise_ganesha_uid2grp (s' : Sys) (path : string) (log_offset : nat) : option (bool * string) :=
  warn ← ganesha_log_has_getgrouplist_warn s' path log_offset;
  has_warn ← (if (warn : bool) then Some true else ganesha_log_has_managed_gids_failure s' path log_offset);
  Some (negb has_warn, if (has_warn : bool) then "ganesha-uid2grp-exercise:warn-seen" else "ganesha-uid2grp-exercise:clean").
Definition idhelper_socket_request (s : Sys) (socket_path request : string) : option string :=
  if negb (sy_exists s socket_path) then None else trim <$> sy_socket s socket_path request.
Definition socket_cmd_gids (s : Sys) (socket_path cmd principal : string) : option (list Z) :=
  resp ← idhelper_socket_request s socket_path (cmd +:+ " " +:+ principal +:+ String nl "");
  rest ← strip_prefix "OK " resp;
  nonempty_gids (omap (fun t => parse_uint u32_max (trim t)) (split "|" rest)).
Definition probe_socket_grps (s : Sys) (principal socket_path : string) : option (list Z) :=
  socket_cmd_gids s socket_path "GRPS" principal.
Definition probe_socket_grouplist (s : Sys) (principal socket_path : string) : option (list Z) :=
  socket_cmd_gids s socket_path "GROUPLIST" principal.

(** ** The report *)
Section Report.
(** The system during the probes and after the exercise, and the length of the
    log in between. *)
Context (s s' : Sys) (log_offset : nat).
Definition opt_has (g : Z) (o : option (list Z)) : bool := match o with Some l => has_gid g l | None => false end.
Definition at_least (n : nat) (o : option (list Z)) : bool := match o with Some l => (n <=? length l)%nat | None => false end.
Definition daemon_envp (pid : option Z) (envp : list (string * string)) : list (string * string) :=
  default envp (pid ≫= proc_pid_environ s).
Definition check_ganesha_readiness_root_only (pid : option Z) (envp : list (string * string)) (log_path sock : string)
  : option GaneshaReadinessReport :=
  let root_ok := opt_has 0 (probe_id_g_under_env s "root" envp) in
  '(clean, _) ← exercise_ganesha_uid2grp s' log_path log_offset;
  synthetic ← check_synthetic_krb_log_clean s' log_path;
  Some {|
    root_ok := root_ok; sample_ok := true; short_root_ok := root_ok; short_sample_ok := true;
    socket_ok := is_some (probe_socket_grps s "root" sock) && opt_has 0 (probe_socket_grouplist s "root" sock);
    ganesha_process_ok := match pid with Some p => opt_has 0 (probe_ganesha_process_groups s p "root") | None => false end;
    ganesha_uid2grp_clean := clean; synthetic_clean := synthetic |}.
Definition check_ganesha_readiness (pid : option Z) (envp : list (string * string)) (sample : option string) (log_path sock : string)
  : option GaneshaReadinessReport :=
  match sample with
  | None => check_ganesha_readiness_root_only pid envp log_path sock
  | Some sample =>
      let short := principal_local_part sample in
      let root_gids := probe_id_g_under_env s "root" envp in
      let sample_gl := probe_socket_grouplist s sample sock in
      let short_gl := probe_socket_grouplist s short sock in
      let sample_grps := is_some (probe_socket_grps s sample sock) in
      '(clean, _) ← exercise_ganesha_uid2grp s' log_path log_offset;
      synthetic ← check_synthetic_krb_log_clean s' log_path;
      Some {|
        root_ok := opt_has 0 root_gids;
        sample_ok := at_least 2 sample_gl || (is_some (probe_id_g_under_env s sample envp) && sample_grps);
        short_root_ok := opt_has 0 root_gids;
        short_sample_ok := at_least 2 short_gl || at_least 2 (probe_id_g_under_env s short envp);
        socket_ok := is_some (probe_socket_grps s "root" sock) && sample_grps && is_some (probe_socket_grps s short sock)
          && opt_has 0 (probe_socket_grouplist s "root" sock) && is_some sample_gl && is_some short_gl;
        ganesha_process_ok :=
          match pid with
          | Some p =>
              opt_has 0 (probe_ganesha_process_groups s p "root")
              && (at_least 1 (probe_ganesha_process_groups s p sample) || at_least 1 (probe_ganesha_process_groups s p short)
                  || is_some sample_gl || is_some short_gl)
          | None => false
          end;
        ganesha_uid2grp_clean := clean; synthetic_clean := synthetic |}
  end.
End Report.

(** ** What Ganesha is started with *)
Section Specs.
Context (s : Sys) (cfg : GaneshaSpawnEnv).
(** Nothing else of the environment reaches Ganesha: no password of the
    configuration, no variable of the host. *)
Definition only_kept (m : gmap string string) : Prop := forall k, is_Some (m !! k) -> kept_key k = true.
Lemma only_kept_insert k v m : kept_key k = true -> only_kept m -> only_kept (<[ k := v ]> m).
Proof. intros Hk Hm k'. rewrite lookup_insert. destruct (decide (k = k')) as [<-|]; auto. Qed.
Lemma ganesha_env_no_leak : only_kept (ganesha_env_map s cfg).
Proof.
  assert (H0 : only_kept (filter (fun kv : string * string => kept_key kv.1 = true) (sy_vars s))).
  { intros k [v [_ Hv]%map_lookup_filter_Some]. exact Hv. }
  unfold ganesha_env_map. destruct (se_use_nss_wrapper cfg); [destruct (resolve_nss_sss_so s)|];
    repeat (apply only_kept_insert; [reflexivity|]); exact H0.
Qed.
Lemma ganesha_env_wrapper : se_use_nss_wrapper cfg = true ->
  ganesha_env_map s cfg !! "LD_PRELOAD" = Some (ld_preload_for_ganesha s (se_nss_wrapper_so cfg))
  /\ ganesha_env_map s cfg !! "NSS_WRAPPER_PASSWD" = Some (se_nss_passwd cfg)
  /\ ganesha_env_map s cfg !! "NSS_WRAPPER_GROUP" = Some (se_nss_group cfg)
  /\ ganesha_env_map s cfg !! "NFS_KLLDAP_IDHELPER_SOCKET" = Some (se_idhelper_socket cfg).
Proof.
  intros H. unfold ganesha_env_map. rewrite H.
  destruct (resolve_nss_sss_so s); split_and!; rewrite ?lookup_insert; reflexivity.
Qed.

(** What [execve] leaves in [/proc/<pid>/environ] reads back. *)
Definition environ_bytes (envp : list (string * string)) : string :=
  foldr (fun kv acc => kv.1 +:+ "=" +:+ kv.2 +:+ String "000" acc) "" envp.
Definition env_entry (kv : string * string) : Prop :=
  contains_char "=" kv.1 = false /\ contains_char "000" kv.1 = false /\ contains_char "000" kv.2 = false
  /\ valid_utf8 (bytes (kv.1 +:+ "=" +:+ kv.2)) = true.
Lemma environ_roundtrip envp : Forall env_entry envp -> environ_pairs (environ_bytes envp) = envp.
Proof.
  induction 1 as [|[k v] envp (Hk & Hk0 & Hv0 & Hu) _ IH]; [done|]. cbn [fst snd] in *.
  unfold environ_pairs, environ_chunks in *. cbn [environ_bytes foldr fst snd]. fold (environ_bytes envp).
  replace (k +:+ "=" +:+ v +:+ String "000" (environ_bytes envp)) with ((k +:+ "=" +:+ v) +:+ String "000" (environ_bytes envp))
    by (by rewrite <- !sapp_assoc).
  rewrite split_app by (rewrite !contains_char_app, Hk0, Hv0; reflexivity).
  cbn [List.filter]. rewrite Hu. cbn [omap list_omap]. change ("=" +:+ v) with (String "=" v).
  rewrite (split_once_app "=" k v Hk). by rewrite IH.
Qed.
End Specs.

(** ** The scans of the log *)
Section Logs.
Context (s : Sys) (path : string).
(** A scan from the length of the log before looks at what was appended since,
    and at nothing else. *)
Lemma slice_from_app old new : byte_in 128 191 (bytes new) = false -> slice_from (len old) (old +:+ new) = Some new.
Proof.
  intros Hn. induction old as [|c old IH]; [|exact IH]. rewrite sapp_nil_l. destruct new as [|c new]; [done|].
  unfold byte_in in Hn. cbn in Hn |- *. by rewrite Hn.
Qed.
Lemma scan_appended old new bad :
  sy_read s path = Some (old +:+ new) -> byte_in 128 191 (bytes new) = false ->
  scan_log s path (len old) bad = Some (existsb (fun ln => bad (to_ascii_lowercase ln)) (lines new)).
Proof.
  intros Hr Hn. unfold scan_log. rewrite Hr. unfold log_tail. destruct old as [|c old].
  - by rewrite sapp_nil_l.
  - assert ((0 <? len (String c old))%nat && (len (String c old) <=? len (String c old +:+ new))%nat = true) as ->.
    { rewrite len_app. apply andb_true_iff. split; [done|]. apply Nat.leb_le. lia. }
    by rewrite slice_from_app.
Qed.
(** A rotation while the probes run, after which the log has grown past its old
    length, can put the offset into the middle of a character. *)
Theorem rotated_log_panics :
  ganesha_log_has_getgrouplist_warn
    {| sy_vars := ∅; sy_is_file := fun _ => false; sy_exists := fun _ => false;
       sy_read := fun _ => Some ("caf" +:+ String "195" (String "169" " mounted")); sy_run := fun _ _ => NotExecuted "";
       sy_socket := fun _ _ => None; sy_environ := fun _ => None; sy_arch := "" |} path 4 = None.
Proof. reflexivity. Qed.
End Logs.

(** ** What a confirmed readiness means *)
Section Ready.
Context (s s' : Sys) (log_offset : nat).
Definition quiet_log (path : string) (bad : string -> bool) : Prop :=
  forall content ln, sy_read s' path = Some content -> ln ∈ lines content -> bad (to_ascii_lowercase ln) = false.
Lemma opt_has_spec g o : opt_has g o = true <-> exists l, o = Some l /\ g ∈ l.
Proof. destruct o as [l|]; cbn; [|naive_solver]. rewrite has_gid_spec. naive_solver. Qed.
Lemma is_some_spec {A} (o : option A) : is_some o = true <-> is_Some o.
Proof. destruct o; cbn; [naive_solver|]. split; [done|by intros [? ?]]. Qed.
Lemma synthetic_quiet path : check_synthetic_krb_log_clean s' path = Some true <-> quiet_log path getgrouplist_warning.
Proof.
  unfold check_synthetic_krb_log_clean, ganesha_log_has_getgrouplist_warn, scan_log, quiet_log.
  destruct (sy_read s' path) as [content|]; cbn; [|naive_solver].
  destruct (existsb _ (lines content)) eqn:E; cbn; (split; [intros H|intros H]).
  - discriminate H.
  - apply existsb_exists in E as (ln & Hl%list_elem_of_In & Hb). by rewrite (H content ln eq_refl Hl) in Hb.
  - intros c ln [= <-] Hl. apply not_true_iff_false. intros Hb. apply not_true_iff_false in E. apply E, existsb_exists.
    exists ln. by split; [apply list_elem_of_In|].
  - done.
Qed.
Definition sees_root_group (o : option (list Z)) : Prop := exists l, o = Some l /\ 0 ∈ l.
Definition socket_answers (sock who : string) : Prop :=
  is_Some (probe_socket_grps s who sock) /\ is_Some (probe_socket_grouplist s who sock).
(** With a probe user: readiness is confirmed exactly when root has group 0 in
    the environment of Ganesha and in that of the running daemon, the socket
    answers for root, the user and its short name, both names have groups, the
    exercise left no trace in the log, and the whole log holds no warning.  What
    the daemon itself sees of the user does not enter. *)
Lemma readiness_exact pid envp sample path sock r :
  check_ganesha_readiness s s' log_offset pid envp (Some sample) path sock = Some r ->
  is_ready r = true <->
  sees_root_group (probe_id_g_under_env s "root" envp)
  /\ (exists p, pid = Some p /\ sees_root_group (probe_ganesha_process_groups s p "root"))
  /\ sees_root_group (probe_socket_grouplist s "root" sock)
  /\ Forall (socket_answers sock) ["root"; sample; principal_local_part sample]
  /\ (at_least 2 (probe_socket_grouplist s sample sock) = true \/ is_Some (probe_id_g_under_env s sample envp))
  /\ (at_least 2 (probe_socket_grouplist s (principal_local_part sample) sock) = true
      \/ at_least 2 (probe_id_g_under_env s (principal_local_part sample) envp) = true)
  /\ fst <$> exercise_ganesha_uid2grp s' path log_offset = Some true
  /\ quiet_log path getgrouplist_warning.
Proof.
  unfold check_ganesha_readiness. intros ([clean m] & Hx & (syn & Hs & [= <-])%bind_Some)%bind_Some.
  rewrite <- synthetic_quiet, Hs, Hx. cbn [fmap option_fmap option_map fst]. unfold is_ready, socket_answers, sees_root_group.
  cbn [root_ok sample_ok short_root_ok short_sample_ok socket_ok ganesha_process_ok ganesha_uid2grp_clean synthetic_clean].
  rewrite !Forall_cons, Forall_nil, <- !opt_has_spec. setoid_rewrite <- opt_has_spec.
  assert (Hroot : opt_has 0 (probe_socket_grouplist s "root" sock) = true -> is_Some (probe_socket_grouplist s "root" sock)).
  { destruct (probe_socket_grouplist s "root" sock); naive_solver. }
  destruct pid as [p|]; rewrite !andb_true_iff, !orb_true_iff, !andb_true_iff, !is_some_spec; [|naive_solver].
  assert (Hp : (exists p0, Some p = Some p0 /\ opt_has 0 (probe_ganesha_process_groups s p0 "root") = true)
    <-> opt_has 0 (probe_ganesha_process_groups s p "root") = true) by naive_solver.
  assert (Hs1 : forall b, Some b = Some true <-> b = true) by naive_solver.
  rewrite Hp. cbn [fmap option_fmap option_map fst]. rewrite !Hs1. clear Hp Hs1 Hs Hx. intuition.
Qed.
Lemma old_warning_blocks pid envp sample path sock r content ln :
  check_ganesha_readiness s s' log_offset pid envp sample path sock = Some r ->
  sy_read s' path = Some content -> ln ∈ lines content -> getgrouplist_warning (to_ascii_lowercase ln) = true -> is_ready r = false.
Proof.
  intros Hc Hr Hl Hw. apply not_true_iff_false. intros Hready.
  assert (Hq : quiet_log path getgrouplist_warning).
  { apply synthetic_quiet. destruct sample as [u|]; unfold check_ganesha_readiness, check_ganesha_readiness_root_only in Hc;
      apply bind_Some in Hc as ([clean m] & _ & (syn & Hs & [= <-])%bind_Some); rewrite Hs;
      unfold is_ready in Hready; cbn in Hready; apply andb_true_iff in Hready as [_ ->]; done. }
  by rewrite (Hq content ln Hr Hl) in Hw.
Qed.
End Ready.
