(* ===== verification/IdentityChecks.v ===== *)
(** * Identity principals, the pipeline over them, and the idhelper check

    Models [ganesha_identity_pipeline.rs], the principals that have to be visible
    before Ganesha starts and the isolated run of the idhelper, and
    [idhelper_check.rs], the preflight over command line, socket, NSS stores,
    log and running daemon.  A run of the idhelper changes the stores: [ran] is
    the system after a command. *)

From S2P Require Import Prelude RustStr Identity Config Host NssContract Readiness.
Local Open Scope Z_scope.

Record IdentityPrincipals := { ip_user : option string; ip_server_host : string; ip_client_host : option string }.

(** ** The principals *)
Section Principals.
Context (s : Sys) (cfg : option NfsKlldapConfig).
Definition env_first_nonempty (keys : list string) : option string := find_first (env_nonblank (env_of s)) keys.
Definition nonblank_opt (v : option string) : option string := v ← v; if is_empty (trim v) then None else Some (trim v).
Definition snapshot_texts (paths : list (option string)) : list string := omap (fun p => p ≫= sy_read s) paths.
(** Rows of the passwd stores by name, the first of a name. *)
Definition push_row (acc : list string * list PasswdRow) (r : PasswdRow) : list string * list PasswdRow :=
  if existsb (seqb (pw_name r)) (fst acc) then acc else (pw_name r :: fst acc, snd acc ++ [r]).
Definition snapshot_passwd_rows (e : GaneshaNssEnv) : list PasswdRow :=
  snd (foldl push_row ([], [])
        (concat (map (fun t => omap parse_passwd_row (lines t)) (snapshot_texts [Some (ne_passwd e); ne_extrausers_passwd e])))).
Definition snapshot_gid_count (e : GaneshaNssEnv) (names : list string) (primary_gid : Z) : nat :=
  let rows := concat (map (fun t => omap parse_group_row (lines t)) (snapshot_texts [Some (ne_group e); ne_extrausers_group e])) in
  let gids := omap (fun r => if existsb (fun m => existsb (seqb m) names) (gr_members r) then Some (gr_gid r) else None) rows in
  size (list_to_set (primary_gid :: gids) : gset Z).
(** The order of pairs of a name and a gid. *)
Definition candidate_leb (a b : string * Z) : bool :=
  if seqb a.1 b.1 then a.2 <=? b.2 else sleb a.1 b.1.
Definition user_candidates (e : GaneshaNssEnv) : list (string * Z) :=
  sort_by candidate_leb
    (omap (fun r => if (0 <? pw_uid r) && contains_char "@" (pw_name r) && negb (starts_with "host/" (pw_name r))
                    then Some (pw_name r, pw_gid r) else None) (snapshot_passwd_rows e)).
Definition auto_probe_user (e : GaneshaNssEnv) : option string :=
  let candidates := user_candidates e in
  let rich := List.find (fun c => (2 <=? snapshot_gid_count e [c.1; principal_local_part c.1] c.2)%nat) candidates in
  fst <$> match rich with Some c => Some c | None => head candidates end.
Definition client_host_of (server_short : string) (r : PasswdRow) : option string :=
  rest ← strip_prefix "host/" (pw_name r);
  let host := trim (before "@" rest) in
  if is_empty host || seqb (before "." host) server_short || seqb host server_short then None else Some host.
Definition auto_probe_client (e : GaneshaNssEnv) (server_short : string) : option string :=
  head (sort_dedup_s (omap (client_host_of server_short) (snapshot_passwd_rows e))).
Definition or_else {A} (a b : option A) : option A := match a with Some _ => a | None => b end.
Definition probe_user_principal (e : GaneshaNssEnv) : option string :=
  or_else (env_first_nonempty ["NFS_KLLDAP_PROBE_USER_PRINCIPAL"; "TEST_IDHELPER_CHECK_USER_PRINCIPAL"])
    (or_else (nonblank_opt (c ← cfg; pb_user_principal (probe c))) (auto_probe_user e)).
Definition probe_client_host (e : GaneshaNssEnv) (server_short : string) : option string :=
  or_else (env_first_nonempty ["NFS_KLLDAP_PROBE_CLIENT_HOST"; "TEST_IDHELPER_CHECK_CLIENT_HOST"; "NFS_KLLDAP_IDHELPER_CLIENT_HOST"])
    (or_else (nonblank_opt (c ← cfg; pb_client_host (probe c))) (auto_probe_client e server_short)).
Definition check_principal (v realm : string) : string :=
  if contains_char "@" v then v
  else if contains_char "/" v then v +:+ "@" +:+ realm
  else "host/" +:+ v +:+ "@" +:+ realm.
Definition identity_principals_for_check (realm host_short : string) (e : GaneshaNssEnv) : IdentityPrincipals :=
  {| ip_user := (fun u => if contains_char "@" u then u else u +:+ "@" +:+ realm) <$> probe_user_principal e;
     ip_server_host := "host/" +:+ host_short +:+ "@" +:+ realm;
     ip_client_host := (fun c => check_principal c realm) <$> probe_client_host e host_short |}.
Definition opt_list {A} (o : option A) : list A := match o with Some x => [x] | None => [] end.
Definition push_principal (out : list string) (p : string) : list string :=
  let t := trim p in if is_empty t || existsb (seqb t) out then out else out ++ [t].
Definition warm_principals_for_startup (realm host_short : string) : list string :=
  let base := identity_principals_for_check realm host_short (from_runtime_defaults s) in
  let out := opt_list (ip_user base) ++ [ip_server_host base] ++ opt_list (ip_client_host base) in
  match cfg with Some c => foldl push_principal out (ga_warm_principals (ganesha c)) | None => out end.
End Principals.
(** Whether one principal is ready, and the tags of those that are not. *)
Definition warm_failure (s : Sys) (e : GaneshaNssEnv) (sock p : string) : option string :=
  let '(ok, detail) := evaluate_nss_contract s p e (starts_with "host/" p) in
  if negb ok then Some detail
  else if negb (is_some (probe_socket_grps s p sock)) then Some ("socket-grps-miss:" +:+ p)
  else if negb (is_some (probe_socket_grouplist s p sock)) then Some ("socket-grouplist-miss:" +:+ p)
  else None.
Definition warm_principals_nss_ready (s : Sys) (principals : list string) (e : GaneshaNssEnv) (sock : string) : bool * list string :=
  let fails := omap (warm_failure s e sock) principals in (bool_decide (fails = []), fails).

(** ** The pipeline and the check *)
Record Target := { tg_label : string; tg_principal : string; tg_machine : bool }.
Definition targets (p : IdentityPrincipals) : list Target :=
  opt_list ((fun u => {| tg_label := "user"; tg_principal := u; tg_machine := false |}) <$> ip_user p)
  ++ [{| tg_label := "host-server"; tg_principal := ip_server_host p; tg_machine := true |}]
  ++ opt_list ((fun c => {| tg_label := "host-client"; tg_principal := c; tg_machine := true |}) <$> ip_client_host p).
Definition idhelper_grps (s : Sys) (idh principal : string) : list string :=
  (if sy_exists s "/usr/bin/timeout" then ["timeout"; "8"] else []) ++ [idh; "grps"; principal].
Definition idhelper_socket_path (s : Sys) : string :=
  match env_of s "NFS_KLLDAP_IDHELPER_SOCKET" with
  | Some v => if is_empty (trim v) then "/var/run/nfs-klldap/idhelper.sock" else v
  | None => "/var/run/nfs-klldap/idhelper.sock"
  end.
(** [emit_idhelper_check_log]: the last message, and whether this one is logged. *)
Definition emit_idhelper_check_log (last : option string) (msg : string) : bool * option string :=
  if bool_decide (last = Some msg) then (false, last) else (true, Some msg).
Definition parse_grps_output (stdout : string) : list Z :=
  let t := trim stdout in
  omap (fun x => parse_uint u32_max (trim x))
    (split_p (fun c => ceqb c "|" || ceqb c " " || ceqb c ",") (default t (strip_prefix "OK " t))).
Definition resolve_idhelper_bin (s : Sys) (exe_dir : option string) : string :=
  let from_exe := match exe_dir with
                  | Some d => if sy_exists s (d +:+ "/nfs-klldap-idhelper") then d +:+ "/nfs-klldap-idhelper" else "nfs-klldap-idhelper"
                  | None => "nfs-klldap-idhelper" end in
  match env_of s "IDHELPER_BIN" with Some p => if is_empty (trim p) then from_exe else p | None => from_exe end.

(** A line of the report: what it says of the verdict, and its text. *)
Definition Line : Type := bool * string.
Section Check.
Context (ran : Sys -> ChildEnv * list string -> Sys).
Definition own_vars (s : Sys) (keys : list string) : list (string * string) :=
  omap (fun k => pair k <$> env_of s k) keys.
Definition NSS_KEYS : list string := ["NSS_PASSWD"; "NSS_GROUP"; "NSS_EXTRAUSERS_PASSWD"; "NSS_EXTRAUSERS_GROUP"].
Definition run_idhelper_grps (idh nss_passwd nss_group : string) (s : Sys) (principal : string) : Sys :=
  ran s (Inherit [("NSS_PASSWD", nss_passwd); ("NSS_GROUP", nss_group);
                  ("NSS_EXTRAUSERS_PASSWD", nss_passwd); ("NSS_EXTRAUSERS_GROUP", nss_group)], idhelper_grps s idh principal).
Definition pipeline_line (s : Sys) (e : GaneshaNssEnv) (t : Target) : bool * list string :=
  let '(ok, detail) := evaluate_nss_contract s (tg_principal t) e (tg_machine t) in
  (ok, [detail +:+ ":" +:+ tg_label t; (if ok then "identity-pipeline:ok:" else "identity-pipeline:fail:") +:+ tg_label t]).
(** With the directory made for it, or the error of making it. *)
Definition run_identity_pipeline (td : result string string) (p : IdentityPrincipals) (idh : string) (s : Sys) : Line * Sys :=
  match td with
  | Err e => ((false, "identity-pipeline:fail:init:" +:+ e), s)
  | Ok d =>
      let nss_passwd := d +:+ "/nss_passwd" in let nss_group := d +:+ "/nss_group" in
      let s := foldl (run_idhelper_grps idh nss_passwd nss_group) s (map tg_principal (targets p)) in
      let ls := map (pipeline_line s (from_paths s nss_passwd nss_group)) (targets p) in
      ((forallb fst ls, join " " (concat (map snd ls))), s)
  end.
Definition probe_grps_via_cli (s : Sys) (idh principal : string) : result (list Z) string :=
  match sy_run s (Inherit []) (idhelper_grps s idh principal) with
  | NotExecuted _ => Err "noexec"
  | Ran code out _ =>
      if negb (succeeded code) then Err "exit"
      else match parse_grps_output out with [] => Err "empty" | l => Ok l end
  end.
Definition cli_line (r : result (list Z) string) (t : Target) : Line :=
  let head_text := tg_label t +:+ "(" +:+ tg_principal t +:+ "):" in
  match r with
  | Err e => (false, head_text +:+ e)
  | Ok gids =>
      if tg_machine t then
        if bool_decide (gids = [MACHINE_GID]) then (true, head_text +:+ "root-gid")
        else (false, head_text +:+ " expected gid=" +:+ dec MACHINE_GID +:+ ", got " +:+ debug_gids gids)
      else if fallback_only gids then (false, head_text +:+ " incomplete (only fallback " +:+ dec (default 0 (head gids)) +:+ ")")
      else (true, head_text +:+ dec (Z.of_nat (length gids)) +:+ "gids")
  end.
Definition cli_step (idh : string) (acc : list Line * Sys) (t : Target) : list Line * Sys :=
  let '(ls, s) := acc in
  (ls ++ [cli_line (probe_grps_via_cli s idh (tg_principal t)) t], ran s (Inherit [], idhelper_grps s idh (tg_principal t))).
Definition materialize_via_idhelper_grps (idh : string) (s : Sys) (principal : string) : Sys :=
  ran s (Inherit (own_vars s NSS_KEYS), idhelper_grps s idh principal).
Definition probe_socket_grps_tag (s : Sys) (principal : string) (expect_machine : bool) : string :=
  let sock := idhelper_socket_path s in
  if negb (sy_exists s sock) then "socket-grps:unavailable:" +:+ principal
  else match probe_socket_grps s principal sock with
       | Some gids =>
           if expect_machine && bool_decide (gids = [MACHINE_GID]) then "socket-grps:machine-ok:" +:+ principal
           else if negb expect_machine && negb (bool_decide (gids = [])) && negb (fallback_only gids) then
             "socket-grps:groups-ok:" +:+ principal +:+ ":" +:+ dec (Z.of_nat (length gids)) +:+ "gids"
           else "socket-grps:incomplete:" +:+ principal +:+ ":" +:+ debug_gids gids
       | None => "socket-grps:connect-fail:" +:+ principal
       end.
Definition socket_line (s : Sys) (p : string) (machine : bool) : Line :=
  let tag := probe_socket_grps_tag s p machine in
  (negb (contains_str "incomplete" tag || contains_str "connect-fail" tag), tag).
(** ganesha-ctl, the log and the running daemon. *)
Definition id_resolve_command (s : Sys) (ctl idh principal : string) : ChildEnv * list string :=
  let nss := from_runtime_defaults s in
  (Inherit ([("IDHELPER_BIN", idh); ("NSS_PASSWD", ne_passwd nss); ("NSS_GROUP", ne_group nss)]
      ++ opt_var "NSS_WRAPPER_SO" (ne_ld_preload nss)), [ctl; "id-resolve"; principal]).
Definition probe_ganesha_id_resolve (s : Sys) (idh principal : string) : option Line * Sys :=
  match resolve_ganesha_ctl_bin s with
  | None => (None, s)
  | Some ctl =>
      let c := id_resolve_command s ctl idh principal in
      (match sy_run s c.1 c.2 with
       | NotExecuted _ => None
       | Ran code out _ =>
           if succeeded code && negb (is_empty (trim out)) then Some (true, "ganesha-id-resolve:ok:" +:+ principal)
           else Some (false, "ganesha-id-resolve:exit:" +:+ principal)
       end, ran s c)
  end.
Definition probe_ganesha_log_uid2grp (s : Sys) (principal : string) : option string :=
  if negb (sy_is_file s "/var/log/ganesha.log") then Some "ganesha-log:no-file"
  else
    content ← sy_read s "/var/log/ganesha.log";
    let short := machine_short_name principal in
    let by_uid := existsb (fun ln => contains_str "getpwuid_r for uid:" ln
                    && (contains_str principal ln || contains_str short ln || contains_str "uname:" ln)) (lines content) in
    let by_principal := existsb (fun ln => contains_str "uid2grp_allocate_by_principal" ln
                          && (contains_str principal ln || contains_str short ln)) (lines content) in
    let unsupported := existsb (fun ln => contains_str "Unsupported code path for principal" ln && contains_str principal ln
                         && negb (starts_with "host/" (to_ascii_lowercase principal))) (lines content) in
    Some (if unsupported then "ganesha-log:unsupported-principal:" +:+ principal
          else if by_uid then "ganesha-log:uid2grp-by-uid:" +:+ principal
          else if by_principal then "ganesha-log:uid2grp-by-principal:" +:+ principal
          else "ganesha-log:no-uid2grp:" +:+ principal).
Definition probe_ganesha_runtime_wiring (s : Sys) : string :=
  match discover_ganesha_daemon_pid s with
  | None => "ganesha-runtime:not-running"
  | Some pid =>
      let live := "ganesha-runtime:live:pid=" +:+ dec pid in
      let expected := from_runtime_defaults s in
      match proc_environ_map s pid with
      | None => join " " [live; "ganesha-runtime:environ-unreadable"]
      | Some env =>
          join " " ([live]
            ++ (if is_some (env !! "NFS_KLLDAP_IDHELPER_SOCKET") then ["ganesha-runtime:idhelper-socket-env"] else [])
            ++ [if bool_decide (env !! "NSS_WRAPPER_PASSWD" = Some (ne_passwd expected))
                then "ganesha-runtime:nss_passwd-env" else "ganesha-runtime:nss_passwd-miss"]
            ++ match ne_ld_preload expected with
               | Some so =>
                   [if match env !! "LD_PRELOAD" with Some v => contains_str so v | None => false end
                    then "ganesha-runtime:ld_preload-env" else "ganesha-runtime:ld_preload-miss"]
               | None => []
               end)
      end
  end.
Definition resolve_step (idh : string) (acc : list Line * Sys) (p : string) : list Line * Sys :=
  let '(ls, s) := acc in
  let '(r, s') := probe_ganesha_id_resolve s idh p in
  (ls ++ opt_list r ++ opt_list (pair true <$> probe_ganesha_log_uid2grp s' p), s').
Definition show_bool (b : bool) : string := if b then "true" else "false".
Definition debug_opt_gids (o : option (list Z)) : string := match o with Some l => "Some(" +:+ debug_gids l +:+ ")" | None => "None" end.
(** The stages after the stores are materialized, on one system. *)
Definition getgrouplist_line (s : Sys) (e : GaneshaNssEnv) (user : option string) : Line :=
  let sock := idhelper_socket_path s in
  let available := sy_exists s sock in
  let root_gl_ok := opt_has 0 (probe_socket_grouplist s "root" sock) in
  match user with
  | Some user =>
      let short := principal_local_part user in
      let user_gl_ok := is_some (probe_socket_grouplist s short sock) in
      let '(short_ok, short_msg) := evaluate_short_name_getgrouplist_contract s user e 3 in
      (negb (available && (negb root_gl_ok || negb user_gl_ok)) && short_ok,
       "synthetic-getgrouplist: root_ok=" +:+ show_bool root_gl_ok +:+ " user(" +:+ short +:+ ")_ok=" +:+ show_bool user_gl_ok
       +:+ " " +:+ short_msg)
  | None =>
      (negb (available && negb root_gl_ok), "synthetic-getgrouplist: root_ok=" +:+ show_bool root_gl_ok +:+ " (no probe user)")
  end.
Definition contract_line (s : Sys) (e : GaneshaNssEnv) (t : Target) : Line :=
  let '(ok, msg) := evaluate_nss_contract s (tg_principal t) e (tg_machine t) in (ok, msg +:+ ":" +:+ tg_label t).
Definition seen_line (s : Sys) (user : option string) : option string :=
  pid ← discover_ganesha_daemon_pid s;
  envp ← proc_pid_environ s pid;
  let root_seen := debug_opt_gids (probe_id_g_under_env s "root" envp) in
  Some ("ganesha-seen-getgrouplist: root=" +:+ root_seen +:+
    match user with
    | Some u => " user(" +:+ principal_local_part u +:+ ")=" +:+ debug_opt_gids (probe_id_g_under_env s (principal_local_part u) envp)
    | None => " (no probe user)"
    end).
Definition NO_PROBE_USER : string :=
  "idhelper-check:partial:no-probe-user (user-path checks skipped; set [probe] user_principal or NFS_KLLDAP_PROBE_USER_PRINCIPAL)".
Definition NO_PROBE_CLIENT : string :=
  "idhelper-check:partial:no-probe-client-host (client-path checks skipped; set [probe] client_host or NFS_KLLDAP_PROBE_CLIENT_HOST)".
Definition check_lines (s : Sys) (exe_dir : option string) (td : result string string) (cfg : option NfsKlldapConfig) (realm host_short : string)
  : list Line :=
  let idh := resolve_idhelper_bin s exe_dir in
  let e := from_runtime_defaults s in
  let p := identity_principals_for_check s cfg realm host_short e in
  let partial := (if is_some (ip_user p) then [] else [(true, NO_PROBE_USER)])
                 ++ (if is_some (ip_client_host p) then [] else [(true, NO_PROBE_CLIENT)]) in
  let '(cli, s) := foldl (cli_step idh) ([], s) (targets p) in
  let '(pipe, s) := run_identity_pipeline td p idh s in
  let s := foldl (materialize_via_idhelper_grps idh) s (map tg_principal (targets p)) in
  let socket := map (fun t => socket_line s (tg_principal t) (tg_machine t))
                  (List.filter (fun t => negb (seqb (tg_label t) "host-server")) (targets p)) in
  let tail := opt_list (pair true <$> seen_line s (ip_user p)) in
  let contracts := map (contract_line s e) (targets p) in
  let '(resolved, _) := foldl (resolve_step idh) ([], s) (map tg_principal (targets p)) in
  partial ++ cli ++ [pipe] ++ socket ++ [getgrouplist_line s e (ip_user p)] ++ contracts
  ++ [(true, probe_ganesha_runtime_wiring s)] ++ tail ++ resolved.
Definition SKIPPED_NO_STACK : string :=
  "idhelper-check:skip:no-live-stack (idhelper socket absent; ganesha-runtime/synthetic-getgrouplist require live container)".
Definition check_idhelper_sample_resolutions (s : Sys) (exe_dir : option string) (td : result string string)
    (cfg : option NfsKlldapConfig) (realm host_short : string) : bool * string :=
  if is_some (env_of s "NFS_KLLDAP_SKIP_ID_RESOLUTION_CHECK") then
    (true, "idhelper-check:skip:NFS_KLLDAP_SKIP_ID_RESOLUTION_CHECK")
  else if negb (sy_exists s (idhelper_socket_path s)) && negb (is_some (env_of s "NFS_KLLDAP_IDHELPER_SOCKET")) then
    (true, SKIPPED_NO_STACK)
  else
    let ls := check_lines s exe_dir td cfg realm host_short in
    if forallb fst ls then (true, "idhelper check OK: " +:+ join " " (map snd ls))
    else (false, "idhelper resolution incomplete (user+host principals): " +:+ join "; " (map snd ls)).
End Check.

Section Specs.
Context (s : Sys) (cfg : option NfsKlldapConfig).
(** The probe user is a login of the stores in full principal form, and one of
    several groups whenever there is one. *)
Definition user_row (e : GaneshaNssEnv) (r : PasswdRow) : Prop :=
  r ∈ snapshot_passwd_rows s e /\ 0 < pw_uid r /\ contains_char "@" (pw_name r) = true /\ starts_with "host/" (pw_name r) = false.
Definition several_groups (e : GaneshaNssEnv) (name : string) (gid : Z) : Prop :=
  (2 <= snapshot_gid_count s e [name; principal_local_part name] gid)%nat.
Lemma elem_of_user_candidates e c : c ∈ user_candidates s e <-> exists r, user_row e r /\ c = (pw_name r, pw_gid r).
Proof.
  unfold user_candidates. rewrite (elem_of_sort_by _ (fun _ _ => true)), list_elem_of_omap. split.
  - intros (r & Hr & H). exists r. destruct (_ && _ && _) eqn:E; [|done]. injection H as <-.
    apply andb_true_iff in E as [[E1%Z.ltb_lt E2]%andb_true_iff E3%negb_true_iff]. by split_and!.
  - intros (r & (Hr & Hu & Ha & Hh) & ->). exists r. split; [done|]. by rewrite (proj2 (Z.ltb_lt _ _) Hu), Ha, Hh.
Qed.
Lemma auto_probe_user_spec e :
  match auto_probe_user s e with
  | None => forall r, ~ user_row e r
  | Some u => exists r, user_row e r /\ pw_name r = u
      /\ ((exists r', user_row e r' /\ several_groups e (pw_name r') (pw_gid r')) -> several_groups e u (pw_gid r))
  end.
Proof.
  unfold auto_probe_user, several_groups. destruct (List.find _ _) as [c|] eqn:Ef; cbn [fmap option_fmap option_map].
  - apply find_some in Ef as [Hc%list_elem_of_In Hg%Nat.leb_le]. apply elem_of_user_candidates in Hc as (r & Hr & ->).
    exists r. split_and!; [done|done|]. intros _. exact Hg.
  - destruct (user_candidates s e) as [|c l] eqn:El; cbn [head option_map].
    + intros r Hr. assert (H : (pw_name r, pw_gid r) ∈ user_candidates s e) by (apply elem_of_user_candidates; by exists r).
      rewrite El in H. by apply elem_of_nil in H.
    + assert (H : c ∈ user_candidates s e) by (rewrite El; by left). apply elem_of_user_candidates in H as (r & Hr & ->).
      exists r. split_and!; [done|done|]. intros (r' & Hr' & Hg).
      assert (H' : (pw_name r', pw_gid r') ∈ user_candidates s e) by (apply elem_of_user_candidates; by exists r').
      rewrite El in H'. apply list_elem_of_In in H'. pose proof (find_none _ _ Ef _ H') as Hn. cbn beta in Hn.
      apply Nat.leb_gt in Hn. cbn [fst snd] in Hn. lia.
Qed.
(** The principals waited for: the probe user, the server, the probe client, and
    the configured ones. *)
Lemma elem_of_pushed l out p : p ∈ foldl push_principal out l <-> p ∈ out \/ exists q, q ∈ l /\ p = trim q /\ is_empty p = false.
Proof.
  revert out. induction l as [|q l IH]; intros out; cbn [foldl].
  - split; [by left|]. intros [H|(q & H & _)]; [done|by apply elem_of_nil in H].
  - rewrite IH. unfold push_principal. destruct (is_empty (trim q)) eqn:E; cbn [orb].
    + setoid_rewrite elem_of_cons. split; [naive_solver|]. intros [H|(q' & [->|Hq] & -> & He)]; [by left|congruence|right; eauto].
    + destruct (existsb (seqb (trim q)) out) eqn:Ex.
      * apply existsb_exists in Ex as (x & Hx%list_elem_of_In & Hq%seqb_eq). subst x. setoid_rewrite elem_of_cons.
        split; [naive_solver|]. intros [H|(q' & [->|Hq] & -> & He)]; [by left|by left|right; eauto].
      * rewrite elem_of_app, list_elem_of_singleton. setoid_rewrite elem_of_cons. naive_solver.
Qed.
Lemma elem_of_warm_principals realm host p :
  let base := identity_principals_for_check s cfg realm host (from_runtime_defaults s) in
  p ∈ warm_principals_for_startup s cfg realm host <->
  ip_user base = Some p \/ p = ip_server_host base \/ ip_client_host base = Some p
  \/ exists c q, cfg = Some c /\ q ∈ ga_warm_principals (ganesha c) /\ p = trim q /\ is_empty p = false.
Proof.
  cbv zeta. unfold warm_principals_for_startup. set (base := identity_principals_for_check _ _ _ _ _).
  assert (H : forall o : option string, p ∈ opt_list o <-> o = Some p).
  { intros [x|]; cbn; [rewrite list_elem_of_singleton; naive_solver|]. split; [by intros ?%elem_of_nil|done]. }
  destruct cfg as [c|]; [rewrite elem_of_pushed|]; rewrite !elem_of_app, list_elem_of_singleton, !H; naive_solver.
Qed.
Lemma warm_ready_spec ps e sock :
  fst (warm_principals_nss_ready s ps e sock) = true <->
  Forall (fun p => fst (evaluate_nss_contract s p e (starts_with "host/" p)) = true
                   /\ is_Some (probe_socket_grps s p sock) /\ is_Some (probe_socket_grouplist s p sock)) ps.
Proof.
  unfold warm_principals_nss_ready. cbn [fst]. rewrite bool_decide_eq_true. induction ps as [|p ps IH]; [by split|].
  rewrite Forall_cons, <- IH. cbn [omap list_omap]. unfold warm_failure at 1.
  destruct (evaluate_nss_contract s p e _) as [[] d]; cbn [negb fst]; [|naive_solver].
  destruct (probe_socket_grps s p sock); cbn [is_some negb]; [|split; [done|by intros [(_ & [? ?] & _) _]]].
  destruct (probe_socket_grouplist s p sock); cbn [is_some negb]; [|split; [done|by intros [(_ & _ & [? ?]) _]]].
  split; [intros H|by intros [_ H]]. split; [split_and!; eauto|done].
Qed.
End Specs.
