(* ===== verification/WarmGate.v ===== *)
(** * The identity gates around the start of Ganesha

    Models the parts of [supervisor/mod.rs] that decide over identities: the
    gate that warms and waits for the principals before Ganesha is started, the
    wait for its readiness, the recovery of its process id and the list of
    principals that the idhelper resolves first.  The system at each attempt of
    a wait is a list, in order, of those that begin before the deadline.  The
    verdict of the gate is the oracle [o_warm] of [Supervisor]. *)

From S2P Require Import Prelude RustStr Identity Config Host NssContract Readiness IdentityChecks Startup Supervisor.
Local Open Scope Z_scope.

Definition ldap_bind_configured (c : NfsKlldapConfig) : bool :=
  negb (is_empty (trim (ss_ldap_default_bind_dn (Config.sssd c)))) && negb (is_empty (trim (ss_ldap_default_authtok (Config.sssd c)))).
Definition krb5_shares_enabled (cfg : option NfsKlldapConfig) : bool :=
  match cfg with
  | Some c => existsb (fun sh => starts_with "krb5" (default (ga_default_security (ganesha c)) (sh_security sh))) (shares c)
  | None => false
  end.
Section Gates.
(** The own system, the hostname of the kernel, krb5.conf, one of the probe modes
    of the test harness, the host NFS mode, and the configuration if it loads. *)
Context `{!HashIter string} (to_uppercase : string -> string) (s : Sys) (proc : result string string) (krb5_conf : option string).
Context (probing host_nfs : bool) (cfg : option NfsKlldapConfig).
Definition var_set (k : string) : bool := is_some (env_of s k).
Definition gate_realm : string := runtime_realm to_uppercase (env_of s) krb5_conf cfg.
Definition gate_host : string := runtime_hostname (env_of s) proc cfg.
Definition gate_short : string := before "." gate_host.
Definition gate_principals : list string := warm_principals_for_startup s cfg gate_realm gate_short.

(** ** Before Ganesha starts *)
Definition warm_skipped : bool :=
  probing || host_nfs || var_set "NFS_KLLDAP_SUPERVISOR_TICK_MS" || var_set "NFS_KLLDAP_TEST_PERSISTENT"
  || var_set "NFS_KLLDAP_SKIP_PRINCIPAL_WARM".
Definition degraded_allowed : bool := var_set "NFS_KLLDAP_ALLOW_LDAP_DEGRADED".
Definition bind_missing : bool :=
  krb5_shares_enabled cfg && match cfg with Some c => negb (ldap_bind_configured c) | None => false end && negb degraded_allowed.
Definition warm_identity_principals_before_ganesha (views : list Sys) : bool :=
  if warm_skipped then true
  else if bind_missing then false
  else existsb (fun v => fst (warm_principals_nss_ready v gate_principals (from_runtime_defaults s) (idhelper_socket_path s))) views
       || degraded_allowed.

(** ** After it started *)
Definition ganesha_spawn_env (e : GaneshaSpawnEnv) : GaneshaSpawnEnv :=
  {| se_nss_passwd := se_nss_passwd e; se_nss_group := se_nss_group e; se_extrausers_passwd := se_extrausers_passwd e;
     se_extrausers_group := se_extrausers_group e; se_idhelper_bin := se_idhelper_bin e;
     se_idhelper_socket := idhelper_socket_path s; se_nss_wrapper_so := se_nss_wrapper_so e; se_use_nss_wrapper := se_use_nss_wrapper e |}.
Definition readiness_sample : option string :=
  List.find (fun p => contains_char "@" p && negb (starts_with "host/" p)) gate_principals.
(** One report: the system, the system after the exercise, the length of the log
    in between. *)
Record Attempt := { at_before : Sys; at_after : Sys; at_log : nat }.
Fixpoint first_ready (reports : list (option GaneshaReadinessReport)) : option bool :=
  match reports with
  | [] => Some false
  | r :: l => r ← r; if is_ready r then Some true else first_ready l
  end.
Definition wait_for_ganesha_readiness (paths : GaneshaSpawnEnv) (tracked : option Z) (attempts : list Attempt) : option bool :=
  if probing || host_nfs then Some true
  else if var_set "NFS_KLLDAP_SUPERVISOR_TICK_MS" || var_set "NFS_KLLDAP_TEST_PERSISTENT" then Some true
  else
    let sock := idhelper_socket_path s in
    if negb (sy_exists s sock) then Some false
    else
      let envp := build_ganesha_envp s (ganesha_spawn_env paths) in
      let glog := default "/var/log/ganesha.log" (env_of s "GANESHA_LOG_PATH") in
      let pid := p ← tracked; if process_is_live s p then Some p else None in
      first_ready (map (fun a => check_ganesha_readiness (at_before a) (at_after a) (at_log a) pid envp readiness_sample glog sock) attempts).
(** The tracked process id after the recovery. *)
Definition confirm_ganesha_daemon_pid_env (managed : bool) (tracked : option Z) : option Z :=
  if negb managed then tracked
  else if match tracked with Some p => process_is_live s p | None => false end then tracked
  else
    match discover_ganesha_daemon_pid s with
    | Some pid => Some pid
    | None =>
        let from_file := pf ← env_of s "NFS_KLLDAP_GANESHA_DAEMON_PID_FILE"; t ← sy_read s pf; parse_uint u32_max (trim t) in
        match from_file with Some pid => if process_is_live s pid then Some pid else tracked | None => tracked end
    end.

(** ** The principals to resolve first *)
Definition add_preresolved (pre p : string) : string :=
  if existsb (seqb p) (split "," pre) then pre else (if is_empty pre then pre else pre +:+ ",") +:+ p.
Definition preresolve_names : list string :=
  [gate_host; gate_short] ++ opt_list (probe_client_host s cfg (from_runtime_defaults s) gate_short).
(** The new value of NFS_KLLDAP_IDHELPER_PRERESOLVE, from its old one. *)
Definition refresh_idhelper_preresolve (pre : string) : string :=
  foldl add_preresolved pre (map (fun v => check_principal v gate_realm) preresolve_names).
End Gates.

(** ** What the gate guarantees *)
Section Specs.
Context `{!HashIter string} (to_uppercase : string -> string) (s : Sys) (proc : result string string) (krb5_conf : option string).
Context (probing host_nfs : bool) (cfg : option NfsKlldapConfig).
Local Abbreviation principals := (gate_principals to_uppercase s proc krb5_conf cfg).
Local Abbreviation gate := (warm_identity_principals_before_ganesha to_uppercase s proc krb5_conf probing host_nfs cfg).
(** A principal that Ganesha can map: a row with the ids of its kind and groups
    that go with them, and an idhelper that answers for it. *)
Definition mapped (v : Sys) (p : string) : Prop :=
  let e := from_runtime_defaults s in
  sy_is_file v (ne_passwd e) = true
  /\ (exists uid gid, probe_nss_passwd v p e = Some (uid, gid)
      /\ if starts_with "host/" p then uid = 0 /\ gid = 0 /\ (groups_seen v p e gid = [] \/ 0 ∈ groups_seen v p e gid)
         else uid <> 65534 /\ gid <> 65534 /\ exists g, g ∈ groups_seen v p e gid /\ g <> 65534 /\ g <> 0)
  /\ is_Some (probe_socket_grps v p (idhelper_socket_path s)) /\ is_Some (probe_socket_grouplist v p (idhelper_socket_path s)).
Lemma ready_mapped v ps :
  fst (warm_principals_nss_ready v ps (from_runtime_defaults s) (idhelper_socket_path s)) = true <-> Forall (mapped v) ps.
Proof.
  rewrite warm_ready_spec. apply Forall_iff. intros p. rewrite nss_contract_exact. unfold mapped.
  change MACHINE_UID with 0. change MACHINE_GID with 0. change FALLBACK_NOBODY_UID with 65534. change FALLBACK_NOBODY_GID with 65534.
  cbv zeta. tauto.
Qed.
Lemma warm_gate_exact views :
  warm_skipped s probing host_nfs = false ->
  gate views = true <->
  bind_missing s cfg = false /\ (degraded_allowed s = true \/ exists v, v ∈ views /\ Forall (mapped v) principals).
Proof.
  intros Hs. unfold warm_identity_principals_before_ganesha. rewrite Hs. destruct (bind_missing s cfg); [naive_solver|].
  rewrite orb_true_iff, existsb_exists. split.
  - intros [(v & Hv%list_elem_of_In & H%ready_mapped)|H]; split; eauto.
  - intros [_ [H|(v & Hv%list_elem_of_In & H%ready_mapped)]]; eauto.
Qed.
(** C3: the supervisor spawns Ganesha only when the gate let it through, and the
    gate lets it through in three ways.  It is skipped: in a probe mode of the
    test harness, in host NFS mode, or when one of the variables
    NFS_KLLDAP_SUPERVISOR_TICK_MS, NFS_KLLDAP_TEST_PERSISTENT and
    NFS_KLLDAP_SKIP_PRINCIPAL_WARM is set.  It is overridden:
    NFS_KLLDAP_ALLOW_LDAP_DEGRADED is set, which also waives the bind
    credentials.  Or at one moment of the wait every principal it waits for was
    mapped, and where a share asks for Kerberos the bind credentials are
    configured.  Mapped means: the rows are there and the idhelper answers both
    requests for it; a name that starts with host/ has uid and gid 0 and, if it
    has groups, group 0 among them; any other name has a uid and a gid other than
    65534 and at least one group other than 0 and 65534.  (A uid or a primary gid
    of 0 is not refused for such a name.) *)
Theorem ganesha_starts_warm o st views :
  o_warm o = gate views -> events (wld (start_ganesha o st)) <> events (wld st) ->
  warm_skipped s probing host_nfs = true \/ degraded_allowed s = true
  \/ ((exists v, v ∈ views /\ Forall (mapped v) principals)
      /\ (krb5_shares_enabled cfg = true -> exists c, cfg = Some c /\ ldap_bind_configured c = true)).
Proof.
  intros Ho He. assert (Hw : gate views = true).
  { rewrite <- Ho. unfold start_ganesha in He. destruct (live_opt st _); [done|].
    destruct (o_warm o); [done|]. cbn [negb] in He. by destruct (pids (sup st) Ganesha). }
  destruct (warm_skipped s probing host_nfs) eqn:Hs; [by left|].
  destruct (degraded_allowed s) eqn:Hd; [by right; left|]. right; right.
  apply warm_gate_exact in Hw as [Hb [H|Hv]]; [congruence| |done]. split; [done|]. intros Hk.
  unfold bind_missing in Hb. rewrite Hk, Hd in Hb. destruct cfg as [c|]; [|done].
  exists c. split; [done|]. destruct (ldap_bind_configured c); [done|]. discriminate Hb.
Qed.
(** Only principals that start with host/ are expected to be machines: one of
    the other machine forms among the configured principals, which maps to root
    as it has to, closes the gate for good. *)
Theorem machine_of_other_form_closes_gate p views :
  warm_skipped s probing host_nfs = false -> degraded_allowed s = false ->
  p ∈ principals -> starts_with "host/" p = false ->
  (forall v, v ∈ views -> probe_nss_passwd v p (from_runtime_defaults s) = Some (MACHINE_UID, MACHINE_GID)
     /\ Forall (eq 0) (groups_seen v p (from_runtime_defaults s) 0)) ->
  gate views = false.
Proof.
  intros Hs Hd Hp Hh Hv. apply not_true_iff_false. intros [_ [H|(v & Hin & Hall)]]%warm_gate_exact; [congruence| |done].
  rewrite Forall_forall in Hall. destruct (Hall p Hp) as (_ & (uid & gid & Hi & Hm) & _). rewrite Hh in Hm.
  destruct (Hv v Hin) as [Hi' Hg]. rewrite Hi in Hi'. injection Hi' as -> ->. destruct Hm as (_ & _ & g & Hin' & _ & Hne).
  rewrite Forall_forall in Hg. by apply Hne; symmetry; apply Hg.
Qed.
(** A confirmed readiness is a report that was ready. *)
Lemma first_ready_true l : first_ready l = Some true -> exists r, Some r ∈ l /\ is_ready r = true.
Proof.
  induction l as [|[r|] l IH]; cbn; [done| |done]. destruct (is_ready r) eqn:E.
  - intros _. exists r. by split; [left|].
  - intros H. destruct (IH H) as (r' & Hr & ?). exists r'. by split; [right|].
Qed.
(** A process id that the recovery takes up belongs to a live process. *)
Lemma recovered_pid_is_live managed tracked p :
  confirm_ganesha_daemon_pid_env s managed tracked = Some p -> tracked <> Some p -> process_is_live s p = true.
Proof.
  unfold confirm_ganesha_daemon_pid_env. destruct managed; cbn [negb]; [|congruence].
  destruct (match tracked with Some _ => _ | None => false end); [congruence|].
  destruct (discover_ganesha_daemon_pid s) as [q|] eqn:Ed.
  - intros [= ->] _. unfold discover_ganesha_daemon_pid, pgrep_live_pids in Ed.
    destruct (List.filter _ _) as [|x l] eqn:Ef; [done|]. injection Ed as ->.
    assert (H : In p (List.filter (process_is_live s) (pgrep_pids s "ganesha.nfsd"))) by (rewrite Ef; by left).
    apply filter_In in H as [_ H]. exact H.
  - destruct (env_of s _ ≫= _) as [q|]; [|congruence]. destruct (process_is_live s q) eqn:El; [|congruence]. by intros [= ->].
Qed.
End Specs.

(** ** The list of principals to resolve first *)
Section Preresolve.
Lemma split_app_sep c a b : split c (a +:+ String c b) = split c a ++ split c b.
Proof.
  unfold split. induction a as [|d a IH]; [rewrite sapp_nil_l; cbn; by rewrite ceqb_refl|].
  rewrite sapp_cons. cbn [split_p]. destruct (ceqb c d); [by rewrite IH|]. rewrite IH.
  pose proof (split_nonempty (ceqb c) a). by destruct (split_p (ceqb c) a).
Qed.
Lemma add_preresolved_has pre p : contains_char "," p = false -> p ∈ split "," (add_preresolved pre p).
Proof.
  intros Hp. unfold add_preresolved. destruct (existsb (seqb p) (split "," pre)) eqn:E.
  - apply existsb_exists in E as (x & Hx%list_elem_of_In & ->%seqb_eq). done.
  - destruct (is_empty pre) eqn:Ee.
    + destruct pre; [|done]. rewrite sapp_nil_l, split_no_char by done. by left.
    + replace ((pre +:+ ",") +:+ p) with (pre +:+ String "," p) by (by rewrite sapp_assoc).
      rewrite split_app_sep, (split_no_char _ p Hp), elem_of_app. right. by left.
Qed.
Lemma add_preresolved_keeps pre p x : x <> "" -> x ∈ split "," pre -> x ∈ split "," (add_preresolved pre p).
Proof.
  intros Hne Hx. unfold add_preresolved. destruct (existsb _ _); [done|]. destruct (is_empty pre) eqn:Ee.
  - destruct pre; [|done]. cbn in Hx. by apply list_elem_of_singleton in Hx.
  - replace ((pre +:+ ",") +:+ p) with (pre +:+ String "," p) by (by rewrite sapp_assoc).
    rewrite split_app_sep, elem_of_app. by left.
Qed.
Lemma add_preresolved_done pre p : p ∈ split "," pre -> add_preresolved pre p = pre.
Proof.
  intros H. unfold add_preresolved. assert (existsb (seqb p) (split "," pre) = true) as ->; [|done].
  apply existsb_exists. exists p. split; [by apply list_elem_of_In|apply seqb_refl].
Qed.
Lemma fold_preresolved_has l : Forall (fun p => contains_char "," p = false /\ p <> "") l -> forall pre,
  (forall p, p ∈ l -> p ∈ split "," (foldl add_preresolved pre l))
  /\ (forall x, x <> "" -> x ∈ split "," pre -> x ∈ split "," (foldl add_preresolved pre l)).
Proof.
  induction 1 as [|p l [Hc Hne] _ IH]; intros pre; [split; [by intros ? ?%elem_of_nil|done]|]. cbn [foldl].
  destruct (IH (add_preresolved pre p)) as [H1 H2]. split.
  - intros q [->|Hq]%elem_of_cons; [|by apply H1]. apply H2; [done|]. by apply add_preresolved_has.
  - intros x Hx Hin. apply H2; [done|]. by apply add_preresolved_keeps.
Qed.
Lemma fold_preresolved_done l pre : (forall p, p ∈ l -> p ∈ split "," pre) -> foldl add_preresolved pre l = pre.
Proof.
  induction l as [|p l IH]; [done|]. intros H. cbn [foldl]. rewrite add_preresolved_done by (apply H; by left).
  apply IH. intros q Hq. apply H. by right.
Qed.
(** A refresh lists the principals of the server and of the probe client, and the
    next one changes nothing. *)
Lemma refresh_preresolve_stable to_uppercase s proc krb5_conf cfg pre :
  let ps := map (fun v => check_principal v (gate_realm to_uppercase s krb5_conf cfg)) (preresolve_names s proc cfg) in
  let refresh := refresh_idhelper_preresolve to_uppercase s proc krb5_conf cfg in
  Forall (fun p => contains_char "," p = false /\ p <> "") ps ->
  (forall p, p ∈ ps -> p ∈ split "," (refresh pre)) /\ refresh (refresh pre) = refresh pre.
Proof.
  cbv zeta. intros H. destruct (fold_preresolved_has _ H pre) as [H1 _]. split; [exact H1|].
  unfold refresh_idhelper_preresolve at 1. by apply fold_preresolved_done.
Qed.
Lemma split_piece c s p : p ∈ split c s -> contains_char c p = false.
Proof.
  unfold split, contains_char. revert p. induction s as [|d s IH]; intros p; cbn [split_p].
  - by intros ->%list_elem_of_singleton.
  - destruct (ceqb c d) eqn:E.
    + intros [->|H]%elem_of_cons; [done|by apply IH].
    + destruct (split_p (ceqb c) s) as [|q l] eqn:El; intros [->|H]%elem_of_cons; cbn; rewrite ?E; [done|by apply elem_of_nil in H| |].
      * apply IH. by left.
      * apply IH. by right.
Qed.
(** A comma in the name of the probe client is never found again: each restart of
    the idhelper appends it once more. *)
Theorem comma_preresolved_again pre p :
  contains_char "," p = true -> is_empty pre = false -> add_preresolved pre p = pre +:+ "," +:+ p.
Proof.
  intros Hp He. unfold add_preresolved. rewrite He. destruct (existsb _ _) eqn:E; [|by rewrite sapp_assoc].
  apply existsb_exists in E as (x & Hx%list_elem_of_In & Hq%seqb_eq). subst x. apply split_piece in Hx. congruence.
Qed.
End Preresolve.

(** ** A start *)
Definition demo_sys : Sys := {|
  sy_vars := {[ "NFS_KLLDAP_KERBEROS_REALM" := "EX.COM" ]};
  sy_is_file := fun p => seqb p "/var/lib/nfs-klldap/nss_passwd";
  sy_exists := fun p => seqb p "/var/run/nfs-klldap/idhelper.sock";
  sy_read := fun p => if seqb p "/var/lib/nfs-klldap/nss_passwd"
    then Some (unlines ["host/aurora@EX.COM:x:0:0::/:/bin/false"; "alice@EX.COM:x:1001:1001::/:/bin/false"]) else None;
  sy_run := fun _ _ => NotExecuted "";
  sy_socket := fun _ request => Some (if contains_str "alice" request then "OK 1001|1002" else "OK 0");
  sy_environ := fun _ => None; sy_arch := "x86_64" |}.
Definition id_upper (x : string) : string := x.
Definition warm_oracle : Oracle :=
  {| o_spawn := fun _ => true; o_term := fun _ => true; o_kill := fun _ => true; o_launch := Stays; o_pid_file := None; o_hup_kills := false;
     o_warm := warm_identity_principals_before_ganesha id_upper demo_sys (Ok "aurora") None false false None [demo_sys];
     o_generated := fun d => d; o_generate_ok := true; o_hooks_ok := true |}.
Lemma ganesha_starts_warm_witness :
  gate_principals id_upper demo_sys (Ok "aurora") None None = ["alice@EX.COM"; "host/aurora@EX.COM"]
  /\ Forall (mapped demo_sys demo_sys) (gate_principals id_upper demo_sys (Ok "aurora") None None).
Proof.
  split; [vm_compute; reflexivity|].
  destruct (ganesha_starts_warm id_upper demo_sys (Ok "aurora") None false false None warm_oracle
    {| sup := init_sup false; wld := demo_world |} [demo_sys] eq_refl ltac:(vm_compute; discriminate)) as [H|[H|[(v & Hv & H) _]]];
    [vm_compute in H; discriminate H..|].
  apply list_elem_of_singleton in Hv as ->. exact H.
Defined.
