(* ===== verification/Templates.v ===== *)
(** * The generated configuration files

    Models [generate/mod.rs] and [ignored_attributes.rs]: the text of sssd.conf,
    krb5.conf, idmapd.conf, nfs.conf and ganesha.conf, and the generation of all
    files in order up to the first failure.  The fragments and the adverts are
    those of [Generate].  [str::to_lowercase] over Unicode is a parameter. *)

From S2P Require Import Prelude RustStr Identity Resolver Config FsProbe Generate Host LdapClient SettingsForm.
Local Open Scope Z_scope.

Definition onoff (b : bool) : string := if b then "true" else "false".
Definition filled (o : option string) : option string := v ← o; if is_empty (trim v) then None else Some v.
Definition filled_trim (o : option string) : option string := trim <$> filled o.
Definition opt_lines (key : string) (o : option string) : list string := match o with Some v => [key +:+ " = " +:+ v] | None => [] end.
Definition GENERATED : string := "# GENERATED by nfs-klldap-config — do not edit (source: nfs-klldap.conf)".

(** ** ignored_attributes.rs *)
Definition RECOMMENDED_IGNORED_USER_ATTRIBUTES : list string :=
  ["accountexpires"; "authorizedservice"; "gecos"; "host"; "krblastpwdchange"; "krbpasswordexpiration"; "loginallowedtimemap";
   "logindisabled"; "loginexpirationtime"; "nsaccountlock"; "passkey"; "pwdattribute"; "rhost"; "shadowexpire"; "shadowflag";
   "shadowinactive"; "shadowlastchange"; "shadowmax"; "shadowmin"; "shadowwarning"; "sudohost"; "useraccountcontrol";
   "usercertificate;binary"; "userpassword"].
Definition RECOMMENDED_IGNORED_GROUP_ATTRIBUTES : list string := ["memberuid"; "userpassword"; "sudohost"].
Definition RECOMMENDED_KLLDAP_GROUP_MEMBER : string := "member".
Definition toml_array (l : list string) : string := "[" +:+ join ", " (map (fun s => dq +:+ s +:+ dq) l) +:+ "]".
Definition get_kllldap_ignored_attributes_toml : string * string :=
  (toml_array RECOMMENDED_IGNORED_USER_ATTRIBUTES, toml_array RECOMMENDED_IGNORED_GROUP_ATTRIBUTES).
Definition RULE : string := "# -----------------------------------------------------------------------------".
Definition get_kllldap_ignored_attributes_comment_block : string :=
  let '(users, groups) := get_kllldap_ignored_attributes_toml in
  unlines
    [RULE; "# KLLDAP server-side ignored attributes"; RULE;
     "# SSSD and similar clients request many AD-compat attributes."; "# KLLDAP does not store them.";
     "# Without server-side ignores"; "# logs fill with " +:+ dq +:+ "unknown attribute" +:+ dq +:+ " noise and some";
     "# clients retry aggressively (TLS disconnects, high CPU)";
     "# Keep [sssd] kllldap_ignored_attributes = true (default) in nfs-klldap.conf."; "#";
     "# ldap_group_member = " +:+ dq +:+ RECOMMENDED_KLLDAP_GROUP_MEMBER +:+ dq +:+ " when ignores are enabled (not legacy memberUid)"; "#";
     "# To disable: add " +:+ dq +:+ "kllldap_ignored_attributes = false" +:+ dq +:+ " in nfs-klldap.conf"; RULE;
     "ignored_user_attributes = " +:+ users; "ignored_group_attributes = " +:+ groups].

(** ** sssd.conf *)
Section Texts.
Context (to_lowercase : string -> string) (unicode_alnum : string -> bool).
Section Sssd.
Context (cfg : NfsKlldapConfig).
Local Abbreviation s := (sssd cfg).
Definition auth_of : string := default "ldap" (filled_trim (ss_auth_provider s)).
Definition user_attr_list (m : PosixAttributeMapping) : string :=
  let a := [user_name m; user_uid_number m; user_gid_number m; user_home_directory m; user_shell m; "objectClass"] in
  join "," match filled_trim (ss_ldap_user_fullname s) with
           | Some f => if existsb (fun x => eq_ignore_ascii_case x f) a then a else a ++ [f]
           | None => a
           end.
Definition group_attr_list (m : PosixAttributeMapping) : string :=
  join "," [group_name m; group_gid_number m; group_member m; "objectClass"].
Definition mapping_lines (m : PosixAttributeMapping) (user_base group_base : string) : list string :=
  ["ldap_user_search_base = " +:+ user_base; "ldap_user_search_scope = sub";
   "ldap_user_object_class = " +:+ user_object_class m; "ldap_user_name = " +:+ user_name m;
   "ldap_user_uid_number = " +:+ user_uid_number m; "ldap_user_gid_number = " +:+ user_gid_number m;
   "ldap_user_home_directory = " +:+ user_home_directory m; "ldap_user_shell = " +:+ user_shell m; "";
   "ldap_group_search_base = " +:+ group_base; "ldap_group_search_scope = sub";
   "ldap_group_object_class = " +:+ group_object_class m; "ldap_group_name = " +:+ group_name m;
   "ldap_group_gid_number = " +:+ group_gid_number m;
   "# For KLLDAP + rfc2307bis we recommend " +:+ dq +:+ "member" +:+ dq +:+ " (DNs) or " +:+ dq +:+ "uniqueMember\" +:+ dq;
   "# Defaults to " +:+ dq +:+ "member" +:+ dq +:+ " when kllldap_ignored_attributes is active.";
   "ldap_group_member = " +:+ group_member m; "";
   "ldap_schema = " +:+ default "rfc2307bis" (filled_trim (ss_ldap_schema s));
   "ldap_pwd_policy = none"; "ldap_id_mapping = false"; "enumerate = " +:+ onoff (default false (ss_enumerate s));
   "access_provider = " +:+ default "permit" (filled (ss_access_provider s));
   "# Informational (computed from active POSIX attribute mappings above):";
   "# ldap_user_extra_attrs only *adds* (it does not restrict)."; "# Shown for reference/debugging only:";
   "#ldap_user_attributes = " +:+ user_attr_list m; "#ldap_group_attributes = " +:+ group_attr_list m].
Definition krb5_lines : list string :=
  let kdc_host := extract_host_from_uri (ldap_uri cfg) in
  (if seqb auth_of "krb5" then
     "chpass_provider = krb5" :: match ss_krb5_validate s with None => ["krb5_validate = false"] | Some _ => [] end
   else [])
  ++ ["krb5_realm = " +:+ effective_realm cfg;
      "krb5_server = " +:+ default kdc_host (filled_trim (ss_krb5_server s));
      "krb5_kpasswd = " +:+ default kdc_host (filled_trim (ss_krb5_kpasswd s))].
Definition option_lines (is_plain_ldap : bool) : list string :=
  opt_lines "ldap_tls_reqcert" (filled_trim (ss_ldap_tls_reqcert s))
  ++ opt_lines "ldap_tls_cacert" (filled_trim (ss_ldap_tls_cacert s))
  ++ opt_lines "ldap_id_use_start_tls" (onoff <$> ss_ldap_id_use_start_tls s)
  ++ opt_lines "ldap_user_fullname" (filled_trim (ss_ldap_user_fullname s))
  ++ opt_lines "krb5_validate" (onoff <$> ss_krb5_validate s)
  ++ opt_lines "krb5_store_password_if_offline" (onoff <$> ss_krb5_store_password_if_offline s)
  ++ (if is_plain_ldap && default true (ss_ldap_auth_disable_tls s)
      then ["ldap_auth_disable_tls_never_use_in_production = true"] else []).
Definition build_ldap_domain_options (user_base group_base : string) (is_plain_ldap : bool) (m : PosixAttributeMapping) : string :=
  join nls (mapping_lines m user_base group_base ++ krb5_lines ++ option_lines is_plain_ldap)
  +:+ (if default true (ss_kllldap_ignored_attributes s) then nls +:+ get_kllldap_ignored_attributes_comment_block else "").
Definition sssd_head (search_base : string) : list string :=
  let domain_name := default "default" (filled (ss_domain s)) in
  let auth_provider := default "ldap" (filled (ss_auth_provider s)) in
  [GENERATED;
   "# Realm: " +:+ effective_realm cfg +:+ " | domain: " +:+ domain_name +:+ " | auth: " +:+ auth_provider
     +:+ " | enumerate: " +:+ onoff (default false (ss_enumerate s)); "";
   "[sssd]"; "config_file_version = 2"; "services = nss, pam"; "domains = " +:+ domain_name; "";
   "[nss]"; "filter_users = root"; "filter_groups = root"; "";
   "[domain/" +:+ domain_name +:+ "]"; "id_provider = ldap"; "auth_provider = " +:+ auth_provider;
   "ldap_uri = " +:+ ldap_uri cfg; "ldap_search_base = " +:+ search_base;
   "ldap_default_bind_dn = " +:+ ss_ldap_default_bind_dn s; "ldap_default_authtok = " +:+ ss_ldap_default_authtok s;
   "cache_credentials = true"; "# SSSD entry cache timeouts from nfs-klldap.conf (defaults below)";
   "entry_cache_timeout = " +:+ dec (default 180 (ss_entry_cache_timeout s));
   "entry_negative_timeout = " +:+ dec (default 60 (ss_entry_negative_timeout s))].
Definition sssd_conf : string :=
  let realm := effective_realm cfg in
  let search_base := default ("dc=" +:+ replace "." ",dc=" (to_lowercase realm)) (filled (ss_ldap_search_base s)) in
  let inputs := sssd_resolver_inputs (ldap_uri cfg) s realm in
  let m := resolve_posix_attribute_mapping (ri_posix_mapping inputs) in
  let '(user_base, group_base) := effective_ldap_search_bases (ri_search_bases inputs) realm in
  unlines (sssd_head search_base)
  +:+ build_ldap_domain_options user_base group_base (starts_with "ldap://" (ldap_uri cfg)) m.
End Sssd.

(** ** The other files *)
Definition krb5_conf (cfg : NfsKlldapConfig) : string :=
  let realm := effective_realm cfg in
  let kdc_host := extract_host_from_uri (ldap_uri cfg) in
  unlines
    ["[libdefaults]"; "    default_realm = " +:+ realm; "    dns_lookup_realm = false"; "    dns_lookup_kdc = false"; "    rdns = false";
     "    ticket_lifetime = 24h"; "    renew_lifetime = 7d"; "    forwardable = true"; "";
     "[realms]"; "    " +:+ realm +:+ " = {"; "        kdc = " +:+ kdc_host; "        admin_server = " +:+ kdc_host; "    }"; "";
     "[domain_realm]"; "    ." +:+ to_lowercase realm +:+ " = " +:+ realm; "    " +:+ to_lowercase realm +:+ " = " +:+ realm].
Definition nfs_conf : string :=
  unlines [GENERATED; "[general]"; "pipefs-directory=/run/rpc_pipefs"; ""; "[gssd]"; "use-machine-creds=0"].
Definition IDMAPD_TRANSLATION_METHOD : string := "nsswitch".
Definition IDMAPD_GSS_METHODS : string := "nsswitch".
Definition IDMAPD_NOBODY_USER : string := "nobody".
Definition IDMAPD_NOBODY_GROUP : string := "nogroup".
Definition idmap_conf (cfg : NfsKlldapConfig) : string :=
  let realm := nfsv4_domain cfg in
  unlines
    [GENERATED; "# Routes user@REALM via nsswitch + getpwnam (nss_wrapper/sssd) for krb5*."; "";
     "[General]"; "Verbosity = 0"; "Domain = " +:+ realm; "Local-Realms = " +:+ realm; "";
     "[Mapping]"; "Nobody-User = " +:+ IDMAPD_NOBODY_USER; "Nobody-Group = " +:+ IDMAPD_NOBODY_GROUP; "";
     "[Translation]"; "Method = " +:+ IDMAPD_TRANSLATION_METHOD; "GSS-Methods = " +:+ IDMAPD_GSS_METHODS;
     "# krb5/krb5p/krb5i: nsswitch + UseGetpwnam=true (getpwuid_r + getgrouplist LogInfo); see ganesha-ctl id-resolve"].
Definition ganesha_debug_enabled (env : Env) : bool :=
  match env "GANESHA_DEBUG" with
  | Some v => existsb (seqb (to_ascii_lowercase (trim v))) ["true"; "1"; "yes"; "on"]
  | None => false
  end.
Definition log_block (debug : bool) : string :=
  unlines
    (if debug then
       ["LOG {"; "    Default_Log_Level = DEBUG;"; "    Components {"; "        CLIENTID = FULL_DEBUG;"; "        SESSIONS = FULL_DEBUG;";
        "        IDMAPPER = FULL_DEBUG;"; "        NFS_V4_ACL = DEBUG;"; "        NFS4 = DEBUG;"; "        DISPATCH = DEBUG;";
        "        XPRT = DEBUG;"; "    }"; "}"; ""]
     else
       ["LOG {"; "    Default_Log_Level = INFO;"; "    Components {"; "        CLIENTID = EVENT;"; "        SESSIONS = EVENT;";
        "        IDMAPPER = EVENT;"; "        XPRT = EVENT;"; "    }"; "}"; ""]).
Definition GANESHA_PWNAM_IMPL : string := "nsswitch".
Definition GANESHA_NEGATIVE_CACHE_VALIDITY_SECS : Z := 60.
Definition GANESHA_MAX_UID_TO_GROUP_REQS : Z := 64.
Definition GANESHA_READDIR_RES_SIZE : Z := 32768.
Definition GANESHA_MALLOC_TRIM_MIN_MB : Z := 1024.
Definition GANESHA_RECOVERY_ROOT : string := "/var/lib/nfs/ganesha".
Section Ganesha.
Context (env : Env) (cfg : NfsKlldapConfig).
Local Abbreviation g := (ganesha cfg).
Definition keytab_path : string := default "/etc/krb5.keytab" (env_nonblank env "NFS_KLLDAP_KEYTAB_PATH").
Definition core_lines : list string :=
  ["NFS_CORE_PARAM {"; "    Protocols = " +:+ core_proto cfg +:+ ";"; "    Enable_UDP = false;"; "    Bind_addr = 0.0.0.0;";
   "    NFS_Port = 2049;"; "    Enable_RQUOTA = false;"; "    Enable_NLM = false;"]
  ++ (if navahi_discovery cfg then
        ["    # Navahi: v3 MOUNT namespace = Pseudo; fixed MNT port for firewalls."; "    Mount_Path_Pseudo = true;"; "    MNT_Port = 20048;"]
      else [])
  ++ ["    Allow_Set_Io_Flusher_Fail = true;";
      if default true (ga_enable_rpc_cred_fallback g)
      then "    enable_rpc_cred_fallback = true;  # RPC token gids when uid2grp fails; may mask incomplete nss_wrapper membership."
      else "    enable_rpc_cred_fallback = false;  # fail closed on uid2grp miss (idhelper authoritative).";
      "    # Bound concurrent uid->groups resolutions hitting SSSD/LLDAP (0 = unlimited).";
      "    Max_Uid_To_Group_Reqs = " +:+ dec (default GANESHA_MAX_UID_TO_GROUP_REQS (ga_max_uid_to_group_reqs g)) +:+ ";";
      "    Readdir_Res_Size = " +:+ dec (default GANESHA_READDIR_RES_SIZE (ga_readdir_res_size g)) +:+ ";"]
  ++ match ga_readdir_max_count g with Some v => ["    Readdir_Max_Count = " +:+ dec v +:+ ";"] | None => [] end
  ++ ["    # Extra getattr-per-READ is an ESXi EOF workaround; fleet is Fedora immutable.";
      "    Getattrs_In_Complete_Read = " +:+ onoff (default false (ga_getattrs_in_complete_read g)) +:+ ";";
      "    # Return freed heap to the OS on long-running operation (threshold in MB).";
      "    Enable_malloc_trim = " +:+ onoff (default true (ga_malloc_trim g)) +:+ ";";
      "    Malloc_trim_MinThreshold = " +:+ dec (default GANESHA_MALLOC_TRIM_MIN_MB (ga_malloc_trim_min_threshold_mb g)) +:+ ";"; "}"; ""].
Definition directory_lines : list string :=
  ["DIRECTORY_SERVICES {"; "    DomainName = " +:+ nfsv4_domain cfg +:+ ";"; "    Pwnam_Implementation = " +:+ GANESHA_PWNAM_IMPL +:+ ";";
   "    Pwutils_Use_Fully_Qualified_Names = true;  # principal2uid uses user@ form; getgrouplist uses passwd login from getpwuid_r.";
   "    # Principal service-name parts granted root. Deliberately excludes `host`";
   "    # so enrolled client machine keytabs cannot act as root on exports.";
   "    Root_Kerberos_Principal = " +:+ root_krb cfg +:+ ";";
   "    # Seconds identity lookups AND getgroups() results under Manage_Gids stay";
   "    # trusted — the single group-trust window on 9.13 (the old core-param";
   "    # spelling warns and is no longer emitted). Group-change propagation =";
   "    # SSSD entry_cache_timeout + this value.";
   "    Idmapped_User_Time_Validity = " +:+ dec (idmap_validity cfg) +:+ ";";
   "    Idmapped_Group_Time_Validity = " +:+ dec (idmap_validity cfg) +:+ ";";
   "    # Failed-lookup memory: new LDAP users/groups become visible within this window.";
   "    Negative_Cache_Time_Validity = "
     +:+ dec (default GANESHA_NEGATIVE_CACHE_VALIDITY_SECS (ga_negative_cache_validity_secs g)) +:+ ";"; "}"; ""].
Definition protocol_lines : list string :=
  ["NFS_KRB5 {"; "    PrincipalName = " +:+ dq +:+ "nfs" +:+ dq +:+ ";"; "    KeytabPath = " +:+ dq +:+ keytab_path +:+ dq +:+ ";";
   "    Active_krb5 = TRUE;"; "}"; "";
   "NFSV4 {"; "    Only_Numeric_Owners = true;"; "    Allow_Numeric_Owners = true;"; "    UseGetpwnam = true;"; "    RecoveryBackend = fs;";
   "    # Must be volume-backed (nfs-klldap-host.yaml) so clients reclaim locks/opens";
   "    # through grace after a container recreate, not just a process restart.";
   "    RecoveryRoot = " +:+ GANESHA_RECOVERY_ROOT +:+ ";"; "    Lease_Lifetime = 60;";
   "    # Grace must be >= lease or a restarting server can refuse reclaims";
   "    # (9.13 warns on 45/60); 90/60 is the upstream pairing."; "    Grace_Period = 90;"; "}"; "";
   "EXPORT_DEFAULTS {"; "    SecType = " +:+ ga_default_security g +:+ ";"; "    Protocols = " +:+ GANESHA_PROTOCOLS +:+ ";";
   "    # Attribute/ACL cache window; 0 = always fresh (getattr per op).";
   "    Attr_Expiration_Time = " +:+ dec (default 60 (ga_attr_expiration_secs g)) +:+ ";"; "}"].
Definition ganesha_main (exports_dir : string) : string :=
  unlines (core_lines ++ directory_lines ++ protocol_lines)
  +:+ log_block (ganesha_debug_enabled env)
  +:+ String.concat "" (include_lines unicode_alnum exports_dir 0 (shares cfg)).
End Ganesha.

(** ** All files *)
Record Derived := {
  dr_sssd : FilePair; dr_krb5 : FilePair; dr_idmap : FilePair; dr_nfs : FilePair; dr_ganesha : FilePair;
  dr_exports : Dir; dr_avahi : option Dir;
}.
(** What fails on the way: the directory, the writes by file, the mode of
    sssd.conf, and the worlds of fragments and adverts. *)
Record GenerateIo := {
  gi_mkdir : bool; gi_sssd : WriteIo; gi_chmod : bool; gi_krb5 : WriteIo; gi_idmap : WriteIo; gi_nfs : WriteIo; gi_ganesha : WriteIo;
  gi_probe : ProbeWorld; gi_exports : IoWorld; gi_avahi : IoWorld;
}.
Definition written (io : WriteIo) (content : string) (f : FilePair) : bool * FilePair :=
  let '(ok, states) := atomic_write io content f in (ok, default f (head states)).
Definition set_files (d : Derived) (sssd krb5 idmap nfs ganesha : FilePair) : Derived :=
  {| dr_sssd := sssd; dr_krb5 := krb5; dr_idmap := idmap; dr_nfs := nfs; dr_ganesha := ganesha;
     dr_exports := dr_exports d; dr_avahi := dr_avahi d |}.
Definition set_exports (d : Derived) (e : Dir) : Derived :=
  {| dr_sssd := dr_sssd d; dr_krb5 := dr_krb5 d; dr_idmap := dr_idmap d; dr_nfs := dr_nfs d; dr_ganesha := dr_ganesha d;
     dr_exports := e; dr_avahi := dr_avahi d |}.
Definition set_avahi (d : Derived) (a : option Dir) : Derived :=
  {| dr_sssd := dr_sssd d; dr_krb5 := dr_krb5 d; dr_idmap := dr_idmap d; dr_nfs := dr_nfs d; dr_ganesha := dr_ganesha d;
     dr_exports := dr_exports d; dr_avahi := a |}.
Definition write_sssd_conf (io : GenerateIo) (cfg : NfsKlldapConfig) (d : Derived) : result unit GenError * Derived :=
  let '(ok, f) := written (gi_sssd io) (sssd_conf cfg) (dr_sssd d) in
  (if ok && gi_chmod io then Ok tt else Err (GenIo "sssd.conf"), set_files d f (dr_krb5 d) (dr_idmap d) (dr_nfs d) (dr_ganesha d)).
Definition write_krb5_conf (io : GenerateIo) (cfg : NfsKlldapConfig) (d : Derived) : result unit GenError * Derived :=
  let '(ok, f) := written (gi_krb5 io) (krb5_conf cfg) (dr_krb5 d) in
  (if ok then Ok tt else Err (GenIo "krb5.conf"), set_files d (dr_sssd d) f (dr_idmap d) (dr_nfs d) (dr_ganesha d)).
Definition write_idmap_conf (io : GenerateIo) (cfg : NfsKlldapConfig) (d : Derived) : result unit GenError * Derived :=
  let '(ok, f) := written (gi_idmap io) (idmap_conf cfg) (dr_idmap d) in
  (if ok then Ok tt else Err (GenIo "idmapd.conf"), set_files d (dr_sssd d) (dr_krb5 d) f (dr_nfs d) (dr_ganesha d)).
Definition write_nfs_conf (io : GenerateIo) (d : Derived) : result unit GenError * Derived :=
  let '(ok, f) := written (gi_nfs io) nfs_conf (dr_nfs d) in
  (if ok then Ok tt else Err (GenIo "nfs.conf"), set_files d (dr_sssd d) (dr_krb5 d) (dr_idmap d) f (dr_ganesha d)).
Definition write_ganesha_main (io : GenerateIo) (env : Env) (cfg : NfsKlldapConfig) (exports_dir : string) (d : Derived)
  : result unit GenError * Derived :=
  let '(ok, f) := written (gi_ganesha io) (ganesha_main env cfg exports_dir) (dr_ganesha d) in
  (if ok then Ok tt else Err (GenIo "ganesha.conf"), set_files d (dr_sssd d) (dr_krb5 d) (dr_idmap d) (dr_nfs d) f).
Definition write_fragments (io : GenerateIo) (cfg : NfsKlldapConfig) (d : Derived) : result unit GenError * Derived :=
  let '(r, e) := write_export_fragments unicode_alnum (gi_probe io) (gi_exports io) cfg (dr_exports d) in (r, set_exports d e).
Definition write_adverts (io : GenerateIo) (cfg : NfsKlldapConfig) (host : string) (d : Derived) : result unit GenError * Derived :=
  let '(r, a) := write_avahi_services unicode_alnum (gi_avahi io) cfg host (dr_avahi d) in (r, set_avahi d a).
(** [?] between the steps. *)
Fixpoint in_order (steps : list (Derived -> result unit GenError * Derived)) (d : Derived) : result unit GenError * Derived :=
  match steps with
  | [] => (Ok tt, d)
  | step :: l => let '(r, d) := step d in match r with Ok _ => in_order l d | Err e => (Err e, d) end
  end.
Definition generate_all (io : GenerateIo) (env : Env) (cfg : NfsKlldapConfig) (host exports_dir : string) (d : Derived)
  : result unit GenError * Derived :=
  if negb (gi_mkdir io) then (Err (GenIo "exports.d"), d)
  else in_order [write_sssd_conf io cfg; write_krb5_conf io cfg; write_idmap_conf io cfg; write_nfs_conf io; write_fragments io cfg;
                 write_ganesha_main io env cfg exports_dir; write_adverts io cfg host] d.
End Texts.

(** ** What a generation leaves *)
Section Specs.
Context (to_lowercase : string -> string) (ua : string -> bool).
Context (io : GenerateIo) (env : Env) (cfg : NfsKlldapConfig) (host exports_dir : string).
Local Abbreviation sssd_text := (sssd_conf to_lowercase cfg).
Local Abbreviation krb5_text := (krb5_conf to_lowercase cfg).
Local Abbreviation main_text := (ganesha_main ua env cfg exports_dir).
Local Abbreviation generate := (generate_all to_lowercase ua io env cfg host exports_dir).
Lemma written_spec w content f :
  let '(ok, f') := written w content f in
  fp_file f' = (if ok then Some content else fp_file f).
Proof.
  unfold written. pose proof (atomic_write_spec w content f) as H. destruct (atomic_write w content f) as [ok states].
  destruct H as [_ H]. destruct states as [|x l]; [discriminate H|]. cbn in *. by injection H.
Qed.
(** The names of the fragments, by their order in the configuration. *)
Fixpoint fragment_names (i : nat) (l : list Share) : list string :=
  match l with [] => [] | s :: r => fragment_basename ua i (sh_name s) :: fragment_names (S i) r end.
Lemma include_lines_names i l :
  include_lines ua exports_dir i l = map (fun f => "%include " +:+ exports_dir +:+ "/" +:+ f +:+ nls) (fragment_names i l).
Proof. revert i. induction l as [|s l IH]; intros i; [done|]. cbn. by rewrite IH. Qed.
Lemma fragment_names_lookup i l k : fragment_names i l !! k = (fun s => fragment_basename ua (i + k) (sh_name s)) <$> l !! k.
Proof.
  revert i k. induction l as [|s l IH]; intros i k; [done|]. destruct k as [|k]; cbn; [by rewrite Nat.add_0_r|].
  rewrite IH. by replace (S i + k)%nat with (i + S k)%nat by lia.
Qed.
Lemma staged_names w i l staged : stage_shares ua w cfg i l = Ok staged -> map fst staged = fragment_names i l.
Proof.
  intros H. destruct (stage_shares_names ua w cfg i l staged H) as [Hlen Hk]. apply list_eq. intros k.
  rewrite fragment_names_lookup, list_lookup_fmap. destruct (staged !! k) as [fb|] eqn:E.
  - destruct (Hk k fb E) as (s & -> & Hf). cbn. by rewrite Hf.
  - cbn. apply lookup_ge_None in E. rewrite (proj2 (lookup_ge_None l k)) by lia. done.
Qed.
(** The text of ganesha.conf before its includes. *)
Definition main_head : string :=
  unlines (core_lines cfg ++ directory_lines cfg ++ protocol_lines env cfg) +:+ log_block (ganesha_debug_enabled env).
Lemma main_includes :
  main_text = main_head
    +:+ String.concat "" (map (fun f => "%include " +:+ exports_dir +:+ "/" +:+ f +:+ nls) (fragment_names 0 (shares cfg))).
Proof. unfold ganesha_main, main_head. by rewrite include_lines_names, sapp_assoc. Qed.
(** A directory after all staged files were written (the last of a name wins)
    and the others that follow the naming rule removed, and one in the middle
    of the writes. *)
Definition settled (io : IoWorld) (managed : string -> bool) (staged : list (string * string)) (d d' : Dir) : Prop :=
  forall f, d' !! f = match (list_to_map (rev staged) : Dir) !! f with
                      | Some b => Some b
                      | None => if managed f && negb (remove_fails io f) then None else d !! f
                      end.
Definition halfway (staged : list (string * string)) (d d' : Dir) : Prop :=
  forall f, d' !! f = d !! f \/ exists b, (f, b) ∈ staged /\ d' !! f = Some b.
Lemma settled_spec io' managed staged d :
  settled io' managed staged d (prune io' managed (list_to_set (map fst staged)) (apply_writes staged d)).
Proof.
  intros f. rewrite prune_lookup, apply_writes_last. destruct (list_to_map (rev staged) !! f) as [b|] eqn:Hf.
  - apply elem_of_list_to_map_2 in Hf. rewrite bool_decide_eq_true_2; [done|].
    apply elem_of_list_to_set, list_elem_of_fmap. exists (f, b). split; [done|]. by apply list_elem_of_In, in_rev, list_elem_of_In.
  - rewrite bool_decide_eq_false_2; [by destruct (managed f), (remove_fails io' f)|].
    intros Hin%elem_of_list_to_set. apply not_elem_of_list_to_map in Hf. apply Hf. by rewrite map_rev, list_elem_of_In, <- in_rev, <- list_elem_of_In.
Qed.
Lemma halfway_spec io' staged d e d' : write_staged io' staged d = (Err e, d') -> halfway staged d d'.
Proof.
  intros (dn & rest & -> & ->)%write_staged_err f. destruct (decide (f ∈ map fst dn)) as [Hin|Hin].
  - destruct (apply_writes_in dn d f Hin) as (b & Hb & ->). right. exists b. split; [|done]. apply elem_of_app. by left.
  - left. by apply apply_writes_frame.
Qed.
(** The step of the fragments and that of the adverts. *)
Definition fragments_settled (d d' : Derived) : Prop := exists staged,
  stage_shares ua (gi_probe io) cfg 0 (shares cfg) = Ok staged /\ map fst staged = fragment_names 0 (shares cfg)
  /\ settled (gi_exports io) managed_fragment staged (dr_exports d) (dr_exports d').
Definition fragments_halfway (d d' : Derived) : Prop := exists staged,
  stage_shares ua (gi_probe io) cfg 0 (shares cfg) = Ok staged /\ halfway staged (dr_exports d) (dr_exports d').
Definition adverts_settled (d d' : Derived) : Prop :=
  if negb (navahi_discovery cfg) && bool_decide (dr_avahi d = None) then dr_avahi d' = None
  else exists a, dr_avahi d' = Some a
    /\ settled (gi_avahi io) managed_advert (stage_adverts ua cfg host) (default ∅ (dr_avahi d)) a.
Definition adverts_halfway (d d' : Derived) : Prop := exists a, dr_avahi d' = Some a
  /\ halfway (stage_adverts ua cfg host) (default ∅ (dr_avahi d)) a.
Lemma fragments_written d :
  match write_fragments ua io cfg d with
  | (Ok _, d') => exists e, d' = set_exports d e /\ fragments_settled d d'
  | (Err _, d') => exists e, d' = set_exports d e /\ (e = dr_exports d \/ fragments_halfway d d')
  end.
Proof.
  unfold write_fragments, write_export_fragments, fragments_settled, fragments_halfway.
  destruct (stage_shares _ _ _ _ _) as [staged|e] eqn:Es; [|by eauto].
  destruct (write_staged _ _ _) as [[[]|e] e'] eqn:Ew.
  - apply write_staged_ok in Ew as ->. eexists. split; [done|]. exists staged. split; [done|].
    split; [by eapply staged_names|apply settled_spec].
  - eexists. split; [done|]. right. exists staged. split; [done|]. by eapply halfway_spec.
Qed.
Lemma adverts_written d :
  match write_adverts ua io cfg host d with
  | (Ok _, d') => exists a, d' = set_avahi d a /\ adverts_settled d d'
  | (Err _, d') => exists a, d' = set_avahi d a /\ adverts_halfway d d'
  end.
Proof.
  unfold write_adverts, write_avahi_services, adverts_settled, adverts_halfway.
  assert (H : forall d0, d0 = default ∅ (dr_avahi d) ->
    match (match write_staged (gi_avahi io) (stage_adverts ua cfg host) d0 with
           | (Err e, d') => (Err e, Some d')
           | (Ok _, d') => (Ok tt, Some (prune (gi_avahi io) managed_advert (list_to_set (map fst (stage_adverts ua cfg host))) d'))
           end) with
    | (Ok _, a) => exists x, a = Some x /\ settled (gi_avahi io) managed_advert (stage_adverts ua cfg host) d0 x
    | (Err _, a) => exists x, a = Some x /\ halfway (stage_adverts ua cfg host) d0 x
    end).
  { intros d0 _. destruct (write_staged _ _ _) as [[[]|e] d'] eqn:Ew; (eexists; split; [done|]).
    - apply write_staged_ok in Ew as ->. apply settled_spec.
    - by eapply halfway_spec. }
  destruct (navahi_discovery cfg), (dr_avahi d) as [x|] eqn:Ea; cbn [negb andb default];
    try (specialize (H _ eq_refl); cbn [default from_option id] in H;
         destruct (write_staged _ _ _) as [[[]|e] d']; destruct H as (a & [= <-] & H);
         eexists; (split; [done|]); cbn; rewrite ?bool_decide_eq_false_2 by done; by eauto).

Qed.
(** The four files that do not depend on the shares, and a file that is old or
    new as a whole. *)
Definition fixed_files_new (d' : Derived) : Prop :=
  fp_file (dr_sssd d') = Some sssd_text /\ fp_file (dr_krb5 d') = Some krb5_text
  /\ fp_file (dr_idmap d') = Some (idmap_conf cfg) /\ fp_file (dr_nfs d') = Some nfs_conf.
Definition old_or_new (f f' : FilePair) (text : string) : Prop := fp_file f' = fp_file f \/ fp_file f' = Some text.
Definition fixed_files_old_or_new (d d' : Derived) : Prop :=
  old_or_new (dr_sssd d) (dr_sssd d') sssd_text /\ old_or_new (dr_krb5 d) (dr_krb5 d') krb5_text
  /\ old_or_new (dr_idmap d) (dr_idmap d') (idmap_conf cfg) /\ old_or_new (dr_nfs d) (dr_nfs d') nfs_conf.
Lemma four_files d :
  let steps := [write_sssd_conf to_lowercase io cfg; write_krb5_conf to_lowercase io cfg; write_idmap_conf io cfg; write_nfs_conf io] in
  let '(r, d') := in_order steps d in
  dr_exports d' = dr_exports d /\ dr_avahi d' = dr_avahi d /\ dr_ganesha d' = dr_ganesha d
  /\ match r with Ok _ => fixed_files_new d' | Err _ => fixed_files_old_or_new d d' end.
Proof.
  cbn [in_order]. unfold fixed_files_new, fixed_files_old_or_new, old_or_new.
  unfold write_sssd_conf, write_krb5_conf, write_idmap_conf, write_nfs_conf.
  pose proof (written_spec (gi_sssd io) sssd_text (dr_sssd d)) as H1. destruct (written (gi_sssd io) _ _) as [ok1 f1].
  destruct (ok1 && gi_chmod io) eqn:E1; [apply andb_true_iff in E1 as [-> _]|cbn; destruct ok1; by auto 8].
  cbn [dr_krb5 set_files].
  pose proof (written_spec (gi_krb5 io) krb5_text (dr_krb5 d)) as H2. destruct (written (gi_krb5 io) _ _) as [[] f2]; [|cbn; by auto 8].
  cbn [dr_idmap set_files].
  pose proof (written_spec (gi_idmap io) (idmap_conf cfg) (dr_idmap d)) as H3. destruct (written (gi_idmap io) _ _) as [[] f3]; [|cbn; by auto 8].
  cbn [dr_nfs set_files].
  pose proof (written_spec (gi_nfs io) nfs_conf (dr_nfs d)) as H4. destruct (written (gi_nfs io) _ _) as [[] f4]; [|cbn; by auto 8].
  cbn. by auto 8.
Qed.
Lemma in_order_app steps rest d :
  in_order (steps ++ rest) d
  = let '(r, d') := in_order steps d in match r with Ok _ => in_order rest d' | Err e => (Err e, d') end.
Proof.
  revert d. induction steps as [|step l IH]; intros d; [done|]. cbn. destruct (step d) as [[x|e] d']; [apply IH|done].
Qed.
Lemma new_old_or_new d d' : fixed_files_new d' -> fixed_files_old_or_new d d'.
Proof. intros (H1 & H2 & H3 & H4). by split_and!; right. Qed.
(** C24: what a generation leaves.  One that succeeds leaves sssd.conf, krb5.conf,
    idmapd.conf and nfs.conf with their texts; exports.d with a fragment of its
    own text per share and without any other file that follows the naming rule
    of two digits (unless the file could not be removed), foreign files as they were;
    ganesha.conf with its fixed text followed by an include of exactly these
    fragments, in the order of the shares; and the adverts of the shares
    with their texts, the other adverts of the program withdrawn and no directory made
    when there is nothing to advertise.  One that fails leaves each of the five files
    and each fragment and advert old or new as a whole, no fragment touched before
    the four files are new, a new ganesha.conf only over its fragments, and no
    advert touched before ganesha.conf is new. *)
Theorem generate_all_consistent d :
  let '(r, d') := generate d in
  match r with
  | Ok _ =>
      fixed_files_new d' /\ fragments_settled d d' /\ adverts_settled d d'
      /\ fp_file (dr_ganesha d') = Some (main_head
           +:+ String.concat "" (map (fun f => "%include " +:+ exports_dir +:+ "/" +:+ f +:+ nls) (fragment_names 0 (shares cfg))))
  | Err _ =>
      fixed_files_old_or_new d d' /\ old_or_new (dr_ganesha d) (dr_ganesha d') main_text
      /\ (dr_exports d' = dr_exports d \/ fixed_files_new d' /\ (fragments_halfway d d' \/ fragments_settled d d'))
      /\ (fp_file (dr_ganesha d') = fp_file (dr_ganesha d) \/ fixed_files_new d' /\ fragments_settled d d')
      /\ (dr_avahi d' = dr_avahi d \/ fp_file (dr_ganesha d') = Some main_text /\ adverts_halfway d d')
  end.
Proof.
  unfold generate_all, old_or_new.
  destruct (gi_mkdir io); cbn [negb]; [|unfold fixed_files_old_or_new, old_or_new; by auto 12].
  change (in_order [?a; ?b; ?c; ?e; ?f; ?g; ?h]) with (in_order ([a; b; c; e] ++ [f; g; h])). rewrite in_order_app.
  pose proof (four_files d) as H4. cbv zeta in H4. destruct (in_order _ d) as [[[]|e] d4]; destruct H4 as (He & Ha & Hg & H4).
  2: { rewrite Hg. by auto 8. }
  cbn [in_order]. pose proof (fragments_written d4) as H5.
  destruct (write_fragments ua io cfg d4) as [[[]|e] d5]; destruct H5 as (x & -> & H5).
  2: { cbn [dr_ganesha dr_exports dr_avahi set_exports]. rewrite Hg. split; [by apply new_old_or_new|].
       split; [by left|]. split; [|by auto].
       destruct H5 as [->|H5]; [by left|]. right. split; [done|]. left. unfold fragments_halfway in *. by rewrite <- He. }
  assert (Hf : fragments_settled d (set_exports d4 x)) by (unfold fragments_settled in *; by rewrite <- He). clear H5.
  unfold write_ganesha_main. cbn [dr_ganesha set_exports]. rewrite Hg.
  pose proof (written_spec (gi_ganesha io) main_text (dr_ganesha d)) as H6.
  destruct (written (gi_ganesha io) _ _) as [[] f5].
  2: { cbn. split; [by apply new_old_or_new|]. split; [by left|]. split; [|by auto]. right. split; [done|]. by right. }
  match goal with |- context [write_adverts ua io cfg host ?s] => pose proof (adverts_written s) as H7; destruct (write_adverts ua io cfg host s) as [[[]|e] d7] end;
    destruct H7 as (a & -> & H7); unfold adverts_settled, adverts_halfway in *; cbn in H7 |- *; rewrite Ha in H7.
  - rewrite H6, main_includes. done.
  - rewrite H6. split; [by apply new_old_or_new|]. split; [by right|]. split; [by right; auto|]. split; [by right|]. by right.
Qed.
End Specs.

(** ** Values are copied as they are *)
Section Values.
Context (cfg : NfsKlldapConfig).
Definition sets_key (key line : string) : bool := starts_with (key +:+ " = ") line.
(** SSSD reads one value of [krb5_validate], that of the configuration first. *)
Lemma krb5_validate_once plain :
  List.filter (sets_key "krb5_validate") (krb5_lines cfg ++ option_lines cfg plain) =
  match ss_krb5_validate (sssd cfg) with
  | Some b => ["krb5_validate = " +:+ onoff b]
  | None => if seqb (auth_of cfg) "krb5" then ["krb5_validate = false"] else []
  end.
Proof.
  unfold krb5_lines, option_lines. rewrite !List.filter_app.
  destruct (seqb (auth_of cfg) "krb5"), (ss_krb5_validate (sssd cfg)) as [[]|], (filled_trim (ss_ldap_tls_reqcert (sssd cfg))),
    (filled_trim (ss_ldap_tls_cacert (sssd cfg))), (ss_ldap_id_use_start_tls (sssd cfg)), (filled_trim (ss_ldap_user_fullname (sssd cfg))),
    (ss_krb5_store_password_if_offline (sssd cfg)), (plain && _); reflexivity.
Qed.
End Values.
Lemma unlines_mid l1 x l2 : unlines (l1 ++ x :: l2) = unlines l1 +:+ x +:+ nls +:+ unlines l2.
Proof.
  induction l1 as [|y l1 IH]; [by rewrite sapp_nil_l|]. cbn [app unlines foldr]. fold (unlines (l1 ++ x :: l2)). fold (unlines l1).
  rewrite IH. unfold nls. rewrite !sapp_assoc. reflexivity.
Qed.
(** A bind password of two lines passes validation, and its second line is an
    option of its own in sssd.conf. *)
Theorem multi_line_password_adds_option to_lowercase :
  match validate_and_derive no_env (sssd_pw ("secret" +:+ nls +:+ "ldap_id_mapping = true") sample_config) with
  | Ok c => exists before after, sssd_conf to_lowercase c = before +:+ nls +:+ "ldap_id_mapping = true" +:+ nls +:+ after
  | Err _ => False
  end.
Proof.
  destruct (validate_and_derive _ _) as [c|e] eqn:E; [|vm_compute in E; discriminate].
  assert (Hp : ss_ldap_default_authtok (sssd c) = "secret" +:+ nls +:+ "ldap_id_mapping = true").
  { apply (f_equal (fun r => match r with Ok c => ss_ldap_default_authtok (sssd c) | Err _ => "" end)) in E. vm_compute in E.
    symmetry. etrans; [|exact E]. reflexivity. }
  clear E. unfold sssd_conf. destruct (effective_ldap_search_bases _ _) as [ub gb].
  match goal with |- context [sssd_head c ?b] =>
    change (sssd_head c b) with (take 18 (sssd_head c b) ++ ("ldap_default_authtok = " +:+ ss_ldap_default_authtok (sssd c)) :: drop 19 (sssd_head c b)) end.
  rewrite unlines_mid, Hp. eexists (unlines _ +:+ "ldap_default_authtok = secret"), _. rewrite !sapp_assoc. reflexivity.
Qed.
