(* ===== verification/IdhelperCli.v ===== *)
(** * The command line of the idhelper

    Models [bin/idhelper/main.rs]: the sub-commands, the choice between the
    stores of the environment, the socket of the daemon and a resolution in the
    process itself, and what is printed with which exit code.  The daemon at the
    other end of the socket is [handle_client] of [Idhelper.v]; the readers of
    the replies are shared with [Readiness.v].  Debug lines are not modelled. *)

From S2P Require Import Prelude RustStr State Identity Resolver Generate IdCache Nss Config Host NssContract Readiness IdentityChecks NssRows Idhelper IdhelperProps.
Local Open Scope Z_scope.

(** What a run printed, line by line, and its exit code. *)
Record CliReport := { stdout : list string; stderr : list string; code : Z }.
Definition ok_line (l : string) : CliReport := {| stdout := [l]; stderr := []; code := 0 |}.
Definition err_line (c : Z) (l : string) : CliReport := {| stdout := []; stderr := [l]; code := c |}.
Definition unresolved_error (p : string) : CliReport := err_line 1 ("ERR unresolved principal: " +:+ p).
Definition production : NssMaterializePaths := {|
  nss_passwd := "/var/lib/nfs-klldap/nss_passwd"; nss_group := "/var/lib/nfs-klldap/nss_group";
  extrausers_passwd := "/var/lib/extrausers/passwd"; extrausers_group := "/var/lib/extrausers/group" |}.
Definition materialize_paths_owned (s : Sys) : NssMaterializePaths := {|
  nss_passwd := env_path s "NSS_PASSWD" (nss_passwd production);
  nss_group := env_path s "NSS_GROUP" (nss_group production);
  extrausers_passwd := env_path s "NSS_EXTRAUSERS_PASSWD" (extrausers_passwd production);
  extrausers_group := env_path s "NSS_EXTRAUSERS_GROUP" (extrausers_group production) |}.
(** [set_file_name] on a path that ends in a file name. *)
Definition sibling (path name : string) : string :=
  match rsplit_once "/" path with Some (dir, _) => dir +:+ "/" +:+ name | None => name end.
Definition effective_cache_path (s : Sys) : string :=
  match env_of s "IDHELPER_CACHE_PATH" with
  | Some p => p
  | None => match env_of s "NSS_PASSWD" with Some np => sibling np "idmap.cache" | None => CACHE_PATH end
  end.
Definition grps_use_local_materialize (s : Sys) : bool := is_some (env_of s "NSS_PASSWD").

(** ** Replies of the daemon *)
Definition cli_kind (s : string) : PrincipalKind :=
  if seqb s "machine" then Machine else if seqb s "user" then User else Unknown.
Definition read_resolve_reply (resp : string) : option Resolved :=
  rest ← strip_prefix "OK " resp;
  match split "|" rest with
  | [p; us; gs; k; src] =>
      uid ← parse_uint u32_max us; gid ← parse_uint u32_max gs;
      Some (row p (principal_local_part p) uid gid (cli_kind k) src)
  | _ => None
  end.
Definition try_resolve_via_socket (s : Sys) (principal : string) : option Resolved :=
  idhelper_socket_request s (idhelper_socket_path s) ("RESOLVE " +:+ principal +:+ nl_) ≫= read_resolve_reply.
Definition try_grps_via_socket (s : Sys) (principal : string) : option (list Z) :=
  probe_socket_grps s principal (idhelper_socket_path s).
Definition try_grouplist_via_socket (s : Sys) (principal : string) : option (list Z) :=
  probe_socket_grouplist s principal (idhelper_socket_path s).
Definition socket_reply_ok (s : Sys) (request : string) : bool :=
  match idhelper_socket_request s (idhelper_socket_path s) (request +:+ nl_) with
  | Some ln => starts_with "OK " ln | None => false end.
(** The realm a principal is classified in: its own, when it has one. *)
Definition effective_realm_for (principal runtime_realm : string) : string :=
  match rsplit_once "@" principal with
  | Some (_, r) => if is_empty (trim r) then runtime_realm else trim r
  | None => runtime_realm
  end.

(** ** What is printed *)
Definition resolve_json (r : Resolved) : string :=
  "{" +:+ dq +:+ "principal" +:+ dq +:+ ":" +:+ dq +:+ r_principal r +:+ dq +:+ ","
  +:+ dq +:+ "name" +:+ dq +:+ ":" +:+ dq +:+ r_name r +:+ dq +:+ ","
  +:+ dq +:+ "uid" +:+ dq +:+ ":" +:+ dec (r_uid r) +:+ "," +:+ dq +:+ "gid" +:+ dq +:+ ":" +:+ dec (r_gid r) +:+ ","
  +:+ dq +:+ "kind" +:+ dq +:+ ":" +:+ dq +:+ kind_str (r_kind r) +:+ dq +:+ ","
  +:+ dq +:+ "source" +:+ dq +:+ ":" +:+ dq +:+ r_source r +:+ dq +:+ "}".
Definition resolve_text (r : Resolved) : string :=
  r_principal r +:+ " -> name=" +:+ r_name r +:+ " uid=" +:+ dec (r_uid r) +:+ " gid=" +:+ dec (r_gid r)
  +:+ " kind=" +:+ kind_str (r_kind r) +:+ " source=" +:+ r_source r.
Definition gids_json (p : string) (gs : list Z) : string :=
  "{" +:+ dq +:+ "principal" +:+ dq +:+ ":" +:+ dq +:+ p +:+ dq +:+ "," +:+ dq +:+ "gids" +:+ dq +:+ ":["
  +:+ join "," (map dec gs) +:+ "]}".
Definition gids_text (gs : list Z) : string := "OK " +:+ join "|" (map dec gs).
Definition no_gids (p : string) (gs : list Z) : bool := bool_decide (gs = []) && contains_char "@" p.
Definition resolve_outcome (json : bool) (p : string) (r : Resolved) : CliReport :=
  if is_unresolved_fail_closed r then unresolved_error p
  else ok_line (if json then resolve_json r else resolve_text r).
Definition grps_outcome (json : bool) (p : string) (gs : list Z) : CliReport :=
  if json then ok_line (gids_json p gs)
  else if no_gids p gs then unresolved_error p else ok_line (gids_text gs).
Definition grouplist_outcome (json : bool) (p : string) (gs : list Z) : CliReport :=
  if no_gids p gs then unresolved_error p
  else ok_line (if json then gids_json p gs else gids_text gs).
Definition usage (what : string) : CliReport := err_line 2 ("Usage: nfs-klldap-idhelper " +:+ what).
Definition classify_outcome (p realm : string) (server_variants : list string) : CliReport :=
  if is_empty p then usage "classify <principal>"
  else let '(is_m, reason) := classify_principal p realm server_variants in
       ok_line (p +:+ " -> kind=" +:+ (if is_m : bool then "machine" else "user") +:+ " reason=" +:+ dq +:+ reason +:+ dq).
Definition wants_json (args : list string) : bool := existsb (fun a => seqb a "--json" || seqb a "-j") args.
Definition arg1 (dflt : string) (args : list string) : string := default dflt (args !! 1%nat).

(** ** The sub-commands *)
Section Cli.
Context `{!HashIter string, !HashIter Z}.
Context (server : nat -> Query -> Attempt) (op_timeout_secs : Z).
Context (commands : nat -> list string -> option string).
Context (config : nat -> option HelperConfig) (env_force : option string).
Context (ws : nat -> string -> WriteWorld) (read_fails : nat -> string -> bool).
Context (s : Sys) (realm : string) (server_variants : list string).

Definition load_cache : H unit :=
  let* d := get h_disk in modify (on_cache (fun _ => load_from_file (d !! effective_cache_path s))).
Definition resolve_in (paths : NssMaterializePaths) (eff_realm p : string) : H Resolved :=
  do* load_cache in
  resolve_principal server op_timeout_secs commands config env_force ws read_fails paths
    (effective_cache_path s) eff_realm server_variants p.
Definition gids_in (paths : NssMaterializePaths) (eff_realm p : string) : H (list Z) :=
  do* load_cache in
  resolve_gids_and_materialize server op_timeout_secs commands config env_force ws read_fails paths
    (effective_cache_path s) eff_realm server_variants p false.
Definition resolve_for_cli (p : string) : H Resolved :=
  let eff := effective_realm_for p realm in
  if grps_use_local_materialize s then resolve_in (materialize_paths_owned s) eff p
  else match try_resolve_via_socket s p with
       | Some r => ret r
       | None => resolve_in production eff p
       end.
Definition gids_for_cli (p : string) (via_socket : string -> option (list Z)) : H (list Z) :=
  let eff := effective_realm_for p realm in
  if grps_use_local_materialize s then gids_in (materialize_paths_owned s) eff p
  else match via_socket p with
       | Some gs => ret gs
       | None => gids_in production eff p
       end.
(** [resolve], [grps], [grouplist] and [classify]; [None]: another sub-command. *)
Definition handle_cli (args : list string) : option (H CliReport) :=
  let cmd := default "help" (head args) in
  let json := wants_json args in
  if seqb cmd "resolve" then
    let p := arg1 "" args in
    Some (if is_empty p then ret (usage "resolve <principal> [--json]")
          else let* r := resolve_for_cli p in ret (resolve_outcome json p r))
  else if seqb cmd "grps" then
    let p := arg1 "" args in
    Some (if is_empty p then ret (usage "grps <principal> [--json]")
          else let* gs := gids_for_cli p (try_grps_via_socket s) in ret (grps_outcome json p gs))
  else if seqb cmd "grouplist" || seqb cmd "getgrouplist" then
    let p := arg1 "root" args in
    Some (if is_empty p then ret (usage "grouplist <principal|uid> [--json]")
          else let* gs := gids_for_cli p (try_grouplist_via_socket s) in ret (grouplist_outcome json p gs))
  else if seqb cmd "classify" then Some (ret (classify_outcome (arg1 "" args) realm server_variants))
  else None.

(** The self-test of [check]: whether the daemon knows root, and what is found
    of the principal it probes, when there is one. *)
Record SelfTest := {
  st_row : Resolved; st_user_gl : bool; st_log_warns : option bool; st_socket_gids : option (list Z);
}.
Definition self_test_principal (cfg : option NfsKlldapConfig) : option string :=
  (fun u => if contains_char "@" u then u else u +:+ "@" +:+ realm)
    <$> probe_user_principal s cfg (from_runtime_defaults s).
Definition self_test (cfg : option NfsKlldapConfig) : H (bool * option SelfTest) :=
  let root_gl := socket_reply_ok s "GROUPLIST root" in
  match self_test_principal cfg with
  | None => ret (root_gl, None)
  | Some p =>
      let* r := resolve_in production realm p in
      ret (root_gl, Some {| st_row := r;
                   st_user_gl := socket_reply_ok s ("GROUPLIST " +:+ p);
                   st_log_warns := (fun lc => existsb (fun ln => getgrouplist_warning (to_ascii_lowercase ln)) (lines lc))
                                     <$> sy_read s "/var/log/ganesha.log";
                   st_socket_gids := try_grps_via_socket s p |})
  end.
End Cli.
(** What [main] does with the arguments after the binary name. *)
Inductive Dispatch := RunDaemon | PrintHelp (c : Z) | RunCheck | PrintExplain | RunCli (args : list string).
Definition dispatch_args (args : list string) : Dispatch :=
  match args with
  | [] => PrintHelp 0
  | cmd :: _ =>
      if existsb (seqb cmd) ["daemon"; "--daemon"] then RunDaemon
      else if existsb (seqb cmd) ["resolve"; "grps"; "grouplist"; "getgrouplist"; "classify"] then RunCli args
      else if seqb cmd "check" then RunCheck
      else if seqb cmd "explain" then PrintExplain
      else if existsb (seqb cmd) ["help"; "--help"; "-h"] then PrintHelp 0
      else PrintHelp 1
  end.

(** ** Reading the replies back *)
(** The last byte is not white space and not part of a longer one. *)
Definition ends_solid (x : string) : Prop := exists a y, x = a +:+ String y "" /\ solid y = true.
Lemma ends_solid_app a b : ends_solid b -> ends_solid (a +:+ b).
Proof. intros (x & y & -> & Hy). exists (a +:+ x), y. by rewrite sapp_assoc. Qed.
Lemma solid_ends x : sall solid x = true -> x <> "" -> ends_solid x.
Proof.
  induction x as [|c x IH]; [done|]. cbn. intros [Hc Hx]%andb_true_iff _.
  destruct x as [|d x]; [by exists "", c|].
  apply (ends_solid_app (String c "")), IH; done.
Qed.
Lemma trim_line c x y : solid c = true -> ends_solid x -> trim (String c y +:+ x +:+ nl_) = String c y +:+ x.
Proof.
  intros Hc (a & d & -> & Hd).
  assert (E : String c y +:+ (a +:+ String d "") +:+ nl_ = "" +:+ String c ((y +:+ a) +:+ String d nl_))
    by (by rewrite sapp_cons, !sapp_assoc).
  rewrite E, trim_solid, trim_end_solid by done. by rewrite sapp_cons, !sapp_assoc.
Qed.
Lemma dec_ends n : 0 <= n -> ends_solid (dec n).
Proof. intros (Hd & Hne & _)%dec_spec. by apply solid_ends; [apply digit_solid|]. Qed.
Definition u32s (gs : list Z) : Prop := Forall (fun g => 0 <= g <= u32_max) gs.
Lemma gids_ends sep gs : u32s gs -> gs <> [] -> ends_solid (join sep (map dec gs)).
Proof.
  induction 1 as [|x [|y l] Hx Hl IH]; intros; [done|apply dec_ends, Hx|].
  change (join sep (map dec (x :: y :: l))) with (dec x +:+ sep +:+ join sep (map dec (y :: l))).
  do 2 apply ends_solid_app. by apply IH.
Qed.
Lemma gids_parse gs : u32s gs -> omap (fun t => parse_uint u32_max (trim t)) (map dec gs) = gs.
Proof.
  induction 1 as [|x r Hx _ IH]; [done|]. cbn [map omap list_omap].
  rewrite trim_all_solid by (apply digit_solid, dec_spec; lia).
  rewrite parse_uint_dec by done. by f_equal.
Qed.
Lemma gids_split gs :
  u32s gs -> gs <> [] -> omap (fun t => parse_uint u32_max (trim t)) (split "|" (join "|" (map dec gs))) = gs.
Proof.
  intros H Hne. change "|" with (String "|"%char ""). rewrite join_split; [by apply gids_parse|by destruct gs|].
  apply Forall_map. eapply Forall_impl; [exact H|]. intros g Hg. apply dec_no_char; [cbn in Hg; lia|done].
Qed.
(** What the clients of the socket make of the daemon's list of groups. *)
Lemma grps_reply_reads gs q :
  u32s gs ->
  (rest ← strip_prefix "OK " (trim (grps_reply gs q));
   nonempty_gids (omap (fun t => parse_uint u32_max (trim t)) (split "|" rest))) = nonempty_gids gs.
Proof.
  intros H. unfold grps_reply. destruct gs as [|g l]; [by destruct (contains_char "@" q); vm_compute|].
  rewrite bool_decide_eq_false_2 by done. cbn [andb].
  rewrite (trim_line "O" _ "K ") by (done || by apply gids_ends).
  rewrite (proj2 (strip_prefix_spec "OK " _ _) eq_refl). cbn [mbind option_bind].
  by rewrite gids_split.
Qed.
(** A row the daemon prints on one line, with the separator in no field. *)
Definition one_line (r : Resolved) : Prop :=
  contains_char "|" (r_principal r) = false /\ contains_char "|" (r_source r) = false
  /\ sall solid (r_source r) = true /\ r_source r <> "" /\ 0 <= r_uid r <= u32_max /\ 0 <= r_gid r <= u32_max.
Lemma cli_kind_str k : cli_kind (kind_str k) = k.
Proof. by destruct k. Qed.
Definition without_groups (r : Resolved) : Resolved :=
  row (r_principal r) (principal_local_part (r_principal r)) (r_uid r) (r_gid r) (r_kind r) (r_source r).
Lemma resolve_reply_reads r :
  one_line r ->
  read_resolve_reply (trim (format_resolve_socket_line r))
  = if is_unresolved_fail_closed r then None else Some (without_groups r).
Proof.
  intros (Hp & Hs & Hss & Hne & Hu & Hg). unfold format_resolve_socket_line.
  destruct (is_unresolved_fail_closed r); [by vm_compute|].
  set (x := r_principal r +:+ "|" +:+ dec (r_uid r) +:+ "|" +:+ dec (r_gid r) +:+ "|" +:+ kind_str (r_kind r) +:+ "|" +:+ r_source r).
  assert (E : "OK " +:+ r_principal r +:+ "|" +:+ dec (r_uid r) +:+ "|" +:+ dec (r_gid r) +:+ "|" +:+ kind_str (r_kind r)
              +:+ "|" +:+ r_source r +:+ String nl "" = String "O" "K " +:+ x +:+ nl_)
    by (unfold x; by rewrite !sapp_assoc).
  rewrite E, trim_line; [|done|unfold x; do 8 apply ends_solid_app; by apply solid_ends].
  unfold read_resolve_reply. rewrite (proj2 (strip_prefix_spec "OK " _ _) eq_refl). cbn [mbind option_bind].
  unfold x. rewrite !bar_app, split_app by done.
  do 2 (rewrite split_app by (apply dec_no_char; [lia|done])).
  rewrite split_app by (by apply kind_str_no_char). rewrite split_no_char by done.
  by rewrite !parse_uint_dec, cli_kind_str by done.
Qed.

(** What [grps] prints, as the identity check reads it. *)
Lemma split_p_app p a c b : sall (fun d => negb (p d)) a = true -> p c = true -> split_p p (a +:+ String c b) = a :: split_p p b.
Proof.
  intros Ha Hc. induction a as [|d a IH]; [rewrite sapp_nil_l; cbn; by rewrite Hc|].
  rewrite sapp_cons. cbn in *. apply andb_true_iff in Ha as [Hd%negb_true_iff Ha]. by rewrite Hd, IH.
Qed.
Lemma split_p_one p a : sall (fun d => negb (p d)) a = true -> split_p p a = [a].
Proof.
  induction a as [|d a IH]; cbn; [done|]. intros [Hd%negb_true_iff Ha]%andb_true_iff. by rewrite Hd, IH.
Qed.
Lemma printed_gids_read gs : u32s gs -> gs <> [] -> parse_grps_output (gids_text gs +:+ nl_) = gs.
Proof.
  intros H Hne. unfold parse_grps_output, gids_text.
  rewrite sapp_assoc, (trim_line "O" _ "K ") by (done || by apply gids_ends).
  rewrite (proj2 (strip_prefix_spec "OK " _ _) eq_refl). cbn [default from_option id].
  rewrite <- (gids_parse gs) at 2 by done. f_equal.
  assert (Hd : forall g, 0 <= g <= u32_max -> sall (fun d => negb (ceqb d "|" || ceqb d " " || ceqb d ",")) (dec g) = true).
  { intros g Hg. destruct (dec_spec g) as (D & _ & _); [lia|]. revert D. apply sall_impl.
    assert (B : forall c, implb (is_ascii_digit c) (negb (ceqb c "|" || ceqb c " " || ceqb c ",")) = true) by by_bytes.
    intros c Hc. specialize (B c). by rewrite Hc in B. }
  induction H as [|x [|y l] Hx Hl IH]; [done|by apply split_p_one, Hd|].
  change (join "|" (map dec (x :: y :: l))) with (dec x +:+ String "|" (join "|" (map dec (y :: l)))).
  rewrite split_p_app by (done || by apply Hd). cbn [map]. f_equal. by apply IH.
Qed.

(** ** The daemon at the other end of the socket *)
(** One argument word. *)
Definition word (p : string) : Prop := sall solid p = true /\ p <> "".
Lemma request_word c v arg :
  solid c = true -> contains_char " " (String c v) = false -> word arg ->
  request (String c v +:+ " " +:+ arg +:+ nl_) = Some (to_ascii_uppercase (String c v), arg).
Proof.
  intros Hc Hv [Ha Hne]. unfold request.
  replace (String c v +:+ " " +:+ arg +:+ nl_) with (String c v +:+ (" " +:+ arg) +:+ nl_) by (by rewrite !sapp_assoc).
  rewrite trim_line by (done || by apply ends_solid_app, solid_ends).
  change (" " +:+ arg) with (String " " arg). cbn [is_empty]. rewrite sapp_cons. cbn [is_empty].
  rewrite <- sapp_cons, split_once_app by done. by rewrite trim_all_solid.
Qed.

(** Evaluates the comparisons of the verb of a request. *)
Ltac known_verb :=
  repeat match goal with
  | |- context [seqb (to_ascii_uppercase ?v) ?w] =>
      let b := eval vm_compute in (seqb (to_ascii_uppercase v) w) in
      change (seqb (to_ascii_uppercase v) w) with b
  end; cbv beta iota zeta; cbn [orb].
Section Socket.
Context `{!HashIter string, !HashIter Z}.
(** The daemon: what it sees, and its state when the request arrives. *)
Context (d_server : nat -> Query -> Attempt) (d_secs : Z) (d_commands : nat -> list string -> option string).
Context (d_config : nat -> option HelperConfig) (d_force : option string).
Context (d_ws : nat -> string -> WriteWorld) (d_read_fails : nat -> string -> bool).
Context (d_paths : NssMaterializePaths) (d_cache d_realm : string) (d_variants : list string) (hd : Helper).
(** The process that runs the sub-command. *)
Context (server : nat -> Query -> Attempt) (op_timeout_secs : Z) (commands : nat -> list string -> option string).
Context (config : nat -> option HelperConfig) (env_force : option string).
Context (ws : nat -> string -> WriteWorld) (read_fails : nat -> string -> bool).
Context (s : Sys) (realm : string) (server_variants : list string).
Local Abbreviation daemon :=
  (handle_client d_server d_secs d_commands d_config d_force d_ws d_read_fails d_paths d_cache d_realm d_variants).
Local Abbreviation daemon_gids :=
  (resolve_gids_and_materialize d_server d_secs d_commands d_config d_force d_ws d_read_fails d_paths d_cache d_realm d_variants).
Local Abbreviation daemon_resolve :=
  (resolve_principal d_server d_secs d_commands d_config d_force d_ws d_read_fails d_paths d_cache d_realm d_variants).
Local Abbreviation cli :=
  (handle_cli server op_timeout_secs commands config env_force ws read_fails s realm server_variants).
Local Abbreviation resolved :=
  (resolve_for_cli server op_timeout_secs commands config env_force ws read_fails s realm server_variants).

(** The daemon listens on the socket and answers this request. *)
Definition daemon_answers (req : string) : Prop :=
  sy_exists s (idhelper_socket_path s) = true
  /\ sy_socket s (idhelper_socket_path s) req = fst (daemon req hd).
Lemma daemon_request req :
  daemon_answers req -> idhelper_socket_request s (idhelper_socket_path s) req = trim <$> fst (daemon req hd).
Proof. intros [He Hs]. unfold idhelper_socket_request. by rewrite He, Hs. Qed.
Lemma bind_ret_fst {S A B} (m : M S A) (f : A -> B) h : fst (bind m (fun a => ret (f a)) h) = f (fst (m h)).
Proof. unfold bind. by destruct (m h). Qed.
Ltac daemon_verb Hw :=
  unfold handle_client; rewrite request_word by (exact Hw || done); known_verb;
  match goal with |- context [is_empty ?p] => replace (is_empty p) with false by (by destruct Hw as [_ Hne], p) end;
  by rewrite !bind_ret_fst.
Lemma daemon_grps p : word p ->
  fst (daemon ("GRPS" +:+ " " +:+ p +:+ nl_) hd) = Some (grps_reply (fst (daemon_gids p false hd)) p).
Proof. intros Hw. daemon_verb Hw. Qed.
Lemma daemon_grouplist p : word p ->
  fst (daemon ("GROUPLIST" +:+ " " +:+ p +:+ nl_) hd) = Some (grps_reply (fst (daemon_gids p false hd)) p).
Proof. intros Hw. daemon_verb Hw. Qed.
Lemma daemon_row p : word p ->
  fst (daemon ("RESOLVE" +:+ " " +:+ p +:+ nl_) hd) = Some (format_resolve_socket_line (fst (daemon_resolve p hd))).
Proof. intros Hw. daemon_verb Hw. Qed.

Lemma gids_of_reply cmd p gs :
  daemon_answers (cmd +:+ " " +:+ p +:+ nl_) -> fst (daemon (cmd +:+ " " +:+ p +:+ nl_) hd) = Some (grps_reply gs p) ->
  u32s gs -> socket_cmd_gids s (idhelper_socket_path s) cmd p = nonempty_gids gs.
Proof.
  intros Hd E Hu. unfold socket_cmd_gids. change (String nl "") with nl_. rewrite (daemon_request _ Hd), E.
  by apply grps_reply_reads.
Qed.
Lemma try_resolve_daemon p : word p -> daemon_answers ("RESOLVE" +:+ " " +:+ p +:+ nl_) ->
  one_line (fst (daemon_resolve p hd)) ->
  try_resolve_via_socket s p
  = if is_unresolved_fail_closed (fst (daemon_resolve p hd)) then None else Some (without_groups (fst (daemon_resolve p hd))).
Proof.
  intros Hw Hd Hr. unfold try_resolve_via_socket.
  change ("RESOLVE " +:+ p +:+ nl_) with ("RESOLVE" +:+ " " +:+ p +:+ nl_).
  rewrite (daemon_request _ Hd), daemon_row by done. by apply resolve_reply_reads.
Qed.

(** C16: outside a preflight the [grps] and [grouplist] sub-commands print the
    groups the daemon has for the principal, in its order, and change nothing
    themselves, whenever the daemon answers with at least one group; what [grps]
    prints is what the identity check reads back. *)
Theorem cli_prints_daemon_groups p rest h :
  env_of s "NSS_PASSWD" = None -> word p -> u32s (fst (daemon_gids p false hd)) -> fst (daemon_gids p false hd) <> [] ->
  daemon_answers ("GRPS" +:+ " " +:+ p +:+ nl_) -> daemon_answers ("GROUPLIST" +:+ " " +:+ p +:+ nl_) ->
  let gs := fst (daemon_gids p false hd) in
  let text := gids_text gs in
  let json := wants_json (p :: rest) in
  (fun m => m h) <$> cli ("grps" :: p :: rest) = Some (ok_line (if json then gids_json p gs else text), h)
  /\ (fun m => m h) <$> cli ("grouplist" :: p :: rest) = Some (ok_line (if json then gids_json p gs else text), h)
  /\ parse_grps_output (text +:+ nl_) = gs.
Proof.
  intros He Hw Hu Hne Hg Hl gs text json. subst gs text json. set (gs := fst (daemon_gids p false hd)) in *.
  pose proof (gids_of_reply "GRPS" p gs Hg (daemon_grps p Hw) Hu) as Eg.
  pose proof (gids_of_reply "GROUPLIST" p gs Hl (daemon_grouplist p Hw) Hu) as El.
  assert (Hn : nonempty_gids gs = Some gs) by (by destruct gs).
  assert (Hp : is_empty p = false) by (by destruct Hw as [_ Hpne], p).
  assert (Hno : no_gids p gs = false) by (unfold no_gids; by rewrite bool_decide_eq_false_2).
  split_and!.
  - unfold handle_cli, gids_for_cli, grps_use_local_materialize, try_grps_via_socket, probe_socket_grps, arg1. cbn -[grps_outcome].
    rewrite Hp, He, Eg, Hn. unfold bind, ret, grps_outcome. cbn [is_some]. cbv beta iota. rewrite Hno. by case_match.
  - unfold handle_cli, gids_for_cli, grps_use_local_materialize, try_grouplist_via_socket, probe_socket_grouplist, arg1. cbn -[grouplist_outcome].
    rewrite Hp, He, El, Hn. unfold bind, ret, grouplist_outcome. cbn [is_some]. cbv beta iota. by rewrite Hno.
  - by apply printed_gids_read.
Qed.

(** The [resolve] sub-command prints the row of the daemon under the name the
    command line computes, and changes nothing itself. *)
Theorem cli_resolve_of_daemon p h :
  env_of s "NSS_PASSWD" = None -> word p -> daemon_answers ("RESOLVE" +:+ " " +:+ p +:+ nl_) ->
  let r := fst (daemon_resolve p hd) in
  one_line r -> is_unresolved_fail_closed r = false ->
  resolved p h = (without_groups r, h).
Proof.
  intros He Hw Hd r Hr Hf. subst r. unfold resolve_for_cli, grps_use_local_materialize.
  rewrite He, (try_resolve_daemon p Hw Hd Hr), Hf. done.
Qed.
End Socket.

(** ** Exit codes *)
Section Codes.
Context `{!HashIter string, !HashIter Z}.
Context (server : nat -> Query -> Attempt) (op_timeout_secs : Z) (commands : nat -> list string -> option string).
Context (config : nat -> option HelperConfig) (env_force : option string).
Context (ws : nat -> string -> WriteWorld) (read_fails : nat -> string -> bool).
Context (s : Sys) (realm : string) (server_variants : list string).
Local Abbreviation cli :=
  (handle_cli server op_timeout_secs commands config env_force ws read_fails s realm server_variants).
Local Abbreviation gids_ :=
  (gids_for_cli server op_timeout_secs commands config env_force ws read_fails s realm server_variants).

(** One line on one of the two streams, with the exit code that goes with it. *)
Inductive well_reported : CliReport -> Prop :=
  | reported l : well_reported (ok_line l)
  | refused p : well_reported (unresolved_error p)
  | misused w : well_reported (usage w).
#[local] Hint Constructors well_reported : core.
Lemma bind_pure_reported {A} (m : H A) (f : A -> CliReport) h :
  (forall a, well_reported (f a)) -> well_reported (fst (bind m (fun a => ret (f a)) h)).
Proof. rewrite bind_ret_fst. auto. Qed.
(** Every sub-command that resolves or classifies prints one line: on standard
    output with exit code 0, or on standard error with 1 for a principal without
    an answer and 2 for a missing argument. *)
Theorem cli_well_reported args m h : cli args = Some m -> well_reported (fst (m h)).
Proof.
  unfold handle_cli. intros E. repeat (case_match; simplify_eq); cbn [fst ret]; auto;
    try (apply bind_pure_reported; intros; unfold resolve_outcome, grps_outcome, grouplist_outcome; by repeat case_match).
  unfold classify_outcome. by repeat case_match.
Qed.

(** Under [--json] the sub-command [grps] never reports a principal without
    groups: it exits with 0 and prints an empty list where [grouplist] exits
    with 1 and prints nothing on standard output. *)
Theorem json_grps_hides_unresolved p rest h h' :
  is_empty p = false -> contains_char "@" p = true -> wants_json (p :: rest) = true ->
  gids_ p (try_grps_via_socket s) h = ([], h') -> gids_ p (try_grouplist_via_socket s) h = ([], h') ->
  (fun m => m h) <$> cli ("grps" :: p :: rest) = Some (ok_line (gids_json p []), h')
  /\ (fun m => m h) <$> cli ("grouplist" :: p :: rest) = Some (unresolved_error p, h').
Proof.
  intros Hp Ha Hj Hg Hl. unfold wants_json in Hj. cbn in Hj.
  assert (Hno : no_gids p [] = true) by done.
  split; unfold handle_cli, arg1, bind; cbn -[grps_outcome grouplist_outcome]; rewrite Hp; cbn -[grps_outcome grouplist_outcome].
  - unfold bind. rewrite Hg, Hj. done.
  - unfold bind. rewrite Hl. unfold grouplist_outcome. by rewrite Hno.
Qed.
End Codes.

(** ** A preflight leaves the other stores alone *)
Definition touched (paths : NssMaterializePaths) (cache : string) : list string :=
  cache :: with_extension "tmp" cache :: store_paths paths ++ map (with_extension "new") (store_paths paths).
Section Frame.
Context `{!HashIter string, !HashIter Z}.
Context (server : nat -> Query -> Attempt) (op_timeout_secs : Z) (commands : nat -> list string -> option string).
Context (config : nat -> option HelperConfig) (env_force : option string).
Context (ws : nat -> string -> WriteWorld) (read_fails : nat -> string -> bool).
Context (paths : NssMaterializePaths) (cache_path realm : string) (server_variants : list string).
Context (q : string) (v : option string) (Hq : q ∉ touched paths cache_path).
Definition still (h : Helper) : Prop := h_disk h !! q = v.
Local Abbreviation kept := (keeps still).

Lemma not_store p : p ∈ store_paths paths -> q <> p /\ q <> with_extension "new" p.
Proof. intros Hp. split; intros ->; apply Hq; unfold touched; set_solver. Qed.
Lemma still_quiet {A} (m : H A) : quiet m -> kept m.
Proof.
  intros Hm h Hh. unfold still in *. pose proof (quiet_run m h Hm) as Hr. by destruct Hr as (_ & -> & _).
Qed.
Lemma still_on_cache f : kept (modify (on_cache f)).
Proof. apply keeps_modify. by intros []. Qed.
Lemma still_disk_op {A} (f : nat -> Disk -> A * Disk) : (forall n d, snd (f n d) !! q = d !! q) -> kept (disk_op paths f).
Proof.
  intros Hf h Hh. unfold disk_op, still in *. destruct h as [c r sl d w i l k]. cbn in Hh |- *.
  specialize (Hf i d). destruct (f i d). cbn in *. by rewrite Hf.
Qed.
Lemma still_materialize gs : kept (materialize ws paths gs).
Proof.
  apply keeps_bind; [apply keeps_get|]. intros c. apply still_disk_op. intros n d.
  unfold materialize_nss_wrappers_at. destruct (write_stores _ _ _ d) as [r d'] eqn:E. cbn [snd].
  eapply write_stores_frame; [exact E| |]; cbn.
  - intros Hin. by destruct (not_store q) as [? _].
  - intros p Hp. by destruct (not_store p) as [_ ?].
Qed.
Lemma ensure_store_frame w rf gid login p d :
  p ∈ store_paths paths -> snd (ensure_store rf w paths gid login p d) !! q = d !! q.
Proof.
  intros Hp. destruct (not_store p Hp) as [H1 H2]. unfold ensure_store. cbv zeta. case_match; [done|].
  case_match; [|done].
  destruct (write_atomic_if_changed _ _ _ d) as [rb d1] eqn:E.
  assert (d1 !! q = d !! q) by (eapply write_atomic_frame; [exact E|done|done]). by destruct rb.
Qed.
Lemma still_ensure_member g l : kept (ensure_member ws read_fails paths g l).
Proof.
  apply keeps_bind; [|intros; apply keeps_ret]. apply still_disk_op. intros n d.
  unfold ensure_nss_group_member_login. cbv zeta. case_match; [done|].
  pose proof (ensure_store_frame (ws n) (read_fails n) g (trim l) (nss_group paths) d ltac:(set_solver)) as E.
  destruct (ensure_store _ _ _ _ _ (nss_group paths) d) as [[] d1]; [|done]. cbn in E. rewrite <- E.
  apply ensure_store_frame. set_solver.
Qed.
Lemma still_write_cache : kept (write_cache ws paths cache_path).
Proof.
  apply keeps_bind; [apply keeps_get|]. intros c. apply still_disk_op. intros n d. unfold write_to_file. cbv zeta.
  assert (q <> cache_path /\ q <> with_extension "tmp" cache_path) as [? ?]
    by (split; intros ->; apply Hq; unfold touched; set_solver).
  repeat case_match; cbn [snd]; by rewrite ?lookup_insert_ne, ?lookup_delete_ne, ?lookup_insert_ne by done.
Qed.
Lemma still_set_supps k f : kept (set_supps k f).
Proof. apply still_on_cache. Qed.
#[local] Hint Resolve still_materialize still_ensure_member still_write_cache still_set_supps still_on_cache : keep.
#[local] Hint Extern 5 (keeps still _) => apply still_quiet; solve [eauto using run_command_quiet, get_or_init_quiet,
  snapshot_groups_quiet, compute_gids_quiet, fresh_quiet, r_load_quiet, r_snapshot_quiet, r_groups_quiet] : keep.
Lemma still_memberships r gids : kept (ensure_memberships ws read_fails paths r gids).
Proof. unfold ensure_memberships, ensure_root_on_supplemental_groups. keep_all. Qed.
#[local] Hint Resolve still_memberships : keep.
Lemma still_materialized r gids : kept (ensure_nss_materialized_for config ws read_fails paths r gids).
Proof. unfold ensure_nss_materialized_for. keep_all. Qed.
#[local] Hint Resolve still_materialized : keep.
Lemma still_publish r :
  kept (publish server op_timeout_secs commands config ws read_fails paths cache_path (ret false) r).
Proof. unfold publish. keep_all. Qed.
#[local] Hint Resolve still_publish : keep.
Lemma still_resolve p :
  kept (resolve_principal server op_timeout_secs commands config env_force ws read_fails paths cache_path realm server_variants p).
Proof. unfold resolve_principal, resolve_principal_with. keep_all. Qed.
#[local] Hint Resolve still_resolve : keep.
Lemma still_gids p force :
  kept (resolve_gids_and_materialize server op_timeout_secs commands config env_force ws read_fails paths cache_path realm
          server_variants p force).
Proof. unfold resolve_gids_and_materialize. keep_all. Qed.
End Frame.

Section Preflight.
Context `{!HashIter string, !HashIter Z}.
Context (server : nat -> Query -> Attempt) (op_timeout_secs : Z) (commands : nat -> list string -> option string).
Context (config : nat -> option HelperConfig) (env_force : option string).
Context (ws : nat -> string -> WriteWorld) (read_fails : nat -> string -> bool).
Context (s : Sys) (realm : string) (server_variants : list string).
Lemma still_load q v : keeps (still q v) (load_cache s).
Proof. apply keeps_bind; [apply keeps_get|]. intros d. apply still_on_cache. Qed.
Lemma still_mapped {A} q v (m : H A) (f : A -> CliReport) : keeps (still q v) m -> keeps (still q v) (bind m (fun a => ret (f a))).
Proof. intros Hm. apply keeps_bind; [done|]. intros a. apply keeps_ret. Qed.

(** When a preflight sets [NSS_PASSWD], a sub-command changes no file but
    the four stores its environment names, the cache beside them and the
    temporaries of these five; the daemon is not asked and, where the environment
    names all four stores, the production stores keep their content. *)
Theorem preflight_elsewhere np args m h q :
  env_of s "NSS_PASSWD" = Some np -> q ∉ touched (materialize_paths_owned s) (effective_cache_path s) ->
  handle_cli server op_timeout_secs commands config env_force ws read_fails s realm server_variants args = Some m ->
  h_disk (snd (m h)) !! q = h_disk h !! q.
Proof.
  intros He Hq E. cut (keeps (still q (h_disk h !! q)) m); [by intros K; apply K|].
  revert E. unfold handle_cli, resolve_for_cli, gids_for_cli, grps_use_local_materialize. rewrite He. cbn [is_some].
  intros E. repeat (case_match; simplify_eq); try apply keeps_ret;
    apply still_mapped; (apply keeps_bind; [apply still_load|]; intros _);
    first [by apply still_resolve | by apply still_gids].
Qed.
End Preflight.

(** ** Concrete runs *)
#[local] Instance cli_iter_s : HashIter string := iter_forward.
#[local] Instance cli_iter_z : HashIter Z := iter_forward.
Definition sys_with (vars : gmap string string) (socket : string -> option string) : Sys := {|
  sy_vars := vars; sy_is_file := fun _ => false; sy_exists := fun p => seqb p "/var/run/nfs-klldap/idhelper.sock";
  sy_read := fun _ => None; sy_run := fun _ _ => NotExecuted ""; sy_socket := fun _ => socket;
  sy_environ := fun _ => None; sy_arch := "x86_64" |}.
Definition demo_daemon : string -> H (option string) :=
  handle_client (answering [demo_entry]) 15 (fun _ _ => None) (fun _ => Some demo_config) None
    (fun _ _ => all_well) (fun _ _ => false) demo_paths "/n/cache" "EX.COM" ["nas"].
Definition demo_sys : Sys := sys_with ∅ (fun req => fst (demo_daemon req start)).
Definition demo_cli (s : Sys) : list string -> option (H CliReport) :=
  handle_cli (answering [demo_entry]) 15 (fun _ _ => None) (fun _ => Some demo_config) None
    (fun _ _ => all_well) (fun _ _ => false) s "EX.COM" ["nas"].
Lemma cli_prints_daemon_groups_witness :
  (fun m => m start) <$> demo_cli demo_sys ["grps"; "ann@EX.COM"] = Some (ok_line "OK 2001", start)
  /\ parse_grps_output ("OK 2001" +:+ nl_) = [2001].
Proof.
  assert (E : fst (resolve_gids_and_materialize (answering [demo_entry]) 15 (fun _ _ => None)
    (fun _ => Some demo_config) None (fun _ _ => all_well) (fun _ _ => false) demo_paths "/n/cache" "EX.COM" ["nas"]
    "ann@EX.COM" false start) = [2001]) by (vm_compute; reflexivity).
  pose proof (cli_prints_daemon_groups (answering [demo_entry]) 15 (fun _ _ => None) (fun _ => Some demo_config) None
    (fun _ _ => all_well) (fun _ _ => false) demo_paths "/n/cache" "EX.COM" ["nas"] start
    (answering [demo_entry]) 15 (fun _ _ => None) (fun _ => Some demo_config) None (fun _ _ => all_well) (fun _ _ => false)
    demo_sys "EX.COM" ["nas"] "ann@EX.COM" [] start) as H. cbv zeta in H. rewrite E in H.
  assert (Hd : forall req, sy_exists demo_sys (idhelper_socket_path demo_sys) = true
    /\ sy_socket demo_sys (idhelper_socket_path demo_sys) req = fst (demo_daemon req start))
    by (intros req; split; [vm_compute; reflexivity|unfold demo_sys, sys_with; cbn [sy_socket]; reflexivity]).
  assert (He : env_of demo_sys "NSS_PASSWD" = None) by (vm_compute; reflexivity).
  assert (Hu : u32s [2001]) by (apply Forall_singleton; unfold u32_max; lia).
  assert (Hw : word "ann@EX.COM") by (split; [vm_compute; reflexivity|discriminate]).
  assert (Hne : [2001] <> []) by discriminate.
  specialize (H He).
  specialize (H Hw).
  specialize (H Hu).
  specialize (H Hne).
  specialize (H (Hd ("GRPS" +:+ " " +:+ "ann@EX.COM" +:+ nl_))).
  specialize (H (Hd ("GROUPLIST" +:+ " " +:+ "ann@EX.COM" +:+ nl_))).
  destruct H as (H1 & _ & H2).
  split; [exact H1|exact H2].
Defined.
Definition preflight_vars : gmap string string :=
  list_to_map [("NSS_PASSWD", "/tmp/p/passwd"); ("NSS_GROUP", "/tmp/p/group");
               ("NSS_EXTRAUSERS_PASSWD", "/tmp/p/xpasswd"); ("NSS_EXTRAUSERS_GROUP", "/tmp/p/xgroup")].
Definition stored (p : string) (args : list string) (vars : gmap string string) : option string :=
  match demo_cli (sys_with vars (fun _ => None)) args with
  | Some m => h_disk (snd (m start)) !! p
  | None => None
  end.
Lemma preflight_elsewhere_witness :
  is_some (stored "/tmp/p/group" ["grps"; "ann@EX.COM"] preflight_vars) = true
  /\ stored "/var/lib/nfs-klldap/nss_group" ["grps"; "ann@EX.COM"] preflight_vars = None.
Proof.
  assert (He : env_of (sys_with preflight_vars (fun _ => None)) "NSS_PASSWD" = Some "/tmp/p/passwd") by (vm_compute; reflexivity).
  assert (Hq : "/var/lib/nfs-klldap/nss_group" ∉ touched (materialize_paths_owned (sys_with preflight_vars (fun _ => None)))
                 (effective_cache_path (sys_with preflight_vars (fun _ => None))))
    by (apply (bool_decide_eq_true_1 _); vm_compute; reflexivity).
  split; [vm_compute; reflexivity|]. unfold stored. destruct (demo_cli _ _) as [m|] eqn:E; [|done].
  exact (preflight_elsewhere (answering [demo_entry]) 15 (fun _ _ => None) (fun _ => Some demo_config) None
    (fun _ _ => all_well) (fun _ _ => false) (sys_with preflight_vars (fun _ => None)) "EX.COM" ["nas"]
    "/tmp/p/passwd" _ m start "/var/lib/nfs-klldap/nss_group" He Hq E).
Defined.
(** With [NSS_PASSWD] alone the group rows of a preflight go to production. *)
Theorem partial_preflight_writes_production :
  is_some (stored "/var/lib/nfs-klldap/nss_group" ["grps"; "ann@EX.COM"] {[ "NSS_PASSWD" := "/tmp/p/passwd" ]}) = true.
Proof. by vm_compute. Qed.
(** The name of a machine: its host in the process, its whole local part through
    the daemon. *)
Theorem machine_name_depends_on_route :
  (fun m => stdout (fst (m start))) <$> demo_cli demo_sys ["resolve"; "host/nas@EX.COM"]
    = Some ["host/nas@EX.COM -> name=host/nas uid=0 gid=0 kind=machine source=special"]
  /\ (fun m => stdout (fst (m start))) <$> demo_cli (sys_with ∅ (fun _ => None)) ["resolve"; "host/nas@EX.COM"]
    = Some ["host/nas@EX.COM -> name=nas uid=0 gid=0 kind=machine source=special"].
Proof. vm_compute. auto. Qed.
