(* ===== verification/Certs.v ===== *)
(** * The certificate of the WebUI

    Models [nfs-klldap-ui/src/certs.rs]: the choice between material of the
    operator, material already there and a fresh self-signed pair, its names, and
    the sidecar files that say for which host it was made.  Generating a key pair
    (rcgen), loading PEM text (rustls) and name resolution are parameters. *)

From S2P Require Import Prelude RustStr Identity Config IdCache LogLines.
Local Open Scope Z_scope.

(** The content, which is UTF-8, and the mode of each file. *)
Abbreviation CertDisk := (gmap string (string * Z)).
Record CertSys := {
  cs_env : Env;
  cs_addrs : string -> list string;          (** [to_socket_addrs] *)
  cs_primary : option string;                (** [container_primary_ipv4] *)
  cs_generate : string -> list string -> option (string * string);  (** certificate and key for a name and SANs *)
  cs_loads : string -> string -> bool;       (** a server can be configured with certificate and key *)
  cs_ws : string -> WriteWorld;
  cs_dir : bool; cs_chmod : bool;            (** the directory can be made, the mode be set *)
  cs_remove : string -> bool;                (** a file that is there can be removed *)
  cs_new_mode : Z;                           (** the mode of a file that is created *)
}.
Inductive CertError := Generation | Io | TlsDisabled.
Record TlsPaths := { tp_cert : string; tp_key : string }.
Definition DEFAULT_CERT_PATH : string := "/var/lib/nfs-klldap/webui-certs/webui.crt".
Definition DEFAULT_KEY_PATH : string := "/var/lib/nfs-klldap/webui-certs/webui.key".
Definition MAX_SANS : nat := 10.

(** ** Sidecar files *)
Definition metadata_sidecar_path (cert_path suffix : string) : string := with_extension suffix cert_path.
Definition san_metadata_path (cert_path : string) : string := metadata_sidecar_path cert_path "sans".
Definition hostname_metadata_path (cert_path : string) : string := metadata_sidecar_path cert_path "host".
Definition text_of (d : CertDisk) (p : string) : option string := fst <$> d !! p.
Definition read_hostname_metadata (d : CertDisk) (cert_path : string) : option string :=
  text ← text_of d (hostname_metadata_path cert_path);
  l ← head (lines text);
  if is_empty (trim l) then None else Some (trim l).
Definition read_san_metadata (d : CertDisk) (cert_path : string) : option (list string) :=
  text ← text_of d (san_metadata_path cert_path);
  match List.filter (fun l => negb (is_empty l)) (map trim (lines text)) with [] => None | sans => Some sans end.
Definition hosts_equivalent (left right : string) : bool :=
  let l := to_ascii_lowercase (trim_matches "." (trim left)) in
  let r := to_ascii_lowercase (trim_matches "." (trim right)) in
  negb (is_empty l) && seqb l r.

Section Certs.
Context (s : CertSys).
(** ** Names *)
Definition add_san (sans : list string) (value : string) : list string :=
  let t := trim_matches "." (trim value) in
  if is_empty t || existsb (fun x => seqb x t) sans then sans
  else if (length sans <? MAX_SANS)%nat then sans ++ [t] else sans.
Definition san_candidates (hostname realm : string) : list string :=
  concat (map (fun host => host :: cs_addrs s host) (nfs_keytab_host_variants hostname realm))
  ++ ["localhost"; "127.0.0.1"]
  ++ match cs_primary s with Some ip => if is_docker_bridge_ipv4 ip then [] else [ip] | None => [] end.
Definition cert_sans_for_host (hostname realm : string) : list string :=
  foldl add_san [] (san_candidates hostname realm).
Definition preferred_host (hostname realm : string) : string := preferred (resolve_nfs_host_identity hostname realm).

(** ** Material that is there *)
Definition is_set (k : string) : bool := is_some (cs_env s k).
Definition external_tls_env_set : bool := is_set "NFS_KLLDAP_WEBUI_TLS_CERT" && is_set "NFS_KLLDAP_WEBUI_TLS_KEY".
Definition is_managed_self_signed_path (cert_path key_path : string) : bool :=
  negb external_tls_env_set && seqb cert_path DEFAULT_CERT_PATH && seqb key_path DEFAULT_KEY_PATH.
Definition existing_material_usable (d : CertDisk) (cert_path key_path hostname realm : string) (check_sans : bool) : bool :=
  match text_of d cert_path, text_of d key_path with
  | Some cert_pem, Some key_pem =>
      if negb (cs_loads s cert_pem key_pem) then false
      else match read_hostname_metadata d cert_path with
           | Some stored_host => hosts_equivalent stored_host (preferred_host hostname realm)
           | None =>
               match read_san_metadata d cert_path with
               | Some stored => bool_decide (stored = cert_sans_for_host hostname realm)
               | None => negb check_sans
               end
           end
  | _, _ => false
  end.
(** Both files are there and the pair is usable. *)
Definition material_there (d : CertDisk) (cert_path key_path hostname realm : string) (check_sans : bool) : bool :=
  is_some (d !! cert_path) && is_some (d !! key_path)
  && existing_material_usable d cert_path key_path hostname realm check_sans.

(** ** Writing *)
(** [fs::write]: an existing file keeps its mode. *)
Definition write_plain (path content : string) (d : CertDisk) : bool * CertDisk :=
  let w := cs_ws s path in
  let mode := match d !! path with Some (_, m) => m | None => cs_new_mode s end in
  if negb (open_ok w) then (false, d)
  else if negb (write_ok w) then (false, <[ path := (landed w content, mode) ]> d)
  else (true, <[ path := (content, mode) ]> d).
Fixpoint write_each (l : list (string * string)) (d : CertDisk) : bool * CertDisk :=
  match l with
  | [] => (true, d)
  | (p, content) :: r => match write_plain p content d with (true, d') => write_each r d' | (false, d') => (false, d') end
  end.
Definition material_files (cert_path key_path hostname realm : string) (pem : string * string) : list (string * string) :=
  [(cert_path, fst pem); (key_path, snd pem);
   (hostname_metadata_path cert_path, preferred_host hostname realm +:+ String nl "");
   (san_metadata_path cert_path, join (String nl "") (cert_sans_for_host hostname realm) +:+ String nl "")].
Definition set_mode (path : string) (mode : Z) (d : CertDisk) : CertDisk := alter (fun f => (fst f, mode)) path d.
Definition write_self_signed_material (cert_path key_path hostname realm : string) (d : CertDisk)
  : result TlsPaths CertError * CertDisk :=
  match cs_generate s (preferred_host hostname realm) (cert_sans_for_host hostname realm) with
  | None => (Err Generation, d)
  | Some pem =>
      if negb (cs_dir s) then (Err Io, d)
      else match write_each (material_files cert_path key_path hostname realm pem) d with
           | (false, d') => (Err Io, d')
           | (true, d') =>
               if cs_chmod s then (Ok {| tp_cert := cert_path; tp_key := key_path |}, set_mode key_path 384 d')
               else (Err Io, d')
           end
  end.
Definition regenerate_webui_tls_certs (cert_path key_path hostname realm : string) (d : CertDisk)
  : result TlsPaths CertError * CertDisk :=
  write_self_signed_material cert_path key_path hostname realm
    (foldl (fun d p => if cs_remove s p then delete p d else d) d
       [cert_path; key_path; san_metadata_path cert_path; hostname_metadata_path cert_path]).
(** The material of the environment, when both variables are set and it is usable. *)
Definition external_material (d : CertDisk) (hostname realm : string) : option TlsPaths :=
  cert ← cs_env s "NFS_KLLDAP_WEBUI_TLS_CERT";
  key ← cs_env s "NFS_KLLDAP_WEBUI_TLS_KEY";
  if material_there d cert key hostname realm false then Some {| tp_cert := cert; tp_key := key |} else None.
Definition ensure_webui_tls_certs (cert_path key_path hostname realm : string) (d : CertDisk)
  : result TlsPaths CertError * CertDisk :=
  if webui_tls_disabled (cs_env s) then (Err TlsDisabled, d)
  else match external_material d hostname realm with
       | Some paths => (Ok paths, d)
       | None =>
           if material_there d cert_path key_path hostname realm (is_managed_self_signed_path cert_path key_path)
           then (Ok {| tp_cert := cert_path; tp_key := key_path |}, d)
           else write_self_signed_material cert_path key_path hostname realm d
       end.

(** ** The start of the server, [main.rs] *)
Definition webui_tls_off (cfg : NfsKlldapConfig) : bool :=
  webui_tls_disabled (cs_env s) || match wu_tls (webui cfg) with Some t => negb t | None => false end.
Definition tls_path (key : string) (configured : option string) (dflt : string) : string :=
  match cs_env s key with Some p => p | None => default dflt configured end.
Definition served_cert (cfg : NfsKlldapConfig) : string :=
  tls_path "NFS_KLLDAP_WEBUI_TLS_CERT" (wu_tls_cert (webui cfg)) DEFAULT_CERT_PATH.
Definition served_key (cfg : NfsKlldapConfig) : string :=
  tls_path "NFS_KLLDAP_WEBUI_TLS_KEY" (wu_tls_key (webui cfg)) DEFAULT_KEY_PATH.
(** [RustlsConfig::from_pem_file] *)
Definition pair_loads (d : CertDisk) (p : TlsPaths) : bool :=
  match text_of d (tp_cert p), text_of d (tp_key p) with Some c, Some k => cs_loads s c k | _, _ => false end.
(** The pair that is served, or the process ends. *)
Definition tls_startup (cfg : NfsKlldapConfig) (hostname realm : string) (d : CertDisk) : option TlsPaths * CertDisk :=
  match ensure_webui_tls_certs (served_cert cfg) (served_key cfg) hostname realm d with
  | (Err _, d') => (None, d')
  | (Ok paths, d') =>
      if pair_loads d' paths then (Some paths, d')
      else match regenerate_webui_tls_certs (served_cert cfg) (served_key cfg) hostname realm d' with
           | (Err _, d2) => (None, d2)
           | (Ok paths, d2) => (if pair_loads d2 paths then Some paths else None, d2)
           end
  end.
End Certs.

(** ** The names of a certificate *)
Definition san_ok (sans : list string) : Prop :=
  NoDup sans /\ (length sans <= MAX_SANS)%nat /\ Forall (fun x => x <> "") sans.
Lemma add_san_ok sans v : san_ok sans -> san_ok (add_san sans v).
Proof.
  intros (Hn & Hl & Hf). unfold add_san. cbv zeta. set (t := trim_matches "." (trim v)).
  destruct (is_empty t) eqn:Et; [done|]. cbn [orb]. destruct (existsb _ sans) eqn:Ee; [done|].
  destruct (Nat.ltb_spec (length sans) MAX_SANS) as [Hlt|]; [|done]. split_and!.
  - apply NoDup_app. split_and!; [done| |apply NoDup_singleton]. intros x Hx ->%list_elem_of_singleton.
    apply not_true_iff_false in Ee. apply Ee, existsb_exists. exists t. rewrite seqb_refl.
    split; [by apply list_elem_of_In|done].
  - rewrite length_app. cbn. lia.
  - apply Forall_app. split; [done|]. apply Forall_singleton. by intros E; rewrite E in Et.
Qed.
(** A certificate has at most ten names, none empty and none twice. *)
Theorem cert_sans_ok s host realm : san_ok (cert_sans_for_host s host realm).
Proof.
  unfold cert_sans_for_host. assert (H : san_ok []) by (split_and!; [apply NoDup_nil_2|unfold MAX_SANS; cbn; lia|done]).
  revert H. generalize (@nil string). induction (san_candidates s host realm) as [|v l IH]; intros sans H; [done|].
  cbn [foldl]. by apply IH, add_san_ok.
Qed.
Lemma add_san_keeps sans v x : x ∈ sans -> x ∈ add_san sans v.
Proof. unfold add_san. cbv zeta. repeat case_match; set_solver. Qed.
Lemma add_sans_keep l sans x : x ∈ sans -> x ∈ foldl add_san sans l.
Proof. revert sans. induction l as [|v l IH]; intros sans H; [done|]. by apply IH, add_san_keeps. Qed.
Lemma add_san_length sans v : (length (add_san sans v) <= S (length sans))%nat.
Proof. unfold add_san. cbv zeta. repeat case_match; rewrite ?length_app; cbn; lia. Qed.
(** Every name proposed among the first ten is in the certificate. *)
Lemma add_sans_in l sans v :
  v ∈ l -> trim_matches "." (trim v) <> "" -> (length sans + length l <= MAX_SANS)%nat ->
  trim_matches "." (trim v) ∈ foldl add_san sans l.
Proof.
  revert sans. induction l as [|w l IH]; intros sans Hv Hne Hl; [by apply not_elem_of_nil in Hv|]. cbn [foldl length] in *.
  pose proof (add_san_length sans w) as Hw.
  apply elem_of_cons in Hv as [<-|Hv]; [|apply IH; [done|done|lia]].
  apply add_sans_keep. unfold add_san. cbv zeta. set (t := trim_matches "." (trim v)) in *.
  destruct (is_empty t) eqn:Et; [by destruct t|]. cbn [orb]. destruct (existsb _ sans) eqn:Ee.
  - apply existsb_exists in Ee as (y & Hy & <-%seqb_eq). by apply list_elem_of_In.
  - destruct (Nat.ltb_spec (length sans) MAX_SANS); [set_solver|lia].
Qed.
Theorem cert_sans_complete s host realm v :
  v ∈ san_candidates s host realm -> (length (san_candidates s host realm) <= MAX_SANS)%nat ->
  trim_matches "." (trim v) <> "" -> trim_matches "." (trim v) ∈ cert_sans_for_host s host realm.
Proof. intros Hv Hl Hne. by apply add_sans_in. Qed.

(** ** What a write leaves *)
Lemma write_plain_ok s p content d d' :
  write_plain s p content d = (true, d') ->
  d' = <[ p := (content, match d !! p with Some (_, m) => m | None => cs_new_mode s end) ]> d.
Proof. unfold write_plain. cbv zeta. intros H. repeat case_match; by simplify_eq. Qed.
Lemma write_each_other s l d b d' p : write_each s l d = (b, d') -> p ∉ map fst l -> d' !! p = d !! p.
Proof.
  revert d. induction l as [|[q content] l IH]; intros d; cbn [write_each map fst]; [by intros [= _ <-]|].
  intros H Hp. apply not_elem_of_cons in Hp as [Hne Hp].
  assert (Hq : forall b1 d1, write_plain s q content d = (b1, d1) -> d1 !! p = d !! p).
  { unfold write_plain. cbv zeta. intros b1 d1 E. repeat case_match; simplify_eq; rewrite ?lookup_insert_ne; done. }
  destruct (write_plain s q content d) as [[] d1] eqn:E.
  - rewrite (IH d1 H Hp). by eapply Hq.
  - simplify_eq. by eapply Hq.
Qed.
Lemma write_each_ok s l d d' :
  NoDup (map fst l) -> write_each s l d = (true, d') -> forall p content, (p, content) ∈ l -> text_of d' p = Some content.
Proof.
  revert d. induction l as [|[q c0] l IH]; intros d Hn; cbn [write_each]; [intros _ p content H; by apply not_elem_of_nil in H|].
  cbn [map fst] in Hn. apply NoDup_cons in Hn as [Hq Hn].
  destruct (write_plain s q c0 d) as [[] d1] eqn:E; [|done]. intros H p content [[= -> ->]|Hp]%elem_of_cons; [|by eapply IH].
  apply write_plain_ok in E. subst d1. unfold text_of. rewrite (write_each_other _ _ _ _ _ _ H Hq), lookup_insert_eq. done.
Qed.
Lemma text_of_set_mode d k m p : text_of (set_mode k m d) p = text_of d p.
Proof. unfold text_of, set_mode. rewrite lookup_alter. case_decide; [|done]. subst. by destruct (d !! p). Qed.

(** The four files of a pair are different files. *)
Definition apart (cert key : string) : Prop := NoDup [cert; key; hostname_metadata_path cert; san_metadata_path cert].
Lemma written_material s cert key host realm d paths d' :
  apart cert key -> write_self_signed_material s cert key host realm d = (Ok paths, d') ->
  paths = {| tp_cert := cert; tp_key := key |}
  /\ exists pem, cs_generate s (preferred_host host realm) (cert_sans_for_host s host realm) = Some pem
     /\ text_of d' cert = Some (fst pem) /\ text_of d' key = Some (snd pem)
     /\ text_of d' (hostname_metadata_path cert) = Some (preferred_host host realm +:+ String nl "")
     /\ snd <$> d' !! key = Some 384.
Proof.
  intros Ha. unfold write_self_signed_material. destruct (cs_generate s _ _) as [pem|]; [|done].
  destruct (cs_dir s); [|done]. cbn [negb].
  destruct (write_each s _ d) as [[] d1] eqn:E; [|done]. destruct (cs_chmod s); [|done]. intros [= <- <-].
  pose proof (write_each_ok s (material_files s cert key host realm pem) d d1 Ha E) as Hw. split; [done|]. exists pem.
  rewrite !text_of_set_mode. split_and!; try done; try (apply Hw; unfold material_files; set_solver).
  unfold set_mode. rewrite lookup_alter_eq. assert (Hk : text_of d1 key = Some (snd pem)) by (apply Hw; set_solver).
  unfold text_of in Hk. by destruct (d1 !! key) as [[]|].
Qed.

(** ** Which pair is served *)
Definition host_name (h : string) : Prop := sall solid h = true /\ trim_matches "." h <> "".
Lemma hostname_sidecar_reads d cert h :
  host_name h -> text_of d (hostname_metadata_path cert) = Some (h +:+ String nl "") ->
  read_hostname_metadata d cert = Some h.
Proof.
  intros [Hs Hne] Ht. unfold read_hostname_metadata. rewrite Ht. cbn [mbind option_bind].
  change (h +:+ String nl "") with (unlines [h]).
  rewrite lines_unlines by (by repeat constructor; apply solid_line_ok). cbn [head mbind option_bind].
  rewrite trim_all_solid by done. by destruct h.
Qed.
Lemma no_external_material s d host realm : external_tls_env_set s = false -> external_material s d host realm = None.
Proof.
  unfold external_material, external_tls_env_set, is_set.
  destruct (cs_env s "NFS_KLLDAP_WEBUI_TLS_CERT"); [|done]. by destruct (cs_env s "NFS_KLLDAP_WEBUI_TLS_KEY").
Qed.
Lemma text_there d p x : text_of d p = Some x -> is_some (d !! p) = true.
Proof. unfold text_of. by destruct (d !! p). Qed.
(** A pair that was written for a host is served as it is at every later
    start under an equivalent name of the host, whatever addresses it has by then,
    and replaced by a fresh pair at the first start under another name. *)
Theorem certificate_follows_host s s' cert key host realm host' realm' d paths d' :
  apart cert key -> host_name (preferred_host host realm) ->
  (forall cn sans pem, cs_generate s cn sans = Some pem -> cs_loads s' (fst pem) (snd pem) = true) ->
  webui_tls_disabled (cs_env s') = false -> external_tls_env_set s' = false ->
  write_self_signed_material s cert key host realm d = (Ok paths, d') ->
  ensure_webui_tls_certs s' cert key host' realm' d'
  = if hosts_equivalent (preferred_host host realm) (preferred_host host' realm')
    then (Ok {| tp_cert := cert; tp_key := key |}, d')
    else write_self_signed_material s' cert key host' realm' d'.
Proof.
  intros Ha Hh Hload Hon Hext Hw.
  destruct (written_material _ _ _ _ _ _ _ _ Ha Hw) as (_ & pem & Hg & Hc & Hk & Hm & _).
  unfold ensure_webui_tls_certs. rewrite Hon, no_external_material by done. unfold material_there.
  rewrite (text_there _ _ _ Hc), (text_there _ _ _ Hk). cbn [andb].
  unfold existing_material_usable. rewrite Hc, Hk, (Hload _ _ _ Hg). cbn [negb].
  by rewrite (hostname_sidecar_reads _ _ _ Hh Hm).
Qed.
(** A pair of the operator, at a path without sidecars, is kept under any name as
    long as it loads. *)
Theorem operator_pair_kept s cert key host realm d pem_c pem_k :
  webui_tls_disabled (cs_env s) = false -> external_tls_env_set s = false -> (cert, key) <> (DEFAULT_CERT_PATH, DEFAULT_KEY_PATH) ->
  text_of d cert = Some pem_c -> text_of d key = Some pem_k -> cs_loads s pem_c pem_k = true ->
  text_of d (hostname_metadata_path cert) = None -> text_of d (san_metadata_path cert) = None ->
  ensure_webui_tls_certs s cert key host realm d = (Ok {| tp_cert := cert; tp_key := key |}, d).
Proof.
  intros Hon Hext Hne Hc Hk Hl Hh Hs.
  assert (Hm : is_managed_self_signed_path s cert key = false).
  { unfold is_managed_self_signed_path. rewrite Hext. cbn [negb andb]. apply andb_false_iff.
    destruct (seqb cert DEFAULT_CERT_PATH) eqn:E1; [|by left]. right.
    destruct (seqb key DEFAULT_KEY_PATH) eqn:E2; [|done]. apply seqb_eq in E1, E2. congruence. }
  unfold ensure_webui_tls_certs, material_there. rewrite Hon, no_external_material, Hm, (text_there _ _ _ Hc), (text_there _ _ _ Hk) by done. cbn [andb].
  unfold existing_material_usable, read_hostname_metadata, read_san_metadata. by rewrite Hc, Hk, Hl, Hh, Hs.
Qed.

(** Writes work, and what is generated loads. *)
Definition writes_well (s : CertSys) : Prop :=
  (forall p, cs_ws s p = all_well) /\ cs_dir s = true /\ cs_chmod s = true
  /\ forall cn sans, exists pem, cs_generate s cn sans = Some pem /\ cs_loads s (fst pem) (snd pem) = true.
Lemma write_each_well s l d : (forall p, cs_ws s p = all_well) -> fst (write_each s l d) = true.
Proof.
  intros Hw. revert d. induction l as [|[p c] l IH]; intros d; [done|]. cbn [write_each].
  unfold write_plain. rewrite Hw. cbn. apply IH.
Qed.
Lemma fresh_pair_loads s cert key host realm d :
  apart cert key -> writes_well s ->
  exists d', write_self_signed_material s cert key host realm d = (Ok {| tp_cert := cert; tp_key := key |}, d')
    /\ pair_loads s d' {| tp_cert := cert; tp_key := key |} = true.
Proof.
  intros Ha (Hw & Hd & Hc & Hg). destruct (write_self_signed_material s cert key host realm d) as [r d'] eqn:E.
  destruct (Hg (preferred_host host realm) (cert_sans_for_host s host realm)) as (pem & Ep & Hl).
  assert (Hr : r = Ok {| tp_cert := cert; tp_key := key |}).
  { revert E. unfold write_self_signed_material. rewrite Ep, Hd. cbn [negb].
    pose proof (write_each_well s (material_files s cert key host realm pem) d Hw) as Hb.
    destruct (write_each _ _ d) as [b d1]. cbn in Hb. subst b. rewrite Hc. by intros [= <- _]. }
  subst r. exists d'. split; [done|].
  destruct (written_material _ _ _ _ _ _ _ _ Ha E) as (_ & pem' & Ep' & H1 & H2 & _). simplify_eq.
  unfold pair_loads. cbn. by rewrite H1, H2.
Qed.
Lemma there_loads s d cert key host realm b :
  material_there s d cert key host realm b = true -> pair_loads s d {| tp_cert := cert; tp_key := key |} = true.
Proof.
  unfold material_there, existing_material_usable, pair_loads. cbn. intros [_ H]%andb_true_iff.
  destruct (text_of d cert); [|done]. destruct (text_of d key); [|done]. by destruct (cs_loads s _ _).
Qed.
(** The server starts: whatever is at its two paths, with TLS on and no pair in the
    environment it comes up with a pair that loads, as long as files can be written
    and what is generated loads. *)
Theorem tls_startup_serves s cfg host realm d :
  webui_tls_off s cfg = false -> external_tls_env_set s = false -> apart (served_cert s cfg) (served_key s cfg) -> writes_well s ->
  exists d', tls_startup s cfg host realm d = (Some {| tp_cert := served_cert s cfg; tp_key := served_key s cfg |}, d')
    /\ pair_loads s d' {| tp_cert := served_cert s cfg; tp_key := served_key s cfg |} = true.
Proof.
  intros [Hoff _]%orb_false_iff Hext Ha Hw. unfold tls_startup, ensure_webui_tls_certs.
  rewrite Hoff, no_external_material by done.
  destruct (material_there s d _ _ host realm _) eqn:E.
  - apply there_loads in E. rewrite E. by exists d.
  - destruct (fresh_pair_loads s _ _ host realm d Ha Hw) as (d' & -> & Hl). rewrite Hl. by exists d'.
Qed.

(** ** Concrete runs *)
Definition demo_system (addrs : list string) (ws : string -> WriteWorld) : CertSys := {|
  cs_env := fun _ => None; cs_addrs := fun _ => addrs; cs_primary := Some "10.0.0.5";
  cs_generate := fun cn _ => Some ("cert of " +:+ cn, "key"); cs_loads := fun c k => starts_with "cert" c && seqb k "key";
  cs_ws := ws; cs_dir := true; cs_chmod := true; cs_remove := fun _ => true; cs_new_mode := 420 |}.
Definition well : CertSys := demo_system ["10.0.0.5"] (fun _ => all_well).
Definition own_cert : string := "/config/webui.crt".
Definition own_key : string := "/config/webui.key".
Lemma certificate_follows_host_witness :
  let d := snd (write_self_signed_material well own_cert own_key "nas" "EX.COM" ∅) in
  ensure_webui_tls_certs (demo_system ["10.9.9.9"] (fun _ => all_well)) own_cert own_key "NAS.ex.com." "OTHER.ORG" d
    = (Ok {| tp_cert := own_cert; tp_key := own_key |}, d)
  /\ text_of (snd (ensure_webui_tls_certs well own_cert own_key "files" "EX.COM" d)) own_cert = Some "cert of files.ex.com".
Proof.
  assert (Ha : apart own_cert own_key) by (apply (bool_decide_eq_true_1 _); vm_compute; reflexivity).
  assert (Hh : host_name (preferred_host "nas" "EX.COM")) by (split; [vm_compute; reflexivity|by vm_compute]).
  assert (Hl : forall cn sans pem, cs_generate well cn sans = Some pem -> cs_loads well (fst pem) (snd pem) = true)
    by (intros cn sans pem [= <-]; reflexivity).
  assert (Hw : write_self_signed_material well own_cert own_key "nas" "EX.COM" ∅
    = (Ok {| tp_cert := own_cert; tp_key := own_key |}, snd (write_self_signed_material well own_cert own_key "nas" "EX.COM" ∅)))
    by (vm_compute; reflexivity).
  cbv zeta. split.
  - rewrite (certificate_follows_host well (demo_system ["10.9.9.9"] (fun _ => all_well)) own_cert own_key "nas" "EX.COM"
      "NAS.ex.com." "OTHER.ORG" ∅ _ _ Ha Hh Hl eq_refl eq_refl Hw). vm_compute. reflexivity.
  - rewrite (certificate_follows_host well well own_cert own_key "nas" "EX.COM" "files" "EX.COM" ∅ _ _ Ha Hh Hl eq_refl eq_refl Hw).
    vm_compute. reflexivity.
Defined.
(** A pair of the operator that does not load, here for a damaged key, is
    overwritten, the certificate with it. *)
Theorem operator_pair_overwritten :
  let d := <[ own_cert := ("cert of the operator", 420) ]> (<[ own_key := ("damaged", 384) ]> (∅ : CertDisk)) in
  text_of (snd (ensure_webui_tls_certs well own_cert own_key "nas" "EX.COM" d)) own_cert = Some "cert of nas.ex.com".
Proof. by vm_compute. Qed.
(** When a sidecar cannot be written the key has the mode of a new file, and the
    pair is served with it from the next start on. *)
Definition full_disk : CertSys :=
  demo_system [] (fun p => if seqb p "/config/webui.host"
                           then {| open_ok := false; write_ok := false; rename_ok := false; landed := id |} else all_well).
Theorem failed_sidecar_leaves_key_open :
  let '(r, d) := ensure_webui_tls_certs full_disk own_cert own_key "nas" "EX.COM" ∅ in
  r = Err Io /\ snd <$> d !! own_key = Some 420
  /\ ensure_webui_tls_certs well own_cert own_key "nas" "EX.COM" d = (Ok {| tp_cert := own_cert; tp_key := own_key |}, d).
Proof. vm_compute. auto. Qed.
(** A host with many addresses has a certificate without localhost. *)
Theorem addresses_crowd_out_localhost :
  let many := map (fun n => "10.0.1." +:+ dec n) [1; 2; 3; 4; 5; 6; 7; 8; 9] in
  bool_decide ("localhost" ∈ cert_sans_for_host (demo_system many (fun _ => all_well)) "nas" "") = false
  /\ bool_decide ("localhost" ∈ cert_sans_for_host well "nas" "") = true.
Proof. vm_compute. auto. Qed.
