(* ===== verification/HostTools.v ===== *)
(** * Hooks, bounded children, signal flags and log rotation

    Models [hook.rs], [proc_run.rs], [signals.rs], [supervisor/logrotate.rs] with
    the rotation of [supervisor/mod.rs], and the first write of the configuration
    in [template.rs].  Processes, the clock and the file system are parameters;
    times are milliseconds. *)

From S2P Require Import Prelude RustStr IdCache Config.
Local Open Scope Z_scope.

(** ** A child with a ceiling *)
Module ProcRun.
Definition FAST_POLLS : nat := 20.
Definition FAST_POLL : Z := 1.
Definition SLOW_POLL : Z := 15.
Definition nap (polls : nat) : Z := if (polls <=? FAST_POLLS)%nat then FAST_POLL else SLOW_POLL.
(** What [try_wait] sees at a time. *)
Inductive Poll := StillRunning | Gone (status : Z) | PollFailed.
Inductive WaitError := Ceiling | WaitFailed.
(** [wait_or_kill]: the verdict, when it is reached, and whether the child was
    killed; [late n] is what the [n]-th sleep takes beyond its length. *)
Fixpoint wait_loop (fuel : nat) (poll : Z -> Poll) (late : nat -> Z) (deadline : Z) (polls : nat) (now : Z)
  : option (result Z WaitError * Z) :=
  match fuel with
  | O => None
  | S f =>
      match poll now with
      | Gone st => Some (Ok st, now)
      | PollFailed => Some (Err WaitFailed, now)
      | StillRunning =>
          if deadline <=? now then Some (Err Ceiling, now)
          else wait_loop f poll late deadline (S polls) (now + nap (S polls) + late (S polls))
      end
  end.
Definition wait_or_kill (fuel : nat) (poll : Z -> Poll) (late : nat -> Z) (start timeout : Z) : option (result Z WaitError * Z) :=
  wait_loop fuel poll late (start + timeout) 0 start.
(** [run_with_timeout]: the readers are joined after the wait, and end when the
    last holder of the pipes, [eof], is gone; [None]: it never returns. *)
Definition run_with_timeout (fuel : nat) (poll : Z -> Poll) (late : nat -> Z) (start timeout : Z) (eof : option Z)
  : option (result Z WaitError * Z) :=
  '(r, t) ← wait_or_kill fuel poll late start timeout;
  e ← eof;
  Some (r, t `max` e).
End ProcRun.

(** ** The hook after a generation *)
Module Hook.
Inductive HookRun := NotSpawned | WaitLost | Ended (code : option Z).
Inductive HookError := NotExecutable (hook : string) | SpawnFailed | WaitOutput | HookFailed (hook share : string) (code : option Z).
Definition effective_post_generate_hook (env : Env) (cfg : NfsKlldapConfig) : option string :=
  let configured := t ← ga_post_generate_hook (ganesha cfg); if is_empty (trim t) then None else Some (trim t) in
  match env "NFS_KLLDAP_POST_GENERATE_HOOK" with
  | Some v => if is_empty (trim v) then configured else Some (trim v)
  | None => configured
  end.
Definition hook_env (share : Share) : list (string * string) :=
  let serve_path := serve_path_for share in
  let source_path := default serve_path (sh_source_path share) in
  let pseudo := derive_share_pseudo share in
  [("SHARE_NAME", sh_name share); ("HOST_PATH", sh_host_path share); ("SOURCE_PATH", source_path);
   ("SERVE_PATH", serve_path); ("CONTAINER_PATH", serve_path); ("PSEUDO_PATH", pseudo); ("EXPORT_PATH", pseudo)].
Section Run.
(** The hook run in an environment, for the [n]-th time, and whether a path is an
    executable file. *)
Context (run : nat -> string -> list (string * string) -> HookRun) (is_executable : string -> bool).
Definition run_hook_for_share (n : nat) (hook : string) (share : Share) : result unit HookError :=
  match run n hook (hook_env share) with
  | NotSpawned => Err SpawnFailed
  | WaitLost => Err WaitOutput
  | Ended code => if bool_decide (code = Some 0) then Ok tt else Err (HookFailed hook (sh_name share) code)
  end.
(** The environments the hook was run in so far, in [done]. *)
Fixpoint run_hooks (hook : string) (shares : list Share) (done : list (list (string * string)))
  : result unit HookError * list (list (string * string)) :=
  match shares with
  | [] => (Ok tt, done)
  | share :: r =>
      match run_hook_for_share (length done) hook share with
      | Ok _ => run_hooks hook r (done ++ [hook_env share])
      | Err e => (Err e, done ++ [hook_env share])
      end
  end.
Definition run_post_generate_hooks (env : Env) (cfg : NfsKlldapConfig) : result unit HookError * list (list (string * string)) :=
  match effective_post_generate_hook env cfg with
  | None => (Ok tt, [])
  | Some hook => if is_executable hook then run_hooks hook (shares cfg) [] else (Err (NotExecutable hook), [])
  end.
End Run.
End Hook.

(** ** Signals *)
Module SignalFlags.
Inductive Sig := SIGTERM | SIGINT | SIGHUP | SIGUSR1 | OtherSig.
Record Flags := { shutdown_flag : bool; sighup_flag : bool; full_recycle_flag : bool }.
Definition deliver (g : Sig) (f : Flags) : Flags :=
  match g with
  | SIGTERM | SIGINT => {| shutdown_flag := true; sighup_flag := sighup_flag f; full_recycle_flag := full_recycle_flag f |}
  | SIGHUP => {| shutdown_flag := shutdown_flag f; sighup_flag := true; full_recycle_flag := full_recycle_flag f |}
  | SIGUSR1 => {| shutdown_flag := shutdown_flag f; sighup_flag := sighup_flag f; full_recycle_flag := true |}
  | OtherSig => f
  end.
(** [request_sighup] and [request_full_recycle] set what the signals set. *)
Definition request_sighup : Flags -> Flags := deliver SIGHUP.
Definition request_full_recycle : Flags -> Flags := deliver SIGUSR1.
Definition take_sighup_requested (f : Flags) : bool * Flags :=
  (sighup_flag f, {| shutdown_flag := shutdown_flag f; sighup_flag := false; full_recycle_flag := full_recycle_flag f |}).
Definition take_full_recycle_requested (f : Flags) : bool * Flags :=
  (full_recycle_flag f, {| shutdown_flag := shutdown_flag f; sighup_flag := sighup_flag f; full_recycle_flag := false |}).
(** What happens to the flags, in the order of the atomic operations. *)
Inductive Event := Deliver (g : Sig) | TakeHup | TakeFull.
Definition event_step (e : Event) (f : Flags) : Flags :=
  match e with
  | Deliver g => deliver g f
  | TakeHup => snd (take_sighup_requested f)
  | TakeFull => snd (take_full_recycle_requested f)
  end.
Definition after_events (es : list Event) (f : Flags) : Flags := foldl (fun f e => event_step e f) f es.
(** [signal_supervisor_hup] and [signal_supervisor_full_recycle]; [kill] is the
    system call. *)
Definition signal_supervisor (kill : Z -> Sig -> result unit string) (pid : Z) (g : Sig) (name : string) : result unit string :=
  if pid =? 0 then Err "invalid supervisor pid 0"
  else match kill pid g with Ok _ => Ok tt | Err e => Err (name +:+ " to pid " +:+ dec pid +:+ " failed: " +:+ e) end.
End SignalFlags.

(** ** Log rotation *)
Module LogRotate.
Abbreviation Files := (gmap string string).
(** Whether the copy and the truncation work, and what the writers append in
    between. *)
Record RotateWorld := { copy_ok : bool; truncate_ok : bool; between : string }.
Definition log_rotate_max_bytes (env : Env) : Z :=
  (default 64 (env "NFS_KLLDAP_LOG_ROTATE_MAX_MB" ≫= parse_uint u64_max) * 1024 mod (u64_max + 1) * 1024) mod (u64_max + 1).
Definition rotate_if_oversized (w : RotateWorld) (path : string) (cap_bytes : Z) (d : Files) : result bool unit * Files :=
  if cap_bytes =? 0 then (Ok false, d)
  else match d !! path with
       | None => (Ok false, d)
       | Some content =>
           if Z.of_nat (len content) <=? cap_bytes then (Ok false, d)
           else if negb (copy_ok w) then (Err tt, d)
           else
             let d := <[ path +:+ ".1" := content ]> d in
             let d := <[ path := content +:+ between w ]> d in
             if negb (truncate_ok w) then (Err tt, d) else (Ok true, <[ path := "" ]> d)
       end.
Definition runtime_logs (env : Env) : list string :=
  ["/var/log/ganesha.log"; "/var/log/idhelper.log"; default "/var/log/webui.log" (env "NFS_KLLDAP_WEBUI_LOG")].
Definition rotate_runtime_logs (w : string -> RotateWorld) (env : Env) (d : Files) : Files :=
  foldl (fun d log => snd (rotate_if_oversized (w log) log (log_rotate_max_bytes env) d)) d (runtime_logs env).
End LogRotate.

(** ** The first configuration *)
Module Template.
(** [template] is the text of [generate_default_template]; [mkdir] and [chmod] say
    whether the directory can be made and the mode be set, [new_mode] is that of a
    new file. *)
Definition write_default_config_if_missing (template path : string) (mkdir chmod : bool) (w : WriteWorld) (new_mode : Z)
    (d : gmap string (string * Z)) : result bool unit * gmap string (string * Z) :=
  if is_some (d !! path) then (Ok false, d)
  else if negb mkdir || negb (open_ok w) then (Err tt, d)
  else if negb (write_ok w) then (Err tt, <[ path := (landed w template, new_mode) ]> d)
  else if negb chmod then (Err tt, <[ path := (template, new_mode) ]> d)
  else (Ok true, <[ path := (template, 384) ]> d).
End Template.

(** * Properties *)
Module ProcRunProps.
Import ProcRun.
Section Wait.
Context (poll : Z -> Poll) (late : nat -> Z) (lag : Z).
Context (Hlate : forall n, 0 <= late n <= lag).
Lemma nap_range n : 1 <= nap n <= 15.
Proof. unfold nap, FAST_POLL, SLOW_POLL. case_match; lia. Qed.
Lemma wait_loop_ends fuel deadline polls now :
  deadline - now < Z.of_nat fuel -> (0 < fuel)%nat -> is_Some (wait_loop fuel poll late deadline polls now).
Proof.
  revert polls now. induction fuel as [|f IH]; intros polls now Hf Hp; [lia|]. cbn [wait_loop].
  destruct (poll now); [|by eexists..]. destruct (Z.leb_spec deadline now); [by eexists|].
  pose proof (nap_range (S polls)). pose proof (Hlate (S polls)). apply IH; lia.
Qed.
Lemma wait_loop_spec fuel deadline polls now r t :
  wait_loop fuel poll late deadline polls now = Some (r, t) ->
  now <= t /\ (t = now \/ t < deadline + 15 + lag)
  /\ match r with
     | Ok st => poll t = Gone st
     | Err WaitFailed => poll t = PollFailed
     | Err Ceiling => poll t = StillRunning /\ deadline <= t
     end.
Proof.
  revert polls now. induction fuel as [|f IH]; intros polls now; cbn [wait_loop]; [done|].
  destruct (poll now) as [|st|] eqn:E; [|intros [= <- <-]; split_and!; [lia|by left|done]..].
  destruct (Z.leb_spec deadline now); [intros [= <- <-]; split_and!; [lia|by left|done|lia]|].
  intros H'. destruct (IH _ _ H') as (H1 & H2 & H3).
  pose proof (nap_range (S polls)). pose proof (Hlate (S polls)). split_and!; [lia|lia|done].
Qed.
(** The wait for a child ends whatever the child does, within 15 ms and one late
    wake-up of the ceiling; it gives the status of a child that was seen gone, and
    kills only one that runs at or after the ceiling. *)
Theorem wait_bounded start timeout fuel :
  0 <= timeout -> timeout < Z.of_nat fuel ->
  exists r t, wait_or_kill fuel poll late start timeout = Some (r, t)
    /\ start <= t < start + timeout + 15 + lag + 1
    /\ match r with
       | Ok st => poll t = Gone st
       | Err WaitFailed => poll t = PollFailed
       | Err Ceiling => poll t = StillRunning /\ start + timeout <= t
       end.
Proof.
  intros Ht Hf. unfold wait_or_kill.
  destruct (wait_loop_ends fuel (start + timeout) 0 start) as [[r t] E]; [lia|lia|]. exists r, t. split; [done|].
  pose proof (Hlate 0). destruct (wait_loop_spec _ _ _ _ _ _ E) as (H1 & H2 & H3). split; [lia|done].
Qed.
(** A child that is gone by the ceiling is never killed, and its status is the
    result. *)
Theorem in_time_not_killed start timeout fuel gone st :
  0 <= timeout -> timeout < Z.of_nat fuel -> gone <= start + timeout ->
  (forall t, poll t = if t <? gone then StillRunning else Gone st) ->
  exists t, wait_or_kill fuel poll late start timeout = Some (Ok st, t) /\ gone <= t.
Proof.
  intros Ht Hf Hg Hp. destruct (wait_bounded start timeout fuel Ht Hf) as (r & t & E & _ & Hr).
  rewrite Hp in Hr. destruct (Z.ltb_spec t gone).
  - destruct r as [?|[|]]; [done| |done]. destruct Hr. lia.
  - destruct r as [?|[|]]; [|by destruct Hr|done]. simplify_eq. by exists t.
Qed.
End Wait.
(** The ceiling of [run_with_timeout] is not one when a grandchild keeps the pipes:
    the killed child is gone after 200 ms, and the call returns with the
    grandchild, or never. *)
Theorem grandchild_outlives_ceiling :
  let hung := fun _ : Z => StillRunning in
  let exact := fun _ : nat => 0 in
  option_map snd (wait_or_kill 300 hung exact 0 200) = Some 200
  /\ run_with_timeout 300 hung exact 0 200 (Some 3600000) = Some (Err Ceiling, 3600000)
  /\ run_with_timeout 300 hung exact 0 200 None = None.
Proof. vm_compute. auto. Qed.
End ProcRunProps.

Module HookProps.
Import Hook.
Section Run.
Context (run : nat -> string -> list (string * string) -> HookRun) (is_executable : string -> bool).
Definition run_well (hook : string) (n : nat) (share : Share) : bool :=
  match run n hook (hook_env share) with Ended code => bool_decide (code = Some 0) | _ => false end.
Lemma run_hook_ok n hook share : is_ok (run_hook_for_share run n hook share) = run_well hook n share.
Proof. unfold run_hook_for_share, run_well. destruct (run _ _ _); try done. by case_bool_decide. Qed.
Lemma run_hooks_spec hook shares done_ :
  let '(r, runs) := run_hooks run hook shares done_ in
  exists k, runs = done_ ++ map hook_env (take k shares) /\ (k <= length shares)%nat
    /\ (forall i s, (S i < k)%nat -> shares !! i = Some s -> run_well hook (length done_ + i) s = true)
    /\ match r with
       | Ok _ => k = length shares /\ forall i s, shares !! i = Some s -> run_well hook (length done_ + i) s = true
       | Err _ => exists s, (0 < k)%nat /\ shares !! (k - 1)%nat = Some s /\ run_well hook (length done_ + (k - 1)) s = false
       end.
Proof.
  revert done_. induction shares as [|share l IH]; intros done_; cbn [run_hooks].
  { exists 0%nat. cbn. rewrite app_nil_r. split_and!; done || lia. }
  pose proof (run_hook_ok (length done_) hook share) as Hok.
  destruct (run_hook_for_share run (length done_) hook share) as [u|e]; cbn in Hok; symmetry in Hok.
  - specialize (IH (done_ ++ [hook_env share])). destruct (run_hooks run hook l _) as [r runs].
    destruct IH as (k & -> & Hk & Hpre & Hr). rewrite length_app in *. cbn [length] in *.
    assert (Hs : forall i s, (share :: l) !! i = Some s -> (forall j, i = S j -> l !! j = Some s -> run_well hook (length done_ + 1 + j) s = true) ->
      run_well hook (length done_ + i) s = true).
    { intros [|i] s; cbn; [intros [= <-] _; by rewrite Nat.add_0_r|]. intros Hi Hj.
      replace (length done_ + S i)%nat with (length done_ + 1 + i)%nat by lia. by apply Hj. }
    exists (S k). cbn. rewrite <- app_assoc. split_and!; [done|lia| |].
    + intros i s Hi E. apply Hs; [done|]. intros j -> Hj. apply Hpre; [lia|done].
    + destruct r as [?|e].
      * destruct Hr as [-> Hr]. split; [done|]. intros i s E. apply Hs; [done|]. intros j -> Hj. by apply Hr.
      * destruct Hr as (s & H0 & E & Hf). exists s. split_and!; [lia| |].
        -- replace k with (S (k - 1)) by lia. cbn. replace (k - 1 - 0)%nat with (k - 1)%nat by lia. done.
        -- rewrite <- Hf. f_equal. lia.
  - exists 1%nat. cbn. split_and!; [done|lia|lia|]. exists share. split_and!; [lia|done|]. by rewrite Nat.add_0_r.
Qed.
(** The hook runs share by share in the order of the configuration, up to the first
    run that does not end with 0, which is what the generation fails with. *)
Theorem hooks_run_in_order env cfg hook :
  effective_post_generate_hook env cfg = Some hook -> is_executable hook = true ->
  let '(r, runs) := run_post_generate_hooks run is_executable env cfg in
  exists k, runs = map hook_env (take k (shares cfg))
    /\ (is_ok r = true <-> forall i s, shares cfg !! i = Some s -> run_well hook i s = true)
    /\ (is_ok r = true -> k = length (shares cfg))
    /\ (is_ok r = false -> exists s, shares cfg !! (k - 1)%nat = Some s /\ run_well hook (k - 1) s = false).
Proof.
  intros Hh Hx. unfold run_post_generate_hooks. rewrite Hh, Hx.
  pose proof (run_hooks_spec hook (shares cfg) []) as H. destruct (run_hooks run hook (shares cfg) []) as [r runs].
  destruct H as (k & -> & Hk & Hpre & Hr). cbn [app length Nat.add] in *. exists k. split; [done|].
  destruct r as [?|e]; cbn [is_ok].
  - destruct Hr as [-> Hr]. split_and!; [done|done|done].
  - destruct Hr as (s & _ & E & Hf). split_and!; [|done|by exists s].
    split; [done|]. intros Hall. by rewrite (Hall _ _ E) in Hf.
Qed.
End Run.
(** Without a staging source the hook is told to stage the served tree onto itself. *)
Theorem hook_source_defaults_to_serve share :
  sh_source_path share = None -> hook_env share !! 2%nat = Some ("SOURCE_PATH", serve_path_for share).
Proof. intros H. unfold hook_env. by rewrite H. Qed.
End HookProps.

Module SignalProps.
Import SignalFlags.
Definition is_hup (e : Event) : bool := match e with Deliver SIGHUP => true | _ => false end.
Definition is_full (e : Event) : bool := match e with Deliver SIGUSR1 => true | _ => false end.
Definition is_stop (e : Event) : bool := match e with Deliver SIGTERM | Deliver SIGINT => true | _ => false end.
Definition takes_hup (e : Event) : bool := match e with TakeHup => true | _ => false end.
Definition takes_full (e : Event) : bool := match e with TakeFull => true | _ => false end.
(** A flag over a course of events: set by some, cleared by others. *)
Definition flag_after (sets clears : Event -> bool) (b : bool) (es : list Event) : bool :=
  foldl (fun b e => if sets e then true else if clears e then false else b) b es.
Lemma after_events_flags es f :
  sighup_flag (after_events es f) = flag_after is_hup takes_hup (sighup_flag f) es
  /\ full_recycle_flag (after_events es f) = flag_after is_full takes_full (full_recycle_flag f) es
  /\ shutdown_flag (after_events es f) = flag_after is_stop (fun _ => false) (shutdown_flag f) es.
Proof.
  unfold after_events, flag_after. revert f. induction es as [|e es IH]; intros f; [done|]. cbn [foldl].
  destruct (IH (event_step e f)) as (-> & -> & ->). by destruct e as [[]| |].
Qed.
Lemma flag_after_spec sets clears b es :
  (forall e, sets e = true -> clears e = false) ->
  flag_after sets clears b es = true <->
  (exists pre e post, es = pre ++ e :: post /\ sets e = true /\ forallb (fun x => negb (clears x)) post = true)
  \/ (b = true /\ forallb (fun x => negb (clears x)) es = true).
Proof.
  intros Hd. revert b. induction es as [|e es IH]; intros b.
  { cbn. split; [by right|]. intros [(pre & e & post & H & _)|[H _]]; [by destruct pre|done]. }
  change (flag_after sets clears b (e :: es))
    with (flag_after sets clears (if sets e then true else if clears e then false else b) es).
  rewrite IH. cbn [forallb]. split.
  - intros [(pre & x & post & -> & Hx & Hp)|[Hb Hc]]; [left; by exists (e :: pre), x, post|].
    destruct (sets e) eqn:Es; [left; by exists [], e, es|]. destruct (clears e); [done|]. by right.
  - intros [(pre & x & post & E & Hx & Hp)|[-> [Hc Hes]%andb_true_iff]].
    + destruct pre as [|p pre]; simplify_eq/=; [right; by rewrite Hx|]. left. by exists pre, x, post.
    + right. split; [|done]. destruct (sets e); [done|]. by destruct (clears e).
Qed.
Lemma flag_sticky sets b es : flag_after sets (fun _ => false) b es = true <-> b = true \/ existsb sets es = true.
Proof.
  unfold flag_after. revert b. induction es as [|e es IH]; intros b; cbn [foldl existsb]; [naive_solver|].
  rewrite IH, orb_true_iff. destruct (sets e), b; naive_solver.
Qed.
(** No request is lost and none is answered twice: a take of the SIGHUP flag
    succeeds exactly when a SIGHUP came after the last take, or one was pending
    and nobody took it; several become one.  The same holds of the full recycle,
    and a shutdown stays requested. *)
Theorem requests_coalesce es f :
  (fst (take_sighup_requested (after_events es f)) = true <->
    (exists pre e post, es = pre ++ e :: post /\ is_hup e = true /\ forallb (fun x => negb (takes_hup x)) post = true)
    \/ (sighup_flag f = true /\ forallb (fun x => negb (takes_hup x)) es = true))
  /\ (fst (take_full_recycle_requested (after_events es f)) = true <->
    (exists pre e post, es = pre ++ e :: post /\ is_full e = true /\ forallb (fun x => negb (takes_full x)) post = true)
    \/ (full_recycle_flag f = true /\ forallb (fun x => negb (takes_full x)) es = true))
  /\ (shutdown_flag (after_events es f) = true <-> shutdown_flag f = true \/ existsb is_stop es = true).
Proof.
  destruct (after_events_flags es f) as (H1 & H2 & H3). cbn [fst take_sighup_requested take_full_recycle_requested].
  rewrite H1, H2, H3. split; [apply flag_after_spec; by intros [[]| |]|].
  split; [apply flag_after_spec; by intros [[]| |]|].
  apply flag_sticky.
Qed.
End SignalProps.

Module LogRotateProps.
Import LogRotate.
(** What one rotation leaves: the log is empty and its content of before is the one
    generation kept, or, below the cap, everything is as it was. *)
Theorem rotation_exact w path cap d content :
  copy_ok w = true -> truncate_ok w = true -> 0 <= cap -> d !! path = Some content ->
  let '(r, d') := rotate_if_oversized w path cap d in
  if (negb (cap =? 0) && (cap <? Z.of_nat (len content)))
  then r = Ok true /\ d' !! path = Some "" /\ d' !! (path +:+ ".1") = Some content
       /\ forall p, p <> path -> p <> path +:+ ".1" -> d' !! p = d !! p
  else r = Ok false /\ d' = d.
Proof.
  intros Hc Ht H0 Hd. unfold rotate_if_oversized. destruct (Z.eqb_spec cap 0); cbn [negb andb]; [done|].
  rewrite Hd. destruct (Z.leb_spec (Z.of_nat (len content)) cap); destruct (Z.ltb_spec cap (Z.of_nat (len content))); try lia; [done|].
  rewrite Hc, Ht. cbn [negb]. assert (Hne : path <> path +:+ ".1").
  { intros E. assert (E' : path +:+ "" = path +:+ ".1") by (by rewrite sapp_nil_r). by apply sapp_inj_l in E'. }
  split_and!; [done|by rewrite lookup_insert_eq| |].
  - do 2 (rewrite lookup_insert_ne by done). by rewrite lookup_insert_eq.
  - intros p Hp1 Hp2. do 3 (rewrite lookup_insert_ne by done). done.
Qed.
(** A log stays at most at its cap after a pass that works, unless rotation is off. *)
Theorem rotation_caps w path cap d :
  copy_ok w = true -> truncate_ok w = true -> 0 < cap ->
  forall content, snd (rotate_if_oversized w path cap d) !! path = Some content -> Z.of_nat (len content) <= cap.
Proof.
  intros Hc Ht H0 content. destruct (d !! path) as [c|] eqn:Hd.
  - pose proof (rotation_exact w path cap d c Hc Ht ltac:(lia) Hd) as H.
    destruct (rotate_if_oversized w path cap d) as [r d']. cbn [snd]. case_match eqn:E.
    + destruct H as (_ & -> & _). intros [= <-]. cbn. lia.
    + destruct H as [_ ->]. rewrite Hd. intros [= <-]. apply andb_false_iff in E as [E|E]; [|lia].
      destruct (Z.eqb_spec cap 0); [lia|done].
  - unfold rotate_if_oversized. rewrite Hd. case_match; cbn; by rewrite Hd.
Qed.
(** What is logged between the copy and the truncation is in neither file. *)
Theorem lines_between_are_lost content late_lines :
  let w := {| copy_ok := true; truncate_ok := true; between := late_lines |} in
  1 < Z.of_nat (len content) ->
  let d' := snd (rotate_if_oversized w "/l" 1 (<[ "/l" := content ]> ∅)) in
  d' !! "/l" = Some "" /\ d' !! "/l.1" = Some content.
Proof.
  intros w H d'. subst d' w.
  pose proof (rotation_exact {| copy_ok := true; truncate_ok := true; between := late_lines |} "/l" 1
    (<[ "/l" := content ]> ∅) content eq_refl eq_refl ltac:(lia) (lookup_insert_eq _ _ _)) as R.
  destruct (rotate_if_oversized _ _ _ _) as [r d']. cbn [snd].
  destruct (Z.ltb_spec 1 (Z.of_nat (len content))); [|lia]. cbn [Z.eqb negb andb] in R.
  by destruct R as (_ & H1 & H2 & _).
Qed.
(** The cap is computed modulo 2 to the 64: 2 to the 44 megabytes are none, which
    turns rotation off, and 64 are the default. *)
Theorem huge_cap_disables_rotation :
  log_rotate_max_bytes (fun _ => Some "17592186044416") = 0
  /\ log_rotate_max_bytes (fun _ => None) = 67108864.
Proof. vm_compute. auto. Qed.
End LogRotateProps.

Module TemplateProps.
Import Template.
(** A configuration that is there is never written, and one that is created is
    complete and private. *)
Theorem template_never_overwrites template path mkdir chmod w new_mode d :
  let '(r, d') := write_default_config_if_missing template path mkdir chmod w new_mode d in
  (is_some (d !! path) = true -> r = Ok false /\ d' = d)
  /\ (r = Ok true -> d !! path = None /\ d' !! path = Some (template, 384))
  /\ forall p, p <> path -> d' !! p = d !! p.
Proof.
  unfold write_default_config_if_missing.
  destruct (d !! path) as [f|] eqn:E; cbn [is_some]; [done|].
  repeat case_match; simplify_eq; split_and!; try done; intros; rewrite ?lookup_insert_eq, ?lookup_insert_ne; done.
Qed.
End TemplateProps.
