(* ===== verification/Manifest.v ===== *)
(** * The share manifest for clients

    Models [web/manifest.rs]: the document that anybody may read, one entry per
    share with its path, security and ACL class. *)

From S2P Require Import Prelude RustStr Identity Config FsProbe AclGate PermViews.
Local Open Scope Z_scope.

Record ManifestShare := {
  ms_name : string; ms_pseudo : string; ms_security : string; ms_rw : bool;
  ms_acl : string; ms_acl_state : string; ms_navahi : bool;
}.
Record ClientManifest := {
  manifest_version : Z; cm_server : string; generated_at : string; cm_shares : list ManifestShare;
}.
(** A moment in UTC. *)
Record Utc := { u_year : Z; u_month : Z; u_day : Z; u_hour : Z; u_minute : Z; u_second : Z }.
Definition dec04 (n : Z) : string :=
  (if n <? 10 then "000" else if n <? 100 then "00" else if n <? 1000 then "0" else "") +:+ dec n.
Definition now_rfc3339_utc (t : Utc) : string :=
  dec04 (u_year t) +:+ "-" +:+ dec02 (u_month t) +:+ "-" +:+ dec02 (u_day t) +:+ "T"
  +:+ dec02 (u_hour t) +:+ ":" +:+ dec02 (u_minute t) +:+ ":" +:+ dec02 (u_second t) +:+ "Z".

Section Manifest.
(** The probes of the ACL cache, mountinfo, and the clock around each probe. *)
Context (ttl : Z) (wp rs : string -> option bool) (snap : MountinfoSnapshot) (clock : nat -> Z * Z).
Definition manifest_share (cfg : NfsKlldapConfig) (s : Share) (status : ShareAclStatus) : ManifestShare := {|
  ms_name := sh_name s; ms_pseudo := derive_share_pseudo s;
  ms_security := default (ga_default_security (ganesha cfg)) (sh_security s); ms_rw := default true (sh_rw s);
  ms_acl := if effective_acl_capable status then "acl" else "noacl"; ms_acl_state := state_label status;
  ms_navahi := share_navahi_effective cfg s |}.
Fixpoint manifest_shares (cfg : NfsKlldapConfig) (idx : nat) (l : list Share) (m : Entries) : list ManifestShare * Entries :=
  match l with
  | [] => ([], m)
  | s :: rest =>
      let '(status, m) := share_acl_status ttl wp rs (fst (clock idx)) (snd (clock idx)) snap s m in
      let '(entries, m) := manifest_shares cfg (S idx) rest m in
      (manifest_share cfg s status :: entries, m)
  end.
Definition client_manifest (cfg : NfsKlldapConfig) (keytab_hostname : string) (now : Utc) (m : Entries) : ClientManifest * Entries :=
  let '(entries, m) := manifest_shares cfg 0 (shares cfg) m in
  ({| manifest_version := 1; cm_server := keytab_hostname; generated_at := now_rfc3339_utc now; cm_shares := entries |}, m).
End Manifest.

(** ** What the document says, and what it cannot say *)
Section Props.
Context (ttl : Z) (wp rs : string -> option bool) (snap : MountinfoSnapshot) (clock : nat -> Z * Z).
Local Abbreviation entries_of := (manifest_shares ttl wp rs snap clock).

(** The public part of the configuration: the default security, the switch of
    the adverts, and of each share everything but the paths on the host. *)
Definition blind (s : Share) : Share :=
  {| sh_name := sh_name s; sh_host_path := ""; sh_pseudo_path := sh_pseudo_path s; sh_security := sh_security s;
     sh_rw := sh_rw s; sh_squash := sh_squash s; sh_cache_profile := sh_cache_profile s; sh_pref_read := sh_pref_read s;
     sh_pref_write := sh_pref_write s; sh_enable_acl := sh_enable_acl s; sh_manage_gids := sh_manage_gids s;
     sh_read_access_policy := sh_read_access_policy s; sh_manage_gids_expiration := sh_manage_gids_expiration s;
     sh_container_path := sh_container_path s; sh_source_path := None; sh_attr_expiration_secs := sh_attr_expiration_secs s;
     sh_navahi_insecure := sh_navahi_insecure s; sh_umask := sh_umask s |}.
Definition public_part (cfg : NfsKlldapConfig) : string * bool * list Share :=
  (ga_default_security (ganesha cfg), navahi_discovery cfg, map blind (shares cfg)).
Lemma cons_parts {A} (x y : A) l k : x :: l = y :: k -> x = y /\ l = k.
Proof. by intros [= -> ->]. Qed.
Lemma status_blind now done_at s m :
  share_acl_status ttl wp rs now done_at snap (blind s) m = share_acl_status ttl wp rs now done_at snap s m.
Proof. by destruct s. Qed.
Lemma entries_blind cfg1 cfg2 idx l1 l2 m :
  ga_default_security (ganesha cfg1) = ga_default_security (ganesha cfg2) -> navahi_discovery cfg1 = navahi_discovery cfg2 ->
  map blind l1 = map blind l2 -> entries_of cfg1 idx l1 m = entries_of cfg2 idx l2 m.
Proof.
  intros Hd Hn. revert idx l2 m. induction l1 as [|s1 l1 IH]; intros idx [|s2 l2] m E; try done.
  cbn [map] in E. apply cons_parts in E as [Hb Hl]. cbn [manifest_shares].
  rewrite <- (status_blind _ _ s1), <- (status_blind _ _ s2).
  rewrite Hb. destruct (share_acl_status _ _ _ _ _ _ _ _) as [st m1]. rewrite (IH (S idx) l2 m1 Hl).
  destruct (entries_of cfg2 (S idx) l2 m1) as [es m2]. do 2 f_equal.
  assert (Hm : forall cfg s, manifest_share cfg s st
    = {| ms_name := sh_name (blind s); ms_pseudo := derive_share_pseudo (blind s);
         ms_security := default (ga_default_security (ganesha cfg)) (sh_security (blind s)); ms_rw := default true (sh_rw (blind s));
         ms_acl := if effective_acl_capable st then "acl" else "noacl"; ms_acl_state := state_label st;
         ms_navahi := share_navahi_effective cfg (blind s) |}) by done.
  rewrite !Hm, Hb, Hd. f_equal. unfold share_navahi_effective. by rewrite Hn.
Qed.
(** Nobody learns more from the manifest than the public part: two configurations
    that agree on it, whatever their credentials, their host paths and their
    staging sources, have the same manifest. *)
Theorem manifest_hides_the_rest cfg1 cfg2 host now m :
  public_part cfg1 = public_part cfg2 ->
  client_manifest ttl wp rs snap clock cfg1 host now m = client_manifest ttl wp rs snap clock cfg2 host now m.
Proof.
  intros H. unfold public_part in H. apply pair_equal_spec in H as [H Hs]. apply pair_equal_spec in H as [Hd Hn].
  unfold client_manifest. by rewrite (entries_blind cfg1 cfg2 0 (shares cfg1) (shares cfg2) m Hd Hn Hs).
Qed.
(** The manifest classifies the shares as the page of the WebUI does: an entry per
    card, in the same order, with the same ACL class and the same advert. *)
Definition card_matches (e : ManifestShare) (c : ShareInfo) : Prop :=
  ms_name e = si_name c /\ ms_acl e = (if si_acl_capable c then "acl" else "noacl") /\ ms_navahi e = si_navahi c.
Theorem manifest_agrees_with_page to_lowercase server_name cfg host now m :
  let '(doc, m1) := client_manifest ttl wp rs snap clock cfg host now m in
  let '(cards, m2) := index_shares to_lowercase server_name cfg ttl wp rs snap clock m in
  Forall2 card_matches (cm_shares doc) cards /\ m1 = m2.
Proof.
  unfold client_manifest, index_shares.
  assert (H : forall l idx m, let '(es, m1) := entries_of cfg idx l m in
      let '(cards, m2) := share_cards to_lowercase server_name cfg ttl wp rs snap clock idx l m in Forall2 card_matches es cards /\ m1 = m2).
  { induction l as [|s l IH]; intros idx m0; cbn [manifest_shares share_cards]; [by split|].
    destruct (share_acl_status _ _ _ _ _ _ _ _) as [st m1]. specialize (IH (S idx) m1).
    destruct (entries_of cfg (S idx) l m1) as [es m2]. destruct (share_cards _ _ _ _ _ _ _ _ _ _) as [cards m3].
    destruct IH as [IH ->]. split; [|done]. by constructor. }
  specialize (H (shares cfg) 0%nat m). destruct (entries_of cfg 0 (shares cfg) m) as [es m1].
  by destruct (share_cards _ _ _ _ _ _ _ _ _ _) as [cards m2].
Qed.
End Props.
Theorem stamp_reads : now_rfc3339_utc {| u_year := 2025; u_month := 3; u_day := 9; u_hour := 7; u_minute := 5; u_second := 0 |}
  = "2025-03-09T07:05:00Z".
Proof. by vm_compute. Qed.
